(* ===== verification/_CoqProject ===== *)
-Q . S2P
Prelude.v
JsString.v
JsJson.v
JsEncoding.v
JsStream.v
JsDate.v
JsRegex.v
Validation.v
SourceIp.v
FirewallRule.v
Recordings.v
Terminal.v
Chatwoot.v
Connectivity.v
Permission.v
AuthTypes.v
ListParams.v
VaultTypes.v
VaultTracker.v
VaultWorld.v
VaultCrypto.v
VaultBackend.v
VaultStore.v
VaultLaws.v
VaultStoreFacts.v
VaultRefine.v
VaultToy.v
VaultRaces.v
VaultMigrate.v
VaultScopes.v
VaultExamples.v
Session.v
SessionFacts.v
SessionExamples.v
RecordingsFacts.v
SshKeys.v
InstallKeys.v
Pairing.v
SignUp.v
SshIdentity.v
Otp.v
SshApproval.v
SshApprovalFacts.v
CommandPalette.v
AccessPolicy.v
BrowserKey.v
Connect.v
DevicePolling.v
Schemas.v
AccountForms.v
VaultKeyForm.v
TerminalErrors.v
WebTerminal.v
TerminalTheme.v
Login.v
AcceptDevice.v
Routes.v
MfaEnable.v
MfaDisable.v
DeviceChooser.v
WebEndpoints.v
ListPages.v
ActionDialog.v
Queries.v
AcceptInvite.v
SignUpPage.v
AccountPages.v
Tags.v
VaultDialogs.v
Billing.v
InstallKeyForms.v
TeamPage.v
ConsoleForms.v
Player.v
SettingsPages.v
RecoveryPages.v
KeyDrawers.v
