(* ===== verification/Prelude.v ===== *)
(** * ShellHub console: a verification library

    ShellHub gives access to devices over SSH through a server; its web console
    (ui/apps/console) is the TypeScript program this library is about.  The server
    and the agents are Go services which the console sees only as HTTP replies:
    here they are arguments, and the theorems hold for every reply.

    ** The program and its parts

    - The vault keeps a user's private keys encrypted, in localStorage or on the
      server.  stores/vaultStore.ts drives it: it calls the cryptography
      (utils/vault-crypto.ts), one of two storage backends behind an interface
      (utils/vault-backend*.ts), the migrations between them
      (utils/vault-migrate.ts) and the auto-lock tracker
      (utils/vault-activity-tracker.ts).
    - The session (stores/authStore.ts, stores/mfaResetStore.ts,
      api/fetchInterceptors.ts) signs in and out.  Signing out reaches into the
      vault, the terminals (stores/terminalStore.ts), the chat widget
      (hooks/chatwootRuntime.ts), the recordings and the query cache; every HTTP
      call passes its interceptors, which also feed stores/connectivityStore.ts.
    - Recordings of terminal sessions live in the browser's file system
      (utils/recordings.ts, stores/recordingsStore.ts).
    - Devices are added by pairing code (hooks/useDevicePairingEnrollment.ts) and
      claimed by the code they show (components/devices/AcceptDeviceFlow.tsx);
      hooks/useDevicePolling.ts waits for one to appear.
    - A web terminal is opened from the connect drawer
      (components/ConnectDrawer.tsx), which chooses the credential, the browser's
      own key (utils/browserKey.ts) included, and hands a session to the terminal
      store; components/terminal/TerminalInstance.tsx talks to the gateway, signs
      its challenge, feeds the recorder and erases the credential.  A login the
      gateway holds open is decided in pages/SSHApproval.tsx
      (hooks/useSSHApproval.ts), with the code field of hooks/useOtpInput.ts.
    - The command palette (hooks/useCommandPalette.ts,
      components/commandPalette/) lists devices, sessions and pages and acts on
      the terminal store.
    - Pages sign in and go on to where the user was (pages/Login.tsx,
      utils/navigation.ts); access policies, vault keys, public keys, accounts,
      teams and settings are edited in forms with schemas of their own.
    - App.tsx has the tree of routes and its guards (components/common/), which
      read the stores, three queries and the configuration (env.ts).
    - The second factor is turned on and off in components/mfa/; a Cloud namespace
      subscribes, pays and, over its limit, chooses devices in components/billing/.
    - The vault has dialogs of its own (components/vault/, pages/secure-vault/), which
      run the store's actions and the migrations.
    - Accounts are made and recovered in pages of their own (pages/SignUp.tsx,
      pages/AcceptInvite.tsx, pages/ForgotPassword.tsx and their neighbours); a
      namespace's members and invitations are in pages/team/.
    - Lists (devices, containers, web endpoints, tags, keys) send filters built in
      hooks/use*.ts, and a mutation marks the cached answers it outdates; rows are
      acted on in dialogs (hooks/useActionDialogState.ts,
      components/common/ConfirmDialog.tsx).
    - The look of terminals and of the console is kept in localStorage
      (stores/terminalThemeStore.ts, stores/themeStore.ts).
    - List pages keep their state in the URL (hooks/paginatedListParams.ts,
      hooks/usePaginatedListState.ts).
    - Forms and cards use pure helpers: utils/validation.ts, utils/sourceIp.ts,
      utils/permission.ts, utils/sshKeys.ts, utils/sshIdentity.ts,
      pages/firewall-rules/ruleSchema.ts, pages/install-keys/helpers.ts,
      api/errors.ts with stores/signUpStore.ts.

    ** The language

    [Prelude] has the effect monad [M W A] (a handler is a function from a world
    to a result, a value or an exception, and a world), its laws, the preserved
    predicates [keeps] with their tactic [keeping], and list lemmas.  [JsString] models
    strings as UTF-16 code units with the methods the code uses, and numbers as
    exact decimals ([Number], [parseInt]); [JsJson] [JSON.parse] and
    [JSON.stringify] with their round trip; [JsEncoding] UTF-8 and base64 with
    theirs; [JsStream] the streaming decoder of the terminal; [JsDate]
    [toISOString]; [JsRegex] anchored regular expressions, by
    derivatives, with their language.

    ** Which file models what

    - [VaultTypes]: types/vault.ts, utils/vault-parse.ts.  [VaultTracker]: the
      tracker with its timers and listeners.  [VaultWorld]: the record [World] of
      everything the vault code can touch, and the schedule of what other tasks do
      at each [await].  [VaultCrypto], [VaultBackend], [VaultStore]: one
      definition per function of the source, in its order.  [VaultLaws]: the
      contract of a backend as a class, with an instance for each backend.
      [VaultStoreFacts]: how the actions evaluate.  [VaultRefine]: the abstract
      vault and the simulation.  [VaultRaces], [VaultMigrate], [VaultScopes]:
      interleavings, migrations, isolation.  [VaultToy], [VaultExamples]:
      concrete collaborators and runs.
    - [AuthTypes], [Session]: the auth and MFA stores and the interceptors over
      the record [App], which contains the vault's world and the states of
      [Terminal], [Chatwoot] and [Connectivity].  [SessionFacts] and
      [SessionExamples]: theorems and their instances.
    - [Terminal], [Chatwoot], [Connectivity], [Pairing]: state machines with an
      event type and a [run]; [Recordings] and [RecordingsFacts].
    - [SshApproval] and [SshApprovalFacts]: the approval hook and page, over the
      code field of [Otp].  [Connect]: the drawer, over [BrowserKey], [SshKeys]
      and [Terminal].  [WebTerminal]: one terminal's connection, over [Terminal],
      [Recordings], [SshKeys], [JsStream] and the messages of [TerminalErrors].
      [AcceptDevice], [DevicePolling], [CommandPalette], [TerminalTheme], [Login]:
      state machines in which every answer of the server is an event.
    - [AccessPolicy] (with the address field, over [SourceIp]); [VaultKeyForm]
      (whose submission runs [VaultStore]'s actions); [Schemas] (modules
      [UserForm], [KeyForm]); [AccountForms] (modules [Setup], [Profile], [Team],
      [Namespaces], [Saml], over [Validation]).
    - [Routes]: the tree, the guards, what a path shows, the links of the sidebars
      and of [CommandPalette] (modules [Config] and [License]).  [MfaEnable],
      [MfaDisable] (over [Otp]) and [DeviceChooser] (module [Debounce]): dialogs as
      state machines.
    - [VaultDialogs]: the forms of the vault as programs over [VaultStore] and
      [VaultBackend], and its sync dialog (module [Sync]), toast (module [Toast]),
      reset and page as state machines.  [Billing] (modules [Payment], [Wizard]).
    - [Queries]: filters, query parameters, what a mutation invalidates, and signing
      in as another user (module [LoginAs]).  [ListPages]: pages, tables and deleting
      (module [Deleting]).  [ActionDialog]: the operations on a device or container.
      [Tags] (modules [Manage], [Popover], [TagsSection]).
    - [WebEndpoints], [InstallKeyForms] (over [InstallKeys]), [TeamPage] (over
      [Permission] and [AccountForms]): drawers with every keystroke, click and answer
      an event and the requests sent kept in the state.
    - [AcceptInvite], [SignUpPage] (over [SignUp]), [AccountPages] (modules [Password],
      [Resend], [ResetComplete], [Recovery]): the account pages.
    - [ConsoleForms]: the install command (module [AddDevice]), renaming ([Rename]),
      custom fields, the license ([Upload], [Banner]), namespaces and the sidebar.
      [Player]: the player of recordings.
    - [SettingsPages] (modules [NamespaceSettings], [Account], [Migration],
      [Support]): the settings of the namespace and the account, the page shown
      during a migration and the hook of the support widget.  [RecoveryPages]: the
      pages that get in without the second factor, as programs over [Session].
      [KeyDrawers] (modules [Identity], [Reveal], [Generate], [Banner],
      [Authentication]): drawers that add keys and dialogs that show secrets.
    - [ListParams], [Validation], [SourceIp], [FirewallRule], [Permission],
      [SshKeys], [SshIdentity], [InstallKeys], [SignUp]: the file each names in
      its opening comment.

    Names are those of the source.  A [set] of a zustand store is a record
    update; a module variable is a field of the state; a promise that other code
    can overtake is a pause, or a pair of definitions for the parts before and
    after it.

    ** What the theorems show

    - Refinement and invariants of the vault: the store simulates a password, a
      key list and a flag; while locked nothing is in memory; locking and
      unlocking is the identity on keys; a migration never leaves the vault in no
      place; the server's version is checked; users and namespaces are isolated;
      the auto-lock fires within its window and leaks no timer.
    - The session: sign-out leaves nothing, not even a pending auto-lock; the copies
      of the session stay in step under every interleaving; an expired token is
      never sent, and a rejected one ends the session, whatever runs meanwhile,
      unless the page completes a sign-in by token; what each reply to a sign-in
      leaves.
    - State machines: the console is never stuck offline nor marked down before
      the grace period; the pairing hook is never stuck and connects only for its
      code; one terminal at most is visible and erased credentials stay erased;
      the widget is torn down completely; polling that was stopped ends.
    - Credentials: a key signs one challenge and is then erased everywhere; every
      terminal has exactly one credential, and a browser key only one the server
      knows; the palette connects only with the permission to; the approval
      dialog, while it stays on one request, shows a verdict only on the server's
      word, and a re-authentication is never confirmed by a click.
    - Forms: what is sent is what is shown and of the form stated (access policies,
      device claims, vault keys composed with the vault), a code field holds only
      allowed characters, a sign-in leads to a path of the guard's shape, the
      appearance survives a reload.
    - Drawers and dialogs under every order of clicks and answers: the unlock dialog,
      on a storage that answers, closes exactly on the master password; each move of
      the sync dialog closes it only with the whole vault moved and the session
      locked, and a vault is replaced only when asked; an invitation is used
      only by its addressee; a request of the team page is within the user's role;
      install keys and web endpoints are sent only with values in range; an operation
      is sent at most once per dialog; a device keeps at most three distinct tags;
      deleting a row leaves a page that exists; the billing wizard announces a
      success only when the server confirmed one, as long as the screen keeps up; a
      namespace is deleted only by who may and with its name typed; an install key's
      secret is shown only to who may reveal it, for the key the dialog is open for;
      keys of people and of service accounts are sent only when valid and allowed.
    - Pages over the session: a recovery code or the codes of both e-mails sign in
      and use up the reset, a refused one signs nobody in; the migration page never
      stops asking nor asks twice; the support widget knows the user signed in.
    - The cache: the filter a list sends decodes to the clauses spelled out for it,
      and no answer a successful mutation outdates stays fresh.
    - Navigation: no page is shown unless the checks it requires have passed, a
      redirect is always the last, and no link of a sidebar or of the palette
      misses its page.
    - What the device prints: the screen shows it in order and the recording, the
      current or the finished one, holds the decoding of all that came since it
      started, characters split between frames included.
    - Round trips: recordings replay, the URL state of a list (a reordered array
      keeps the order shown) beside the other lists of the page, a firewall rule
      through its form, an access policy and a public key through theirs, the
      line of a browser key, the allow list of an install key, the SAML settings.
    - Exactness: validators, permissions, source addresses, token expiry, the
      recent devices against the history of connections, the usage meter.
    - Defects, each shown on a concrete run or for every state: a lock during a
      change of password loses the keys; a lock during an unlock is undone; a
      retry after a conflict overwrites another session; a full localStorage
      leaves the vault loading; a vanished vault leaves secrets in memory; a reply
      after a sign-out restores the identity; base64url tokens read with [atob];
      priorities checked with [Number] and sent with [parseInt]; a late failure
      of a superseded check drops the pairing code; late answers in the approval
      dialog, the policy drawer and the connect drawer act on what is shown next;
      a second namespace switch never starts; a redirect with a tab passes the
      guard; a chain of certificates is joined into one; two quick clicks skip the
      confirmation of a subscription; a check made for another namespace enables the
      sync; a container keeps showing a renamed tag.  They stand in the
      modules [Cases], [Traces], [Runs] and [Example_] or beside the definition.

    ** Parameters and their laws

    [WebCrypto] with [WebCryptoLaws] (decryption inverts encryption) and
    [IdealCrypto] (a blob opens under no other key); [Platform] with
    [PlatformLaws] and [QuotaLaws] (storage quota, random source, edition);
    [VaultApi] with [VaultApiLaws] and [AuthServer] (the endpoints); [HttpClient]
    with [HttpClientLaws] (the generated client runs the registered
    interceptors); [Persist] with [PersistLaws] (zustand's middleware);
    [RouterLaws] (React Router's choice of a route); [Sshpk] and the digest;
    [Buffer] reading base64; [RegExp], [URL], date-fns, locale formatting and
    [toLowerCase] beyond ASCII as functions.  [VaultToy], [SessionExamples] and
    [Routes.Visits] give instances that satisfy
    the laws.

    ** Fuel and bounds

    [JsJson.parse] runs with fuel twice the length of its input plus one, which
    [need_bound] shows to be enough for every text [stringify] prints.  Decimal
    printing has fuel one more than the bit length ([digitsN_value]).  Everything
    else recurses on its data.  Integers are unbounded where the source's numbers
    stay far below 2^53, except [setUint32] and [readUInt32BE], which are at 32
    bits, and bytes.

    ** Not modelled

    React rendering, xterm's drawing, the player library and the generated client
    (no logic of their own, or not in the sources); when TanStack Query refetches
    (on focus, for one); removals of recording files that fail, which the code
    ignores;
    Stripe's elements; pages that only show query results (the dashboard, details,
    lists beyond their dialogs); the single sign-on and invitation variants of the
    sign-in page; the website, the documentation and the design system (static); the
    Go services (another language, seen through replies); rounding of numbers beyond
    53 bits; the display copy of sshIdentity.ts. *)

From stdpp Require Export base tactics list gmap.
From stdpp Require Export numbers strings.
From Stdlib Require Export Lia.

#[global] Open Scope Z_scope.

(** Strings of the program are sequences of UTF-16 code units; see [JsString]. *)
Notation jsstring := (list N).

(** ** Results of code that may throw

    TypeScript code throws values of any type and inspects them with
    [err instanceof Error ? err.message : "..."]; [Thrown text] stands for a
    value that is not an [Error] and for which [String(err)] is [text]. *)

Inductive exn :=
  | Error (message : jsstring)
  | Thrown (text : jsstring).

(** [err instanceof Error ? err.message : fallback] *)
Definition error_message (fallback : jsstring) (e : exn) : jsstring :=
  match e with Error m => m | Thrown _ => fallback end.

#[export] Instance exn_eq_dec : EqDecision exn.
Proof. solve_decision. Defined.

Inductive res (A : Type) :=
  | Ok (a : A)
  | Throw (e : exn).
Arguments Ok {A} _.
Arguments Throw {A} _.

(** ** The effect monad

    A computation over a world [W]: the code of a handler from its first
    statement to its last, threading every piece of mutable state the handler
    can reach, and ending in a value or an exception.  The state reached at a
    [throw] is kept, as in the source language. *)

Definition M (W A : Type) : Type := W → res A * W.

#[export] Instance M_ret W : MRet (M W) := λ A a w, (Ok a, w).
#[export] Instance M_bind W : MBind (M W) := λ A B f m w,
  match m w with
  | (Ok a, w') => f a w'
  | (Throw e, w') => (Throw e, w')
  end.
#[export] Instance M_fmap W : FMap (M W) := λ A B f m w,
  match m w with
  | (Ok a, w') => (Ok (f a), w')
  | (Throw e, w') => (Throw e, w')
  end.

Definition throw {W A} (e : exn) : M W A := λ w, (Throw e, w).
Definition gets {W A} (f : W → A) : M W A := λ w, (Ok (f w), w).
Definition modify {W} (f : W → W) : M W unit := λ w, (Ok tt, f w).
Definition when {W} (b : bool) (m : M W unit) : M W unit :=
  if b then m else mret tt.

(** [try { m } catch (err) { h(err) }] *)
Definition try_catch {W A} (m : M W A) (h : exn → M W A) : M W A := λ w,
  match m w with
  | (Ok a, w') => (Ok a, w')
  | (Throw e, w') => h e w'
  end.

(** [try { m } finally { k }] *)
Definition try_finally {W A} (m : M W A) (k : M W unit) : M W A := λ w,
  match m w with
  | (r, w') =>
      match k w' with
      | (Ok _, w'') => (r, w'')
      | (Throw e, w'') => (Throw e, w'')
      end
  end.

(** [p.catch(() => undefined)] *)
Definition swallow {W} (m : M W unit) : M W unit := try_catch m (λ _, mret tt).

(** A [try] block whose handlers may [return] from the enclosing function:
    [inl] is "returned", [inr] is "fell through with this value". *)
Definition or_return {W A B} (m : M W (A + B)) (k : B → M W A) : M W A :=
  r ← m; match r with inl a => mret a | inr b => k b end.

Section MonadLaws.
Context {W : Type}.

Lemma bind_ret {A B} (a : A) (f : A → M W B) w : (mret a ≫= f) w = f a w.
Proof. done. Qed.

Lemma bind_bind {A B C} (m : M W A) (f : A → M W B) (g : B → M W C) w :
  ((m ≫= f) ≫= g) w = (m ≫= (λ a, f a ≫= g)) w.
Proof. unfold mbind, M_bind. by destruct (m w) as [[]]. Qed.

Lemma bind_ok {A B} (m : M W A) (f : A → M W B) w a w' :
  m w = (Ok a, w') → (m ≫= f) w = f a w'.
Proof. unfold mbind, M_bind. by intros ->. Qed.

Lemma bind_throw {A B} (m : M W A) (f : A → M W B) w e w' :
  m w = (Throw e, w') → (m ≫= f) w = (Throw e, w').
Proof. unfold mbind, M_bind. by intros ->. Qed.

Lemma try_ok {A} (m : M W A) h w a w' :
  m w = (Ok a, w') → try_catch m h w = (Ok a, w').
Proof. unfold try_catch. by intros ->. Qed.

Lemma try_throw {A} (m : M W A) h w e w' :
  m w = (Throw e, w') → try_catch m h w = h e w'.
Proof. unfold try_catch. by intros ->. Qed.

(** [swallow] never throws. *)
Lemma swallow_ok (m : M W unit) w : swallow m w = (Ok tt, (m w).2).
Proof. unfold swallow, try_catch. by destruct (m w) as [[[]|]]. Qed.

End MonadLaws.

#[export] Hint Unfold mret mbind fmap M_ret M_bind M_fmap throw gets modify when : effects.

(** Evaluate a computation whose sub-computations are already known. *)
Ltac run1 :=
  match goal with
  | H : ?m ?w = (Ok _, _) |- context [ (?m ≫= ?f) ?w ] => rewrite (bind_ok m f w _ _ H)
  | H : ?m ?w = (Throw _, _) |- context [ (?m ≫= ?f) ?w ] => rewrite (bind_throw m f w _ _ H)
  | H : ?m ?w = (Ok _, _) |- context [ try_catch ?m ?h ?w ] => rewrite (try_ok m h w _ _ H)
  | H : ?m ?w = (Throw _, _) |- context [ try_catch ?m ?h ?w ] => rewrite (try_throw m h w _ _ H)
  end.

(** ** Computations that keep a property

    [keeps P m]: whatever [m] does and however it ends, it leads from worlds with
    [P] to worlds with [P]. *)

Record keeps {W A} (P : W → Prop) (m : M W A) : Prop := mkKeeps { keeps_run w : P w → P (m w).2 }.

Section Keeps.
Context {W : Type} (P : W → Prop).

Lemma keeps_ret {A} (a : A) : keeps P (mret a).
Proof. by split. Qed.
Lemma keeps_throw {A} e : keeps P (@throw W A e).
Proof. by split. Qed.
Lemma keeps_gets {A} (f : W → A) : keeps P (gets f).
Proof. by split. Qed.
Lemma keeps_modify f : (∀ w, P w → P (f w)) → keeps P (modify f).
Proof. intros H. split. apply H. Qed.
Lemma keeps_bind {A B} (m : M W A) (f : A → M W B) :
  keeps P m → (∀ a, keeps P (f a)) → keeps P (m ≫= f).
Proof.
  intros [Hm] Hf. split. intros w Hw. unfold mbind, M_bind. specialize (Hm w Hw).
  destruct (m w) as [[a|e] w']; [by apply Hf|done].
Qed.
Lemma keeps_try {A} (m : M W A) h : keeps P m → (∀ e, keeps P (h e)) → keeps P (try_catch m h).
Proof.
  intros [Hm] Hh. split. intros w Hw. unfold try_catch. specialize (Hm w Hw).
  destruct (m w) as [[a|e] w']; [done|by apply Hh].
Qed.
Lemma keeps_finally {A} (m : M W A) k : keeps P m → keeps P k → keeps P (try_finally m k).
Proof.
  intros [Hm] [Hk]. split. intros w Hw. unfold try_finally. specialize (Hm w Hw).
  destruct (m w) as [r w']. specialize (Hk w' Hm). by destruct (k w') as [[[]|e] w''].
Qed.
Lemma keeps_when b (m : M W unit) : keeps P m → keeps P (when b m).
Proof. intros H. destruct b; [done|apply keeps_ret]. Qed.

End Keeps.

Create HintDb keeps discriminated.
#[export] Hint Constants Opaque : keeps.
#[export] Hint Resolve keeps_ret keeps_throw keeps_gets keeps_when : keeps.

(** Walk a computation down to the effects the hint database knows. *)
Ltac keeping :=
  repeat first
    [ progress intros
    | solve [auto 2 with keeps nocore]
    | lazymatch goal with
      | |- keeps _ (when _ _) => apply keeps_when
      | |- keeps _ (_ ≫= _) => apply keeps_bind
      | |- keeps _ (try_catch _ _) => apply keeps_try
      | |- keeps _ (try_finally _ _) => apply keeps_finally
      | |- keeps _ (match ?x with _ => _ end) => destruct x
      end ].

(** ** Generic lemmas *)

Lemma forallb_Forall {A} (p : A → bool) l : forallb p l = true ↔ Forall (λ x, p x = true) l.
Proof. rewrite forallb_forall, List.Forall_forall. done. Qed.

Lemma Forall_mp {A} (p : A → bool) (P : A → Prop) l :
  Forall (λ x, p x = true → P x) l → forallb p l = true → Forall P l.
Proof. induction 1; simpl; [done|]. rewrite andb_true_iff. intros []. auto. Qed.

Lemma Forall_ltb (n : N) l : forallb (λ c, c <? n)%N l = true → Forall (λ c, c < n)%N l.
Proof.
  rewrite forallb_Forall. intros H. eapply Forall_impl; [exact H|]. intros c. apply N.ltb_lt.
Qed.

Lemma List_filter_id {A} (p : A → bool) l : Forall (λ x, p x = true) l → List.filter p l = l.
Proof. induction 1 as [|x l Hx Hl IH]; simpl; [done|]. by rewrite Hx, IH. Qed.

Lemma existsb_elem {A} (p : A → bool) (l : list A) :
  existsb p l = true ↔ ∃ x, x ∈ l ∧ p x = true.
Proof. rewrite existsb_exists. by setoid_rewrite list_elem_of_In. Qed.

Lemma existsb_false {A} (p : A → bool) (l : list A) :
  existsb p l = false ↔ ∀ x, x ∈ l → p x = false.
Proof.
  rewrite <-not_true_iff_false, existsb_elem. split.
  - intros H x Hx. destruct (p x) eqn:E; [|done]. exfalso. eauto.
  - intros H (x & Hx & E). rewrite H in E by done. done.
Qed.

Lemma bool_decide_eqb_sym {A} `{EqDecision A} (x y : A) :
  bool_decide (x = y) = bool_decide (y = x).
Proof. by apply bool_decide_ext. Qed.

(** [lia] with division and remainder by constants. *)
Ltac zlia := zify; Z.to_euclidean_division_equations; lia.

(** Case analysis on the booleans of a goal, with the decided proposition. *)
Ltac bdestruct_all :=
  repeat (case_bool_decide || case_match); simplify_eq; try done.
