(* ===== verification/JsString.v ===== *)
(** * Strings and numbers of the source language

    A JavaScript string is a sequence of UTF-16 code units ([jsstring], a list
    of [N]); the string methods the console uses are the functions below, with
    the code-unit semantics of the language.  Numbers are exact decimals: the
    rounding of a literal with more than 53 significant bits is not modelled,
    its overflow to [Infinity] is. *)

From S2P Require Import Prelude.

#[local] Open Scope N_scope.

(** ** Literals

    [js "..."] decodes the UTF-8 bytes of a literal of this file into code
    units, so that a literal reads as it does in the source. *)

Fixpoint utf8_units (l : list N) : jsstring :=
  match l with
  | [] => []
  | b0 :: r0 =>
      if b0 <? 128 then b0 :: utf8_units r0
      else match r0 with
      | [] => []
      | b1 :: r1 =>
          if b0 <? 224 then ((b0 - 192) * 64 + (b1 - 128)) :: utf8_units r1
          else match r1 with
          | [] => []
          | b2 :: r2 => ((b0 - 224) * 4096 + (b1 - 128) * 64 + (b2 - 128)) :: utf8_units r2
          end
      end
  end.

Definition js (s : string) : jsstring :=
  utf8_units (map Ascii.N_of_ascii (String.list_ascii_of_string s)).

Arguments js _%_string_scope : simpl never.

(** ** Classes of code units *)

Definition in_range (lo hi c : N) : bool := (lo <=? c) && (c <=? hi).
Definition is_digit (c : N) : bool := in_range 48 57 c.
Definition is_lower (c : N) : bool := in_range 97 122 c.
Definition is_upper (c : N) : bool := in_range 65 90 c.
Definition is_hex (c : N) : bool := is_digit c || in_range 65 70 c || in_range 97 102 c.

(** WhiteSpace and LineTerminator of the language: what [trim] strips and
    what [\s] matches. *)
Definition is_ws (c : N) : bool :=
  in_range 9 13 c || (c =? 32) || (c =? 160) || (c =? 5760) || in_range 8192 8202 c
  || in_range 8232 8233 c || (c =? 8239) || (c =? 8287) || (c =? 12288) || (c =? 65279).

Definition is_high_surrogate (c : N) : bool := in_range 55296 56319 c.
Definition is_low_surrogate (c : N) : bool := in_range 56320 57343 c.

(** ** String methods *)

Fixpoint trimStart (s : jsstring) : jsstring :=
  match s with
  | c :: r => if is_ws c then trimStart r else s
  | [] => []
  end.
Definition trimEnd (s : jsstring) : jsstring := reverse (trimStart (reverse s)).
Definition trim (s : jsstring) : jsstring := trimEnd (trimStart s).

Fixpoint startsWith (s p : jsstring) {struct p} : bool :=
  match p, s with
  | [], _ => true
  | c :: p', d :: s' => (c =? d) && startsWith s' p'
  | _ :: _, [] => false
  end.
Definition endsWith (s p : jsstring) : bool := startsWith (reverse s) (reverse p).

Fixpoint indexOf (s p : jsstring) : option nat :=
  if startsWith s p then Some 0%nat
  else match s with
  | [] => None
  | _ :: r => S <$> indexOf r p
  end.
Definition includes (s p : jsstring) : bool :=
  match indexOf s p with Some _ => true | None => false end.

(** [s.split(c)] for a one-unit separator. *)
Fixpoint split (s : jsstring) (c : N) : list jsstring :=
  match s with
  | [] => [[]]
  | x :: r =>
      if x =? c then [] :: split r c
      else match split r c with
      | h :: t => (x :: h) :: t
      | [] => [[x]]
      end
  end.

Fixpoint join (sep : jsstring) (l : list jsstring) : jsstring :=
  match l with
  | [] => []
  | [x] => x
  | x :: r => x ++ sep ++ join sep r
  end.

(** [s] is falsy exactly when it is empty. *)
Definition truthy (s : jsstring) : bool := match s with [] => false | _ => true end.

(** [a ?? b] and [a || b] on an optional string. *)
Definition nullish {A} (a : option A) (b : A) : A := default b a.
Definition or_else (a : option jsstring) (b : jsstring) : jsstring :=
  match a with Some s => if truthy s then s else b | None => b end.

Definition is_truthy (a : option jsstring) : bool :=
  match a with Some s => truthy s | None => false end.

(** ** Integers in decimal *)

Fixpoint digits_fuel (f : nat) (n : N) (acc : jsstring) : jsstring :=
  match f with
  | O => acc
  | S f' =>
      let acc' := (48 + n mod 10) :: acc in
      if n / 10 =? 0 then acc' else digits_fuel f' (n / 10) acc'
  end.

Definition digitsN (n : N) : jsstring := digits_fuel (S (N.to_nat (N.size n))) n [].

Definition digits_value (ds : jsstring) : N :=
  fold_left (λ a c, a * 10 + (c - 48)) ds 0.

Definition Z_to_string (z : Z) : jsstring :=
  if (z <? 0)%Z then 45 :: digitsN (Z.to_N (- z)) else digitsN (Z.to_N z).

Fixpoint span (p : N → bool) (s : jsstring) : jsstring * jsstring :=
  match s with
  | [] => ([], [])
  | c :: r => if p c then let '(a, b) := span p r in (c :: a, b) else ([], s)
  end.

(** [parseInt(s, 10)]; [None] is [NaN]. *)
Definition read_sign (s : jsstring) : bool * jsstring :=
  match s with
  | 45 :: r => (true, r)
  | 43 :: r => (false, r)
  | _ => (false, s)
  end.

Definition signed (neg : bool) (n : Z) : Z := if neg then (- n)%Z else n.

Definition parseInt (s : jsstring) : option Z :=
  let '(neg, r) := read_sign (trimStart s) in
  let ds := (span is_digit r).1 in
  if bool_decide (ds = []) then None
  else Some (signed neg (Z.of_N (digits_value ds))).

(** ** Numbers

    A finite number is [m / 10^k], with no trailing zero when [k] is positive;
    [NaN] and the infinities are apart. *)

Inductive jsnum :=
  | NaN
  | Inf (neg : bool)
  | Dec (m : Z) (k : nat).

#[export] Instance jsnum_eq_dec : EqDecision jsnum.
Proof. solve_decision. Defined.

Fixpoint dec_norm (m : Z) (k : nat) : jsnum :=
  match k with
  | O => Dec m 0
  | S k' => if (m mod 10 =? 0)%Z then dec_norm (m / 10)%Z k' else Dec m k
  end.

(** The first magnitude that rounds to [Infinity]. *)
Definition overflow_bound : Z := (2 ^ 1024 - 2 ^ 970)%Z.

Definition mk_num (m : Z) (e : Z) : jsnum :=
  let m' := if (0 <=? e)%Z then (m * 10 ^ e)%Z else m in
  let k := Z.to_nat (- e) in
  if (overflow_bound * 10 ^ Z.of_nat k <=? Z.abs m')%Z then Inf (m <? 0)%Z
  else dec_norm m' k.

(** Unsigned decimal literal: digits, optional fraction, optional exponent;
    the mantissa, the decimal exponent and the rest of the input. *)
Definition read_fraction (s : jsstring) : jsstring * jsstring :=
  match s with
  | 46 :: r => span is_digit r
  | _ => ([], s)
  end.

Definition read_exponent (s : jsstring) : option (Z * jsstring) :=
  match s with
  | c :: r =>
      if (c =? 101) || (c =? 69) then
        let '(neg, r') := read_sign r in
        let '(ds, r'') := span is_digit r' in
        if bool_decide (ds = []) then None
        else Some (signed neg (Z.of_N (digits_value ds)), r'')
      else Some (0%Z, s)
  | [] => Some (0%Z, s)
  end.

Definition read_decimal (s : jsstring) : option (Z * Z * jsstring) :=
  let '(ip, r) := span is_digit s in
  let '(fp, r') := read_fraction r in
  if bool_decide (ip ++ fp = []) then None
  else
    match read_exponent r' with
    | Some (e, r'') =>
        Some (Z.of_N (digits_value (ip ++ fp)), (e - Z.of_nat (length fp))%Z, r'')
    | None => None
    end.

Definition hex_value (c : N) : N :=
  if is_digit c then c - 48 else if is_upper c then c - 55 else c - 87.
Definition radix_value (base : N) (ds : jsstring) : N :=
  fold_left (λ a c, a * base + hex_value c) ds 0.

Definition read_radix (base : N) (ok : N → bool) (s : jsstring) : jsnum :=
  if bool_decide (s = []) then NaN
  else if forallb ok s then mk_num (Z.of_N (radix_value base s)) 0 else NaN.

(** [0x], [0o] and [0b] literals, which take no sign. *)
Definition radix_prefix (t : jsstring) : option (N * (N → bool) * jsstring) :=
  match t with
  | z :: p :: r =>
      if negb (z =? 48) then None
      else if (p =? 120) || (p =? 88) then Some (16, is_hex, r)
      else if (p =? 111) || (p =? 79) then Some (8, in_range 48 55, r)
      else if (p =? 98) || (p =? 66) then Some (2, in_range 48 49, r)
      else None
  | _ => None
  end.

(** [Number(s)] *)
Definition Number (s : jsstring) : jsnum :=
  let t := trim s in
  if bool_decide (t = []) then Dec 0 0
  else match radix_prefix t with
  | Some (base, ok, r) => read_radix base ok r
  | None =>
      let '(neg, u) := read_sign t in
      if bool_decide (u = js "Infinity") then Inf neg
      else match read_decimal u with
      | Some (m, e, []) => mk_num (signed neg m) e
      | _ => NaN
      end
  end.

Definition isInteger (n : jsnum) : bool :=
  match n with Dec _ O => true | _ => false end.

(** The integer a number is, when [Number.isInteger] holds of it. *)
Definition as_integer (n : jsnum) : option Z :=
  match n with Dec m O => Some m | _ => None end.

(** [n <= c] and [n > c] against an integer constant; every comparison with
    [NaN] is false. *)
Definition num_leb (n : jsnum) (c : Z) : bool :=
  match n with
  | NaN => false
  | Inf neg => neg
  | Dec m k => (m <=? c * 10 ^ Z.of_nat k)%Z
  end.
Definition num_gtb (n : jsnum) (c : Z) : bool :=
  match n with
  | NaN => false
  | Inf neg => negb neg
  | Dec m k => (c * 10 ^ Z.of_nat k <? m)%Z
  end.

(** [String(n)], in the range where the language prints no exponent
    (10^-6 <= |n| < 10^21). *)
Definition pad_left (w : nat) (s : jsstring) : jsstring :=
  replicate (w - length s) 48 ++ s.

Definition num_to_string (n : jsnum) : jsstring :=
  match n with
  | NaN => js "NaN"
  | Inf neg => if neg then js "-Infinity" else js "Infinity"
  | Dec m O => Z_to_string m
  | Dec m k =>
      let a := Z.to_N (Z.abs m) in
      let d := (10 ^ N.of_nat k) in
      (if (m <? 0)%Z then [45] else []) ++ digitsN (a / d) ++ [46] ++ pad_left k (digitsN (a mod d))
  end.

(** ** Lemmas *)

Lemma in_range_spec lo hi c : in_range lo hi c = true ↔ lo <= c <= hi.
Proof. unfold in_range. rewrite andb_true_iff, !N.leb_le. done. Qed.

Lemma is_digit_spec c : is_digit c = true ↔ 48 <= c <= 57.
Proof. apply in_range_spec. Qed.

Lemma digits_fuel_acc f n acc : digits_fuel f n acc = digits_fuel f n [] ++ acc.
Proof.
  revert n acc. induction f as [|f IH]; intros n acc; [done|]. cbn [digits_fuel].
  destruct (n / 10 =? 0); [done|].
  rewrite (IH _ (_ :: acc)), (IH _ [_]), <-app_assoc. done.
Qed.

Lemma digits_value_snoc ds c : digits_value (ds ++ [c]) = digits_value ds * 10 + (c - 48).
Proof. unfold digits_value. by rewrite fold_left_app. Qed.

Lemma digit_step (q r n : N) : n = 10 * q + r → q * 10 + (48 + r - 48) = n.
Proof. lia. Qed.

Lemma digits_fuel_value f n : n < 2 ^ N.of_nat f → (0 < f)%nat → digits_value (digits_fuel f n []) = n.
Proof.
  revert n. induction f as [|f IH]; intros n Hn Hf; [lia|]. cbn [digits_fuel].
  assert (Hm : n mod 10 < 10) by (apply N.mod_lt; lia).
  destruct (N.eqb_spec (n / 10) 0) as [E|E].
  - change [48 + n mod 10] with ([] ++ [48 + n mod 10]).
    rewrite digits_value_snoc. change (digits_value []) with 0. rewrite <-E.
    apply digit_step, N.Div0.div_mod.
  - rewrite digits_fuel_acc, digits_value_snoc, IH.
    + apply digit_step, N.Div0.div_mod.
    + replace (N.of_nat (S f)) with (1 + N.of_nat f) in Hn by lia.
      rewrite N.pow_add_r in Hn. apply N.Div0.div_lt_upper_bound.
      change (2 ^ 1) with 2 in Hn. lia.
    + destruct f; [|lia]. change (2 ^ N.of_nat 1) with 2 in Hn.
      rewrite N.div_small in E by lia. done.
Qed.

Lemma digitsN_value n : digits_value (digitsN n) = n.
Proof.
  apply digits_fuel_value; [|lia]. rewrite Nat2N.inj_succ, N2Nat.id.
  pose proof (N.size_gt n). rewrite N.pow_succ_r'. lia.
Qed.

Lemma digits_fuel_Forall f n acc :
  Forall (λ c, is_digit c = true) acc → Forall (λ c, is_digit c = true) (digits_fuel f n acc).
Proof.
  revert n acc. induction f as [|f IH]; intros n acc H; [done|]. cbn [digits_fuel].
  assert (Forall (λ c, is_digit c = true) ((48 + n mod 10) :: acc)).
  { constructor; [|done]. rewrite is_digit_spec.
    pose proof (N.mod_lt n 10 ltac:(done)) as Hm. revert Hm. generalize (n mod 10). lia. }
  case_match; auto.
Qed.

Lemma digitsN_digits n : Forall (λ c, is_digit c = true) (digitsN n).
Proof. by apply digits_fuel_Forall. Qed.

Lemma digitsN_nonempty n : digitsN n ≠ [].
Proof.
  unfold digitsN. cbn [digits_fuel]. case_match; [done|].
  rewrite digits_fuel_acc. by destruct (digits_fuel _ _ _).
Qed.

Lemma digitsN_head n : ∃ c r, digitsN n = c :: r ∧ is_digit c = true.
Proof.
  pose proof (digitsN_digits n) as H. pose proof (digitsN_nonempty n).
  destruct (digitsN n) as [|c r]; [done|]. inversion H. eauto.
Qed.

(** [span] on a prefix of matching units followed by a unit that stops it. *)
Definition stops (p : N → bool) (s : jsstring) : Prop :=
  match s with [] => True | c :: _ => p c = false end.

Lemma span_app p a b : Forall (λ c, p c = true) a → stops p b → span p (a ++ b) = (a, b).
Proof.
  induction 1 as [|c a Hc Ha IH]; intros Hb; simpl.
  - destruct b as [|c b]; [done|]. simpl in *. by rewrite Hb.
  - by rewrite Hc, IH.
Qed.

Lemma span_all p a : Forall (λ c, p c = true) a → span p a = (a, []).
Proof. intros H. rewrite <-(app_nil_r a) at 1. by apply span_app. Qed.

Lemma digit_not_ws c : is_digit c = true → is_ws c = false.
Proof.
  rewrite is_digit_spec. intros H.
  unfold is_ws, in_range. repeat apply orb_false_intro; try apply N.eqb_neq; try lia;
    apply andb_false_iff; rewrite !N.leb_gt; lia.
Qed.

Lemma trimStart_head c r : is_ws c = false → trimStart (c :: r) = c :: r.
Proof. simpl. by intros ->. Qed.

Lemma read_sign_digit c r : is_digit c = true → read_sign (c :: r) = (false, c :: r).
Proof.
  rewrite is_digit_spec. intros H. unfold read_sign.
  repeat (case_match; try lia; try done).
Qed.

Lemma Z_to_string_shape z :
  ∃ neg ds, Z_to_string z = (if neg : bool then [45] else []) ++ ds ∧ ds = digitsN (Z.to_N (Z.abs z))
  ∧ signed neg (Z.abs z) = z.
Proof.
  unfold Z_to_string. destruct (Z.ltb_spec z 0).
  - exists true, (digitsN (Z.to_N (- z))). simpl. rewrite Z.abs_neq by lia. split_and!; [done|done|lia].
  - exists false, (digitsN (Z.to_N z)). simpl. rewrite Z.abs_eq by lia. done.
Qed.

Lemma read_sign_shape (neg : bool) n :
  read_sign ((if neg then [45] else []) ++ digitsN n) = (neg, digitsN n).
Proof.
  destruct neg; [done|]. simpl. destruct (digitsN_head n) as (c & r & -> & H).
  by apply read_sign_digit.
Qed.

Lemma parseInt_Z_to_string z : parseInt (Z_to_string z) = Some z.
Proof.
  destruct (Z_to_string_shape z) as (neg & ds & -> & -> & Hz). unfold parseInt.
  replace (trimStart _) with ((if neg then [45] else []) ++ digitsN (Z.to_N (Z.abs z))).
  2: { destruct neg; [done|]. simpl. destruct (digitsN_head (Z.to_N (Z.abs z))) as (c & r & -> & H).
       symmetry. apply trimStart_head. by apply digit_not_ws. }
  rewrite read_sign_shape, span_all by apply digitsN_digits.
  rewrite bool_decide_eq_false_2 by apply digitsN_nonempty.
  cbn [fst]. rewrite digitsN_value. f_equal. rewrite Z2N.id; lia.
Qed.

(** *** Trimming *)

Lemma trimStart_id s : stops is_ws s → trimStart s = s.
Proof. destruct s; [done|]. apply trimStart_head. Qed.

Lemma trim_id s : stops is_ws s → stops is_ws (reverse s) → trim s = s.
Proof.
  intros H1 H2. unfold trim, trimEnd.
  by rewrite (trimStart_id s), (trimStart_id (reverse s)), reverse_involutive.
Qed.

Lemma Forall_stops (p : N → bool) s : Forall (λ c, p c = false) s → stops p s.
Proof. by destruct 1. Qed.

Lemma trim_no_ws s : Forall (λ c, is_ws c = false) s → trim s = s.
Proof.
  intros H. apply trim_id; apply Forall_stops; [done|]. by apply Forall_reverse.
Qed.

Lemma trimStart_suffix s : ∃ p, s = p ++ trimStart s ∧ Forall (λ c, is_ws c = true) p.
Proof.
  induction s as [|c s (p & Hs & Hp)]; [by exists []|]. simpl.
  destruct (is_ws c) eqn:E; [|by exists []].
  exists (c :: p). split; [simpl; by f_equal|by constructor].
Qed.

Lemma trimStart_stops s : stops is_ws (trimStart s).
Proof. induction s as [|c s IH]; simpl; [done|]. destruct (is_ws c) eqn:E; [done|]. simpl. done. Qed.

(** [trim] drops white space at both ends and nothing else. *)
Lemma trim_spec s : ∃ p q, s = p ++ trim s ++ q
  ∧ Forall (λ c, is_ws c = true) p ∧ Forall (λ c, is_ws c = true) q.
Proof.
  destruct (trimStart_suffix s) as (p & Hs & Hp).
  destruct (trimStart_suffix (reverse (trimStart s))) as (q & Ht & Hq).
  exists p, (reverse q). split_and!; [|done|by apply Forall_reverse].
  rewrite Hs at 1. f_equal. unfold trim, trimEnd.
  apply (f_equal reverse) in Ht. rewrite reverse_involutive, reverse_app in Ht. done.
Qed.

Lemma trim_stops_start s : stops is_ws (trim s).
Proof.
  unfold trim, trimEnd. destruct (trimStart_suffix (reverse (trimStart s))) as (q & Ht & Hq).
  pose proof (trimStart_stops s) as Hs.
  apply (f_equal reverse) in Ht. rewrite reverse_involutive, reverse_app in Ht.
  destruct (reverse (trimStart (reverse (trimStart s)))) as [|c r]; [done|].
  rewrite Ht in Hs. done.
Qed.

Lemma trim_stops_end s : stops is_ws (reverse (trim s)).
Proof. unfold trim, trimEnd. rewrite reverse_involutive. apply trimStart_stops. Qed.

Lemma trim_idemp s : trim (trim s) = trim s.
Proof. apply trim_id; [apply trim_stops_start|apply trim_stops_end]. Qed.

(** *** [Number] inverts [String] on integers *)

Lemma digit_neq_58 c d : is_digit c = true → is_digit d = false → (c =? d) = false.
Proof. intros H1 H2. apply N.eqb_neq. intros ->. congruence. Qed.

Lemma radix_prefix_digits s : Forall (λ c, is_digit c = true) s → radix_prefix s = None.
Proof.
  intros H. destruct s as [|z [|p r]]; [done|done|]. unfold radix_prefix.
  assert (Hp : is_digit p = true) by (by rewrite !Forall_cons in H; destruct H as (_ & ? & _)).
  by rewrite !(digit_neq_58 p) by done; destruct (negb _).
Qed.

Lemma radix_prefix_neg s : radix_prefix (45 :: s) = None.
Proof. by destruct s. Qed.

Lemma read_decimal_digits s :
  Forall (λ c, is_digit c = true) s → s ≠ [] → read_decimal s = Some (Z.of_N (digits_value s), 0%Z, []).
Proof.
  intros H Hn. unfold read_decimal. rewrite span_all by done. simpl.
  rewrite app_nil_r, bool_decide_eq_false_2 by done. done.
Qed.

Lemma Z_to_string_no_ws z : Forall (λ c, is_ws c = false) (Z_to_string z).
Proof.
  destruct (Z_to_string_shape z) as (neg & ds & -> & -> & _). apply Forall_app. split.
  - by destruct neg; repeat constructor.
  - eapply Forall_impl; [apply digitsN_digits|]. apply digit_not_ws.
Qed.

Lemma Z_to_string_nonempty z : Z_to_string z ≠ [].
Proof.
  destruct (Z_to_string_shape z) as (neg & ds & -> & -> & _).
  intros [_ H]%app_eq_nil. by apply digitsN_nonempty in H.
Qed.

Lemma mk_num_integer z : (Z.abs z < overflow_bound)%Z → mk_num z 0 = Dec z 0.
Proof.
  intros H. unfold mk_num. rewrite Z.leb_refl, Z.pow_0_r, !Z.mul_1_r.
  by rewrite (proj2 (Z.leb_gt _ _)).
Qed.

Lemma Number_Z_to_string z : (Z.abs z < overflow_bound)%Z → Number (Z_to_string z) = Dec z 0.
Proof.
  intros Hz. unfold Number. rewrite trim_no_ws by apply Z_to_string_no_ws.
  rewrite bool_decide_eq_false_2 by apply Z_to_string_nonempty.
  destruct (Z_to_string_shape z) as (neg & ds & -> & -> & Hs).
  set (n := Z.to_N (Z.abs z)).
  assert (radix_prefix ((if neg then [45] else []) ++ digitsN n) = None) as ->.
  { destruct neg; [apply radix_prefix_neg|apply radix_prefix_digits, digitsN_digits]. }
  rewrite read_sign_shape.
  rewrite bool_decide_eq_false_2.
  2: { intros E. pose proof (digitsN_digits n) as HF. rewrite E in HF. by inversion HF. }
  rewrite read_decimal_digits by (apply digitsN_digits || apply digitsN_nonempty).
  rewrite digitsN_value. unfold n. rewrite Z2N.id by lia. rewrite Hs. by apply mk_num_integer.
Qed.

Lemma split_sep a b c : c ∉ a → split (a ++ c :: b) c = a :: split b c.
Proof.
  induction a as [|x a IH]; intros H; simpl; [by rewrite N.eqb_refl|].
  apply not_elem_of_cons in H as [Hx H]. rewrite (proj2 (N.eqb_neq x c)) by done. by rewrite IH.
Qed.

Lemma split_one s c : c ∉ s → split s c = [s].
Proof.
  induction s as [|x s IH]; [done|]. intros [Hx Hs]%not_elem_of_cons. simpl.
  rewrite (proj2 (N.eqb_neq x c)) by done. by rewrite IH.
Qed.
Lemma split_join c l : l ≠ [] → Forall (λ s, c ∉ s) l → split (join [c] l) c = l.
Proof.
  induction l as [|a [|b l] IH]; intros Hne Hl; [done| |].
  - apply Forall_cons in Hl as [Ha _]. by apply split_one.
  - apply Forall_cons in Hl as [Ha Hl]. change (join [c] (a :: b :: l)) with (a ++ c :: join [c] (b :: l)).
    rewrite split_sep by done. by rewrite IH.
Qed.

Lemma includes_one s c : includes s [c] = true ↔ c ∈ s.
Proof.
  unfold includes. induction s as [|x s IH]; simpl.
  - split; [done|]. intros H. by apply not_elem_of_nil in H.
  - rewrite andb_true_r. destruct (N.eqb_spec c x) as [->|Hx].
    + split; [intros _; left|done].
    + rewrite elem_of_cons. destruct (indexOf s [c]); simpl.
      * split; [|done]. intros _. right. by apply IH.
      * split; [done|]. intros [->|H]; [done|]. by apply IH.
Qed.
