(* ===== verification/JsJson.v ===== *)
(** * [JSON.stringify] and [JSON.parse]

    The console keeps its state in [localStorage], on the wire and inside the
    encrypted vault as JSON text.  Both directions are executable here, at the
    level of UTF-16 code units (lone surrogates are escaped on output, as the
    language specifies), and [parse_stringify] is the round trip every
    component that persists data relies on. *)

From S2P Require Import Prelude JsString.

#[local] Open Scope N_scope.
#[local] Set Warnings "-register-all".

Inductive json :=
  | JNull
  | JBool (b : bool)
  | JNum (n : jsnum)
  | JStr (s : jsstring)
  | JArr (l : list json)
  | JObj (l : list (jsstring * json)).

(** The induction principle with a hypothesis for each element and member. *)
Section json_ind'.
Variable P : json → Prop.
Hypothesis Hnull : P JNull.
Hypothesis Hbool : ∀ b, P (JBool b).
Hypothesis Hnum : ∀ n, P (JNum n).
Hypothesis Hstr : ∀ s, P (JStr s).
Hypothesis Harr : ∀ l, Forall P l → P (JArr l).
Hypothesis Hobj : ∀ l, Forall (λ kv, P kv.2) l → P (JObj l).

Fixpoint json_ind' (j : json) : P j :=
  match j with
  | JNull => Hnull
  | JBool b => Hbool b
  | JNum n => Hnum n
  | JStr s => Hstr s
  | JArr l =>
      Harr l ((fix go l : Forall P l :=
        match l with [] => Forall_nil_2 _ | x :: r => Forall_cons_2 _ _ _ (json_ind' x) (go r) end) l)
  | JObj l =>
      Hobj l ((fix go l : Forall (λ kv, P kv.2) l :=
        match l with [] => Forall_nil_2 _ | x :: r => Forall_cons_2 _ _ _ (json_ind' x.2) (go r) end) l)
  end.
End json_ind'.

(** ** Property access on a parsed value *)

Fixpoint assoc {A} (k : jsstring) (l : list (jsstring * A)) : option A :=
  match l with
  | [] => None
  | (k', v) :: r => if bool_decide (k' = k) then Some v else assoc k r
  end.

(** [v.k] on an object; [undefined] when absent.  A property read on another
    non-null value finds none of the names the console looks up. *)
Definition get (v : json) (k : jsstring) : option json :=
  match v with JObj l => assoc k l | _ => None end.

Definition as_string (v : option json) : option jsstring :=
  match v with Some (JStr s) => Some s | _ => None end.
Definition as_bool (v : option json) : option bool :=
  match v with Some (JBool b) => Some b | _ => None end.
Definition as_number (v : option json) : option jsnum :=
  match v with Some (JNum n) => Some n | _ => None end.

(** ToBoolean *)
Definition json_truthy (v : json) : bool :=
  match v with
  | JNull => false
  | JBool b => b
  | JNum n => negb (bool_decide (n = NaN)) && negb (bool_decide (n = Dec 0 0))
  | JStr s => truthy s
  | JArr _ | JObj _ => true
  end.

(** Assignment to a property keeps the place of an existing one. *)
Fixpoint obj_set (k : jsstring) (v : json) (l : list (jsstring * json)) : list (jsstring * json) :=
  match l with
  | [] => [(k, v)]
  | (k', v') :: r => if bool_decide (k' = k) then (k', v) :: r else (k', v') :: obj_set k v r
  end.

(** ** Printing *)

Definition hex_digit (n : N) : N := if n <? 10 then 48 + n else 87 + n.
Definition hex4 (c : N) : jsstring :=
  [hex_digit (c / 4096 mod 16); hex_digit (c / 256 mod 16); hex_digit (c / 16 mod 16); hex_digit (c mod 16)].
Definition unicode_escape (c : N) : jsstring := 92 :: 117 :: hex4 c.

Definition escape_char (c : N) : option N :=
  if c =? 34 then Some 34
  else if c =? 92 then Some 92
  else if c =? 8 then Some 98
  else if c =? 12 then Some 102
  else if c =? 10 then Some 110
  else if c =? 13 then Some 114
  else if c =? 9 then Some 116
  else None.

Fixpoint quote_body (s : jsstring) : jsstring :=
  match s with
  | [] => []
  | c :: r =>
      match escape_char c with
      | Some e => 92 :: e :: quote_body r
      | None =>
          if c <? 32 then unicode_escape c ++ quote_body r
          else if is_low_surrogate c then unicode_escape c ++ quote_body r
          else if is_high_surrogate c then
            match r with
            | d :: r' =>
                if is_low_surrogate d then c :: d :: quote_body r'
                else unicode_escape c ++ quote_body r
            | [] => unicode_escape c
            end
          else c :: quote_body r
      end
  end.

Definition quote (s : jsstring) : jsstring := 34 :: quote_body s ++ [34].

Fixpoint stringify (j : json) : jsstring :=
  match j with
  | JNull => js "null"
  | JBool b => if b then js "true" else js "false"
  | JNum (Dec m k) => num_to_string (Dec m k)
  | JNum _ => js "null"
  | JStr s => quote s
  | JArr l => 91 :: join [44] (map stringify l) ++ [93]
  | JObj l => 123 :: join [44] (map (λ kv, quote kv.1 ++ 58 :: stringify kv.2) l) ++ [125]
  end.

(** ** Parsing *)

Definition is_json_ws (c : N) : bool := (c =? 9) || (c =? 10) || (c =? 13) || (c =? 32).
Definition skip_ws (s : jsstring) : jsstring := (span is_json_ws s).2.

Definition unescape_char (e : N) : option N :=
  if e =? 34 then Some 34
  else if e =? 92 then Some 92
  else if e =? 47 then Some 47
  else if e =? 98 then Some 8
  else if e =? 102 then Some 12
  else if e =? 110 then Some 10
  else if e =? 114 then Some 13
  else if e =? 116 then Some 9
  else None.

Definition cons_unit (c : N) (r : option (jsstring * jsstring)) : option (jsstring * jsstring) :=
  match r with Some (s, t) => Some (c :: s, t) | None => None end.

(** The rest of a string literal, after its opening quote. *)
Fixpoint read_string (s : jsstring) : option (jsstring * jsstring) :=
  match s with
  | [] => None
  | c :: r =>
      if c =? 34 then Some ([], r)
      else if c =? 92 then
        match r with
        | [] => None
        | e :: r1 =>
            if e =? 117 then
              match r1 with
              | h1 :: h2 :: h3 :: h4 :: r2 =>
                  if forallb is_hex [h1; h2; h3; h4]
                  then cons_unit (radix_value 16 [h1; h2; h3; h4]) (read_string r2)
                  else None
              | _ => None
              end
            else match unescape_char e with
            | Some u => cons_unit u (read_string r1)
            | None => None
            end
        end
      else if c <? 32 then None
      else cons_unit c (read_string r)
  end.

(** Integer part: a single zero, or digits with no leading zero. *)
Definition int_part_ok (ds : jsstring) : bool :=
  match ds with
  | [] => false
  | c :: r => negb (c =? 48) || bool_decide (r = [])
  end.

Definition read_json_fraction (s : jsstring) : option (jsstring * jsstring) :=
  match s with
  | [] => Some ([], [])
  | c :: r =>
      if c =? 46 then
        let '(ds, r') := span is_digit r in
        if bool_decide (ds = []) then None else Some (ds, r')
      else Some ([], s)
  end.

Definition read_minus (s : jsstring) : bool * jsstring :=
  match s with
  | c :: r => if c =? 45 then (true, r) else (false, s)
  | [] => (false, s)
  end.

Definition read_number (s : jsstring) : option (jsnum * jsstring) :=
  let '(neg, u) := read_minus s in
  let '(ip, r) := span is_digit u in
  if negb (int_part_ok ip) then None
  else match read_json_fraction r with
  | None => None
  | Some (fp, r') =>
      match read_exponent r' with
      | None => None
      | Some (e, r'') =>
          Some (mk_num (signed neg (Z.of_N (digits_value (ip ++ fp)))) (e - Z.of_nat (length fp))%Z, r'')
      end
  end.

Definition read_literal (s : jsstring) : option (json * jsstring) :=
  if startsWith s (js "null") then Some (JNull, drop 4 s)
  else if startsWith s (js "true") then Some (JBool true, drop 4 s)
  else if startsWith s (js "false") then Some (JBool false, drop 5 s)
  else None.

Definition mk_obj (ms : list (jsstring * json)) : json :=
  JObj (fold_left (λ l kv, obj_set kv.1 kv.2 l) ms []).

Fixpoint parse_value (f : nat) (s : jsstring) {struct f} : option (json * jsstring) :=
  match f with
  | O => None
  | S f =>
      match skip_ws s with
      | [] => None
      | c :: r =>
          if c =? 123 then
            match skip_ws r with
            | d :: r' =>
                if d =? 125 then Some (JObj [], r')
                else match parse_members f (d :: r') with
                | Some (ms, t) => Some (mk_obj ms, t)
                | None => None
                end
            | [] => None
            end
          else if c =? 91 then
            match skip_ws r with
            | d :: r' =>
                if d =? 93 then Some (JArr [], r')
                else match parse_elements f (d :: r') with
                | Some (l, t) => Some (JArr l, t)
                | None => None
                end
            | [] => None
            end
          else if c =? 34 then
            match read_string r with Some (u, t) => Some (JStr u, t) | None => None end
          else if (c =? 45) || is_digit c then
            match read_number (c :: r) with Some (n, t) => Some (JNum n, t) | None => None end
          else read_literal (c :: r)
      end
  end
with parse_elements (f : nat) (s : jsstring) {struct f} : option (list json * jsstring) :=
  match f with
  | O => None
  | S f =>
      match parse_value f s with
      | None => None
      | Some (v, t) =>
          match skip_ws t with
          | c :: r =>
              if c =? 44 then
                match parse_elements f r with Some (l, t') => Some (v :: l, t') | None => None end
              else if c =? 93 then Some ([v], r)
              else None
          | [] => None
          end
      end
  end
with parse_members (f : nat) (s : jsstring) {struct f} : option (list (jsstring * json) * jsstring) :=
  match f with
  | O => None
  | S f =>
      match skip_ws s with
      | q :: s1 =>
          if negb (q =? 34) then None
          else match read_string s1 with
          | None => None
          | Some (k, s2) =>
              match skip_ws s2 with
              | colon :: s3 =>
                  if negb (colon =? 58) then None
                  else match parse_value f s3 with
                  | None => None
                  | Some (v, t) =>
                      match skip_ws t with
                      | c :: r =>
                          if c =? 44 then
                            match parse_members f r with
                            | Some (l, t') => Some ((k, v) :: l, t')
                            | None => None
                            end
                          else if c =? 125 then Some ([(k, v)], r)
                          else None
                      | [] => None
                      end
                  end
              | [] => None
              end
          end
      | [] => None
      end
  end.

(** [JSON.parse]; [None] is the [SyntaxError].  Every call of the three
    parsers consumes input or one unit of fuel per nesting step, so twice the
    length of the text is enough for any text. *)
Definition parse (s : jsstring) : option json :=
  match parse_value (S (2 * length s)) s with
  | Some (j, t) => if bool_decide (skip_ws t = []) then Some j else None
  | None => None
  end.

(** ** Strings: reading back what was quoted *)

Lemma hex_digit_spec n : n < 16 → is_hex (hex_digit n) = true ∧ hex_value (hex_digit n) = n.
Proof.
  intros H. unfold hex_digit.
  destruct (N.ltb_spec n 10) as [Hlt|Hge]; split;
    unfold is_hex, hex_value, is_digit, is_upper, in_range.
  - apply orb_true_iff; left. apply orb_true_iff; left.
    apply andb_true_iff; rewrite !N.leb_le; lia.
  - replace ((48 <=? 48 + n) && (48 + n <=? 57)) with true; [lia|].
    symmetry. apply andb_true_iff; rewrite !N.leb_le; lia.
  - apply orb_true_iff; right. apply andb_true_iff; rewrite !N.leb_le; lia.
  - replace ((48 <=? 87 + n) && (87 + n <=? 57)) with false.
    2: { symmetry. apply andb_false_iff; rewrite !N.leb_gt; lia. }
    replace ((65 <=? 87 + n) && (87 + n <=? 90)) with false; [lia|].
    symmetry. apply andb_false_iff; rewrite !N.leb_gt; lia.
Qed.

Lemma hex4_value c : c < 65536 → forallb is_hex (hex4 c) = true ∧ radix_value 16 (hex4 c) = c.
Proof.
  intros H. unfold hex4, radix_value. cbn [forallb fold_left].
  assert (Hm : ∀ x, x mod 16 < 16) by (intros; by apply N.mod_lt).
  destruct (hex_digit_spec _ (Hm (c / 4096))) as [-> ->].
  destruct (hex_digit_spec _ (Hm (c / 256))) as [-> ->].
  destruct (hex_digit_spec _ (Hm (c / 16))) as [-> ->].
  destruct (hex_digit_spec _ (Hm c)) as [-> ->].
  split; [done|].
  replace (c / 256) with (c / 16 / 16) by (by rewrite N.Div0.div_div).
  replace (c / 4096) with (c / 16 / 16 / 16) by (by rewrite !N.Div0.div_div).
  assert (Hs : c / 16 / 16 / 16 < 16) by (repeat apply N.Div0.div_lt_upper_bound; lia).
  rewrite (N.mod_small (c / 16 / 16 / 16)) by done.
  pose proof (N.Div0.div_mod c 16). pose proof (N.Div0.div_mod (c / 16) 16).
  pose proof (N.Div0.div_mod (c / 16 / 16) 16).
  rewrite N.mul_0_l, N.add_0_l.
  rewrite (N.mul_comm (c / 16 / 16 / 16)), <-H2. rewrite (N.mul_comm (c / 16 / 16)), <-H1.
  by rewrite (N.mul_comm (c / 16)), <-H0.
Qed.

Lemma read_unicode_escape c t : c < 65536 →
  read_string (unicode_escape c ++ t) = cons_unit c (read_string t).
Proof. intros [H1 H2]%hex4_value. unfold unicode_escape, hex4 in *. simpl app. 
  cbn [read_string]. simpl (92 =? 34). simpl (92 =? 92). simpl (117 =? 117). cbn iota beta.
  by rewrite H1, H2.
Qed.

Lemma read_escape_char c e t : escape_char c = Some e →
  read_string (92 :: e :: t) = cons_unit c (read_string t).
Proof.
  unfold escape_char. intros H.
  repeat (case_match; [match goal with E : (_ =? _) = true |- _ => apply N.eqb_eq in E end; simplify_eq; done|]).
  done.
Qed.

Lemma read_plain c t : escape_char c = None → 32 <= c → read_string (c :: t) = cons_unit c (read_string t).
Proof.
  unfold escape_char. intros H Hc. cbn [read_string].
  destruct (c =? 34); [done|]. destruct (c =? 92); [done|].
  by rewrite (proj2 (N.ltb_ge c 32)).
Qed.

Lemma escape_char_ge c : 93 <= c → escape_char c = None.
Proof. intros H. unfold escape_char. by rewrite !(proj2 (N.eqb_neq c _)) by lia. Qed.

Lemma surrogate_bounds c :
  is_low_surrogate c = true ∨ is_high_surrogate c = true → 55296 <= c <= 57343.
Proof. unfold is_low_surrogate, is_high_surrogate. rewrite !in_range_spec. lia. Qed.

Lemma read_quote_body_le n s t : (length s <= n)%nat → read_string (quote_body s ++ 34 :: t) = Some (s, t).
Proof.
  revert s. induction n as [|n IH]; intros s Hn; destruct s as [|c r]; simpl in Hn; [done|lia|done|].
  assert (Hr : read_string (quote_body r ++ 34 :: t) = Some (r, t)) by (apply IH; lia).
  cbn [quote_body]. destruct (escape_char c) as [e|] eqn:He.
  { simpl app. by rewrite (read_escape_char c), Hr. }
  destruct (N.ltb_spec c 32) as [Hc|Hc].
  { rewrite <-app_assoc, read_unicode_escape by lia. by rewrite Hr. }
  destruct (is_low_surrogate c) eqn:Hl.
  { rewrite <-app_assoc, read_unicode_escape by (pose proof (surrogate_bounds c (or_introl Hl)); lia).
    by rewrite Hr. }
  destruct (is_high_surrogate c) eqn:Hh; [|simpl app; by rewrite read_plain, Hr].
  pose proof (surrogate_bounds c (or_intror Hh)) as Hb.
  destruct r as [|d r'].
  { by rewrite read_unicode_escape by lia. }
  destruct (is_low_surrogate d) eqn:Hd.
  - simpl app. pose proof (surrogate_bounds d (or_introl Hd)).
    rewrite !read_plain by (try apply escape_char_ge; lia).
    rewrite IH by (simpl in *; lia). done.
  - rewrite <-app_assoc, read_unicode_escape by lia. by rewrite Hr.
Qed.

Lemma read_quote s t : read_string (quote_body s ++ 34 :: t) = Some (s, t).
Proof. by eapply read_quote_body_le. Qed.

(** ** Numbers: reading back what was printed *)

(** A number as the language holds it: finite, in lowest terms. *)
Definition num_wf (n : jsnum) : bool :=
  match n with
  | Dec m k =>
      (Z.abs m <? overflow_bound * 10 ^ Z.of_nat k)%Z && ((k =? 0)%nat || negb (m mod 10 =? 0)%Z)
  | _ => false
  end.

(** The input does not continue a number literal. *)
Definition num_stop (t : jsstring) : Prop :=
  match t with
  | [] => True
  | c :: _ => is_digit c = false ∧ c ≠ 46 ∧ c ≠ 101 ∧ c ≠ 69
  end.

Lemma digits_value_app a b :
  digits_value (a ++ b) = digits_value a * 10 ^ N.of_nat (length b) + digits_value b.
Proof.
  induction b as [|c b IH] using rev_ind.
  - rewrite app_nil_r. simpl length. change (10 ^ N.of_nat 0) with 1. change (digits_value []) with 0. lia.
  - rewrite app_assoc, !digits_value_snoc, IH, length_app. simpl length.
    replace (N.of_nat (length b + 1)) with (1 + N.of_nat (length b)) by lia.
    rewrite N.pow_add_r. change (10 ^ 1) with 10. lia.
Qed.

Lemma digits_value_zeros w s : digits_value (replicate w 48 ++ s) = digits_value s.
Proof.
  rewrite digits_value_app. replace (digits_value (replicate w 48)) with 0; [lia|].
  induction w as [|w IH]; [done|].
  replace (S w) with (w + 1)%nat by lia. rewrite replicate_add. simpl.
  by rewrite digits_value_snoc, <-IH.
Qed.

Lemma digits_value_lt ds : Forall (λ c, is_digit c = true) ds → digits_value ds < 10 ^ N.of_nat (length ds).
Proof.
  induction ds as [|c ds IH] using rev_ind; [done|].
  intros [Hds Hc]%Forall_app. rewrite Forall_singleton, is_digit_spec in Hc.
  rewrite digits_value_snoc, length_app. simpl length.
  replace (N.of_nat (length ds + 1)) with (1 + N.of_nat (length ds)) by lia.
  rewrite N.pow_add_r. change (10 ^ 1) with 10. specialize (IH Hds). lia.
Qed.

Lemma digits_fuel_head f n c r : n < 2 ^ N.of_nat f → 0 < n → digits_fuel f n [] = c :: r → c ≠ 48.
Proof.
  revert n c r. induction f as [|f IH]; intros n c r Hn H0; [done|]. cbn [digits_fuel].
  destruct (N.eqb_spec (n / 10) 0) as [E|E].
  - intros [= <- <-]. pose proof (N.Div0.div_mod n 10) as Hd. rewrite E in Hd.
    clear E. revert Hd. generalize (n mod 10). lia.
  - rewrite digits_fuel_acc. destruct (digits_fuel f (n / 10) []) as [|c' r'] eqn:Ef.
    { destruct f; [|cbn [digits_fuel] in Ef; case_match; [done|]].
      - change (2 ^ N.of_nat 1) with 2 in Hn. rewrite N.div_small in E by lia. done.
      - rewrite digits_fuel_acc in Ef. by destruct (digits_fuel f _ []). }
    intros [= <- _]. eapply IH; [|by apply N.neq_0_lt_0|done].
    replace (N.of_nat (S f)) with (1 + N.of_nat f) in Hn by lia.
    rewrite N.pow_add_r in Hn. change (2 ^ 1) with 2 in Hn.
    apply N.Div0.div_lt_upper_bound. lia.
Qed.

Lemma digitsN_int_part n : int_part_ok (digitsN n) = true.
Proof.
  destruct (N.eq_dec n 0) as [->|Hn]; [done|].
  destruct (digitsN n) as [|c r] eqn:E; [by apply digitsN_nonempty in E|].
  unfold digitsN in E. apply digits_fuel_head in E; [|  |lia].
  - simpl. by rewrite (proj2 (N.eqb_neq c 48)).
  - rewrite Nat2N.inj_succ, N2Nat.id, N.pow_succ_r'. pose proof (N.size_gt n). lia.
Qed.

Lemma read_exponent_stop t : num_stop t → read_exponent t = Some (0%Z, t).
Proof.
  destruct t as [|c t]; [done|]. intros (_ & _ & H1 & H2). unfold read_exponent.
  by rewrite (proj2 (N.eqb_neq c 101)), (proj2 (N.eqb_neq c 69)).
Qed.

Lemma num_stop_stops t : num_stop t → stops is_digit t.
Proof. destruct t; [done|]. by intros [? _]. Qed.

Lemma read_json_fraction_stop t : num_stop t → read_json_fraction t = Some ([], t).
Proof.
  destruct t as [|c t]; [done|]. intros (_ & H1 & _). simpl. by rewrite (proj2 (N.eqb_neq c 46)).
Qed.

Lemma read_minus_shape (neg : bool) n t :
  read_minus ((if neg then [45] else []) ++ digitsN n ++ t) = (neg, digitsN n ++ t).
Proof.
  destruct neg; [done|]. destruct (digitsN_head n) as (c & r & -> & H). simpl.
  apply is_digit_spec in H. by rewrite (proj2 (N.eqb_neq c 45)) by lia.
Qed.

Lemma pad_left_length k s : (length s <= k)%nat → length (pad_left k s) = k.
Proof. intros. unfold pad_left. rewrite length_app, length_replicate. lia. Qed.

Lemma pad_left_digits k s : Forall (λ c, is_digit c = true) s → Forall (λ c, is_digit c = true) (pad_left k s).
Proof. intros. apply Forall_app. split; [|done]. by apply Forall_replicate. Qed.

Lemma digits_fuel_length f n k : n < 10 ^ N.of_nat (S k) → (length (digits_fuel f n []) <= S k)%nat.
Proof.
  revert n k. induction f as [|f IH]; intros n k H; [simpl; lia|]. cbn [digits_fuel].
  destruct (N.eqb_spec (n / 10) 0) as [E|E]; [simpl; lia|].
  rewrite digits_fuel_acc, length_app. simpl length.
  destruct k as [|k].
  - change (10 ^ N.of_nat 1) with 10 in H. by rewrite N.div_small in E.
  - specialize (IH (n / 10) k). apply Nat.le_trans with (S k + 1)%nat; [|lia].
    apply Nat.add_le_mono_r, IH. replace (N.of_nat (S (S k))) with (1 + N.of_nat (S k)) in H by lia.
    rewrite N.pow_add_r in H. change (10 ^ 1) with 10 in H. by apply N.Div0.div_lt_upper_bound.
Qed.

Lemma mk_num_wf m k : num_wf (Dec m k) = true → mk_num m (- Z.of_nat k) = Dec m k.
Proof.
  unfold num_wf, mk_num. rewrite andb_true_iff, Z.ltb_lt. intros [Hb Hk].
  replace (- - Z.of_nat k)%Z with (Z.of_nat k) by lia. rewrite Nat2Z.id.
  assert ((if (0 <=? - Z.of_nat k)%Z then m * 10 ^ (- Z.of_nat k) else m)%Z = m) as ->.
  { destruct (Z.leb_spec 0 (- Z.of_nat k)); [|done].
    replace (- Z.of_nat k)%Z with 0%Z by lia. rewrite Z.pow_0_r. lia. }
  rewrite (proj2 (Z.leb_gt _ _)) by done.
  destruct k as [|k]; [done|]. cbn [dec_norm]. simpl in Hk.
  by destruct (m mod 10 =? 0)%Z.
Qed.

Lemma read_number_print m k t : num_wf (Dec m k) = true → num_stop t →
  read_number (num_to_string (Dec m k) ++ t) = Some (Dec m k, t).
Proof.
  intros Hwf Ht. destruct k as [|k].
  - simpl num_to_string. destruct (Z_to_string_shape m) as (neg & ds & -> & -> & Hs).
    unfold read_number. rewrite <-app_assoc, read_minus_shape.
    rewrite span_app by (apply digitsN_digits || by apply num_stop_stops).
    rewrite digitsN_int_part. simpl negb. rewrite read_json_fraction_stop, read_exponent_stop by done.
    rewrite app_nil_r, digitsN_value, Z2N.id, Hs by lia.
    change (0 - Z.of_nat (@length N []))%Z with (- Z.of_nat 0)%Z. by rewrite (mk_num_wf m 0).
  - set (a := Z.to_N (Z.abs m)). set (d := 10 ^ N.of_nat (S k)). set (neg := (m <? 0)%Z).
    assert (Hd : d ≠ 0) by (by apply N.pow_nonzero).
    assert (Hp : a mod d < d) by (by apply N.mod_lt).
    set (fp := pad_left (S k) (digitsN (a mod d))).
    assert (Hl : length fp = S k) by (by apply pad_left_length, digits_fuel_length).
    change (num_to_string (Dec m (S k))) with ((if neg then [45] else []) ++ digitsN (a / d) ++ [46] ++ fp).
    unfold read_number. rewrite <-!app_assoc, read_minus_shape.
    rewrite span_app by (apply digitsN_digits || done).
    rewrite digitsN_int_part. simpl negb. cbn iota. cbn [app read_json_fraction]. rewrite N.eqb_refl.
    rewrite span_app by (apply pad_left_digits, digitsN_digits || by apply num_stop_stops).
    rewrite bool_decide_eq_false_2 by (intros E; by rewrite E in Hl).
    rewrite read_exponent_stop by done. rewrite digits_value_app, Hl. fold d.
    unfold fp, pad_left. rewrite digits_value_zeros, !digitsN_value.
    rewrite (N.mul_comm _ d), <-N.Div0.div_mod. unfold a. rewrite Z2N.id by lia.
    rewrite Z.sub_0_l. rewrite <-(mk_num_wf m (S k) Hwf). do 3 f_equal.
    unfold neg, signed. destruct (Z.ltb_spec m 0); lia.
Qed.

(** ** The round trip *)

Fixpoint json_wf (j : json) : bool :=
  match j with
  | JNum n => num_wf n
  | JArr l => forallb json_wf l
  | JObj l => bool_decide (NoDup (map fst l)) && forallb (λ kv, json_wf kv.2) l
  | _ => true
  end.

(** Fuel that is enough to read a value back. *)
Fixpoint need (j : json) : nat :=
  match j with
  | JArr l => S (sum_list_with (λ x, S (need x)) l)
  | JObj l => S (sum_list_with (λ kv, S (need kv.2)) l)
  | _ => 1
  end.

Lemma skip_ws_head c r : is_json_ws c = false → skip_ws (c :: r) = c :: r.
Proof. unfold skip_ws. simpl. by intros ->. Qed.

Lemma digit_not_json_ws c : is_digit c = true → is_json_ws c = false.
Proof.
  rewrite is_digit_spec. intros H. unfold is_json_ws.
  by rewrite !(proj2 (N.eqb_neq c _)) by lia.
Qed.

Lemma num_to_string_head m k : ∃ c r, num_to_string (Dec m k) = c :: r
  ∧ (c = 45 ∨ is_digit c = true).
Proof.
  destruct k as [|k].
  - simpl. destruct (Z_to_string_shape m) as (neg & ds & -> & -> & _).
    destruct neg; [eauto|]. destruct (digitsN_head (Z.to_N (Z.abs m))) as (c & r & -> & H). eauto.
  - unfold num_to_string. destruct (m <? 0)%Z; [eauto|].
    destruct (digitsN_head (Z.to_N (Z.abs m) / 10 ^ N.of_nat (S k))) as (c & r & -> & H).
    simpl. eauto.
Qed.

(** The first unit of a printed value is not white space and closes nothing. *)
Lemma stringify_head j : ∃ c r, stringify j = c :: r ∧ is_json_ws c = false ∧ c ≠ 93 ∧ c ≠ 125.
Proof.
  destruct j as [|b|n|s|l|l]; [..|by eexists _, _|by eexists _, _|by eexists _, _].
  - by eexists _, _.
  - destruct b; by eexists _, _.
  - destruct n as [| |m k]; [by eexists _, _..|].
    destruct (num_to_string_head m k) as (c & r & E & H). exists c, r.
    split; [exact E|]. destruct H as [->|H]; [done|].
    split; [by apply digit_not_json_ws|]. apply is_digit_spec in H. lia.
Qed.

Lemma stringify_skip_ws j t : skip_ws (stringify j ++ t) = stringify j ++ t.
Proof. destruct (stringify_head j) as (c & r & -> & H & _). by apply skip_ws_head. Qed.

Lemma obj_set_fresh k v l : k ∉ map fst l → obj_set k v l = l ++ [(k, v)].
Proof.
  induction l as [|[k' v'] l IH]; simpl; [done|]. intros H. apply not_elem_of_cons in H as [Hk Hl].
  rewrite bool_decide_eq_false_2 by done. by rewrite IH.
Qed.

Lemma mk_obj_nodup ms : NoDup (map fst ms) → mk_obj ms = JObj ms.
Proof.
  intros H. unfold mk_obj. f_equal.
  assert (G : ∀ acc, NoDup (map fst (acc ++ ms)) →
    fold_left (λ l kv, obj_set kv.1 kv.2 l) ms acc = acc ++ ms); [|by apply G].
  clear H. induction ms as [|[k v] ms IH]; intros acc H; simpl; [by rewrite app_nil_r|].
  rewrite obj_set_fresh.
  - rewrite IH; rewrite <-app_assoc; done.
  - rewrite map_app in H. apply NoDup_app in H as (_ & H & _). simpl in H.
    intros Hk. apply (H k Hk). by left.
Qed.

Definition reads_back (j : json) : Prop :=
  ∀ f t, (need j <= f)%nat → num_stop t → parse_value f (stringify j ++ t) = Some (j, t).

Lemma parse_elements_join l f t :
  l ≠ [] → Forall reads_back l → (sum_list_with (λ x, S (need x)) l <= f)%nat →
  parse_elements f (join [44] (map stringify l) ++ 93 :: t) = Some (l, t).
Proof.
  revert f. induction l as [|j l IH]; intros f Hl HF Hf; [done|].
  apply Forall_cons in HF as [Hj HF]. simpl in Hf.
  destruct f as [|f]; [lia|]. cbn [parse_elements].
  destruct l as [|j' l].
  - simpl join. rewrite Hj by (simpl in *; done || lia). by rewrite skip_ws_head.
  - change (join [44] (map stringify (j :: j' :: l)))
      with (stringify j ++ [44] ++ join [44] (map stringify (j' :: l))).
    rewrite <-!app_assoc, Hj by (simpl in *; done || lia).
    simpl app. rewrite skip_ws_head by done. rewrite N.eqb_refl.
    rewrite IH by (done || (simpl in *; lia)). done.
Qed.

Lemma parse_members_join l f t :
  l ≠ [] → Forall (λ kv, reads_back kv.2) l → (sum_list_with (λ kv, S (need kv.2)) l <= f)%nat →
  parse_members f (join [44] (map (λ kv, quote kv.1 ++ 58 :: stringify kv.2) l) ++ 125 :: t) = Some (l, t).
Proof.
  revert f. induction l as [|[k v] l IH]; intros f Hl HF Hf; [done|].
  apply Forall_cons in HF as [Hj HF]. simpl in Hf, Hj.
  destruct f as [|f]; [lia|].
  set (kvs := λ kv : jsstring * json, quote kv.1 ++ 58 :: stringify kv.2).
  assert (Hfirst : ∀ u, num_stop u →
    parse_members (S f) (kvs (k, v) ++ u) =
      match skip_ws u with
      | c :: r =>
          if c =? 44 then match parse_members f r with Some (l, t') => Some ((k, v) :: l, t') | None => None end
          else if c =? 125 then Some ([(k, v)], r) else None
      | [] => None
      end).
  { intros u Hu. unfold kvs, quote. cbn [fst snd]. rewrite <-!app_assoc. cbn [app].
    cbn [parse_members]. rewrite skip_ws_head by done. rewrite N.eqb_refl. cbn [negb].
    rewrite <-app_assoc. cbn [app]. rewrite read_quote, skip_ws_head by done. rewrite N.eqb_refl. cbn [negb].
    by rewrite Hj by (done || lia). }
  destruct l as [|kv' l].
  - change (join [44] (map kvs [(k, v)])) with (kvs (k, v)). by rewrite Hfirst, skip_ws_head.
  - change (join [44] (map kvs ((k, v) :: kv' :: l))) with (kvs (k, v) ++ [44] ++ join [44] (map kvs (kv' :: l))).
    rewrite <-!app_assoc, Hfirst by done. simpl app. rewrite skip_ws_head by done. rewrite N.eqb_refl.
    rewrite IH by (done || (simpl in *; lia)). done.
Qed.

Lemma join_head {A} (g : A → jsstring) x l :
  (∃ c r, g x = c :: r ∧ is_json_ws c = false ∧ c ≠ 93 ∧ c ≠ 125) →
  ∃ c r, join [44] (map g (x :: l)) = c :: r ∧ is_json_ws c = false ∧ c ≠ 93 ∧ c ≠ 125.
Proof.
  intros (c & r & E & H). destruct l as [|y l]; simpl; rewrite E; eauto.
Qed.

Lemma parse_value_stringify j : json_wf j = true → reads_back j.
Proof.
  induction j as [|b|n|s|l IH|l IH] using json_ind'; intros Hwf f t Hf Ht;
    (destruct f as [|f]; [simpl in Hf; lia|]).
  - reflexivity.
  - destruct b; reflexivity.
  - simpl in Hwf. destruct n as [| |m k]; [done..|].
    destruct (num_to_string_head m k) as (c & r & E & Hc).
    pose proof (read_number_print m k t Hwf Ht) as Hn.
    change (stringify (JNum (Dec m k))) with (num_to_string (Dec m k)).
    rewrite E in *. simpl app in *. cbn [parse_value].
    assert (is_json_ws c = false) by (destruct Hc as [->|?]; [done|by apply digit_not_json_ws]).
    rewrite skip_ws_head by done.
    assert (c ≠ 123 ∧ c ≠ 91 ∧ c ≠ 34) as (? & ? & ?).
    { destruct Hc as [->|Hc%is_digit_spec]; [done|lia]. }
    rewrite !(proj2 (N.eqb_neq c _)) by done.
    assert ((c =? 45) || is_digit c = true) as ->; [|by rewrite Hn].
    destruct Hc as [->| ->]; [done|by rewrite orb_true_r].
  - simpl stringify. unfold quote. cbn [parse_value app]. rewrite skip_ws_head by done. cbn -[read_string].
    rewrite <-app_assoc. simpl app. by rewrite read_quote.
  - simpl in Hwf, Hf. simpl stringify. cbn [parse_value app]. rewrite skip_ws_head by done.
    cbn -[parse_elements skip_ws app].
    destruct l as [|j l]; [done|]. rewrite <-app_assoc. cbn [app].
    destruct (join_head stringify j l (stringify_head j)) as (c & r & E & Hc & Hc1 & _).
    rewrite E. cbn [app]. rewrite skip_ws_head by done.
    rewrite (proj2 (N.eqb_neq c 93)) by done.
    change (c :: r ++ 93 :: t) with ((c :: r) ++ 93 :: t). rewrite <-E.
    rewrite parse_elements_join; [done|done| |simpl in *; lia].
    by apply (Forall_mp (λ j, json_wf j)).
  - simpl in Hwf, Hf. cbn [stringify parse_value app]. rewrite skip_ws_head by done.
    apply andb_true_iff in Hwf as [Hnd Hwf]. apply bool_decide_eq_true in Hnd.
    rewrite N.eqb_refl.
    destruct l as [|kv l]; [done|]. rewrite <-app_assoc. cbn [app].
    destruct (join_head (λ kv, quote kv.1 ++ 58 :: stringify kv.2) kv l) as (c & r & E & Hc & _ & Hc1).
    { by eexists _, _. }
    rewrite E. cbn [app]. rewrite skip_ws_head by done.
    rewrite (proj2 (N.eqb_neq c 125)) by done.
    change (c :: r ++ 125 :: t) with ((c :: r) ++ 125 :: t). rewrite <-E.
    rewrite parse_members_join; [by rewrite mk_obj_nodup|done| |simpl in *; lia].
    by apply (Forall_mp (λ kv, json_wf kv.2)).
Qed.

Lemma join_length l : (sum_list_with length l + length l <= S (length (join [44%N] l)))%nat.
Proof.
  induction l as [|x [|y l] IH]; simpl in *; [lia..|]. rewrite length_app. simpl. lia.
Qed.

Lemma need_bound j : (need j <= 2 * length (stringify j))%nat.
Proof.
  induction j as [|b|[| |m k]|s|l IH|l IH] using json_ind'; cbn [need stringify]; try (simpl; lia).
  - destruct b; simpl; lia.
  - destruct (num_to_string_head m k) as (c & r & E & _).
    rewrite E. simpl. lia.
  - cbn [length]. rewrite length_app. cbn [length].
    pose proof (join_length (map stringify l)) as Hj.
    assert (sum_list_with (λ x, S (need x)) l <= length l + 2 * sum_list_with length (map stringify l))%nat.
    { clear Hj. induction IH; simpl in *; lia. }
    rewrite length_map in Hj. lia.
  - cbn [length]. rewrite length_app. cbn [length]. set (g := λ kv : jsstring * json, quote kv.1 ++ 58%N :: stringify kv.2).
    pose proof (join_length (map g l)) as Hj.
    assert (sum_list_with (λ kv, S (need kv.2)) l <= 2 * sum_list_with length (map g l))%nat; [|lia].
    assert (Hg : ∀ kv, (length (stringify kv.2) < length (g kv))%nat).
    { intros kv. unfold g. rewrite length_app. simpl. lia. }
    clearbody g. clear Hj. induction IH as [|kv l Hkv IH IHl]; simpl in *; [lia|].
    specialize (Hg kv). lia.
Qed.

(** [JSON.parse(JSON.stringify(v))] is [v]. *)
Lemma parse_stringify j : json_wf j = true → parse (stringify j) = Some j.
Proof.
  intros H. unfold parse. pose proof (parse_value_stringify j H) as Hr.
  pose proof (need_bound j) as Hb.
  rewrite <-(app_nil_r (stringify j)) at 2. by rewrite Hr by (done || lia).
Qed.
