(* ===== verification/JsEncoding.v ===== *)
(** * Text and binary encodings

    [TextEncoder]/[TextDecoder] (UTF-8), [btoa]/[atob] (base64) and the
    console's own wrappers over them: [toBase64] and [fromBase64] of
    utils/vault-crypto.ts and [toBase64Json] of utils/encoding.ts.  A byte is
    an [N] below 256. *)

From S2P Require Import Prelude JsString JsJson.

#[local] Open Scope N_scope.

Definition is_byte (b : N) : Prop := b < 256.

(** ** UTF-8 *)

Definition replacement : N := 65533.

(** [new TextEncoder().encode(s)]: a lone surrogate becomes U+FFFD. *)
Definition enc3 (c : N) : list N := [224 + c / 4096; 128 + c / 64 mod 64; 128 + c mod 64].
Definition enc4 (cp : N) : list N :=
  [240 + cp / 262144; 128 + cp / 4096 mod 64; 128 + cp / 64 mod 64; 128 + cp mod 64].
Definition code_point (hi lo : N) : N := 65536 + (hi - 55296) * 1024 + (lo - 56320).

Fixpoint utf8_encode (s : jsstring) : list N :=
  match s with
  | [] => []
  | c :: r =>
      if c <? 128 then c :: utf8_encode r
      else if c <? 2048 then (192 + c / 64) :: (128 + c mod 64) :: utf8_encode r
      else if is_high_surrogate c then
        match r with
        | d :: r' =>
            if is_low_surrogate d then enc4 (code_point c d) ++ utf8_encode r'
            else enc3 replacement ++ utf8_encode r
        | [] => enc3 replacement
        end
      else if is_low_surrogate c then enc3 replacement ++ utf8_encode r
      else enc3 c ++ utf8_encode r
  end.

(** The decoder's state: bits read so far, continuation bytes still needed and
    the range the next one must lie in. *)
Record decoder := { acc : N; needed : nat; lower : N; upper : N }.
Definition idle : decoder := {| acc := 0; needed := 0; lower := 128; upper := 191 |}.

Definition units_of (cp : N) : jsstring :=
  if cp <? 65536 then [cp]
  else [55296 + (cp - 65536) / 1024; 56320 + (cp - 65536) mod 1024].

(** A byte in the idle state: the next state and the units emitted. *)
Definition first_byte (b : N) : decoder * jsstring :=
  if b <? 128 then (idle, [b])
  else if in_range 194 223 b then
    ({| acc := b - 192; needed := 1; lower := 128; upper := 191 |}, [])
  else if in_range 224 239 b then
    ({| acc := b - 224; needed := 2;
        lower := if b =? 224 then 160 else 128;
        upper := if b =? 237 then 159 else 191 |}, [])
  else if in_range 240 244 b then
    ({| acc := b - 240; needed := 3;
        lower := if b =? 240 then 144 else 128;
        upper := if b =? 244 then 143 else 191 |}, [])
  else (idle, [replacement]).

Fixpoint decode_from (st : decoder) (bs : list N) : jsstring :=
  match bs with
  | [] => match needed st with O => [] | S _ => [replacement] end
  | b :: r =>
      match needed st with
      | O => let '(st', out) := first_byte b in out ++ decode_from st' r
      | S n =>
          if in_range (lower st) (upper st) b then
            let a := acc st * 64 + (b - 128) in
            match n with
            | O => units_of a ++ decode_from idle r
            | S _ => decode_from {| acc := a; needed := n; lower := 128; upper := 191 |} r
            end
          else
            let '(st', out) := first_byte b in replacement :: out ++ decode_from st' r
      end
  end.

(** [new TextDecoder().decode(bs)], which drops a leading byte-order mark. *)
Definition utf8_decode (bs : list N) : jsstring :=
  match decode_from idle bs with
  | c :: r => if c =? 65279 then r else c :: r
  | [] => []
  end.

(** Code units whose surrogates all come in pairs. *)
Fixpoint utf16_wf (s : jsstring) : bool :=
  match s with
  | [] => true
  | c :: r =>
      (c <? 65536) &&
      (if is_high_surrogate c then
         match r with d :: r' => is_low_surrogate d && utf16_wf r' | [] => false end
       else negb (is_low_surrogate c) && utf16_wf r)
  end.

(** ** Base64 *)

Definition b64_char (v : N) : N :=
  if v <? 26 then 65 + v
  else if v <? 52 then 71 + v
  else if v <? 62 then v - 4
  else if v =? 62 then 43
  else 47.

Definition b64_value (c : N) : option N :=
  if is_upper c then Some (c - 65)
  else if is_lower c then Some (c - 71)
  else if is_digit c then Some (c + 4)
  else if c =? 43 then Some 62
  else if c =? 47 then Some 63
  else None.

(** The digits of [btoa], without the padding, and the padding. *)
Fixpoint b64_digits (bs : list N) : jsstring :=
  match bs with
  | [] => []
  | [a] => [b64_char (a / 4); b64_char (a mod 4 * 16)]
  | [a; b] => [b64_char (a / 4); b64_char (a mod 4 * 16 + b / 16); b64_char (b mod 16 * 4)]
  | a :: b :: c :: r =>
      b64_char (a / 4) :: b64_char (a mod 4 * 16 + b / 16)
        :: b64_char (b mod 16 * 4 + c / 64) :: b64_char (c mod 64) :: b64_digits r
  end.

Definition b64_padding (bs : list N) : jsstring :=
  match (length bs mod 3)%nat with
  | 1%nat => [61; 61]
  | 2%nat => [61]
  | _ => []
  end.

(** [btoa] *)
Definition b64_encode (bs : list N) : jsstring := b64_digits bs ++ b64_padding bs.

Fixpoint b64_groups (vs : list N) : option (list N) :=
  match vs with
  | [] => Some []
  | [_] => None
  | [a; b] => Some [a * 4 + b / 16]
  | [a; b; c] => Some [a * 4 + b / 16; b mod 16 * 16 + c / 4]
  | a :: b :: c :: d :: r =>
      match b64_groups r with
      | Some t => Some (a * 4 + b / 16 :: b mod 16 * 16 + c / 4 :: c mod 4 * 64 + d :: t)
      | None => None
      end
  end.

Definition is_ascii_ws (c : N) : bool := (c =? 9) || (c =? 10) || (c =? 12) || (c =? 13) || (c =? 32).

(** Up to two trailing [=] of a text whose length is a multiple of four. *)
Definition strip_padding (s : jsstring) : jsstring :=
  if negb (length s mod 4 =? 0)%nat then s
  else match reverse s with
  | p :: q :: r =>
      if (p =? 61) && (q =? 61) then reverse r
      else if p =? 61 then reverse (q :: r)
      else s
  | _ => s
  end.

(** [atob]; [None] is its [InvalidCharacterError]. *)
Definition b64_decode (s : jsstring) : option (list N) :=
  match mapM b64_value (strip_padding (List.filter (λ c, negb (is_ascii_ws c)) s)) with
  | Some vs => b64_groups vs
  | None => None
  end.

(** ** The console's wrappers *)

(** The units [String.fromCharCode] builds from bytes are the bytes. *)
Definition toBase64 (bytes : list N) : jsstring := b64_encode bytes.

Definition fromBase64 (base64 : jsstring) : res (list N) :=
  match b64_decode base64 with
  | Some bytes => Ok bytes
  | None => Throw (Error (js "Invalid base64 encoding"))
  end.

(** [s.replace(/=+$/, "")] *)
Fixpoint drop_while (p : N → bool) (s : jsstring) : jsstring :=
  match s with c :: r => if p c then drop_while p r else s | [] => [] end.
Definition drop_trailing (p : N → bool) (s : jsstring) : jsstring := reverse (drop_while p (reverse s)).

Definition url_char (c : N) : N := if c =? 43 then 45 else if c =? 47 then 95 else c.

Definition toBase64Json (value : json) : jsstring :=
  drop_trailing (λ c, c =? 61) (map url_char (b64_encode (utf8_encode (stringify value)))).

(** ** UTF-8 round trip *)

Lemma in_range_true lo hi c : lo <= c → c <= hi → in_range lo hi c = true.
Proof. intros. by apply in_range_spec. Qed.

Lemma in_range_false lo hi c : c < lo ∨ hi < c → in_range lo hi c = false.
Proof. intros H. apply not_true_iff_false. rewrite in_range_spec. lia. Qed.

Ltac ranges :=
  repeat first
    [ rewrite (proj2 (N.ltb_ge _ _)) by zlia
    | rewrite (proj2 (N.ltb_lt _ _)) by zlia
    | rewrite in_range_true by zlia
    | rewrite in_range_false by zlia ].

Lemma decode_first2 b r : 194 <= b <= 223 →
  decode_from idle (b :: r) = decode_from {| acc := b - 192; needed := 1; lower := 128; upper := 191 |} r.
Proof. intros H. cbn [decode_from needed idle]. unfold first_byte. by ranges. Qed.

Lemma decode_first3 b r : 224 <= b <= 239 →
  decode_from idle (b :: r) = decode_from {| acc := b - 224; needed := 2;
    lower := if b =? 224 then 160 else 128; upper := if b =? 237 then 159 else 191 |} r.
Proof. intros H. cbn [decode_from needed idle]. unfold first_byte. by ranges. Qed.

Lemma decode_first4 b r : 240 <= b <= 244 →
  decode_from idle (b :: r) = decode_from {| acc := b - 240; needed := 3;
    lower := if b =? 240 then 144 else 128; upper := if b =? 244 then 143 else 191 |} r.
Proof. intros H. cbn [decode_from needed idle]. unfold first_byte. by ranges. Qed.

Lemma decode_last a lo hi b r : lo <= b → b <= hi →
  decode_from {| acc := a; needed := 1; lower := lo; upper := hi |} (b :: r) =
  units_of (a * 64 + (b - 128)) ++ decode_from idle r.
Proof. intros. cbn [decode_from needed lower upper acc]. by rewrite in_range_true. Qed.

Lemma decode_next a n lo hi b r : lo <= b → b <= hi →
  decode_from {| acc := a; needed := S (S n); lower := lo; upper := hi |} (b :: r) =
  decode_from {| acc := a * 64 + (b - 128); needed := S n; lower := 128; upper := 191 |} r.
Proof. intros. cbn [decode_from needed lower upper acc]. by rewrite in_range_true. Qed.

Lemma decode_enc2 c r : 128 <= c → c < 2048 →
  decode_from idle (192 + c / 64 :: 128 + c mod 64 :: r) = c :: decode_from idle r.
Proof.
  intros. rewrite decode_first2, decode_last by zlia.
  replace ((192 + c / 64 - 192) * 64 + (128 + c mod 64 - 128)) with c by zlia.
  unfold units_of. by ranges.
Qed.

Lemma decode_enc3 c r : 2048 <= c → c < 65536 → c < 55296 ∨ 57343 < c →
  decode_from idle (enc3 c ++ r) = c :: decode_from idle r.
Proof.
  intros. unfold enc3. cbn [app]. rewrite decode_first3 by zlia.
  rewrite decode_next by (destruct (N.eqb_spec (224 + c / 4096) 224);
    destruct (N.eqb_spec (224 + c / 4096) 237); zlia).
  rewrite decode_last by zlia.
  replace (_ * 64 + (128 + c mod 64 - 128)) with c by zlia.
  unfold units_of. by ranges.
Qed.

Lemma decode_enc4 cp r : 65536 <= cp → cp < 1114112 →
  decode_from idle (enc4 cp ++ r) = units_of cp ++ decode_from idle r.
Proof.
  intros. unfold enc4. cbn [app]. rewrite decode_first4 by zlia.
  rewrite decode_next by (destruct (N.eqb_spec (240 + cp / 262144) 240);
    destruct (N.eqb_spec (240 + cp / 262144) 244); zlia).
  rewrite decode_next, decode_last by zlia.
  by replace (_ * 64 + (128 + cp mod 64 - 128)) with cp by zlia.
Qed.

Lemma units_of_code_point hi lo : is_high_surrogate hi = true → is_low_surrogate lo = true →
  units_of (code_point hi lo) = [hi; lo].
Proof.
  unfold is_high_surrogate, is_low_surrogate. rewrite !in_range_spec. intros H1 H2.
  unfold units_of, code_point. ranges.
  replace (65536 + (hi - 55296) * 1024 + (lo - 56320) - 65536) with ((hi - 55296) * 1024 + (lo - 56320)) by lia.
  by replace (55296 + _) with hi by zlia; replace (56320 + _) with lo by zlia.
Qed.

Lemma decode_encode_le n s : (length s <= n)%nat → utf16_wf s = true →
  decode_from idle (utf8_encode s) = s.
Proof.
  revert s. induction n as [|n IH]; intros s Hn Hwf; destruct s as [|c r]; cbn [length] in Hn; [done|lia|done|].
  cbn [utf8_encode utf16_wf] in *. apply andb_true_iff in Hwf as [Hc Hwf]. apply N.ltb_lt in Hc.
  destruct (N.ltb_spec c 128) as [H1|H1].
  { assert (is_high_surrogate c = false) as E by (apply in_range_false; lia). rewrite E in Hwf.
    apply andb_true_iff in Hwf as [_ Hwf]. cbn [decode_from needed idle]. unfold first_byte. ranges.
    cbn [app]. by rewrite IH by (done || lia). }
  destruct (N.ltb_spec c 2048) as [H2|H2].
  { assert (is_high_surrogate c = false) as E by (apply in_range_false; lia). rewrite E in Hwf.
    apply andb_true_iff in Hwf as [_ Hwf]. by rewrite decode_enc2, IH by (done || lia). }
  destruct (is_high_surrogate c) eqn:Hh.
  - destruct r as [|d r']; [done|]. apply andb_true_iff in Hwf as [Hd Hwf]. rewrite Hd.
    pose proof (proj1 (in_range_spec _ _ _) Hh). pose proof (proj1 (in_range_spec _ _ _) Hd).
    rewrite decode_enc4, units_of_code_point by (done || unfold code_point; lia).
    rewrite IH; [done| |done]. simpl in Hn. lia.
  - apply andb_true_iff in Hwf as [Hl Hwf]. apply negb_true_iff in Hl. rewrite Hl.
    rewrite decode_enc3, IH; [done|lia|done|lia|lia|].
    unfold is_high_surrogate, is_low_surrogate, in_range in Hh, Hl.
    apply andb_false_iff in Hh, Hl. rewrite !N.leb_gt in *. lia.
Qed.

(** Decoding what was encoded, for text that does not start with a
    byte-order mark and has no lone surrogate. *)
Lemma utf8_round_trip s : utf16_wf s = true → head s ≠ Some 65279 → utf8_decode (utf8_encode s) = s.
Proof.
  intros H1 H2. unfold utf8_decode. rewrite (decode_encode_le (length s)) by done.
  destruct s as [|c s]; [done|]. simpl in H2. by rewrite (proj2 (N.eqb_neq c _)) by congruence.
Qed.

Lemma utf8_encode_bytes_le n s : (length s <= n)%nat → Forall (λ c, c < 65536) s → Forall is_byte (utf8_encode s).
Proof.
  revert s. induction n as [|n IH]; intros s Hn Hs; destruct s as [|c r]; cbn [length] in Hn; [done|lia|done|].
  apply Forall_cons in Hs as [Hc Hr]. cbn [utf8_encode].
  assert (Forall is_byte (utf8_encode r)) as IHr by (apply IH; [lia|done]).
  assert (H3 : ∀ x, x < 65536 → Forall is_byte (enc3 x)).
  { intros x Hx. repeat constructor; unfold is_byte; zlia. }
  destruct (N.ltb_spec c 128); [constructor; [unfold is_byte; lia|done]|].
  destruct (N.ltb_spec c 2048); [repeat constructor; [unfold is_byte; zlia..|done]|].
  destruct (is_high_surrogate c) eqn:Hh.
  - destruct r as [|d r']; [by apply H3|]. destruct (is_low_surrogate d) eqn:Hd.
    + apply in_range_spec in Hh, Hd. apply Forall_app. split.
      * assert (Hcp : code_point c d < 1114112) by (unfold code_point; lia).
        repeat constructor; unfold is_byte; zlia.
      * apply Forall_cons in Hr as [_ Hr]. apply IH; [simpl in Hn; lia|done].
    + apply Forall_app. split; [by apply H3|done].
  - destruct (is_low_surrogate c); apply Forall_app; split; try done; by apply H3.
Qed.

Lemma utf8_encode_bytes s : Forall (λ c, c < 65536) s → Forall is_byte (utf8_encode s).
Proof. by eapply utf8_encode_bytes_le. Qed.

(** ** Base64 round trip *)

Lemma b64_char_value v : v < 64 → b64_value (b64_char v) = Some v.
Proof.
  intros H. unfold b64_char.
  destruct (N.ltb_spec v 26); [|destruct (N.ltb_spec v 52); [|destruct (N.ltb_spec v 62);
    [|destruct (N.eqb_spec v 62)]]]; unfold b64_value, is_upper, is_lower, is_digit; ranges.
  - f_equal; lia.
  - f_equal; lia.
  - f_equal; lia.
  - by subst.
  - by replace v with 63 by lia.
Qed.

Lemma b64_char_alphabet v : v < 64 → is_ascii_ws (b64_char v) = false ∧ b64_char v ≠ 61.
Proof.
  intros H. unfold b64_char, is_ascii_ws.
  destruct (N.ltb_spec v 26); [|destruct (N.ltb_spec v 52); [|destruct (N.ltb_spec v 62);
    [|destruct (N.eqb_spec v 62)]]]; (split; [|lia]); by rewrite !(proj2 (N.eqb_neq _ _)) by lia.
Qed.

(** The sextets of the digits. *)
Fixpoint sextets (bs : list N) : list N :=
  match bs with
  | [] => []
  | [a] => [a / 4; a mod 4 * 16]
  | [a; b] => [a / 4; a mod 4 * 16 + b / 16; b mod 16 * 4]
  | a :: b :: c :: r => a / 4 :: a mod 4 * 16 + b / 16 :: b mod 16 * 4 + c / 64 :: c mod 64 :: sextets r
  end.

(** Induction on a list three elements at a time. *)
Lemma list_ind3 {A} (P : list A → Prop) :
  P [] → (∀ a, P [a]) → (∀ a b, P [a; b]) → (∀ a b c r, P r → P (a :: b :: c :: r)) → ∀ l, P l.
Proof.
  intros H0 H1 H2 H3 l.
  assert (G : ∀ n l, (length l <= n)%nat → P l); [|by eapply G].
  clear l. induction n as [|n IH]; intros l Hl.
  - by destruct l; [|simpl in Hl; lia].
  - destruct l as [|a [|b [|c r]]]; auto. apply H3, IH. simpl in Hl. lia.
Qed.

Lemma b64_digits_sextets bs : b64_digits bs = map b64_char (sextets bs).
Proof. induction bs using list_ind3; [done..|]. simpl. by rewrite IHbs. Qed.

Lemma sextets_lt bs : Forall is_byte bs → Forall (λ v, v < 64) (sextets bs).
Proof.
  unfold is_byte. induction bs using list_ind3; cbn [sextets]; rewrite ?Forall_cons, ?Forall_nil; [done|..].
  - intros. zlia.
  - intros. zlia.
  - intros (Ha & Hb & Hc & Hr). split_and!; [zlia..|auto].
Qed.

Lemma sextets_groups bs : Forall is_byte bs → b64_groups (sextets bs) = Some bs.
Proof.
  unfold is_byte. induction bs using list_ind3; cbn [sextets b64_groups]; rewrite ?Forall_cons, ?Forall_nil; [done|..].
  - intros. by replace (a / 4 * 4 + a mod 4 * 16 / 16) with a by zlia.
  - intros. replace (a / 4 * 4 + (a mod 4 * 16 + b / 16) / 16) with a by zlia.
    by replace ((a mod 4 * 16 + b / 16) mod 16 * 16 + b mod 16 * 4 / 4) with b by zlia.
  - intros (Ha & Hb & Hc & Hr). rewrite IHbs by done.
    replace (a / 4 * 4 + (a mod 4 * 16 + b / 16) / 16) with a by zlia.
    replace ((a mod 4 * 16 + b / 16) mod 16 * 16 + (b mod 16 * 4 + c / 64) / 4) with b by zlia.
    by replace ((b mod 16 * 4 + c / 64) mod 4 * 64 + c mod 64) with c by zlia.
Qed.

Lemma mapM_b64_value vs : Forall (λ v, v < 64) vs → mapM b64_value (map b64_char vs) = Some vs.
Proof.
  induction 1 as [|v vs Hv Hvs IH]; [done|]. simpl. by rewrite b64_char_value, IH.
Qed.

Lemma sextets_length bs : ∃ q,
  ((length bs = 3 * q ∧ length (sextets bs) = 4 * q)
  ∨ (length bs = 3 * q + 1 ∧ length (sextets bs) = 4 * q + 2)
  ∨ (length bs = 3 * q + 2 ∧ length (sextets bs) = 4 * q + 3))%nat.
Proof.
  induction bs as [|a|a b|a b c r [q IH]] using list_ind3; [exists 0%nat; simpl; lia..|].
  exists (S q). simpl. lia.
Qed.

Lemma mod_combine (a q r : nat) : (r < a)%nat → ((a * q + r) mod a = r)%nat.
Proof. intros. symmetry. by eapply Nat.mod_unique. Qed.

Lemma strip_padding_encode bs : Forall is_byte bs → strip_padding (b64_encode bs) = b64_digits bs.
Proof.
  intros Hb. unfold b64_encode, strip_padding, b64_padding. rewrite b64_digits_sextets.
  pose proof (sextets_lt bs Hb) as Hv.
  assert (Hc : Forall (λ c, c ≠ 61) (reverse (map b64_char (sextets bs)))).
  { apply Forall_reverse, Forall_map. eapply Forall_impl; [exact Hv|]. intros v ?. by apply b64_char_alphabet. }
  destruct (sextets_length bs) as (q & [[H1 H2]|[[H1 H2]|[H1 H2]]]); rewrite length_app, length_map, H1, H2.
  - rewrite <-(Nat.add_0_r (3 * q)), (mod_combine 3 q 0), app_nil_r by lia. cbn [length].
    rewrite mod_combine by lia. cbn [negb Nat.eqb].
    destruct (reverse (map b64_char (sextets bs))) as [|x [|y r]] eqn:E; [done..|].
    apply Forall_cons in Hc as [Hx _]. by rewrite (proj2 (N.eqb_neq x 61)).
  - rewrite (mod_combine 3 q 1) by lia. cbn [length].
    replace (4 * q + 2 + 2)%nat with (4 * (S q) + 0)%nat by lia. rewrite mod_combine by lia. cbn [negb Nat.eqb].
    rewrite reverse_app. change (reverse [61; 61]) with [61; 61]. cbn [app]. rewrite N.eqb_refl. cbn [andb].
    by rewrite reverse_involutive.
  - rewrite (mod_combine 3 q 2) by lia. cbn [length].
    replace (4 * q + 3 + 1)%nat with (4 * (S q) + 0)%nat by lia. rewrite mod_combine by lia. cbn [negb Nat.eqb].
    rewrite reverse_app. change (reverse [61]) with [61]. cbn [app].
    destruct (reverse (map b64_char (sextets bs))) as [|y r] eqn:E.
    { apply (f_equal length) in E. rewrite length_reverse, length_map, H2 in E. simpl in E. lia. }
    apply Forall_cons in Hc as [Hy _]. rewrite N.eqb_refl, (proj2 (N.eqb_neq y 61)) by done. cbn [andb].
    by rewrite <-E, reverse_involutive.
Qed.

Lemma b64_encode_no_ws bs : Forall is_byte bs → Forall (λ c, negb (is_ascii_ws c) = true) (b64_encode bs).
Proof.
  intros Hb. apply Forall_app. split.
  - rewrite b64_digits_sextets. apply Forall_map. eapply Forall_impl; [by apply sextets_lt|].
    intros v Hv. by destruct (b64_char_alphabet v Hv) as [-> _].
  - unfold b64_padding. repeat case_match; by repeat constructor.
Qed.

(** [atob(btoa(bs))] is [bs]. *)
Lemma b64_round_trip bs : Forall is_byte bs → b64_decode (b64_encode bs) = Some bs.
Proof.
  intros Hb. unfold b64_decode.
  rewrite List_filter_id, strip_padding_encode, b64_digits_sextets by (done || by apply b64_encode_no_ws).
  rewrite mapM_b64_value by (by apply sextets_lt). by apply sextets_groups.
Qed.

Lemma fromBase64_toBase64 bs : Forall is_byte bs → fromBase64 (toBase64 bs) = Ok bs.
Proof. intros H. unfold fromBase64, toBase64. by rewrite b64_round_trip. Qed.

(** ** JSON text survives UTF-8 *)

(** Every string of the value is made of code units. *)
Definition units_ok (s : jsstring) : bool := forallb (λ c, c <? 65536) s.

Fixpoint json_units (j : json) : bool :=
  match j with
  | JStr s => units_ok s
  | JArr l => forallb json_units l
  | JObj l => forallb (λ kv, units_ok kv.1 && json_units kv.2) l
  | _ => true
  end.

Lemma utf16_wf_app_le n a b : (length a <= n)%nat →
  utf16_wf a = true → utf16_wf b = true → utf16_wf (a ++ b) = true.
Proof.
  revert a. induction n as [|n IH]; intros a Hn Ha Hb; destruct a as [|c r]; cbn [length] in Hn; [done|lia|done|].
  cbn [utf16_wf app] in *. apply andb_true_iff in Ha as [Hc Ha]. rewrite Hc. cbn [andb].
  destruct (is_high_surrogate c).
  - destruct r as [|d r']; [done|]. cbn [app]. apply andb_true_iff in Ha as [Hd Ha]. rewrite Hd. cbn [andb].
    apply IH; [simpl in Hn; lia|done..].
  - apply andb_true_iff in Ha as [Hd Ha]. rewrite Hd. cbn [andb]. apply IH; [lia|done..].
Qed.

Lemma utf16_wf_app a b : utf16_wf a = true → utf16_wf b = true → utf16_wf (a ++ b) = true.
Proof. by eapply utf16_wf_app_le. Qed.

Lemma utf16_wf_plain s : Forall (λ c, c < 55296) s → utf16_wf s = true.
Proof.
  induction 1 as [|c s Hc Hs IH]; [done|]. simpl. unfold is_high_surrogate, is_low_surrogate. by ranges.
Qed.

Lemma utf16_wf_cons c s : c < 55296 → utf16_wf s = true → utf16_wf (c :: s) = true.
Proof. intros. apply (utf16_wf_app [c]); [apply utf16_wf_plain; by constructor|done]. Qed.

Lemma hex_digit_lt n : n < 16 → hex_digit n < 128.
Proof. intros. unfold hex_digit. case_match; lia. Qed.

Lemma unicode_escape_wf c s : utf16_wf s = true → utf16_wf (unicode_escape c ++ s) = true.
Proof.
  intros. apply utf16_wf_app; [|done]. apply utf16_wf_plain. unfold unicode_escape, hex4.
  repeat (constructor; [try (eapply N.lt_trans; [apply hex_digit_lt, N.mod_lt; lia|]); lia|]). done.
Qed.

Lemma escape_char_lt c e : escape_char c = Some e → e < 128.
Proof. unfold escape_char. intros H. repeat case_match; simplify_eq; lia. Qed.

Lemma quote_body_wf_le n s : (length s <= n)%nat → units_ok s = true → utf16_wf (quote_body s) = true.
Proof.
  revert s. induction n as [|n IH]; intros s Hn Hs; destruct s as [|c r]; cbn [length] in Hn; [done|lia|done|].
  cbn [units_ok forallb] in Hs. apply andb_true_iff in Hs as [Hc Hr].
  assert (utf16_wf (quote_body r) = true) as IHr by (apply IH; [lia|done]).
  cbn [quote_body]. destruct (escape_char c) as [e|] eqn:He.
  { apply escape_char_lt in He. apply utf16_wf_cons; [lia|]. apply utf16_wf_cons; [lia|done]. }
  destruct (c <? 32); [by apply unicode_escape_wf|].
  destruct (is_low_surrogate c) eqn:Hl; [by apply unicode_escape_wf|].
  destruct (is_high_surrogate c) eqn:Hh.
  - destruct r as [|d r'].
    { rewrite <-(app_nil_r (unicode_escape c)). by apply unicode_escape_wf. }
    destruct (is_low_surrogate d) eqn:Hd; [|by apply unicode_escape_wf].
    cbn [utf16_wf]. rewrite Hc, Hh, Hd. cbn [andb]. apply IH; [simpl in Hn; lia|].
    cbn [forallb] in Hr. by apply andb_true_iff in Hr as [_ Hr].
  - cbn [utf16_wf]. by rewrite Hc, Hh, Hl.
Qed.

Lemma quote_wf s : units_ok s = true → utf16_wf (quote s) = true.
Proof.
  intros. unfold quote. apply utf16_wf_cons; [lia|]. apply utf16_wf_app; [by eapply quote_body_wf_le|done].
Qed.

Lemma join_wf l : Forall (λ x, utf16_wf x = true) l → utf16_wf (join [44] l) = true.
Proof.
  induction 1 as [|x l Hx Hl IH]; [done|]. destruct l as [|y l]; [done|].
  apply utf16_wf_app; [done|]. by apply (utf16_wf_app [44]).
Qed.

Lemma digit_string_wf s : Forall (λ c, is_digit c = true) s → utf16_wf s = true.
Proof.
  intros H. apply utf16_wf_plain. eapply Forall_impl; [exact H|]. intros c Hc%is_digit_spec. lia.
Qed.

Lemma num_to_string_wf m k : utf16_wf (num_to_string (Dec m k)) = true.
Proof.
  destruct k as [|k].
  - simpl. destruct (Z_to_string_shape m) as (neg & ds & -> & -> & _).
    apply utf16_wf_app; [by destruct neg|apply digit_string_wf, digitsN_digits].
  - unfold num_to_string. apply utf16_wf_app; [by destruct (m <? 0)%Z|].
    apply utf16_wf_app; [apply digit_string_wf, digitsN_digits|].
    apply (utf16_wf_app [46]); [done|]. apply digit_string_wf, pad_left_digits, digitsN_digits.
Qed.

Lemma stringify_wf j : json_units j = true → utf16_wf (stringify j) = true.
Proof.
  induction j as [|b|[| |m k]|s|l IH|l IH] using json_ind'; intros H; cbn [stringify json_units] in *; try done.
  - by destruct b.
  - apply num_to_string_wf.
  - by apply quote_wf.
  - apply utf16_wf_cons; [lia|]. apply utf16_wf_app; [|done]. apply join_wf, Forall_map.
    by apply (Forall_mp json_units).
  - apply utf16_wf_cons; [lia|]. apply utf16_wf_app; [|done]. apply join_wf, Forall_map.
    eapply (Forall_mp (λ kv, units_ok kv.1 && json_units kv.2)); [|done].
    eapply Forall_impl; [exact IH|]. intros [k v] Hkv [Hk Hv]%andb_true_iff. cbn [fst snd] in *.
    apply utf16_wf_app; [by apply quote_wf|]. apply utf16_wf_cons; [lia|auto].
Qed.

Lemma utf16_wf_units_le n s : (length s <= n)%nat → utf16_wf s = true → Forall (λ c, c < 65536) s.
Proof.
  revert s. induction n as [|n IH]; intros s Hn Hs; destruct s as [|c r]; cbn [length] in Hn; [done|lia|done|].
  cbn [utf16_wf] in Hs. apply andb_true_iff in Hs as [Hc%N.ltb_lt Hs]. constructor; [done|].
  destruct (is_high_surrogate c).
  - destruct r as [|d r']; [done|]. apply andb_true_iff in Hs as [Hd Hs]. apply in_range_spec in Hd.
    constructor; [lia|]. apply IH; [simpl in Hn; lia|done].
  - apply andb_true_iff in Hs as [_ Hs]. apply IH; [lia|done].
Qed.

Lemma stringify_no_bom j : head (stringify j) ≠ Some 65279.
Proof.
  destruct j as [|b|[| |m k]|s|l|l]; [done|by destruct b|done|done| |done..]. cbn [stringify].
  destruct (num_to_string_head m k) as (c & r & -> & [-> |Hc%is_digit_spec]); simpl; [done|].
  intros [= ->]. lia.
Qed.

(** The text of a JSON value is recovered from its UTF-8 bytes. *)
Lemma utf8_stringify j : json_units j = true → utf8_decode (utf8_encode (stringify j)) = stringify j.
Proof. intros. apply utf8_round_trip; [by apply stringify_wf|apply stringify_no_bom]. Qed.

Lemma utf8_stringify_bytes j : json_units j = true → Forall is_byte (utf8_encode (stringify j)).
Proof. intros. apply utf8_encode_bytes. eapply utf16_wf_units_le; [done|]. by apply stringify_wf. Qed.

(** ** Lengths *)

(** The length of a base64 text only depends on the number of bytes. *)
Lemma b64_encode_length a b : length a = length b → length (b64_encode a) = length (b64_encode b).
Proof.
  intros H. unfold b64_encode, b64_padding. rewrite !length_app, H. f_equal.
  rewrite !b64_digits_sextets, !length_map.
  destruct (sextets_length a) as [q Hq], (sextets_length b) as [q' Hq']. lia.
Qed.

Definition plain_char (c : N) : bool :=
  match escape_char c with None => in_range 32 126 c | Some _ => false end.

Lemma quote_body_plain s : Forall (λ c, plain_char c = true) s → quote_body s = s.
Proof.
  induction 1 as [|c s Hc Hs IH]; [done|]. unfold plain_char in Hc. cbn [quote_body].
  destruct (escape_char c); [done|]. apply in_range_spec in Hc.
  rewrite (proj2 (N.ltb_ge c 32)) by lia. unfold is_low_surrogate, is_high_surrogate.
  rewrite !in_range_false by lia. by rewrite IH.
Qed.

Lemma b64_char_plain v : v < 64 → plain_char (b64_char v) = true.
Proof.
  intros H. unfold plain_char, b64_char.
  destruct (N.ltb_spec v 26); [|destruct (N.ltb_spec v 52); [|destruct (N.ltb_spec v 62);
    [|by destruct (N.eqb_spec v 62)]]]; unfold escape_char;
    rewrite ?(proj2 (N.eqb_neq _ _)) by lia; apply in_range_spec; try lia.
  all: rewrite ?(proj2 (N.eqb_neq _ _)) by lia; try lia.
Qed.

Lemma b64_encode_plain bs : Forall is_byte bs → Forall (λ c, plain_char c = true) (b64_encode bs).
Proof.
  intros H. unfold b64_encode. apply Forall_app. split.
  - rewrite b64_digits_sextets. apply Forall_map. eapply Forall_impl; [by apply sextets_lt|].
    intros v. apply b64_char_plain.
  - unfold b64_padding. repeat case_match; repeat constructor.
Qed.

Lemma quote_b64_length a b : Forall is_byte a → Forall is_byte b → length a = length b →
  length (quote (b64_encode a)) = length (quote (b64_encode b)).
Proof.
  intros Ha Hb H. unfold quote. rewrite !quote_body_plain by by apply b64_encode_plain.
  cbn [length]. rewrite !length_app. by rewrite (b64_encode_length a b H).
Qed.
