(* ===== verification/JsStream.v ===== *)
(** * Decoding a byte stream in pieces

    [new TextDecoder("utf-8")] fed with [decode(bytes, { stream: true })]: the
    decoder keeps a character split between two calls, and it drops a byte-order
    mark only at the start of the stream.  The pieces decoded one by one are the
    decoding of the whole ([stream_decode]). *)

From S2P Require Import Prelude JsString JsJson JsEncoding.

#[local] Open Scope N_scope.

(** [decode_from] without the end of the stream: the state it stops in, and what
    it has emitted. *)
Fixpoint feed (st : decoder) (bs : list N) : decoder * jsstring :=
  match bs with
  | [] => (st, [])
  | b :: r =>
      let '(st', out) :=
        match needed st with
        | O => first_byte b
        | S n =>
            if in_range (lower st) (upper st) b then
              let a := acc st * 64 + (b - 128) in
              match n with
              | O => (idle, units_of a)
              | S _ => ({| acc := a; needed := n; lower := 128; upper := 191 |}, [])
              end
            else let '(st', out) := first_byte b in (st', replacement :: out)
        end in
      let '(st'', out') := feed st' r in (st'', out ++ out')
  end.

(** The end of the stream: a character left incomplete is replaced. *)
Definition flush (st : decoder) : jsstring := match needed st with O => [] | S _ => [replacement] end.

Record Stream := mkStream { dec : decoder; begun : bool }.
Definition new_stream : Stream := mkStream idle false.

Definition strip_bom (s : jsstring) : jsstring :=
  match s with c :: r => if c =? 65279 then r else c :: r | [] => [] end.

(** [decoder.decode(bytes, { stream: true })] *)
Definition decode_piece (bytes : list N) (s : Stream) : Stream * jsstring :=
  let '(st, out) := feed (dec s) bytes in
  if begun s then (mkStream st true, out)
  else match out with
       | [] => (mkStream st false, [])
       | _ => (mkStream st true, strip_bom out)
       end.

(** ** The pieces and the whole *)

Lemma decode_feed bs st : decode_from st bs = (feed st bs).2 ++ flush (feed st bs).1.
Proof.
  revert st. induction bs as [|b r IH]; intros st; [done|]. cbn [decode_from feed].
  destruct (needed st) as [|n].
  - destruct (first_byte b) as [st' out]. rewrite IH. destruct (feed st' r). by rewrite app_assoc.
  - destruct (in_range _ _ b).
    + destruct n as [|n]; rewrite IH; destruct (feed _ r); by rewrite ?app_assoc.
    + destruct (first_byte b) as [st' out]. rewrite IH. destruct (feed st' r). cbn. by rewrite app_assoc.
Qed.

Lemma feed_app a b st : feed st (a ++ b) =
  ((feed (feed st a).1 b).1, (feed st a).2 ++ (feed (feed st a).1 b).2).
Proof.
  revert st. induction a as [|x a IH]; intros st; [cbn; by destruct (feed st b)|]. cbn [app feed].
  set (q := match needed st with O => _ | S _ => _ end). destruct q as [st' out]. rewrite IH.
  destruct (feed st' a) as [s1 o1]. cbn. by rewrite app_assoc.
Qed.

(** The state of a stream and the text it has given for the bytes so far. *)
Definition streamed (bs : list N) (s : Stream) (text : jsstring) : Prop :=
  let '(st, out) := feed idle bs in
  dec s = st ∧ text = strip_bom out ∧ (begun s = false ↔ out = []).

Lemma streamed_nil : streamed [] new_stream [].
Proof. done. Qed.

Lemma strip_bom_app a b : a ≠ [] → strip_bom (a ++ b) = strip_bom a ++ b.
Proof. destruct a as [|c a]; [done|]. intros _. cbn. by destruct (c =? 65279). Qed.

Lemma streamed_piece bs s text piece : streamed bs s text →
  streamed (bs ++ piece) (decode_piece piece s).1 (text ++ (decode_piece piece s).2).
Proof.
  unfold streamed, decode_piece. rewrite feed_app. destruct (feed idle bs) as [st out]. intros (-> & -> & Hb).
  cbn [fst snd]. destruct (feed st piece) as [st' out']. cbn [fst snd].
  destruct (begun s) eqn:E; cbn [dec begun fst snd].
  - assert (out ≠ []) as Hne by (intros ->; by destruct Hb as [_ Hb]; discriminate (Hb eq_refl)).
    split; [done|]. split; [by rewrite strip_bom_app|]. split; [done|]. by destruct out.
  - destruct Hb as [Hb _]. rewrite (Hb eq_refl). cbn [app strip_bom].
    destruct out' as [|c out']; cbn [fst snd dec begun]; [done|]. by split.
Qed.

(** The texts given for a list of pieces. *)
Definition decode_pieces (ps : list (list N)) : Stream * list jsstring :=
  fold_left (λ '(s, ts) p, let '(s', t) := decode_piece p s in (s', ts ++ [t])) ps (new_stream, []).

Lemma stream_whole bs s text : streamed bs s text → text ++ flush (dec s) = utf8_decode bs.
Proof.
  unfold streamed, utf8_decode. rewrite decode_feed. destruct (feed idle bs) as [st out]. cbn [fst snd].
  intros (-> & -> & _). change (match out ++ flush st with [] => [] | c :: r => if c =? 65279 then r else c :: r end)
    with (strip_bom (out ++ flush st)).
  destruct out as [|c out]; [|by rewrite strip_bom_app]. cbn [strip_bom app]. unfold flush. by destruct (needed st).
Qed.

Lemma decode_pieces_streamed ps : streamed (concat ps) (decode_pieces ps).1 (concat (decode_pieces ps).2).
Proof.
  induction ps as [|p ps IH] using rev_ind; [done|]. unfold decode_pieces in *. rewrite fold_left_app, concat_app.
  cbn [fold_left]. destruct (fold_left _ ps _) as [s ts]. cbn [fst snd] in IH.
  pose proof (streamed_piece _ _ _ p IH) as H. destruct (decode_piece p s) as [s' t]. cbn [fst snd] in *.
  rewrite concat_app. cbn [concat]. by rewrite !app_nil_r.
Qed.

Lemma stream_decode ps : concat (decode_pieces ps).2 ++ flush (dec (decode_pieces ps).1) = utf8_decode (concat ps).
Proof. apply stream_whole, decode_pieces_streamed. Qed.
