(* ===== verification/JsDate.v ===== *)
(** * Date.prototype.toISOString

    The UTC calendar of the language: a time value in milliseconds since the
    epoch, its civil date in the proleptic Gregorian calendar, and the text
    [toISOString] prints. *)

From S2P Require Import Prelude JsString JsJson JsEncoding.

Definition msPerDay : Z := 86400000.

(** Day number since 1970-01-01 to year, month and day. *)
Definition civil_of_days (z0 : Z) : Z * Z * Z :=
  let z := z0 + 719468 in
  let era := z / 146097 in
  let doe := z mod 146097 in
  let yoe := (doe - doe / 1460 + doe / 36524 - doe / 146096) / 365 in
  let doy := doe - (365 * yoe + yoe / 4 - yoe / 100) in
  let mp := (5 * doy + 2) / 153 in
  let d := doy - (153 * mp + 2) / 5 + 1 in
  let m := if mp <? 10 then mp + 3 else mp - 9 in
  (yoe + era * 400 + (if m <=? 2 then 1 else 0), m, d).

Definition padZ (w : nat) (n : Z) : jsstring := pad_left w (digitsN (Z.to_N n)).

(** Years outside 0..9999 are printed with a sign and six digits. *)
Definition year_string (y : Z) : jsstring :=
  if (0 <=? y) && (y <=? 9999) then padZ 4 y
  else (if y <? 0 then js "-" else js "+") ++ padZ 6 (Z.abs y).

Definition toISOString (ms : Z) : jsstring :=
  let '(y, m, d) := civil_of_days (ms / msPerDay) in
  let t := ms mod msPerDay in
  year_string y ++ js "-" ++ padZ 2 m ++ js "-" ++ padZ 2 d ++ js "T"
  ++ padZ 2 (t / 3600000) ++ js ":" ++ padZ 2 (t / 60000 mod 60) ++ js ":"
  ++ padZ 2 (t / 1000 mod 60) ++ js "." ++ padZ 3 (t mod 1000) ++ js "Z".

Example epoch : toISOString 0 = js "1970-01-01T00:00:00.000Z".
Proof. reflexivity. Qed.
Example leap_day : toISOString 1709164799999 = js "2024-02-28T23:59:59.999Z"
                 ∧ toISOString 1709164800000 = js "2024-02-29T00:00:00.000Z".
Proof. split; reflexivity. Qed.
Example before_epoch : toISOString (-1) = js "1969-12-31T23:59:59.999Z".
Proof. reflexivity. Qed.

Lemma digits_units s : Forall (λ c, is_digit c = true) s → units_ok s = true.
Proof.
  intros H. apply forallb_Forall. eapply Forall_impl; [exact H|]. cbn. intros c ?%is_digit_spec. apply N.ltb_lt. lia.
Qed.

Lemma units_ok_app a b : units_ok (a ++ b) = units_ok a && units_ok b.
Proof. apply forallb_app. Qed.

Lemma padZ_units w n : units_ok (padZ w n) = true.
Proof. apply digits_units, pad_left_digits, digitsN_digits. Qed.

Lemma toISOString_units ms : units_ok (toISOString ms) = true.
Proof.
  unfold toISOString, year_string. destruct (civil_of_days _) as [[y m] d].
  repeat case_match; rewrite !units_ok_app, !padZ_units; reflexivity.
Qed.
