(* ===== verification/JsRegex.v ===== *)
(** * Regular expressions

    The part of the language of JavaScript's regular expressions that the
    validators use: character classes, concatenation, alternation, repetition.
    [rmatch] is the matcher of a pattern anchored at both ends ([^...$]), by
    derivatives; [lang] says which strings a pattern stands for, and [rmatch]
    decides it. *)

From S2P Require Import Prelude JsString.

#[local] Open Scope N_scope.

Inductive re :=
  | REmpty
  | REps
  | RChr (p : N → bool)
  | RSeq (a b : re)
  | RAlt (a b : re)
  | RStar (a : re).

Fixpoint nullable (r : re) : bool :=
  match r with
  | REmpty | RChr _ => false
  | REps | RStar _ => true
  | RSeq a b => nullable a && nullable b
  | RAlt a b => nullable a || nullable b
  end.

Fixpoint deriv (c : N) (r : re) : re :=
  match r with
  | REmpty | REps => REmpty
  | RChr p => if p c then REps else REmpty
  | RSeq a b =>
      if nullable a then RAlt (RSeq (deriv c a) b) (deriv c b) else RSeq (deriv c a) b
  | RAlt a b => RAlt (deriv c a) (deriv c b)
  | RStar a => RSeq (deriv c a) (RStar a)
  end.

Fixpoint rmatch (r : re) (s : jsstring) : bool :=
  match s with
  | [] => nullable r
  | c :: s => rmatch (deriv c r) s
  end.

(** [a+], [a?], [a{n}], [a{lo,lo+extra}] *)
Definition RPlus (a : re) : re := RSeq a (RStar a).
Definition ROpt (a : re) : re := RAlt REps a.
Fixpoint RUpTo (n : nat) (a : re) : re :=
  match n with O => REps | S n => ROpt (RSeq a (RUpTo n a)) end.
Fixpoint RTimes (n : nat) (a : re) : re :=
  match n with O => REps | S n => RSeq a (RTimes n a) end.
Definition RRange (lo extra : nat) (a : re) : re := RSeq (RTimes lo a) (RUpTo extra a).

Definition RLit (c : N) : re := RChr (N.eqb c).

(** ** The strings of a pattern *)

Inductive lang : re → jsstring → Prop :=
  | lang_eps : lang REps []
  | lang_chr p c : p c = true → lang (RChr p) [c]
  | lang_seq a b s t : lang a s → lang b t → lang (RSeq a b) (s ++ t)
  | lang_alt_l a b s : lang a s → lang (RAlt a b) s
  | lang_alt_r a b s : lang b s → lang (RAlt a b) s
  | lang_star_nil a : lang (RStar a) []
  | lang_star_app a s t : lang a s → lang (RStar a) t → lang (RStar a) (s ++ t).

Lemma lang_Seq a b s : lang (RSeq a b) s ↔ ∃ u v, s = u ++ v ∧ lang a u ∧ lang b v.
Proof. split; [intros H; inversion H; eauto 6|]. intros (u & v & -> & Hu & Hv). by constructor. Qed.

Lemma lang_Alt a b s : lang (RAlt a b) s ↔ lang a s ∨ lang b s.
Proof. split; [intros H; inversion H; tauto|]. intros [H|H]; [by apply lang_alt_l|by apply lang_alt_r]. Qed.

Lemma nullable_spec r : nullable r = true ↔ lang r [].
Proof.
  induction r as [| |p|a IHa b IHb|a IHa b IHb|a IHa]; cbn [nullable].
  - split; [done|intros H; inversion H].
  - split; [intros _; constructor|done].
  - split; [done|intros H; inversion H].
  - rewrite andb_true_iff, IHa, IHb, lang_Seq. split.
    + intros [Ha Hb]. by exists [], [].
    + intros (s & t & E & Ha & Hb). symmetry in E. by apply app_nil in E as [-> ->].
  - by rewrite orb_true_iff, IHa, IHb, lang_Alt.
  - split; [intros _; constructor|done].
Qed.

Lemma star_cons a c s : lang (RStar a) (c :: s) → ∃ u v, s = u ++ v ∧ lang a (c :: u) ∧ lang (RStar a) v.
Proof.
  intros H. remember (RStar a) as r eqn:Er. remember (c :: s) as w eqn:Ew. revert s Er Ew.
  induction H as [| | | | | |a' u v Hu _ Hv IH]; intros z Er Ew; try done. injection Er as ->.
  destruct u as [|x u]; simpl in Ew; [by apply IH|]. injection Ew as -> <-. eauto.
Qed.

Lemma deriv_spec r c s : lang (deriv c r) s ↔ lang r (c :: s).
Proof.
  revert s. induction r as [| |p|a IHa b IHb|a IHa b IHb|a IHa]; intros s; simpl.
  - split; intros H; inversion H.
  - split; intros H; inversion H.
  - destruct (p c) eqn:E; split; intros H; inversion H; subst; try done; [by constructor|constructor|congruence].
  - assert (lang (RSeq (deriv c a) b) s → lang (RSeq a b) (c :: s)) as H1.
    { intros (u & v & -> & Hu & Hv)%lang_Seq. change (c :: u ++ v) with ((c :: u) ++ v).
      constructor; [by apply IHa|done]. }
    assert (lang (RSeq a b) (c :: s) → lang (RSeq (deriv c a) b) s ∨ (nullable a = true ∧ lang (deriv c b) s)) as H2.
    { intros (u & v & E & Hu & Hv)%lang_Seq. destruct u as [|x u]; simpl in E.
      - subst v. right. split; [by apply nullable_spec|by apply IHb].
      - injection E as -> ->. left. constructor; [by apply IHa|done]. }
    destruct (nullable a) eqn:En; split; intros H.
    + inversion H; subst; [by apply H1|]. change (c :: s) with ([] ++ c :: s). constructor.
      * by apply nullable_spec.
      * by apply IHb.
    + destruct (H2 H) as [?|[_ ?]]; [by apply lang_alt_l|by apply lang_alt_r].
    + by apply H1.
    + by destruct (H2 H) as [?|[? _]].
  - split; intros H.
    + inversion H; subst; [apply lang_alt_l, IHa|apply lang_alt_r, IHb]; done.
    + inversion H; subst; [apply lang_alt_l, IHa|apply lang_alt_r, IHb]; done.
  - split; intros H.
    + apply lang_Seq in H as (u & v & -> & Hu & Hv). change (c :: u ++ v) with ((c :: u) ++ v).
      constructor; [by apply IHa|done].
    + apply star_cons in H as (u & v & -> & Hu & Hv). constructor; [by apply IHa|done].
Qed.

(** The matcher decides the language. *)
Lemma rmatch_spec r s : rmatch r s = true ↔ lang r s.
Proof.
  revert r. induction s as [|c s IH]; intros r; simpl; [apply nullable_spec|]. rewrite IH. apply deriv_spec.
Qed.

(** ** The language of the usual patterns *)

Lemma lang_Chr p s : lang (RChr p) s ↔ ∃ c, s = [c] ∧ p c = true.
Proof. split; [intros H; inversion H; eauto|]. intros (c & -> & Hc). by constructor. Qed.

Lemma lang_Lit c s : lang (RLit c) s ↔ s = [c].
Proof.
  unfold RLit. rewrite lang_Chr. split; [intros (x & -> & ->%N.eqb_eq); done|]. intros ->. exists c.
  split; [done|apply N.eqb_refl].
Qed.

Lemma lang_Eps s : lang REps s ↔ s = [].
Proof. split; [by intros H; inversion H|]. intros ->. constructor. Qed.

Lemma lang_Opt a s : lang (ROpt a) s ↔ s = [] ∨ lang a s.
Proof. unfold ROpt. by rewrite lang_Alt, lang_Eps. Qed.

Lemma lang_StarChr p s : lang (RStar (RChr p)) s ↔ Forall (λ c, p c = true) s.
Proof.
  split.
  - intros H. remember (RStar (RChr p)) as r eqn:Er. revert Er.
    induction H as [| | | | |a|a u v Hu _ Hv IH]; intros Er; try done.
    injection Er as ->. apply lang_Chr in Hu as (c & -> & Hc). apply Forall_app. split; [|by apply IH].
    by apply Forall_singleton.
  - induction 1 as [|c s Hc Hs IH]; [constructor|]. change (c :: s) with ([c] ++ s).
    constructor; [by constructor|done].
Qed.

Lemma lang_PlusChr p s : lang (RPlus (RChr p)) s ↔ s ≠ [] ∧ Forall (λ c, p c = true) s.
Proof.
  unfold RPlus. rewrite lang_Seq. setoid_rewrite lang_Chr. setoid_rewrite lang_StarChr. split.
  - intros (u & v & -> & (c & -> & Hc) & Hv). split; [done|]. by apply Forall_cons_2.
  - intros [Hs Hf]. destruct s as [|c s]; [done|]. apply Forall_cons in Hf as [Hc Hf].
    exists [c], s. eauto.
Qed.

Lemma lang_TimesChr n p s : lang (RTimes n (RChr p)) s ↔ length s = n ∧ Forall (λ c, p c = true) s.
Proof.
  revert s. induction n as [|n IH]; intros s; cbn [RTimes].
  - rewrite lang_Eps. split; [intros ->; split; [done|apply Forall_nil_2]|]. by intros [H%length_zero_iff_nil _].
  - rewrite lang_Seq. setoid_rewrite lang_Chr. setoid_rewrite IH. split.
    + intros (u & v & -> & (c & -> & Hc) & Hl & Hv). simpl. split; [lia|]. by apply Forall_cons_2.
    + intros [Hl Hf]. destruct s as [|c s]; [done|]. apply Forall_cons in Hf as [Hc Hf].
      exists [c], s. simpl in Hl. split; [done|]. split; [eauto|]. split; [lia|done].
Qed.

Lemma lang_UpToChr n p s : lang (RUpTo n (RChr p)) s ↔ (length s <= n)%nat ∧ Forall (λ c, p c = true) s.
Proof.
  revert s. induction n as [|n IH]; intros s; cbn [RUpTo].
  - rewrite lang_Eps. split; [intros ->; split; [done|apply Forall_nil_2]|]. intros [H _].
    apply length_zero_iff_nil. lia.
  - rewrite lang_Opt, lang_Seq. setoid_rewrite lang_Chr. setoid_rewrite IH. split.
    + intros [->|(u & v & -> & (c & -> & Hc) & Hl & Hv)]; [split; [simpl; lia|apply Forall_nil_2]|].
      simpl. split; [lia|]. by apply Forall_cons_2.
    + intros [Hl Hf]. destruct s as [|c s]; [by left|]. right. apply Forall_cons in Hf as [Hc Hf].
      exists [c], s. simpl in Hl. split; [done|]. split; [eauto|]. split; [lia|done].
Qed.

Lemma lang_RangeChr lo extra p s :
  lang (RRange lo extra (RChr p)) s ↔ (lo <= length s <= lo + extra)%nat ∧ Forall (λ c, p c = true) s.
Proof.
  unfold RRange. rewrite lang_Seq. setoid_rewrite lang_TimesChr. setoid_rewrite lang_UpToChr. split.
  - intros (u & v & -> & [H1 H2] & [H3 H4]). rewrite length_app. split; [lia|]. by apply Forall_app.
  - intros [Hl Hf]. exists (take lo s), (drop lo s). rewrite take_drop, length_take, length_drop.
    split; [done|]. split; (split; [lia|]); [by apply Forall_take|by apply Forall_drop].
Qed.
