(* ===== verification/Validation.v ===== *)
(** * Form validators (utils/validation.ts)

    Each validator returns the message to show, or nothing.  Theorem: the values
    they let through, in plain terms. *)

From S2P Require Import Prelude JsString JsRegex.

#[local] Open Scope N_scope.

Definition NAME_MIN_LENGTH : nat := 1.
Definition NAME_MAX_LENGTH : nat := 64.

Definition USERNAME_MIN_LENGTH : nat := 3.
Definition USERNAME_MAX_LENGTH : nat := 32.

(** [[a-z0-9._@-]] *)
Definition username_char (c : N) : bool :=
  is_lower c || is_digit c || (c =? 46) || (c =? 95) || (c =? 64) || (c =? 45).
Definition USERNAME_REGEX : re := RRange 3 29 (RChr username_char).
Definition USERNAME_HINT : jsstring :=
  js "3-32 characters: lowercase letters, numbers, hyphens, dots, underscores, @".

Definition PASSWORD_MIN_LENGTH : nat := 5.
Definition PASSWORD_MAX_LENGTH : nat := 32.

(** [[^\s@]] *)
Definition email_char (c : N) : bool := negb (is_ws c) && negb (c =? 64).
Definition EMAIL_REGEX : re :=
  RSeq (RPlus (RChr email_char)) (RSeq (RLit 64)
    (RSeq (RPlus (RChr email_char)) (RSeq (RLit 46) (RPlus (RChr email_char))))).

Definition validateName (value : jsstring) : option jsstring :=
  let trimmed := trim value in
  if negb (truthy trimmed) then Some (js "Name is required")
  else if (NAME_MAX_LENGTH <? length trimmed)%nat then Some (js "Name must be at most 64 characters")
  else None.

Definition validateUsername (value : jsstring) : option jsstring :=
  let trimmed := trim value in
  if negb (truthy trimmed) then Some (js "Username is required")
  else if negb (rmatch USERNAME_REGEX trimmed) then Some USERNAME_HINT
  else None.

Definition validateEmail (value : jsstring) : option jsstring :=
  let trimmed := trim value in
  if negb (truthy trimmed) then Some (js "Email is required")
  else if negb (rmatch EMAIL_REGEX trimmed) then Some (js "Enter a valid email address")
  else None.

Definition validateIdentifier (value : jsstring) : option jsstring :=
  let trimmed := trim value in
  if negb (truthy trimmed) then Some (js "Username or email is required")
  else if rmatch EMAIL_REGEX trimmed || rmatch USERNAME_REGEX trimmed then None
  else Some (js "Enter a valid username or email").

Definition validatePassword (value : jsstring) : option jsstring :=
  if ((length value <? PASSWORD_MIN_LENGTH) || (PASSWORD_MAX_LENGTH <? length value))%nat
  then Some (js "Password must be 5–32 characters long")
  else None.

Definition NAMESPACE_NAME_MIN_LENGTH : nat := 3.
Definition NAMESPACE_NAME_MAX_LENGTH : nat := 30.

(** [[a-z0-9]] and [[a-z0-9-]] *)
Definition alnum_char (c : N) : bool := is_lower c || is_digit c.
Definition namespace_char (c : N) : bool := alnum_char c || (c =? 45).
Definition NAMESPACE_NAME_REGEX : re :=
  RSeq (RChr alnum_char) (ROpt (RSeq (RStar (RChr namespace_char)) (RChr alnum_char))).

Definition validateNamespaceName (name : jsstring) : option jsstring :=
  if (length name <? NAMESPACE_NAME_MIN_LENGTH)%nat then Some (js "Name must be at least 3 characters")
  else if (NAMESPACE_NAME_MAX_LENGTH <? length name)%nat then Some (js "Name must be at most 30 characters")
  else if negb (rmatch NAMESPACE_NAME_REGEX name)
  then Some (js "Only lowercase letters, numbers, and hyphens (cannot start or end with hyphen)")
  else None.

(** [parseInt(maxNamespaces, 10) >= 1]; a comparison with NaN is false. *)
Definition isMaxNamespacesValid (limitEnabled limitDisabled : bool) (maxNamespaces : jsstring) : bool :=
  negb limitEnabled || limitDisabled ||
  match parseInt maxNamespaces with Some n => (1 <=? n)%Z | None => false end.

(** ** What they accept *)

Lemma username_regex_spec s : rmatch USERNAME_REGEX s = true ↔
  (3 <= length s <= 32)%nat ∧ Forall (λ c, username_char c = true) s.
Proof. unfold USERNAME_REGEX. by rewrite rmatch_spec, lang_RangeChr. Qed.

(** Something before and after an [@], and a dot inside what follows. *)
Definition is_email (s : jsstring) : Prop :=
  ∃ l d t, s = l ++ 64 :: d ++ 46 :: t ∧ l ≠ [] ∧ d ≠ [] ∧ t ≠ [] ∧
    Forall (λ c, email_char c = true) (l ++ d ++ t).

Lemma email_regex_spec s : rmatch EMAIL_REGEX s = true ↔ is_email s.
Proof.
  unfold EMAIL_REGEX, is_email. rewrite rmatch_spec. split.
  - intros (l & r & -> & [Hl1 Hl2]%lang_PlusChr & Hr)%lang_Seq.
    apply lang_Seq in Hr as (x & r' & -> & ->%lang_Lit & Hr).
    apply lang_Seq in Hr as (d & r'' & -> & [Hd1 Hd2]%lang_PlusChr & Hr).
    apply lang_Seq in Hr as (y & t & -> & ->%lang_Lit & [Ht1 Ht2]%lang_PlusChr).
    exists l, d, t. split; [done|]. rewrite !Forall_app. tauto.
  - intros (l & d & t & -> & Hl & Hd & Ht & Hf). rewrite !Forall_app in Hf. destruct Hf as (Hfl & Hfd & Hft).
    apply lang_Seq. exists l, (64 :: d ++ 46 :: t). split; [done|]. split; [by apply lang_PlusChr|].
    apply lang_Seq. exists [64], (d ++ 46 :: t). split; [done|]. split; [by apply lang_Lit|].
    apply lang_Seq. exists d, (46 :: t). split; [done|]. split; [by apply lang_PlusChr|].
    apply lang_Seq. exists [46], t. split; [done|]. split; [by apply lang_Lit|by apply lang_PlusChr].
Qed.

Lemma alnum_not_hyphen c : namespace_char c = true → (alnum_char c = true ↔ c ≠ 45).
Proof.
  unfold namespace_char. destruct (N.eqb_spec c 45) as [->|Hc]; [|rewrite orb_false_r; tauto].
  intros _. split; [|done]. intros H. vm_compute in H. discriminate.
Qed.

(** Letters, digits and hyphens, a hyphen at neither end. *)
Definition is_namespace_name (s : jsstring) : Prop :=
  s ≠ [] ∧ Forall (λ c, namespace_char c = true) s ∧ head s ≠ Some 45 ∧ last s ≠ Some 45.

Lemma alnum_namespace c : alnum_char c = true → namespace_char c = true.
Proof. unfold namespace_char. by intros ->. Qed.

Lemma namespace_regex_spec s : rmatch NAMESPACE_NAME_REGEX s = true ↔ is_namespace_name s.
Proof.
  unfold NAMESPACE_NAME_REGEX, is_namespace_name. rewrite rmatch_spec. split.
  - intros (u & v & -> & (c & -> & Hc)%lang_Chr & Hv)%lang_Seq. simpl.
    pose proof (alnum_namespace c Hc) as Hc'. pose proof (proj1 (alnum_not_hyphen c Hc') Hc) as Hne.
    apply lang_Opt in Hv as [->|Hv].
    + split; [done|]. split; [by apply Forall_singleton|]. simpl. split; congruence.
    + apply lang_Seq in Hv as (m & e & -> & Hm%lang_StarChr & (x & -> & Hx)%lang_Chr).
      pose proof (alnum_namespace x Hx) as Hx'.
      split; [done|]. split; [apply Forall_cons_2; [done|]; apply Forall_app; split; [done|by apply Forall_singleton]|].
      split; [congruence|]. change (c :: m ++ [x]) with ((c :: m) ++ [x]). rewrite last_snoc.
      apply (alnum_not_hyphen x) in Hx; [congruence|done].
  - intros (Hs & Hf & Hh & Hl). destruct s as [|c s]; [done|]. apply Forall_cons in Hf as [Hc Hf].
    assert (alnum_char c = true) as Hc' by (apply alnum_not_hyphen; simpl in Hh; congruence).
    apply lang_Seq. exists [c], s. split; [done|]. split; [by apply lang_chr|]. apply lang_Opt.
    destruct s as [|x m _] using rev_ind; [by left|]. right. apply Forall_app in Hf as [Hm Hx].
    apply Forall_cons in Hx as [Hx _]. change (c :: m ++ [x]) with ((c :: m) ++ [x]) in Hl. rewrite last_snoc in Hl.
    apply lang_Seq. exists m, [x]. split; [done|]. split; [by apply lang_StarChr|].
    apply lang_chr. apply (proj2 (alnum_not_hyphen x Hx)). congruence.
Qed.

Lemma not_truthy s : truthy s = false ↔ s = [].
Proof. by destruct s. Qed.

Lemma namespace_name_exact v : validateNamespaceName v = None ↔ (3 <= length v <= 30)%nat ∧ is_namespace_name v.
Proof.
  unfold validateNamespaceName, NAMESPACE_NAME_MIN_LENGTH, NAMESPACE_NAME_MAX_LENGTH.
  rewrite <-namespace_regex_spec.
  destruct (Nat.ltb_spec (length v) 3); [split; [done|lia]|].
  destruct (Nat.ltb_spec 30 (length v)); [split; [done|lia]|].
  destruct (rmatch NAMESPACE_NAME_REGEX v); simpl; split; try done. by intros [_ ?].
Qed.

Lemma password_exact v : validatePassword v = None ↔ (5 <= length v <= 32)%nat.
Proof.
  unfold validatePassword, PASSWORD_MIN_LENGTH, PASSWORD_MAX_LENGTH.
  destruct (Nat.ltb_spec (length v) 5), (Nat.ltb_spec 32 (length v)); simpl; split; try done; lia.
Qed.

(** The validators accept exactly: user names of 3 to 32 of the listed
    characters once trimmed; addresses with text before the [@], and text, a dot
    and text after it, none of it white space or another [@]; either of the two
    as an identifier; passwords of 5 to 32 code units; namespace names of 3 to 30
    lowercase letters, digits and hyphens with a hyphen at neither end. *)
Theorem validators_exact (v : jsstring) :
  (validateUsername v = None ↔
     (3 <= length (trim v) <= 32)%nat ∧ Forall (λ c, username_char c = true) (trim v)) ∧
  (validateEmail v = None ↔ is_email (trim v)) ∧
  (validateIdentifier v = None ↔ validateUsername v = None ∨ validateEmail v = None) ∧
  (validatePassword v = None ↔ (5 <= length v <= 32)%nat) ∧
  (validateNamespaceName v = None ↔ (3 <= length v <= 30)%nat ∧ is_namespace_name v).
Proof.
  assert (∀ s, is_email s → truthy s = true) as Hem.
  { intros s (l & d & t & -> & Hl & _). by destruct l. }
  assert (∀ s, (3 <= length s <= 32)%nat ∧ Forall (λ c, username_char c = true) s → truthy s = true) as Hus.
  { intros [|] [? _]; [simpl in *; lia|done]. }
  assert (validateUsername v = None ↔
     (3 <= length (trim v) <= 32)%nat ∧ Forall (λ c, username_char c = true) (trim v)) as H1.
  { unfold validateUsername. rewrite <-username_regex_spec.
    destruct (rmatch USERNAME_REGEX (trim v)) eqn:E.
    - rewrite Hus by (by apply username_regex_spec). done.
    - by destruct (truthy (trim v)). }
  assert (validateEmail v = None ↔ is_email (trim v)) as H2.
  { unfold validateEmail. rewrite <-email_regex_spec. destruct (rmatch EMAIL_REGEX (trim v)) eqn:E.
    - rewrite Hem by (by apply email_regex_spec). done.
    - by destruct (truthy (trim v)). }
  split; [done|]. split; [done|]. split; [|split].
  - rewrite H1, H2, <-username_regex_spec, <-email_regex_spec. unfold validateIdentifier.
    destruct (rmatch USERNAME_REGEX (trim v)) eqn:E1, (rmatch EMAIL_REGEX (trim v)) eqn:E2; simpl;
      try (rewrite Hem by (by apply email_regex_spec)); try (rewrite Hus by (by apply username_regex_spec));
      simpl; try tauto. destruct (truthy (trim v)); simpl; split; [done|intros [?|?]; done|done|intros [?|?]; done].
  - apply password_exact.
  - apply namespace_name_exact.
Qed.
