(* ===== verification/SourceIp.v ===== *)
(** * Source addresses of access policies (utils/sourceIp.ts)

    The field takes an IP or a CIDR block and shows what will be stored.  The
    patterns with groups are read by splitting at the character that cannot be
    inside the group; [QUAD] is the pattern of a dotted quad itself.

    Theorem: the shown value is a normal form, and for dotted quads the
    classification is exact. *)

From S2P Require Import Prelude JsString JsJson JsRegex.

#[local] Open Scope N_scope.

Inductive SourceIpStatus := st_valid | st_host | st_any.

Inductive SourceIpParse :=
  | SEmpty
  | SIncomplete (note : jsstring)
  | SInvalid (note : jsstring)
  | SOk (status : SourceIpStatus) (value label : jsstring) (note : option jsstring).

Inductive SourceIpKind := kind_host | kind_private | kind_public | kind_any | kind_ipv6 | kind_none.

(** [\d{1,3}] *)
Definition is_group (s : jsstring) : bool :=
  ((1 <=? length s) && (length s <=? 3))%nat && forallb is_digit s.

(** [/^\d{1,3}(\.\d{1,3}){3}$/] *)
Definition GROUP : re := RRange 1 2 (RChr is_digit).
Definition QUAD : re := RSeq GROUP (RTimes 3 (RSeq (RLit 46) GROUP)).

(** [s.match(/^(\d{1,3})\.(\d{1,3})\.(\d{1,3})\.(\d{1,3})$/)]: the four groups. *)
Definition quad_groups (s : jsstring) : option (list jsstring) :=
  let gs := split s 46 in
  if (length gs =? 4)%nat && forallb is_group gs then Some gs else None.

Definition ipv4Octets (s : jsstring) : option (list N) :=
  match quad_groups s with
  | None => None
  | Some gs =>
      let octets := map digits_value gs in
      if existsb (λ n, 255 <? n) octets then None else Some octets
  end.

Definition v6_char (c : N) : bool := is_hex c || (c =? 58).

Definition looksIpv6 (s : jsstring) : bool :=
  includes s (js ":") && rmatch (RPlus (RChr v6_char)) s && (length (split s 58) <=? 8)%nat.

Definition octet (o : list N) (i : nat) : N := default 0 (o !! i).

Inductive V4Class := private_network | loopback | unspecified | public.
Definition class_label (c : V4Class) : jsstring :=
  match c with
  | private_network => js "private network" | loopback => js "loopback"
  | unspecified => js "unspecified" | public => js "public"
  end.

Definition classifyV4 (o : list N) : V4Class :=
  if (octet o 0 =? 10)
     || ((octet o 0 =? 172) && (16 <=? octet o 1) && (octet o 1 <=? 31))
     || ((octet o 0 =? 192) && (octet o 1 =? 168)) then private_network
  else if octet o 0 =? 127 then loopback
  else if octet o 0 =? 0 then unspecified
  else public.

(** [(hosts / 1e6).toFixed(d)] and [Math.round(hosts / 1000)] on a power of two:
    there are no ties. *)
Definition round_div (a b : N) : N := (2 * a + b) / (2 * b).
Definition millions (hosts : N) : jsstring :=
  if 10000000 <=? hosts then digitsN (round_div hosts 1000000)
  else let n := round_div hosts 100000 in digitsN (n / 10) ++ js "." ++ digitsN (n mod 10).

Definition addressCount (bits : N) : jsstring :=
  let hosts := 2 ^ (32 - bits) in
  if hosts =? 1 then js "1 address"
  else if 1000000 <=? hosts then millions hosts ++ js "M addresses"
  else if 1000 <=? hosts then digitsN (round_div hosts 1000) ++ js "K addresses"
  else digitsN hosts ++ js " addresses".

(** Line terminators, which [.] does not match. *)
Definition is_line_end (c : N) : bool := (c =? 10) || (c =? 13) || (c =? 8232) || (c =? 8233).

(** [/^(.+)\/(D)$/] for digits [D]: the split is at the last slash. *)
Definition last_slash (s : jsstring) : option (jsstring * jsstring) :=
  match span (λ c, negb (c =? 47)) (reverse s) with
  | (d, _ :: p) => Some (reverse p, reverse d)
  | (_, []) => None
  end.

Definition dot_plus (s : jsstring) : bool := truthy s && forallb (λ c, negb (is_line_end c)) s.

Definition cidr_match (s : jsstring) : option (jsstring * jsstring) :=
  match last_slash s with
  | Some (p, d) => if dot_plus p && is_group d then Some (p, d) else None
  | None => None
  end.

Definition leading_zero (p : jsstring) : bool :=
  (1 <? length p)%nat && bool_decide (head p = Some 48).

Definition parseSourceIp (raw : jsstring) : SourceIpParse :=
  let s := trim raw in
  if negb (truthy s) then SEmpty
  else
    let cidr := cidr_match s in
    let addrPart := match cidr with Some (p, _) => p | None => s end in
    let hasLeadingZero :=
      match cidr with Some (_, d) => leading_zero d | None => false end
      || (rmatch QUAD addrPart && existsb leading_zero (split addrPart 46)) in
    if hasLeadingZero then SInvalid (js "leading zeros are not allowed")
    else
      match cidr with
      | Some (_, d) =>
          let bits := digits_value d in
          match ipv4Octets addrPart with
          | Some v4 =>
              if 32 <? bits
              then SInvalid (js "prefix /" ++ digitsN bits ++ js " is out of range (max /32)")
              else if bits =? 0
              then SOk st_any (js "0.0.0.0/0") (js "= any IP") (Some (js "same as leaving this empty"))
              else SOk st_valid s (class_label (classifyV4 v4) ++ js " · " ++ addressCount bits) None
          | None =>
              if looksIpv6 addrPart then
                if 128 <? bits
                then SInvalid (js "prefix /" ++ digitsN bits ++ js " is out of range (max /128)")
                else SOk st_valid s (js "IPv6 · /" ++ digitsN bits) None
              else SInvalid (js "not a valid network address")
          end
      | None =>
          match ipv4Octets s with
          | Some v4 =>
              SOk st_host (s ++ js "/32") (js "single host · " ++ class_label (classifyV4 v4))
                (Some (js "stored as " ++ s ++ js "/32"))
          | None =>
              if looksIpv6 s then
                SOk st_host (s ++ js "/128") (js "single IPv6 host") (Some (js "stored as " ++ s ++ js "/128"))
              else if rmatch QUAD s then SInvalid (js "octet out of range (max 255)")
              else if rmatch (RPlus (RChr (λ c, is_digit c || (c =? 46) || (c =? 47) || (c =? 58)
                                              || in_range 97 102 c || in_range 65 70 c))) s
              then SIncomplete (js "incomplete IP address")
              else SInvalid (js "not a valid IP or CIDR")
          end
      end.

Definition sourceIpKind (cidr : jsstring) : SourceIpKind :=
  match last_slash cidr with
  | Some (addr, bitsStr) =>
      if dot_plus addr && truthy bitsStr && forallb is_digit bitsStr then
        if bool_decide (cidr = js "0.0.0.0/0") then kind_any
        else match ipv4Octets addr with
             | Some v4 =>
                 if digits_value bitsStr =? 32 then kind_host
                 else match classifyV4 v4 with public => kind_public | _ => kind_private end
             | None => kind_ipv6
             end
      else kind_none
  | None => kind_none
  end.

(** ** Splitting *)

Lemma last_slash_app p d : Forall (λ c, c ≠ 47) d → last_slash (p ++ 47 :: d) = Some (p, d).
Proof.
  intros Hd. unfold last_slash. rewrite reverse_app, reverse_cons, <-app_assoc.
  rewrite span_app; [cbn [app]; by rewrite !reverse_involutive| |done].
  apply Forall_reverse. eapply Forall_impl; [exact Hd|]. intros c Hc. simpl. by rewrite (proj2 (N.eqb_neq c 47)).
Qed.

Lemma digit_not_slash c : is_digit c = true → c ≠ 47.
Proof. rewrite is_digit_spec. lia. Qed.

Lemma is_group_spec s : is_group s = true ↔ (1 <= length s <= 3)%nat ∧ Forall (λ c, is_digit c = true) s.
Proof. unfold is_group. rewrite !andb_true_iff, !Nat.leb_le, forallb_Forall. tauto. Qed.

Lemma cidr_match_app p d : dot_plus p = true → is_group d = true → cidr_match (p ++ 47 :: d) = Some (p, d).
Proof.
  intros Hp Hd. unfold cidr_match. rewrite last_slash_app; [by rewrite Hp, Hd|].
  apply is_group_spec in Hd as [_ Hd]. eapply Forall_impl; [exact Hd|]. apply digit_not_slash.
Qed.

Lemma split_cons_ne x s c : ∃ h t, split (x :: s) c = h :: t.
Proof. simpl. destruct (x =? c); [eauto|]. destruct (split s c); eauto. Qed.

Lemma split_nonempty s c : split s c ≠ [].
Proof. destruct s; [done|]. by destruct (split_cons_ne n s c) as (h & t & ->). Qed.

Lemma join_split s c : join [c] (split s c) = s.
Proof.
  induction s as [|x s IH]; [done|]. simpl. destruct (N.eqb_spec x c) as [->|Hx].
  - pose proof (split_nonempty s c) as Hn. destruct (split s c) as [|h t] eqn:E; [done|].
    simpl in *. by rewrite IH.
  - pose proof (split_nonempty s c) as Hn. destruct (split s c) as [|h t] eqn:E; [done|].
    simpl in *. destruct t; simpl in *; by rewrite IH.
Qed.

(** The characters of an address. *)
Lemma quad_chars s gs : quad_groups s = Some gs → Forall (λ c, is_digit c = true ∨ c = 46) s.
Proof.
  unfold quad_groups. destruct (_ && _) eqn:E; [|done]. intros _.
  apply andb_true_iff in E as [_ E]. rewrite forallb_Forall in E. rewrite <-(join_split s 46).
  induction (split s 46) as [|g r IH]; [apply Forall_nil_2|]. apply Forall_cons in E as [Hg E].
  apply is_group_spec in Hg as [_ Hg]. destruct r as [|g' r].
  - simpl. eapply Forall_impl; [exact Hg|]. auto.
  - change (join [46] (g :: g' :: r)) with (g ++ [46] ++ join [46] (g' :: r)).
    rewrite !Forall_app. split; [eapply Forall_impl; [exact Hg|]; auto|]. split; [|by apply IH].
    apply Forall_singleton. by right.
Qed.

Lemma plain_dot_plus s (P : N → Prop) : s ≠ [] → Forall P s → (∀ c, P c → is_line_end c = false) → dot_plus s = true.
Proof.
  intros Hs Hf HP. unfold dot_plus. apply andb_true_iff. split; [by destruct s|].
  apply forallb_Forall. eapply Forall_impl; [exact Hf|]. intros c Hc. by rewrite HP.
Qed.

Lemma not_line_end c : 40 <= c → c <= 127 → is_line_end c = false.
Proof. intros. unfold is_line_end. by rewrite !(proj2 (N.eqb_neq _ _)) by lia. Qed.

Lemma ipv4_chars s o : ipv4Octets s = Some o → s ≠ [] ∧ Forall (λ c, 40 <= c <= 127) s.
Proof.
  unfold ipv4Octets. destruct (quad_groups s) as [gs|] eqn:E; [|done]. intros _. split.
  - intros ->. by vm_compute in E.
  - apply quad_chars in E. eapply Forall_impl; [exact E|]. simpl. intros c [H%is_digit_spec|H]; lia.
Qed.

Lemma v6_chars s : looksIpv6 s = true → s ≠ [] ∧ Forall (λ c, 40 <= c <= 127) s.
Proof.
  unfold looksIpv6. rewrite !andb_true_iff, rmatch_spec, lang_PlusChr. intros [[_ [Hs H]] _].
  split; [done|]. eapply Forall_impl; [exact H|]. simpl. unfold v6_char, is_hex, is_digit, in_range. intros c.
  rewrite !orb_true_iff, !andb_true_iff, !N.leb_le, N.eqb_eq. lia.
Qed.

Lemma char_not_ws c : 40 <= c <= 127 → is_ws c = false.
Proof.
  intros H. unfold is_ws, in_range.
  rewrite !orb_false_iff, !andb_false_iff, !N.eqb_neq, !N.leb_gt. lia.
Qed.

(** ** Normal forms *)

Lemma parse_trim raw : parseSourceIp (trim raw) = parseSourceIp raw.
Proof. unfold parseSourceIp. by rewrite trim_idemp. Qed.

(** The leading zeros of a dotted quad. *)
Definition zeros_in (s : jsstring) : bool := rmatch QUAD s && existsb leading_zero (split s 46).

(** An address followed by a prefix length. *)
Lemma parse_cidr s d : s ≠ [] → Forall (λ c, 40 <= c <= 127) s → is_group d = true → leading_zero d = false →
  zeros_in s = false →
  parseSourceIp (s ++ 47 :: d) =
    let bits := digits_value d in
    match ipv4Octets s with
    | Some v4 =>
        if 32 <? bits
        then SInvalid (js "prefix /" ++ digitsN bits ++ js " is out of range (max /32)")
        else if bits =? 0
        then SOk st_any (js "0.0.0.0/0") (js "= any IP") (Some (js "same as leaving this empty"))
        else SOk st_valid (s ++ 47 :: d) (class_label (classifyV4 v4) ++ js " · " ++ addressCount bits) None
    | None =>
        if looksIpv6 s then
          if 128 <? bits
          then SInvalid (js "prefix /" ++ digitsN bits ++ js " is out of range (max /128)")
          else SOk st_valid (s ++ 47 :: d) (js "IPv6 · /" ++ digitsN bits) None
        else SInvalid (js "not a valid network address")
    end.
Proof.
  intros Hs Hc Hd Hz Hq. pose proof Hd as [_ Hdig]%is_group_spec.
  assert (trim (s ++ 47 :: d) = s ++ 47 :: d) as Ht.
  { apply trim_no_ws. rewrite Forall_app, Forall_cons. split; [|split].
    - eapply Forall_impl; [exact Hc|]. apply char_not_ws.
    - done.
    - eapply Forall_impl; [exact Hdig|]. apply digit_not_ws. }
  unfold parseSourceIp. rewrite Ht.
  assert (truthy (s ++ 47 :: d) = true) as -> by (by destruct s).
  rewrite cidr_match_app; [|eapply plain_dot_plus; [done|exact Hc|]; intros c []; by apply not_line_end|done].
  unfold zeros_in in Hq. cbn [negb]. rewrite Hz, Hq. reflexivity.
Qed.

Lemma parse_normal raw k v l n : parseSourceIp raw = SOk k v l n →
  ∃ k' l' n', parseSourceIp v = SOk k' v l' n' ∧ k' ≠ st_host.
Proof.
  intros H. pose proof H as H0. unfold parseSourceIp in H.
  destruct (truthy (trim raw)); [|done]. cbn [negb] in H.
  destruct (cidr_match (trim raw)) as [[p d]|].
  - destruct (leading_zero d || _); [done|].
    assert (v = trim raw → k ≠ st_host → ∃ k' l' n', parseSourceIp v = SOk k' v l' n' ∧ k' ≠ st_host) as Hsame.
    { intros -> Hk. exists k, l, n. by rewrite parse_trim. }
    destruct (ipv4Octets p).
    + destruct (32 <? digits_value d); [done|]. destruct (digits_value d =? 0).
      * injection H as <- <- <- <-. eexists _, _, _. split; [vm_compute; reflexivity|done].
      * injection H as <- <- <- <-. by apply Hsame.
    + destruct (looksIpv6 p); [|done]. destruct (128 <? digits_value d); [done|].
      injection H as <- <- <- <-. by apply Hsame.
  - cbn [orb] in H. fold (zeros_in (trim raw)) in H. destruct (zeros_in (trim raw)) eqn:Ez; [done|].
    destruct (ipv4Octets (trim raw)) as [o|] eqn:E4.
    + injection H as <- <- <- <-. destruct (ipv4_chars _ _ E4) as [Hne Hch].
      change (trim raw ++ js "/32") with (trim raw ++ 47 :: js "32").
      rewrite parse_cidr by (done || by vm_compute). rewrite E4. eexists _, _, _. split; [reflexivity|done].
    + destruct (looksIpv6 (trim raw)) eqn:E6; [|destruct (rmatch QUAD _); [done|]; destruct (rmatch _ _); done].
      injection H as <- <- <- <-. destruct (v6_chars _ E6) as [Hne Hch].
      change (trim raw ++ js "/128") with (trim raw ++ 47 :: js "128").
      rewrite parse_cidr by (done || by vm_compute). rewrite E4, E6. eexists _, _, _. split; [reflexivity|done].
Qed.

(** ** What an accepted entry looks like *)

(** A decimal number of one to three digits without leading zeros, up to a maximum. *)
Definition decimal (max : N) (s : jsstring) : Prop :=
  (1 <= length s <= 3)%nat ∧ Forall (λ c, is_digit c = true) s ∧
  (head s = Some 48 → length s = 1%nat) ∧ digits_value s <= max.

(** An IPv4 network: four decimals up to 255 and a prefix length up to 32. *)
Definition ipv4_network (v : jsstring) : Prop :=
  ∃ a b c d bits, v = a ++ 46 :: b ++ 46 :: c ++ 46 :: d ++ 47 :: bits ∧
    Forall (decimal 255) [a; b; c; d] ∧ decimal 32 bits.

(** What is taken for an IPv6 network: hexadecimal digits and colons, at least one
    colon and at most eight parts, and a prefix length up to 128. *)
Definition ipv6_shaped (v : jsstring) : Prop :=
  ∃ addr bits, v = addr ++ 47 :: bits ∧ Forall (λ c, is_hex c = true ∨ c = 58) addr ∧ 58 ∈ addr ∧
    (length (split addr 58) <= 8)%nat ∧ decimal 128 bits.

Lemma group_decimal max s : is_group s = true → leading_zero s = false → digits_value s <= max → decimal max s.
Proof.
  intros [Hl Hd]%is_group_spec Hz Hm. split; [done|]. split; [done|]. split; [|done]. intros Hh.
  unfold leading_zero in Hz. rewrite Hh, bool_decide_eq_true_2, andb_true_r in Hz by done.
  apply Nat.ltb_ge in Hz. lia.
Qed.

Lemma span_join p s : (span p s).1 ++ (span p s).2 = s.
Proof. induction s as [|c s IH]; [done|]. simpl. destruct (p c); [|done]. destruct (span p s). simpl in *. by rewrite IH. Qed.

Lemma span_stops p s : stops p (span p s).2.
Proof. induction s as [|c s IH]; [done|]. simpl. destruct (p c) eqn:E; [|done]. by destruct (span p s). Qed.

Lemma last_slash_inv s p d : last_slash s = Some (p, d) → s = p ++ 47 :: d.
Proof.
  unfold last_slash. intros H. pose proof (span_join (λ c, negb (c =? 47)) (reverse s)) as Hj.
  pose proof (span_stops (λ c, negb (c =? 47)) (reverse s)) as Hs.
  destruct (span _ (reverse s)) as [a [|x b]]; [done|]. injection H as <- <-. cbn in Hj, Hs.
  apply negb_false_iff, N.eqb_eq in Hs as ->.
  rewrite <-(reverse_involutive s), <-Hj, reverse_app, reverse_cons, <-app_assoc. done.
Qed.

(** Four groups joined by dots match the pattern. *)
Lemma quad_matches s gs : quad_groups s = Some gs →
  ∃ a b c d, gs = [a; b; c; d] ∧ s = a ++ 46 :: b ++ 46 :: c ++ 46 :: d ∧ rmatch QUAD s = true ∧
    Forall (λ g, is_group g = true) gs.
Proof.
  unfold quad_groups. destruct (_ && _) eqn:E; [|done]. intros [= <-].
  apply andb_true_iff in E as [Hl%Nat.eqb_eq Hg%forallb_Forall]. pose proof (join_split s 46) as Hj.
  destruct (split s 46) as [|a [|b [|c [|d [|]]]]]; try done. exists a, b, c, d. split; [done|].
  assert (s = a ++ 46 :: b ++ 46 :: c ++ 46 :: d) as -> by (rewrite <-Hj; cbn; by rewrite <-?app_assoc).
  split; [done|]. split; [|done]. apply rmatch_spec. rewrite !Forall_cons in Hg. destruct Hg as (Ha & Hb & Hc & Hd & _).
  assert (∀ g, is_group g = true → lang GROUP g) as HG.
  { intros g [Hg Hdg]%is_group_spec. apply lang_RangeChr. split; [|done]. lia. }
  apply lang_seq; [by apply HG|]. cbn [RTimes].
  assert (∀ g r t, is_group g = true → lang r t → lang (RSeq (RSeq (RLit 46) GROUP) r) (46 :: g ++ t)) as HS.
  { intros g r t Hg Ht. change (46 :: g ++ t) with (([46] ++ g) ++ t). apply lang_seq; [|done]. apply lang_seq; [by apply lang_Lit|auto]. }
  apply HS; [done|]. apply HS; [done|]. rewrite <-(app_nil_r d). apply HS; [done|]. constructor.
Qed.

Lemma parse_ok_shape raw k v l n : parseSourceIp raw = SOk k v l n → k ≠ st_host → ipv4_network v ∨ ipv6_shaped v.
Proof.
  intros H Hk. unfold parseSourceIp in H. destruct (truthy (trim raw)); [|done]. cbn [negb] in H.
  destruct (cidr_match (trim raw)) as [[p d]|] eqn:Ec.
  - unfold cidr_match in Ec. destruct (last_slash (trim raw)) as [[p' d']|] eqn:El; [|done].
    destruct (dot_plus p' && is_group d') eqn:Ed; [|done]. injection Ec as -> ->.
    apply andb_true_iff in Ed as [_ Hd]. apply last_slash_inv in El.
    destruct (leading_zero d || _) eqn:Ez; [done|]. apply orb_false_iff in Ez as [Hz Hq].
    destruct (ipv4Octets p) as [v4|] eqn:E4.
    + left. destruct (N.ltb_spec 32 (digits_value d)); [done|]. destruct (digits_value d =? 0) eqn:E0.
      { injection H as <- <- <- <-. exists (js "0"), (js "0"), (js "0"), (js "0"), (js "0"). split; [done|].
        assert (∀ m, decimal m (js "0")) as Hm.
        { intros m. split; [vm_compute; lia|]. split; [by repeat constructor|]. split; [done|]. apply N.le_0_l. }
        split; [|apply Hm]. repeat (apply Forall_cons_2; [apply Hm|]). apply Forall_nil_2. }
      injection H as <- <- <- <-. unfold ipv4Octets in E4. destruct (quad_groups p) as [gs|] eqn:Eg; [|done].
      destruct (existsb (λ n, 255 <? n) (map digits_value gs)) eqn:Ex; [done|]. destruct (quad_matches p gs Eg) as (a & b & c & e & -> & -> & Hm & Hg).
      rewrite Hm in Hq. cbn [andb] in Hq. unfold quad_groups in Eg. destruct (_ && forallb _ _) in Eg; [|done]. injection Eg as Eg.
      rewrite Eg in Hq. exists a, b, c, e, d. split; [rewrite El; by repeat (rewrite <-app_assoc; cbn [app])|].
      split; [|by apply group_decimal]. cbn [existsb map] in Hq, Ex. rewrite !orb_false_iff in Hq, Ex. rewrite !N.ltb_ge in Ex.
      rewrite !Forall_cons in Hg |- *. destruct Hg as (? & ? & ? & ? & _), Hq as (? & ? & ? & ? & _), Ex as (? & ? & ? & ? & _).
      split_and!; try (by apply group_decimal). apply Forall_nil_2.
    + right. destruct (looksIpv6 p) eqn:E6; [|done]. destruct (N.ltb_spec 128 (digits_value d)); [done|].
      injection H as <- <- <- <-. exists p, d. split; [done|]. unfold looksIpv6 in E6.
      rewrite !andb_true_iff, rmatch_spec, lang_PlusChr, Nat.leb_le in E6. destruct E6 as [[Hi [_ Hc]] Hp].
      split; [eapply Forall_impl; [exact Hc|]; intros c; unfold v6_char; rewrite orb_true_iff, N.eqb_eq; done|].
      split; [by apply includes_one|]. split; [done|]. by apply group_decimal.
  - exfalso. destruct (false || _) eqn:Ez; [done|]. destruct (ipv4Octets (trim raw)); [injection H as <- <- <- <-; done|].
    destruct (looksIpv6 (trim raw)); [injection H as <- <- <- <-; done|].
    destruct (rmatch QUAD (trim raw)); [done|]. by destruct (rmatch _ (trim raw)).
Qed.

(** ** Dotted quads *)

Definition addr4 (a b c d : N) : jsstring :=
  digitsN a ++ 46 :: digitsN b ++ 46 :: digitsN c ++ 46 :: digitsN d.

Lemma digitsN_no_dot n : 46 ∉ digitsN n.
Proof.
  intros H. pose proof (digitsN_digits n) as Hd. rewrite Forall_forall in Hd. by apply Hd in H.
Qed.

Lemma split_addr4 a b c d : split (addr4 a b c d) 46 = [digitsN a; digitsN b; digitsN c; digitsN d].
Proof. unfold addr4. rewrite !split_sep, split_one by apply digitsN_no_dot. done. Qed.

Lemma digitsN_group n : n < 1000 → is_group (digitsN n) = true.
Proof.
  intros H. apply is_group_spec. split; [|apply digitsN_digits]. split.
  - destruct (digitsN n) eqn:E; [by apply digitsN_nonempty in E|simpl; lia].
  - by apply digits_fuel_length.
Qed.

Lemma digitsN_leading_zero n : leading_zero (digitsN n) = false.
Proof.
  pose proof (digitsN_int_part n) as H. unfold leading_zero. destruct (digitsN n) as [|c [|x r]]; try done.
  simpl in H. cbn [length]. rewrite bool_decide_eq_false_2; [by rewrite andb_false_r|].
  simpl. intros [= ->]. done.
Qed.

Lemma octets_addr4 a b c d : a < 1000 → b < 1000 → c < 1000 → d < 1000 →
  ipv4Octets (addr4 a b c d) = if existsb (λ n, 255 <? n) [a; b; c; d] then None else Some [a; b; c; d].
Proof.
  intros. unfold ipv4Octets, quad_groups. rewrite split_addr4. cbn [length Nat.eqb forallb].
  rewrite !digitsN_group by done. cbn [andb map]. by rewrite !digitsN_value.
Qed.

Lemma addr4_chars a b c d : addr4 a b c d ≠ [] ∧ Forall (λ x, 40 <= x <= 127) (addr4 a b c d).
Proof.
  assert (∀ n, Forall (λ x, 40 <= x <= 127) (digitsN n)) as Hd.
  { intros n. eapply Forall_impl; [apply digitsN_digits|]. simpl. intros x ?%is_digit_spec. lia. }
  split; [unfold addr4; pose proof (digitsN_nonempty a); by destruct (digitsN a)|].
  unfold addr4. repeat (rewrite Forall_app || rewrite Forall_cons). repeat split; auto; lia.
Qed.

Lemma addr4_no_colon a b c d : includes (addr4 a b c d) (js ":") = false.
Proof.
  apply not_true_iff_false. change (js ":") with [58]. rewrite includes_one. unfold addr4.
  assert (∀ n, 58 ∉ digitsN n) as Hn.
  { intros n H. pose proof (digitsN_digits n) as Hd. rewrite Forall_forall in Hd. by apply Hd in H. }
  rewrite !elem_of_app, !elem_of_cons, !elem_of_app, !elem_of_cons, !elem_of_app, !elem_of_cons.
  intros [H|[H|[H|[H|[H|[H|H]]]]]]; done || by apply Hn in H.
Qed.

(** What the field shows for an accepted entry is a normal form: entering the
    shown value again gives the same value and never a bare host; and for a
    dotted quad with numbers below 1000 and a prefix length below 1000, the entry
    is accepted exactly when the numbers are at most 255 and the length at most
    32, a length of 0 standing for any address. *)
Theorem source_ip_normal_form (raw : jsstring) (a b c d bits : N)
    (Ha : a < 1000) (Hb : b < 1000) (Hc : c < 1000) (Hd : d < 1000) (Hbits : bits < 1000) :
  (∀ k v l n, parseSourceIp raw = SOk k v l n →
     ∃ k' l' n', parseSourceIp v = SOk k' v l' n' ∧ k' ≠ st_host) ∧
  ((∃ k v l n, parseSourceIp (addr4 a b c d ++ 47 :: digitsN bits) = SOk k v l n ∧
      v = (if bits =? 0 then js "0.0.0.0/0" else addr4 a b c d ++ 47 :: digitsN bits) ∧
      (k = st_any ↔ bits = 0)) ↔
   a <= 255 ∧ b <= 255 ∧ c <= 255 ∧ d <= 255 ∧ bits <= 32).
Proof.
  split; [apply parse_normal|]. destruct (addr4_chars a b c d) as [Hne Hch].
  rewrite parse_cidr; [|done|done|by apply digitsN_group|apply digitsN_leading_zero|].
  2: { unfold zeros_in. rewrite split_addr4. cbn [existsb]. rewrite !digitsN_leading_zero. apply andb_false_r. }
  cbn zeta. rewrite digitsN_value, octets_addr4 by done.
  destruct (existsb (λ n, 255 <? n) [a; b; c; d]) eqn:E.
  - split; [|intros (? & ? & ? & ? & _); exfalso; cbn [existsb] in E;
      rewrite !orb_true_iff, !N.ltb_lt in E; destruct E as [?|[?|[?|[?|?]]]]; done || lia].
    assert (looksIpv6 (addr4 a b c d) = false) as ->.
    { unfold looksIpv6. by rewrite addr4_no_colon. }
    intros (? & ? & ? & ? & [=] & _).
  - cbn [existsb] in E. rewrite !orb_false_iff, !N.ltb_ge in E.
    destruct (N.ltb_spec 32 bits) as [H32|H32]; [split; [intros (? & ? & ? & ? & [=] & _)|lia]|].
    split; [intros _; tauto|]. intros _.
    destruct (N.eqb_spec bits 0) as [->|H0]; eexists _, _, _, _; (split; [reflexivity|]); done.
Qed.

Lemma source_ip_normal_form_witness :
  parseSourceIp (js " 10.0.0.7 ") = SOk st_host (js "10.0.0.7/32") (js "single host · private network")
    (Some (js "stored as 10.0.0.7/32")) ∧
  ∃ k' l' n', parseSourceIp (js "10.0.0.7/32") = SOk k' (js "10.0.0.7/32") l' n' ∧ k' ≠ st_host.
Proof.
  split; [vm_compute; reflexivity|].
  apply (proj1 (source_ip_normal_form (js " 10.0.0.7 ") 10 0 0 7 32 eq_refl eq_refl eq_refl eq_refl eq_refl)
    st_host (js "10.0.0.7/32") (js "single host · private network") (Some (js "stored as 10.0.0.7/32"))).
  vm_compute. reflexivity.
Defined.
