(* ===== verification/FirewallRule.v ===== *)
(** * The firewall rule form (pages/firewall-rules/ruleSchema.ts)

    Validation of the form, the request it builds and the form an existing rule
    opens with.  [RegExp_ok] is whether [new RegExp(pattern)] compiles, which is
    the browser's business.

    Theorem: opening a rule and saving it unchanged sends the same rule, and
    validation lets it through.  Two examples show forms the validation accepts
    whose request is not what the validation checked. *)

From S2P Require Import Prelude JsString JsJson.

Inductive RuleAction := allow | deny.
Inductive Restrict := opt_all | opt_restrict.
Inductive FilterOption := filter_all | filter_hostname | filter_tags.

#[export] Instance RuleAction_eq_dec : EqDecision RuleAction.
Proof. solve_decision. Defined.
#[export] Instance Restrict_eq_dec : EqDecision Restrict.
Proof. solve_decision. Defined.
#[export] Instance FilterOption_eq_dec : EqDecision FilterOption.
Proof. solve_decision. Defined.

Record RuleFormValues := mkRuleForm {
  priority : jsstring;
  action : RuleAction;
  active : bool;
  sourceIpOption : Restrict;
  sourceIp : jsstring;
  usernameOption : Restrict;
  username : jsstring;
  filterOption : FilterOption;
  hostname : jsstring;
  tags : list jsstring;
}.

Definition DEFAULT_VALUES : RuleFormValues :=
  mkRuleForm [] allow true opt_all [] opt_all [] filter_all [] [].

(** The request: [{ hostname }] or [{ tags }]. *)
Inductive RequestFilter := by_hostname (h : jsstring) | by_tags (t : list jsstring).

Record FirewallRulesRequest := mkRequest {
  req_priority : option Z;          (* [None] is NaN *)
  req_action : RuleAction;
  req_active : bool;
  req_source_ip : jsstring;
  req_username : jsstring;
  req_filter : RequestFilter;
}.

(** The rule the server sends: the names of its tags, its host name pattern. *)
Record FirewallRulesResponse := mkRule {
  rule_priority : Z;
  rule_action : RuleAction;
  rule_active : bool;
  rule_source_ip : jsstring;
  rule_username : jsstring;
  rule_hostname : option jsstring;
  rule_tags : list jsstring;
}.

Definition ANY : jsstring := js ".*".

Section Schema.
Variable RegExp_ok : jsstring → bool.

Inductive path := p_priority | p_sourceIp | p_username | p_hostname | p_tags.
Notation issue := (path * jsstring)%type.

Definition isValidRegex (pattern : jsstring) : bool := RegExp_ok pattern.

(** [!Number.isInteger(Number(p))], then [Number(p) <= 0]. *)
Definition check_priority (p : jsstring) : list issue :=
  if bool_decide (trim p = []) then [(p_priority, js "Priority is required")]
  else if negb (isInteger (Number p)) then [(p_priority, js "Priority must be an integer")]
  else if num_leb (Number p) 0 then [(p_priority, js "Priority must be a positive integer")]
  else [].

Definition check_pattern (on : bool) (at_ : path) (v required invalid : jsstring) : list issue :=
  if negb on then []
  else if negb (truthy (trim v)) then [(at_, required)]
  else if negb (isValidRegex v) then [(at_, invalid)]
  else [].

Definition check_tags (on : bool) (t : list jsstring) : list issue :=
  if negb on then []
  else if (length t =? 0)%nat then [(p_tags, js "Select at least one tag")]
  else if (3 <? length t)%nat then [(p_tags, js "You can select up to 3 tags")]
  else [].

(** [superRefine] *)
Definition refine_rule (v : RuleFormValues) : list issue :=
  check_priority (priority v)
  ++ check_pattern (bool_decide (sourceIpOption v = opt_restrict)) p_sourceIp (sourceIp v)
       (js "Source IP pattern is required") (js "Source IP must be a valid regular expression")
  ++ check_pattern (bool_decide (usernameOption v = opt_restrict)) p_username (username v)
       (js "Username pattern is required") (js "Username must be a valid regular expression")
  ++ check_pattern (bool_decide (filterOption v = filter_hostname)) p_hostname (hostname v)
       (js "Hostname pattern is required") (js "Hostname must be a valid regular expression")
  ++ check_tags (bool_decide (filterOption v = filter_tags)) (tags v).

Definition buildRuleBody (v : RuleFormValues) : FirewallRulesRequest :=
  mkRequest (parseInt (priority v)) (action v) (active v)
    (if bool_decide (sourceIpOption v = opt_restrict) then trim (sourceIp v) else ANY)
    (if bool_decide (usernameOption v = opt_restrict) then trim (username v) else ANY)
    (match filterOption v with
     | filter_hostname => by_hostname (trim (hostname v))
     | filter_tags => by_tags (tags v)
     | filter_all => by_hostname ANY
     end).

Definition buildRuleDefaults (rule : FirewallRulesResponse) : RuleFormValues :=
  let hasTags := (0 <? length (rule_tags rule))%nat in
  let hasHostname := match rule_hostname rule with
                     | Some h => negb (bool_decide (h = ANY)) | None => false end in
  let fo := if hasTags then filter_tags else if hasHostname then filter_hostname else filter_all in
  mkRuleForm (Z_to_string (rule_priority rule)) (rule_action rule) (rule_active rule)
    (if bool_decide (rule_source_ip rule = ANY) then opt_all else opt_restrict)
    (if bool_decide (rule_source_ip rule = ANY) then [] else rule_source_ip rule)
    (if bool_decide (rule_username rule = ANY) then opt_all else opt_restrict)
    (if bool_decide (rule_username rule = ANY) then [] else rule_username rule)
    fo
    (if bool_decide (fo = filter_hostname) then default [] (rule_hostname rule) else [])
    (if hasTags then rule_tags rule else []).

(** ** Editing a rule *)

(** The filter of a rule, as a request states it. *)
Definition filter_of (rule : FirewallRulesResponse) : RequestFilter :=
  if (0 <? length (rule_tags rule))%nat then by_tags (rule_tags rule)
  else by_hostname (default ANY (rule_hostname rule)).

(** A pattern the server stores: not blank, without outer white space, and
    compiling. *)
Definition stored_pattern (s : jsstring) : Prop := s ≠ [] ∧ trim s = s ∧ RegExp_ok s = true.

Record stored_rule (rule : FirewallRulesResponse) : Prop := {
  sr_priority : 0 < rule_priority rule < overflow_bound;
  sr_source_ip : stored_pattern (rule_source_ip rule);
  sr_username : stored_pattern (rule_username rule);
  sr_hostname h : rule_hostname rule = Some h → stored_pattern h;
  sr_tags : (length (rule_tags rule) <= 3)%nat;
}.

Lemma check_pattern_stored on at_ v r i : stored_pattern v → check_pattern on at_ v r i = [].
Proof.
  intros (Hne & Ht & Hre). unfold check_pattern, isValidRegex. rewrite Ht, Hre. destruct on; [|done]. by destruct v.
Qed.

Lemma check_pattern_off at_ v r i : check_pattern false at_ v r i = [].
Proof. done. Qed.

Lemma check_priority_stored z : 0 < z < overflow_bound → check_priority (Z_to_string z) = [].
Proof.
  intros Hz. unfold check_priority.
  rewrite trim_no_ws by apply Z_to_string_no_ws. rewrite bool_decide_eq_false_2 by apply Z_to_string_nonempty.
  rewrite Number_Z_to_string by (rewrite Z.abs_eq; lia). simpl. rewrite (proj2 (Z.leb_gt _ _)) by lia. done.
Qed.

(** A field that is either open or holds a stored pattern. *)
Lemma pattern_field s at_ r i : stored_pattern s →
  let o := if bool_decide (s = ANY) then opt_all else opt_restrict in
  let f := if bool_decide (s = ANY) then [] else s in
  check_pattern (bool_decide (o = opt_restrict)) at_ f r i = [] ∧
  (if bool_decide (o = opt_restrict) then trim f else ANY) = s.
Proof.
  intros Hs. cbn zeta. destruct (decide (s = ANY)) as [->|Hne].
  - rewrite (bool_decide_eq_true_2 (ANY = ANY)) by done. by rewrite bool_decide_eq_false_2.
  - rewrite (bool_decide_eq_false_2 (s = ANY)) by done. rewrite bool_decide_eq_true_2 by done.
    split; [by apply check_pattern_stored|]. by destruct Hs as (_ & -> & _).
Qed.

(** Opening a stored firewall rule in the form and saving it unchanged
    passes validation and sends the same priority, action, patterns and filter:
    no field is lost or reinterpreted on the way through the form. *)
Theorem rule_edit_round_trip (rule : FirewallRulesResponse) (Hrule : stored_rule rule) :
  refine_rule (buildRuleDefaults rule) = [] ∧
  buildRuleBody (buildRuleDefaults rule) =
    mkRequest (Some (rule_priority rule)) (rule_action rule) (rule_active rule)
      (rule_source_ip rule) (rule_username rule) (filter_of rule).
Proof.
  destruct Hrule as [Hp Hs Hu Hh Ht].
  destruct (pattern_field _ p_sourceIp (js "Source IP pattern is required")
    (js "Source IP must be a valid regular expression") Hs) as [S1 S2].
  destruct (pattern_field _ p_username (js "Username pattern is required")
    (js "Username must be a valid regular expression") Hu) as [U1 U2].
  unfold refine_rule, buildRuleBody, buildRuleDefaults.
  cbn [priority action active sourceIpOption sourceIp usernameOption username filterOption hostname tags].
  cbn zeta in S1, S2, U1, U2. rewrite S1, S2, U1, U2, check_priority_stored, parseInt_Z_to_string by done.
  cbn [app]. unfold filter_of. destruct (rule_tags rule) as [|t r] eqn:Et; cbn [length Nat.ltb Nat.leb].
  - destruct (rule_hostname rule) as [h|] eqn:Eh; [|by repeat (rewrite bool_decide_eq_false_2 by done)].
    destruct (decide (h = ANY)) as [->|Hne].
    + rewrite (bool_decide_eq_true_2 (ANY = ANY)) by done. cbn [negb].
      by repeat (rewrite bool_decide_eq_false_2 by done).
    + rewrite (bool_decide_eq_false_2 (h = ANY)) by done. cbn [negb default from_option].
      rewrite (bool_decide_eq_true_2 (filter_hostname = filter_hostname)) by done.
      rewrite (bool_decide_eq_false_2 (filter_hostname = filter_tags)) by done.
      destruct (Hh h eq_refl) as (H1 & H2 & H3). change (default [] (Some h)) with h.
      rewrite check_pattern_stored by done. unfold id. by rewrite H2.
  - rewrite (bool_decide_eq_false_2 (filter_tags = filter_hostname)) by done.
    rewrite (bool_decide_eq_true_2 (filter_tags = filter_tags)) by done.
    rewrite check_pattern_off. unfold check_tags. cbn [negb length Nat.eqb app].
    simpl in Ht. assert ((3 <? S (length r))%nat = false) as -> by (apply Nat.ltb_ge; lia). done.
Qed.

End Schema.

(** ** Where the validation and the request disagree *)

Definition form_with_priority (p : jsstring) : RuleFormValues :=
  mkRuleForm p allow true opt_all [] opt_all [] filter_all [] [].

(** The priority is checked with [Number] and sent with [parseInt]: "1e3" is
    accepted as 1000 and sent as 1, "0x10" is accepted as 16 and sent as 0. *)
Lemma priority_checked_as_one_sent_as_other ok :
  refine_rule ok (form_with_priority (js "1e3")) = [] ∧
  req_priority (buildRuleBody (form_with_priority (js "1e3"))) = Some 1 ∧
  refine_rule ok (form_with_priority (js "0x10")) = [] ∧
  req_priority (buildRuleBody (form_with_priority (js "0x10"))) = Some 0.
Proof. repeat split; vm_compute; reflexivity. Qed.

(** ** Witness *)

Definition sample_rule : FirewallRulesResponse :=
  mkRule 7 deny true (js "10\..*") (js ".*") (Some (js "web-.*")) [].

Lemma rule_edit_round_trip_witness :
  buildRuleBody (buildRuleDefaults sample_rule) =
    mkRequest (Some 7) deny true (js "10\..*") (js ".*") (by_hostname (js "web-.*")).
Proof.
  apply (rule_edit_round_trip (λ _, true) sample_rule). split; try (by repeat split; vm_compute).
  - intros h [= <-]. by repeat split; vm_compute.
  - simpl. lia.
Defined.
