(* ===== verification/Recordings.v ===== *)
(** * Local session recordings (utils/recordings.ts, stores/recordingsStore.ts)

    The browser's private file system holds, per user, one directory with a
    [.cast] payload and a [.json] sidecar per recording.  [OpfsCastRecorder] is a
    record with the fields of the class and its chain of pending writes; the
    functions on the directory are computations over [Rec], the part of the page
    they see.

    Parameters: [format_now] (date-fns' [format(new Date(), "yyyyMMdd-HHmmss")])
    and [unicode_lower] ([toLowerCase] beyond ASCII). *)

From S2P Require Import Prelude JsString JsJson JsEncoding.

(** ** Metadata *)

Record RecordingMeta := mkMeta {
  m_id : jsstring;
  m_filename : jsstring;
  m_deviceName : jsstring;
  m_deviceUid : jsstring;
  m_username : jsstring;
  m_sessionUid : option jsstring;
  m_width : Z;
  m_height : Z;
  m_durationSec : jsnum;
  m_createdAt : Z;
  m_size : Z;
}.

Definition jint (z : Z) : json := JNum (Dec z 0).

(** [JSON.stringify] leaves out an undefined member. *)
Definition meta_json (m : RecordingMeta) : json :=
  JObj ([(js "id", JStr (m_id m)); (js "filename", JStr (m_filename m));
         (js "deviceName", JStr (m_deviceName m)); (js "deviceUid", JStr (m_deviceUid m));
         (js "username", JStr (m_username m))]
        ++ (match m_sessionUid m with Some u => [(js "sessionUid", JStr u)] | None => [] end)
        ++ [(js "width", jint (m_width m)); (js "height", jint (m_height m));
            (js "durationSec", JNum (m_durationSec m)); (js "createdAt", jint (m_createdAt m));
            (js "size", jint (m_size m))]).

Definition as_int (v : option json) : option Z :=
  match v with Some (JNum (Dec z O)) => Some z | _ => None end.

(** A parsed sidecar; one that is not of the shape [finish] writes is taken for
    corrupt. *)
Definition meta_of_json (j : json) : option RecordingMeta :=
  match as_string (get j (js "id")), as_string (get j (js "filename")),
        as_string (get j (js "deviceName")), as_string (get j (js "deviceUid")),
        as_string (get j (js "username")) with
  | Some i, Some f, Some n, Some u, Some us =>
      match as_int (get j (js "width")), as_int (get j (js "height")),
            as_number (get j (js "durationSec")), as_int (get j (js "createdAt")),
            as_int (get j (js "size")) with
      | Some w, Some h, Some d, Some c, Some s =>
          Some (mkMeta i f n u us (as_string (get j (js "sessionUid"))) w h d c s)
      | _, _, _, _, _ => None
      end
  | _, _, _, _, _ => None
  end.

(** ** The lines of an asciicast *)

(** A number of milliseconds in seconds. *)
Definition seconds (ms : Z) : jsnum := dec_norm ms 3.

Definition headerLine (now cols rows : Z) : jsstring :=
  stringify (JObj [(js "version", jint 2); (js "width", jint cols); (js "height", jint rows);
                   (js "timestamp", jint (now / 1000))]) ++ [10%N].

Definition outputLine (elapsed : jsnum) (text : jsstring) : jsstring :=
  stringify (JArr [JNum elapsed; JStr (js "o"); JStr text]) ++ [10%N].

Definition resizeLine (elapsed : jsnum) (cols rows : Z) : jsstring :=
  stringify (JArr [JNum elapsed; JStr (js "r");
                   JStr (Z_to_string cols ++ js "x" ++ Z_to_string rows)]) ++ [10%N].

(** ** castFilename *)

Section Names.
Variable format_now : Z → jsstring.
Variable unicode_lower : N → jsstring.

Definition lower_unit (c : N) : jsstring :=
  if is_upper c then [(c + 32)%N] else if (c <? 128)%N then [c] else unicode_lower c.
Definition toLowerCase (s : jsstring) : jsstring := flat_map lower_unit s.

Definition slug_char (c : N) : bool := is_lower c || is_digit c.

(** [.replace(/[^a-z0-9]+/g, "-")] *)
Fixpoint dash_runs (in_run : bool) (s : jsstring) : jsstring :=
  match s with
  | [] => []
  | c :: r =>
      if slug_char c then c :: dash_runs false r
      else if in_run then dash_runs true r
      else 45%N :: dash_runs true r
  end.

(** [.replace(/^-+|-+$/g, "")] *)
Definition strip_dashes (s : jsstring) : jsstring :=
  drop_trailing (N.eqb 45) (drop_while (N.eqb 45) s).

Definition castFilename (now : Z) (deviceName : jsstring) : jsstring :=
  let slug := strip_dashes (dash_runs false (toLowerCase (or_else (Some deviceName) (js "session")))) in
  js "shellhub-" ++ or_else (Some slug) (js "session") ++ js "-" ++ format_now now ++ js ".cast".

(** ** OpfsCastRecorder *)

Record Recorder := mkRecorder {
  r_id : jsstring;
  r_dir : jsstring;                   (* the directory captured by [create] *)
  r_deviceName : jsstring;
  r_deviceUid : jsstring;
  r_username : jsstring;
  r_sessionUid : option jsstring;
  r_startMs : Z;
  r_started : bool;
  r_count : nat;
  r_failed : bool;
  r_chain : list jsstring;            (* lines whose write has not run yet *)
  r_written : list jsstring;          (* lines the stream accepted *)
  r_cols : Z;
  r_rows : Z;
  r_lastElapsed : jsnum;
}.

Definition new_recorder (i dir deviceName deviceUid username : jsstring) (sessionUid : option jsstring) : Recorder :=
  mkRecorder i dir deviceName deviceUid username sessionUid 0 false 0 false [] [] 80 24 (Dec 0 0).

Definition setSessionUid (u : jsstring) (r : Recorder) : Recorder :=
  mkRecorder (r_id r) (r_dir r) (r_deviceName r) (r_deviceUid r) (r_username r) (Some u) (r_startMs r)
    (r_started r) (r_count r) (r_failed r) (r_chain r) (r_written r) (r_cols r) (r_rows r) (r_lastElapsed r).

(** [write(line)]: appended to the promise chain. *)
Definition write (line : jsstring) (r : Recorder) : Recorder :=
  mkRecorder (r_id r) (r_dir r) (r_deviceName r) (r_deviceUid r) (r_username r) (r_sessionUid r) (r_startMs r)
    (r_started r) (r_count r) (r_failed r) (r_chain r ++ [line]) (r_written r) (r_cols r) (r_rows r) (r_lastElapsed r).

(** The next write of the chain runs; [ok]: the stream accepted it. *)
Definition chain_step (ok : bool) (r : Recorder) : Recorder :=
  match r_chain r with
  | [] => r
  | line :: rest =>
      mkRecorder (r_id r) (r_dir r) (r_deviceName r) (r_deviceUid r) (r_username r) (r_sessionUid r) (r_startMs r)
        (r_started r) (r_count r) (r_failed r || negb ok) rest
        (if ok then r_written r ++ [line] else r_written r) (r_cols r) (r_rows r) (r_lastElapsed r)
  end.

Definition start (now cols rows : Z) (r : Recorder) : Recorder :=
  if r_started r then r
  else write (headerLine now cols rows)
    (mkRecorder (r_id r) (r_dir r) (r_deviceName r) (r_deviceUid r) (r_username r) (r_sessionUid r) now
      true (r_count r) (r_failed r) (r_chain r) (r_written r) cols rows (r_lastElapsed r)).

Definition elapsed (now : Z) (r : Recorder) : jsnum := seconds (now - r_startMs r).

(** An event: [count += 1; lastElapsed = elapsed(); write(...)]. *)
Definition record_event (now : Z) (line : jsnum → jsstring) (r : Recorder) : Recorder :=
  if negb (r_started r) || r_failed r then r
  else
    let e := elapsed now r in
    write (line e)
      (mkRecorder (r_id r) (r_dir r) (r_deviceName r) (r_deviceUid r) (r_username r) (r_sessionUid r) (r_startMs r)
        (r_started r) (S (r_count r)) (r_failed r) (r_chain r) (r_written r) (r_cols r) (r_rows r) e).

Definition recordOutput (now : Z) (text : jsstring) : Recorder → Recorder :=
  record_event now (λ e, outputLine e text).
Definition recordResize (now cols rows : Z) : Recorder → Recorder :=
  record_event now (λ e, resizeLine e cols rows).

Definition eventCount (r : Recorder) : nat := r_count r.

(** ** The directory *)

(** User id to file name to content. *)
Notation Opfs := (gmap jsstring (gmap jsstring jsstring)).

Record Rec := mkRec {
  opfs : Opfs;
  userScope : option jsstring;
  rec_supported : bool;
  rec_now : Z;
}.
Definition set_opfs (x : Opfs) (w : Rec) : Rec := mkRec x (userScope w) (rec_supported w) (rec_now w).

Notation R := (M Rec).

Definition setRecordingsScope (u : option jsstring) : R unit :=
  modify (λ w, mkRec (opfs w) u (rec_supported w) (rec_now w)).

Definition isRecordingSupported : R bool := gets rec_supported.

(** [recordingsDir()]: the directory of the user, created if missing. *)
Definition recordingsDir : R jsstring := λ w,
  match userScope w with
  | Some u => if truthy u
              then (Ok u, set_opfs (<[u := default ∅ (opfs w !! u)]> (opfs w)) w)
              else (Throw (Error (js "session recording: no user scope set")), w)
  | None => (Throw (Error (js "session recording: no user scope set")), w)
  end.

Definition files (d : jsstring) (w : Rec) : gmap jsstring jsstring := default ∅ (opfs w !! d).
Definition put_file (d n c : jsstring) : R unit :=
  modify (λ w, set_opfs (<[d := <[n := c]> (files d w)]> (opfs w)) w).

Definition not_found : exn := Thrown (js "NotFoundError").
Definition read_file (d n : jsstring) : R jsstring := λ w,
  match files d w !! n with Some c => (Ok c, w) | None => (Throw not_found, w) end.

(** [dir.removeEntry(name).catch(() => undefined)]: of a file that is not there it
    does nothing.  A removal the browser refuses would leave the file, which is what
    the [catch] ignores; it is not modelled. *)
Definition removeEntry (d n : jsstring) : R unit :=
  modify (λ w, match opfs w !! d with
               | Some fs => set_opfs (<[d := delete n fs]> (opfs w)) w
               | None => w
               end).

Definition cast_name (i : jsstring) : jsstring := i ++ js ".cast".
Definition json_name (i : jsstring) : jsstring := i ++ js ".json".

(** [OpfsCastRecorder.create]; [i] is the id it drew. *)
Definition create (i deviceName deviceUid username : jsstring) (sessionUid : option jsstring) : R Recorder :=
  dir ← recordingsDir;
  w ← gets (files dir);
  (match w !! cast_name i with Some _ => mret tt | None => put_file dir (cast_name i) [] end);;
  mret (new_recorder i dir deviceName deviceUid username sessionUid).

Definition removeFiles (r : Recorder) : R unit :=
  removeEntry (r_dir r) (cast_name (r_id r));; removeEntry (r_dir r) (json_name (r_id r)).

Definition meta_of (now : Z) (r : Recorder) : RecordingMeta :=
  mkMeta (r_id r) (castFilename now (r_deviceName r)) (r_deviceName r) (r_deviceUid r) (r_username r)
    (r_sessionUid r) (r_cols r) (r_rows r) (r_lastElapsed r) (r_startMs r) 0.

(** Await the chain: the pending writes run in order; [oks] says which the
    stream accepts. *)
Fixpoint drain (oks : list bool) (r : Recorder) : Recorder :=
  match oks with
  | [] => r
  | ok :: oks => drain oks (chain_step ok r)
  end.

(** [finish()], with the outcome of the pending writes and of [close].  Closing
    commits what was written to the file. *)
Definition finish (oks : list bool) (close_ok sidecar_ok : bool) (r : Recorder) : R (option RecordingMeta) :=
  let r := drain oks r in
  if negb close_ok then mret None
  else
    put_file (r_dir r) (cast_name (r_id r)) (concat (r_written r));;
    if (r_count r =? 0)%nat then removeFiles r;; mret None
    else
      now ← gets rec_now;
      let meta := meta_of now r in
      (if sidecar_ok then put_file (r_dir r) (json_name (r_id r)) (stringify (meta_json meta)) else mret tt);;
      mret (Some meta).

Definition discard (r : Recorder) : R unit := removeFiles r.

(** ** Listing *)

(** Newest first; the sort is stable. *)
Fixpoint insert_meta (m : RecordingMeta) (l : list RecordingMeta) : list RecordingMeta :=
  match l with
  | [] => [m]
  | x :: r => if m_createdAt x <? m_createdAt m then m :: x :: r else x :: insert_meta m r
  end.
Definition sort_metas (l : list RecordingMeta) : list RecordingMeta := fold_left (λ acc m, insert_meta m acc) l [].

Definition set_size (n : Z) (m : RecordingMeta) : RecordingMeta :=
  mkMeta (m_id m) (m_filename m) (m_deviceName m) (m_deviceUid m) (m_username m) (m_sessionUid m)
    (m_width m) (m_height m) (m_durationSec m) (m_createdAt m) n.

(** One entry of the directory: the recording it describes, if any. *)
Definition read_entry (fs : gmap jsstring jsstring) (entry : jsstring * jsstring) : option RecordingMeta :=
  if negb (endsWith entry.1 (js ".json")) then None
  else
    j ← parse entry.2;
    m ← meta_of_json j;
    c ← fs !! cast_name (m_id m);
    Some (set_size (Z.of_nat (length (utf8_encode c))) m).

Definition scoped : R bool :=
  s ← isRecordingSupported; u ← gets userScope; mret (s && is_truthy u).

Definition listRecordings : R (list RecordingMeta) :=
  b ← scoped;
  if negb b then mret []
  else
    dir ← recordingsDir;
    fs ← gets (files dir);
    mret (sort_metas (omap (read_entry fs) (map_to_list fs))).

Definition readRecording (m : RecordingMeta) : R jsstring :=
  dir ← recordingsDir; read_file dir (cast_name (m_id m)).

(** [downloadRecording]: the name and content handed to the browser. *)
Definition downloadRecording (m : RecordingMeta) : R (jsstring * jsstring) :=
  dir ← recordingsDir; c ← read_file dir (cast_name (m_id m)); mret (m_filename m, c).

Definition deleteRecording (i : jsstring) : R unit :=
  dir ← recordingsDir; removeEntry dir (cast_name i);; removeEntry dir (json_name i).

Definition clearRecordings : R unit :=
  b ← scoped;
  if negb b then mret tt
  else
    dir ← recordingsDir;
    modify (λ w, set_opfs (<[dir := ∅]> (opfs w)) w).

Fixpoint delete_all (l : list RecordingMeta) : R unit :=
  match l with
  | [] => mret tt
  | m :: l => deleteRecording (m_id m);; delete_all l
  end.

(** [m.createdAt < Date.now() - maxAgeDays * 86_400_000] *)
Definition older_than (now : Z) (maxAgeDays : jsnum) (m : RecordingMeta) : bool :=
  match maxAgeDays with
  | Dec n k => m_createdAt m * 10 ^ Z.of_nat k <? now * 10 ^ Z.of_nat k - n * 86400000
  | _ => false
  end.

Definition pruneRecordings (maxAgeDays : jsnum) : R unit :=
  b ← scoped;
  if negb b || num_leb maxAgeDays 0 then mret tt
  else
    now ← gets rec_now;
    metas ← listRecordings;
    delete_all (List.filter (older_than now maxAgeDays) metas).

(** ** stores/recordingsStore.ts *)

Definition RETENTION_KEY : jsstring := js "shellhub:recordings:retentionDays".

(** [Number.isFinite(days) && days > 0 ? days : null] *)
Definition positive_days (n : jsnum) : option jsnum :=
  match n with Dec _ _ => if num_gtb n 0 then Some n else None | _ => None end.

Definition loadRetention (storage : gmap jsstring jsstring) : option jsnum :=
  let raw := storage !! RETENTION_KEY in
  positive_days (if is_truthy raw then Number (default [] raw) else NaN).

Record RecordingsState := mkRecordings {
  recordings : list RecordingMeta;
  rs_loading : bool;
  retentionDays : option jsnum;
  notice : option RecordingMeta;
  rs_storage : gmap jsstring jsstring;
  rs_page : Rec;
}.

Notation RS := (M RecordingsState).

Definition put_recordings (l : list RecordingMeta) (s : RecordingsState) : RecordingsState :=
  mkRecordings l (rs_loading s) (retentionDays s) (notice s) (rs_storage s) (rs_page s).
Definition put_loading (b : bool) (s : RecordingsState) : RecordingsState :=
  mkRecordings (recordings s) b (retentionDays s) (notice s) (rs_storage s) (rs_page s).
Definition put_retention (d : option jsnum) (s : RecordingsState) : RecordingsState :=
  mkRecordings (recordings s) (rs_loading s) d (notice s) (rs_storage s) (rs_page s).
Definition put_notice (m : option RecordingMeta) (s : RecordingsState) : RecordingsState :=
  mkRecordings (recordings s) (rs_loading s) (retentionDays s) m (rs_storage s) (rs_page s).
Definition put_storage (x : gmap jsstring jsstring) (s : RecordingsState) : RecordingsState :=
  mkRecordings (recordings s) (rs_loading s) (retentionDays s) (notice s) x (rs_page s).
Definition on_page {A} (m : R A) : RS A := λ s,
  match m (rs_page s) with
  | (r, w) => (r, mkRecordings (recordings s) (rs_loading s) (retentionDays s) (notice s) (rs_storage s) w)
  end.

Definition refresh : RS unit :=
  modify (put_loading true);;
  try_finally
    (d ← gets retentionDays;
     (match d with Some n => on_page (pruneRecordings n) | None => mret tt end);;
     l ← on_page listRecordings;
     modify (put_recordings l))
    (modify (put_loading false)).

Definition remove (i : jsstring) : RS unit :=
  on_page (deleteRecording i);;
  modify (λ s, put_recordings (List.filter (λ r, negb (bool_decide (m_id r = i))) (recordings s)) s).

Definition clearAll : RS unit := on_page clearRecordings;; modify (put_recordings []).

(** [days && days > 0] *)
Definition chosen_days (days : option Z) : option Z :=
  match days with Some d => if 0 <? d then Some d else None | None => None end.

Definition setRetentionDays (days : option Z) : RS unit :=
  modify (λ s, put_storage (match chosen_days days with
                            | Some d => <[RETENTION_KEY := Z_to_string d]> (rs_storage s)
                            | None => delete RETENTION_KEY (rs_storage s)
                            end) s);;
  modify (put_retention ((λ d, Dec d 0) <$> chosen_days days));;
  try_catch refresh (λ _, mret tt).

Definition download (m : RecordingMeta) : RS (jsstring * jsstring) := on_page (downloadRecording m).

Definition notify (m : RecordingMeta) : RS unit :=
  modify (put_notice (Some m));; try_catch refresh (λ _, mret tt).

Definition clearNotice : RS unit := modify (put_notice None).

End Names.
