(* ===== verification/Terminal.v ===== *)
(** * Web terminals and recently used devices

    The state of stores/terminalStore.ts and stores/recentDevicesStore.ts and
    their actions, as functions on the state.  The two stores meet in
    [Session.openTerminal], which is the [open] action of the terminal store.

    Theorems: the windows of the terminals never compete for the screen, erased
    credentials never come back, and the persisted list of recent devices is the
    history of connections of its tenant, newest first, without repetitions, cut
    at the cap. *)

From S2P Require Import Prelude JsString JsJson JsEncoding JsDate.

(** ** stores/terminalStore.ts *)

Inductive TerminalWindowState := docked | minimized | fullscreen.
Inductive ConnectionStatus := connecting | connected | disconnected.

#[export] Instance TerminalWindowState_eq_dec : EqDecision TerminalWindowState.
Proof. solve_decision. Defined.
#[export] Instance ConnectionStatus_eq_dec : EqDecision ConnectionStatus.
Proof. solve_decision. Defined.

(** What the caller of [open] gives: [Omit<TerminalSession, "id" | "state" |
    "connectionStatus">].  [browserKey] is an opaque CryptoKey, named here by a
    number. *)
Record TerminalParams := mkParams {
  deviceUid : jsstring;
  deviceName : jsstring;
  username : jsstring;
  password : jsstring;
  fingerprint : option jsstring;
  privateKey : option jsstring;
  passphrase : option jsstring;
  browserKey : option nat;
  publicKeyLine : option jsstring;
  record : option bool;
}.

Record TerminalSession := mkSession {
  id : jsstring;
  params : TerminalParams;
  state : TerminalWindowState;
  connectionStatus : ConnectionStatus;
}.

Record ReconnectTarget := mkTarget { target_uid : jsstring; target_name : jsstring }.

Record TerminalState := mkTerminalState {
  sessions : list TerminalSession;
  reconnectTarget : option ReconnectTarget;
}.

Definition initial_terminals : TerminalState := mkTerminalState [] None.

Definition set_state (x : TerminalWindowState) (s : TerminalSession) : TerminalSession :=
  mkSession (id s) (params s) x (connectionStatus s).
Definition set_connectionStatus (x : ConnectionStatus) (s : TerminalSession) : TerminalSession :=
  mkSession (id s) (params s) (state s) x.
Definition set_params (x : TerminalParams) (s : TerminalSession) : TerminalSession :=
  mkSession (id s) x (state s) (connectionStatus s).

Definition set_sessions (f : list TerminalSession → list TerminalSession) (t : TerminalState) : TerminalState :=
  mkTerminalState (f (sessions t)) (reconnectTarget t).

Definition is_id (i : jsstring) (s : TerminalSession) : bool := bool_decide (id s = i).
Definition is_minimized (s : TerminalSession) : bool := bool_decide (state s = minimized).

(** [s => s.id === id ? f(s) : s] *)
Definition at_id (i : jsstring) (f : TerminalSession → TerminalSession) (s : TerminalSession) : TerminalSession :=
  if is_id i s then f s else s.

Definition demoteOthers (l : list TerminalSession) (targetId : jsstring) : list TerminalSession :=
  map (λ s, if is_id targetId s then s
            else if negb (is_minimized s) then set_state minimized s
            else s) l.

(** [set] of the [open] action, for the fresh id it drew. *)
Definition open (i : jsstring) (p : TerminalParams) (t : TerminalState) : TerminalState :=
  mkTerminalState (demoteOthers (sessions t) i ++ [mkSession i p docked connecting]) None.

Definition minimize (i : jsstring) : TerminalState → TerminalState :=
  set_sessions (map (at_id i (set_state minimized))).

Definition minimizeAll : TerminalState → TerminalState :=
  set_sessions (map (λ s, if negb (is_minimized s) then set_state minimized s else s)).

Definition restore (i : jsstring) : TerminalState → TerminalState :=
  set_sessions (λ l, map (at_id i (set_state docked)) (demoteOthers l i)).

Definition toggleFullscreen (i : jsstring) : TerminalState → TerminalState :=
  set_sessions (λ l, map (λ s,
    if negb (is_id i s) then s
    else set_state (if bool_decide (state s = fullscreen) then docked else fullscreen) s)
    (demoteOthers l i)).

Definition close (i : jsstring) : TerminalState → TerminalState :=
  set_sessions (List.filter (λ s, negb (is_id i s))).

Definition closeAndReconnect (i : jsstring) (t : TerminalState) : TerminalState :=
  match find (is_id i) (sessions t) with
  | None => t
  | Some session =>
      mkTerminalState (List.filter (λ s, negb (is_id i s)) (sessions t))
        (Some (mkTarget (deviceUid (params session)) (deviceName (params session))))
  end.

Definition requestConnect (uid name : jsstring) (t : TerminalState) : TerminalState :=
  mkTerminalState (sessions t) (Some (mkTarget uid name)).

Definition clearReconnect (t : TerminalState) : TerminalState :=
  mkTerminalState (sessions t) None.

Definition setConnectionStatus (i : jsstring) (st : ConnectionStatus) : TerminalState → TerminalState :=
  set_sessions (map (at_id i (set_connectionStatus st))).

Definition erase (p : TerminalParams) : TerminalParams :=
  mkParams (deviceUid p) (deviceName p) (username p) [] (fingerprint p) None None
    (browserKey p) (publicKeyLine p) (record p).

Definition clearSensitiveData (i : jsstring) : TerminalState → TerminalState :=
  set_sessions (map (at_id i (λ s, set_params (erase (params s)) s))).

(** *** Runs of the store *)

Inductive taction :=
  | TOpen (i : jsstring) (p : TerminalParams)
  | TMinimize (i : jsstring)
  | TMinimizeAll
  | TRestore (i : jsstring)
  | TToggleFullscreen (i : jsstring)
  | TClose (i : jsstring)
  | TCloseAndReconnect (i : jsstring)
  | TRequestConnect (uid name : jsstring)
  | TClearReconnect
  | TSetConnectionStatus (i : jsstring) (st : ConnectionStatus)
  | TClearSensitiveData (i : jsstring).

Definition trun1 (t : TerminalState) (a : taction) : TerminalState :=
  match a with
  | TOpen i p => open i p t
  | TMinimize i => minimize i t
  | TMinimizeAll => minimizeAll t
  | TRestore i => restore i t
  | TToggleFullscreen i => toggleFullscreen i t
  | TClose i => close i t
  | TCloseAndReconnect i => closeAndReconnect i t
  | TRequestConnect uid name => requestConnect uid name t
  | TClearReconnect => clearReconnect t
  | TSetConnectionStatus i st => setConnectionStatus i st t
  | TClearSensitiveData i => clearSensitiveData i t
  end.

Definition trun (t : TerminalState) (l : list taction) : TerminalState := fold_left trun1 l t.

(** The ids drawn by the [open]s of a run. *)
Definition opened (l : list taction) : list jsstring :=
  omap (λ a, match a with TOpen i _ => Some i | _ => None end) l.

(** Sessions whose window covers part of the screen. *)
Definition visible (t : TerminalState) : list TerminalSession :=
  List.filter (λ s, negb (is_minimized s)) (sessions t).

Definition ids (t : TerminalState) : list jsstring := map id (sessions t).

(** ** stores/recentDevicesStore.ts *)

Record RecentDevice := mkRecent { uid : jsstring; name : jsstring; connectedAt : jsstring }.

#[export] Instance RecentDevice_eq_dec : EqDecision RecentDevice.
Proof. solve_decision. Defined.

Definition STORE_CAP : nat := 10.

(** [byTenant: Record<string, RecentDevice[]>] *)
Notation ByTenant := (gmap jsstring (list RecentDevice)).

Definition not_uid (u : jsstring) (d : RecentDevice) : bool := negb (bool_decide (uid d = u)).

(** [record(uid, name)]; [tenant] is the auth store's, [now] the clock. *)
Definition recordDevice (tenant : option jsstring) (now : Z) (u n : jsstring) (byTenant : ByTenant) : ByTenant :=
  match tenant with
  | None => byTenant
  | Some t =>
      if truthy t then
        let entry := mkRecent u n (toISOString now) in
        let existing := default [] (byTenant !! t) in
        let next := take STORE_CAP (entry :: List.filter (not_uid u) existing) in
        <[t := next]> byTenant
      else byTenant
  end.

(** *** Runs of the recent devices *)

Record connection := mkConnection {
  conn_tenant : option jsstring;
  conn_at : Z;
  conn_uid : jsstring;
  conn_name : jsstring;
}.

Definition record_connection (m : ByTenant) (c : connection) : ByTenant :=
  recordDevice (conn_tenant c) (conn_at c) (conn_uid c) (conn_name c) m.

(** The reference: the connections made under a tenant, newest first, each
    device once. *)
Definition entry_of (c : connection) : RecentDevice :=
  mkRecent (conn_uid c) (conn_name c) (toISOString (conn_at c)).

Definition history (t : jsstring) (l : list connection) : list RecentDevice :=
  map entry_of (List.filter (λ c, bool_decide (conn_tenant c = Some t)) l).

Fixpoint dedup (l : list RecentDevice) : list RecentDevice :=
  match l with
  | [] => []
  | d :: l => d :: List.filter (not_uid (uid d)) (dedup l)
  end.

(** ** Facts on lists of sessions *)

(** Every window but that of [i] is minimized. *)
Definition focus (i : jsstring) (l : list TerminalSession) : Prop :=
  Forall (λ s, is_minimized s = true ∨ id s = i) l.

Lemma map_ids (f : TerminalSession → TerminalSession) l :
  (∀ s, id (f s) = id s) → map id (map f l) = map id l.
Proof. intros H. rewrite map_map. by apply map_ext. Qed.

Lemma at_id_id i f s : (∀ s, id (f s) = id s) → id (at_id i f s) = id s.
Proof. intros H. unfold at_id. by destruct (is_id i s). Qed.

Lemma demoteOthers_ids l i : map id (demoteOthers l i) = map id l.
Proof. apply map_ids. intros s. by destruct (is_id i s), (is_minimized s). Qed.

Lemma demoteOthers_focus l i : focus i (demoteOthers l i).
Proof.
  apply Forall_map, Forall_true. intros s. unfold is_id. simpl. case_bool_decide; [by right|].
  left. by destruct (is_minimized s) eqn:E.
Qed.

Lemma focus_map i (f : TerminalSession → TerminalSession) l :
  (∀ s, id (f s) = id s) → (∀ s, is_minimized s = true → id s ≠ i → is_minimized (f s) = true) →
  focus i l → focus i (map f l).
Proof.
  intros Hid Hf Hl. apply Forall_map. eapply Forall_impl; [exact Hl|]. simpl. intros s Hs.
  rewrite Hid. destruct (decide (id s = i)); [by right|]. left. apply Hf; naive_solver.
Qed.

Lemma focus_filter i p l : focus i l → focus i (List.filter p l).
Proof.
  unfold focus. rewrite !Forall_forall. intros H s Hs. apply H.
  rewrite list_elem_of_In in *. by apply filter_In in Hs as [].
Qed.

Lemma NoDup_filter_ids p l : NoDup (map id l) → NoDup (map id (List.filter p l)).
Proof.
  induction l as [|s l IH]; simpl; [done|]. intros [Hs Hl]%NoDup_cons.
  destruct (p s); [|by auto]. simpl. apply NoDup_cons. split; [|by auto].
  intros H. apply Hs. rewrite list_elem_of_In in *. apply in_map_iff in H as (x & Hx & Hin).
  apply filter_In in Hin as []. apply in_map_iff. eauto.
Qed.

Lemma focus_visible i l : NoDup (map id l) → focus i l →
  (length (List.filter (λ s, negb (is_minimized s)) l) <= 1)%nat.
Proof.
  induction l as [|s l IH]; simpl; [lia|]. intros [Hs Hl]%NoDup_cons [Hi Hf]%Forall_cons.
  destruct (is_minimized s) eqn:E; simpl; [by auto|].
  destruct Hi as [?|Hi]; [done|]. enough (List.filter (λ s, negb (is_minimized s)) l = []) as ->; [done|].
  clear IH Hl. induction l as [|x l IH]; [done|]. simpl.
  apply Forall_cons in Hf as [Hx Hf]. simpl in Hs. apply not_elem_of_cons in Hs as [Hsx Hs].
  destruct Hx as [->|Hx]; [simpl; auto|congruence].
Qed.

(** ** The windows share the screen *)

Definition terminals_ok (t : TerminalState) : Prop :=
  NoDup (ids t) ∧ ∃ i, focus i (sessions t).

(** An action that opens nothing introduces no id. *)
Lemma trun1_ids t a : ids (trun1 t a) ⊆ ids t ++ opened [a].
Proof.
  assert (∀ i, ids (close i t) ⊆ ids t) as Hc.
  { intros i x. unfold ids, close. simpl. rewrite !list_elem_of_In, !in_map_iff.
    intros (s & <- & [Hs ?]%filter_In). eauto. }
  destruct a as [i p|i| |i|i|i|i|u n| |i st|i]; unfold opened; simpl; rewrite ?app_nil_r; try done.
  - unfold ids. simpl. rewrite map_app, demoteOthers_ids. done.
  - unfold ids. simpl. rewrite map_ids; [done|]. intros; by apply at_id_id.
  - unfold ids. simpl. rewrite map_ids; [done|]. intros s. by destruct (is_minimized s).
  - unfold ids. simpl. rewrite map_ids, demoteOthers_ids; [done|]. intros; by apply at_id_id.
  - unfold ids. simpl. rewrite map_ids, demoteOthers_ids; [done|]. intros s. by destruct (is_id i s).
  - unfold closeAndReconnect. destruct (find _ _); [|done]. apply (Hc i).
  - unfold ids. simpl. rewrite map_ids; [done|]. intros; by apply at_id_id.
  - unfold ids. simpl. rewrite map_ids; [done|]. intros; by apply at_id_id.
Qed.

Lemma terminals_ok_map f t : (∀ s, id (f s) = id s) →
  (∀ s, is_minimized s = true → is_minimized (f s) = true) →
  terminals_ok t → terminals_ok (set_sessions (map f) t).
Proof.
  intros Hid Hf [Hn [i Hi]]. split.
  - unfold ids. simpl. by rewrite map_ids.
  - exists i. apply focus_map; auto.
Qed.

Lemma terminals_ok_raise i f t : (∀ s, id (f s) = id s) → (∀ s, id s ≠ i → f s = s) →
  terminals_ok t → terminals_ok (set_sessions (λ l, map f (demoteOthers l i)) t).
Proof.
  intros Hid Hf [Hn _]. split.
  - unfold ids. simpl. by rewrite map_ids, demoteOthers_ids.
  - exists i. apply focus_map; [done| |apply demoteOthers_focus]. intros s Hs Hne. by rewrite Hf.
Qed.

Lemma terminals_ok_filter p t : terminals_ok t → terminals_ok (set_sessions (List.filter p) t).
Proof. intros [Hn [i Hi]]. split; [by apply NoDup_filter_ids|]. exists i. by apply focus_filter. Qed.

Lemma trun1_ok t a : terminals_ok t → (∀ i, i ∈ opened [a] → i ∉ ids t) → terminals_ok (trun1 t a).
Proof.
  intros Hok Hfresh. destruct a as [i p|i| |i|i|i|i|u n| |i st|i]; simpl; try exact Hok.
  - destruct Hok as [Hn _]. split.
    + unfold ids. simpl. rewrite map_app, demoteOthers_ids. apply NoDup_app. split; [done|]. simpl.
      split; [|apply NoDup_singleton]. intros x Hx ->%list_elem_of_singleton.
      apply (Hfresh i); [by left|done].
    + exists i. apply Forall_app. split; [apply demoteOthers_focus|]. apply Forall_singleton. by right.
  - apply terminals_ok_map; [intros; by apply at_id_id| |done]. intros s Hs. unfold at_id. by destruct (is_id i s).
  - apply terminals_ok_map; [| |done]; intros s; by destruct (is_minimized s) eqn:E.
  - apply terminals_ok_raise; [intros; by apply at_id_id| |done]. intros s Hs. unfold at_id, is_id.
    by rewrite bool_decide_eq_false_2.
  - apply terminals_ok_raise; [intros s; by destruct (is_id i s)| |done]. intros s Hs. unfold is_id.
    by rewrite bool_decide_eq_false_2.
  - by apply terminals_ok_filter.
  - unfold closeAndReconnect. destruct (find _ _); [|done]. by apply (terminals_ok_filter _ t).
  - apply terminals_ok_map; [intros; by apply at_id_id| |done]. intros s Hs. unfold at_id. by destruct (is_id i s).
  - apply terminals_ok_map; [intros; by apply at_id_id| |done]. intros s Hs. unfold at_id. by destruct (is_id i s).
Qed.

Lemma opened_cons a l : opened (a :: l) = opened [a] ++ opened l.
Proof. by destruct a. Qed.

Lemma trun_ok l t : terminals_ok t → NoDup (opened l) → (∀ i, i ∈ opened l → i ∉ ids t) →
  terminals_ok (trun t l).
Proof.
  revert t. induction l as [|a l IH]; intros t Hok Hnd Hf; [done|].
  rewrite opened_cons in Hnd, Hf. apply NoDup_app in Hnd as (_ & Hdisj & Hl).
  apply (IH (trun1 t a)); [|done|].
  - apply trun1_ok; [done|]. intros i Hi. apply Hf, elem_of_app. by left.
  - intros i Hi Hin. apply trun1_ids in Hin. apply elem_of_app in Hin as [Hin|Hin].
    + apply (Hf i); [|done]. apply elem_of_app. by right.
    + by apply (Hdisj i).
Qed.

(** Whatever the user does with the terminal windows, session ids stay
    unique and at most one session is docked or full screen at a time. *)
Theorem one_visible_terminal (l : list taction) (Hfresh : NoDup (opened l)) :
  NoDup (ids (trun initial_terminals l)) ∧
  (length (visible (trun initial_terminals l)) <= 1)%nat.
Proof.
  assert (terminals_ok (trun initial_terminals l)) as [Hn [i Hi]].
  { apply trun_ok; [|done|].
    - split; [apply NoDup_nil_2|]. exists []. apply Forall_nil_2.
    - intros i _. apply not_elem_of_nil. }
  split; [done|]. by apply (focus_visible i).
Qed.

(** ** Erased credentials *)

Definition erased_at (i : jsstring) (t : TerminalState) : Prop :=
  Forall (λ s, id s = i → password (params s) = [] ∧ privateKey (params s) = None
                          ∧ passphrase (params s) = None) (sessions t).

Lemma erased_map i (f : TerminalSession → TerminalSession) l :
  (∀ s, id (f s) = id s ∧ (params (f s) = params s ∨ params (f s) = erase (params s))) →
  erased_at i l → erased_at i (set_sessions (map f) l).
Proof.
  intros Hf H. apply Forall_map. eapply Forall_impl; [exact H|]. simpl. intros s Hs Hi.
  destruct (Hf s) as [Hid [->| ->]]; [apply Hs; congruence|done].
Qed.

Lemma erased_filter i p t : erased_at i t → erased_at i (set_sessions (List.filter p) t).
Proof.
  unfold erased_at. rewrite !Forall_forall. simpl. intros H s Hs. apply H.
  rewrite list_elem_of_In in *. by apply filter_In in Hs as [].
Qed.

Lemma erased_demote i j t : erased_at i t → erased_at i (set_sessions (λ l, demoteOthers l j) t).
Proof.
  apply (erased_map i). intros s. by destruct (is_id j s), (is_minimized s); auto.
Qed.

Lemma trun1_erased i t a : i ∉ opened [a] → erased_at i t → erased_at i (trun1 t a).
Proof.
  intros Hi H. assert (∀ j f, (∀ s, id (f s) = id s ∧ (params (f s) = params s ∨ params (f s) = erase (params s))) →
    ∀ s, id (at_id j f s) = id s ∧ (params (at_id j f s) = params s ∨ params (at_id j f s) = erase (params s))) as Hat.
  { intros j f Hf s. unfold at_id. destruct (is_id j s); auto. }
  destruct a as [j p|j| |j|j|j|j|u n| |j st|j]; simpl; try exact H.
  - apply Forall_app. split; [apply (erased_demote i j t H)|]. apply Forall_singleton. simpl.
    intros ->. exfalso. apply Hi. by left.
  - apply erased_map; [|done]. apply Hat. auto.
  - apply erased_map; [|done]. intros s. destruct (is_minimized s); auto.
  - apply (erased_map i _ (set_sessions (λ l, demoteOthers l j) t)); [|by apply erased_demote]. apply Hat. auto.
  - apply (erased_map i _ (set_sessions (λ l, demoteOthers l j) t)); [|by apply erased_demote].
    intros s. destruct (is_id j s); auto.
  - by apply erased_filter.
  - unfold closeAndReconnect. destruct (find _ _); [|done]. by apply (erased_filter i _ t).
  - apply erased_map; [|done]. apply Hat. auto.
  - apply erased_map; [|done]. apply Hat. auto.
Qed.

Lemma trun_erased i l t : i ∉ opened l → erased_at i t → erased_at i (trun t l).
Proof.
  revert t. induction l as [|a l IH]; intros t Hi H; [done|]. rewrite opened_cons, not_elem_of_app in Hi.
  apply (IH (trun1 t a)); [tauto|]. apply trun1_erased; tauto.
Qed.

Lemma clear_erases i t : erased_at i (clearSensitiveData i t).
Proof.
  apply Forall_map, Forall_true. intros s. unfold at_id, is_id. simpl. case_bool_decide; [done|].
  intros ?. done.
Qed.

(** Once the credentials of a session are erased, no later action brings
    back its password, private key or passphrase; the other sessions keep
    theirs. *)
Theorem erased_credentials_stay_erased (i : jsstring) (t : TerminalState) (l : list taction)
    (Hid : i ∉ opened l) :
  erased_at i (trun (clearSensitiveData i t) l) ∧
  Forall (λ s, id s ≠ i → s ∈ sessions (clearSensitiveData i t)) (sessions t).
Proof.
  split; [apply trun_erased; [done|apply clear_erases]|].
  apply Forall_forall. intros s Hs Hne. apply list_elem_of_fmap. exists s. split; [|done].
  unfold at_id, is_id. by rewrite bool_decide_eq_false_2.
Qed.

(** ** The recent devices *)

Lemma take_filter_take {A} (p : A → bool) n l :
  (length (List.filter (λ x, negb (p x)) l) <= 1)%nat →
  take n (List.filter p (take (S n) l)) = take n (List.filter p l).
Proof.
  revert n. induction l as [|x l IH]; intros n H; [done|]. destruct n as [|n]; [done|].
  change (take (S (S n)) (x :: l)) with (x :: take (S n) l). simpl in *.
  destruct (p x) eqn:E; simpl in *; [by rewrite IH|].
  assert (Forall (λ y, p y = true) l) as Hl.
  { apply Forall_forall. intros y Hy. destruct (p y) eqn:Ey; [done|]. exfalso.
    assert (y ∈ List.filter (λ x, negb (p x)) l) as Hin.
    { apply list_elem_of_In, filter_In. rewrite Ey. split; [by apply list_elem_of_In|done]. }
    destruct (List.filter _ l); [by apply not_elem_of_nil in Hin|simpl in H; lia]. }
  rewrite (List_filter_id p l), (List_filter_id p (take (S n) l)) by auto using Forall_take.
  by rewrite take_take, Nat.min_id.
Qed.

Lemma dedup_elem d l : d ∈ dedup l → d ∈ l.
Proof.
  induction l as [|x l IH]; simpl; [done|]. rewrite !elem_of_cons. intros [->|H]; [by left|].
  right. apply IH. rewrite list_elem_of_In in *. by apply filter_In in H as [].
Qed.

Lemma dedup_NoDup l : NoDup (map uid (dedup l)).
Proof.
  induction l as [|x l IH]; simpl; [apply NoDup_nil_2|]. apply NoDup_cons. split.
  - rewrite list_elem_of_In, in_map_iff. intros (d & Hd & [_ H]%filter_In).
    unfold not_uid in H. by rewrite bool_decide_eq_true_2 in H.
  - revert IH. generalize (dedup l). intros m. induction m as [|d m IHm]; simpl; [done|].
    intros [Hd Hm]%NoDup_cons. destruct (not_uid (uid x) d); [|by auto]. simpl. apply NoDup_cons.
    split; [|by auto]. rewrite list_elem_of_In, in_map_iff in *.
    intros (e & He & [Hin _]%filter_In). apply Hd. eauto.
Qed.

(** A device occurs at most once, so that dropping it frees at most one slot. *)
Lemma one_uid u l : NoDup (map uid l) → (length (List.filter (λ d, negb (not_uid u d)) l) <= 1)%nat.
Proof.
  induction l as [|d l IH]; simpl; [lia|]. intros [Hd Hl]%NoDup_cons. unfold not_uid at 1.
  case_bool_decide as E; simpl; [|by auto].
  enough (List.filter (λ d, negb (not_uid u d)) l = []) as ->; [done|].
  rewrite <-E. clear -Hd. induction l as [|e l IH]; [done|]. simpl in *.
  apply not_elem_of_cons in Hd as [Hne Hd]. unfold not_uid at 1. rewrite bool_decide_eq_false_2 by congruence.
  simpl. auto.
Qed.

Lemma record_connection_history t m c h : truthy t = true →
  default [] (m !! t) = take STORE_CAP (dedup h) →
  default [] (record_connection m c !! t) =
    take STORE_CAP (dedup (if bool_decide (conn_tenant c = Some t) then entry_of c :: h else h)).
Proof.
  intros Ht Hm. unfold record_connection, recordDevice. case_bool_decide as E.
  - rewrite E, Ht, lookup_insert_eq. cbn [dedup]. unfold STORE_CAP in *. rewrite Hm.
    match goal with |- default _ (Some ?x) = ?y => change (x = y) end.
    rewrite !firstn_cons. f_equal. apply take_filter_take, one_uid, dedup_NoDup.
  - destruct (conn_tenant c) as [t'|]; [|done]. destruct (truthy t'); [|done].
    by rewrite lookup_insert_ne by congruence.
Qed.

Lemma history_snoc t l c :
  reverse (history t (l ++ [c])) =
    (if bool_decide (conn_tenant c = Some t) then entry_of c :: reverse (history t l) else reverse (history t l)).
Proof.
  unfold history. rewrite List.filter_app, map_app, reverse_app. simpl. by case_bool_decide.
Qed.

(** C39: The list of recent devices of a tenant is exactly the history of
    connections under that tenant, newest first, each device once, cut at ten;
    connections under other tenants, or under none, never show in it. *)
Theorem recent_devices_refine_history (t : jsstring) (l : list connection) (Ht : truthy t = true) :
  default [] (fold_left record_connection l ∅ !! t) = take STORE_CAP (dedup (reverse (history t l))).
Proof.
  induction l as [|c l IH] using rev_ind; [done|]. rewrite fold_left_app. simpl.
  rewrite history_snoc. by apply record_connection_history.
Qed.

(** ** Witnesses *)

Definition sample_params (n : string) : TerminalParams :=
  mkParams (js n) (js n) (js "root") (js "hunter2") None (Some (js "PEM")) None None None None.

Lemma one_visible_terminal_witness :
  (length (visible (trun initial_terminals
     [TOpen (js "a") (sample_params "d1"); TOpen (js "b") (sample_params "d2");
      TRestore (js "a"); TToggleFullscreen (js "b")])) <= 1)%nat.
Proof.
  apply one_visible_terminal. apply (bool_decide_unpack _). vm_compute. exact I.
Defined.

Lemma erased_credentials_witness :
  erased_at (js "a") (trun (clearSensitiveData (js "a")
    (trun initial_terminals [TOpen (js "a") (sample_params "d1")])) [TRestore (js "a"); TMinimizeAll]).
Proof. apply erased_credentials_stay_erased. apply not_elem_of_nil. Defined.

Lemma recent_devices_witness :
  default [] (fold_left record_connection
    [mkConnection (Some (js "t1")) 0 (js "d1") (js "D1"); mkConnection (Some (js "t2")) 1 (js "d2") (js "D2");
     mkConnection (Some (js "t1")) 2 (js "d3") (js "D3"); mkConnection (Some (js "t1")) 3 (js "d1") (js "D1")] ∅ !! js "t1")
  = [mkRecent (js "d1") (js "D1") (toISOString 3); mkRecent (js "d3") (js "D3") (toISOString 2)].
Proof. rewrite (recent_devices_refine_history (js "t1")) by reflexivity. vm_compute. reflexivity. Defined.
