(* ===== verification/Chatwoot.v ===== *)
(** * The lifecycle of the support chat widget (hooks/chatwootRuntime.ts)

    The module variables of the runtime, and of the page what it touches: the
    script tags with its id, the nodes the SDK adds to the body, the globals on
    [window], the pending timeouts and the listeners of the "chatwoot:ready"
    event.  The SDK itself is third-party code: what it does is an event
    ([CReady] and the arguments of [CLoad]). *)

From S2P Require Import Prelude JsString.

Inductive TearDownReason := logout_reason | bootstrap_timeout.
#[export] Instance TearDownReason_eq_dec : EqDecision TearDownReason.
Proof. solve_decision. Defined.

Definition BOOTSTRAP_TIMEOUT_MS : Z := 15000.

Record Chatwoot := mkChatwoot {
  (* module variables *)
  scriptInjected : bool;
  bootstrapFailed : bool;
  bootstrapTimer : option nat;
  readyListener : option nat;
  (* the page *)
  scripts : nat;                    (* elements with id SCRIPT_ID *)
  sdk_nodes : nat;                  (* elements matching SDK_DOM_SELECTORS *)
  window_chatwoot : bool;           (* window.$chatwoot *)
  window_sdk : bool;                (* window.chatwootSDK *)
  window_settings : bool;           (* window.chatwootSettings *)
  timeouts : list (nat * Z);        (* pending, with their delay *)
  ready_listeners : list nat;       (* listeners of "chatwoot:ready" *)
  next_handle : nat;
  notified : nat;                   (* how often the subscribers were called *)
}.

Definition initial_chatwoot : Chatwoot :=
  mkChatwoot false false None None 0 0 false false false [] [] 0 0.

Definition notify (c : Chatwoot) : Chatwoot :=
  mkChatwoot (scriptInjected c) (bootstrapFailed c) (bootstrapTimer c) (readyListener c)
    (scripts c) (sdk_nodes c) (window_chatwoot c) (window_sdk c) (window_settings c)
    (timeouts c) (ready_listeners c) (next_handle c) (S (notified c)).

Definition clearWatchdog (c : Chatwoot) : Chatwoot :=
  match bootstrapTimer c with
  | None => c
  | Some h =>
      mkChatwoot (scriptInjected c) (bootstrapFailed c) None (readyListener c)
        (scripts c) (sdk_nodes c) (window_chatwoot c) (window_sdk c) (window_settings c)
        (List.filter (λ t, negb (bool_decide (t.1 = h))) (timeouts c)) (ready_listeners c)
        (next_handle c) (notified c)
  end.

Definition detachReadyListener (c : Chatwoot) : Chatwoot :=
  mkChatwoot (scriptInjected c) (bootstrapFailed c) (bootstrapTimer c) None
    (scripts c) (sdk_nodes c) (window_chatwoot c) (window_sdk c) (window_settings c)
    (timeouts c)
    (match readyListener c with
     | Some h => List.filter (λ x, negb (bool_decide (x = h))) (ready_listeners c)
     | None => ready_listeners c
     end) (next_handle c) (notified c).

Definition getWidgetReadySnapshot (c : Chatwoot) : bool := window_chatwoot c.
Definition getBootstrapFailedSnapshot (c : Chatwoot) : bool := bootstrapFailed c.

(** [toggle] and [reset] of a live widget are inside a [try] and act on the
    widget, which is removed right after. *)
Definition tearDownChatwoot (reason : TearDownReason) (c : Chatwoot) : Chatwoot :=
  let c := detachReadyListener (clearWatchdog c) in
  notify (mkChatwoot false (bool_decide (reason = bootstrap_timeout)) (bootstrapTimer c) (readyListener c)
    (pred (scripts c)) 0 false false false (timeouts c) (ready_listeners c) (next_handle c) (notified c)).

Definition injectChatwootScript (c : Chatwoot) : Chatwoot :=
  if getWidgetReadySnapshot c then c
  else
    let present := negb (bool_decide (scripts c = 0%nat)) in
    let injected := if scriptInjected c && negb present then false else scriptInjected c in
    let c := mkChatwoot injected (bootstrapFailed c) (bootstrapTimer c) (readyListener c)
               (scripts c) (sdk_nodes c) (window_chatwoot c) (window_sdk c) (window_settings c)
               (timeouts c) (ready_listeners c) (next_handle c) (notified c) in
    if injected || present then c
    else
      let c := detachReadyListener c in
      let h := next_handle c in
      mkChatwoot true false (bootstrapTimer c) (Some h)
        (S (scripts c)) (sdk_nodes c) (window_chatwoot c) (window_sdk c) true
        (timeouts c) (ready_listeners c ++ [h]) (S h) (notified c).

(** [script.onload]; [attached]: the script set [window.chatwootSDK];
    [run_ok]: [chatwootSDK.run] returned; [nodes]: how many elements it added. *)
Definition onload (attached run_ok : bool) (nodes : nat) (c : Chatwoot) : Chatwoot :=
  let c := mkChatwoot (scriptInjected c) (bootstrapFailed c) (bootstrapTimer c) (readyListener c)
             (scripts c) (sdk_nodes c) (window_chatwoot c) (window_sdk c || attached) (window_settings c)
             (timeouts c) (ready_listeners c) (next_handle c) (notified c) in
  if negb (window_sdk c) then tearDownChatwoot bootstrap_timeout c
  else if negb run_ok then tearDownChatwoot bootstrap_timeout c
  else
    let h := next_handle c in
    mkChatwoot (scriptInjected c) (bootstrapFailed c) (Some h) (readyListener c)
      (scripts c) (sdk_nodes c + nodes) (window_chatwoot c) (window_sdk c) (window_settings c)
      (timeouts c ++ [(h, BOOTSTRAP_TIMEOUT_MS)]) (ready_listeners c) (S h) (notified c).

Definition onerror (c : Chatwoot) : Chatwoot := tearDownChatwoot bootstrap_timeout c.

(** The callback of the watchdog with handle [h]. *)
Definition watchdog (h : nat) (c : Chatwoot) : Chatwoot :=
  let c := mkChatwoot (scriptInjected c) (bootstrapFailed c) None (readyListener c)
             (scripts c) (sdk_nodes c) (window_chatwoot c) (window_sdk c) (window_settings c)
             (List.filter (λ t, negb (bool_decide (t.1 = h))) (timeouts c)) (ready_listeners c)
             (next_handle c) (notified c) in
  if negb (getWidgetReadySnapshot c) then tearDownChatwoot bootstrap_timeout c else c.

(** The one-shot "chatwoot:ready" listener. *)
Definition ready_callback (c : Chatwoot) : Chatwoot :=
  let c := clearWatchdog c in
  let c := mkChatwoot (scriptInjected c) false (bootstrapTimer c) (readyListener c)
             (scripts c) (sdk_nodes c) (window_chatwoot c) (window_sdk c) (window_settings c)
             (timeouts c) (ready_listeners c) (next_handle c) (notified c) in
  notify (detachReadyListener c).

(** The SDK sets [window.$chatwoot] and dispatches the event: every listener
    runs, the [once] ones being removed first. *)
Definition dispatch_ready (c : Chatwoot) : Chatwoot :=
  let hs := ready_listeners c in
  let c := mkChatwoot (scriptInjected c) (bootstrapFailed c) (bootstrapTimer c) (readyListener c)
             (scripts c) (sdk_nodes c) true (window_sdk c) (window_settings c)
             (timeouts c) [] (next_handle c) (notified c) in
  fold_left (λ c _, ready_callback c) hs c.

(** ** Runs *)

Inductive cevent :=
  | CInject
  | CLoad (attached run_ok : bool) (nodes : nat)
  | CError
  | CReady
  | CWatchdog (h : nat)
  | CTearDown (reason : TearDownReason).

Definition cstep (c : Chatwoot) (e : cevent) : Chatwoot :=
  match e with
  | CInject => injectChatwootScript c
  | CLoad a r n => onload a r n c
  | CError => onerror c
  | CReady => dispatch_ready c
  | CWatchdog h => if existsb (λ t, bool_decide (t.1 = h)) (timeouts c) then watchdog h c else c
  | CTearDown r => tearDownChatwoot r c
  end.

Definition crun (l : list cevent) : Chatwoot := fold_left cstep l initial_chatwoot.

(** One script tag at most, and no listener but the one the module knows. *)
Definition cw_ok (c : Chatwoot) : Prop :=
  (scripts c <= 1)%nat ∧ ready_listeners c = match readyListener c with Some h => [h] | None => [] end.

Lemma clearWatchdog_ok c : cw_ok c → cw_ok (clearWatchdog c).
Proof. unfold clearWatchdog. by destruct (bootstrapTimer c). Qed.

Lemma detach_listeners c : cw_ok c → ready_listeners (detachReadyListener c) = [].
Proof.
  intros [_ H]. unfold detachReadyListener. simpl. rewrite H. destruct (readyListener c); simpl; [|done].
  by rewrite bool_decide_eq_true_2.
Qed.

Lemma tearDown_ok r c : cw_ok c → cw_ok (tearDownChatwoot r c).
Proof.
  intros H%clearWatchdog_ok. split; [simpl; destruct H; lia|].
  apply (detach_listeners _ H).
Qed.

Lemma ready_callback_ok c : (scripts c <= 1)%nat → ready_listeners c = [] →
  cw_ok (ready_callback c) ∧ (scripts (ready_callback c) <= 1)%nat ∧ ready_listeners (ready_callback c) = [].
Proof.
  intros Hs Hl. unfold ready_callback.
  assert (scripts (clearWatchdog c) = scripts c ∧ ready_listeners (clearWatchdog c) = []) as [E1 E2]
    by (unfold clearWatchdog; by destruct (bootstrapTimer c)).
  unfold cw_ok. simpl. rewrite E1, E2. split; [split; [done|]|split; [done|]]; by destruct (readyListener _).
Qed.

Lemma dispatch_ready_ok c : cw_ok c → cw_ok (dispatch_ready c).
Proof.
  intros [Hs Hl]. unfold dispatch_ready. rewrite Hl. destruct (readyListener c) as [h|] eqn:E; simpl.
  - by apply ready_callback_ok.
  - split; [done|]. simpl. by rewrite ?E.
Qed.

Lemma cstep_ok c e : cw_ok c → cw_ok (cstep c e).
Proof.
  intros H. destruct e as [|a r n| | |h|r]; simpl.
  - unfold injectChatwootScript. destruct (getWidgetReadySnapshot c); [done|].
    case_bool_decide as E; simpl.
    + rewrite andb_true_r. rewrite orb_false_r. destruct (scriptInjected c); (split; [simpl; lia|]);
        simpl; destruct (readyListener c) eqn:El; destruct H as [_ H]; rewrite El in H; rewrite H; simpl;
        rewrite ?bool_decide_eq_true_2; done.
    + rewrite andb_false_r, orb_true_r. done.
  - unfold onload. simpl. destruct (window_sdk c || a); simpl; [|by apply tearDown_ok].
    destruct r; simpl; [done|by apply tearDown_ok].
  - by apply tearDown_ok.
  - by apply dispatch_ready_ok.
  - destruct (existsb _ _); [|done]. unfold watchdog, getWidgetReadySnapshot. simpl. destruct (window_chatwoot c); simpl; [done|].
    by apply tearDown_ok.
  - by apply tearDown_ok.
Qed.

(** What a torn-down page has left of the widget. *)
Definition no_widget (c : Chatwoot) : Prop :=
  scripts c = 0%nat ∧ sdk_nodes c = 0%nat ∧ window_chatwoot c = false ∧ window_sdk c = false ∧
  window_settings c = false ∧ ready_listeners c = [] ∧ readyListener c = None ∧ bootstrapTimer c = None ∧
  scriptInjected c = false.

Lemma tearDown_no_widget r c : cw_ok c → no_widget (tearDownChatwoot r c).
Proof.
  intros H%clearWatchdog_ok. pose proof (detach_listeners _ H) as Hl. destruct H as [Hs _].
  unfold no_widget. simpl in *. repeat split; try done; [lia|].
  unfold clearWatchdog. by destruct (bootstrapTimer c) eqn:E.
Qed.

(** Whatever the order of mounts, script loads, errors, ready events,
    watchdogs and log-outs, the page has at most one script tag of the widget and
    no listener but the one the module keeps, and tearing the widget down removes
    all of it from the page, in any of these states; it reports "unavailable"
    exactly when the reason is a failed bootstrap. *)
Theorem chatwoot_tear_down_complete (l : list cevent) (r : TearDownReason) :
  cw_ok (crun l) ∧ no_widget (tearDownChatwoot r (crun l)) ∧
  getBootstrapFailedSnapshot (tearDownChatwoot r (crun l)) = bool_decide (r = bootstrap_timeout).
Proof.
  assert (cw_ok (crun l)) as H.
  { unfold crun. assert (cw_ok initial_chatwoot) as H0 by (split; [simpl; lia|done]).
    revert H0. generalize initial_chatwoot. induction l as [|e l IH]; intros c Hc; [done|].
    apply IH. by apply cstep_ok. }
  split; [done|]. split; [by apply tearDown_no_widget|done].
Qed.
