(* ===== verification/Connectivity.v ===== *)
(** * Is the server reachable?

    stores/connectivityStore.ts and the connectivity half of
    api/fetchInterceptors.ts: a reply of a gateway that lost its backend, or a
    request that got no reply, starts a grace timer; any other reply cancels it;
    when it fires the store is marked down and a chain of polls, five seconds
    apart, brings it back up.

    The store, the module variables [polling] and [downTimer] and the pending
    work of the event loop are one record.  The theorems are about every order of
    replies, failures, timers and poll results. *)

From S2P Require Import Prelude.

Definition GRACE_PERIOD_MS : Z := 5000.
Definition POLL_MS : Z := 5000.

Record Connectivity := mkConn {
  apiReachable : bool;
  initialCheckDone : bool;
  initialGatePassed : bool;
  polling : bool;
  downTimer : option Z;       (* when the grace timer is due *)
  pollTimers : list Z;        (* when the scheduled polls are due *)
  pollsInFlight : nat;        (* polls waiting for [getInfo] *)
  clk : Z;
}.

Definition initial_conn (now : Z) : Connectivity := mkConn true false false false None [] 0 now.

Definition startPolling (c : Connectivity) : Connectivity :=
  if polling c then c
  else mkConn (apiReachable c) (initialCheckDone c) (initialGatePassed c) true (downTimer c)
         (pollTimers c ++ [clk c + POLL_MS]) (pollsInFlight c) (clk c).

Definition markDown (c : Connectivity) : Connectivity :=
  startPolling (mkConn false (initialCheckDone c) (initialGatePassed c) (polling c) (downTimer c)
    (pollTimers c) (pollsInFlight c) (clk c)).

Definition markUp (c : Connectivity) : Connectivity :=
  mkConn true (initialCheckDone c) true (polling c) (downTimer c) (pollTimers c) (pollsInFlight c) (clk c).

(** [checkInitial], after [getInfo] resolved or rejected. *)
Definition checkInitial (ok : bool) (c : Connectivity) : Connectivity :=
  if ok
  then mkConn true true true (polling c) (downTimer c) (pollTimers c) (pollsInFlight c) (clk c)
  else startPolling (mkConn false true (initialGatePassed c) (polling c) (downTimer c)
         (pollTimers c) (pollsInFlight c) (clk c)).

Definition scheduleMarkDown (c : Connectivity) : Connectivity :=
  match downTimer c with
  | Some _ => c
  | None => mkConn (apiReachable c) (initialCheckDone c) (initialGatePassed c) (polling c)
              (Some (clk c + GRACE_PERIOD_MS)) (pollTimers c) (pollsInFlight c) (clk c)
  end.

Definition cancelMarkDown (c : Connectivity) : Connectivity :=
  match downTimer c with
  | Some _ => mkConn (apiReachable c) (initialCheckDone c) (initialGatePassed c) (polling c)
                None (pollTimers c) (pollsInFlight c) (clk c)
  | None => c
  end.

(** The callback of the grace timer. *)
Definition onDownTimer (c : Connectivity) : Connectivity :=
  markDown (mkConn (apiReachable c) (initialCheckDone c) (initialGatePassed c) (polling c)
              None (pollTimers c) (pollsInFlight c) (clk c)).

(** A scheduled [poll()] starts its request: the timer that is due first. *)
Definition poll_start (c : Connectivity) : Connectivity :=
  mkConn (apiReachable c) (initialCheckDone c) (initialGatePassed c) (polling c) (downTimer c)
    (tail (pollTimers c)) (S (pollsInFlight c)) (clk c).

(** The rest of [poll()], after its [getInfo] resolved or rejected. *)
Definition poll_end (ok : bool) (c : Connectivity) : Connectivity :=
  if ok then
    let c := markUp c in
    mkConn (apiReachable c) (initialCheckDone c) (initialGatePassed c) false (downTimer c)
      (pollTimers c) (pred (pollsInFlight c)) (clk c)
  else
    mkConn (apiReachable c) (initialCheckDone c) (initialGatePassed c) (polling c) (downTimer c)
      (pollTimers c ++ [clk c + POLL_MS]) (pred (pollsInFlight c)) (clk c).

Definition isApiDown (status : Z) : bool := (status =? 502) || (status =? 503) || (status =? 504).

(** The connectivity half of the response interceptor; the session half is
    [Session.on_unauthorized]. *)
Definition on_response (status : Z) (c : Connectivity) : Connectivity :=
  if negb (isApiDown status) then
    let c := cancelMarkDown c in
    if negb (apiReachable c) then markUp c else c
  else if status =? 401 then c
  else scheduleMarkDown c.

(** The error interceptor when there is no response. *)
Definition on_no_response (c : Connectivity) : Connectivity := scheduleMarkDown c.

(** ** Runs *)

Inductive nevent :=
  | NResponse (status : Z)
  | NNoResponse
  | NInitial (ok : bool)
  | NElapse (ms : Z)
  | NDownTimer
  | NPollTimer
  | NPollEnd (ok : bool).

(** Timers fire when they are due, a poll ends when one is in flight. *)
Definition enabled (c : Connectivity) (e : nevent) : bool :=
  match e with
  | NElapse ms => 0 <=? ms
  | NDownTimer => match downTimer c with Some due => due <=? clk c | None => false end
  | NPollTimer => match pollTimers c with due :: _ => due <=? clk c | [] => false end
  | NPollEnd _ => negb (bool_decide (pollsInFlight c = 0%nat))
  | _ => true
  end.

Definition nstep (c : Connectivity) (e : nevent) : Connectivity :=
  match e with
  | NResponse st => on_response st c
  | NNoResponse => on_no_response c
  | NInitial ok => checkInitial ok c
  | NElapse ms => mkConn (apiReachable c) (initialCheckDone c) (initialGatePassed c) (polling c)
                    (downTimer c) (pollTimers c) (pollsInFlight c) (clk c + ms)
  | NDownTimer => onDownTimer c
  | NPollTimer => poll_start c
  | NPollEnd ok => poll_end ok c
  end.

(** Events that are not enabled do not happen. *)
Definition nrun1 (c : Connectivity) (e : nevent) : Connectivity :=
  if enabled c e then nstep c e else c.
Definition nrun (c : Connectivity) (l : list nevent) : Connectivity := fold_left nrun1 l c.

(** ** The chain of polls *)

(** Polls waiting for their timer or their reply. *)
Definition chain (c : Connectivity) : nat := (length (pollTimers c) + pollsInFlight c)%nat.

Definition conn_ok (c : Connectivity) : Prop :=
  chain c = (if polling c then 1%nat else 0%nat) ∧
  (apiReachable c = false → polling c = true) ∧
  Forall (λ due, due <= clk c + POLL_MS) (pollTimers c).

Lemma startPolling_ok c : chain c = (if polling c then 1%nat else 0%nat) →
  Forall (λ due, due <= clk c + POLL_MS) (pollTimers c) → conn_ok (startPolling c).
Proof.
  intros Hc Hd. unfold startPolling, conn_ok. destruct (polling c) eqn:E; [by rewrite E|].
  unfold chain in *. simpl. rewrite length_app. simpl. split; [lia|]. split; [done|].
  apply Forall_app. split; [done|]. apply Forall_singleton. lia.
Qed.

Lemma scheduleMarkDown_ok c : conn_ok c → conn_ok (scheduleMarkDown c).
Proof. unfold scheduleMarkDown. by destruct (downTimer c). Qed.

Lemma cancelMarkDown_ok c : conn_ok c → conn_ok (cancelMarkDown c).
Proof. unfold cancelMarkDown. by destruct (downTimer c). Qed.

Lemma markUp_ok c : conn_ok c → conn_ok (markUp c).
Proof. intros (H1 & H2 & H3). by split. Qed.

Lemma on_response_ok st c : conn_ok c → conn_ok (on_response st c).
Proof.
  intros H. unfold on_response. destruct (isApiDown st); simpl.
  - destruct (st =? 401); [done|by apply scheduleMarkDown_ok].
  - destruct (apiReachable _); simpl; [by apply cancelMarkDown_ok|by apply markUp_ok, cancelMarkDown_ok].
Qed.

Lemma nrun1_ok c e : conn_ok c → conn_ok (nrun1 c e).
Proof.
  intros H. pose proof H as (Hc & Hp & Hd). unfold nrun1.
  destruct (enabled c e) eqn:He; [|done]. destruct e as [st| |ok|ms| | |ok]; simpl in *.
  - by apply on_response_ok.
  - by apply scheduleMarkDown_ok.
  - destruct ok; [by split|]. by apply startPolling_ok.
  - split; [done|]. split; [done|]. simpl. eapply Forall_impl; [exact Hd|]. simpl. lia.
  - by apply startPolling_ok.
  - unfold chain in Hc. destruct (pollTimers c) as [|due r] eqn:E; [done|].
    unfold conn_ok, chain, poll_start. rewrite E. simpl in *. split; [lia|]. split; [done|].
    by apply Forall_cons in Hd as [].
  - apply negb_true_iff, bool_decide_eq_false in He. unfold chain in Hc.
    destruct (polling c) eqn:E; [|lia].
    assert (pollTimers c = [] ∧ pollsInFlight c = 1%nat) as [E1 E2].
    { destruct (pollTimers c); simpl in Hc; [split; [done|lia]|lia]. }
    destruct ok; unfold poll_end, conn_ok, chain; simpl; rewrite ?E, E1, E2; simpl.
    + split; [done|]. split; [done|apply Forall_nil_2].
    + split; [done|]. split; [done|]. apply Forall_singleton. lia.
Qed.

Lemma nrun_ok l c : conn_ok c → conn_ok (nrun c l).
Proof. revert c. induction l as [|e l IH]; intros c H; [done|]. by apply IH, nrun1_ok. Qed.

Lemma initial_conn_ok now : conn_ok (initial_conn now).
Proof. split; [done|]. split; [done|apply Forall_nil_2]. Qed.

(** C34: In every run, at most one poll of the server is under way (none piles
    up however often the store is marked down), and whenever the store says the
    server is unreachable there is one, due within five seconds or in flight,
    whose success marks the server reachable, opens the start-up gate and ends
    the chain: the console is never stuck offline. *)
Theorem never_stuck_offline (now : Z) (l : list nevent) :
  let c := nrun (initial_conn now) l in
  (chain c <= 1)%nat ∧
  (apiReachable c = false →
   ∃ k, (k = [NPollEnd true] ∨ k = [NElapse POLL_MS; NPollTimer; NPollEnd true]) ∧
        apiReachable (nrun c k) = true ∧ initialGatePassed (nrun c k) = true ∧
        polling (nrun c k) = false ∧ chain (nrun c k) = 0%nat).
Proof.
  intros c. destruct (nrun_ok l _ (initial_conn_ok now)) as (Hc & Hp & Hd). fold c in Hc, Hp, Hd.
  split; [destruct (polling c); lia|]. intros Hoff. rewrite Hp in Hc by done.
  unfold chain in Hc. destruct (pollTimers c) as [|due r] eqn:E; simpl in Hc.
  - exists [NPollEnd true]. split; [by left|]. unfold nrun, nrun1, poll_end, chain. simpl.
    rewrite bool_decide_eq_false_2 by lia. simpl. rewrite E. simpl. repeat split; lia.
  - exists [NElapse POLL_MS; NPollTimer; NPollEnd true]. split; [by right|].
    apply Forall_cons in Hd as [Hd _]. destruct r; [|simpl in Hc; lia].
    unfold nrun, nrun1, poll_start, poll_end, chain. simpl. rewrite E. simpl.
    rewrite (proj2 (Z.leb_le _ _)) by lia. simpl. repeat split; lia.
Qed.

(** ** The grace period *)

(** The first failure that no later reply of the server has answered. *)
Definition failing_step (now : Z) (g : option Z) (e : nevent) : option Z :=
  match e with
  | NResponse st => if negb (isApiDown st) then None else Some (default now g)
  | NNoResponse => Some (default now g)
  | _ => g
  end.

Fixpoint failing_since (c : Connectivity) (g : option Z) (l : list nevent) : option Z :=
  match l with
  | [] => g
  | e :: l => failing_since (nrun1 c e) (failing_step (clk c) g e) l
  end.

(** A pending grace timer ends a whole grace period after that failure. *)
Definition grace_ok (c : Connectivity) (g : option Z) : Prop :=
  (∀ t, g = Some t → t <= clk c) ∧
  (∀ due, downTimer c = Some due → ∃ t, g = Some t ∧ t + GRACE_PERIOD_MS <= due).

Lemma schedule_grace c g : grace_ok c g → grace_ok (scheduleMarkDown c) (Some (default (clk c) g)).
Proof.
  intros [Hg Hd]. assert (default (clk c) g <= clk c) by (destruct g; simpl; [auto|lia]).
  unfold scheduleMarkDown. destruct (downTimer c) as [due|] eqn:E.
  - destruct (Hd _ eq_refl) as (t & -> & Ht). simpl in *. split; [by intros ? [= <-]|].
    intros due' [= <-]%(eq_trans (eq_sym E)). eauto.
  - split; simpl; [by intros ? [= <-]|]. intros due [= <-]. eexists. split; [done|]. lia.
Qed.

Lemma startPolling_grace c g : grace_ok c g → grace_ok (startPolling c) g.
Proof. unfold startPolling. by destruct (polling c). Qed.

Lemma nrun1_grace c g e : grace_ok c g → grace_ok (nrun1 c e) (failing_step (clk c) g e).
Proof.
  intros H. pose proof H as [Hg Hd]. unfold nrun1.
  destruct (enabled c e) eqn:He; [|by destruct e].
  destruct e as [st| |ok|ms| | |ok]; simpl in *; try done.
  - unfold on_response. destruct (isApiDown st) eqn:Est; simpl.
    + destruct (Z.eqb_spec st 401) as [->|]; [done|]. by apply schedule_grace.
    + assert (downTimer (cancelMarkDown c) = None) as Hn
        by (unfold cancelMarkDown; by destruct (downTimer c) eqn:E).
      destruct (apiReachable _); split; simpl; try done; by rewrite Hn.
  - by apply schedule_grace.
  - destruct ok; [by split|]. by apply startPolling_grace.
  - split; simpl; [|done]. intros t Ht. specialize (Hg t Ht). lia.
  - apply startPolling_grace. by split.
  - by destruct ok.
Qed.

Lemma nrun_grace l c g : grace_ok c g → grace_ok (nrun c l) (failing_since c g l).
Proof.
  revert c g. induction l as [|e l IH]; intros c g H; [done|]. simpl. by apply IH, nrun1_grace.
Qed.

(** The store goes from reachable to unreachable only when the initial check
    fails, or when the server has failed to answer for a whole grace period with
    not one reply in between: a short restart of the server never shows. *)
Theorem down_only_after_grace (now : Z) (l : list nevent) (e : nevent) :
  let c := nrun (initial_conn now) l in
  apiReachable c = true → apiReachable (nrun1 c e) = false →
  e = NInitial false ∨
  (e = NDownTimer ∧ ∃ t, failing_since (initial_conn now) None l = Some t ∧ t + GRACE_PERIOD_MS <= clk c).
Proof.
  intros c Hup Hdown. assert (grace_ok c (failing_since (initial_conn now) None l)) as [_ Hd].
  { apply nrun_grace. split; done. }
  unfold nrun1 in Hdown. destruct (enabled c e) eqn:He; [|congruence].
  destruct e as [st| |ok|ms| | |ok]; simpl in *; try congruence.
  - exfalso. revert Hdown. unfold on_response, scheduleMarkDown, cancelMarkDown.
    destruct (isApiDown st), (downTimer c), (st =? 401); simpl; rewrite ?Hup; simpl; congruence.
  - exfalso. revert Hdown. unfold on_no_response, scheduleMarkDown. destruct (downTimer c); simpl; congruence.
  - destruct ok; [done|by left].
  - right. split; [done|]. destruct (downTimer c) as [due|] eqn:E; [|done].
    destruct (Hd _ eq_refl) as (t & Ht & Hle). exists t. split; [done|]. lia.
  - exfalso. revert Hdown. unfold poll_end. destruct ok; simpl; congruence.
Qed.

(** ** Witnesses *)

Lemma never_stuck_offline_witness :
  let c := nrun (initial_conn 0) [NInitial false; NNoResponse; NElapse 5000; NDownTimer] in
  (chain c <= 1)%nat ∧ apiReachable c = false.
Proof. split; [apply (never_stuck_offline 0)|reflexivity]. Defined.

Lemma down_only_after_grace_witness :
  ∃ t, failing_since (initial_conn 0) None
         [NResponse 502; NResponse 200; NElapse 10; NNoResponse; NElapse 5000] = Some t ∧ t + 5000 <= 5010.
Proof.
  destruct (down_only_after_grace 0 [NResponse 502; NResponse 200; NElapse 10; NNoResponse; NElapse 5000]
    NDownTimer eq_refl eq_refl) as [[=]|[_ (t & Ht & Hle)]].
  exists t. split; [exact Ht|exact Hle].
Defined.
