(* ===== verification/Permission.v ===== *)
(** * Roles and permissions (utils/permission.ts)

    The table of actions with the least role each needs, and the check.  A role
    arrives as a string from the server; an object key lookup that misses gives
    [undefined], and a comparison with [undefined] is false. *)

From S2P Require Import Prelude JsString JsJson.

Inductive Role := observer | operator | administrator | owner.
#[export] Instance Role_eq_dec : EqDecision Role.
Proof. solve_decision. Defined.

Inductive RoleLevel := OBSERVER | OPERATOR | ADMINISTRATOR | OWNER.

(** The values of the enum. *)
Definition level (l : RoleLevel) : Z :=
  match l with OBSERVER => 1 | OPERATOR => 2 | ADMINISTRATOR => 3 | OWNER => 4 end.

Definition role_name (r : Role) : jsstring :=
  match r with
  | observer => js "observer" | operator => js "operator"
  | administrator => js "administrator" | owner => js "owner"
  end.

Definition roleLevels : list (jsstring * RoleLevel) :=
  [(js "observer", OBSERVER); (js "operator", OPERATOR);
   (js "administrator", ADMINISTRATOR); (js "owner", OWNER)].

Definition isValidRole (role : option jsstring) : bool :=
  match role with
  | None => false
  | Some r => bool_decide (is_Some (assoc r roleLevels))
  end.

Definition permissions : list (jsstring * RoleLevel) :=
  [
   (js "device:connect", OBSERVER);
   (js "device:details", OBSERVER);
   (js "device:add", OPERATOR);
   (js "device:accept", OPERATOR);
   (js "device:reject", OPERATOR);
   (js "device:rename", OPERATOR);
   (js "device:customField:update", OPERATOR);
   (js "device:remove", ADMINISTRATOR);
   (js "device:choose", OWNER);
   (js "session:details", OBSERVER);
   (js "session:play", ADMINISTRATOR);
   (js "session:close", ADMINISTRATOR);
   (js "session:removeRecord", ADMINISTRATOR);
   (js "namespace:create", OBSERVER);
   (js "namespace:leave", OBSERVER);
   (js "namespace:rename", ADMINISTRATOR);
   (js "namespace:addMember", ADMINISTRATOR);
   (js "namespace:editMember", ADMINISTRATOR);
   (js "namespace:removeMember", ADMINISTRATOR);
   (js "namespace:cancelInvitation", ADMINISTRATOR);
   (js "namespace:updateSessionRecording", ADMINISTRATOR);
   (js "namespace:updateSshAccessMode", ADMINISTRATOR);
   (js "namespace:delete", OWNER);
   (js "tag:edit", OPERATOR);
   (js "tag:remove", OPERATOR);
   (js "tag:deviceCreate", OPERATOR);
   (js "tag:update", OPERATOR);
   (js "webEndpoint:create", ADMINISTRATOR);
   (js "webEndpoint:delete", ADMINISTRATOR);
   (js "connector:add", ADMINISTRATOR);
   (js "connector:edit", ADMINISTRATOR);
   (js "connector:remove", ADMINISTRATOR);
   (js "firewall:create", ADMINISTRATOR);
   (js "firewall:edit", ADMINISTRATOR);
   (js "firewall:remove", ADMINISTRATOR);
   (js "publicKey:create", ADMINISTRATOR);
   (js "publicKey:edit", ADMINISTRATOR);
   (js "publicKey:remove", ADMINISTRATOR);
   (js "accessPolicy:create", ADMINISTRATOR);
   (js "accessPolicy:edit", ADMINISTRATOR);
   (js "accessPolicy:remove", ADMINISTRATOR);
   (js "sshIdentity:add", OPERATOR);
   (js "sshIdentity:manage", ADMINISTRATOR);
   (js "serviceAccount:view", ADMINISTRATOR);
   (js "serviceAccount:create", ADMINISTRATOR);
   (js "serviceAccount:delete", ADMINISTRATOR);
   (js "billing:subscribe", OWNER);
   (js "billing:unsubscribe", OWNER);
   (js "notification:view", OPERATOR);
   (js "apiKey:create", ADMINISTRATOR);
   (js "apiKey:edit", ADMINISTRATOR);
   (js "apiKey:delete", ADMINISTRATOR);
   (js "installKey:create", ADMINISTRATOR);
   (js "installKey:reveal", ADMINISTRATOR);
   (js "installKey:edit", ADMINISTRATOR);
   (js "installKey:disable", ADMINISTRATOR);
   (js "installKey:revoke", ADMINISTRATOR);
   (js "namespace:editBanner", ADMINISTRATOR)].

Definition hasPermission (role : option jsstring) (action : jsstring) : bool :=
  if negb (isValidRole role) then false
  else match role with
       | None => false
       | Some r =>
           match assoc r roleLevels, assoc action permissions with
           | Some have, Some need => level need <=? level have
           | _, _ => false
           end
       end.

(** ** The roles form a hierarchy *)

Definition role_level (r : Role) : Z :=
  match r with observer => 1 | operator => 2 | administrator => 3 | owner => 4 end.

Lemma roleLevels_role r : ∃ l, assoc (role_name r) roleLevels = Some l ∧ level l = role_level r.
Proof. destruct r; eexists; (split; [vm_compute; reflexivity|reflexivity]). Qed.

Lemma roleLevels_inv s l : assoc s roleLevels = Some l → ∃ r, s = role_name r.
Proof.
  unfold roleLevels. cbn [assoc]. repeat (case_bool_decide as E; [intros _; rewrite <-E; clear E|clear E]).
  - by exists observer.
  - by exists operator.
  - by exists administrator.
  - by exists owner.
  - done.
Qed.

Lemma hasPermission_role r a :
  hasPermission (Some (role_name r)) a =
    match assoc a permissions with Some need => level need <=? role_level r | None => false end.
Proof.
  destruct (roleLevels_role r) as (l & Hl & <-). unfold hasPermission, isValidRole. rewrite Hl.
  rewrite bool_decide_eq_true_2 by eauto. done.
Qed.

Lemma hasPermission_true role a : hasPermission role a = true →
  ∃ r need, role = Some (role_name r) ∧ assoc a permissions = Some need ∧ level need <= role_level r.
Proof.
  destruct role as [s|]; [|done]. intros H.
  destruct (assoc s roleLevels) as [l|] eqn:E.
  - destruct (roleLevels_inv _ _ E) as [r ->]. rewrite hasPermission_role in H.
    destruct (assoc a permissions) as [need|]; [|done]. exists r, need. split; [done|]. split; [done|]. lia.
  - unfold hasPermission, isValidRole in H. by rewrite E in H.
Qed.

(** The check is exactly the role hierarchy: an action is allowed if and only
    if it is in the table and the role is one of the four known names whose level
    reaches the action's; so a higher role can do all a lower one can, the owner
    can do every action of the table, and no role, an unknown one, or the name of
    a property of the prototype allows nothing. *)
Theorem permission_hierarchy (role : option jsstring) (a : jsstring) :
  (hasPermission role a = true ↔
     ∃ r need, role = Some (role_name r) ∧ assoc a permissions = Some need ∧ level need <= role_level r) ∧
  (∀ r r', role = Some (role_name r) → role_level r <= role_level r' →
     hasPermission role a = true → hasPermission (Some (role_name r')) a = true) ∧
  (is_Some (assoc a permissions) → hasPermission (Some (role_name owner)) a = true).
Proof.
  split; [split|split].
  - apply hasPermission_true.
  - intros (r & need & -> & Ha & Hle). rewrite hasPermission_role, Ha. by apply Z.leb_le.
  - intros r r' -> Hle. rewrite !hasPermission_role. destruct (assoc a permissions); [|done].
    rewrite !Z.leb_le. lia.
  - intros [need Hn]. rewrite hasPermission_role, Hn. by destruct need.
Qed.

Lemma permission_hierarchy_witness :
  hasPermission (Some (js "operator")) (js "device:accept") = true ∧
  hasPermission (Some (js "administrator")) (js "device:accept") = true.
Proof.
  split; [vm_compute; reflexivity|].
  apply (proj1 (proj2 (permission_hierarchy (Some (js "operator")) (js "device:accept"))) operator administrator);
    [vm_compute; reflexivity|vm_compute; discriminate|vm_compute; reflexivity].
Defined.
