(* ===== verification/AuthTypes.v ===== *)
(** * The data of the session (stores/authStore.ts, api/fetchInterceptors.ts)

    The state of the auth store with the values its actions write, the record
    that survives a reload, and the expiry check of a token. *)

From S2P Require Import Prelude JsString JsJson JsEncoding Permission.

Inductive UserOrigin := origin_local | origin_saml.
#[export] Instance UserOrigin_eq_dec : EqDecision UserOrigin.
Proof. solve_decision. Defined.
Definition origin_name (o : UserOrigin) : jsstring :=
  match o with origin_local => js "local" | origin_saml => js "saml" end.

Record AuthState := mkAuth {
  token : option jsstring;
  user : option jsstring;
  userId : option jsstring;
  email : option jsstring;
  username : option jsstring;
  origin : option UserOrigin;
  recoveryEmail : option jsstring;
  tenant : option jsstring;
  role : option Role;
  isAdmin : bool;
  name : option jsstring;
  loading : bool;
  error : option jsstring;
  mfaEnabled : bool;
  mfaToken : option jsstring;
  mfaRecoveryExpiry : option Z;
}.

Definition initialState : AuthState :=
  mkAuth None None None None None None None None None false None false None false None None.

(** The user object of a reply: [userAuth] of the server's API.  [admin],
    [mfa], [origin] and [recovery_email] may be missing. *)
Record UserData := mkUserData {
  ud_token : jsstring;
  ud_user : jsstring;
  ud_id : jsstring;
  ud_email : jsstring;
  ud_tenant : jsstring;
  ud_name : jsstring;
  ud_admin : option bool;
  ud_mfa : option bool;
  ud_origin : option UserOrigin;
  ud_recovery_email : option jsstring;
}.

(** ** The objects passed to [set] *)

Definition set_loading (b : bool) (s : AuthState) : AuthState :=
  mkAuth (token s) (user s) (userId s) (email s) (username s) (origin s) (recoveryEmail s) (tenant s)
    (role s) (isAdmin s) (name s) b (error s) (mfaEnabled s) (mfaToken s) (mfaRecoveryExpiry s).
Definition set_error (e : option jsstring) (s : AuthState) : AuthState :=
  mkAuth (token s) (user s) (userId s) (email s) (username s) (origin s) (recoveryEmail s) (tenant s)
    (role s) (isAdmin s) (name s) (loading s) e (mfaEnabled s) (mfaToken s) (mfaRecoveryExpiry s).
Definition set_mfaToken (t : option jsstring) (s : AuthState) : AuthState :=
  mkAuth (token s) (user s) (userId s) (email s) (username s) (origin s) (recoveryEmail s) (tenant s)
    (role s) (isAdmin s) (name s) (loading s) (error s) (mfaEnabled s) t (mfaRecoveryExpiry s).
Definition set_mfaEnabled (b : bool) (s : AuthState) : AuthState :=
  mkAuth (token s) (user s) (userId s) (email s) (username s) (origin s) (recoveryEmail s) (tenant s)
    (role s) (isAdmin s) (name s) (loading s) (error s) b (mfaToken s) (mfaRecoveryExpiry s).
Definition set_user (u : option jsstring) (s : AuthState) : AuthState :=
  mkAuth (token s) u (userId s) (email s) (username s) (origin s) (recoveryEmail s) (tenant s)
    (role s) (isAdmin s) (name s) (loading s) (error s) (mfaEnabled s) (mfaToken s) (mfaRecoveryExpiry s).
Definition set_isAdmin (b : bool) (s : AuthState) : AuthState :=
  mkAuth (token s) (user s) (userId s) (email s) (username s) (origin s) (recoveryEmail s) (tenant s)
    (role s) b (name s) (loading s) (error s) (mfaEnabled s) (mfaToken s) (mfaRecoveryExpiry s).
Definition set_token (t : option jsstring) (s : AuthState) : AuthState :=
  mkAuth t (user s) (userId s) (email s) (username s) (origin s) (recoveryEmail s) (tenant s)
    (role s) (isAdmin s) (name s) (loading s) (error s) (mfaEnabled s) (mfaToken s) (mfaRecoveryExpiry s).

(** token, user, id, email, tenant, name and admin of a reply. *)
Definition set_identity (d : UserData) (s : AuthState) : AuthState :=
  mkAuth (Some (ud_token d)) (Some (ud_user d)) (Some (ud_id d)) (Some (ud_email d)) (username s)
    (origin s) (recoveryEmail s) (Some (ud_tenant d)) (role s) (default false (ud_admin d))
    (Some (ud_name d)) (loading s) (error s) (mfaEnabled s) (mfaToken s) (mfaRecoveryExpiry s).

(** The same but the token, with the origin ([loginWithToken]). *)
Definition set_user_info (d : UserData) (s : AuthState) : AuthState :=
  mkAuth (token s) (Some (ud_user d)) (Some (ud_id d)) (Some (ud_email d)) (username s)
    (ud_origin d) (recoveryEmail s) (Some (ud_tenant d)) (role s) (default false (ud_admin d))
    (Some (ud_name d)) (loading s) (error s) (default false (ud_mfa d)) (mfaToken s) (mfaRecoveryExpiry s).

(** [fetchUser]: also the username and the recovery e-mail. *)
Definition set_fetched (d : UserData) (s : AuthState) : AuthState :=
  mkAuth (token s) (Some (ud_user d)) (Some (ud_id d)) (Some (ud_email d)) (Some (ud_user d))
    (ud_origin d) (ud_recovery_email d) (Some (ud_tenant d)) (role s) (default false (ud_admin d))
    (Some (ud_name d)) (loading s) (error s) (default false (ud_mfa d)) (mfaToken s) (mfaRecoveryExpiry s).

Definition set_recovery_expiry (z : option Z) (s : AuthState) : AuthState :=
  mkAuth (token s) (user s) (userId s) (email s) (username s) (origin s) (recoveryEmail s) (tenant s)
    (role s) (isAdmin s) (name s) (loading s) (error s) (mfaEnabled s) (mfaToken s) z.

Definition set_namespace (t tn : jsstring) (r : option Role) (s : AuthState) : AuthState :=
  mkAuth (Some t) (user s) (userId s) (email s) (username s) (origin s) (recoveryEmail s) (Some tn)
    (match r with Some r => Some r | None => role s end) (isAdmin s) (name s) (loading s) (error s)
    (mfaEnabled s) (mfaToken s) (mfaRecoveryExpiry s).

(** ** What survives a reload *)

Definition json_opt (o : option jsstring) : json := match o with Some s => JStr s | None => JNull end.

(** [partialize] *)
Definition partialize (s : AuthState) : json :=
  JObj [(js "token", json_opt (token s)); (js "user", json_opt (user s));
        (js "userId", json_opt (userId s)); (js "email", json_opt (email s));
        (js "origin", json_opt (origin_name <$> origin s)); (js "tenant", json_opt (tenant s));
        (js "role", json_opt (role_name <$> role s)); (js "isAdmin", JBool (isAdmin s));
        (js "name", json_opt (name s)); (js "mfaEnabled", JBool (mfaEnabled s))].

(** ** isTokenExpired (api/fetchInterceptors.ts) *)

(** [a * 1000 < now] for a number [a]; false for NaN. *)
Definition before_now (a : jsnum) (now : Z) : bool :=
  match a with
  | NaN => false
  | Inf neg => neg
  | Dec m k => m * 1000 <? now * 10 ^ Z.of_nat k
  end.

Definition isTokenExpired (now : Z) (t : jsstring) : bool :=
  let segment := default (js "undefined") (split t 46 !! 1%nat) in
  match b64_decode segment with
  | None => true
  | Some bytes =>
      match parse bytes with
      | None => true
      | Some (JObj l) =>
          match assoc (js "exp") l with
          | Some (JNum exp) => before_now exp now
          | _ => false
          end
      | Some _ => false
      end
  end.

(** ** The expiry check on the server's tokens

    A JSON web token is [header.payload.signature], the payload being the
    base64url encoding, without padding, of a JSON text. *)

#[local] Open Scope N_scope.

Definition b64url (bs : list N) : jsstring := map url_char (b64_digits bs).

Definition jwt (header : jsstring) (payload : json) (signature : jsstring) : jsstring :=
  header ++ 46 :: b64url (stringify payload) ++ 46 :: signature.

(** The digits base64url writes differently from base64. *)
Definition needs_url (c : N) : bool := (c =? 43) || (c =? 47).

Lemma b64_char_cases v : v < 64 → needs_url (b64_char v) = true ∨ url_char (b64_char v) = b64_char v.
Proof.
  intros _. unfold needs_url, url_char. destruct (N.eqb_spec (b64_char v) 43); [by left|].
  destruct (N.eqb_spec (b64_char v) 47); [by left|]. by right.
Qed.

Lemma url_char_alphabet v : v < 64 → is_ascii_ws (url_char (b64_char v)) = false
  ∧ url_char (b64_char v) ≠ 61 ∧ url_char (b64_char v) ≠ 46.
Proof.
  intros H. destruct (b64_char_alphabet v H) as [H1 H2]. unfold url_char.
  destruct (N.eqb_spec (b64_char v) 43); [done|]. destruct (N.eqb_spec (b64_char v) 47); [done|].
  split; [done|]. split; [done|]. unfold b64_char.
  repeat case_match; rewrite ?N.ltb_lt, ?N.ltb_ge, ?N.eqb_eq, ?N.eqb_neq in *; lia.
Qed.

Lemma strip_padding_none s : Forall (λ c, c ≠ 61) s → strip_padding s = s.
Proof.
  intros H%Forall_reverse. unfold strip_padding. destruct (negb _); [done|].
  destruct (reverse s) as [|p [|q r]]; [done..|]. apply Forall_cons in H as [Hp _].
  by rewrite (proj2 (N.eqb_neq p 61)).
Qed.

Lemma mapM_b64_url vs : Forall (λ v, v < 64) vs →
  mapM b64_value (map url_char (map b64_char vs)) =
    if existsb needs_url (map b64_char vs) then None else Some vs.
Proof.
  induction 1 as [|v vs Hv Hvs IH]; [done|]. cbn [map existsb mapM].
  destruct (b64_char_cases v Hv) as [Hu|Hu].
  - rewrite Hu. unfold url_char, needs_url in *. apply orb_true_iff in Hu as [->|Hu]; [done|].
    destruct (b64_char v =? 43); [done|]. by rewrite Hu.
  - rewrite Hu. destruct (needs_url (b64_char v)) eqn:E.
    + exfalso. revert Hu E. unfold url_char, needs_url.
      destruct (N.eqb_spec (b64_char v) 43) as [->|]; [done|].
      destruct (N.eqb_spec (b64_char v) 47) as [->|]; done.
    + rewrite b64_char_value by done. simpl. rewrite IH. by destruct (existsb _ _).
Qed.

Lemma b64_decode_url bs : Forall is_byte bs →
  b64_decode (b64url bs) = if existsb needs_url (b64_digits bs) then None else Some bs.
Proof.
  intros Hb. pose proof (sextets_lt bs Hb) as Hv. unfold b64_decode, b64url. rewrite b64_digits_sextets.
  rewrite List_filter_id, strip_padding_none.
  - rewrite mapM_b64_url by done. destruct (existsb _ _); [done|]. by apply sextets_groups.
  - rewrite map_map. apply Forall_map. eapply Forall_impl; [exact Hv|]. intros v H. by apply url_char_alphabet.
  - rewrite map_map. apply Forall_map. eapply Forall_impl; [exact Hv|]. intros v H.
    by destruct (url_char_alphabet v H) as [-> _].
Qed.

Lemma b64url_no_dot bs : Forall is_byte bs → 46 ∉ b64url bs.
Proof.
  intros Hb H. unfold b64url in H. rewrite b64_digits_sextets, map_map in H.
  apply list_elem_of_In, in_map_iff in H as (v & Hv & Hin). apply list_elem_of_In in Hin.
  pose proof (sextets_lt bs Hb) as Hs. rewrite Forall_forall in Hs. by apply (url_char_alphabet v (Hs v Hin)).
Qed.

(** On a token of the server, whose payload is the base64url text of an ASCII
    JSON object, the check is exact: expired means that the [exp] claim, in
    seconds, is before the current time in milliseconds (a token without [exp]
    never expires), except that a payload whose encoding uses one of the two
    digits in which base64url differs from base64 is always taken for expired,
    because [atob] only knows base64. *)
Theorem isTokenExpired_exact (now : Z) (header signature : jsstring) (claims : list (jsstring * json))
    (Hheader : 46 ∉ header) (Hwf : json_wf (JObj claims) = true)
    (Hascii : Forall (λ c, c < 128) (stringify (JObj claims))) :
  isTokenExpired now (jwt header (JObj claims) signature) =
    existsb needs_url (b64_digits (stringify (JObj claims))) ||
    match assoc (js "exp") claims with Some (JNum exp) => before_now exp now | _ => false end.
Proof.
  assert (Forall is_byte (stringify (JObj claims))) as Hb
    by (eapply Forall_impl; [exact Hascii|]; unfold is_byte; intros; lia).
  unfold isTokenExpired, jwt. rewrite split_sep by done.
  rewrite split_sep by (by apply b64url_no_dot).
  match goal with |- context [ default ?d ((?a :: ?b :: ?c) !! 1%nat) ] =>
    change (default d ((a :: b :: c) !! 1%nat)) with b end. cbn zeta.
  rewrite b64_decode_url by done. destruct (existsb _ _); [done|]. by rewrite parse_stringify.
Qed.

Lemma isTokenExpired_exact_witness :
  isTokenExpired 1700000000001 (jwt (js "h") (JObj [(js "exp", JNum (Dec 1700000000 0))]) (js "s")) = true ∧
  isTokenExpired 1700000000000 (jwt (js "h") (JObj [(js "exp", JNum (Dec 1700000000 0))]) (js "s")) = false ∧
  isTokenExpired 0 (jwt (js "h") (JObj [(js "name", JStr (js "a~a~a~"))]) (js "s")) = true.
Proof.
  split; [|split]; (rewrite isTokenExpired_exact;
    [vm_compute; reflexivity
    |apply (bool_decide_unpack _); vm_compute; exact I
    |vm_compute; reflexivity
    |apply Forall_ltb; vm_compute; reflexivity]).
Defined.
