(* ===== verification/ListParams.v ===== *)
(** * The URL state of paginated lists (hooks/paginatedListParams.ts, hooks/usePaginatedListState.ts)

    A list page keeps its page, search, sort and filters in the query string.
    [URLSearchParams] is the ordered list of its entries.  A parameter object is
    the list of its members in the order of the defaults; its values are numbers,
    strings and arrays of strings.

    Theorems: what an update writes is what the next render shows, for the whole
    parameter object, up to the order of an array the render before showed; the
    entries of the URL that the instance does not manage, other instances
    included, are left as they are. *)

From Stdlib Require Import Wf_nat.
From S2P Require Import Prelude JsString JsJson.

(** ** URLSearchParams *)

Notation URLSearchParams := (list (jsstring * jsstring)).

(** The conversion to well-formed strings that [URLSearchParams] applies to what
    it is given: a lone surrogate becomes U+FFFD.  It is applied to values; names
    are literals of the pages, which the conversion leaves as they are. *)
Fixpoint toWellFormed (s : jsstring) : jsstring :=
  match s with
  | [] => []
  | c :: r =>
      if is_high_surrogate c then
        match r with
        | d :: r' => if is_low_surrogate d then c :: d :: toWellFormed r' else 65533%N :: toWellFormed r
        | [] => [65533%N]
        end
      else if is_low_surrogate c then 65533%N :: toWellFormed r
      else c :: toWellFormed r
  end.

Definition sp_getAll (sp : URLSearchParams) (k : jsstring) : list jsstring :=
  map snd (List.filter (λ kv, bool_decide (kv.1 = k)) sp).
Definition sp_get (sp : URLSearchParams) (k : jsstring) : option jsstring := head (sp_getAll sp k).
Definition sp_append (sp : URLSearchParams) (k v : jsstring) : URLSearchParams := sp ++ [(k, toWellFormed v)].
Definition sp_delete (sp : URLSearchParams) (k : jsstring) : URLSearchParams :=
  List.filter (λ kv, negb (bool_decide (kv.1 = k))) sp.
(** [set]: the first entry takes the value, the others go; appended if absent. *)
Fixpoint sp_set (sp : URLSearchParams) (k v : jsstring) : URLSearchParams :=
  match sp with
  | [] => [(k, toWellFormed v)]
  | kv :: r => if bool_decide (kv.1 = k) then (k, toWellFormed v) :: sp_delete r k else kv :: sp_set r k v
  end.

(** ** Parameter objects *)

Inductive pvalue :=
  | PNum (n : Z)
  | PStr (s : jsstring)
  | PArr (l : list jsstring).
#[export] Instance pvalue_eq_dec : EqDecision pvalue.
Proof. solve_decision. Defined.

Notation params := (list (jsstring * pvalue)).

Inductive allowlist := AllowNums (l : list Z) | AllowStrs (l : list jsstring).
Notation constraints := (list (jsstring * allowlist)).

Definition allows_num (a : option allowlist) (n : Z) : bool :=
  match a with
  | None => true
  | Some (AllowNums l) => bool_decide (n ∈ l)
  | Some (AllowStrs _) => false
  end.
Definition allows_str (a : option allowlist) (s : jsstring) : bool :=
  match a with
  | None => true
  | Some (AllowStrs l) => bool_decide (s ∈ l)
  | Some (AllowNums _) => false
  end.

(** [String(value)]; [undefined] for a missing member.  Integers are printed
    without exponent, as the language does below 10^21. *)
Definition pvalue_string (v : option pvalue) : jsstring :=
  match v with
  | Some (PNum n) => Z_to_string n
  | Some (PStr s) => s
  | Some (PArr l) => join (js ",") l
  | None => js "undefined"
  end.

(** ** paginatedListParams.ts *)

Definition parsePositiveInt (raw : option jsstring) : option Z :=
  match raw with
  | None => None
  | Some raw =>
      match Number raw with
      | Dec n O => if n <=? 0 then None else Some n
      | _ => None
      end
  end.

(** [[...new Set(l)]] *)
Fixpoint uniq_from (seen l : list jsstring) : list jsstring :=
  match l with
  | [] => []
  | x :: r => if bool_decide (x ∈ seen) then uniq_from seen r else x :: uniq_from (x :: seen) r
  end.
Definition uniq (l : list jsstring) : list jsstring := uniq_from [] l.

Definition PAGE : jsstring := js "page".

(** The body of the loop of [parseListParams]; [prev] is the member of the
    previous result. *)
Definition parse_dimension (sp : URLSearchParams) (c : constraints) (prev : option pvalue)
    (key : jsstring) (defaultValue : pvalue) : pvalue :=
  match defaultValue with
  | PArr _ =>
      let all := sp_getAll sp key in
      let values := uniq (List.filter (allows_str (assoc key c)) all) in
      match prev with
      | Some (PArr prevArr) =>
          if bool_decide (length prevArr = length values) && forallb (λ v, bool_decide (v ∈ prevArr)) values
          then PArr prevArr else PArr values
      | _ => PArr values
      end
  | _ =>
      if bool_decide (key = PAGE) then
        match parsePositiveInt (sp_get sp key) with Some n => PNum n | None => defaultValue end
      else
        match defaultValue with
        | PNum _ =>
            match parsePositiveInt (sp_get sp key) with
            | None => defaultValue
            | Some n => if negb (allows_num (assoc key c) n) then defaultValue else PNum n
            end
        | _ =>
            match sp_get sp key with
            | None => defaultValue
            | Some raw => if negb (allows_str (assoc key c) raw) then defaultValue else PStr raw
            end
        end
  end.

Definition parseListParams (sp : URLSearchParams) (defaults : params) (c : constraints)
    (prev : option params) : params :=
  map (λ kv, (kv.1, parse_dimension sp c (prev ≫= assoc kv.1) kv.1 kv.2)) defaults.

(** The body of the loop of [serializeListParams]. *)
Definition serialize_dimension (value : params) (sp : URLSearchParams) (kv : jsstring * pvalue) : URLSearchParams :=
  let current := assoc kv.1 value in
  match current with
  | Some (PArr currentArr) =>
      if bool_decide (PArr currentArr = kv.2) then sp
      else fold_left (λ sp item, sp_append sp kv.1 item) currentArr sp
  | _ =>
      if bool_decide (current = Some kv.2) then sp
      else sp_set sp kv.1 (pvalue_string current)
  end.

Definition serializeListParams (value defaults : params) : URLSearchParams :=
  fold_left (serialize_dimension value) defaults [].

(** ** usePaginatedListState.ts *)

Record SortFieldDef := mkSortField { sort_field : jsstring; initialOrder : jsstring }.

Definition prefixKey (key : jsstring) (prefix : option jsstring) : jsstring :=
  if is_truthy prefix then default [] prefix ++ js "." ++ key else key.

Definition stripPrefix (full : URLSearchParams) (defaults : params) (prefix : option jsstring) : URLSearchParams :=
  if negb (is_truthy prefix) then full
  else fold_left (λ stripped kv,
         fold_left (λ sp v, sp_append sp kv.1 v) (sp_getAll full (prefixKey kv.1 prefix)) stripped) defaults [].

(** [{ ...current, ...patch }] *)
Fixpoint obj_put (k : jsstring) (v : pvalue) (l : params) : params :=
  match l with
  | [] => [(k, v)]
  | (k', v') :: r => if bool_decide (k' = k) then (k, v) :: r else (k', v') :: obj_put k v r
  end.
Definition spread (current patch : params) : params :=
  fold_left (λ l kv, obj_put kv.1 kv.2 l) patch current.

(** Delete and re-add the managed keys. *)
Definition write_back (prev : URLSearchParams) (defaults : params) (prefix : option jsstring)
    (serialized : URLSearchParams) : URLSearchParams :=
  fold_left (λ next kv,
    let urlKey := prefixKey kv.1 prefix in
    fold_left (λ next v, sp_append next urlKey v) (sp_getAll serialized kv.1) (sp_delete next urlKey))
    defaults prev.

Section Hook.
Variables (defaults : params) (cs : constraints) (sortFields : option (list SortFieldDef))
  (prefix : option jsstring).

(** What a render shows: [paramsRef] holds what the render before showed, whose
    arrays are reused. *)
Definition render_params (paramsRef : option params) (url : URLSearchParams) : params :=
  parseListParams (stripPrefix url defaults prefix) defaults cs paramsRef.

(** What a state updater reads from the URL it is given. *)
Definition current_params (url : URLSearchParams) : params :=
  parseListParams (stripPrefix url defaults prefix) defaults cs None.

(** The state updater of [update]. *)
Definition update (patch : params) (prev : URLSearchParams) : URLSearchParams :=
  let merged := spread (current_params prev) patch in
  write_back prev defaults prefix (serializeListParams merged defaults).

(** [defaults.page]; the member is absent when the list has no pages. *)
Definition reset_page : params :=
  match assoc PAGE defaults with Some v => [(PAGE, v)] | None => [] end.

Definition setPage (page : Z) : URLSearchParams → URLSearchParams := update [(PAGE, PNum page)].
Definition setSearch (search : jsstring) : URLSearchParams → URLSearchParams :=
  update ((js "search", PStr search) :: reset_page).
Definition setFilter (key : jsstring) (value : pvalue) : URLSearchParams → URLSearchParams :=
  update ((key, value) :: reset_page).
Definition setArrayFilter (key : jsstring) (values : list jsstring) : URLSearchParams → URLSearchParams :=
  update ((key, PArr values) :: reset_page).
Definition mapArrayFilter (key : jsstring) (fn : option pvalue → pvalue) (prev : URLSearchParams) : URLSearchParams :=
  let current := current_params prev in
  let merged := spread current ((key, fn (assoc key current)) :: reset_page) in
  write_back prev defaults prefix (serializeListParams merged defaults).
Definition handleSort (field : jsstring) (prev : URLSearchParams) : URLSearchParams :=
  let current := current_params prev in
  let currentField := assoc (js "sortField") current in
  let currentOrder := assoc (js "sortOrder") current in
  let nextOrder :=
    if bool_decide (Some (PStr field) = currentField)
    then if bool_decide (currentOrder = Some (PStr (js "asc"))) then js "desc" else js "asc"
    else match sortFields ≫= find (λ f, bool_decide (sort_field f = field)) with
         | Some f => initialOrder f
         | None => js "asc"
         end in
  let merged := spread current ((js "sortField", PStr field) :: (js "sortOrder", PStr nextOrder) :: reset_page) in
  write_back prev defaults prefix (serializeListParams merged defaults).
Definition reset : URLSearchParams → URLSearchParams := update defaults.

End Hook.

(** ** Facts on entries *)

Lemma getAll_app a b k : sp_getAll (a ++ b) k = sp_getAll a k ++ sp_getAll b k.
Proof. unfold sp_getAll. by rewrite List.filter_app, map_app. Qed.

Lemma getAll_one k v k' : sp_getAll [(k, v)] k' = if bool_decide (k = k') then [v] else [].
Proof. unfold sp_getAll. simpl. by case_bool_decide. Qed.

Lemma getAll_appends l sp k k' :
  sp_getAll (fold_left (λ sp v, sp_append sp k v) l sp) k' =
    sp_getAll sp k' ++ (if bool_decide (k = k') then map toWellFormed l else []).
Proof.
  revert sp. induction l as [|v l IH]; intros sp; simpl.
  - case_bool_decide; by rewrite app_nil_r.
  - rewrite IH. unfold sp_append. rewrite getAll_app, getAll_one, <-app_assoc. by case_bool_decide.
Qed.

Lemma getAll_delete sp k k' :
  sp_getAll (sp_delete sp k) k' = if bool_decide (k = k') then [] else sp_getAll sp k'.
Proof.
  unfold sp_getAll, sp_delete. induction sp as [|[x v] sp IH]; simpl; [by case_bool_decide|].
  destruct (decide (x = k)) as [->|Hx].
  - rewrite (bool_decide_eq_true_2 (k = k)) by done. simpl. rewrite IH. by case_bool_decide.
  - rewrite (bool_decide_eq_false_2 (x = k)) by done. simpl. destruct (decide (x = k')) as [->|Hx'].
    + rewrite !(bool_decide_eq_true_2 (k' = k')), (bool_decide_eq_false_2 (k = k')) by congruence. simpl.
      rewrite IH. by rewrite bool_decide_eq_false_2 by congruence.
    + by rewrite !(bool_decide_eq_false_2 (x = k')) by done.
Qed.

Lemma getAll_set sp k v k' :
  sp_getAll (sp_set sp k v) k' = if bool_decide (k = k') then [toWellFormed v] else sp_getAll sp k'.
Proof.
  induction sp as [|[x w] sp IH]; simpl; [by rewrite getAll_one|].
  destruct (decide (x = k)) as [->|Hx].
  - rewrite (bool_decide_eq_true_2 (k = k)) by done.
    change ((k, toWellFormed v) :: sp_delete sp k) with ([(k, toWellFormed v)] ++ sp_delete sp k).
    change ((k, w) :: sp) with ([(k, w)] ++ sp). rewrite !getAll_app, !getAll_one, getAll_delete.
    by case_bool_decide.
  - rewrite (bool_decide_eq_false_2 (x = k)) by done.
    change ((x, w) :: sp_set sp k v) with ([(x, w)] ++ sp_set sp k v).
    change ((x, w) :: sp) with ([(x, w)] ++ sp). rewrite !getAll_app, !getAll_one, IH.
    destruct (decide (k = k')) as [<-|Hk].
    + by rewrite (bool_decide_eq_false_2 (x = k)), bool_decide_eq_true_2 by done.
    + by rewrite (bool_decide_eq_false_2 (k = k')) by done.
Qed.

(** ** Well-formed strings *)

Notation wf_string s := (toWellFormed s = s).

Lemma toWellFormed_idem s : wf_string (toWellFormed s).
Proof.
  induction s as [s IH] using (induction_ltof1 _ length). unfold ltof in IH.
  destruct s as [|c r]; [done|]. simpl.
  assert (∀ r', length r' < length (c :: r) → toWellFormed (65533%N :: toWellFormed r') = 65533%N :: toWellFormed r')%nat as Hrep.
  { intros r' Hr. simpl. by rewrite IH. }
  destruct (is_high_surrogate c) eqn:Hh; [destruct r as [|d r']; [done|]; destruct (is_low_surrogate d) eqn:Hd|].
  - simpl. rewrite Hh, Hd, IH by (simpl; lia). done.
  - apply Hrep. simpl; lia.
  - destruct (is_low_surrogate c) eqn:Hl; [apply Hrep; simpl; lia|]. simpl. rewrite Hh, Hl, IH by (simpl; lia). done.
Qed.

Lemma toWellFormed_ascii s : Forall (λ c, c < 128)%N s → wf_string s.
Proof.
  induction 1 as [|c s Hc Hs IH]; [done|]. simpl.
  assert (is_high_surrogate c = false) as -> by (apply not_true_iff_false; unfold is_high_surrogate; rewrite in_range_spec; lia).
  assert (is_low_surrogate c = false) as -> by (apply not_true_iff_false; unfold is_low_surrogate; rewrite in_range_spec; lia).
  by rewrite IH.
Qed.

Lemma Z_to_string_wf n : wf_string (Z_to_string n).
Proof.
  apply toWellFormed_ascii. destruct (Z_to_string_shape n) as (neg & ds & -> & -> & _). apply Forall_app. split.
  - destruct neg; repeat constructor.
  - eapply Forall_impl; [apply digitsN_digits|]. simpl. intros c. rewrite is_digit_spec. lia.
Qed.

Lemma map_toWellFormed_idem l : map toWellFormed (map toWellFormed l) = map toWellFormed l.
Proof. rewrite map_map. apply map_ext, toWellFormed_idem. Qed.

Lemma map_toWellFormed_id l : Forall (λ s, wf_string s) l → map toWellFormed l = l.
Proof. induction 1 as [|s l Hs Hl IH]; simpl; [done|]. by rewrite Hs, IH. Qed.

(** The entries of a [URLSearchParams] are well formed. *)
Definition wf_url (url : URLSearchParams) : Prop := Forall (λ kv, wf_string kv.2) url.

Lemma getAll_wf url k : wf_url url → Forall (λ s, wf_string s) (sp_getAll url k).
Proof.
  intros H. unfold sp_getAll. apply Forall_forall. intros v Hv.
  apply list_elem_of_In, in_map_iff in Hv as ([k' w] & <- & Hin). apply filter_In in Hin as [Hin _].
  unfold wf_url in H. rewrite Forall_forall in H. by apply (H (k', w)), list_elem_of_In.
Qed.

(** ** Prefixes *)

Lemma prefixKey_inj p k k' : prefixKey k p = prefixKey k' p → k = k'.
Proof.
  unfold prefixKey. destruct (is_truthy p); [|done]. intros H. apply app_inv_head in H.
  by apply app_inv_head in H.
Qed.

Lemma last_dot a b k k' : (46%N ∉ k) → (46%N ∉ k') → a ++ 46%N :: k = b ++ 46%N :: k' → a = b ∧ k = k'.
Proof.
  intros Hk Hk'. revert b. induction a as [|x a IH]; intros [|y b] E; simplify_eq/=.
  - done.
  - exfalso. apply Hk, elem_of_app. right. left.
  - exfalso. apply Hk', elem_of_app. right. left.
  - apply IH in H0 as [-> ->]. done.
Qed.

(** Two instances: a different prefix, or a prefix and none. *)
Definition same_prefix (p q : option jsstring) : Prop :=
  (is_truthy p = false ∧ is_truthy q = false) ∨ p = q.

Lemma prefixKey_disjoint p q k k' : ¬ same_prefix p q → 46%N ∉ k → 46%N ∉ k' → prefixKey k p ≠ prefixKey k' q.
Proof.
  unfold same_prefix, prefixKey. intros Hpq Hk Hk'.
  destruct (is_truthy p) eqn:Ep, (is_truthy q) eqn:Eq; change (js ".") with [46%N]; cbn [app].
  - intros [E _]%last_dot; [|done..]. destruct p, q; cbn in *; try done. apply Hpq. right. congruence.
  - intros E. apply Hk'. rewrite <-E. apply elem_of_app. right. left.
  - intros E. apply Hk. rewrite E. apply elem_of_app. right. left.
  - exfalso. apply Hpq. by left.
Qed.

(** ** The entries of each key *)

Lemma getAll_strip_fold full prefix (defs : params) acc key : NoDup (map fst defs) → key ∈ map fst defs →
  sp_getAll (fold_left (λ stripped kv,
    fold_left (λ sp v, sp_append sp kv.1 v) (sp_getAll full (prefixKey kv.1 prefix)) stripped) defs acc) key
  = sp_getAll acc key ++ map toWellFormed (sp_getAll full (prefixKey key prefix)).
Proof.
  assert (∀ (defs : params) acc, key ∉ map fst defs →
    sp_getAll (fold_left (λ stripped (kv : jsstring * pvalue),
      fold_left (λ sp v, sp_append sp kv.1 v) (sp_getAll full (prefixKey kv.1 prefix)) stripped) defs acc) key
    = sp_getAll acc key) as Hout.
  { clear. induction defs as [|[k d] defs IH]; intros acc H; simpl; [done|]. simpl in H.
    apply not_elem_of_cons in H as [Hk H]. rewrite IH, getAll_appends by done.
    rewrite bool_decide_eq_false_2 by done. by rewrite app_nil_r. }
  revert acc. induction defs as [|[k d] defs IH]; intros acc Hnd Hin; simpl in *.
  - by apply not_elem_of_nil in Hin.
  - apply NoDup_cons in Hnd as [Hk Hnd]. apply elem_of_cons in Hin as [->|Hin].
    + rewrite Hout, getAll_appends by done. by rewrite bool_decide_eq_true_2.
    + rewrite IH, getAll_appends by done. rewrite bool_decide_eq_false_2 by congruence. by rewrite app_nil_r.
Qed.

Lemma getAll_strip full (defs : params) prefix key : NoDup (map fst defs) → key ∈ map fst defs →
  sp_getAll (stripPrefix full defs prefix) key =
    (if is_truthy prefix then map toWellFormed else id) (sp_getAll full (prefixKey key prefix)).
Proof.
  intros Hnd Hin. unfold stripPrefix. destruct (is_truthy prefix) eqn:E; simpl.
  - by rewrite getAll_strip_fold.
  - unfold prefixKey. by rewrite E.
Qed.

Lemma getAll_write_back (defs : params) prefix ser prev k : NoDup (map fst defs) →
  (∀ key, key ∈ map fst defs → k = prefixKey key prefix →
     sp_getAll (write_back prev defs prefix ser) k = map toWellFormed (sp_getAll ser key)) ∧
  ((∀ key, key ∈ map fst defs → k ≠ prefixKey key prefix) →
     sp_getAll (write_back prev defs prefix ser) k = sp_getAll prev k).
Proof.
  unfold write_back. revert prev. induction defs as [|[x d] defs IH]; intros prev Hnd; simpl.
  - split; [|done]. intros key H. by apply not_elem_of_nil in H.
  - simpl in Hnd. apply NoDup_cons in Hnd as [Hx Hnd]. split.
    + intros key Hin ->. apply elem_of_cons in Hin as [->|Hin].
      * rewrite (proj2 (IH _ Hnd)).
        -- rewrite getAll_appends, getAll_delete, !bool_decide_eq_true_2 by done. done.
        -- intros key Hkey E%prefixKey_inj. congruence.
      * by apply (proj1 (IH _ Hnd)).
    + intros H. rewrite (proj2 (IH _ Hnd)).
      * rewrite getAll_appends, getAll_delete, !bool_decide_eq_false_2, app_nil_r; [done|..];
          apply not_eq_sym, H; left.
      * intros key Hkey. apply H. by right.
Qed.

(** The values written for a dimension. *)
Definition dim_values (current : option pvalue) (d : pvalue) : list jsstring :=
  match current with
  | Some (PArr l) => if bool_decide (PArr l = d) then [] else map toWellFormed l
  | _ => if bool_decide (current = Some d) then [] else [toWellFormed (pvalue_string current)]
  end.

Lemma getAll_serialize_dimension value sp k d key :
  sp_getAll (serialize_dimension value sp (k, d)) key =
    if bool_decide (k = key) then
      match assoc k value with
      | Some (PArr l) => sp_getAll sp key ++ dim_values (Some (PArr l)) d
      | cur => if bool_decide (cur = Some d) then sp_getAll sp key else [toWellFormed (pvalue_string cur)]
      end
    else sp_getAll sp key.
Proof.
  unfold serialize_dimension, dim_values. simpl.
  destruct (assoc k value) as [[n|s|l]|]; case_bool_decide as E; rewrite ?getAll_set, ?getAll_appends;
    destruct (decide (k = key)) as [<-|Hk];
    rewrite ?(bool_decide_eq_true_2 (k = k)), ?(bool_decide_eq_false_2 (k = key)) by done;
    rewrite ?(bool_decide_eq_true_2 _ E), ?(bool_decide_eq_false_2 _ E), ?app_nil_r; done.
Qed.

Lemma getAll_serialize value defs key d : NoDup (map fst defs) → (key, d) ∈ defs →
  sp_getAll (serializeListParams value defs) key = dim_values (assoc key value) d.
Proof.
  unfold serializeListParams.
  assert (∀ (defs : params) acc, key ∉ map fst defs →
    sp_getAll (fold_left (serialize_dimension value) defs acc) key = sp_getAll acc key) as Hout.
  { clear. induction defs as [|[k d] defs IH]; intros acc H; simpl; [done|]. simpl in H.
    apply not_elem_of_cons in H as [Hk H]. rewrite IH, getAll_serialize_dimension by done.
    by rewrite bool_decide_eq_false_2. }
  assert (∀ acc, sp_getAll acc key = [] → NoDup (map fst defs) → (key, d) ∈ defs →
    sp_getAll (fold_left (serialize_dimension value) defs acc) key = dim_values (assoc key value) d) as H.
  2: { intros. by apply H. }
  induction defs as [|[k d'] defs IH]; intros acc Hacc Hnd Hin; simpl in *.
  - by apply not_elem_of_nil in Hin.
  - apply NoDup_cons in Hnd as [Hk Hnd]. apply elem_of_cons in Hin as [[= <- <-]|Hin].
    + rewrite Hout, getAll_serialize_dimension, bool_decide_eq_true_2 by done.
      unfold dim_values. destruct (assoc key value) as [[| |]|]; rewrite Hacc; try done;
        by case_bool_decide.
    + apply IH; [|done..]. rewrite getAll_serialize_dimension, bool_decide_eq_false_2; [done|].
      intros ->. apply Hk. apply list_elem_of_In, in_map_iff. exists (key, d). split; [done|]. by apply list_elem_of_In.
Qed.

Lemma dim_values_wf cur d : map toWellFormed (dim_values cur d) = dim_values cur d.
Proof.
  unfold dim_values. destruct cur as [[| |]|]; case_bool_decide; simpl; try done;
    by rewrite ?toWellFormed_idem, ?map_toWellFormed_idem.
Qed.

(** ** Reading back what was written *)

Lemma dec_norm_integer m k n : dec_norm m k = Dec n 0 → m = n * 10 ^ Z.of_nat k.
Proof.
  revert m. induction k as [|k IH]; intros m; cbn [dec_norm]; [intros [= <-]; lia|].
  destruct (Z.eqb_spec (m mod 10) 0) as [E|]; [|done]. intros H%IH.
  rewrite Nat2Z.inj_succ, Z.pow_succ_r by lia. zlia.
Qed.

Lemma mk_num_integer_bound m e n : mk_num m e = Dec n 0 → Z.abs n < overflow_bound.
Proof.
  unfold mk_num. set (k := Z.to_nat (- e)). case_match eqn:E; [done|]. intros H%dec_norm_integer.
  rewrite H, Z.abs_mul in E. apply Z.leb_gt in E.
  rewrite (Z.abs_eq (10 ^ Z.of_nat k)) in E by (apply Z.pow_nonneg; lia).
  apply Z.mul_lt_mono_pos_r in E; [done|]. apply Z.pow_pos_nonneg; lia.
Qed.

Lemma Number_bound s n : Number s = Dec n 0 → Z.abs n < overflow_bound.
Proof.
  assert (0 < overflow_bound) as H0 by (by vm_compute).
  unfold Number. case_bool_decide; [intros [= <-]; done|].
  destruct (radix_prefix _) as [[[base ok] r]|].
  - unfold read_radix. case_bool_decide; [done|]. case_match; [|done]. apply mk_num_integer_bound.
  - destruct (read_sign _) as [neg u]. case_bool_decide; [done|].
    destruct (read_decimal u) as [[[m e] [|]]|]; [|done..]. apply mk_num_integer_bound.
Qed.

Lemma parsePositiveInt_spec raw n : parsePositiveInt raw = Some n → 0 < n < overflow_bound.
Proof.
  destruct raw as [raw|]; [|done]. simpl. destruct (Number raw) as [| |m [|k]] eqn:E; try done.
  apply Number_bound in E. destruct (Z.leb_spec m 0); [done|]. intros [= <-]. lia.
Qed.

Lemma parsePositiveInt_print n : 0 < n < overflow_bound → parsePositiveInt (Some (Z_to_string n)) = Some n.
Proof.
  intros Hn. unfold parsePositiveInt. rewrite Number_Z_to_string by (rewrite Z.abs_eq; lia).
  by rewrite (proj2 (Z.leb_gt _ _)) by lia.
Qed.

Lemma uniq_from_spec l seen :
  NoDup (uniq_from seen l) ∧ Forall (λ x, x ∉ seen ∧ x ∈ l) (uniq_from seen l).
Proof.
  revert seen. induction l as [|x l IH]; intros seen; simpl; [split; [apply NoDup_nil_2|apply Forall_nil_2]|].
  case_bool_decide as E.
  - destruct (IH seen) as [H1 H2]. split; [done|]. eapply Forall_impl; [exact H2|]. simpl. intros y [? ?].
    split; [done|]. by right.
  - destruct (IH (x :: seen)) as [H1 H2]. rewrite Forall_forall in H2. split.
    + apply NoDup_cons. split; [|done]. intros H. apply H2 in H as [H _]. apply H. left.
    + apply Forall_cons. split; [split; [done|left]|]. apply Forall_forall. intros y Hy.
      apply H2 in Hy as [Hy ?]. apply not_elem_of_cons in Hy as [_ ?]. split; [done|]. by right.
Qed.

Lemma uniq_from_id l seen : NoDup l → (∀ x, x ∈ l → x ∉ seen) → uniq_from seen l = l.
Proof.
  intros Hl. revert seen. induction Hl as [|x l Hx Hl IH]; intros seen H; simpl; [done|].
  rewrite bool_decide_eq_false_2 by (apply H; left). f_equal. apply IH. intros y Hy.
  apply not_elem_of_cons. split; [by intros ->|]. apply H. by right.
Qed.

(** Defaults the URL can represent: an absent array is read as the empty one,
    whatever its default, and the page is a number. *)
Definition wf_default (kd : jsstring * pvalue) : Prop :=
  match kd.2 with
  | PArr l => l = []
  | PNum _ => True
  | PStr _ => kd.1 ≠ PAGE
  end.

(** Values of a dimension that its constraints accept. *)
Definition valid (c : constraints) (key : jsstring) (d v : pvalue) : Prop :=
  match d, v with
  | PArr _, PArr l => NoDup l ∧ Forall (λ s, wf_string s ∧ allows_str (assoc key c) s = true) l
  | PNum m, PNum n => n = m ∨ (0 < n < overflow_bound ∧ (key = PAGE ∨ allows_num (assoc key c) n = true))
  | PStr t, PStr s => s = t ∨ (wf_string s ∧ allows_str (assoc key c) s = true)
  | _, _ => False
  end.

Lemma parse_ext sp sp' c prev key d : sp_getAll sp key = sp_getAll sp' key →
  parse_dimension sp c prev key d = parse_dimension sp' c prev key d.
Proof. intros H. unfold parse_dimension, sp_get. by rewrite H. Qed.

Lemma parse_valid sp c key d : wf_default (key, d) → Forall (λ s, wf_string s) (sp_getAll sp key) →
  valid c key d (parse_dimension sp c None key d).
Proof.
  destruct d as [m|t|l]; cbn [wf_default parse_dimension fst snd]; intros Hd Hwf.
  - destruct (parsePositiveInt (sp_get sp key)) as [n|] eqn:E;
      [apply parsePositiveInt_spec in E|case_bool_decide; by left].
    case_bool_decide; [right; by auto|]. destruct (allows_num (assoc key c) n) eqn:Ea; [right; auto|by left].
  - rewrite bool_decide_eq_false_2 by done. unfold sp_get. destruct Hwf as [|raw r Hraw _]; [by left|]. simpl.
    destruct (allows_str (assoc key c) raw) eqn:Ea; [by right|by left].
  - destruct (uniq_from_spec (List.filter (allows_str (assoc key c)) (sp_getAll sp key)) []) as [H1 H2].
    split; [done|]. eapply Forall_impl; [exact H2|]. simpl. intros s [_ Hs].
    apply list_elem_of_In, filter_In in Hs as [Hs Ha]. split; [|done]. rewrite Forall_forall in Hwf.
    by apply Hwf, list_elem_of_In.
Qed.

Lemma parse_written sp c key d v : wf_default (key, d) → valid c key d v →
  sp_getAll sp key = dim_values (Some v) d → parse_dimension sp c None key d = v.
Proof.
  destruct d as [m|t|l], v as [n|s|l']; cbn [wf_default valid dim_values fst snd]; intros Hd Hv Hg; try done.
  - cbn [parse_dimension]. unfold sp_get. rewrite Hg. case_bool_decide as E.
    + simplify_eq. simpl. by case_bool_decide.
    + destruct Hv as [->|[Hn Ha]]; [done|]. cbn [head pvalue_string].
      rewrite Z_to_string_wf, parsePositiveInt_print by done.
      case_bool_decide; [done|]. destruct Ha as [?| ->]; [done|]. done.
  - cbn [parse_dimension]. rewrite bool_decide_eq_false_2 by done. unfold sp_get. rewrite Hg.
    case_bool_decide as E; [simplify_eq; done|]. destruct Hv as [->|[Hs Ha]]; [done|].
    cbn [head pvalue_string]. by rewrite Hs, Ha.
  - subst l. destruct Hv as [Hnd Ha]. cbn [parse_dimension]. unfold uniq.
    assert (sp_getAll sp key = l') as ->.
    { rewrite Hg. case_bool_decide; [congruence|]. apply map_toWellFormed_id. eapply Forall_impl; [exact Ha|]. naive_solver. }
    rewrite List_filter_id, uniq_from_id; [done|done| |].
    + intros x _. apply not_elem_of_nil.
    + eapply Forall_impl; [exact Ha|]. naive_solver.
Qed.

(** The reuse of the previous array: a value is shown as the array of the render
    before when that has the same entries in some order, and as it is otherwise. *)
Definition same_entries (v w : pvalue) : Prop :=
  match v, w with PArr l, PArr l' => l ≡ₚ l' | _, _ => v = w end.

#[export] Instance same_entries_dec v w : Decision (same_entries v w).
Proof. destruct v, w; simpl; apply _. Defined.

Lemma same_entries_refl v : same_entries v v.
Proof. by destruct v; simpl. Qed.

Definition shown (prev : option pvalue) (v : pvalue) : pvalue :=
  match prev with Some w => if decide (same_entries v w) then w else v | None => v end.

Lemma same_entries_arrays (prev values : list jsstring) : NoDup values →
  bool_decide (length prev = length values) && forallb (λ v, bool_decide (v ∈ prev)) values = bool_decide (values ≡ₚ prev).
Proof.
  intros Hnd. apply eq_true_iff_eq. rewrite andb_true_iff, !bool_decide_eq_true, forallb_forall.
  setoid_rewrite bool_decide_eq_true. setoid_rewrite <-list_elem_of_In. split.
  - intros [Hlen Hin]. apply submseteq_length_Permutation; [by apply NoDup_submseteq|lia].
  - intros Hp. split; [by rewrite Hp|]. intros x Hx. by rewrite <-Hp.
Qed.

Lemma shown_eq v w : (same_entries v w → v = w) → shown (Some w) v = v.
Proof. intros H. simpl. case_decide; [by rewrite H|done]. Qed.

(** A value shown once is shown the same the next time. *)
Lemma shown_stable prev v : shown (Some (shown prev v)) v = shown prev v.
Proof.
  assert (shown (Some v) v = v) as Hv by (simpl; by case_decide).
  destruct prev as [w|]; [|exact Hv]. cbn [shown]. destruct (decide (same_entries v w)) as [H|H]; [|exact Hv].
  cbn [shown]. by rewrite decide_True.
Qed.

Lemma shown_array prev v : match v with PArr _ => True | _ => False end → ∃ l, shown prev v = PArr l.
Proof.
  destruct v as [| |l]; [done..|]. intros _. destruct prev as [[| |l']|]; simpl; try (by eexists).
  case_decide; by eexists.
Qed.

Lemma parse_prev sp c prev key d :
  parse_dimension sp c prev key d = shown prev (parse_dimension sp c None key d).
Proof.
  destruct prev as [w|]; [|done]. destruct d as [m|t|l].
  1,2: symmetry; apply shown_eq; cbn [parse_dimension]; repeat (case_match || case_bool_decide); done.
  destruct w as [n|s|l']; cbn [parse_dimension]; [symmetry; by apply shown_eq..|].
  rewrite same_entries_arrays by apply uniq_from_spec. simpl. case_bool_decide; case_decide; done.
Qed.

(** ** Objects *)

Lemma assoc_map_snd {A B} (f : jsstring → A → B) (l : list (jsstring * A)) k :
  assoc k (map (λ kv, (kv.1, f kv.1 kv.2)) l) = f k <$> assoc k l.
Proof. induction l as [|[x a] l IH]; simpl; [done|]. case_bool_decide; [by subst|done]. Qed.

Lemma assoc_In {A} k (l : list (jsstring * A)) a : assoc k l = Some a → (k, a) ∈ l.
Proof.
  induction l as [|[x b] l IH]; simpl; [done|]. case_bool_decide.
  - intros [= <-]. subst. left.
  - intros Ha. right. auto.
Qed.

Lemma In_assoc {A} k (l : list (jsstring * A)) a : NoDup (map fst l) → (k, a) ∈ l → assoc k l = Some a.
Proof.
  induction l as [|[x b] l IH]; simpl; intros Hnd Hin; [by apply not_elem_of_nil in Hin|].
  apply NoDup_cons in Hnd as [Hx Hnd]. apply elem_of_cons in Hin as [[= <- <-]|Hin].
  - by rewrite bool_decide_eq_true_2.
  - rewrite bool_decide_eq_false_2; [by auto|]. intros ->. apply Hx.
    apply list_elem_of_In, in_map_iff. exists (k, a). split; [done|]. by apply list_elem_of_In.
Qed.

Lemma assoc_obj_put k v l k' : assoc k' (obj_put k v l) = if bool_decide (k = k') then Some v else assoc k' l.
Proof.
  induction l as [|[x w] l IH]; [done|]. cbn [obj_put]. destruct (decide (x = k)) as [->|Hx].
  - rewrite (bool_decide_eq_true_2 (k = k)) by done. cbn [assoc]. by case_bool_decide.
  - rewrite (bool_decide_eq_false_2 (x = k)) by done. cbn [assoc]. rewrite IH.
    destruct (decide (k = k')) as [<-|Hk].
    + by rewrite (bool_decide_eq_false_2 (x = k)), !bool_decide_eq_true_2 by done.
    + by rewrite !(bool_decide_eq_false_2 (k = k')) by done.
Qed.

Lemma assoc_spread patch cur k : NoDup (map fst patch) →
  assoc k (spread cur patch) = match assoc k patch with Some v => Some v | None => assoc k cur end.
Proof.
  unfold spread. revert cur. induction patch as [|[x v] patch IH]; intros cur Hnd; simpl; [done|].
  simpl in Hnd. apply NoDup_cons in Hnd as [Hx Hnd]. rewrite IH, assoc_obj_put by done.
  case_bool_decide as E; [|done]. subst. destruct (assoc k patch) as [w|] eqn:Ek; [|done].
  exfalso. apply Hx. apply assoc_In in Ek. apply list_elem_of_In, in_map_iff. exists (k, w).
  split; [done|]. by apply list_elem_of_In.
Qed.

Section Laws.
Variables (defaults : params) (cs : constraints) (prefix : option jsstring).
Hypothesis Hkeys : NoDup (map fst defaults).
Hypothesis Hwf : Forall wf_default defaults.

Lemma assoc_read url key d : (key, d) ∈ defaults →
  assoc key (current_params defaults cs prefix url) =
    Some (parse_dimension (stripPrefix url defaults prefix) cs None key d).
Proof.
  intros Hin. unfold current_params, parseListParams.
  rewrite (assoc_map_snd (λ k v, parse_dimension (stripPrefix url defaults prefix) cs (None ≫= assoc k) k v)).
  by rewrite (In_assoc _ _ d).
Qed.

(** What a render shows of a parameter, with what it showed before. *)
Lemma assoc_render cached url key d : (key, d) ∈ defaults →
  assoc key (render_params defaults cs prefix cached url) =
    shown (cached ≫= assoc key) <$> assoc key (current_params defaults cs prefix url).
Proof.
  intros Hin. rewrite (assoc_read _ _ d) by done. unfold render_params, parseListParams.
  rewrite (assoc_map_snd (λ k v, parse_dimension (stripPrefix url defaults prefix) cs (cached ≫= assoc k) k v)).
  rewrite (In_assoc _ _ d) by done. simpl. f_equal. apply parse_prev.
Qed.

Lemma key_in key d : (key, d) ∈ defaults → key ∈ map fst defaults.
Proof. intros H. apply list_elem_of_In, in_map_iff. exists (key, d). split; [done|]. by apply list_elem_of_In. Qed.

(** Writing an object of valid values and reading it back. *)
Lemma read_write url merged key d v : (key, d) ∈ defaults → assoc key merged = Some v → valid cs key d v →
  assoc key (current_params defaults cs prefix
    (write_back url defaults prefix (serializeListParams merged defaults))) = Some v.
Proof.
  intros Hin Hm Hv. rewrite (assoc_read _ _ d) by done. f_equal.
  rewrite Forall_forall in Hwf. apply parse_written; [by apply Hwf|done|].
  rewrite getAll_strip by (done || by eapply key_in).
  rewrite (proj1 (getAll_write_back defaults prefix _ url _ Hkeys) key) by (done || by eapply key_in).
  rewrite (getAll_serialize _ _ _ d), Hm, dim_values_wf by done. case_match; [apply dim_values_wf|done].
Qed.

Lemma read_valid url key d : wf_url url → (key, d) ∈ defaults → ∃ v,
  assoc key (current_params defaults cs prefix url) = Some v ∧ valid cs key d v.
Proof.
  intros Hurl Hin. rewrite (assoc_read _ _ d) by done. eexists. split; [done|].
  rewrite Forall_forall in Hwf. apply parse_valid; [by apply Hwf|].
  rewrite getAll_strip by (done || by eapply key_in). case_match; [|by apply getAll_wf].
  rewrite map_toWellFormed_id; by apply getAll_wf.
Qed.

(** An unmanaged entry survives. *)
Lemma write_other url merged k : (∀ key, key ∈ map fst defaults → k ≠ prefixKey key prefix) →
  sp_getAll (write_back url defaults prefix (serializeListParams merged defaults)) k = sp_getAll url k.
Proof. apply (proj2 (getAll_write_back defaults prefix _ url k Hkeys)). Qed.

End Laws.

(** C36: What a list page writes to the URL is what its next render shows.  A
    page shows what it parsed from the URL, with any cached result of an earlier
    render, and an update with valid values is committed: every parameter outside
    the patch is shown exactly as it was, the order of its entries included,
    whatever defaults or invalid entries the URL had; a parameter of the patch
    has its new value, except that an array with the entries shown before, in
    another order, is shown in the order it had. *)
Theorem list_url_round_trip (defaults : params) (cs : constraints) (prefix : option jsstring)
    (cached : option params) (patch : params) (url : URLSearchParams)
    (Hkeys : NoDup (map fst defaults)) (Hwf : Forall wf_default defaults) (Hurl : wf_url url)
    (Hpatch : NoDup (map fst patch))
    (Hvalid : ∀ key d v, (key, d) ∈ defaults → (key, v) ∈ patch → valid cs key d v) :
  let before := render_params defaults cs prefix cached url in
  let after := render_params defaults cs prefix (Some before) (update defaults cs prefix patch url) in
  ∀ key d, (key, d) ∈ defaults →
  match assoc key patch with
  | None => assoc key after = assoc key before
  | Some (PArr l) => ∃ old new, assoc key before = Some (PArr old) ∧ assoc key after = Some (PArr new) ∧
      new = if decide (l ≡ₚ old) then old else l
  | Some v => assoc key after = Some v
  end.
Proof.
  intros before after key d Hin.
  destruct (read_valid defaults cs prefix Hkeys Hwf url key d Hurl Hin) as (v0 & Hr & Hv0).
  set (old := shown (cached ≫= assoc key) v0).
  assert (assoc key before = Some old) as Hbefore.
  { unfold before. by rewrite (assoc_render defaults cs prefix Hkeys _ _ key d Hin), Hr. }
  assert (assoc key after = Some (shown (Some old) (default v0 (assoc key patch)))) as Hafter.
  { unfold after. rewrite (assoc_render defaults cs prefix Hkeys _ _ key d Hin). cbn [mbind option_bind].
    rewrite Hbefore. unfold update. rewrite (read_write defaults cs prefix Hkeys Hwf url _ key d (default v0 (assoc key patch)));
      [done|done|rewrite assoc_spread by done; by destruct (assoc key patch)|].
    destruct (assoc key patch) as [v|] eqn:E; [|done]. eapply Hvalid; [exact Hin|]. by apply assoc_In. }
  rewrite Hafter, Hbefore. destruct (assoc key patch) as [v|] eqn:E; cbn [default].
  - destruct v as [n|s|l]; [f_equal; by apply shown_eq..|].
    destruct (shown_array (cached ≫= assoc key) v0) as (l0 & Hl0).
    { specialize (Hvalid _ _ _ Hin (assoc_In _ _ _ E)). by destruct d, v0. }
    exists l0, (if decide (l ≡ₚ l0) then l0 else l). unfold old. rewrite Hl0. split; [done|]. split; [|done].
    cbn [shown]. f_equal. destruct (decide (l ≡ₚ l0)); [by rewrite decide_True|by rewrite decide_False].
  - f_equal. apply shown_stable.
Qed.

(** C37: an update touches no entry of the URL but its own: every other key keeps
    its values, and a second list on the page with another prefix (keys have no
    dot) shows exactly what it showed before, whatever it showed last. *)
Theorem list_url_isolation (defaults defaults' : params) (cs cs' : constraints) (prefix prefix' : option jsstring)
    (patch : params) (url : URLSearchParams)
    (Hkeys : NoDup (map fst defaults)) (Hkeys' : NoDup (map fst defaults')) :
  (∀ k, (∀ key, key ∈ map fst defaults → k ≠ prefixKey key prefix) →
     sp_getAll (update defaults cs prefix patch url) k = sp_getAll url k) ∧
  (¬ same_prefix prefix prefix' → Forall (λ k, 46%N ∉ k) (map fst defaults) →
   Forall (λ k, 46%N ∉ k) (map fst defaults') →
   ∀ cached, render_params defaults' cs' prefix' cached (update defaults cs prefix patch url) = render_params defaults' cs' prefix' cached url).
Proof.
  assert (∀ k, (∀ key, key ∈ map fst defaults → k ≠ prefixKey key prefix) →
     sp_getAll (update defaults cs prefix patch url) k = sp_getAll url k) as H.
  { intros k Hk. by apply write_other. }
  split; [done|]. intros Hpre Hd Hd' cached. rewrite Forall_forall in Hd, Hd'.
  unfold render_params, parseListParams. apply map_ext_in. intros [key d] Hin. f_equal.
  apply list_elem_of_In in Hin. apply parse_ext.
  rewrite !getAll_strip by (done || by eapply key_in). f_equal. apply H. intros key' Hkey'.
  apply not_eq_sym, prefixKey_disjoint; [done|by apply Hd|]. apply Hd'. by eapply key_in.
Qed.

(** ** The handlers *)

Section Handlers.
Variables (defaults : params) (cs : constraints) (sortFields : option (list SortFieldDef)) (prefix : option jsstring).
Hypothesis Hkeys : NoDup (map fst defaults).
Hypothesis Hwf : Forall wf_default defaults.
Variables (page : Z) (field order : jsstring).
Hypothesis Hpage : (PAGE, PNum page) ∈ defaults.
Hypothesis Hfield : (js "sortField", PStr field) ∈ defaults.
Hypothesis Horder : (js "sortOrder", PStr order) ∈ defaults.

(** Clicking the current sort column flips the order, whatever it was, and goes
    back to the first page; so two clicks restore the order. *)
Lemma handleSort_flips url f (Hf : wf_string f)
    (Hok : allows_str (assoc (js "sortField") cs) f = true)
    (Hasc : allows_str (assoc (js "sortOrder") cs) (js "asc") = true)
    (Hdesc : allows_str (assoc (js "sortOrder") cs) (js "desc") = true) :
  assoc (js "sortField") (current_params defaults cs prefix url) = Some (PStr f) →
  let url' := handleSort defaults cs sortFields prefix f url in
  assoc (js "sortField") (current_params defaults cs prefix url') = Some (PStr f) ∧
  assoc (js "sortOrder") (current_params defaults cs prefix url') =
    Some (PStr (if bool_decide (assoc (js "sortOrder") (current_params defaults cs prefix url) = Some (PStr (js "asc")))
                then js "desc" else js "asc")) ∧
  assoc PAGE (current_params defaults cs prefix url') = Some (PNum page).
Proof.
  intros Hcur url'. unfold url', handleSort. rewrite Hcur, (bool_decide_eq_true_2 (Some _ = Some _)) by done.
  unfold reset_page. rewrite (In_assoc _ _ _ Hkeys Hpage).
  set (o := if bool_decide _ then js "desc" else js "asc").
  assert (NoDup (map fst [(js "sortField", PStr f); (js "sortOrder", PStr o); (PAGE, PNum page)])) as Hnd.
  { cbn [map fst]. apply (bool_decide_unpack _). vm_compute. exact I. }
  split; [|split].
  - eapply read_write; [done|done|exact Hfield|by rewrite assoc_spread|]. by right.
  - eapply read_write; [done|done|exact Horder|by rewrite assoc_spread|]. right. unfold o. by case_bool_decide; split.
  - eapply read_write; [done|done|exact Hpage|by rewrite assoc_spread|]. by left.
Qed.

End Handlers.

(** ** Witnesses *)

Definition sample_defaults : params :=
  [(PAGE, PNum 1); (js "perPage", PNum 10); (js "search", PStr []); (js "tags", PArr [])].
Definition sample_constraints : constraints := [(js "perPage", AllowNums [10; 20; 50])].

Lemma sample_keys : NoDup (map fst sample_defaults).
Proof. apply (bool_decide_unpack _). vm_compute. exact I. Qed.
Lemma sample_wf : Forall wf_default sample_defaults.
Proof. repeat apply Forall_cons_2; try done. Qed.

(** A reordered patch is shown in the old order, another one as it was given,
    with the page of the old URL. *)
Definition sample_url : URLSearchParams :=
  [(js "key.tags", js "a"); (js "key.page", js "3"); (js "key.tags", js "b"); (js "tab", js "api")].
Definition shown_after (l : list jsstring) (key : jsstring) : option pvalue :=
  let before := render_params sample_defaults sample_constraints (Some (js "key")) None sample_url in
  assoc key (render_params sample_defaults sample_constraints (Some (js "key")) (Some before)
    (update sample_defaults sample_constraints (Some (js "key")) [(js "tags", PArr l)] sample_url)).

Lemma sample_url_wf : wf_url sample_url.
Proof. repeat apply Forall_cons_2; try apply Forall_nil_2; vm_compute; reflexivity. Qed.
Lemma sample_patch_valid l : NoDup l → Forall (λ s, toWellFormed s = s) l →
  ∀ key d v, (key, d) ∈ sample_defaults → (key, v) ∈ [(js "tags", PArr l)] → valid sample_constraints key d v.
Proof.
  intros Hl Hw key d v Hd Hv. apply list_elem_of_singleton in Hv as [= -> ->].
  unfold sample_defaults in Hd. rewrite !elem_of_cons in Hd.
  destruct Hd as [Hd|[Hd|[Hd|[Hd|Hd]]]]; [exfalso; apply (f_equal fst) in Hd; revert Hd; vm_compute; discriminate..| |].
  - apply (f_equal snd) in Hd. simpl in Hd. subst d. split; [done|]. eapply Forall_impl; [exact Hw|]. done.
  - by apply not_elem_of_nil in Hd.
Qed.

Lemma list_url_round_trip_witness :
  shown_after [js "b"; js "c"] (js "tags") = Some (PArr [js "b"; js "c"]) ∧
  shown_after [js "b"; js "a"] (js "tags") = Some (PArr [js "a"; js "b"]).
Proof.
  assert (∀ l, NoDup l → Forall (λ s, toWellFormed s = s) l → ∃ old new,
    Some (PArr [js "a"; js "b"]) = Some (PArr old) ∧ shown_after l (js "tags") = Some (PArr new) ∧
    new = if decide (l ≡ₚ old) then old else l) as H.
  { intros l Hl Hw.
    apply (list_url_round_trip sample_defaults sample_constraints (Some (js "key")) None
      [(js "tags", PArr l)] sample_url sample_keys sample_wf sample_url_wf
      (NoDup_singleton _) (sample_patch_valid l Hl Hw) (js "tags") (PArr [])).
    do 3 right. left. }
  split.
  - destruct (H [js "b"; js "c"]) as (old & new & [= <-] & -> & ->).
    + apply (bool_decide_unpack _). vm_compute. exact I.
    + repeat apply Forall_cons_2; try apply Forall_nil_2; vm_compute; reflexivity.
    + rewrite decide_False; [done|]. apply (bool_decide_unpack _). vm_compute. exact I.
  - destruct (H [js "b"; js "a"]) as (old & new & [= <-] & -> & ->).
    + apply (bool_decide_unpack _). vm_compute. exact I.
    + repeat apply Forall_cons_2; try apply Forall_nil_2; vm_compute; reflexivity.
    + rewrite decide_True; [done|]. apply (bool_decide_unpack _). vm_compute. exact I.
Defined.

Lemma list_url_isolation_witness :
  render_params sample_defaults [] (Some (js "installKey")) None
    (update sample_defaults [] (Some (js "key")) [(PAGE, PNum 4)] [(js "installKey.page", js "2")])
  = render_params sample_defaults [] (Some (js "installKey")) None [(js "installKey.page", js "2")].
Proof.
  apply (proj2 (list_url_isolation sample_defaults sample_defaults [] [] (Some (js "key")) (Some (js "installKey"))
    [(PAGE, PNum 4)] [(js "installKey.page", js "2")] sample_keys sample_keys)); try exact None.
  - intros [[H _]|H]; revert H; vm_compute; discriminate.
  - apply (bool_decide_unpack _). vm_compute. exact I.
  - apply (bool_decide_unpack _). vm_compute. exact I.
Defined.
