(* ===== verification/VaultTypes.v ===== *)
(** * Vault data: types/vault.ts and utils/vault-parse.ts

    The records of the secure vault, their JSON form, and the validating
    parsers that read them back from untrusted storage.  Properties of a parsed
    object beyond those of its interface are dropped when it becomes a record:
    nothing in the console reads them. *)

From S2P Require Import Prelude JsString JsJson JsEncoding.

(** ** types/vault.ts *)

Inductive VaultStatus := uninitialized | locked | unlocked.

#[export] Instance VaultStatus_eq_dec : EqDecision VaultStatus.
Proof. solve_decision. Defined.

Definition ALLOWED_TIMEOUT_MINUTES : list Z := [0; 5; 15; 30; 60].

Record VaultSettings := mkSettings {
  autoLockTimeoutMinutes : Z;
  lockOnHidden : bool;
}.

Definition DEFAULT_VAULT_SETTINGS : VaultSettings := mkSettings 15 false.

Definition HIDDEN_GRACE_MS : Z := 60000.

(** [version] is the literal type [1]: it is written and checked, never stored
    in a record. *)
Record VaultMeta := mkMeta {
  salt : jsstring;
  iterations : Z;
  verifier : jsstring;
  verifierIv : jsstring;
}.

Record VaultData := mkData {
  iv : jsstring;
  ciphertext : jsstring;
}.

Record VaultKeyEntry := mkEntry {
  id : jsstring;
  name : jsstring;
  data : jsstring;
  hasPassphrase : bool;
  fingerprint : jsstring;
  algorithm : option jsstring;
  createdAt : jsstring;
  updatedAt : jsstring;
}.

(** The [id] of a legacy key is neither checked nor read. *)
Record LegacyPrivateKey := mkLegacy {
  legacy_name : jsstring;
  legacy_data : jsstring;
  legacy_hasPassphrase : bool;
  legacy_fingerprint : jsstring;
}.

#[export] Instance VaultSettings_eq_dec : EqDecision VaultSettings.
Proof. solve_decision. Defined.
#[export] Instance VaultMeta_eq_dec : EqDecision VaultMeta.
Proof. solve_decision. Defined.
#[export] Instance VaultData_eq_dec : EqDecision VaultData.
Proof. solve_decision. Defined.
#[export] Instance VaultKeyEntry_eq_dec : EqDecision VaultKeyEntry.
Proof. solve_decision. Defined.

(** ** What [JSON.stringify] sees *)

Definition JInt (z : Z) : json := JNum (Dec z 0).

Definition meta_json (m : VaultMeta) : json :=
  JObj [(js "version", JInt 1); (js "salt", JStr (salt m)); (js "iterations", JInt (iterations m));
        (js "verifier", JStr (verifier m)); (js "verifierIv", JStr (verifierIv m))].

Definition data_json (d : VaultData) : json :=
  JObj [(js "iv", JStr (iv d)); (js "ciphertext", JStr (ciphertext d))].

Definition settings_json (s : VaultSettings) : json :=
  JObj [(js "autoLockTimeoutMinutes", JInt (autoLockTimeoutMinutes s));
        (js "lockOnHidden", JBool (lockOnHidden s))].

(** An [undefined] property is left out. *)
Definition entry_json (e : VaultKeyEntry) : json :=
  JObj ([(js "id", JStr (id e)); (js "name", JStr (name e)); (js "data", JStr (data e));
         (js "hasPassphrase", JBool (hasPassphrase e)); (js "fingerprint", JStr (fingerprint e));
         (js "createdAt", JStr (createdAt e)); (js "updatedAt", JStr (updatedAt e))]
        ++ match algorithm e with Some a => [(js "algorithm", JStr a)] | None => [] end).

Definition keys_json (ks : list VaultKeyEntry) : json := JArr (map entry_json ks).

(** ** utils/vault-parse.ts *)

(** [null] for a missing, empty or malformed text. *)
Definition safeParse (raw : option jsstring) : json :=
  match raw with
  | Some s => if truthy s then default JNull (parse s) else JNull
  | None => JNull
  end.

Definition parseVaultMeta (raw : option jsstring) : option VaultMeta :=
  let parsed := safeParse raw in
  if negb (json_truthy parsed) then None
  else if negb (bool_decide (as_number (get parsed (js "version")) = Some (Dec 1 0))) then None
  else
    match as_string (get parsed (js "salt")), as_number (get parsed (js "iterations")),
          as_string (get parsed (js "verifier")), as_string (get parsed (js "verifierIv")) with
    | Some salt, Some n, Some verifier, Some verifierIv =>
        match as_integer n with
        | Some iterations =>
            if (iterations <? 100000) || (10000000 <? iterations) then None
            else Some (mkMeta salt iterations verifier verifierIv)
        | None => None
        end
    | _, _, _, _ => None
    end.

Definition parseVaultData (raw : option jsstring) : option VaultData :=
  let parsed := safeParse raw in
  if negb (json_truthy parsed) then None
  else
    match as_string (get parsed (js "iv")), as_string (get parsed (js "ciphertext")) with
    | Some iv, Some ciphertext => Some (mkData iv ciphertext)
    | _, _ => None
    end.

Definition parseVaultSettings (raw : option jsstring) : VaultSettings :=
  let parsed := safeParse raw in
  if negb (json_truthy parsed) then DEFAULT_VAULT_SETTINGS
  else
    let rawTimeout := as_number (get parsed (js "autoLockTimeoutMinutes")) in
    let timeout :=
      match rawTimeout ≫= as_integer with
      | Some t => if bool_decide (t ∈ ALLOWED_TIMEOUT_MINUTES) then t
                  else autoLockTimeoutMinutes DEFAULT_VAULT_SETTINGS
      | None => autoLockTimeoutMinutes DEFAULT_VAULT_SETTINGS
      end in
    mkSettings timeout
      (default (lockOnHidden DEFAULT_VAULT_SETTINGS) (as_bool (get parsed (js "lockOnHidden")))).

(** ** Decoding a decrypted vault (stores/vaultStore.ts, [unlock]) *)

(** The [isValid] test on one element, and the record it is cast to. *)
Definition entry_of_json (item : json) : option VaultKeyEntry :=
  match as_string (get item (js "id")), as_string (get item (js "name")),
        as_string (get item (js "data")), as_string (get item (js "fingerprint")),
        as_bool (get item (js "hasPassphrase")), as_string (get item (js "createdAt")),
        as_string (get item (js "updatedAt")) with
  | Some i, Some n, Some d, Some f, Some h, Some c, Some u =>
      Some (mkEntry i n d h f (as_string (get item (js "algorithm"))) c u)
  | _, _, _, _, _, _, _ => None
  end.

(** [None] when the value is not an array or an element is invalid. *)
Definition keys_of_json (parsed : json) : option (list VaultKeyEntry) :=
  match parsed with
  | JArr l => mapM entry_of_json l
  | _ => None
  end.

(** The filter of [loadLegacyKeysFromStorage] on one element. *)
Definition legacy_of_json (item : json) : option LegacyPrivateKey :=
  match as_string (get item (js "name")), as_string (get item (js "data")),
        as_bool (get item (js "hasPassphrase")), as_string (get item (js "fingerprint")) with
  | Some n, Some d, Some h, Some f => Some (mkLegacy n d h f)
  | _, _, _, _ => None
  end.

(** ** Round trips *)

(** Strings of a record are made of code units. *)
Definition entry_units (e : VaultKeyEntry) : bool :=
  units_ok (id e) && units_ok (name e) && units_ok (data e) && units_ok (fingerprint e)
  && units_ok (createdAt e) && units_ok (updatedAt e) && units_ok (default [] (algorithm e)).

(** The iteration counts the parser accepts. *)
Definition iterations_ok (m : VaultMeta) : Prop := 100000 <= iterations m <= 10000000.

Lemma num_wf_int z : Z.abs z < 2 ^ 53 → num_wf (Dec z 0) = true.
Proof.
  intros H. unfold num_wf. cbn [Z.of_nat Nat.eqb orb]. rewrite Z.pow_0_r, Z.mul_1_r, andb_true_r.
  apply Z.ltb_lt. eapply Z.lt_trans; [exact H|]. by vm_compute.
Qed.

Lemma nodup_lits (l : list jsstring) : bool_decide (NoDup l) = true → NoDup l.
Proof. apply bool_decide_eq_true_1. Qed.

Lemma safeParse_stringify j : json_wf j = true → safeParse (Some (stringify j)) = j.
Proof.
  intros H. destruct (stringify_head j) as (c & r & E & _).
  unfold safeParse. rewrite (parse_stringify j H), E. done.
Qed.

(** What [saveMeta] writes is read back unchanged. *)
Lemma parseVaultMeta_stringify m : iterations_ok m →
  parseVaultMeta (Some (stringify (meta_json m))) = Some m.
Proof.
  intros Hi. unfold parseVaultMeta. rewrite safeParse_stringify.
  - destruct m as [a n c d]. unfold iterations_ok in Hi. cbn in Hi.
    cbv -[Z.ltb Z.leb]. destruct (Z.ltb_spec n 100000); [lia|].
    destruct (Z.ltb_spec 10000000 n); [lia|done].
  - unfold meta_json, json_wf, JInt. cbn [map forallb snd fst].
    rewrite num_wf_int by (by vm_compute). rewrite num_wf_int; [by vm_compute|].
    unfold iterations_ok in Hi. lia.
Qed.

Lemma parseVaultData_stringify d : parseVaultData (Some (stringify (data_json d))) = Some d.
Proof.
  unfold parseVaultData. rewrite safeParse_stringify by (by vm_compute). by destruct d.
Qed.

(** Settings whose timeout is one of the offered ones survive a save. *)
Lemma parseVaultSettings_stringify s : autoLockTimeoutMinutes s ∈ ALLOWED_TIMEOUT_MINUTES →
  parseVaultSettings (Some (stringify (settings_json s))) = s.
Proof.
  destruct s as [t b]. cbn [autoLockTimeoutMinutes]. intros Ht.
  unfold ALLOWED_TIMEOUT_MINUTES in Ht. rewrite !elem_of_cons, elem_of_nil in Ht.
  unfold parseVaultSettings. rewrite safeParse_stringify.
  - destruct_or? Ht; subst; by vm_compute.
  - destruct_or? Ht; subst; by vm_compute.
Qed.

(** The settings a save leaves behind. *)
Definition stored_settings (s : VaultSettings) : VaultSettings :=
  parseVaultSettings (Some (stringify (settings_json s))).

(** Whatever the storage holds, the parsed settings are in range. *)
Lemma parseVaultSettings_allowed raw :
  autoLockTimeoutMinutes (parseVaultSettings raw) ∈ ALLOWED_TIMEOUT_MINUTES.
Proof.
  assert (autoLockTimeoutMinutes DEFAULT_VAULT_SETTINGS ∈ ALLOWED_TIMEOUT_MINUTES) as Hd
    by (unfold ALLOWED_TIMEOUT_MINUTES; cbn; set_solver).
  unfold parseVaultSettings. destruct (negb _); [done|]. cbn [autoLockTimeoutMinutes].
  destruct (_ ≫= _) as [t|]; [|done]. by case_bool_decide.
Qed.

(** A meta record that is accepted has an iteration count in range. *)
Lemma parseVaultMeta_ok raw m : parseVaultMeta raw = Some m → iterations_ok m.
Proof.
  unfold parseVaultMeta, iterations_ok. intros H. repeat case_match; simplify_eq. cbn. lia.
Qed.

Lemma entry_json_wf e : json_wf (entry_json e) = true.
Proof. unfold entry_json. by destruct (algorithm e); vm_compute. Qed.

Lemma entry_json_units e : entry_units e = true → json_units (entry_json e) = true.
Proof.
  unfold entry_units, entry_json. intros H. repeat (apply andb_prop in H as [H ?]).
  cbn [json_units forallb fst snd app]. destruct (algorithm e); cbn in *;
    repeat (apply andb_true_intro; split); try done; by vm_compute.
Qed.

Lemma entry_of_entry_json e : entry_of_json (entry_json e) = Some e.
Proof. destruct e as [? ? ? ? ? [|] ? ?]; by vm_compute. Qed.

Lemma keys_json_wf ks : json_wf (keys_json ks) = true.
Proof.
  cbn. apply forallb_Forall, Forall_map, Forall_true. apply entry_json_wf.
Qed.

Lemma keys_json_units ks : forallb entry_units ks = true → json_units (keys_json ks) = true.
Proof.
  rewrite forallb_Forall. intros H. cbn [json_units keys_json]. apply forallb_Forall, Forall_map.
  eapply Forall_impl; [exact H|]. intros e. cbn. apply entry_json_units.
Qed.

Lemma keys_of_keys_json ks : keys_of_json (keys_json ks) = Some ks.
Proof.
  cbn. induction ks as [|e ks IH]; [done|]. cbn. rewrite entry_of_entry_json. cbn. by rewrite IH.
Qed.
