(* ===== verification/VaultTracker.v ===== *)
(** * The activity tracker: utils/vault-activity-tracker.ts

    A module-level singleton that locks the vault after a time without user
    activity, or some time after the tab is hidden.  The state holds the module
    variables and the part of the browser they live in: the pending
    [setTimeout] callbacks (all of them [fireIdle]), the registered listeners,
    the visibility of the document and the clock.

    The section [Events] is the browser's side: which callback runs when.  The
    invariant [tracked] is kept by every event and every call of the public
    functions, in any order. *)

From S2P Require Import Prelude.

Definition THROTTLE_MS : Z := 1000.

(** The [onIdle] callback is always the one of vaultStore.ts; it is not stored. *)
Record TrackerOptions := mkOptions {
  idleTimeoutMs : Z;
  opt_lockOnHidden : bool;
  hiddenGraceMs : Z;
}.

Record Tracker := mkTracker {
  lastResetStamp : Z;
  idleTimer : option nat;
  hiddenTimer : option nat;
  currentOptions : option TrackerOptions;
  (** the browser *)
  timers : gmap nat Z;
  nextTimer : nat;
  activityListeners : bool;
  visibilityListener : bool;
  hidden : bool;
  clock : Z;
}.

(** ** The browser primitives the module calls *)

Definition setTimeout (ms : Z) (t : Tracker) : nat * Tracker :=
  let i := nextTimer t in
  (i, mkTracker (lastResetStamp t) (idleTimer t) (hiddenTimer t) (currentOptions t)
        (<[i := clock t + ms]> (timers t)) (S i)
        (activityListeners t) (visibilityListener t) (hidden t) (clock t)).

Definition clearTimeout (i : nat) (t : Tracker) : Tracker :=
  mkTracker (lastResetStamp t) (idleTimer t) (hiddenTimer t) (currentOptions t)
    (delete i (timers t)) (nextTimer t)
    (activityListeners t) (visibilityListener t) (hidden t) (clock t).

Definition set_idleTimer (i : option nat) (t : Tracker) : Tracker :=
  mkTracker (lastResetStamp t) i (hiddenTimer t) (currentOptions t) (timers t) (nextTimer t)
    (activityListeners t) (visibilityListener t) (hidden t) (clock t).

Definition set_hiddenTimer (i : option nat) (t : Tracker) : Tracker :=
  mkTracker (lastResetStamp t) (idleTimer t) i (currentOptions t) (timers t) (nextTimer t)
    (activityListeners t) (visibilityListener t) (hidden t) (clock t).

Definition set_options (o : option TrackerOptions) (stamp : Z) (t : Tracker) : Tracker :=
  mkTracker stamp (idleTimer t) (hiddenTimer t) o (timers t) (nextTimer t)
    (activityListeners t) (visibilityListener t) (hidden t) (clock t).

Definition set_listeners (activity visibility : bool) (t : Tracker) : Tracker :=
  mkTracker (lastResetStamp t) (idleTimer t) (hiddenTimer t) (currentOptions t) (timers t)
    (nextTimer t) activity visibility (hidden t) (clock t).

(** ** The module's functions *)

Definition clearIdleTimer (t : Tracker) : Tracker :=
  match idleTimer t with
  | Some i => set_idleTimer None (clearTimeout i t)
  | None => t
  end.

Definition clearHiddenTimer (t : Tracker) : Tracker :=
  match hiddenTimer t with
  | Some i => set_hiddenTimer None (clearTimeout i t)
  | None => t
  end.

Definition armIdleTimer (t : Tracker) : Tracker :=
  match currentOptions t with
  | Some o =>
      if idleTimeoutMs o =? 0 then t
      else
        let (i, t) := setTimeout (idleTimeoutMs o) (clearIdleTimer t) in
        set_idleTimer (Some i) t
  | None => t
  end.

Definition reset (t : Tracker) : Tracker := armIdleTimer t.

Definition onActivity (t : Tracker) : Tracker :=
  if clock t - lastResetStamp t <? THROTTLE_MS then t
  else reset (set_options (currentOptions t) (clock t) t).

Definition onDocumentHidden (t : Tracker) : Tracker :=
  match currentOptions t with
  | Some o =>
      let (i, t) := setTimeout (hiddenGraceMs o) t in
      set_hiddenTimer (Some i) t
  | None => t
  end.

Definition onDocumentVisible (t : Tracker) : Tracker := clearHiddenTimer t.

Definition onVisibilityChange (t : Tracker) : Tracker :=
  if hidden t then onDocumentHidden t else onDocumentVisible t.

Definition stop (t : Tracker) : Tracker :=
  set_options None 0 (set_listeners false false (clearHiddenTimer (clearIdleTimer t))).

Definition start (opts : TrackerOptions) (t : Tracker) : Tracker :=
  armIdleTimer
    (set_listeners true (opt_lockOnHidden opts) (set_options (Some opts) 0 (stop t))).

(** ** Events *)

Section Events.

(** What can happen to the module: a user event, the document changing
    visibility, time passing, a due timer firing, and the calls of the store.
    [Fire i idle]: [idle] says whether the [onIdle] callback finds the vault
    unlocked, in which case it stops the tracker. *)
Inductive event :=
  | Activity
  | VisibilityChange
  | Tick (ms : Z)
  | Fire (i : nat) (idle : bool)
  | Start (opts : TrackerOptions)
  | Stop
  | Reset.

Definition set_hidden (b : bool) (t : Tracker) : Tracker :=
  mkTracker (lastResetStamp t) (idleTimer t) (hiddenTimer t) (currentOptions t) (timers t)
    (nextTimer t) (activityListeners t) (visibilityListener t) b (clock t).

Definition tick (ms : Z) (t : Tracker) : Tracker :=
  mkTracker (lastResetStamp t) (idleTimer t) (hiddenTimer t) (currentOptions t) (timers t)
    (nextTimer t) (activityListeners t) (visibilityListener t) (hidden t) (clock t + ms).

(** [fireIdle] of a timer that has left the browser's list. *)
Definition fireIdle (idle : bool) (t : Tracker) : Tracker :=
  match currentOptions t with
  | Some _ => if idle then stop t else t
  | None => t
  end.

(** [None]: the event cannot happen in this state. *)
Definition handle (e : event) (t : Tracker) : option Tracker :=
  match e with
  | Activity => Some (if activityListeners t then onActivity t else t)
  | VisibilityChange =>
      let t := set_hidden (negb (hidden t)) t in
      Some (if visibilityListener t then onVisibilityChange t else t)
  | Tick ms => if 0 <=? ms then Some (tick ms t) else None
  | Fire i idle =>
      d ← timers t !! i;
      if d <=? clock t then Some (fireIdle idle (clearTimeout i t)) else None
  | Start opts => if (0 <=? idleTimeoutMs opts) then Some (start opts t) else None
  | Stop => Some (stop t)
  | Reset => Some (reset t)
  end.

Fixpoint handle_all (es : list event) (t : Tracker) : option Tracker :=
  match es with
  | [] => Some t
  | e :: es => t' ← handle e t; handle_all es t'
  end.

End Events.

(** The state when the page loads at [now]. *)
Definition initial (now : Z) : Tracker := mkTracker 0 None None None ∅ 0 false false false now.

(** ** No timer is lost

    [tracked]: every pending callback is reachable through one of the two timer
    variables, a stopped tracker has no callback and no listener, and a hidden
    timer is only armed while the document is hidden. *)

Record tracked (t : Tracker) : Prop := {
  tr_named i : i ∈ dom (timers t) → idleTimer t = Some i ∨ hiddenTimer t = Some i;
  tr_old i : i ∈ dom (timers t) → (i < nextTimer t)%nat;
  tr_old_var i : idleTimer t = Some i ∨ hiddenTimer t = Some i → (i < nextTimer t)%nat;
  tr_stopped : currentOptions t = None →
    timers t = ∅ ∧ activityListeners t = false ∧ visibilityListener t = false;
  tr_hidden i : hiddenTimer t = Some i → visibilityListener t = true ∧ hidden t = true;
}.

#[local] Ltac fields := cbn [lastResetStamp idleTimer hiddenTimer currentOptions timers nextTimer
  activityListeners visibilityListener hidden clock set_idleTimer set_hiddenTimer clearTimeout
  set_options set_listeners set_hidden tick setTimeout negb] in *.

Lemma tracked_initial now : tracked (initial now).
Proof. split; cbn; try done; intros; set_solver. Qed.

Lemma tracked_clearIdle t : tracked t →
  tracked (clearIdleTimer t) ∧ idleTimer (clearIdleTimer t) = None.
Proof.
  intros H. unfold clearIdleTimer. destruct (idleTimer t) as [i|] eqn:E; [|done].
  destruct H as [Hn Ho Hv Hs Hh]. fields. split; [|done]. split; fields.
  - intros j. rewrite dom_delete, elem_of_difference. intros [Hj Hij].
    destruct (Hn j Hj); set_solver.
  - set_solver.
  - naive_solver.
  - intros Hc. destruct (Hs Hc) as (-> & ? & ?). by rewrite delete_empty.
  - done.
Qed.

Lemma tracked_clearHidden t : tracked t →
  tracked (clearHiddenTimer t) ∧ hiddenTimer (clearHiddenTimer t) = None.
Proof.
  intros H. unfold clearHiddenTimer. destruct (hiddenTimer t) as [i|] eqn:E; [|done].
  destruct H as [Hn Ho Hv Hs Hh]. fields. split; [|done]. split; fields.
  - intros j. rewrite dom_delete, elem_of_difference. intros [Hj Hij].
    destruct (Hn j Hj); set_solver.
  - set_solver.
  - naive_solver.
  - intros Hc. destruct (Hs Hc) as (-> & ? & ?). by rewrite delete_empty.
  - done.
Qed.

Lemma clearHidden_idle t : idleTimer (clearHiddenTimer t) = idleTimer t.
Proof. unfold clearHiddenTimer. by destruct (hiddenTimer t). Qed.

(** [stop] leaves nothing behind. *)
Lemma stop_clean t : tracked t → tracked (stop t) ∧ timers (stop t) = ∅.
Proof.
  intros H. destruct (tracked_clearIdle t H) as [H1 E1].
  destruct (tracked_clearHidden _ H1) as [H2 E2]. rewrite <-clearHidden_idle in E1.
  unfold stop. set (u := clearHiddenTimer (clearIdleTimer t)) in *.
  assert (timers u = ∅) as Hu.
  { apply map_empty. intros i. destruct (timers u !! i) eqn:Hi; [|done].
    destruct (tr_named u H2 i); [by eapply elem_of_dom_2|congruence..]. }
  split; [|done]. split; fields; rewrite ?Hu, ?E1, ?E2; intros; try done; set_solver.
Qed.

(** Stopped: no option, no timer variable, no listener. *)
Record at_rest (t : Tracker) : Prop := {
  ar_options : currentOptions t = None;
  ar_idle : idleTimer t = None;
  ar_hidden : hiddenTimer t = None;
  ar_activity : activityListeners t = false;
  ar_visibility : visibilityListener t = false;
}.

Lemma stop_at_rest t : at_rest (stop t).
Proof.
  assert (idleTimer (clearIdleTimer t) = None) as Hi by (unfold clearIdleTimer; by destruct (idleTimer t) eqn:E).
  assert (hiddenTimer (clearHiddenTimer (clearIdleTimer t)) = None) as Hh
    by (unfold clearHiddenTimer; by destruct (hiddenTimer (clearIdleTimer t)) eqn:E).
  unfold stop. split; fields; try done. by rewrite clearHidden_idle.
Qed.

Lemma tracked_armIdle t : tracked t → tracked (armIdleTimer t).
Proof.
  intros H. unfold armIdleTimer. destruct (currentOptions t) as [o|] eqn:Eo; [|done].
  destruct (idleTimeoutMs o =? 0); [done|]. destruct (tracked_clearIdle t H) as [[Hn Ho Hv Hs Hh] E].
  assert (currentOptions (clearIdleTimer t) = Some o) as Eo'.
  { unfold clearIdleTimer. by destruct (idleTimer t). }
  set (u := clearIdleTimer t) in *. fields. split; fields.
  - intros j. rewrite dom_insert, elem_of_union, elem_of_singleton. intros [->|Hj]; [by left|].
    destruct (Hn j Hj); [congruence|by right].
  - intros j. rewrite dom_insert, elem_of_union, elem_of_singleton. intros [->|Hj]; [lia|].
    specialize (Ho j Hj). lia.
  - intros j [?|?]; simplify_eq; [lia|]. specialize (Hv j). naive_solver lia.
  - congruence.
  - done.
Qed.

Lemma tracked_armHidden t : tracked t → visibilityListener t = true → hidden t = true →
  hiddenTimer t = None → tracked (onDocumentHidden t).
Proof.
  intros H Hl Hd E. unfold onDocumentHidden. destruct (currentOptions t) as [o|] eqn:Eo; [|done].
  destruct H as [Hn Ho Hv Hs Hh]. fields. split; fields.
  - intros j. rewrite dom_insert, elem_of_union, elem_of_singleton. intros [->|Hj]; [by right|].
    destruct (Hn j Hj); [by left|congruence].
  - intros j. rewrite dom_insert, elem_of_union, elem_of_singleton. intros [->|Hj]; [lia|].
    specialize (Ho j Hj). lia.
  - intros j [?|?]; simplify_eq; [|lia]. specialize (Hv j). naive_solver lia.
  - congruence.
  - done.
Qed.

(** Fields the invariant does not read in the way they change. *)
Lemma tracked_set_stamp z t : tracked t → tracked (set_options (currentOptions t) z t).
Proof. intros [Hn Ho Hv Hs Hh]. by split. Qed.

Lemma tracked_start opts t : tracked t → tracked (start opts t).
Proof.
  intros H. destruct (stop_clean t H) as [[Hn Ho Hv Hs Hh] E]. unfold start. apply tracked_armIdle.
  split; fields; rewrite ?E; try done; try set_solver.
Qed.

Lemma tracked_fire i idle t : tracked t → tracked (fireIdle idle (clearTimeout i t)).
Proof.
  intros H. assert (tracked (clearTimeout i t)) as Hc.
  { destruct H as [Hn Ho Hv Hs Hh]. split; fields; try done.
    - intros j. rewrite dom_delete, elem_of_difference. intros []. by apply Hn.
    - intros j. rewrite dom_delete, elem_of_difference. intros []. by apply Ho.
    - intros Hc. destruct (Hs Hc) as (-> & ? & ?). by rewrite delete_empty. }
  unfold fireIdle. destruct (currentOptions _); [|done]. destruct idle; [|done].
  by apply stop_clean.
Qed.

Lemma tracked_visibility t : tracked t →
  let u := set_hidden (negb (hidden t)) t in
  tracked (if visibilityListener u then onVisibilityChange u else u).
Proof.
  intros H u. assert (visibilityListener u = visibilityListener t) as -> by done.
  destruct (visibilityListener t) eqn:El.
  - unfold onVisibilityChange. subst u. destruct (hidden t) eqn:Eh; fields.
    + destruct (tracked_clearHidden t H) as [[Hn Ho Hv Hs Hh] E].
      unfold onDocumentVisible, clearHiddenTimer in *. fields.
      destruct (hiddenTimer t) eqn:Et; fields; split; fields; try done; intros; congruence.
    + assert (hiddenTimer t = None) as Et.
      { destruct (hiddenTimer t) eqn:Et; [|done]. destruct (tr_hidden t H n Et). congruence. }
      apply tracked_armHidden; try done. destruct H as [Hn Ho Hv Hs Hh]. by split.
  - destruct H as [Hn Ho Hv Hs Hh]. subst u. split; fields; try done. naive_solver congruence.
Qed.

Lemma tracked_handle e t t' : tracked t → handle e t = Some t' → tracked t'.
Proof.
  intros H. destruct e; cbn [handle]; intros E.
  - simplify_eq. destruct (activityListeners t); [|done]. unfold onActivity.
    case_match; [done|]. by apply tracked_armIdle, tracked_set_stamp.
  - simplify_eq. by apply tracked_visibility.
  - case_match; simplify_eq. destruct H as [Hn Ho Hv Hs Hh]. by split.
  - apply bind_Some in E as (d & Hd & E). case_match; simplify_eq. by apply tracked_fire.
  - case_match; simplify_eq. by apply tracked_start.
  - simplify_eq. by apply stop_clean.
  - simplify_eq. by apply tracked_armIdle.
Qed.

Lemma tracked_handle_all es t t' : tracked t → handle_all es t = Some t' → tracked t'.
Proof.
  revert t. induction es as [|e es IH]; cbn; intros t H E; [by simplify_eq|].
  apply bind_Some in E as (u & Hu & E). eauto using tracked_handle.
Qed.

(** ** When the idle timer is due

    [a] is a ghost: the time of the last user activity, or of the last call that
    armed the timer. *)

Definition seen (e : event) (t : Tracker) (a : Z) : Z :=
  match e with
  | Activity => if activityListeners t then clock t else a
  | Start _ | Reset => clock t
  | _ => a
  end.

(** A run of events, keeping [a]. *)
Fixpoint observe (es : list event) (t : Tracker) (a : Z) : option (Tracker * Z) :=
  match es with
  | [] => Some (t, a)
  | e :: es => t' ← handle e t; observe es t' (seen e t a)
  end.

(** The deadline of the idle timer, when it is pending. *)
Definition idle_deadline (t : Tracker) : option Z := i ← idleTimer t; timers t !! i.

Record timed (a : Z) (t : Tracker) : Prop := {
  ti_clock : a <= clock t ∧ 0 <= lastResetStamp t <= clock t;
  ti_distinct i : idleTimer t = Some i → hiddenTimer t ≠ Some i;
  ti_off o : currentOptions t = Some o → idleTimeoutMs o = 0 → idleTimer t = None;
  ti_deadline o d : currentOptions t = Some o → idle_deadline t = Some d →
    lastResetStamp t <= d - idleTimeoutMs o <= a ∧ a < d - idleTimeoutMs o + THROTTLE_MS;
}.

(** The same timers and options, read through the fields of [timed]. *)
Lemma timed_same a t u :
  timed a t → clock u = clock t → lastResetStamp u = lastResetStamp t →
  idleTimer u = idleTimer t → currentOptions u = currentOptions t →
  hiddenTimer u = None ∨ hiddenTimer u = hiddenTimer t →
  (∀ d, idle_deadline u = Some d → idle_deadline t = Some d) → timed a u.
Proof.
  intros [Hc Hd Hf Hl] E1 E2 E3 E4 E5 E6. split; rewrite ?E1, ?E2, ?E3, ?E4; try done.
  - destruct E5 as [->| ->]; [done|auto].
  - eauto.
Qed.

Lemma timed_clearHidden a t : timed a t → timed a (clearHiddenTimer t).
Proof.
  intros H. unfold clearHiddenTimer. destruct (hiddenTimer t) as [i|] eqn:E; [|done].
  eapply timed_same; fields; eauto. intros d. unfold idle_deadline. fields.
  destruct (idleTimer t) as [j|]; [|done]. cbn. rewrite lookup_delete_Some. tauto.
Qed.

Lemma clearIdle_fields t : clock (clearIdleTimer t) = clock t
  ∧ lastResetStamp (clearIdleTimer t) = lastResetStamp t
  ∧ hiddenTimer (clearIdleTimer t) = hiddenTimer t ∧ nextTimer (clearIdleTimer t) = nextTimer t
  ∧ currentOptions (clearIdleTimer t) = currentOptions t.
Proof. unfold clearIdleTimer. by destruct (idleTimer t). Qed.

Lemma timed_armIdle t : tracked t → 0 <= lastResetStamp t <= clock t →
  (∀ i, idleTimer t = Some i → hiddenTimer t ≠ Some i) →
  (∀ o, currentOptions t = Some o → idleTimeoutMs o = 0 → idleTimer t = None) →
  timed (clock t) (armIdleTimer t).
Proof.
  intros Ht Hc Hd Hf. unfold armIdleTimer. destruct (currentOptions t) as [o|] eqn:Eo.
  2: { split; try done; intros o; congruence. }
  destruct (Z.eqb_spec (idleTimeoutMs o) 0) as [E0|E0].
  - split; try done.
    + intros o' ?. rewrite Eo in *. simplify_eq. eauto.
    + unfold idle_deadline. intros o' d ?. rewrite (Hf o) by done. done.
  - destruct (clearIdle_fields t) as (Ec & Es & Eh & En & Eo').
    split; fields; rewrite ?Ec, ?Es, ?Eh, ?En, ?Eo', ?Eo; try lia.
    + intros i ? Hi. simplify_eq. pose proof (tr_old_var t Ht _ (or_intror Hi)). lia.
    + intros; simplify_eq. 
    + intros o' d ? Hd'. simplify_eq. unfold idle_deadline in Hd'. fields.
      cbn in Hd'. rewrite ?En, ?Ec, lookup_insert_eq in Hd'. simplify_eq. unfold THROTTLE_MS. lia.
Qed.

Lemma timed_armHidden a t : (∀ i, idleTimer t = Some i → (i < nextTimer t)%nat) → timed a t →
  timed a (onDocumentHidden t).
Proof.
  intros Ht [Hc Hd Hf Hl]. unfold onDocumentHidden. destruct (currentOptions t) as [o|] eqn:Eo.
  2: { split; try done; intros o; congruence. }
  split; fields; try done.
  - intros i Hi ?. simplify_eq. specialize (Ht _ Hi). lia.
  - rewrite Eo. eauto.
  - rewrite Eo. intros o' d ? Hd'. simplify_eq. apply Hl; [done|].
    unfold idle_deadline in *. fields. destruct (idleTimer t) as [i|] eqn:Ei; [|done]. cbn in *.
    specialize (Ht i eq_refl). by rewrite lookup_insert_ne in Hd' by lia.
Qed.

Lemma timed_stop a t : timed a t → timed a (stop t).
Proof.
  intros H. assert (0 <= clock t ∧ a <= clock t) as Hc by (destruct H; lia).
  assert (clock (stop t) = clock t) as Ec.
  { unfold stop, clearHiddenTimer, clearIdleTimer. fields. by repeat case_match. }
  split; [rewrite Ec; cbn; lia| |done..].
  intros i. unfold stop. fields. rewrite clearHidden_idle. unfold clearIdleTimer.
  destruct (idleTimer t) eqn:E; fields; congruence.
Qed.

Lemma stop_fields t : clock (stop t) = clock t ∧ idleTimer (stop t) = None ∧ hiddenTimer (stop t) = None.
Proof. unfold stop, clearHiddenTimer, clearIdleTimer. fields. repeat case_match; fields; done. Qed.

Lemma timed_start a opts t : tracked t → timed a t → timed (clock t) (start opts t).
Proof.
  intros Ht H. destruct (stop_fields t) as (Ec & Ei & Eh). rewrite <-Ec.
  destruct (stop_clean t Ht) as [Hs Hts]. destruct (timed_stop a t H) as [Hc _ _ _]. unfold start.
  set (u := set_listeners _ _ _). assert (clock (stop t) = clock u) as -> by done.
  apply timed_armIdle; subst u; fields; rewrite ?Ei; try done; [|lia].
  destruct Hs as [Hn Ho Hv _ Hh]. split; fields; rewrite ?Hts, ?Ei, ?Eh in *; try done.
Qed.

Lemma timed_activity a t : tracked t → timed a t → timed (clock t) (onActivity t).
Proof.
  intros Ht [Hc Hd Hf Hl]. unfold onActivity.
  destruct (Z.ltb_spec (clock t - lastResetStamp t) THROTTLE_MS).
  - split; try done; [lia|]. intros o d Ho Hd'. specialize (Hl o d Ho Hd'). lia.
  - apply (timed_armIdle (set_options (currentOptions t) (clock t) t)); fields; try done.
    + by apply tracked_set_stamp.
    + lia.
Qed.

Lemma timed_fire a i idle t : tracked t → timed a t → timed a (fireIdle idle (clearTimeout i t)).
Proof.
  intros Ht H. assert (timed a (clearTimeout i t)) as Hc.
  { eapply timed_same; eauto. unfold idle_deadline. fields. intros d.
    destruct (idleTimer t); [|done]. cbn. rewrite lookup_delete_Some. tauto. }
  unfold fireIdle. destruct (currentOptions _); [|done]. destruct idle; [|done].
  by apply timed_stop.
Qed.

Lemma timed_handle e t t' a : tracked t → timed a t → handle e t = Some t' → timed (seen e t a) t'.
Proof.
  intros Ht H. destruct e; cbn [handle seen]; intros E.
  - simplify_eq. destruct (activityListeners t); eauto using timed_activity.
  - simplify_eq. set (u := set_hidden _ t). assert (timed a u) by (eapply timed_same; eauto).
    destruct (visibilityListener u) eqn:El; [|done]. unfold onVisibilityChange.
    destruct (hidden u); [|by apply timed_clearHidden]. apply timed_armHidden; [|done].
    intros i Hi. apply (tr_old_var t Ht). by left.
  - case_match; simplify_eq. destruct H as [Hc Hd Hf Hl]. split; fields; try done. lia.
  - apply bind_Some in E as (d & Hd & E). case_match; simplify_eq. by apply timed_fire.
  - case_match; simplify_eq. by eapply timed_start.
  - simplify_eq. by apply timed_stop.
  - simplify_eq. destruct H as [Hc Hd Hf Hl]. apply timed_armIdle; try done. lia.
Qed.

Lemma observe_invariant es t a t' a' : tracked t → timed a t → observe es t a = Some (t', a') →
  tracked t' ∧ timed a' t'.
Proof.
  revert t a. induction es as [|e es IH]; cbn; intros t a Ht H E; [by simplify_eq|].
  apply bind_Some in E as (u & Hu & E). eauto using tracked_handle, timed_handle.
Qed.

Lemma timed_initial now : 0 <= now → timed now (initial now).
Proof. intros H. split; cbn; try done; lia. Qed.

(** While the vault stays unlocked (every callback that fires stops the
    tracker), a running tracker with a timeout has a pending idle timer. *)
Definition armed (t : Tracker) : Prop := ∀ o, currentOptions t = Some o → idleTimeoutMs o ≠ 0 →
  is_Some (idle_deadline t).

Definition locking (e : event) : bool := match e with Fire _ idle => idle | _ => true end.

Lemma armed_armIdle t : (∀ o, currentOptions t = Some o → idleTimeoutMs o ≠ 0 →
  currentOptions (armIdleTimer t) = Some o) ∧ armed (armIdleTimer t).
Proof.
  unfold armIdleTimer, armed. destruct (currentOptions t) as [o|] eqn:E; [|by split; congruence].
  destruct (clearIdle_fields t) as (_ & _ & _ & _ & Eo).
  destruct (Z.eqb_spec (idleTimeoutMs o) 0); fields; rewrite ?Eo, ?E;
    (split; [done|]); intros o' Ho; simplify_eq; [done|]. intros _.
  unfold idle_deadline. cbn. rewrite lookup_insert_eq. by eexists.
Qed.

Lemma armed_handle e t t' a : tracked t → timed a t → armed t → locking e = true →
  handle e t = Some t' → armed t'.
Proof.
  intros Ht H Ha Hl. destruct e; cbn [handle]; intros E.
  - simplify_eq. destruct (activityListeners t); [|done]. unfold onActivity.
    case_match; [done|]. apply armed_armIdle.
  - simplify_eq. set (u := set_hidden _ t). assert (armed u) as Hu by done.
    destruct (visibilityListener u); [|done]. unfold onVisibilityChange. destruct (hidden u).
    + intros o. unfold onDocumentHidden. destruct (currentOptions u) as [p|] eqn:Eo; [|congruence].
      fields. intros Eo' Ho. rewrite Eo in Eo'. simplify_eq. destruct (Hu o Eo Ho) as [d Hd].
      unfold idle_deadline in *. fields. destruct (idleTimer u) as [i|] eqn:Ei; [|done]. cbn in *.
      pose proof (tr_old_var t Ht i (or_introl Ei)). exists d. by rewrite lookup_insert_ne by (cbn; lia).
    + intros o. unfold onDocumentVisible, clearHiddenTimer. destruct (hiddenTimer u) as [h|] eqn:Eh; [|apply Hu].
      fields. intros Eo Ho. destruct (Hu o Eo Ho) as [d Hd].
      unfold idle_deadline in *. fields. destruct (idleTimer u) as [i|] eqn:Ei; [|done]. cbn in *.
      exists d. rewrite lookup_delete_ne; [done|]. intros ->. by eapply (ti_distinct a t H i).
  - case_match; simplify_eq. done.
  - apply bind_Some in E as (d & Hd & E). case_match; simplify_eq. cbn in Hl. subst idle.
    unfold fireIdle. destruct (currentOptions _) eqn:Eo; [done|]. intros o. congruence.
  - case_match; simplify_eq. apply armed_armIdle.
  - by simplify_eq.
  - simplify_eq. apply armed_armIdle.
Qed.

Lemma observe_armed es t a t' a' : tracked t → timed a t → armed t → forallb locking es = true →
  observe es t a = Some (t', a') → armed t'.
Proof.
  revert t a. induction es as [|e es IH]; cbn; intros t a Ht H Ha Hl E; [by simplify_eq|].
  apply bind_Some in E as (u & Hu & E). apply andb_prop in Hl as [? ?].
  eauto using tracked_handle, timed_handle, armed_handle.
Qed.

(** ** What the tracker promises *)

(** The tracker never leaks a callback.  After any sequence of user events,
    visibility changes, timer expirations and calls, every pending timeout is
    the idle or the hidden timer, and [stop] leaves no pending timeout, no
    listener and no options. *)
Theorem tracker_no_leak now es t :
  handle_all es (initial now) = Some t →
  (∀ i, i ∈ dom (timers t) → idleTimer t = Some i ∨ hiddenTimer t = Some i)
  ∧ timers (stop t) = ∅ ∧ activityListeners (stop t) = false
  ∧ visibilityListener (stop t) = false ∧ currentOptions (stop t) = None.
Proof.
  intros E. pose proof (tracked_handle_all es _ t (tracked_initial now) E) as H.
  split; [apply H|]. split; [by apply stop_clean|done].
Qed.

(** C33: Auto-lock happens on time.  In any run in which the callbacks find the
    vault unlocked, a running tracker with a non-zero timeout has a pending idle
    timer, and it is due no later than the timeout after the last user activity
    and no earlier than that minus the throttle interval. *)
Theorem auto_lock_window now es t a o :
  0 <= now → forallb locking es = true → observe es (initial now) now = Some (t, a) →
  currentOptions t = Some o → idleTimeoutMs o ≠ 0 →
  ∃ d, idle_deadline t = Some d
       ∧ a + idleTimeoutMs o - THROTTLE_MS < d <= a + idleTimeoutMs o.
Proof.
  intros Hn Hl E Ho H0.
  destruct (observe_invariant es _ now t a (tracked_initial now) (timed_initial now Hn) E) as [Ht H].
  assert (armed t) as Ha.
  { by eapply (observe_armed es (initial now) now); [apply tracked_initial|apply timed_initial| | |]. }
  destruct (Ha o Ho H0) as [d Hd]. exists d. split; [done|].
  pose proof (ti_deadline a t H o d Ho Hd). lia.
Qed.

(** A tab that is used, hidden, shown and used again within the throttle. *)
Definition sample_run : list event :=
  [Tick 5; Start (mkOptions 300000 true 60000); Tick 2000; Activity; Tick 400; Activity;
   VisibilityChange; Tick 100; VisibilityChange; Tick 50].

Lemma tracker_no_leak_witness :
  ∃ t, handle_all sample_run (initial 1700000000000) = Some t ∧ timers (stop t) = ∅.
Proof.
  eexists. split; [vm_compute; reflexivity|].
  apply (tracker_no_leak 1700000000000 sample_run). vm_compute. reflexivity.
Defined.

Lemma auto_lock_window_witness : ∃ t a d,
  observe sample_run (initial 1700000000000) 1700000000000 = Some (t, a) ∧ idle_deadline t = Some d
  ∧ a + 300000 - THROTTLE_MS < d <= a + 300000.
Proof.
  destruct (observe sample_run (initial 1700000000000) 1700000000000) as [[t a]|] eqn:E;
    [|vm_compute in E; discriminate].
  destruct (auto_lock_window 1700000000000 sample_run t a (mkOptions 300000 true 60000)) as (d & Hd & Hb).
  - lia.
  - reflexivity.
  - exact E.
  - vm_compute in E. injection E as <- <-. reflexivity.
  - cbn. lia.
  - exists t, a, d. split; [reflexivity|]. split; [exact Hd|exact Hb].
Defined.
