(* ===== verification/VaultWorld.v ===== *)
(** * The world of the vault

    Everything the vault code can read or change while one of its handlers
    runs: the browser's localStorage, the session key and the version registry
    held in module variables, the zustand store, the activity tracker, the
    signed-in user, and the vault held by the server.

    Three collaborators are not code of the console and are parameters:
    [WebCrypto] (crypto.subtle), [Platform] (the browser's storage quota, random
    source and the deployment's edition) and [VaultApi] (the generated client of
    the vault endpoints of the server).

    A handler is a computation [V A].  JavaScript runs one task at a time; other
    tasks run only while a handler waits for a promise that needs the event loop
    (a crypto operation or a request).  [pause] is such a wait: the world carries
    the schedule of what the other tasks do at each of them. *)

From S2P Require Import Prelude JsString JsJson JsEncoding JsDate VaultTypes VaultTracker.

(** ** Collaborators *)

(** crypto.subtle with PBKDF2-SHA-256 and AES-256-GCM: key derivation and
    authenticated encryption; a rejected decryption is [None]. *)
Class WebCrypto := {
  CryptoKey : Type;
  subtle_deriveKey : list N → list N → Z → CryptoKey;
  subtle_encrypt : CryptoKey → list N → list N → list N;
  subtle_decrypt : CryptoKey → list N → list N → option (list N);
}.

(** AES-GCM decrypts what it encrypted; array buffers hold bytes; a ciphertext is
    as long as its plaintext and the 128-bit tag. *)
Class WebCryptoLaws `{WebCrypto} := {
  decrypt_encrypt k iv p : Forall is_byte iv → Forall is_byte p →
    subtle_decrypt k iv (subtle_encrypt k iv p) = Some p;
  encrypt_bytes k iv p : Forall is_byte p → Forall is_byte (subtle_encrypt k iv p);
  encrypt_length k iv p : length (subtle_encrypt k iv p) = (length p + 16)%nat;
}.

(** Idealised security, used where a theorem says a wrong password is refused:
    for the passwords under consideration, a ciphertext made with the key of one
    password is never accepted under the key another derives with the same salt
    (AES-GCM is authenticated; a forgery or a collision of PBKDF2 is neglected). *)
Class IdealCrypto `{WebCrypto} := {
  considered : list N → Prop;
  separates p q s n iv iv' m : considered p → considered q → p ≠ q →
    subtle_decrypt (subtle_deriveKey q s n) iv' (subtle_encrypt (subtle_deriveKey p s n) iv m) = None;
}.

Inductive Edition := community | enterprise | cloud.
#[export] Instance Edition_eq_dec : EqDecision Edition.
Proof. solve_decision. Defined.

(** [fits s k v]: whether localStorage, holding [s], accepts the value [v] for
    the key [k].  [getRandomValues i n]: the [i]-th draw of the session, of [n]
    bytes.  [native_randomUUID]: crypto.randomUUID, absent over plain HTTP. *)
Class Platform := {
  fits : gmap jsstring jsstring → jsstring → jsstring → bool;
  getRandomValues : nat → nat → list N;
  native_randomUUID : option (nat → jsstring);
  edition : Edition;
}.

Class PlatformLaws `{Platform} := {
  random_bytes i n : Forall is_byte (getRandomValues i n);
  random_length i n : length (getRandomValues i n) = n;
  native_uuid_units f i : native_randomUUID = Some f → units_ok (f i) = true;
}.

(** The result of a client call: the HTTP status, whether [error] is set, and
    the decoded body. *)
Record Reply (A : Type) := mkReply { reply_status : Z; reply_error : bool; reply_data : option A }.
Arguments mkReply {A} _ _ _.
Arguments reply_status {A} _.
Arguments reply_error {A} _.
Arguments reply_data {A} _.

Record VaultResponse := mkVaultResponse {
  resp_meta : option jsstring;
  resp_data : option jsstring;
  resp_settings : option jsstring;
  resp_version : option Z;
}.

(** The body of a write: [vaultVersionResponse]. *)
Notation VersionResponse := (option Z).

(** The vault endpoints, for the signed-in user in the current namespace.  A
    call may reject ([Throw]), answer with an error, or succeed. *)
Class VaultApi := {
  Srv : Type;
  getVault : Srv → res (Reply VaultResponse) * Srv;
  saveVaultMeta : jsstring → Srv → res (Reply VersionResponse) * Srv;
  saveVaultData : jsstring → Z → Srv → res (Reply VersionResponse) * Srv;
  saveVaultSettings : jsstring → Srv → res (Reply VersionResponse) * Srv;
  deleteVault : Srv → res (Reply unit) * Srv;
}.

(** ** State *)

Inductive VaultStorageMode := local_mode | server_mode.
#[export] Instance VaultStorageMode_eq_dec : EqDecision VaultStorageMode.
Proof. solve_decision. Defined.

Record VaultScope := mkScope { scope_user : jsstring; scope_tenant : jsstring }.

(** The state part of [VaultState] in stores/vaultStore.ts; the two auto-lock
    fields are kept as one [VaultSettings]. *)
Record VaultState := mkState {
  status : VaultStatus;
  keys : list VaultKeyEntry;
  loading : bool;
  error : option jsstring;
  settings : VaultSettings;
  autoLockNonce : Z;
  storageMode : VaultStorageMode;
}.

Definition initial_state : VaultState :=
  mkState uninitialized [] false None DEFAULT_VAULT_SETTINGS 0 local_mode.

Section World.
Context `{WC : WebCrypto} `{VA : VaultApi}.

(** What another task may do while a handler waits: the user locks the vault or
    logs out, an idle timer fires, the UI clears the error, time passes, or
    another session of the user changes the vault on the server. *)
Inductive interrupt :=
  | ILock
  | IIdle
  | IClearError
  | ITick (ms : Z)
  | IRemote (f : Srv → Srv).

Record World := mkWorld {
  localStorage : gmap jsstring jsstring;
  sessionKey : option CryptoKey;
  versionRegistry : gmap jsstring Z;
  srv : Srv;
  store : VaultState;
  tracker : Tracker;
  auth_user : option jsstring;
  auth_tenant : option jsstring;
  draws : nat;
  sched : list (list interrupt);
}.

Notation V := (M World).

(** *** Field updates *)

Definition set_localStorage (x : gmap jsstring jsstring) (w : World) : World :=
  mkWorld x (sessionKey w) (versionRegistry w) (srv w) (store w) (tracker w)
    (auth_user w) (auth_tenant w) (draws w) (sched w).
Definition set_sessionKey (x : option CryptoKey) (w : World) : World :=
  mkWorld (localStorage w) x (versionRegistry w) (srv w) (store w) (tracker w)
    (auth_user w) (auth_tenant w) (draws w) (sched w).
Definition set_versionRegistry (x : gmap jsstring Z) (w : World) : World :=
  mkWorld (localStorage w) (sessionKey w) x (srv w) (store w) (tracker w)
    (auth_user w) (auth_tenant w) (draws w) (sched w).
Definition set_srv (x : Srv) (w : World) : World :=
  mkWorld (localStorage w) (sessionKey w) (versionRegistry w) x (store w) (tracker w)
    (auth_user w) (auth_tenant w) (draws w) (sched w).
Definition set_store (x : VaultState) (w : World) : World :=
  mkWorld (localStorage w) (sessionKey w) (versionRegistry w) (srv w) x (tracker w)
    (auth_user w) (auth_tenant w) (draws w) (sched w).
Definition set_tracker (x : Tracker) (w : World) : World :=
  mkWorld (localStorage w) (sessionKey w) (versionRegistry w) (srv w) (store w) x
    (auth_user w) (auth_tenant w) (draws w) (sched w).
Definition set_draws (x : nat) (w : World) : World :=
  mkWorld (localStorage w) (sessionKey w) (versionRegistry w) (srv w) (store w) (tracker w)
    (auth_user w) (auth_tenant w) x (sched w).
Definition set_sched (x : list (list interrupt)) (w : World) : World :=
  mkWorld (localStorage w) (sessionKey w) (versionRegistry w) (srv w) (store w) (tracker w)
    (auth_user w) (auth_tenant w) (draws w) x.

(** What [getScope] reads of the auth store. *)
Definition set_auth_scope (u t : option jsstring) (w : World) : World :=
  mkWorld (localStorage w) (sessionKey w) (versionRegistry w) (srv w) (store w) (tracker w)
    u t (draws w) (sched w).

(** zustand's [set({ field: value })], one field at a time. *)
Definition set_status (x : VaultStatus) (s : VaultState) : VaultState :=
  mkState x (keys s) (loading s) (error s) (settings s) (autoLockNonce s) (storageMode s).
Definition set_keys (x : list VaultKeyEntry) (s : VaultState) : VaultState :=
  mkState (status s) x (loading s) (error s) (settings s) (autoLockNonce s) (storageMode s).
Definition set_loading (x : bool) (s : VaultState) : VaultState :=
  mkState (status s) (keys s) x (error s) (settings s) (autoLockNonce s) (storageMode s).
Definition set_error (x : option jsstring) (s : VaultState) : VaultState :=
  mkState (status s) (keys s) (loading s) x (settings s) (autoLockNonce s) (storageMode s).
Definition set_settings (x : VaultSettings) (s : VaultState) : VaultState :=
  mkState (status s) (keys s) (loading s) (error s) x (autoLockNonce s) (storageMode s).
Definition set_nonce (x : Z) (s : VaultState) : VaultState :=
  mkState (status s) (keys s) (loading s) (error s) (settings s) x (storageMode s).
Definition set_mode (x : VaultStorageMode) (s : VaultState) : VaultState :=
  mkState (status s) (keys s) (loading s) (error s) (settings s) (autoLockNonce s) x.

(** [set(partial)] and [get()]. *)
Definition put (f : VaultState → VaultState) : V unit := modify (λ w, set_store (f (store w)) w).
Definition peek {A} (f : VaultState → A) : V A := gets (λ w, f (store w)).

(** *** The session key (utils/vault-crypto.ts) *)

Definition setSessionKey (k : CryptoKey) : V unit := modify (set_sessionKey (Some k)).
Definition getSessionKey : V (option CryptoKey) := gets sessionKey.
Definition clearSessionKey : V unit := modify (set_sessionKey None).

(** *** The synchronous actions of the store *)

Definition on_tracker (f : Tracker → Tracker) : V unit :=
  modify (λ w, set_tracker (f (tracker w)) w).

Definition startTracker : V unit :=
  s ← peek settings;
  on_tracker (start (mkOptions (autoLockTimeoutMinutes s * 60000) (lockOnHidden s) HIDDEN_GRACE_MS)).

(** The [onIdle] callback of [startTracker]. *)
Definition onIdle : V unit :=
  st ← peek status;
  if bool_decide (st ≠ unlocked) then mret tt
  else
    clearSessionKey;;
    on_tracker stop;;
    n ← peek autoLockNonce;
    put (set_nonce (n + 1) ∘ set_error None ∘ set_keys [] ∘ set_status locked).

Definition lock : V unit :=
  clearSessionKey;;
  on_tracker stop;;
  put (set_error None ∘ set_keys [] ∘ set_status locked).

Definition clearError : V unit := put (set_error None).

(** *** Waiting *)

(** [IIdle]: a due timer of the tracker runs [fireIdle]; there is none when the
    tracker is stopped. *)
Definition interrupt_run (i : interrupt) : V unit :=
  match i with
  | ILock => lock
  | IIdle => o ← gets (λ w, currentOptions (tracker w));
             if bool_decide (is_Some o) then onIdle else mret tt
  | IClearError => clearError
  | ITick ms => modify (λ w, set_tracker (tick ms (tracker w)) w)
  | IRemote f => modify (λ w, set_srv (f (srv w)) w)
  end.

Fixpoint interrupts_run (l : list interrupt) : V unit :=
  match l with
  | [] => mret tt
  | i :: l => interrupt_run i;; interrupts_run l
  end.

(** The tasks that run during one wait, then the handler again. *)
Definition pause : V unit := λ w,
  match sched w with
  | [] => (Ok tt, w)
  | l :: rest => interrupts_run l (set_sched rest w)
  end.

(** A request: other tasks may run before the server handles it and before its
    answer arrives. *)
Definition request {A} (call : Srv → res A * Srv) : V A :=
  pause;;
  r ← (λ w, let (r, s) := call (srv w) in (Ok r, set_srv s w));
  pause;;
  match r with Ok a => mret a | Throw e => throw e end.

(** *** The clock and randomness *)

Definition now : V jsstring := gets (λ w, toISOString (clock (tracker w))).

Context `{PF : Platform}.

Definition random (n : nat) : V (list N) := λ w,
  (Ok (getRandomValues (draws w) n), set_draws (S (draws w)) w).

(** *** localStorage *)

Definition getItem (k : jsstring) : V (option jsstring) := gets (λ w, localStorage w !! k).
Definition removeItem (k : jsstring) : V unit :=
  modify (λ w, set_localStorage (delete k (localStorage w)) w).

(** [None] when the browser throws a QuotaExceededError. *)
Definition try_setItem (k v : jsstring) : V (option unit) := λ w,
  if fits (localStorage w) k v
  then (Ok (Some tt), set_localStorage (<[k := v]> (localStorage w)) w)
  else (Ok None, w).

(** A bare [localStorage.setItem]: the DOMException escapes. *)
Definition quota_exception : exn := Error (js "The quota has been exceeded.").
Definition setItem (k v : jsstring) : V unit :=
  r ← try_setItem k v;
  match r with Some _ => mret tt | None => throw quota_exception end.

(** *** The signed-in user (getScope in stores/vaultStore.ts) *)

Definition getScope : V (option VaultScope) :=
  u ← gets auth_user; t ← gets auth_tenant;
  mret (match u, t with
        | Some u, Some t => if truthy u && truthy t then Some (mkScope u t) else None
        | _, _ => None
        end).

End World.

(** A handler of the vault. *)
Notation V := (M World).
