(* ===== verification/VaultCrypto.v ===== *)
(** * Vault cryptography: utils/vault-crypto.ts and utils/random-uuid.ts

    The envelope around Web Crypto: password-derived keys, the verifier that
    tells a right password from a wrong one, and the encrypted blob, all in
    base64.  The session key lives in [World]. *)

From S2P Require Import Prelude JsString JsJson JsEncoding JsDate VaultTypes VaultTracker VaultWorld.

Definition VERIFIER_PLAINTEXT : jsstring := js "shellhub-vault-ok".
Definition PBKDF2_ITERATIONS : Z := 600000.
Definition SALT_BYTES : nat := 16.
Definition IV_BYTES : nat := 12.

Section Crypto.
Context `{WC : WebCrypto} `{VA : VaultApi} `{PF : Platform}.

(** Raise the exception of a synchronous helper. *)
Definition lift {A} (r : res A) : V A := match r with Ok a => mret a | Throw e => throw e end.

(** A rejected [crypto.subtle.decrypt]: an OperationError. *)
Definition decrypt_error : exn := Error (js "The operation failed for an operation-specific reason").

(** importKey and deriveKey are two waits. *)
Definition deriveKey (password : jsstring) (salt : list N) (iterations : Z) : V CryptoKey :=
  pause;;
  pause;;
  mret (subtle_deriveKey (utf8_encode password) salt iterations).

Definition encrypt (key : CryptoKey) (plaintext : jsstring) : V VaultData :=
  iv ← random IV_BYTES;
  pause;;
  let ciphertext := subtle_encrypt key iv (utf8_encode plaintext) in
  mret (mkData (toBase64 iv) (toBase64 ciphertext)).

Definition decrypt (key : CryptoKey) (d : VaultData) : V jsstring :=
  iv ← lift (fromBase64 (iv d));
  ct ← lift (fromBase64 (ciphertext d));
  pause;;
  match subtle_decrypt key iv ct with
  | Some plaintext => mret (utf8_decode plaintext)
  | None => throw decrypt_error
  end.

Definition createVaultMeta (password : jsstring) : V (VaultMeta * CryptoKey) :=
  salt ← random SALT_BYTES;
  derivedKey ← deriveKey password salt PBKDF2_ITERATIONS;
  verifierIv ← random IV_BYTES;
  pause;;
  let verifierCiphertext := subtle_encrypt derivedKey verifierIv (utf8_encode VERIFIER_PLAINTEXT) in
  mret (mkMeta (toBase64 salt) PBKDF2_ITERATIONS (toBase64 verifierCiphertext) (toBase64 verifierIv),
        derivedKey).

Definition verifyPassword (password : jsstring) (meta : VaultMeta) : V CryptoKey :=
  salt ← lift (fromBase64 (salt meta));
  derivedKey ← deriveKey password salt (iterations meta);
  verifierIv ← lift (fromBase64 (verifierIv meta));
  verifierCiphertext ← lift (fromBase64 (verifier meta));
  pause;;
  match subtle_decrypt derivedKey verifierIv verifierCiphertext with
  | Some plaintext =>
      if bool_decide (utf8_decode plaintext ≠ VERIFIER_PLAINTEXT)
      then throw (Error (js "Vault verifier mismatch"))
      else mret derivedKey
  | None => throw decrypt_error
  end.

(** ** utils/random-uuid.ts *)

Definition uuid_template : jsstring := js "10000000-1000-4000-8000-100000000000".

(** The replacer of [/[018]/g] on one character, with the byte it draws. *)
Definition uuid_char (c : N) (byte : N) : N :=
  let n := (c - 48)%N in
  hex_digit (N.lxor n (N.land byte (N.shiftr 15 (n / 4)))).

Definition uuid_slot (c : N) : bool := (c =? 48)%N || (c =? 49)%N || (c =? 56)%N.

Fixpoint uuid_fill (template : jsstring) : V jsstring :=
  match template with
  | [] => mret []
  | c :: t =>
      c' ← (if uuid_slot c
            then bytes ← random 1; mret (uuid_char c (default 0%N (head bytes)))
            else mret c);
      t' ← uuid_fill t;
      mret (c' :: t')
  end.

Definition generateRandomUUID : V jsstring :=
  match native_randomUUID with
  | Some f => λ w, (Ok (f (draws w)), set_draws (S (draws w)) w)
  | None => uuid_fill uuid_template
  end.

End Crypto.

(** ** The envelope without the waits

    What [encrypt], [decrypt], [createVaultMeta] and [verifyPassword] compute,
    apart from the tasks that run while they wait. *)

Section Pure.
Context `{WC : WebCrypto}.

Definition seal (k : CryptoKey) (iv : list N) (plaintext : jsstring) : VaultData :=
  mkData (toBase64 iv) (toBase64 (subtle_encrypt k iv (utf8_encode plaintext))).

Definition unseal (k : CryptoKey) (d : VaultData) : res jsstring :=
  match fromBase64 (iv d) with
  | Throw e => Throw e
  | Ok i =>
      match fromBase64 (ciphertext d) with
      | Throw e => Throw e
      | Ok c => match subtle_decrypt k i c with Some p => Ok (utf8_decode p) | None => Throw decrypt_error end
      end
  end.

Definition derived (password : jsstring) (salt : list N) : CryptoKey :=
  subtle_deriveKey (utf8_encode password) salt PBKDF2_ITERATIONS.

Definition make_meta (password : jsstring) (salt iv : list N) : VaultMeta :=
  let v := seal (derived password salt) iv VERIFIER_PLAINTEXT in
  mkMeta (toBase64 salt) PBKDF2_ITERATIONS (ciphertext v) (VaultTypes.iv v).

Definition check_password (password : jsstring) (m : VaultMeta) : res CryptoKey :=
  match fromBase64 (salt m) with
  | Throw e => Throw e
  | Ok s =>
      let k := subtle_deriveKey (utf8_encode password) s (iterations m) in
      match unseal k (mkData (verifierIv m) (verifier m)) with
      | Throw e => Throw e
      | Ok t => if bool_decide (t ≠ VERIFIER_PLAINTEXT) then Throw (Error (js "Vault verifier mismatch")) else Ok k
      end
  end.

(** The key list a blob holds under a key: decrypted, parsed and validated. *)
Definition open_keys (k : CryptoKey) (d : VaultData) : option (list VaultKeyEntry) :=
  match unseal k d with
  | Ok t => parse t ≫= keys_of_json
  | Throw _ => None
  end.

Context `{WCL : !WebCryptoLaws}.

Lemma unseal_seal k iv p : Forall is_byte iv → Forall is_byte (utf8_encode p) →
  unseal k (seal k iv p) = Ok (utf8_decode (utf8_encode p)).
Proof.
  intros Hi Hp. unfold unseal, seal. cbn [VaultTypes.iv ciphertext].
  rewrite fromBase64_toBase64 by done. rewrite fromBase64_toBase64 by by apply encrypt_bytes.
  by rewrite decrypt_encrypt.
Qed.

(** What is sealed opens to the same keys. *)
Lemma open_seal_keys k iv ks : Forall is_byte iv → forallb entry_units ks = true →
  open_keys k (seal k iv (stringify (keys_json ks))) = Some ks.
Proof.
  intros Hi Hu. assert (json_units (keys_json ks) = true) as Hj by by apply keys_json_units.
  unfold open_keys. rewrite unseal_seal by eauto using utf8_stringify_bytes.
  rewrite utf8_stringify by done. rewrite parse_stringify by apply keys_json_wf. cbn [mbind option_bind].
  apply keys_of_keys_json.
Qed.

Lemma VERIFIER_bytes : Forall is_byte (utf8_encode VERIFIER_PLAINTEXT).
Proof. apply utf8_encode_bytes, Forall_ltb. by vm_compute. Qed.

(** The password a vault was created with is accepted and gives its key. *)
Lemma check_make_meta pw salt iv : Forall is_byte salt → Forall is_byte iv →
  check_password pw (make_meta pw salt iv) = Ok (derived pw salt).
Proof.
  intros Hs Hi. unfold check_password, make_meta. cbn [VaultTypes.salt iterations verifier verifierIv].
  rewrite fromBase64_toBase64 by done.
  change (mkData _ _) with (seal (derived pw salt) iv VERIFIER_PLAINTEXT).
  rewrite unseal_seal by (done || apply VERIFIER_bytes). by vm_compute (utf8_decode _).
Qed.

(** Another password is refused. *)
Lemma check_wrong_password `{IC : !IdealCrypto} pw pw' salt iv : Forall is_byte salt → Forall is_byte iv →
  considered (utf8_encode pw) → considered (utf8_encode pw') →
  utf8_encode pw' ≠ utf8_encode pw → ∃ e, check_password pw' (make_meta pw salt iv) = Throw e.
Proof.
  intros Hs Hi Hc Hc' Hne. unfold check_password, make_meta. cbn [VaultTypes.salt iterations verifier verifierIv].
  rewrite fromBase64_toBase64 by done. unfold unseal, seal. cbn [VaultTypes.iv ciphertext].
  rewrite fromBase64_toBase64 by done.
  rewrite fromBase64_toBase64 by (apply encrypt_bytes, VERIFIER_bytes).
  unfold derived. rewrite separates by congruence. by eexists.
Qed.

Lemma make_meta_iterations pw salt iv : iterations_ok (make_meta pw salt iv).
Proof. unfold iterations_ok. cbn. unfold PBKDF2_ITERATIONS. lia. Qed.

End Pure.

(** ** Without other tasks *)

Section Quiet.
Context `{WC : WebCrypto} `{VA : VaultApi} `{PF : Platform}.

(** No other task runs while a handler waits. *)
Definition quiet (w : World) : Prop := sched w = [].

Lemma pause_quiet w : quiet w → pause w = (Ok tt, w).
Proof. unfold quiet, pause. by intros ->. Qed.

Lemma request_quiet {A} (call : Srv → res A * Srv) w : quiet w →
  request call w = ((call (srv w)).1, set_srv (call (srv w)).2 w).
Proof.
  intros H. unfold request. rewrite (bind_ok _ _ _ _ _ (pause_quiet w H)).
  unfold mbind, M_bind. destruct (call (srv w)) as [r s].
  rewrite pause_quiet by exact H. by destruct r.
Qed.

Lemma request_bind {A B} (call : Srv → res A * Srv) (f : A → V B) w r s : quiet w →
  call (srv w) = (r, s) →
  (request call ≫= f) w = match r with Ok a => f a (set_srv s w) | Throw e => (Throw e, set_srv s w) end.
Proof. intros H E. unfold mbind, M_bind. rewrite request_quiet by done. by rewrite E. Qed.

Lemma encrypt_quiet k p w : quiet w →
  encrypt k p w = (Ok (seal k (getRandomValues (draws w) IV_BYTES) p), set_draws (S (draws w)) w).
Proof. intros H. unfold encrypt, random, mbind, M_bind. by rewrite pause_quiet by exact H. Qed.

Lemma decrypt_quiet k d w : quiet w → decrypt k d w = (unseal k d, w).
Proof.
  intros H. unfold decrypt, unseal, lift, mbind, M_bind.
  destruct (fromBase64 (iv d)); [|done]. cbn. destruct (fromBase64 (ciphertext d)); [|done]. cbn.
  rewrite pause_quiet by exact H. by destruct (subtle_decrypt _ _ _).
Qed.

Lemma deriveKey_quiet p s n w : quiet w →
  deriveKey p s n w = (Ok (subtle_deriveKey (utf8_encode p) s n), w).
Proof. intros H. unfold deriveKey, mbind, M_bind. by rewrite !pause_quiet by exact H. Qed.

Lemma createVaultMeta_quiet pw w : quiet w →
  createVaultMeta pw w =
    (Ok (make_meta pw (getRandomValues (draws w) SALT_BYTES) (getRandomValues (S (draws w)) IV_BYTES),
         derived pw (getRandomValues (draws w) SALT_BYTES)), set_draws (S (S (draws w))) w).
Proof.
  intros H. unfold createVaultMeta, random, mbind, M_bind. cbn [draws set_draws].
  rewrite deriveKey_quiet by exact H. cbn [draws set_draws]. by rewrite pause_quiet by exact H.
Qed.

Lemma verifyPassword_quiet pw m w : quiet w → verifyPassword pw m w = (check_password pw m, w).
Proof.
  intros H. unfold verifyPassword, check_password, lift, mbind, M_bind.
  destruct (fromBase64 (salt m)); [|done]. cbn. rewrite deriveKey_quiet by done.
  unfold unseal. cbn [VaultTypes.iv ciphertext].
  destruct (fromBase64 (verifierIv m)); [|done]. cbn. destruct (fromBase64 (verifier m)); [|done]. cbn.
  rewrite pause_quiet by exact H. destruct (subtle_decrypt _ _ _); [|done]. by case_bool_decide.
Qed.

End Quiet.

(** ** UUIDs *)

(** RFC 9562, version 4: [x] is a lower-case hexadecimal digit, [y] one of 8, 9,
    a, b; any other character stands for itself. *)
Definition v4_pattern : jsstring := js "xxxxxxxx-xxxx-4xxx-yxxx-xxxxxxxxxxxx".

Definition is_lower_hex (c : N) : bool := is_digit c || in_range 97 102 c.

Definition v4_char (p c : N) : bool :=
  if (p =? 120)%N then is_lower_hex c
  else if (p =? 121)%N then (in_range 56 57 c || in_range 97 98 c)
  else (p =? c)%N.

Fixpoint v4_match (p s : jsstring) : bool :=
  match p, s with
  | [], [] => true
  | a :: p, b :: s => v4_char a b && v4_match p s
  | _, _ => false
  end.

Definition is_uuid_v4 (s : jsstring) : bool := v4_match v4_pattern s.

Section Uuid.
Context `{WC : WebCrypto} `{VA : VaultApi} `{PF : Platform}.

Lemma hex_digit_lower n : (n < 16)%N → is_lower_hex (hex_digit n) = true.
Proof.
  intros H. apply (N.lt_le_pred n 16) in H. cbn in H.
  assert (∃ k, (k <= 15)%nat ∧ n = N.of_nat k) as (k & Hk & ->).
  { exists (N.to_nat n). lia. }
  do 16 (destruct k as [|k]; [by vm_compute|]). lia.
Qed.

Lemma land_mask b m : (N.land b (N.ones m) < 2 ^ m)%N.
Proof. rewrite N.land_ones. apply N.mod_lt, N.pow_nonzero. done. Qed.

(** The three kinds of slot, whatever byte is drawn. *)
Lemma uuid_char_0 b : is_lower_hex (uuid_char 48 b) = true.
Proof.
  apply hex_digit_lower. change (N.shiftr 15 ((48 - 48) / 4)) with (N.ones 4).
  change (48 - 48)%N with 0%N. rewrite N.lxor_0_l. apply (land_mask b 4).
Qed.

Lemma small_cases (P : N → Prop) (m : nat) n :
  (n < N.of_nat m)%N → (∀ k, (k < m)%nat → P (N.of_nat k)) → P n.
Proof. intros H HP. rewrite <-(N2Nat.id n). apply HP. lia. Qed.

Lemma uuid_char_1 b : is_lower_hex (uuid_char 49 b) = true.
Proof.
  apply hex_digit_lower. change (N.shiftr 15 ((49 - 48) / 4)) with (N.ones 4).
  change (49 - 48)%N with 1%N. pose proof (land_mask b 4) as H. revert H.
  generalize (N.land b (N.ones 4)). intros n H.
  apply (small_cases (λ n, N.lxor 1 n < 16)%N 16 n H). intros k Hk.
  do 16 (destruct k as [|k]; [by vm_compute|]). lia.
Qed.

Lemma uuid_char_8 b : v4_char 121 (uuid_char 56 b) = true.
Proof.
  unfold uuid_char. change (N.shiftr 15 ((56 - 48) / 4)) with (N.ones 2).
  change (56 - 48)%N with 8%N. pose proof (land_mask b 2) as H. revert H.
  generalize (N.land b (N.ones 2)). intros n H.
  apply (small_cases (λ n, v4_char 121 (hex_digit (N.lxor 8 n)) = true) 4 n H). intros k Hk.
  do 4 (destruct k as [|k]; [by vm_compute|]). lia.
Qed.

(** A slot of the template against the pattern. *)
Definition slot_ok (p c : N) : bool :=
  if uuid_slot c then (if (c =? 56)%N then (p =? 121)%N else (p =? 120)%N) else (p =? c)%N && negb (p =? 120)%N && negb (p =? 121)%N.

Fixpoint slots_ok (p t : jsstring) : bool :=
  match p, t with
  | [], [] => true
  | a :: p, b :: t => slot_ok a b && slots_ok p t
  | _, _ => false
  end.

Lemma uuid_fill_ok p t w : slots_ok p t = true →
  ∃ u n, uuid_fill t w = (Ok u, set_draws n w) ∧ v4_match p u = true.
Proof.
  revert p w. induction t as [|c t IH]; intros [|a p] w H; try done.
  { exists [], (draws w). by destruct w. }
  cbn in H. apply andb_prop in H as [Hs Ht]. cbn [uuid_fill]. unfold slot_ok in Hs.
  destruct (uuid_slot c) eqn:Ec.
  - set (b := default 0%N (head (getRandomValues (draws w) 1))).
    destruct (IH p (set_draws (S (draws w)) w) Ht) as (u & n & E & Hu).
    exists (uuid_char c b :: u), n. split.
    + unfold random, mbind, M_bind, mret, M_ret in *. cbn beta iota. rewrite E. by destruct w.
    + cbn [v4_match]. rewrite Hu, andb_true_r. unfold uuid_slot in Ec.
      destruct (N.eqb_spec c 56) as [->|]; [apply N.eqb_eq in Hs as ->; apply uuid_char_8|].
      apply N.eqb_eq in Hs as ->. unfold v4_char. cbn [N.eqb Pos.eqb].
      destruct (N.eqb_spec c 48) as [->|]; [apply uuid_char_0|].
      destruct (N.eqb_spec c 49) as [->|]; [apply uuid_char_1|done].
  - destruct (IH p w Ht) as (u & n & E & Hu). exists (c :: u), n. split.
    + unfold mbind, M_bind, mret, M_ret in *. by rewrite E.
    + cbn [v4_match]. rewrite Hu, andb_true_r. apply andb_prop in Hs as [Hs H2].
      apply andb_prop in Hs as [H0 H1]. unfold v4_char.
      apply negb_true_iff in H1, H2. by rewrite H1, H2.
Qed.

(** In a context without crypto.randomUUID the fallback always produces a
    well-formed version 4 UUID, whatever random bytes it draws, and changes
    nothing but the random source. *)
Theorem uuid_fallback_v4 w : native_randomUUID = None →
  ∃ u n, generateRandomUUID w = (Ok u, set_draws n w) ∧ is_uuid_v4 u = true.
Proof.
  intros E. unfold generateRandomUUID. rewrite E. apply uuid_fill_ok. by vm_compute.
Qed.

Lemma v4_char_units p c : (p < 128)%N → v4_char p c = true → (c < 65536)%N.
Proof.
  unfold v4_char, is_lower_hex, is_digit, in_range. intros Hp H.
  destruct (p =? 120)%N, (p =? 121)%N;
    rewrite ?orb_true_iff, ?andb_true_iff, ?N.leb_le, ?N.eqb_eq in H; lia.
Qed.

Lemma v4_match_units p s : Forall (λ c, c < 128)%N p → v4_match p s = true → units_ok s = true.
Proof.
  intros Hp. revert s. induction Hp; intros [|c s] H1; try done. cbn in H1.
  apply andb_prop in H1 as [H1 H2]. change (units_ok (c :: s)) with ((c <? 65536)%N && units_ok s).
  rewrite (IHHp s H2), andb_true_r. apply N.ltb_lt. by eapply v4_char_units.
Qed.

(** An id is made of code units and drawing it only moves the random source. *)
Lemma generateRandomUUID_ok `{PFL : !PlatformLaws} w :
  ∃ u n, generateRandomUUID w = (Ok u, set_draws n w) ∧ units_ok u = true.
Proof.
  unfold generateRandomUUID. destruct native_randomUUID as [f|] eqn:E.
  - eexists _, _. split; [done|]. by eapply native_uuid_units.
  - destruct (uuid_fill_ok v4_pattern uuid_template w) as (u & n & Hu & Hm); [by vm_compute|].
    exists u, n. split; [done|]. eapply v4_match_units; [|exact Hm]. by apply Forall_ltb; vm_compute.
Qed.

End Uuid.
