(* ===== verification/VaultBackend.v ===== *)
(** * Vault storage

    utils/vault-backend.ts (the interface), utils/vault-backend-local.ts,
    utils/vault-backend-server.ts, utils/vault-backend-factory.ts and
    utils/vault-migrate.ts.  A promise that the event loop settles at once (every
    operation of the local backend) is not a [pause]: no other task runs before
    the handler continues. *)

From S2P Require Import Prelude JsString JsJson JsEncoding JsDate VaultTypes VaultTracker.
From S2P Require Import VaultWorld VaultCrypto.

Section Backend.
Context `{WC : WebCrypto} `{VA : VaultApi} `{PF : Platform}.

(** ** vault-backend.ts *)

Record IVaultBackend := {
  loadMeta : V (option VaultMeta);
  saveMeta : VaultMeta → V unit;
  loadData : V (option VaultData);
  saveData : VaultData → V unit;
  clear : V unit;
  loadLegacyKeys : V (list LegacyPrivateKey);
  clearLegacyKeys : V unit;
  loadSettings : V VaultSettings;
  saveSettings : VaultSettings → V unit;
}.

(** ** vault-backend-local.ts *)

Definition VAULT_META_KEY : jsstring := js "shellhub-vault-meta".
Definition VAULT_DATA_KEY : jsstring := js "shellhub-vault-data".
Definition VAULT_SETTINGS_KEY : jsstring := js "shellhub-vault-settings".
Definition LEGACY_KEYS_KEY : jsstring := js "privateKeys".

Definition prefixKey (base : jsstring) (prefix : option jsstring) : jsstring :=
  match prefix with
  | Some p => if truthy p then base ++ js ":" ++ p else base
  | None => base
  end.

Definition scope_prefix (scope : option VaultScope) : option jsstring :=
  (λ s, scope_user s ++ js ":" ++ scope_tenant s) <$> scope.

Definition localVaultExists (scope : option VaultScope) : V bool :=
  item ← getItem (prefixKey VAULT_META_KEY (scope_prefix scope));
  mret (bool_decide (is_Some item)).

Definition quota_message : jsstring := js "Storage quota exceeded. Free up space or reset the vault.".

Definition safeSetItem (key value : jsstring) : V unit :=
  r ← try_setItem key value;
  match r with Some _ => mret tt | None => throw (Error quota_message) end.

Definition settle (write : V unit) : V unit :=
  try_catch write (λ err, match err with Error _ => throw err | Thrown s => throw (Error s) end).

Definition loadLegacyKeysFromStorage : V (list LegacyPrivateKey) :=
  item ← getItem LEGACY_KEYS_KEY;
  match parse (nullish item (js "[]")) with
  | Some (JArr raw) => mret (omap legacy_of_json raw)
  | _ => mret []
  end.

Definition clearLegacyKeysFromStorage : V unit := removeItem LEGACY_KEYS_KEY.

Definition LocalVaultBackend (scope : option VaultScope) : IVaultBackend :=
  let prefix := scope_prefix scope in
  {|
    loadMeta := parseVaultMeta <$> getItem (prefixKey VAULT_META_KEY prefix);
    saveMeta meta :=
      settle (safeSetItem (prefixKey VAULT_META_KEY prefix) (stringify (meta_json meta)));
    loadData := parseVaultData <$> getItem (prefixKey VAULT_DATA_KEY prefix);
    saveData d :=
      settle (safeSetItem (prefixKey VAULT_DATA_KEY prefix) (stringify (data_json d)));
    clear :=
      removeItem (prefixKey VAULT_META_KEY prefix);;
      removeItem (prefixKey VAULT_DATA_KEY prefix);;
      removeItem (prefixKey VAULT_SETTINGS_KEY prefix);;
      mret tt;
    loadSettings := parseVaultSettings <$> getItem (prefixKey VAULT_SETTINGS_KEY prefix);
    saveSettings s :=
      settle (safeSetItem (prefixKey VAULT_SETTINGS_KEY prefix) (stringify (settings_json s)));
    loadLegacyKeys := loadLegacyKeysFromStorage;
    clearLegacyKeys := clearLegacyKeysFromStorage;
  |}.

(** ** vault-backend-server.ts *)

Definition scopeKey (scope : option VaultScope) : jsstring :=
  match scope with
  | Some s => scope_user s ++ js ":" ++ scope_tenant s
  | None => []
  end.

Definition version (key : jsstring) : V Z := gets (λ w, nullish (versionRegistry w !! key) 0).

Definition track (key : jsstring) (v : option Z) : V unit :=
  match v with
  | Some n => modify (λ w, set_versionRegistry (<[key := n]> (versionRegistry w)) w)
  | None => mret tt
  end.

Definition load_error : exn := Error (js "Failed to load the vault from the server.").
Definition save_error : exn := Error (js "Failed to save the vault to the server.").
Definition reset_error : exn := Error (js "Failed to reset the vault on the server.").
Definition settings_error : exn := Error (js "Failed to save the vault settings to the server.").
Definition conflict_error : exn :=
  Error (js "The vault was changed in another session. Reload the vault and try again.").

(** [None] when the vault does not exist yet (404). *)
Definition fetch (key : jsstring) : V (option VaultResponse) :=
  r ← request getVault;
  if reply_status r =? 404 then mret None
  else
    match reply_error r, reply_data r with
    | false, Some data => track key (resp_version data);; mret (Some data)
    | _, _ => throw load_error
    end.

(** The end of a write: [if (error || !data) throw ...; this.track(data)]. *)
Definition written (key : jsstring) (e : exn) (r : Reply VersionResponse) : V unit :=
  match reply_error r, reply_data r with
  | false, Some v => track key v
  | _, _ => throw e
  end.

Definition server_saveData (key : jsstring) (d : VaultData) : V unit :=
  v ← version key;
  r ← request (saveVaultData (stringify (data_json d)) v);
  if reply_status r =? 409 then
    try_catch (fetch key) (λ _, mret None);;
    throw conflict_error
  else written key save_error r.

Definition server_clear (key : jsstring) : V unit :=
  r ← request deleteVault;
  if reply_error r && negb (reply_status r =? 404) then throw reset_error
  else modify (λ w, set_versionRegistry (delete key (versionRegistry w)) w).

Definition ServerVaultBackend (scope : option VaultScope) : IVaultBackend :=
  let key := scopeKey scope in
  {|
    loadMeta := vault ← fetch key; mret (parseVaultMeta (vault ≫= resp_meta));
    saveMeta meta :=
      r ← request (saveVaultMeta (stringify (meta_json meta)));
      written key save_error r;
    loadData := vault ← fetch key; mret (parseVaultData (vault ≫= resp_data));
    saveData := server_saveData key;
    clear := server_clear key;
    loadSettings :=
      vault ← try_catch (fetch key) (λ _, mret None);
      mret (parseVaultSettings (vault ≫= resp_settings));
    saveSettings s :=
      r ← request (saveVaultSettings (stringify (settings_json s)));
      written key settings_error r;
    loadLegacyKeys := loadLegacyKeysFromStorage;
    clearLegacyKeys := clearLegacyKeysFromStorage;
  |}.

(** ** vault-backend-factory.ts *)

Definition VAULT_STORAGE_MODE_KEY : jsstring := js "shellhub-vault-storage".
Definition VAULT_SYNC_PROMO_KEY : jsstring := js "shellhub-vault-sync-promo-dismissed".

Definition scoped (base : jsstring) (scope : option VaultScope) : jsstring :=
  match scope with
  | Some s => base ++ js ":" ++ scope_user s ++ js ":" ++ scope_tenant s
  | None => base
  end.
Definition modeKey : option VaultScope → jsstring := scoped VAULT_STORAGE_MODE_KEY.
Definition promoKey : option VaultScope → jsstring := scoped VAULT_SYNC_PROMO_KEY.

Definition mode_string (m : VaultStorageMode) : jsstring :=
  match m with local_mode => js "local" | server_mode => js "server" end.

Definition isEnterpriseOrCloud : bool := bool_decide (edition ≠ community).
Definition isVaultServerEnabled : bool := isEnterpriseOrCloud.

Definition getVaultStorageMode (scope : option VaultScope) : V VaultStorageMode :=
  if negb isVaultServerEnabled then mret local_mode
  else
    stored ← getItem (modeKey scope);
    if bool_decide (stored = Some (js "local")) then mret local_mode
    else if bool_decide (stored = Some (js "server")) then mret server_mode
    else
      b ← localVaultExists scope;
      mret (if b : bool then local_mode else server_mode).

Definition setVaultStorageMode (m : VaultStorageMode) (scope : option VaultScope) : V unit :=
  setItem (modeKey scope) (mode_string m).

Definition isVaultSyncPromoDismissed (scope : option VaultScope) : V bool :=
  item ← getItem (promoKey scope); mret (bool_decide (item = Some (js "true"))).

Definition dismissVaultSyncPromo (scope : option VaultScope) : V unit :=
  setItem (promoKey scope) (js "true").

Definition getVaultBackend (scope : option VaultScope) : V IVaultBackend :=
  m ← getVaultStorageMode scope;
  mret (match m with
        | server_mode => ServerVaultBackend scope
        | local_mode => LocalVaultBackend scope
        end).

(** ** vault-migrate.ts *)

Definition serverVaultExists (scope : option VaultScope) : V bool :=
  m ← loadMeta (ServerVaultBackend scope); mret (bool_decide (is_Some m)).

Definition migrateLocalToServer (scope : option VaultScope) : V unit :=
  let local := LocalVaultBackend scope in
  let server := ServerVaultBackend scope in
  meta ← loadMeta local;
  match meta with
  | None => throw (Error (js "No local vault to migrate."))
  | Some meta =>
      data ← loadData local;
      settings ← loadSettings local;
      clear server;;
      saveMeta server meta;;
      match data with Some d => saveData server d | None => mret tt end;;
      saveSettings server settings;;
      clear local;;
      setVaultStorageMode server_mode scope
  end.

Definition adoptServerVault (scope : option VaultScope) : V unit :=
  clear (LocalVaultBackend scope);;
  setVaultStorageMode server_mode scope.

Definition migrateServerToLocal (scope : option VaultScope) : V unit :=
  let local := LocalVaultBackend scope in
  let server := ServerVaultBackend scope in
  meta ← loadMeta server;
  match meta with
  | None => throw (Error (js "No synced vault to migrate."))
  | Some meta =>
      data ← loadData server;
      settings ← loadSettings server;
      saveMeta local meta;;
      match data with Some d => saveData local d | None => mret tt end;;
      saveSettings local settings;;
      clear server;;
      setVaultStorageMode local_mode scope
  end.

End Backend.
