(* ===== verification/VaultStore.v ===== *)
(** * The vault store: stores/vaultStore.ts

    Every action of the store, from its first statement to its last, over the
    world of [VaultWorld].  [lock], [clearError], the [onIdle] callback and
    [startTracker] are there, because they can run while another action waits.
    An action ends in [Ok tt] or, for the three key actions, in the exception
    its caller shows. *)

From S2P Require Import Prelude JsString JsJson JsEncoding JsDate VaultTypes VaultTracker.
From S2P Require Import VaultWorld VaultCrypto VaultBackend.

(** ** Duplicate detection *)

Inductive DuplicateField := dup_name | dup_private_key | dup_both.

Definition field_string (f : DuplicateField) : jsstring :=
  match f with
  | dup_name => js "name"
  | dup_private_key => js "private_key"
  | dup_both => js "both"
  end.

(** [DuplicateKeyError]: the field is the end of the message. *)
Definition DuplicateKeyError (f : DuplicateField) : exn := Error (js "Duplicate key: " ++ field_string f).

(** [existing.some((key) => key.id !== excludeId && ...)] *)
Definition other (excludeId : option jsstring) (k : VaultKeyEntry) : bool :=
  bool_decide (Some (id k) ≠ excludeId).

Definition checkDuplicates (existing : list VaultKeyEntry) (n f : option jsstring)
    (excludeId : option jsstring) : option DuplicateField :=
  let hasDuplicateName :=
    match n with
    | Some n => existsb (λ k, other excludeId k && bool_decide (name k = n)) existing
    | None => false
    end in
  let hasDuplicateKey :=
    match f with
    | Some f => existsb (λ k, other excludeId k && bool_decide (fingerprint k = f)) existing
    | None => false
    end in
  if hasDuplicateName && hasDuplicateKey then Some dup_both
  else if hasDuplicateName then Some dup_name
  else if hasDuplicateKey then Some dup_private_key
  else None.

(** ** The arguments of the key actions *)

(** Pick<VaultKeyEntry, "name" | "data" | "hasPassphrase" | "fingerprint" | "algorithm"> *)
Record KeyInput := mkInput {
  in_name : jsstring;
  in_data : jsstring;
  in_hasPassphrase : bool;
  in_fingerprint : jsstring;
  in_algorithm : option jsstring;
}.

(** Its [Partial]: [None] is an absent property.  [algorithm] is optional in the
    entry too, so it may be present and [undefined]. *)
Record KeyUpdates := mkUpdates {
  up_name : option jsstring;
  up_data : option jsstring;
  up_hasPassphrase : option bool;
  up_fingerprint : option jsstring;
  up_algorithm : option (option jsstring);
}.

(** [{ ...entry, id, createdAt: now, updatedAt: now }] *)
Definition new_entry (e : KeyInput) (id now : jsstring) : VaultKeyEntry :=
  mkEntry id (in_name e) (in_data e) (in_hasPassphrase e) (in_fingerprint e) (in_algorithm e) now now.

(** [{ ...key, ...updates, updatedAt: now }] *)
Definition apply_updates (u : KeyUpdates) (now : jsstring) (k : VaultKeyEntry) : VaultKeyEntry :=
  mkEntry (id k) (nullish (up_name u) (name k)) (nullish (up_data u) (data k))
    (nullish (up_hasPassphrase u) (hasPassphrase k)) (nullish (up_fingerprint u) (fingerprint k))
    (nullish (up_algorithm u) (algorithm k)) (createdAt k) now.

Definition has_id (i : jsstring) (k : VaultKeyEntry) : bool := bool_decide (id k = i).

Definition update_keys (i : jsstring) (u : KeyUpdates) (now : jsstring) : list VaultKeyEntry → list VaultKeyEntry :=
  map (λ k, if has_id i k then apply_updates u now k else k).

Definition remove_keys (i : jsstring) : list VaultKeyEntry → list VaultKeyEntry :=
  List.filter (λ k, negb (has_id i k)).

Section Store.
Context `{WC : WebCrypto} `{VA : VaultApi} `{PF : Platform}.

Definition getBackend : V IVaultBackend := scope ← getScope; getVaultBackend scope.

Definition locked_error : exn := Error (js "Vault is locked").
Definition not_found_error : exn := Error (js "Key not found").
Definition corrupted_error : exn := Error (js "Vault data is corrupted").

Definition persistKeys (ks : list VaultKeyEntry) (be : option IVaultBackend) : V unit :=
  key ← getSessionKey;
  match key with
  | None => throw locked_error
  | Some key =>
      backend ← match be with Some b => mret b | None => getBackend end;
      data ← encrypt key (stringify (keys_json ks));
      saveData backend data
  end.

Fixpoint migrateLegacyKeys_at (now : jsstring) (legacy : list LegacyPrivateKey) : V (list VaultKeyEntry) :=
  match legacy with
  | [] => mret []
  | e :: rest =>
      i ← generateRandomUUID;
      ks ← migrateLegacyKeys_at now rest;
      mret (mkEntry i (legacy_name e) (legacy_data e) (legacy_hasPassphrase e)
              (legacy_fingerprint e) None now now :: ks)
  end.

Definition migrateLegacyKeys (legacy : list LegacyPrivateKey) : V (list VaultKeyEntry) :=
  now ← now; migrateLegacyKeys_at now legacy.

Definition loadSettingsIntoState : V unit :=
  swallow (
    backend ← getBackend;
    s ← loadSettings backend;
    put (set_settings s)).

(** [set({ loading: false, error: msg })] *)
Definition fail_with (msg : jsstring) : V unit := put (set_error (Some msg) ∘ set_loading false).

Definition refreshStatus : V unit :=
  scope ← getScope;
  m ← getVaultStorageMode scope;
  put (set_mode m);;
  or_return
    (try_catch (backend ← getBackend; inr <$> loadMeta backend)
      (λ err, put (set_error (Some (error_message (js "Failed to load the vault") err)));; mret (inl tt)))
    (λ meta,
      match meta with
      | None => on_tracker stop;; put (set_status uninitialized)
      | Some _ =>
          loadSettingsIntoState;;
          key ← getSessionKey;
          match key with
          | None => on_tracker stop;; put (set_status locked)
          | Some _ => put (set_status unlocked)
          end
      end).

Definition initialize (masterPassword : jsstring) (mode : option VaultStorageMode) : V unit :=
  put (set_error None ∘ set_loading true);;
  match mode with
  | Some m => scope ← getScope; setVaultStorageMode m scope;; put (set_mode m)
  | None => mret tt
  end;;
  backend ← getBackend;
  try_catch
    (mk ← createVaultMeta masterPassword;
     let '(meta, derivedKey) := mk in
     saveMeta backend meta;;
     setSessionKey derivedKey;;
     legacyKeys ← loadLegacyKeys backend;
     ks ← (match legacyKeys with [] => mret [] | _ => migrateLegacyKeys legacyKeys end);
     persistKeys ks None;;
     (match legacyKeys with [] => mret tt | _ => clearLegacyKeys backend end);;
     put (set_loading false ∘ set_keys ks ∘ set_status unlocked);;
     loadSettingsIntoState;;
     startTracker)
    (λ err,
      swallow (clear backend);;
      clearSessionKey;;
      fail_with (error_message (js "Failed to create vault") err)).

(** [JSON.parse] in a handler: a SyntaxError when the text is malformed. *)
Definition json_parse (text : jsstring) : V json :=
  match parse text with Some j => mret j | None => throw (Error (js "Unexpected token in JSON")) end.

Definition unlock (masterPassword : jsstring) : V unit :=
  put (set_error None ∘ set_loading true);;
  try_catch
    (backend ← getBackend;
     meta ← loadMeta backend;
     match meta with
     | None => fail_with (js "No vault found")
     | Some meta =>
         or_return
           (try_catch (inr <$> verifyPassword masterPassword meta)
             (λ _, fail_with (js "Incorrect master password");; mret (inl tt)))
           (λ derivedKey,
             setSessionKey derivedKey;;
             try_catch
               (vaultData ← loadData backend;
                parsed ← match vaultData with
                         | Some d => text ← decrypt derivedKey d; json_parse text
                         | None => mret (JArr [])
                         end;
                match keys_of_json parsed with
                | None => throw corrupted_error
                | Some ks =>
                    put (set_loading false ∘ set_keys ks ∘ set_status unlocked);;
                    loadSettingsIntoState;;
                    startTracker
                end)
               (λ _, clearSessionKey;; fail_with (js "Vault data is corrupted")))
     end)
    (λ err,
      clearSessionKey;;
      fail_with (error_message (js "Failed to unlock vault") err)).

(** The end of a key action: [if (get().status !== "unlocked") return; set({ keys })]. *)
Definition commit_keys (ks : list VaultKeyEntry) : V unit :=
  st ← peek status;
  if bool_decide (st ≠ unlocked) then mret tt else put (set_keys ks).

Definition addKey (entry : KeyInput) : V unit :=
  existing ← peek keys;
  match checkDuplicates existing (Some (in_name entry)) (Some (in_fingerprint entry)) None with
  | Some f => throw (DuplicateKeyError f)
  | None =>
      now ← now;
      i ← generateRandomUUID;
      let ks := existing ++ [new_entry entry i now] in
      persistKeys ks None;;
      commit_keys ks
  end.

Definition updateKey (i : jsstring) (updates : KeyUpdates) : V unit :=
  existing ← peek keys;
  if negb (existsb (has_id i) existing) then throw not_found_error
  else
    match checkDuplicates existing (up_name updates) (up_fingerprint updates) (Some i) with
    | Some f => throw (DuplicateKeyError f)
    | None =>
        now ← now;
        let ks := update_keys i updates now existing in
        persistKeys ks None;;
        commit_keys ks
    end.

Definition removeKey (i : jsstring) : V unit :=
  existing ← peek keys;
  if negb (existsb (has_id i) existing) then throw not_found_error
  else
    let ks := remove_keys i existing in
    persistKeys ks None;;
    commit_keys ks.

Definition session_error : exn := Error (js "Session key missing while vault is unlocked").

(** The re-encryption, with the rollback of its [catch]. *)
Definition replace_key (backend : IVaultBackend) (oldKey newKey : CryptoKey)
    (oldData : option VaultData) (oldMeta newMeta : VaultMeta) : V unit :=
  setSessionKey newKey;;
  try_catch
    (ks ← peek keys;
     persistKeys ks (Some backend);;
     saveMeta backend newMeta)
    (λ err,
      setSessionKey oldKey;;
      match oldData with Some d => swallow (saveData backend d) | None => mret tt end;;
      swallow (saveMeta backend oldMeta);;
      throw err).

Definition changeMasterPassword (currentPassword newPassword : jsstring) : V unit :=
  put (set_error None ∘ set_loading true);;
  try_catch
    (backend ← getBackend;
     meta ← loadMeta backend;
     match meta with
     | None => fail_with (js "No vault found")
     | Some meta =>
         st ← peek status;
         if bool_decide (st ≠ unlocked) then throw locked_error
         else
           oldKey ← getSessionKey;
           match oldKey with
           | None => throw session_error
           | Some oldKey =>
               or_return
                 (try_catch (inr <$> verifyPassword currentPassword meta)
                   (λ _, fail_with (js "Current password is incorrect");; mret (inl tt)))
                 (λ _,
                   mk ← createVaultMeta newPassword;
                   let '(newMeta, newKey) := mk in
                   st ← peek status;
                   if bool_decide (st ≠ unlocked)
                   then fail_with (js "Vault locked during password change")
                   else
                     oldData ← loadData backend;
                     replace_key backend oldKey newKey oldData meta newMeta;;
                     put (set_loading false))
           end
     end)
    (λ err, fail_with (error_message (js "Failed to change master password") err)).

Definition resetVault : V unit :=
  backend ← getBackend;
  or_return
    (try_catch (inr <$> clear backend)
      (λ err, put (set_error (Some (error_message (js "Failed to reset the vault") err)));; mret (inl tt)))
    (λ _,
      clearSessionKey;;
      on_tracker stop;;
      put (set_settings DEFAULT_VAULT_SETTINGS ∘ set_error None ∘ set_keys [] ∘ set_status uninitialized)).

(** [updates]: an optional timeout and an optional [lockOnHidden]. *)
Definition updateAutoLockSettings (timeout : option Z) (onHidden : option bool) : V unit :=
  current ← peek settings;
  let newSettings := mkSettings (nullish timeout (autoLockTimeoutMinutes current))
                       (nullish onHidden (lockOnHidden current)) in
  backend ← getBackend;
  or_return
    (try_catch (inr <$> saveSettings backend newSettings)
      (λ err, put (set_error (Some (error_message (js "Failed to save vault settings") err)));; mret (inl tt)))
    (λ _,
      put (set_settings newSettings);;
      st ← peek status;
      if bool_decide (st = unlocked) then startTracker else mret tt).

End Store.
