(* ===== verification/VaultLaws.v ===== *)
(** * What a vault backend promises to the store

    The store only talks to [IVaultBackend].  This file states the contract it
    relies on, [LawfulBackend], in terms of what is stored ([View]), and proves
    it for the local backend, and for the server backend given the documented
    behaviour of the vault endpoints ([VaultApiLaws]).  The contract is about a
    handler that runs without interruption ([quiet]); what other tasks can do is
    the subject of [VaultRaces]. *)

From S2P Require Import Prelude JsString JsJson JsEncoding JsDate VaultTypes VaultTracker.
From S2P Require Import VaultWorld VaultCrypto VaultBackend VaultStore.

(** ** The stored vault *)

Record View := mkView {
  v_meta : option VaultMeta;
  v_data : option VaultData;
  v_settings : VaultSettings;
  v_legacy : list LegacyPrivateKey;
}.

Definition with_meta (m : VaultMeta) (v : View) : View :=
  mkView (Some m) (v_data v) (v_settings v) (v_legacy v).
Definition with_data (d : VaultData) (v : View) : View :=
  mkView (v_meta v) (Some d) (v_settings v) (v_legacy v).
Definition with_settings (s : VaultSettings) (v : View) : View :=
  mkView (v_meta v) (v_data v) s (v_legacy v).
Definition without_vault (v : View) : View :=
  mkView None None DEFAULT_VAULT_SETTINGS (v_legacy v).
Definition without_legacy (v : View) : View :=
  mkView (v_meta v) (v_data v) (v_settings v) [].

Section Laws.
Context `{WC : WebCrypto} `{VA : VaultApi} `{PF : Platform}.

(** The part of the world a backend may change. *)
#[projections(primitive)]
Record Place := mkPlace {
  p_storage : gmap jsstring jsstring;
  p_srv : Srv;
  p_registry : gmap jsstring Z;
}.

Definition place (w : World) : Place := mkPlace (localStorage w) (srv w) (versionRegistry w).

Definition set_place (p : Place) (w : World) : World :=
  mkWorld (p_storage p) (sessionKey w) (p_registry p) (p_srv p) (store w) (tracker w)
    (auth_user w) (auth_tenant w) (draws w) (sched w).

Lemma set_place_id w : set_place (place w) w = w.
Proof. by destruct w. Qed.

(** *** Which backend is chosen *)

Definition scope_of (u t : option jsstring) : option VaultScope :=
  match u, t with
  | Some u, Some t => if truthy u && truthy t then Some (mkScope u t) else None
  | _, _ => None
  end.

Definition mode_at (ok mk : jsstring) (s : gmap jsstring jsstring) : VaultStorageMode :=
  if negb isVaultServerEnabled then local_mode
  else if bool_decide (s !! ok = Some (js "local")) then local_mode
  else if bool_decide (s !! ok = Some (js "server")) then server_mode
  else if bool_decide (is_Some (s !! mk)) then local_mode
  else server_mode.

Definition meta_key (scope : option VaultScope) : jsstring := prefixKey VAULT_META_KEY (scope_prefix scope).
Definition data_key (scope : option VaultScope) : jsstring := prefixKey VAULT_DATA_KEY (scope_prefix scope).
Definition settings_key (scope : option VaultScope) : jsstring :=
  prefixKey VAULT_SETTINGS_KEY (scope_prefix scope).

Definition mode_of (scope : option VaultScope) : gmap jsstring jsstring → VaultStorageMode :=
  mode_at (modeKey scope) (meta_key scope).

Definition backend_of (scope : option VaultScope) (m : VaultStorageMode) : IVaultBackend :=
  match m with server_mode => ServerVaultBackend scope | local_mode => LocalVaultBackend scope end.

(** The signed-in user's vault [scope] is stored in [md]. *)
Definition selected (scope : option VaultScope) (md : VaultStorageMode) (w : World) : Prop :=
  scope_of (auth_user w) (auth_tenant w) = scope ∧ mode_of scope (localStorage w) = md.

Lemma getVaultStorageMode_eq scope w :
  getVaultStorageMode scope w = (Ok (mode_of scope (localStorage w)), w).
Proof.
  unfold getVaultStorageMode, mode_of, mode_at, meta_key, localVaultExists, getItem, gets, mbind, M_bind, mret, M_ret.
  repeat case_match; simplify_eq; try done.
Qed.

Lemma getScope_eq w : getScope w = (Ok (scope_of (auth_user w) (auth_tenant w)), w).
Proof. reflexivity. Qed.

Lemma getBackend_selected scope md w : selected scope md w →
  getBackend w = (Ok (backend_of scope md), w).
Proof.
  intros [Hs Hm]. unfold getBackend. rewrite (bind_ok _ _ _ _ _ (getScope_eq w)), Hs.
  unfold getVaultBackend. rewrite (bind_ok _ _ _ _ _ (getVaultStorageMode_eq _ w)), Hm. by destruct md.
Qed.

(** *** The contract *)

Section Contract.
Variable scope : option VaultScope.
Variable md : VaultStorageMode.
Variable view : Place → View.
Variable up : Place → Prop.

(** From [q] to [p]: the backend stays reachable and stays the chosen one. *)
Definition stays (q p : Place) : Prop :=
  (up q → up p) ∧ (mode_of scope (p_storage q) = md → mode_of scope (p_storage p) = md).

Definition reads {A} (m : V A) (f : View → A) : Prop := ∀ w, quiet w →
  ∃ p, stays (place w) p ∧ view p = view (place w)
    ∧ (m w = (Ok (f (view p)), set_place p w) ∨ ¬ up (place w) ∧ ∃ e, m w = (Throw e, set_place p w)).

Definition writes (m : V unit) (g : View → View) : Prop := ∀ w, quiet w →
  ∃ p, stays (place w) p
    ∧ (m w = (Ok tt, set_place p w) ∧ view p = g (view (place w))
       ∨ ∃ e, m w = (Throw e, set_place p w) ∧ view p = view (place w)).

(** Clearing may change which backend the next operation chooses. *)
Definition clears (m : V unit) : Prop := ∀ w, quiet w →
  ∃ p, (m w = (Ok tt, set_place p w) ∧ view p = without_vault (view (place w))
        ∨ ∃ e, m w = (Throw e, set_place p w) ∧ view p = view (place w)).

(** Settings that cannot be read are the default ones. *)
Definition reads_settings (m : V VaultSettings) : Prop := ∀ w, quiet w →
  ∃ p s, stays (place w) p ∧ view p = view (place w) ∧ m w = (Ok s, set_place p w)
    ∧ (s = v_settings (view p) ∨ ¬ up (place w) ∧ s = DEFAULT_VAULT_SETTINGS).

Let be : IVaultBackend := backend_of scope md.

Class LawfulBackend : Prop := {
  loadMeta_law : reads (loadMeta be) v_meta;
  saveMeta_law m : iterations_ok m → writes (saveMeta be m) (with_meta m);
  loadData_law : reads (loadData be) v_data;
  saveData_law d : writes (saveData be d) (with_data d);
  clear_law : clears (clear be);
  loadLegacyKeys_law : reads (loadLegacyKeys be) v_legacy;
  clearLegacyKeys_law : writes (clearLegacyKeys be) without_legacy;
  loadSettings_law : reads_settings (loadSettings be);
  saveSettings_law s : writes (saveSettings be s) (with_settings (stored_settings s));
  view_meta_ok p m : v_meta (view p) = Some m → iterations_ok m;
  view_settings_ok p : autoLockTimeoutMinutes (v_settings (view p)) ∈ ALLOWED_TIMEOUT_MINUTES;
}.

(** The size of the stored form of a blob. *)
Definition data_size (d : VaultData) : nat := length (stringify (data_json d)).

(** A backend that can always be cleared, never loses its place, and has room to
    put back a blob that is no larger than the one it was just given, whatever
    became of a later write of the meta record. *)
Class ReliableBackend : Prop := {
  always_up p : up p;
  clear_total w : quiet w → ∃ p, stays (place w) p ∧ clear be w = (Ok tt, set_place p w)
    ∧ view p = without_vault (view (place w));
  clearLegacyKeys_total w : quiet w → ∃ p, stays (place w) p ∧ clearLegacyKeys be w = (Ok tt, set_place p w)
    ∧ view p = without_legacy (view (place w));
  restore_law d0 d1 m e w w1 w2 p1 p2 : quiet w2 → (data_size d0 <= data_size d1)%nat →
    saveData be d1 w = (Ok tt, set_place p1 w) → place w1 = p1 →
    saveMeta be m w1 = (Throw e, set_place p2 w1) → place w2 = p2 →
    ∃ p3, stays p2 p3 ∧ saveData be d0 w2 = (Ok tt, set_place p3 w2) ∧ view p3 = with_data d0 (view p2);
}.

End Contract.

Lemma stays_refl scope md up p : stays scope md up p p.
Proof. by split. Qed.

Lemma reads_pure scope md view up {A} (m : V A) f : (∀ w, m w = (Ok (f (view (place w))), w)) →
  reads scope md view up m f.
Proof.
  intros H w _. exists (place w). split; [apply stays_refl|]. split; [done|]. left.
  by rewrite set_place_id.
Qed.

(** ** The local backend *)

Definition legacy_of (item : option jsstring) : list LegacyPrivateKey :=
  match parse (nullish item (js "[]")) with
  | Some (JArr raw) => omap legacy_of_json raw
  | _ => []
  end.

(** The argument is about any five different storage keys. *)
Section AnyKeys.
Variables mk dk sk lk ok : jsstring.
Hypothesis distinct : NoDup [mk; dk; sk; lk; ok].

Definition view_at (p : Place) : View :=
  mkView (parseVaultMeta (p_storage p !! mk)) (parseVaultData (p_storage p !! dk))
    (parseVaultSettings (p_storage p !! sk)) (legacy_of (p_storage p !! lk)).

Definition put_storage (k v : jsstring) (p : Place) : Place :=
  mkPlace (<[k := v]> (p_storage p)) (p_srv p) (p_registry p).

Lemma keys_ne :
  (mk ≠ dk ∧ mk ≠ sk ∧ mk ≠ lk ∧ mk ≠ ok) ∧ (dk ≠ sk ∧ dk ≠ lk ∧ dk ≠ ok)
  ∧ (sk ≠ lk ∧ sk ≠ ok) ∧ lk ≠ ok.
Proof. rewrite !NoDup_cons, !not_elem_of_cons in distinct. tauto. Qed.

#[local] Ltac lookups :=
  destruct keys_ne as ((? & ? & ? & ?) & (? & ? & ?) & (? & ?) & ?);
  unfold view_at, with_meta, with_data, with_settings, without_vault, without_legacy, put_storage;
  cbn [p_storage p_srv p_registry v_meta v_data v_settings v_legacy];
  repeat first [rewrite lookup_insert_eq | rewrite lookup_insert_ne by congruence
               | rewrite lookup_delete_eq | rewrite lookup_delete_ne by congruence];
  try reflexivity.

Lemma view_put_meta m p : iterations_ok m →
  view_at (put_storage mk (stringify (meta_json m)) p) = with_meta m (view_at p).
Proof. intros Hm. lookups. by rewrite parseVaultMeta_stringify. Qed.

Lemma view_put_data d p : view_at (put_storage dk (stringify (data_json d)) p) = with_data d (view_at p).
Proof. lookups. by rewrite parseVaultData_stringify. Qed.

Lemma view_put_settings s p :
  view_at (put_storage sk (stringify (settings_json s)) p) = with_settings (stored_settings s) (view_at p).
Proof. unfold stored_settings. lookups. Qed.

Lemma view_clear s r v : view_at (mkPlace (delete sk (delete dk (delete mk s))) r v)
  = without_vault (view_at (mkPlace s r v)).
Proof. lookups. Qed.

Lemma view_clear_legacy s r v : view_at (mkPlace (delete lk s) r v) = without_legacy (view_at (mkPlace s r v)).
Proof. lookups. Qed.

(** Setting an item other than the mode keeps the vault local. *)
Lemma mode_at_insert k v s : k ≠ ok →
  mode_at ok mk s = local_mode → mode_at ok mk (<[k := v]> s) = local_mode.
Proof.
  intros Hk. unfold mode_at. rewrite lookup_insert_ne by done.
  destruct (negb _); [done|]. repeat case_bool_decide; try done. intros _. exfalso.
  match goal with H : ¬ is_Some _ |- _ => apply H end.
  rewrite lookup_insert_is_Some'. auto.
Qed.

Lemma mode_at_delete_legacy s : mode_at ok mk (delete lk s) = mode_at ok mk s.
Proof. destruct keys_ne as ((? & ? & ? & ?) & _ & _ & ?). unfold mode_at. by rewrite !lookup_delete_ne. Qed.

End AnyKeys.

Lemma safeSetItem_eq k v w :
  settle (safeSetItem k v) w =
    if fits (localStorage w) k v then (Ok tt, set_place (put_storage k v (place w)) w)
    else (Throw (Error quota_message), w).
Proof.
  unfold settle, safeSetItem, try_catch, try_setItem, mbind, M_bind.
  by destruct (fits (localStorage w) k v).
Qed.

Section Local.
Variable scope : option VaultScope.

(** The storage keys of one scope are pairwise different. *)
Lemma local_keys_distinct :
  NoDup [meta_key scope; data_key scope; settings_key scope; LEGACY_KEYS_KEY; modeKey scope].
Proof.
  unfold meta_key, data_key, settings_key, modeKey, scoped, prefixKey.
  destruct scope as [[u t]|]; cbn [scope_prefix fmap option_fmap option_map];
    [destruct (truthy _)|]; repeat constructor; rewrite ?elem_of_cons, elem_of_nil;
    intros H; destruct_or? H; done.
Qed.

Definition local_view : Place → View :=
  view_at (meta_key scope) (data_key scope) (settings_key scope) LEGACY_KEYS_KEY.

Definition local_up (p : Place) : Prop := True.

Lemma writes_item k v g : k ≠ modeKey scope →
  (∀ p, local_view (put_storage k v p) = g (local_view p)) →
  writes scope local_mode local_view local_up (settle (safeSetItem k v)) g.
Proof.
  intros Hk Hg w _. rewrite safeSetItem_eq. destruct (fits _ _ _).
  - eexists. split; [|by left]. split; [done|]. by apply mode_at_insert.
  - exists (place w). split; [apply stays_refl|]. right. eexists. by rewrite set_place_id.
Qed.

#[export] Instance LocalVaultBackend_lawful : LawfulBackend scope local_mode local_view local_up.
Proof.
  destruct (keys_ne _ _ _ _ _ local_keys_distinct) as ((? & ? & ? & ?) & (? & ? & ?) & (? & ?) & ?).
  split; cbn [backend_of].
  - by apply reads_pure.
  - intros m Hm. apply writes_item; [assumption|]. intros p. by eapply view_put_meta; [apply local_keys_distinct|].
  - by apply reads_pure.
  - intros d. apply writes_item; [assumption|]. intros p. eapply view_put_data, local_keys_distinct.
  - intros w _. eexists (mkPlace (delete (settings_key scope) (delete (data_key scope)
      (delete (meta_key scope) (localStorage w)))) (srv w) (versionRegistry w)).
    left. split; [reflexivity|]. eapply view_clear, local_keys_distinct.
  - apply reads_pure. intros w. cbn [loadLegacyKeys LocalVaultBackend].
    unfold loadLegacyKeysFromStorage, getItem, gets, mbind, M_bind, local_view, view_at, legacy_of.
    cbn [v_legacy]. change (p_storage (place w)) with (localStorage w).
    destruct (parse _) as [[]|]; reflexivity.
  - intros w _. eexists (mkPlace (delete LEGACY_KEYS_KEY (localStorage w)) (srv w) (versionRegistry w)).
    split; [split; [done|]|].
    + intros Hm. rewrite <-Hm. eapply mode_at_delete_legacy, local_keys_distinct.
    + left. split; [reflexivity|]. eapply view_clear_legacy, local_keys_distinct.
  - intros w _. exists (place w). eexists. split; [apply stays_refl|]. split; [done|].
    split; [by rewrite set_place_id|]. left. reflexivity.
  - intros s. apply writes_item; [assumption|]. intros p. eapply view_put_settings, local_keys_distinct.
  - intros p m. apply parseVaultMeta_ok.
  - intros p. apply parseVaultSettings_allowed.
Qed.

(** In the Community Edition the vault is always local; storing a value no
    longer than the one it replaces never exceeds the quota. *)
Class QuotaLaws : Prop := {
  fits_shrink s k v v' : s !! k = Some v → (length v' <= length v)%nat → fits s k v' = true;
}.

Hypothesis community_edition : isVaultServerEnabled = false.

Lemma community_mode s : mode_of scope s = local_mode.
Proof. unfold mode_of, mode_at. by rewrite community_edition. Qed.

Lemma community_stays p q : stays scope local_mode local_up p q.
Proof. split; [done|]. intros _. apply community_mode. Qed.

Lemma LocalVaultBackend_reliable `{QL : !QuotaLaws} : ReliableBackend scope local_mode local_view local_up.
Proof.
  split; cbn [backend_of].
  - done.
  - intros w _. exists (mkPlace (delete (settings_key scope) (delete (data_key scope)
      (delete (meta_key scope) (localStorage w)))) (srv w) (versionRegistry w)).
    split; [apply community_stays|]. split; [reflexivity|]. eapply view_clear, local_keys_distinct.
  - intros w _. exists (mkPlace (delete LEGACY_KEYS_KEY (localStorage w)) (srv w) (versionRegistry w)).
    split; [apply community_stays|]. split; [reflexivity|]. eapply view_clear_legacy, local_keys_distinct.
  - intros d0 d1 m e w w1 w2 p1 p2 _ Hle E1 Hp1 E2 Hp2.
    cbn [saveData saveMeta LocalVaultBackend] in *. rewrite safeSetItem_eq in E1, E2.
    fold (data_key scope) in *. fold (meta_key scope) in *.
    destruct (fits (localStorage w) _ _); [|done]. destruct (fits (localStorage w1) _ _); [done|].
    assert (place w2 = place w1) as Hw.
    { rewrite Hp2. exact (eq_sym (f_equal (place ∘ snd) E2)). }
    assert (p1 = put_storage (data_key scope) (stringify (data_json d1)) (place w)) as Hp1'.
    { exact (eq_sym (f_equal (place ∘ snd) E1)). }
    exists (put_storage (data_key scope) (stringify (data_json d0)) p2). split; [apply community_stays|].
    rewrite safeSetItem_eq. fold (data_key scope).
    assert (localStorage w2 !! data_key scope = Some (stringify (data_json d1))) as Hl.
    { change (p_storage (place w2) !! data_key scope = Some (stringify (data_json d1))).
      rewrite Hw, Hp1, Hp1'. apply lookup_insert_eq. }
    rewrite (fits_shrink _ _ _ _ Hl Hle). rewrite Hp2. split; [done|].
    eapply view_put_data, local_keys_distinct.
Qed.

End Local.

(** ** The server backend *)

(** What the vault endpoints are documented to do (the api@vault files of openapi/spec/paths):
    the server holds three opaque strings and a version that every write
    increments; [saveVaultMeta] and [saveVaultSettings] create the vault;
    [saveVaultData] needs an existing vault and the current version.  Any call
    may also fail, and then changes nothing; while [online], reads do not fail. *)
Record ServerVault := mkServerVault {
  sv_meta : option jsstring;
  sv_data : option jsstring;
  sv_settings : option jsstring;
  sv_version : Z;
}.

Definition empty_vault : ServerVault := mkServerVault None None None 0.
Definition put_meta (m : jsstring) (v : ServerVault) : ServerVault :=
  mkServerVault (Some m) (sv_data v) (sv_settings v) (sv_version v + 1).
Definition put_data (d : jsstring) (v : ServerVault) : ServerVault :=
  mkServerVault (sv_meta v) (Some d) (sv_settings v) (sv_version v + 1).
Definition put_settings (s : jsstring) (v : ServerVault) : ServerVault :=
  mkServerVault (sv_meta v) (sv_data v) (Some s) (sv_version v + 1).

Definition response_of (v : ServerVault) : VaultResponse :=
  mkVaultResponse (sv_meta v) (sv_data v) (sv_settings v) (Some (sv_version v)).

Definition not_found {A} : res (Reply A) := Ok (mkReply 404 true None).
Definition conflict {A} : res (Reply A) := Ok (mkReply 409 true None).
Definition saved (v : ServerVault) : res (Reply VersionResponse) :=
  Ok (mkReply 200 false (Some (Some (sv_version v)))).

Definition failed {A} (r : res (Reply A)) : Prop :=
  match r with
  | Throw _ => True
  | Ok r => reply_error r = true ∧ reply_status r ≠ 404 ∧ reply_status r ≠ 409
  end.

End Laws.

Class VaultApiLaws `{VA : VaultApi} := {
  held : Srv → option ServerVault;
  online : Srv → Prop;
  getVault_law s : ∃ r s', getVault s = (r, s') ∧ held s' = held s ∧ (online s → online s')
    ∧ (r = match held s with Some v => Ok (mkReply 200 false (Some (response_of v))) | None => not_found end
       ∨ ¬ online s ∧ failed r);
  saveVaultMeta_law m s : ∃ r s', saveVaultMeta m s = (r, s') ∧ (online s → online s')
    ∧ (held s' = Some (put_meta m (default empty_vault (held s)))
         ∧ r = saved (put_meta m (default empty_vault (held s)))
       ∨ held s' = held s ∧ failed r);
  saveVaultSettings_law x s : ∃ r s', saveVaultSettings x s = (r, s') ∧ (online s → online s')
    ∧ (held s' = Some (put_settings x (default empty_vault (held s)))
         ∧ r = saved (put_settings x (default empty_vault (held s)))
       ∨ held s' = held s ∧ failed r);
  saveVaultData_law d n s : ∃ r s', saveVaultData d n s = (r, s') ∧ (online s → online s')
    ∧ match held s with
      | Some v =>
          if bool_decide (n = sv_version v)
          then held s' = Some (put_data d v) ∧ r = saved (put_data d v) ∨ held s' = held s ∧ failed r
          else held s' = held s ∧ (r = conflict ∨ failed r)
      | None => held s' = None ∧ (r = not_found ∨ failed r)
      end;
  deleteVault_law s : ∃ r s', deleteVault s = (r, s') ∧ (online s → online s')
    ∧ (held s' = None ∧ (r = Ok (mkReply 200 false (Some tt)) ∨ r = not_found)
       ∨ held s' = held s ∧ failed r);
}.

Section Server.
Context `{WC : WebCrypto} `{VA : VaultApi} `{PF : Platform} `{VAL : !VaultApiLaws}.
Variable scope : option VaultScope.

Definition server_view (p : Place) : View :=
  let v := held (p_srv p) in
  mkView (parseVaultMeta (v ≫= sv_meta)) (parseVaultData (v ≫= sv_data))
    (parseVaultSettings (v ≫= sv_settings)) (legacy_of (p_storage p !! LEGACY_KEYS_KEY)).

Definition server_up (p : Place) : Prop := online (p_srv p).

(** A request that reaches the place [p]. *)
Definition put_server (s : Srv) (r : gmap jsstring Z) (p : Place) : Place := mkPlace (p_storage p) s r.

(** [fetch] answers with the held vault, or throws when the server is unreachable. *)
Lemma fetch_spec key w : quiet w → ∃ s r, held s = held (srv w) ∧ (online (srv w) → online s)
  ∧ let p := put_server s r (place w) in
    (fetch key w = (Ok (response_of <$> held (srv w)), set_place p w)
       ∧ (∀ v, held (srv w) = Some v → r !! key = Some (sv_version v))
     ∨ ¬ online (srv w) ∧ ∃ e, fetch key w = (Throw e, set_place p w)).
Proof.
  intros Hq. destruct (getVault_law (srv w)) as (a & s & E & Hh & Ho & Hr).
  unfold fetch. rewrite (request_bind _ _ _ _ _ Hq E).
  destruct Hr as [->|[Hn Hf]].
  - destruct (held (srv w)) as [v|] eqn:Ev; cbn [reply_status Z.eqb Pos.eqb not_found].
    + exists s, (<[key := sv_version v]> (versionRegistry w)). split; [done|]. split; [done|]. left.
      split; [done|]. intros v' [= <-]. apply lookup_insert_eq.
    + exists s, (versionRegistry w). split; [done|]. split; [done|]. left. done.
  - exists s, (versionRegistry w). split; [done|]. split; [done|]. right. split; [done|].
    destruct a as [[st er da]|e]; [|by eexists]. cbn in Hf. destruct Hf as (-> & Hst & _).
    cbn [reply_status]. destruct (Z.eqb_spec st 404); [done|]. by eexists.
Qed.

Lemma fetch_reads {A} key (f : option VaultResponse → A) (g : View → A) :
  (∀ p, g (server_view p) = f (response_of <$> held (p_srv p))) →
  reads scope server_mode server_view server_up (v ← fetch key; mret (f v)) g.
Proof.
  intros Hg w Hq. destruct (fetch_spec key w Hq) as (s & r & Hh & Ho & E).
  exists (put_server s r (place w)). split; [done|]. split; [by unfold server_view; cbn; rewrite Hh|].
  destruct E as [[E _]|[Hn [e E]]].
  - left. rewrite (bind_ok _ _ _ _ _ E). rewrite Hg. cbn. by rewrite Hh.
  - right. split; [done|]. exists e. by rewrite (bind_throw _ _ _ _ _ E).
Qed.

(** A write that the server accepts or refuses as a whole. *)
Lemma written_writes key e (call : Srv → res (Reply VersionResponse) * Srv) (put : ServerVault → ServerVault) g :
  (∀ s, ∃ r s', call s = (r, s') ∧ (online s → online s')
    ∧ (held s' = Some (put (default empty_vault (held s))) ∧ r = saved (put (default empty_vault (held s)))
       ∨ held s' = held s ∧ failed r)) →
  (∀ p s r, held s = Some (put (default empty_vault (held (p_srv p)))) →
    server_view (put_server s r p) = g (server_view p)) →
  writes scope server_mode server_view server_up (r ← request call; written key e r) g.
Proof.
  intros Hcall Hg w Hq. destruct (Hcall (srv w)) as (a & s & E & Ho & Hr).
  rewrite (request_bind _ _ _ _ _ Hq E).
  destruct Hr as [[Hh ->]|[Hh Hf]].
  - exists (put_server s (<[key := sv_version (put (default empty_vault (held (srv w))))]> (versionRegistry w)) (place w)).
    split; [done|]. left. split; [done|]. by apply (Hg (place w)).
  - exists (put_server s (versionRegistry w) (place w)). split; [done|]. right.
    destruct a as [[st er da]|e']; cbn in Hf.
    + destruct Hf as (-> & _). exists e. split; [done|]. unfold server_view. cbn. by rewrite Hh.
    + exists e'. split; [done|]. unfold server_view. cbn. by rewrite Hh.
Qed.

(** *** Optimistic concurrency *)

(** [saveData] replaces the data only when the version last seen by this session
    is still the version of the server; otherwise it changes nothing. *)
Lemma server_saveData_spec key d w : quiet w → ∃ s r, (online (srv w) → online s)
  ∧ let p := put_server s r (place w) in
    (server_saveData key d w = (Ok tt, set_place p w)
       ∧ (∃ v, held (srv w) = Some v ∧ nullish (versionRegistry w !! key) 0 = sv_version v
               ∧ held s = Some (put_data (stringify (data_json d)) v))
     ∨ ∃ e, server_saveData key d w = (Throw e, set_place p w) ∧ held s = held (srv w)).
Proof.
  intros Hq. unfold server_saveData. set (n := nullish (versionRegistry w !! key) 0).
  rewrite (bind_ok _ _ w n w) by done.
  destruct (saveVaultData_law (stringify (data_json d)) n (srv w)) as (a & s & E & Ho & Hr).
  rewrite (request_bind _ _ _ _ _ Hq E).
  assert (failed a → held s = held (srv w) → ∃ r, ∃ e,
    (match a with
     | Ok a' => (λ r : Reply VersionResponse, if reply_status r =? 409
                 then try_catch (fetch key) (λ _, mret None);; throw conflict_error
                 else written key save_error r) a' (set_srv s w)
     | Throw e => (Throw e, set_srv s w)
     end) = (Throw e, set_place (put_server s r (place w)) w)) as Hfail.
  { intros Hf Hh. exists (versionRegistry w). destruct a as [[st er da]|e]; [|by eexists].
    cbn in Hf. destruct Hf as (-> & _ & Hst). cbn [reply_status].
    destruct (Z.eqb_spec st 409); [done|]. by eexists. }
  destruct (held (srv w)) as [v|] eqn:Ev.
  2: { destruct Hr as [Hh [->|Hf]].
       - exists s, (versionRegistry w). split; [done|]. right. eexists. by split.
       - destruct (Hfail Hf Hh) as (r & e & Ef). exists s, r. split; [done|]. right. by exists e. }
  destruct (bool_decide_reflect (n = sv_version v)) as [En|En].
  - destruct Hr as [[Hh ->]|[Hh Hf]].
    + exists s, (<[key := sv_version v + 1]> (versionRegistry w)). split; [done|]. left.
      split; [reflexivity|]. by exists v.
    + destruct (Hfail Hf Hh) as (r & e & Ef). exists s, r. split; [done|]. right. by exists e.
  - destruct Hr as [Hh [->|Hf]].
    + cbn [reply_status conflict]. rewrite Z.eqb_refl.
      destruct (fetch_spec key (set_srv s w) Hq) as (s' & r & Hh' & Ho' & Ef). cbn in Hh', Ho'.
      exists s', r. split; [auto|]. right. exists conflict_error. split; [|congruence].
      destruct Ef as [[Ef _]|[_ [e Ef]]].
      * unfold mbind, M_bind, try_catch. by rewrite Ef.
      * unfold mbind, M_bind, try_catch. by rewrite Ef.
    + destruct (Hfail Hf Hh) as (r & e & Ef). exists s, r. split; [done|]. right. by exists e.
Qed.

#[export] Instance ServerVaultBackend_lawful : LawfulBackend scope server_mode server_view server_up.
Proof.
  split; cbn [backend_of].
  - by apply fetch_reads; intros p; cbn; destruct (held _).
  - intros m Hm. apply (written_writes _ _ _ (put_meta (stringify (meta_json m)))); [apply saveVaultMeta_law|].
    intros p s r Hs. unfold server_view, with_meta, put_server. cbn [p_srv p_storage v_data v_settings v_legacy].
    rewrite Hs. cbn [mbind option_bind put_meta sv_meta sv_data sv_settings].
    rewrite parseVaultMeta_stringify by done. destruct (held (p_srv p)); reflexivity.
  - by apply fetch_reads; intros p; cbn; destruct (held _).
  - intros d w Hq. destruct (server_saveData_spec (scopeKey scope) d w Hq) as (s & r & Ho & E).
    exists (put_server s r (place w)). split; [done|]. destruct E as [[E (v & Hv & _ & Hs)]|[e [E Hh]]].
    + left. split; [done|]. unfold server_view, with_data. cbn [p_srv p_storage place put_server v_meta v_settings v_legacy].
      rewrite Hs, Hv. cbn [mbind option_bind put_data sv_meta sv_data sv_settings].
      by rewrite parseVaultData_stringify.
    + right. exists e. split; [done|]. unfold server_view. cbn. by rewrite Hh.
  - intros w Hq. destruct (deleteVault_law (srv w)) as (a & s & E & Ho & Hr).
    cbn [clear ServerVaultBackend]. unfold server_clear. rewrite (request_bind _ _ _ _ _ Hq E).
    destruct Hr as [[Hh Ha]|[Hh Hf]].
    + exists (put_server s (delete (scopeKey scope) (versionRegistry w)) (place w)). left.
      split; [by destruct Ha as [->| ->]|]. unfold server_view, without_vault. cbn. by rewrite Hh.
    + exists (put_server s (versionRegistry w) (place w)). right.
      destruct a as [[st er da]|e]; cbn in Hf.
      * destruct Hf as (-> & Hst & _). exists reset_error. cbn [reply_error reply_status andb].
        destruct (Z.eqb_spec st 404); [done|]. split; [done|]. unfold server_view. cbn. by rewrite Hh.
      * exists e. split; [done|]. unfold server_view. cbn. by rewrite Hh.
  - apply reads_pure. intros w. cbn [loadLegacyKeys ServerVaultBackend].
    unfold loadLegacyKeysFromStorage, getItem, gets, mbind, M_bind, server_view, legacy_of.
    cbn [v_legacy]. change (p_storage (place w)) with (localStorage w).
    destruct (parse _) as [[]|]; reflexivity.
  - intros w _. exists (mkPlace (delete LEGACY_KEYS_KEY (localStorage w)) (srv w) (versionRegistry w)).
    split; [split; [done|]|].
    + intros Hm. rewrite <-Hm. eapply mode_at_delete_legacy, local_keys_distinct.
    + left. split; [reflexivity|]. unfold server_view, without_legacy.
      cbn [p_srv p_storage place v_meta v_data v_settings]. by rewrite lookup_delete_eq.
  - intros w Hq. destruct (fetch_spec (scopeKey scope) w Hq) as (s & r & Hh & Ho & E).
    exists (put_server s r (place w)). cbn [loadSettings ServerVaultBackend].
    unfold mbind at 1, M_bind at 1, try_catch.
    destruct E as [[E _]|[Hn [e E]]]; rewrite E; eexists; (split; [done|]);
      (split; [by unfold server_view; cbn; rewrite Hh|]); (split; [reflexivity|]).
    + left. unfold server_view. cbn [v_settings put_server p_srv]. rewrite Hh.
      destruct (held (srv w)); reflexivity.
    + right. by split.
  - intros x. apply (written_writes _ _ _ (put_settings (stringify (settings_json x)))); [apply saveVaultSettings_law|].
    intros p s r Hs. unfold server_view, with_settings, put_server. cbn [p_srv p_storage v_data v_meta v_legacy].
    rewrite Hs. cbn [mbind option_bind put_settings sv_meta sv_data sv_settings].
    unfold stored_settings. destruct (held (p_srv p)); reflexivity.
  - intros p m. apply parseVaultMeta_ok.
  - intros p. apply parseVaultSettings_allowed.
Qed.

End Server.
