(* ===== verification/VaultStoreFacts.v ===== *)
(** * How the store's actions evaluate

    Evaluation lemmas for the pieces the actions of vaultStore.ts share, against
    the contract of the backend, for a handler that is not interrupted. *)

From S2P Require Import Prelude JsString JsJson JsEncoding JsDate VaultTypes VaultTracker.
From S2P Require Import VaultWorld VaultCrypto VaultBackend VaultStore VaultLaws.

Section Steps.
Context `{WC : WebCrypto} `{VA : VaultApi} `{PF : Platform}.

Lemma put_bind {A} f (g : unit → V A) w : (put f ≫= g) w = g tt (set_store (f (store w)) w).
Proof. done. Qed.
Lemma peek_bind {A B} (f : VaultState → A) (g : A → V B) w : (peek f ≫= g) w = g (f (store w)) w.
Proof. done. Qed.
Lemma setSessionKey_bind {A} k (g : unit → V A) w : (setSessionKey k ≫= g) w = g tt (set_sessionKey (Some k) w).
Proof. done. Qed.
Lemma getSessionKey_bind {A} (g : option CryptoKey → V A) w : (getSessionKey ≫= g) w = g (sessionKey w) w.
Proof. done. Qed.
Lemma clearSessionKey_bind {A} (g : unit → V A) w : (clearSessionKey ≫= g) w = g tt (set_sessionKey None w).
Proof. done. Qed.
Lemma on_tracker_bind {A} f (g : unit → V A) w :
  (on_tracker f ≫= g) w = g tt (set_tracker (f (tracker w)) w).
Proof. done. Qed.
Lemma now_bind {A} (g : jsstring → V A) w : (now ≫= g) w = g (toISOString (clock (tracker w))) w.
Proof. done. Qed.
Lemma throw_bind {A B} e (g : A → V B) (w : World) : (throw e ≫= g) w = (Throw e, w).
Proof. done. Qed.
Lemma fmap_ok {A B} (f : A → B) (m : V A) w a w' : m w = (Ok a, w') → (f <$> m) w = (Ok (f a), w').
Proof. unfold fmap, M_fmap. by intros ->. Qed.
Lemma fmap_throw {A B} (f : A → B) (m : V A) w e w' : m w = (Throw e, w') → (f <$> m) w = (Throw e, w').
Proof. unfold fmap, M_fmap. by intros ->. Qed.
Lemma or_return_inr {A B} (m : V (A + B)) k w b w' : m w = (Ok (inr b), w') → or_return m k w = k b w'.
Proof. unfold or_return, mbind, M_bind. by intros ->. Qed.
Lemma or_return_inl {A B} (m : V (A + B)) k w a w' : m w = (Ok (inl a), w') → or_return m k w = (Ok a, w').
Proof. unfold or_return, mbind, M_bind. by intros ->. Qed.

End Steps.

Create HintDb vault.
#[export] Hint Rewrite @put_bind @peek_bind @setSessionKey_bind @getSessionKey_bind
  @clearSessionKey_bind @on_tracker_bind @now_bind @throw_bind @bind_ret : vault.

(** Run the steps that need no hypothesis. *)
Ltac steps := autorewrite with vault; cbv beta.

(** Run one step whose result is known. *)
Ltac known H :=
  first [ rewrite (bind_ok _ _ _ _ _ H) | rewrite (bind_throw _ _ _ _ _ H)
        | rewrite (try_ok _ _ _ _ _ H) | rewrite (try_throw _ _ _ _ _ H)
        | rewrite (or_return_inr _ _ _ _ _ H) | rewrite (or_return_inl _ _ _ _ _ H)
        | rewrite H ]; cbv beta.

Section Facts.
Context `{WC : WebCrypto} `{VA : VaultApi} `{PF : Platform} `{WCL : !WebCryptoLaws} `{PFL : !PlatformLaws}.
Context (scope : option VaultScope) (md : VaultStorageMode).
Context (view : Place → View) (up : Place → Prop) `{LB : !LawfulBackend scope md view up}.

Notation be := (backend_of scope md).
Notation stays := (stays scope md up).
Notation selected := (selected scope md).

Lemma stays_trans p q r : stays p q → stays q r → stays p r.
Proof. intros [? ?] [? ?]. split; auto. Qed.

Lemma selected_place p w : selected w → stays (place w) p → selected (set_place p w).
Proof. intros [Hs Hm] [_ Hp]. split; [done|]. by apply Hp. Qed.

(** The keys a stored vault holds under [k]. *)
Definition holds (k : CryptoKey) (v : View) (ks : list VaultKeyEntry) : Prop :=
  match v_data v with Some d => open_keys k d = Some ks | None => ks = [] end.

(** [pw] is the master password of the stored vault, and derives [k]. *)
Definition protected (pw : jsstring) (k : CryptoKey) (v : View) : Prop :=
  ∃ m, v_meta v = Some m ∧ check_password pw m = Ok k.

(** The blob [persistKeys] writes. *)
Definition sealed (k : CryptoKey) (ks : list VaultKeyEntry) (w : World) : VaultData :=
  seal k (getRandomValues (draws w) IV_BYTES) (stringify (keys_json ks)).

Lemma holds_sealed k ks w v : forallb entry_units ks = true → holds k (with_data (sealed k ks w) v) ks.
Proof. intros H. apply open_seal_keys; [apply random_bytes|done]. Qed.

Lemma persistKeys_locked ks b w : sessionKey w = None → persistKeys ks b w = (Throw locked_error, w).
Proof. intros H. unfold persistKeys. steps. by rewrite H. Qed.

Lemma persistKeys_spec ks b k w : quiet w → selected w → sessionKey w = Some k → b = None ∨ b = Some be →
  ∃ p, stays (place w) p
    ∧ (persistKeys ks b w = (Ok tt, set_place p (set_draws (S (draws w)) w))
         ∧ view p = with_data (sealed k ks w) (view (place w))
       ∨ ∃ e, persistKeys ks b w = (Throw e, set_place p (set_draws (S (draws w)) w))
              ∧ view p = view (place w)).
Proof.
  intros Hq Hs Hk Hb. unfold persistKeys. steps. rewrite Hk.
  assert (((match b with Some b => mret b | None => getBackend end) : V IVaultBackend) w = (Ok be, w)) as Eb.
  { destruct Hb as [->| ->]; [by apply getBackend_selected|done]. }
  known Eb. known (encrypt_quiet k (stringify (keys_json ks)) w Hq).
  apply (saveData_law scope md view up (sealed k ks w) (set_draws (S (draws w)) w) Hq).
Qed.

Lemma loadSettingsIntoState_spec w : quiet w → selected w →
  ∃ p s, stays (place w) p ∧ view p = view (place w)
    ∧ loadSettingsIntoState w = (Ok tt, set_store (set_settings s (store w)) (set_place p w))
    ∧ (s = v_settings (view (place w)) ∨ ¬ up (place w) ∧ s = DEFAULT_VAULT_SETTINGS).
Proof.
  intros Hq Hs. destruct (loadSettings_law scope md view up w Hq) as (p & s & Hst & Hv & E & Hx).
  exists p, s. split; [done|]. split; [done|]. split; [|by rewrite <-Hv].
  unfold loadSettingsIntoState. rewrite swallow_ok. known (getBackend_selected scope md w Hs). by known E.
Qed.

Definition tracker_options (s : VaultSettings) : TrackerOptions :=
  mkOptions (autoLockTimeoutMinutes s * 60000) (lockOnHidden s) HIDDEN_GRACE_MS.

Lemma startTracker_eq w :
  startTracker w = (Ok tt, set_tracker (start (tracker_options (settings (store w))) (tracker w)) w).
Proof. done. Qed.

Lemma loadMeta_up w : quiet w → up (place w) →
  ∃ p, stays (place w) p ∧ view p = view (place w) ∧ loadMeta be w = (Ok (v_meta (view (place w))), set_place p w).
Proof.
  intros Hq Hu. destruct (loadMeta_law scope md view up w Hq) as (p & Hst & Hv & [E|[? _]]); [|done].
  exists p. by rewrite <-Hv at 2.
Qed.

Lemma loadData_up w : quiet w → up (place w) →
  ∃ p, stays (place w) p ∧ view p = view (place w) ∧ loadData be w = (Ok (v_data (view (place w))), set_place p w).
Proof.
  intros Hq Hu. destruct (loadData_law scope md view up w Hq) as (p & Hst & Hv & [E|[? _]]); [|done].
  exists p. by rewrite <-Hv at 2.
Qed.

(** What [unlock] reads back from the stored blob. *)
Lemma read_keys (k : CryptoKey) (v : View) ks w : quiet w → holds k v ks →
  ∃ j, ((match v_data v with
         | Some d => text ← decrypt k d; json_parse text
         | None => mret (JArr [])
         end) : V json) w = (Ok j, w) ∧ keys_of_json j = Some ks.
Proof.
  intros Hq. unfold holds, open_keys. destruct (v_data v) as [d|]; [|by intros ->; exists (JArr [])].
  pose proof (decrypt_quiet k d w Hq) as E. destruct (unseal k d) as [t|]; [|done].
  unfold json_parse. destruct (parse t) as [j|] eqn:Ep; [|done]. intros Hj. exists j. split; [|done].
  known E. by rewrite Ep.
Qed.

(** ** Unlocking *)

(** The store after a successful unlock. *)
Definition unlocked_state (ks : list VaultKeyEntry) (s : VaultSettings) (st : VaultState) : VaultState :=
  mkState unlocked ks false None s (autoLockNonce st) (storageMode st).

Definition failed_state (msg : jsstring) (st : VaultState) : VaultState :=
  set_error (Some msg) (set_loading false st).

Lemma unlock_spec pw k ks w : quiet w → selected w → up (place w) →
  protected pw k (view (place w)) → holds k (view (place w)) ks →
  ∃ p, stays (place w) p ∧ view p = view (place w)
    ∧ unlock pw w =
      (Ok tt, set_tracker (start (tracker_options (v_settings (view (place w)))) (tracker w))
                (set_place p (set_sessionKey (Some k)
                  (set_store (unlocked_state ks (v_settings (view (place w))) (store w)) w)))).
Proof.
  intros Hq Hs Hu (m & Hm & Hc) Hh. unfold unlock. steps.
  set (w0 := set_store ((set_error None ∘ set_loading true) (store w)) w). assert (selected w0) as Hs0 by exact Hs.
  destruct (loadMeta_up w0 Hq Hu) as (p1 & Hp1 & Hv1 & E1).
  change (place w0) with (place w) in *.
  pose proof (selected_place p1 w0 Hs0 Hp1) as Hs1.
  pose proof (verifyPassword_quiet pw m (set_place p1 w0) Hq) as Ev. rewrite Hc in Ev.
  set (w1 := set_sessionKey (Some k) (set_place p1 w0)).
  destruct (loadData_up w1 Hq (proj1 Hp1 Hu)) as (p2 & Hp2 & Hv2 & E2).
  change (place w1) with p1 in *. rewrite Hv1 in *.
  destruct (read_keys k (view (place w)) ks (set_place p2 w1) Hq Hh) as (j & Ej & Hj).
  set (w2 := set_store (unlocked_state ks (settings (store w)) (store w)) (set_place p2 w1)).
  assert (selected w2) as Hs2 by exact (selected_place p2 w1 Hs1 Hp2).
  destruct (loadSettingsIntoState_spec w2 Hq Hs2) as (p3 & x & Hp3 & Hv3 & E3 & Hx).
  change (place w2) with p2 in *. rewrite Hv2 in *.
  destruct Hx as [->|[Hn _]]; [|by destruct Hn; apply Hp2, Hp1].
  exists p3. split; [eauto using stays_trans|]. split; [congruence|].
  apply try_ok. known (getBackend_selected scope md w0 Hs0). known E1. rewrite Hm.
  known (try_ok _ (λ _, fail_with (js "Incorrect master password");; mret (inl tt)) _ _ _
           (fmap_ok inr _ _ _ _ Ev)). steps.
  apply try_ok. fold w1. known E2. known Ej. rewrite Hj. steps.
  change (set_store _ (set_place p2 w1)) with w2. known E3. by rewrite startTracker_eq.
Qed.

Lemma unlock_no_vault pw w : quiet w → selected w → up (place w) → v_meta (view (place w)) = None →
  ∃ p, stays (place w) p ∧ view p = view (place w)
    ∧ unlock pw w = (Ok tt, set_place p (set_store (failed_state (js "No vault found") (set_error None (store w))) w)).
Proof.
  intros Hq Hs Hu Hm. unfold unlock. steps. set (w0 := set_store ((set_error None ∘ set_loading true) (store w)) w).
  destruct (loadMeta_up w0 Hq Hu) as (p1 & Hp1 & Hv1 & E1). change (place w0) with (place w) in *.
  exists p1. split; [done|]. split; [done|].
  apply try_ok. known (getBackend_selected scope md w0 Hs). known E1. by rewrite Hm.
Qed.

(** A refused password leaves everything but the error message as it was. *)
Lemma unlock_refused pw m e w : quiet w → selected w → up (place w) →
  v_meta (view (place w)) = Some m → check_password pw m = Throw e →
  ∃ p, stays (place w) p ∧ view p = view (place w)
    ∧ unlock pw w = (Ok tt, set_place p (set_store (failed_state (js "Incorrect master password") (store w)) w)).
Proof.
  intros Hq Hs Hu Hm Hc. unfold unlock. steps. set (w0 := set_store ((set_error None ∘ set_loading true) (store w)) w).
  destruct (loadMeta_up w0 Hq Hu) as (p1 & Hp1 & Hv1 & E1). change (place w0) with (place w) in *.
  exists p1. split; [done|]. split; [done|].
  pose proof (verifyPassword_quiet pw m (set_place p1 w0) Hq) as Ev. rewrite Hc in Ev.
  apply try_ok. known (getBackend_selected scope md w0 Hs). known E1. rewrite Hm.
  apply or_return_inl. by rewrite (try_throw _ _ _ _ _ (fmap_throw inr _ _ _ _ Ev)).
Qed.

(** ** The key actions *)

(** The world with the key list [ks] saved and shown. *)
Definition committed (p : Place) (n : nat) (ks : list VaultKeyEntry) (w : World) : World :=
  set_place p (set_draws n (set_store (set_keys ks (store w)) w)).

Lemma save_and_commit ks k w : quiet w → selected w → sessionKey w = Some k →
  status (store w) = unlocked →
  ∃ p n, stays (place w) p
    ∧ ((persistKeys ks None;; commit_keys ks) w = (Ok tt, committed p n ks w)
         ∧ view p = with_data (sealed k ks w) (view (place w))
       ∨ ∃ e, (persistKeys ks None;; commit_keys ks) w = (Throw e, committed p n (keys (store w)) w)
              ∧ view p = view (place w)).
Proof.
  intros Hq Hs Hk Hst.
  destruct (persistKeys_spec ks None k w Hq Hs Hk (or_introl eq_refl)) as (p & Hp & [[E Hv]|[e [E Hv]]]);
    exists p, (S (draws w)); (split; [done|]); known E.
  - left. split; [|done]. unfold commit_keys. steps.
    change (status (store (set_place p (set_draws (S (draws w)) w)))) with (status (store w)).
    rewrite Hst. reflexivity.
  - right. exists e. split; [|done]. destruct w as [? ? ? ? [] ? ? ? ? ?]. reflexivity.
Qed.

(** The list [addKey] saves. *)
Definition added (entry : KeyInput) (i : jsstring) (w : World) : list VaultKeyEntry :=
  keys (store w) ++ [new_entry entry i (toISOString (clock (tracker w)))].

Lemma addKey_spec entry k w : quiet w → selected w → sessionKey w = Some k →
  status (store w) = unlocked →
  checkDuplicates (keys (store w)) (Some (in_name entry)) (Some (in_fingerprint entry)) None = None →
  ∃ p n i u, units_ok i = true ∧ stays (place w) p
    ∧ (addKey entry w = (Ok tt, committed p n (added entry i w) w)
         ∧ view p = with_data (sealed k (added entry i w) u) (view (place w))
       ∨ ∃ e, addKey entry w = (Throw e, committed p n (keys (store w)) w) ∧ view p = view (place w)).
Proof.
  intros Hq Hs Hk Hst Hd. unfold addKey. steps. rewrite Hd. steps.
  destruct (generateRandomUUID_ok w) as (i & n & Ei & Hi). known Ei.
  set (u := set_draws n w). change (tracker u) with (tracker w).
  destruct (save_and_commit (added entry i w) k u Hq Hs Hk Hst) as (p & n' & Hp & H).
  exists p, n', i, u. split; [done|]. split; [done|]. exact H.
Qed.

Lemma updateKey_spec i ups k w : quiet w → selected w → sessionKey w = Some k →
  status (store w) = unlocked → existsb (has_id i) (keys (store w)) = true →
  checkDuplicates (keys (store w)) (up_name ups) (up_fingerprint ups) (Some i) = None →
  let ks := update_keys i ups (toISOString (clock (tracker w))) (keys (store w)) in
  ∃ p n, stays (place w) p
    ∧ (updateKey i ups w = (Ok tt, committed p n ks w) ∧ view p = with_data (sealed k ks w) (view (place w))
       ∨ ∃ e, updateKey i ups w = (Throw e, committed p n (keys (store w)) w) ∧ view p = view (place w)).
Proof.
  intros Hq Hs Hk Hst Hi Hd ks. unfold updateKey. steps. rewrite Hi, Hd. cbn [negb]. steps.
  by apply save_and_commit.
Qed.

Lemma removeKey_spec i k w : quiet w → selected w → sessionKey w = Some k →
  status (store w) = unlocked → existsb (has_id i) (keys (store w)) = true →
  let ks := remove_keys i (keys (store w)) in
  ∃ p n, stays (place w) p
    ∧ (removeKey i w = (Ok tt, committed p n ks w) ∧ view p = with_data (sealed k ks w) (view (place w))
       ∨ ∃ e, removeKey i w = (Throw e, committed p n (keys (store w)) w) ∧ view p = view (place w)).
Proof.
  intros Hq Hs Hk Hst Hi ks. unfold removeKey. steps. rewrite Hi. cbn [negb].
  by apply save_and_commit.
Qed.

(** Errors found before anything is written change nothing at all. *)
Lemma addKey_duplicate entry f w :
  checkDuplicates (keys (store w)) (Some (in_name entry)) (Some (in_fingerprint entry)) None = Some f →
  addKey entry w = (Throw (DuplicateKeyError f), w).
Proof. intros Hd. unfold addKey. steps. by rewrite Hd. Qed.

Lemma updateKey_missing i ups w : existsb (has_id i) (keys (store w)) = false →
  updateKey i ups w = (Throw not_found_error, w).
Proof. intros Hi. unfold updateKey. steps. by rewrite Hi. Qed.

Lemma updateKey_duplicate i ups f w : existsb (has_id i) (keys (store w)) = true →
  checkDuplicates (keys (store w)) (up_name ups) (up_fingerprint ups) (Some i) = Some f →
  updateKey i ups w = (Throw (DuplicateKeyError f), w).
Proof. intros Hi Hd. unfold updateKey. steps. by rewrite Hi, Hd. Qed.

Lemma removeKey_missing i w : existsb (has_id i) (keys (store w)) = false →
  removeKey i w = (Throw not_found_error, w).
Proof. intros Hi. unfold removeKey. steps. by rewrite Hi. Qed.

(** ** Without a session key, nothing is written *)

Lemma locked_writes_nothing ks w : sessionKey w = None →
  (persistKeys ks None;; commit_keys ks) w = (Throw locked_error, w).
Proof. intros H. by known (persistKeys_locked ks None w H). Qed.

(** ** Changing the master password *)

(** Two blobs of the same text have the same size. *)
Lemma seal_size k iv k' iv' ks : Forall is_byte iv → Forall is_byte iv' → length iv = length iv' →
  forallb entry_units ks = true →
  data_size (seal k iv (stringify (keys_json ks))) = data_size (seal k' iv' (stringify (keys_json ks))).
Proof.
  intros Hi Hi' Hl Hu.
  assert (Forall is_byte (utf8_encode (stringify (keys_json ks)))) as Hb
    by by apply utf8_stringify_bytes, keys_json_units.
  unfold data_size, data_json, seal, toBase64.
  cbn [stringify map join fst snd VaultTypes.iv ciphertext].
  repeat (rewrite length_cons || rewrite length_app).
  rewrite (quote_b64_length iv iv') by done.
  erewrite (quote_b64_length (subtle_encrypt k iv _) (subtle_encrypt k' iv' _)); [done|..].
  - by apply encrypt_bytes.
  - by apply encrypt_bytes.
  - by rewrite !encrypt_length.
Qed.

(** [set({ loading: true, error: null })] *)
Definition started (w : World) : World := set_store ((set_error None ∘ set_loading true) (store w)) w.

Lemma catch_run (body : V unit) msg w r u : body w = (r, u) →
  try_catch body (λ err, fail_with (error_message msg err)) w =
  match r with Ok _ => (r, u) | Throw e => fail_with (error_message msg e) u end.
Proof. unfold try_catch. intros ->. by destruct r as [[]|]. Qed.

(** With the right current password everything up to the re-encryption succeeds. *)
Lemma change_run cur new m k kold w : quiet w → selected w → up (place w) →
  v_meta (view (place w)) = Some m → check_password cur m = Ok k →
  status (store w) = unlocked → sessionKey w = Some kold →
  ∃ p, stays (place w) p ∧ view p = view (place w)
    ∧ let s := getRandomValues (draws w) SALT_BYTES in
      let i := getRandomValues (S (draws w)) IV_BYTES in
      changeMasterPassword cur new w =
      match replace_key be kold (derived new s) (v_data (view (place w))) m (make_meta new s i)
              (set_place p (set_draws (S (S (draws w))) (started w))) with
      | (Ok _, u) => put (set_loading false) u
      | (Throw e, u) => fail_with (error_message (js "Failed to change master password") e) u
      end.
Proof.
  intros Hq Hs Hup Hm Hc Hu Hk. set (w0 := started w).
  destruct (loadMeta_up w0 Hq Hup) as (p1 & Hp1 & Hv1 & E1).
  change (place w0) with (place w) in *. rewrite Hm in E1. set (w1 := set_place p1 w0) in *.
  pose proof (verifyPassword_quiet cur m w1 Hq) as Ev. rewrite Hc in Ev.
  pose proof (createVaultMeta_quiet new w1 Hq) as Ec. set (w2 := set_draws _ w1) in Ec.
  destruct (loadData_up w2 Hq (proj1 Hp1 Hup)) as (p2 & Hp2 & Hv2 & E2).
  change (place w2) with p1 in *. rewrite Hv1 in *.
  exists p2. split; [eauto using stays_trans|]. split; [congruence|]. intros s i.
  destruct (replace_key _ _ _ _ _ _ _) as [r u] eqn:Er.
  unfold changeMasterPassword. steps.
  rewrite (catch_run _ (js "Failed to change master password") w0 r (match r with Ok _ => (put (set_loading false) u).2 | Throw _ => u end)).
  { by destruct r as [[]|]. }
  known (getBackend_selected scope md w0 Hs). known E1. steps.
  change (status (store w1)) with (status (store w)). rewrite Hu.
  rewrite bool_decide_eq_false_2 by (intros H; by apply H). steps.
  change (sessionKey w1) with (sessionKey w). rewrite Hk.
  known (try_ok _ (λ _, fail_with (js "Current password is incorrect");; mret (inl tt)) _ _ _
           (fmap_ok inr _ _ _ _ Ev)).
  known Ec. cbv iota. steps. change (status (store w2)) with (status (store w)). rewrite Hu.
  rewrite bool_decide_eq_false_2 by (intros H; by apply H).
  known E2. destruct r as [[]|]; by known Er.
Qed.

(** A change that is refused before the re-encryption. *)
Lemma change_refused cur new w : quiet w → selected w → up (place w) →
  (v_meta (view (place w)) = None
   ∨ (status (store w) ≠ unlocked)
   ∨ ∃ m e, v_meta (view (place w)) = Some m ∧ check_password cur m = Throw e ∧ is_Some (sessionKey w)) →
  ∃ p msg, stays (place w) p ∧ view p = view (place w)
    ∧ changeMasterPassword cur new w = (Ok tt, set_place p (set_store (failed_state msg (store w)) w)).
Proof.
  intros Hq Hs Hup Hcase. set (w0 := started w).
  destruct (loadMeta_up w0 Hq Hup) as (p1 & Hp1 & Hv1 & E1). change (place w0) with (place w) in *.
  exists p1. unfold changeMasterPassword. steps. fold (started w). fold w0.
  destruct (v_meta (view (place w))) as [m|] eqn:Em.
  2: { exists (js "No vault found"). split; [done|]. split; [done|]. apply try_ok.
       known (getBackend_selected scope md w0 Hs). by known E1. }
  destruct (decide (status (store w) = unlocked)) as [Hu|Hu].
  2: { exists (js "Vault is locked"). split; [done|]. split; [done|]. rewrite (try_throw _ _ _ locked_error (set_place p1 w0)); [reflexivity|].
       known (getBackend_selected scope md w0 Hs). known E1. steps.
       change (status (store (set_place p1 w0))) with (status (store w)).
       by rewrite bool_decide_eq_true_2. }
  destruct Hcase as [?|[?|(m' & e & ? & Hc & [k Hk])]]; [done|done|]. simplify_eq.
  pose proof (verifyPassword_quiet cur m' (set_place p1 w0) Hq) as Ev. rewrite Hc in Ev.
  exists (js "Current password is incorrect"). split; [done|]. split; [done|]. apply try_ok.
  known (getBackend_selected scope md w0 Hs). known E1. steps.
  change (status (store (set_place p1 w0))) with (status (store w)). rewrite Hu.
  rewrite bool_decide_eq_false_2 by (intros H; by apply H). steps.
  change (sessionKey (set_place p1 w0)) with (sessionKey w). rewrite Hk.
  apply or_return_inl. by rewrite (try_throw _ _ _ _ _ (fmap_throw inr _ _ _ _ Ev)).
Qed.

Section Change.
Context `{RB : !ReliableBackend scope md view up}.

(** A swallowed write of what is already stored changes nothing visible. *)
Lemma rewrite_same_data w d : quiet w → v_data (view (place w)) = Some d →
  ∃ p, stays (place w) p ∧ swallow (saveData be d) w = (Ok tt, set_place p w) ∧ view p = view (place w).
Proof.
  intros Hq Hd. destruct (saveData_law scope md view up d w Hq) as (p & Hp & H).
  exists p. split; [done|]. rewrite swallow_ok. destruct H as [[E Hv]|[e [E Hv]]]; rewrite E; [|done].
  split; [done|]. rewrite Hv. unfold with_data. destruct (view (place w)). cbn in Hd. by rewrite Hd.
Qed.

Lemma rewrite_same_meta w m : quiet w → v_meta (view (place w)) = Some m →
  ∃ p, stays (place w) p ∧ swallow (saveMeta be m) w = (Ok tt, set_place p w) ∧ view p = view (place w).
Proof.
  intros Hq Hm. pose proof (view_meta_ok scope md view up _ _ Hm) as Hi.
  destruct (saveMeta_law scope md view up m Hi w Hq) as (p & Hp & H).
  exists p. split; [done|]. rewrite swallow_ok. destruct H as [[E Hv]|[e [E Hv]]]; rewrite E; [|done].
  split; [done|]. rewrite Hv. unfold with_meta. destruct (view (place w)). cbn in Hm. by rewrite Hm.
Qed.

(** The [catch] of [replace_key], from a place [q] where the old blob can be put
    back. *)
Lemma rollback_spec kold d0 m e q w v : quiet w → place w = q → v_meta v = Some m →
  (∀ u, quiet u → place u = q →
    ∃ r, stays q r ∧ swallow (saveData be d0) u = (Ok tt, set_place r u) ∧ view r = v) →
  ∃ p, stays q p ∧ view p = v
    ∧ (setSessionKey kold;; swallow (saveData be d0);; swallow (saveMeta be m);; throw e) w
      = ((Throw e : res unit), set_place p (set_sessionKey (Some kold) w)).
Proof.
  intros Hq Hw Hm Hr. set (u := set_sessionKey (Some kold) w).
  destruct (Hr u Hq Hw) as (r & Hr1 & Er & Hrv).
  destruct (rewrite_same_meta (set_place r u) m Hq) as (p & Hp & Ep & Hpv).
  { change (place (set_place r u)) with r. by rewrite Hrv. }
  change (place (set_place r u)) with r in *. exists p. split; [eauto using stays_trans|].
  split; [congruence|]. steps. fold u. known Er. by known Ep.
Qed.

(** What [persistKeys] asked of the backend when it succeeded. *)
Lemma persistKeys_saved ks k w p : quiet w → sessionKey w = Some k →
  persistKeys ks (Some be) w = (Ok tt, set_place p (set_draws (S (draws w)) w)) →
  saveData be (sealed k ks w) (set_draws (S (draws w)) w) = (Ok tt, set_place p (set_draws (S (draws w)) w)).
Proof.
  intros Hq Hk. unfold persistKeys. steps. rewrite Hk. steps.
  by rewrite (bind_ok _ _ _ _ _ (encrypt_quiet k (stringify (keys_json ks)) w Hq)).
Qed.

(** Before the re-encryption: the stored vault and the keys in memory agree. *)
Record agrees (kold : CryptoKey) (m : VaultMeta) (d0 : VaultData) (w : World) : Prop := {
  ag_meta : v_meta (view (place w)) = Some m;
  ag_data : v_data (view (place w)) = Some d0;
  ag_units : forallb entry_units (keys (store w)) = true;
  ag_seal : ∃ i, Forall is_byte i ∧ length i = IV_BYTES ∧ d0 = seal kold i (stringify (keys_json (keys (store w))));
}.

(** The blob is saved but the meta record is refused: the old blob fits again. *)
Lemma restore_after_meta kold knew m d0 nm e w p1 p2 : agrees kold m d0 w →
  let w0 := set_sessionKey (Some knew) w in
  let w1 := set_place p1 (set_draws (S (draws w)) w0) in
  saveData be (sealed knew (keys (store w)) w) (set_draws (S (draws w)) w0) = (Ok tt, w1) →
  view p1 = with_data (sealed knew (keys (store w)) w) (view (place w)) →
  saveMeta be nm w1 = (Throw e, set_place p2 w1) → view p2 = view p1 →
  ∀ u, quiet u → place u = p2 →
  ∃ r, stays p2 r ∧ swallow (saveData be d0) u = (Ok tt, set_place r u) ∧ view r = view (place w).
Proof.
  intros [Hm Hd Hu (i & Hi & Hl & ->)] w0 w1 Es Hv1 E2 Hv2 u Hqu Hpu.
  assert (data_size (seal kold i (stringify (keys_json (keys (store w)))))
          <= data_size (sealed knew (keys (store w)) w))%nat as Hsize.
  { unfold sealed. erewrite seal_size; [reflexivity|done|apply random_bytes| |done].
    by rewrite random_length. }
  destruct (restore_law scope md view up _ _ nm e _ w1 u p1 p2 Hqu Hsize Es eq_refl E2 Hpu)
    as (p3 & Hp3 & E3 & Hv3).
  exists p3. split; [done|]. rewrite swallow_ok, E3. split; [done|].
    rewrite Hv3, Hv2, Hv1. unfold with_data. cbn. destruct (view (place w)). cbn in *. congruence.
Qed.

(** The re-encryption either installs the new key with its meta record and blob,
    or puts everything back and rethrows. *)
Lemma replace_key_spec kold knew m d0 nm w : quiet w → selected w → iterations_ok nm →
  agrees kold m d0 w →
  ∃ p, stays (place w) p
    ∧ (replace_key be kold knew (Some d0) m nm w
         = (Ok tt, set_place p (set_draws (S (draws w)) (set_sessionKey (Some knew) w)))
       ∧ view p = with_meta nm (with_data (sealed knew (keys (store w)) w) (view (place w)))
     ∨ ∃ e, replace_key be kold knew (Some d0) m nm w
              = (Throw e, set_place p (set_draws (S (draws w)) (set_sessionKey (Some kold) w)))
            ∧ view p = view (place w)).
Proof.
  intros Hq Hs Hnm Ha. unfold replace_key. steps. set (w0 := set_sessionKey (Some knew) w).
  destruct (persistKeys_spec (keys (store w)) (Some be) knew w0 Hq Hs eq_refl (or_intror eq_refl))
    as (p1 & Hp1 & [[E1 Hv1]|[e [E1 Hv1]]]); change (place w0) with (place w) in *;
    set (w1 := set_place p1 (set_draws (S (draws w0)) w0)) in *.
  - destruct (saveMeta_law scope md view up nm Hnm w1 Hq) as (p2 & Hp2 & [[E2 Hv2]|[e [E2 Hv2]]]);
      change (place w1) with p1 in *.
    + exists p2. split; [eauto using stays_trans|]. left. split; [|by rewrite Hv2, Hv1].
      apply try_ok. steps. known E1. exact E2.
    + destruct (rollback_spec kold d0 m e p2 (set_place p2 w1) (view (place w)) Hq eq_refl (ag_meta _ _ _ _ Ha))
        as (p & Hp & Hpv & Ep).
      { apply (restore_after_meta kold knew m d0 nm e w p1 p2 Ha); try done.
        exact (persistKeys_saved (keys (store w)) knew w0 p1 Hq eq_refl E1). }
      exists p. split; [eauto using stays_trans|]. right. exists e. split; [|done].
      erewrite try_throw; [exact Ep|]. steps. known E1. exact E2.
  - destruct (rollback_spec kold d0 m e p1 w1 (view (place w)) Hq eq_refl (ag_meta _ _ _ _ Ha))
      as (p & Hp & Hpv & Ep).
    { intros u Hqu Hpu. destruct (rewrite_same_data u d0 Hqu) as (r & Hr & Er & Hrv).
      { rewrite Hpu, Hv1. apply Ha. }
      rewrite Hpu in *. exists r. split; [done|]. split; [done|]. congruence. }
    exists p. split; [eauto using stays_trans|]. right. exists e. split; [|done].
    erewrite try_throw; [exact Ep|]. steps. by known E1.
Qed.

(** ** Creating a vault *)

(** A migrated key keeps what the legacy key held. *)
Definition migrated (l : LegacyPrivateKey) (k : VaultKeyEntry) : Prop :=
  name k = legacy_name l ∧ data k = legacy_data l ∧ hasPassphrase k = legacy_hasPassphrase l
  ∧ fingerprint k = legacy_fingerprint l ∧ algorithm k = None.

Definition legacy_units (l : LegacyPrivateKey) : bool :=
  units_ok (legacy_name l) && units_ok (legacy_data l) && units_ok (legacy_fingerprint l).

Lemma migrateLegacyKeys_at_spec now l w : units_ok now = true → forallb legacy_units l = true →
  ∃ ks n, migrateLegacyKeys_at now l w = (Ok ks, set_draws n w)
    ∧ Forall2 migrated l ks ∧ forallb entry_units ks = true.
Proof.
  intros Hn. revert w. induction l as [|x l IH]; intros w Hl.
  { exists (@nil VaultKeyEntry), (draws w). by destruct w. }
  cbn in Hl. apply andb_prop in Hl as [Hx Hl]. cbn [migrateLegacyKeys_at].
  destruct (generateRandomUUID_ok w) as (i & n & Ei & Hi). known Ei.
  destruct (IH (set_draws n w) Hl) as (ks & n' & Ek & Hf & Hu). known Ek.
  eexists _, n'. split; [reflexivity|]. split; [by constructor|]. cbn [forallb]. rewrite Hu, andb_true_r.
  unfold legacy_units in Hx. repeat (apply andb_prop in Hx as [Hx ?]).
  unfold entry_units. cbn [id name data fingerprint createdAt updatedAt algorithm].
  by repeat (apply andb_true_intro; split).
Qed.

(** The choice [initialize] makes: migrate when there is something to migrate. *)
Lemma legacy_choice_spec l w : forallb legacy_units l = true →
  ∃ ks n, ((match l with [] => mret [] | _ => migrateLegacyKeys l end) : V (list VaultKeyEntry)) w
            = (Ok ks, set_draws n w) ∧ Forall2 migrated l ks ∧ forallb entry_units ks = true.
Proof.
  intros Hl. destruct l as [|x l]; [exists (@nil VaultKeyEntry), (draws w); by destruct w|].
  unfold migrateLegacyKeys. steps. apply migrateLegacyKeys_at_spec; [apply toISOString_units|done].
Qed.

(** The [catch] of [initialize] leaves no vault. *)
Lemma init_catch msg u : quiet u →
  ∃ p, stays (place u) p ∧ view p = without_vault (view (place u))
    ∧ (swallow (clear be);; clearSessionKey;; fail_with msg) u
      = (Ok tt, set_place p (set_sessionKey None (set_store (failed_state msg (store u)) u))).
Proof.
  intros Hq. destruct (clear_total scope md view up u Hq) as (p & Hp & E & Hv).
  exists p. split; [done|]. split; [done|].
  rewrite (bind_ok _ _ u tt (set_place p u)); [by steps|]. by rewrite swallow_ok, E.
Qed.

(** The last steps, once the keys are saved. *)
Lemma init_finish (l : list LegacyPrivateKey) ks w : quiet w → selected w → up (place w) →
  ∃ p x t, stays (place w) p ∧ v_meta (view p) = v_meta (view (place w))
    ∧ v_data (view p) = v_data (view (place w))
    ∧ v_legacy (view p) = match l with [] => v_legacy (view (place w)) | _ => [] end
    ∧ ((match l with [] => mret tt | _ => clearLegacyKeys be end);;
       put (set_loading false ∘ set_keys ks ∘ set_status unlocked);;
       loadSettingsIntoState;;
       startTracker) w
      = (Ok tt, set_tracker t (set_place p (set_store
          (set_settings x (set_loading false (set_keys ks (set_status unlocked (store w))))) w))).
Proof.
  intros Hq Hs Hup.
  assert (∃ p1, stays (place w) p1 ∧ v_meta (view p1) = v_meta (view (place w))
    ∧ v_data (view p1) = v_data (view (place w))
    ∧ v_legacy (view p1) = match l with [] => v_legacy (view (place w)) | _ => [] end
    ∧ ((match l with [] => mret tt | _ => clearLegacyKeys be end) : V unit) w = (Ok tt, set_place p1 w))
    as (p1 & Hp1 & Hm1 & Hd1 & Hl1 & E1).
  { destruct l.
    - exists (place w). split; [apply stays_refl|]. repeat (split; [done|]). by rewrite set_place_id.
    - destruct (clearLegacyKeys_total scope md view up w Hq) as (p1 & Hp1 & E1 & Hv1).
      exists p1. split; [done|]. rewrite Hv1. repeat (split; [done|]). done. }
  known E1. steps. set (w1 := set_store _ (set_place p1 w)).
  destruct (loadSettingsIntoState_spec w1 Hq (selected_place p1 w Hs Hp1)) as (p2 & x & Hp2 & Hv2 & E2 & _).
  change (place w1) with p1 in *. known E2. rewrite startTracker_eq.
  eexists p2, x, _. split; [eauto using stays_trans|]. rewrite Hv2. repeat (split; [done|]). reflexivity.
Qed.

(** [initialize] without a mode: either a vault of the new password with the
    migrated legacy keys, open, or no vault and an error. *)
Lemma initialize_spec pw w : quiet w → selected w → up (place w) →
  forallb legacy_units (v_legacy (view (place w))) = true →
  ∃ p n, stays (place w) p ∧ forallb legacy_units (v_legacy (view p)) = true
    ∧ ((∃ ks s i j x t,
          Forall is_byte s ∧ Forall is_byte i ∧ Forall is_byte j ∧ length j = IV_BYTES
          ∧ Forall2 migrated (v_legacy (view (place w))) ks ∧ forallb entry_units ks = true
          ∧ v_meta (view p) = Some (make_meta pw s i)
          ∧ v_data (view p) = Some (seal (derived pw s) j (stringify (keys_json ks)))
          ∧ initialize pw None w = (Ok tt, set_tracker t (set_place p (set_draws n
              (set_sessionKey (Some (derived pw s)) (set_store (unlocked_state ks x (store w)) w))))))
       ∨ ∃ msg, v_meta (view p) = None
          ∧ initialize pw None w = (Ok tt, set_place p (set_draws n
              (set_sessionKey None (set_store (failed_state msg (store w)) w))))).
Proof.
  intros Hq Hs Hup Hl. unfold initialize. steps. fold (started w). set (w0 := started w).
  known (getBackend_selected scope md w0 Hs).
  pose proof (createVaultMeta_quiet pw w0 Hq) as Ec.
  set (s := getRandomValues (draws w0) SALT_BYTES) in *. set (i := getRandomValues (S (draws w0)) IV_BYTES) in *.
  set (w1 := set_draws _ w0) in Ec.
  destruct (saveMeta_law scope md view up _ (make_meta_iterations pw s i) w1 Hq) as (p1 & Hp1 & H1).
  change (place w1) with (place w) in *.
  destruct H1 as [[E1 Hv1]|[e [E1 Hv1]]].
  2: { destruct (init_catch (error_message (js "Failed to create vault") e) (set_place p1 w1) Hq) as (p & Hp & Hv & E).
       change (place (set_place p1 w1)) with p1 in *.
       exists p, (draws w1). split; [eauto using stays_trans|]. rewrite Hv, Hv1. split; [done|]. right.
       eexists. split; [done|]. erewrite try_throw; [exact E|]. known Ec. cbv iota. by known E1. }
  set (w2 := set_sessionKey (Some (derived pw s)) (set_place p1 w1)).
  destruct (loadLegacyKeys_law scope md view up w2 Hq) as (p2 & Hp2 & Hv2 & [E2|[Hn _]]);
    [|destruct Hn; by apply Hp1]. change (place w2) with p1 in *.
  set (l := v_legacy (view (place w))) in *.
  assert (v_legacy (view p2) = l) as Hl2 by by rewrite Hv2, Hv1. rewrite Hl2 in E2.
  destruct (legacy_choice_spec l (set_place p2 w2) Hl) as (ks & n & Ek & Hf & Hu).
  set (w3 := set_draws n (set_place p2 w2)) in Ek.
  assert (stays (place w) p2) as Hp12 by eauto using stays_trans.
  assert (selected w3) as Hs3 by exact (selected_place p2 w Hs Hp12).
  destruct (persistKeys_spec ks None (derived pw s) w3 Hq Hs3 eq_refl (or_introl eq_refl)) as (p3 & Hp3 & H3).
  change (place w3) with p2 in *. set (w4 := set_place p3 (set_draws (S (draws w3)) w3)) in H3.
  assert (stays (place w) p3) as Hp13 by eauto using stays_trans.
  destruct H3 as [[E3 Hv3]|[e [E3 Hv3]]].
  2: { destruct (init_catch (error_message (js "Failed to create vault") e) w4 Hq) as (p & Hp & Hv & E).
       change (place w4) with p3 in *. exists p, (draws w4). split; [eauto using stays_trans|].
       rewrite Hv, Hv3, Hv2, Hv1. split; [done|]. right. eexists. split; [done|].
       erewrite try_throw; [exact E|]. known Ec. cbv iota. known E1. steps. fold w2. known E2. known Ek.
       fold w3. by known E3. }
  destruct (init_finish l ks w4 Hq (selected_place p3 w Hs Hp13) (proj1 Hp13 Hup))
    as (p & x & t & Hp & Hm & Hd & Hl4 & E4).
  change (place w4) with p3 in *. rewrite Hv3, Hv2, Hv1 in Hm, Hd, Hl4.
  exists p, (draws w4). split; [eauto using stays_trans|]. split.
  { rewrite Hl4. revert Hl. change (v_legacy (with_data _ _)) with l. clearbody l. by destruct l. }
  left.
  exists ks, s, i, (getRandomValues (draws w3) IV_BYTES), x, t.
  split; [apply random_bytes|]. split; [apply random_bytes|]. split; [apply random_bytes|].
  split; [apply random_length|]. split; [done|]. split; [done|]. split; [exact Hm|]. split; [exact Hd|].
  apply try_ok. known Ec. cbv iota. known E1. steps. fold w2. known E2. known Ek. fold w3. known E3. exact E4.
Qed.

End Change.

(** ** Two weak spots *)

(** When [initialize] is asked to record a storage mode and localStorage
    refuses the write, it rejects before its [try]: the error is not stored and
    the store stays in the loading state. *)
Theorem initialize_stuck_loading pw m w :
  fits (localStorage w) (modeKey (scope_of (auth_user w) (auth_tenant w))) (mode_string m) = false →
  ∃ w', initialize pw (Some m) w = (Throw quota_exception, w')
        ∧ loading (store w') = true ∧ error (store w') = None.
Proof.
  intros Hf. unfold initialize. steps. fold (started w).
  assert (setVaultStorageMode m (scope_of (auth_user w) (auth_tenant w)) (started w)
          = (Throw quota_exception, started w)) as E.
  { unfold setVaultStorageMode, setItem, try_setItem, mbind, M_bind.
    change (localStorage (started w)) with (localStorage w). by rewrite Hf. }
  exists (started w). split; [|done]. apply bind_throw.
  rewrite (bind_ok _ _ _ _ _ (getScope_eq (started w))).
  change (scope_of (auth_user (started w)) (auth_tenant (started w)))
    with (scope_of (auth_user w) (auth_tenant w)). by apply bind_throw.
Qed.

(** When the stored vault has disappeared (reset in another tab, or deleted on
    the server by another session), [refreshStatus] reports it as uninitialized
    and stops the auto-lock tracker, but leaves the decrypted keys and the session
    key in memory. *)
Theorem refresh_keeps_secrets_of_missing_vault w : quiet w → selected w → up (place w) →
  v_meta (view (place w)) = None →
  let w' := (refreshStatus w).2 in
  status (store w') = uninitialized ∧ keys (store w') = keys (store w)
  ∧ sessionKey w' = sessionKey w ∧ currentOptions (tracker w') = None.
Proof.
  intros Hq Hs Hup Hm. unfold refreshStatus. rewrite (bind_ok _ _ _ _ _ (getScope_eq w)). cbv beta.
  known (getVaultStorageMode_eq (scope_of (auth_user w) (auth_tenant w)) w). steps.
  set (w0 := set_store _ w).
  destruct (loadMeta_up w0 Hq Hup) as (p1 & Hp1 & Hv1 & E1). change (place w0) with (place w) in *.
  erewrite or_return_inr.
  2: { apply try_ok. known (getBackend_selected scope md w0 Hs). by apply fmap_ok. }
  rewrite Hm. done.
Qed.

End Facts.
