(* ===== verification/VaultRefine.v ===== *)
(** * The vault store implements an abstract vault

    The abstract vault is a password, a list of keys, and whether it is open.
    [R] relates it to the world of the code: what is stored is the meta record of
    that password and a blob that holds those keys, and the keys are in memory
    (with the session key) exactly while the vault is open.  Every action of the
    store simulates a step of the abstract vault, so whatever the user does, in
    any order and whichever writes the storage refuses, no key is lost, shown
    while locked, or left under a key that the current password does not derive.

    The simulation is for handlers that are not interrupted, on a backend that
    satisfies the contract of [VaultLaws]. *)

From S2P Require Import Prelude JsString JsJson JsEncoding JsDate VaultTypes VaultTracker.
From S2P Require Import VaultWorld VaultCrypto VaultBackend VaultStore VaultLaws VaultStoreFacts.

(** ** The abstract vault *)

Record AVault := mkA {
  a_stored : option (jsstring * list VaultKeyEntry);
  a_open : bool;
}.

Inductive action :=
  | ARefresh
  | AInitialize (pw : jsstring)
  | AUnlock (pw : jsstring)
  | ALock
  | AIdle
  | AAdd (e : KeyInput)
  | AUpdate (i : jsstring) (u : KeyUpdates)
  | ARemove (i : jsstring)
  | AChangePassword (cur new : jsstring)
  | AReset
  | AClearError
  | ASettings (timeout : option Z) (onHidden : option bool).

(** [TextEncoder] decides which passwords are the same. *)
Definition same_password (p q : jsstring) : Prop := utf8_encode p = utf8_encode q.

(** [astep a act ok a']: what [act] may do to [a]; [ok] says whether it reports
    success. *)
Inductive astep : AVault → action → bool → AVault → Prop :=
  | s_refresh a : astep a ARefresh true a
  | s_clearError a : astep a AClearError true a
  | s_settings a t h ok : astep a (ASettings t h) ok a
  | s_lock st o : astep (mkA st o) ALock true (mkA st false)
  | s_idle st o : astep (mkA st o) AIdle true (mkA st false)
  | s_initialize st pw ks : astep (mkA st false) (AInitialize pw) true (mkA (Some (pw, ks)) true)
  | s_initialize_fails st pw : astep (mkA st false) (AInitialize pw) false (mkA None false)
  | s_unlock pw ks pw' : same_password pw' pw →
      astep (mkA (Some (pw, ks)) false) (AUnlock pw') true (mkA (Some (pw, ks)) true)
  | s_unlock_refused pw ks pw' : ¬ same_password pw' pw →
      astep (mkA (Some (pw, ks)) false) (AUnlock pw') false (mkA (Some (pw, ks)) false)
  | s_unlock_none pw' : astep (mkA None false) (AUnlock pw') false (mkA None false)
  | s_add pw ks e i now :
      checkDuplicates ks (Some (in_name e)) (Some (in_fingerprint e)) None = None →
      astep (mkA (Some (pw, ks)) true) (AAdd e) true (mkA (Some (pw, ks ++ [new_entry e i now])) true)
  | s_add_refused a e : astep a (AAdd e) false a
  | s_update pw ks i u now : existsb (has_id i) ks = true →
      checkDuplicates ks (up_name u) (up_fingerprint u) (Some i) = None →
      astep (mkA (Some (pw, ks)) true) (AUpdate i u) true (mkA (Some (pw, update_keys i u now ks)) true)
  | s_update_refused a i u : astep a (AUpdate i u) false a
  | s_remove pw ks i : existsb (has_id i) ks = true →
      astep (mkA (Some (pw, ks)) true) (ARemove i) true (mkA (Some (pw, remove_keys i ks)) true)
  | s_remove_refused a i : astep a (ARemove i) false a
  | s_change pw ks cur new : same_password cur pw →
      astep (mkA (Some (pw, ks)) true) (AChangePassword cur new) true (mkA (Some (new, ks)) true)
  | s_change_refused a cur new : astep a (AChangePassword cur new) false a
  | s_reset a : astep a AReset true (mkA None false).

(** Strings of the language are made of 16-bit code units. *)
Definition input_units (e : KeyInput) : bool :=
  units_ok (in_name e) && units_ok (in_data e) && units_ok (in_fingerprint e)
  && units_ok (default [] (in_algorithm e)).
Definition updates_units (u : KeyUpdates) : bool :=
  units_ok (default [] (up_name u)) && units_ok (default [] (up_data u))
  && units_ok (default [] (up_fingerprint u)) && units_ok (default [] (mjoin (up_algorithm u))).
(** The UI offers setup and unlock only while the vault is not open; passwords
    are among those under consideration. *)
Definition enabled `{IdealCrypto} (a : AVault) (act : action) : Prop :=
  match act with
  | AInitialize pw | AUnlock pw => a_open a = false ∧ considered (utf8_encode pw)
  | AChangePassword cur new => considered (utf8_encode cur) ∧ considered (utf8_encode new)
  | AAdd e => input_units e = true
  | AUpdate _ u => updates_units u = true
  | _ => True
  end.

Section Refine.
Context `{WC : WebCrypto} `{VA : VaultApi} `{PF : Platform}.
Context `{WCL : !WebCryptoLaws} `{IC : !IdealCrypto} `{PFL : !PlatformLaws}.
Context (scope : option VaultScope) (md : VaultStorageMode).
Context (view : Place → View) (up : Place → Prop).
Context `{LB : !LawfulBackend scope md view up} `{RB : !ReliableBackend scope md view up}.

Notation be := (backend_of scope md).
Notation stays := (stays scope md up).
Notation selected := (selected scope md).

Definition run_action (act : action) : V unit :=
  match act with
  | ARefresh => refreshStatus
  | AInitialize pw => initialize pw None
  | AUnlock pw => unlock pw
  | ALock => lock
  | AIdle => onIdle
  | AAdd e => addKey e
  | AUpdate i u => updateKey i u
  | ARemove i => removeKey i
  | AChangePassword cur new => changeMasterPassword cur new
  | AReset => resetVault
  | AClearError => clearError
  | ASettings t h => updateAutoLockSettings t h
  end.

(** What the user sees: an exception for the key actions, the error field for
    the actions on the whole vault. *)
Definition succeeded (act : action) (r : res unit) (w : World) : bool :=
  match act with
  | AAdd _ | AUpdate _ _ | ARemove _ => match r with Ok _ => true | Throw _ => false end
  | AInitialize _ | AUnlock _ | AChangePassword _ _ | AReset | ASettings _ _ =>
      match error (store w) with None => true | Some _ => false end
  | _ => true
  end.

(** The store shows no key and holds no session key. *)
Definition shut (w : World) : Prop :=
  sessionKey w = None ∧ status (store w) ≠ unlocked ∧ keys (store w) = [].

Definition opened (k : CryptoKey) (ks : list VaultKeyEntry) (w : World) : Prop :=
  sessionKey w = Some k ∧ status (store w) = unlocked ∧ keys (store w) = ks.

(** The stored vault of password [pw], salted with [s], holding [ks]. *)
Record stored_as (s : list N) (pw : jsstring) (ks : list VaultKeyEntry) (v : View) : Prop := {
  st_salt : Forall is_byte s;
  st_password : considered (utf8_encode pw);
  st_units : forallb entry_units ks = true;
  st_meta : ∃ i, Forall is_byte i ∧ v_meta v = Some (make_meta pw s i);
  st_data : ∃ i, Forall is_byte i ∧ length i = IV_BYTES
                 ∧ v_data v = Some (seal (derived pw s) i (stringify (keys_json ks)));
}.

Inductive R : AVault → World → Prop :=
  | R_none w : v_meta (view (place w)) = None → shut w → R (mkA None false) w
  | R_some w pw ks o s : stored_as s pw ks (view (place w)) →
      (if o : bool then opened (derived pw s) ks w else shut w) → R (mkA (Some (pw, ks)) o) w.

(** The world around: no interruption, this backend, sane legacy keys. *)
Record ready (w : World) : Prop := {
  rd_quiet : quiet w;
  rd_selected : selected w;
  rd_legacy : forallb legacy_units (v_legacy (view (place w))) = true;
}.

(** [act] from [w] simulates a step of [a]. *)
Definition simulates (a : AVault) (act : action) (w : World) : Prop :=
  ∃ r w' a', run_action act w = (r, w') ∧ ready w' ∧ astep a act (succeeded act r w') a' ∧ R a' w'.

Lemma holds_stored s pw ks v : stored_as s pw ks v → holds (derived pw s) v ks.
Proof.
  intros [Hs _ Hu _ (i & Hi & _ & Hd)]. unfold holds. rewrite Hd. by apply open_seal_keys.
Qed.

Lemma same_password_derived p q s : same_password p q → derived p s = derived q s.
Proof. unfold same_password, derived. by intros ->. Qed.

Lemma protected_stored s pw ks v pw' : stored_as s pw ks v → same_password pw' pw →
  protected pw' (derived pw s) v.
Proof.
  intros [Hs _ _ (i & Hi & Hm) _] Hp. eexists. split; [exact Hm|].
  unfold check_password. pose proof (check_make_meta pw s i Hs Hi) as E. unfold check_password in E.
  unfold same_password in Hp. by rewrite Hp.
Qed.

Lemma refused_stored s pw ks v pw' : stored_as s pw ks v → considered (utf8_encode pw') →
  ¬ same_password pw' pw →
  ∃ m e, v_meta v = Some m ∧ check_password pw' m = Throw e.
Proof.
  intros [Hs Hc _ (i & Hi & Hm) _] Hc' Hp. eexists.
  destruct (check_wrong_password pw pw' s i Hs Hi Hc Hc' Hp) as [e He]. by exists e.
Qed.

(** ** Actions that leave the stored vault alone *)

(** A change of the store, the session key or the tracker keeps [ready]. *)
#[local] Ltac still_ready Hr :=
  let Hq := fresh in let Hs := fresh in let Hl := fresh in
  destruct Hr as [Hq Hs Hl]; split; [exact Hq|exact Hs|exact Hl].

(** The relation only looks at what is stored and at the session. *)
Lemma stored_as_same s pw ks v v' : stored_as s pw ks v → v_meta v' = v_meta v → v_data v' = v_data v →
  stored_as s pw ks v'.
Proof. intros [H1 H2 H3 H4 H5] E1 E2. split; rewrite ?E1, ?E2; done. Qed.

Lemma R_same a w u : R a w → v_meta (view (place u)) = v_meta (view (place w)) →
  v_data (view (place u)) = v_data (view (place w)) → sessionKey u = sessionKey w →
  status (store u) = status (store w) → keys (store u) = keys (store w) → R a u.
Proof.
  intros HR Hm' Hd' H1 H2 H3. destruct HR as [w Hm (? & ? & ?)|w pw ks o s Hst Ho].
  - constructor; [congruence|]. unfold shut. by rewrite H1, H2, H3.
  - apply (R_some u pw ks o s); [by eapply stored_as_same|]. unfold opened, shut in *. by rewrite H1, H2, H3.
Qed.

Lemma R_shut a w u : R a w → view (place u) = view (place w) → shut u → R (mkA (a_stored a) false) u.
Proof.
  intros HR Hv Hu. destruct HR as [w Hm _|w pw ks o s Hst _].
  - constructor; [congruence|done].
  - apply (R_some u pw ks false s); [by rewrite Hv|done].
Qed.

Lemma refine_lock a w : ready w → R a w → simulates a ALock w.
Proof.
  intros Hr HR. eexists _, _, (mkA (a_stored a) false). split; [reflexivity|]. split; [still_ready Hr|].
  split; [destruct a; constructor|]. by eapply R_shut.
Qed.

Lemma refine_idle a w : ready w → R a w → simulates a AIdle w.
Proof.
  intros Hr HR. unfold simulates. cbn [run_action]. unfold onIdle. steps.
  destruct (bool_decide_reflect (status (store w) ≠ unlocked)) as [Hst|Hst].
  - eexists _, _, a. split; [reflexivity|]. split; [done|]. split; [|done].
    destruct HR as [w Hm Hs|w pw ks o s Hv Ho]; [constructor|].
    destruct o; [|constructor]. by destruct Ho as (_ & ? & _).
  - eexists _, _, (mkA (a_stored a) false). split; [reflexivity|]. split; [still_ready Hr|].
    split; [destruct a; constructor|]. by eapply R_shut.
Qed.

Lemma refine_clearError a w : ready w → R a w → simulates a AClearError w.
Proof.
  intros Hr HR. eexists _, _, a. split; [reflexivity|]. split; [still_ready Hr|].
  split; [constructor|]. by eapply R_same.
Qed.

Lemma ready_set_place p w : ready w → stays (place w) p → view p = view (place w) → ready (set_place p w).
Proof.
  intros [Hq Hs Hl] Hp Hv. split; [done|by apply selected_place with (up := up)|].
  change (place (set_place p w)) with p. by rewrite Hv.
Qed.

(** The same, for a world that also changed its store, session or tracker. *)
Lemma ready_moved p w u : ready w → stays (place w) p → v_legacy (view p) = v_legacy (view (place w)) →
  place u = p → sched u = sched w → auth_user u = auth_user w → auth_tenant u = auth_tenant w → ready u.
Proof.
  intros [Hq [Hs1 Hs2] Hl] [_ Hp] Hv <- E1 E2 E3. split.
  - unfold quiet. by rewrite E1.
  - split; [by rewrite E2, E3|]. by apply Hp.
  - by rewrite Hv.
Qed.

Lemma refine_refresh a w : ready w → R a w → simulates a ARefresh w.
Proof.
  intros Hr HR. unfold simulates. cbn [run_action]. unfold refreshStatus.
  rewrite (bind_ok _ _ _ _ _ (getScope_eq w)). cbv beta.
  known (getVaultStorageMode_eq (scope_of (auth_user w) (auth_tenant w)) w). steps.
  set (w0 := set_store _ w). assert (ready w0) as Hr0 by still_ready Hr.
  pose proof (rd_quiet w0 Hr0) as Hq.
  destruct (loadMeta_up scope md view up w0 Hq (always_up scope md view up _)) as (p1 & Hp1 & Hv1 & E1).
  assert (ready (set_place p1 w0)) as Hr1 by by apply ready_set_place.
  erewrite or_return_inr.
  2: { apply try_ok. known (getBackend_selected scope md w0 (rd_selected w0 Hr0)). by apply fmap_ok. }
  destruct (v_meta (view (place w0))) as [m|] eqn:Em.
  - destruct (loadSettingsIntoState_spec scope md view up (set_place p1 w0) Hq (rd_selected _ Hr1))
      as (p2 & x & Hp2 & Hv2 & E2 & _).
    assert (ready (set_place p2 (set_place p1 w0))) as Hr2 by by apply ready_set_place.
    known E2. steps. change (sessionKey _) with (sessionKey w).
    change (place (set_place p1 w0)) with p1 in *. change (place w0) with (place w) in *.
    assert (view p2 = view (place w)) as Hv by congruence.
    destruct HR as [w Hm Hs|w pw ks [|] s Hst Ho]; [congruence|..].
    + destruct Ho as (Hk & Hst' & Hks). rewrite Hk.
      eexists _, _, _. split; [reflexivity|]. split; [still_ready Hr2|]. split; [constructor|].
      apply (R_some _ pw ks true s); [exact (eq_rect_r (stored_as s pw ks) Hst Hv)|]. done.
    + destruct Ho as (Hk & Hst' & Hks). rewrite Hk. steps.
      eexists _, _, _. split; [reflexivity|]. split; [still_ready Hr2|]. split; [constructor|].
      apply (R_some _ pw ks false s); [exact (eq_rect_r (stored_as s pw ks) Hst Hv)|]. done.
  - steps. change (place w0) with (place w) in *.
    destruct HR as [w Hm Hs|w pw ks o s [_ _ _ (i & _ & Hm) _] Ho]; [|congruence].
    eexists _, _, _. split; [reflexivity|]. split; [still_ready Hr1|]. split; [constructor|].
    constructor; [exact (eq_trans (f_equal v_meta Hv1) Em)|]. destruct Hs as (? & ? & ?). done.
Qed.

(** [unlock] opens the stored vault or leaves it shut with a message; what is stored
    stays. *)
Lemma unlock_outcome a pw w : ready w → R a w → a_open a = false → considered (utf8_encode pw) →
  ∃ w' (b : bool), unlock pw w = (Ok tt, w') ∧ ready w' ∧ R (mkA (a_stored a) b) w' ∧ loading (store w') = false
  ∧ (if b then error (store w') = None else ∃ m, error (store w') = Some m ∧ truthy m = true)
  ∧ (b = true ↔ ∃ pw0 ks, a_stored a = Some (pw0, ks) ∧ same_password pw pw0).
Proof.
  intros Hr HR Ho Hcp. pose proof Hr as [Hq Hs Hl].
  pose proof (always_up scope md view up (place w)) as Hu.
  destruct HR as [w Hm Hsh|w pw0 ks o s Hst Hw]; cbn in Ho; subst.
  - destruct (unlock_no_vault scope md view up pw w Hq Hs Hu Hm) as (p & Hp & Hv & E).
    eexists _, false. split; [exact E|]. split; [apply (ready_moved p w); by rewrite ?Hv|].
    split; [constructor; [exact (eq_trans (f_equal v_meta Hv) Hm)|exact Hsh]|]. split; [done|]. split; [eexists; split; [reflexivity|vm_compute; reflexivity]|].
    split; [done|]. by intros (? & ? & ? & _).
  - destruct (decide (utf8_encode pw = utf8_encode pw0)) as [Hp|Hp].
    + destruct (unlock_spec scope md view up pw (derived pw0 s) ks w Hq Hs Hu) as (p & Hst' & Hv & E).
      { by eapply protected_stored. }
      { by eapply holds_stored. }
      eexists _, true. split; [exact E|]. split; [apply (ready_moved p w); by rewrite ?Hv|].
      split; [apply (R_some _ pw0 ks true s); [exact (eq_rect_r (stored_as s pw0 ks) Hst Hv)|done]|].
      split; [done|]. split; [done|]. split; [|done]. intros _. by exists pw0, ks.
    + destruct (refused_stored s pw0 ks _ pw Hst Hcp Hp) as (m & e & Hm & Hc).
      destruct (unlock_refused scope md view up pw m e w Hq Hs Hu Hm Hc) as (p & Hst' & Hv & E).
      eexists _, false. split; [exact E|]. split; [apply (ready_moved p w); by rewrite ?Hv|].
      split; [apply (R_some _ pw0 ks false s); [exact (eq_rect_r (stored_as s pw0 ks) Hst Hv)|exact Hw]|].
      split; [done|]. split; [eexists; split; [reflexivity|vm_compute; reflexivity]|]. split; [done|]. intros (? & ? & [= <- <-] & ?). done.
Qed.

Lemma refine_unlock a pw w : ready w → R a w → a_open a = false → considered (utf8_encode pw) → simulates a (AUnlock pw) w.
Proof.
  intros Hr HR Ho Hcp. destruct (unlock_outcome a pw w Hr HR Ho Hcp) as (w' & b & E & Hr' & HR' & _ & He & Hb).
  eexists _, w', _. split; [exact E|]. split; [done|]. split; [|exact HR']. cbn [succeeded].
  destruct a as [st o]. cbn in Ho, Hb |- *. subst o. destruct b.
  - rewrite He. destruct Hb as [Hb _]. destruct (Hb eq_refl) as (pw0 & ks & -> & Hp). by constructor.
  - destruct He as (m & -> & _). destruct st as [[pw0 ks]|]; constructor. intros Hp. destruct Hb as [_ Hb].
    discriminate Hb. by exists pw0, ks.
Qed.

(** ** The key actions *)

Lemma new_entry_units e i now : input_units e = true → units_ok i = true → units_ok now = true →
  entry_units (new_entry e i now) = true.
Proof.
  unfold input_units, entry_units, new_entry.
  cbn [id name data fingerprint createdAt updatedAt algorithm]. intros H -> ->.
  repeat (apply andb_prop in H as [H ?]). by repeat (apply andb_true_intro; split).
Qed.

Lemma nullish_units u x : units_ok (default [] u) = true → units_ok x = true → units_ok (nullish u x) = true.
Proof. by destruct u. Qed.

Lemma apply_updates_units u now k : updates_units u = true → units_ok now = true → entry_units k = true →
  entry_units (apply_updates u now k) = true.
Proof.
  unfold updates_units, entry_units, apply_updates. cbn [id name data fingerprint createdAt updatedAt algorithm].
  intros Hu Hn Hk. repeat (apply andb_prop in Hu as [Hu ?]). repeat (apply andb_prop in Hk as [Hk ?]).
  repeat (apply andb_true_intro; split); try done; try by apply nullish_units.
  by destruct (up_algorithm u) as [[]|].
Qed.

Lemma update_keys_units i u now ks : updates_units u = true → units_ok now = true →
  forallb entry_units ks = true → forallb entry_units (update_keys i u now ks) = true.
Proof.
  rewrite !forallb_Forall. intros Hu Hn Hk. apply Forall_map. eapply Forall_impl; [exact Hk|].
  intros k He. cbn. destruct (has_id i k); [by apply apply_updates_units|done].
Qed.

Lemma remove_keys_units i ks : forallb entry_units ks = true → forallb entry_units (remove_keys i ks) = true.
Proof.
  rewrite !forallb_Forall, !List.Forall_forall. intros H x Hx. apply H. by apply filter_In in Hx as [? _].
Qed.

(** A saved list replaces the stored one; a refused save leaves it. *)
Lemma R_committed p n ks' w u s pw ks : stored_as s pw ks (view (place w)) → opened (derived pw s) ks w →
  forallb entry_units ks' = true → view p = with_data (sealed (derived pw s) ks' u) (view (place w)) →
  R (mkA (Some (pw, ks')) true) (committed p n ks' w).
Proof.
  intros [Hs Hc Hu (i & Hi & Hm) _] (Hk & Hst & Hks) Hu' Hv.
  apply (R_some _ pw ks' true s); [|done]. change (place (committed p n ks' w)) with p. rewrite Hv.
  split; [done|done|done|by exists i|].
  eexists. split; [|split; [|reflexivity]]; [apply random_bytes|apply random_length].
Qed.

Lemma R_refused p n w s pw ks : stored_as s pw ks (view (place w)) → opened (derived pw s) ks w →
  view p = view (place w) → R (mkA (Some (pw, ks)) true) (committed p n (keys (store w)) w).
Proof.
  intros Hst Ho Hv. apply (R_some _ pw ks true s); [exact (eq_rect_r (stored_as s pw ks) Hst Hv)|exact Ho].
Qed.

(** From the outcome of saving to a step of the abstract vault. *)
Lemma simulates_commit act p n u ks' s pw ks w :
  ready w → stored_as s pw ks (view (place w)) → opened (derived pw s) ks w →
  forallb entry_units ks' = true → stays (place w) p →
  succeeded act (Ok tt) (committed p n ks' w) = true →
  (∀ e, succeeded act (Throw e) (committed p n (keys (store w)) w) = false) →
  astep (mkA (Some (pw, ks)) true) act true (mkA (Some (pw, ks')) true) →
  astep (mkA (Some (pw, ks)) true) act false (mkA (Some (pw, ks)) true) →
  (run_action act w = (Ok tt, committed p n ks' w)
     ∧ view p = with_data (sealed (derived pw s) ks' u) (view (place w))
   ∨ ∃ e, run_action act w = (Throw e, committed p n (keys (store w)) w) ∧ view p = view (place w)) →
  simulates (mkA (Some (pw, ks)) true) act w.
Proof.
  intros Hr Hst Ho Hu Hp Hok Hno S1 S2 [[E Hv]|[e [E Hv]]].
  - eexists _, _, _. split; [exact E|]. split; [by apply (ready_moved p w); rewrite ?Hv|].
    rewrite Hok. split; [exact S1|]. by eapply R_committed.
  - eexists _, _, _. split; [exact E|]. split; [by apply (ready_moved p w); rewrite ?Hv|].
    rewrite Hno. split; [exact S2|]. by eapply R_refused.
Qed.

(** An action that throws without touching the session. *)
Lemma simulates_throw a act e n w : ready w → R a w → succeeded act (Throw e) (set_draws n w) = false →
  astep a act false a → run_action act w = (Throw e, set_draws n w) → simulates a act w.
Proof.
  intros Hr HR Hno S E. eexists _, _, a. split; [exact E|]. split; [still_ready Hr|].
  rewrite Hno. split; [exact S|]. by eapply R_same.
Qed.

Lemma set_draws_id w : set_draws (draws w) w = w.
Proof. by destruct w. Qed.

Lemma refine_add a e w : ready w → R a w → input_units e = true → simulates a (AAdd e) w.
Proof.
  intros Hr HR He. pose proof Hr as [Hq Hs _].
  assert (shut w → simulates a (AAdd e) w) as Hshut.
  { intros (Hk & _ & Hks). destruct (generateRandomUUID_ok w) as (i & n & Ei & _).
    eapply (simulates_throw a _ locked_error n); [done|done|done|constructor|].
    cbn [run_action]. unfold addKey. steps. rewrite Hks. cbn. steps. known Ei.
    by rewrite locked_writes_nothing. }
  destruct HR as [w Hm Hsh|w pw ks [|] s Hst Ho]; auto. pose proof Ho as (Hk & Hu & Hks).
  destruct (checkDuplicates (keys (store w)) (Some (in_name e)) (Some (in_fingerprint e)) None) as [f|] eqn:Ed.
  - eapply (simulates_throw _ _ (DuplicateKeyError f) (draws w)); [done|by econstructor|done|constructor|].
    rewrite set_draws_id. by apply addKey_duplicate.
  - destruct (addKey_spec scope md view up e _ w Hq Hs Hk Hu Ed) as (p & n & i & u & Hi & Hp & H).
    eapply (simulates_commit _ p n u); try done.
    + unfold added. rewrite Hks, forallb_app. rewrite (st_units _ _ _ _ Hst). cbn. rewrite andb_true_r.
      apply new_entry_units; [done|done|apply toISOString_units].
    + unfold added. rewrite Hks. constructor. by rewrite <-Hks.
    + constructor.
Qed.

Lemma refine_update a i ups w : ready w → R a w → updates_units ups = true → simulates a (AUpdate i ups) w.
Proof.
  intros Hr HR He. pose proof Hr as [Hq Hs _].
  destruct (existsb (has_id i) (keys (store w))) eqn:Ei.
  2: { eapply (simulates_throw _ _ not_found_error (draws w)); [done|done|done|constructor|].
       rewrite set_draws_id. by apply updateKey_missing. }
  destruct HR as [w Hm (_ & _ & Hks)|w pw ks [|] s Hst Ho]; [by rewrite Hks in Ei| |].
  2: { destruct Ho as (_ & _ & Hks). by rewrite Hks in Ei. }
  pose proof Ho as (Hk & Hu & Hks).
  destruct (checkDuplicates (keys (store w)) (up_name ups) (up_fingerprint ups) (Some i)) as [f|] eqn:Ed.
  - eapply (simulates_throw _ _ (DuplicateKeyError f) (draws w)); [done|by econstructor|done|constructor|].
    rewrite set_draws_id. by apply updateKey_duplicate.
  - destruct (updateKey_spec scope md view up i ups _ w Hq Hs Hk Hu Ei Ed) as (p & n & Hp & H).
    eapply (simulates_commit _ p n w); try done.
    + apply update_keys_units; [done|apply toISOString_units|]. rewrite Hks. apply Hst.
    + rewrite Hks in *. by constructor.
    + constructor.
Qed.

Lemma refine_remove a i w : ready w → R a w → simulates a (ARemove i) w.
Proof.
  intros Hr HR. pose proof Hr as [Hq Hs _].
  destruct (existsb (has_id i) (keys (store w))) eqn:Ei.
  2: { eapply (simulates_throw _ _ not_found_error (draws w)); [done|done|done|constructor|].
       rewrite set_draws_id. by apply removeKey_missing. }
  destruct HR as [w Hm (_ & _ & Hks)|w pw ks [|] s Hst Ho]; [by rewrite Hks in Ei| |].
  2: { destruct Ho as (_ & _ & Hks). by rewrite Hks in Ei. }
  pose proof Ho as (Hk & Hu & Hks).
  destruct (removeKey_spec scope md view up i _ w Hq Hs Hk Hu Ei) as (p & n & Hp & H).
  eapply (simulates_commit _ p n w); try done.
  - apply remove_keys_units. rewrite Hks. apply Hst.
  - rewrite Hks in *. by constructor.
  - constructor.
Qed.

(** ** Settings and reset *)

Lemma refine_settings a t h w : ready w → R a w → simulates a (ASettings t h) w.
Proof.
  intros Hr HR. pose proof Hr as [Hq Hs _]. unfold simulates. cbn [run_action].
  unfold updateAutoLockSettings. steps. known (getBackend_selected scope md w Hs).
  set (x := mkSettings _ _).
  destruct (saveSettings_law scope md view up x w Hq) as (p & Hp & [[E Hv]|[e [E Hv]]]).
  - rewrite (or_return_inr _ _ _ tt (set_place p w)) by (apply try_ok; by apply fmap_ok). steps.
    assert (∀ u, place u = p → sched u = sched w → auth_user u = auth_user w → auth_tenant u = auth_tenant w →
      sessionKey u = sessionKey w → status (store u) = status (store w) → keys (store u) = keys (store w) →
      ready u ∧ R a u) as Hu.
    { intros u Hpu ? ? ? ? ? ?. split; [by apply (ready_moved p w); rewrite ?Hv|].
      by apply (R_same a w); rewrite ?Hpu, ?Hv. }
    destruct (bool_decide _).
    + eexists _, _, a. split; [reflexivity|]. edestruct Hu as [H1 H2]; [..|split; [exact H1|split; [constructor|exact H2]]]; done.
    + eexists _, _, a. split; [reflexivity|]. edestruct Hu as [H1 H2]; [..|split; [exact H1|split; [constructor|exact H2]]]; done.
  - erewrite or_return_inl by (rewrite (try_throw _ _ _ _ _ (fmap_throw inr _ _ _ _ E)); reflexivity).
    eexists _, _, a. split; [reflexivity|]. split; [by apply (ready_moved p w); rewrite ?Hv|].
    split; [constructor|].
    apply (R_same a w _ HR); [exact (f_equal v_meta Hv)|exact (f_equal v_data Hv)|done..].
Qed.

Lemma refine_reset a w : ready w → R a w → simulates a AReset w.
Proof.
  intros Hr HR. pose proof Hr as [Hq Hs _]. unfold simulates. cbn [run_action]. unfold resetVault.
  known (getBackend_selected scope md w Hs).
  destruct (clear_total scope md view up w Hq) as (p & Hp & E & Hv).
  rewrite (or_return_inr _ _ _ tt (set_place p w)) by (apply try_ok; by apply fmap_ok). steps.
  eexists _, _, _. split; [reflexivity|]. split; [by apply (ready_moved p w); rewrite ?Hv|].
  split; [constructor|]. constructor; [exact (f_equal v_meta Hv)|done].
Qed.

(** ** Changing the master password *)

(** The stored vault agrees with the keys in memory. *)
Lemma stored_agrees s pw ks m w : stored_as s pw ks (view (place w)) → keys (store w) = ks →
  v_meta (view (place w)) = Some m →
  ∃ d, agrees view (derived pw s) m d w.
Proof.
  intros [Hs _ Hu _ (j & Hj & Hl & Hd)] Hks Hm. eexists. split; [done|exact Hd|by rewrite Hks|].
  exists j. by rewrite Hks.
Qed.

(** From the right current password: the new vault, or the old one with an error. *)
Lemma change_open cur new pw ks s w : ready w → stored_as s pw ks (view (place w)) →
  opened (derived pw s) ks w → same_password cur pw → considered (utf8_encode new) →
  simulates (mkA (Some (pw, ks)) true) (AChangePassword cur new) w.
Proof.
  intros Hr Hst Ho Hcur Hnew. pose proof Hr as [Hq Hs _]. pose proof Ho as (Hk & Hu & Hks).
  destruct (protected_stored s pw ks _ cur Hst Hcur) as (m & Hm & Hc).
  destruct (change_run scope md view up cur new m _ _ w Hq Hs (always_up scope md view up _) Hm Hc Hu Hk)
    as (p1 & Hp1 & Hv1 & Erun). cbv zeta in Erun.
  set (s' := getRandomValues (draws w) SALT_BYTES) in *. set (i' := getRandomValues (S (draws w)) IV_BYTES) in *.
  set (w1 := set_place p1 _) in Erun.
  assert (view (place w1) = view (place w)) as Hv by exact Hv1.
  destruct (stored_agrees s pw ks m w1) as (d & Hag); [by rewrite Hv|exact Hks|by rewrite Hv|].
  assert (v_data (view (place w)) = Some d) as Hd by (rewrite <-Hv; apply Hag). rewrite Hd in Erun.
  destruct (replace_key_spec scope md view up (derived pw s) (derived new s') m d (make_meta new s' i') w1 Hq
    (selected_place scope md up p1 w Hs Hp1) (make_meta_iterations _ _ _) Hag) as (p2 & Hp2 & [[E Hv2]|[e [E Hv2]]]);
    rewrite E in Erun; change (place w1) with p1 in *;
    (assert (stays (place w) p2) as Hp by eauto using stays_trans).
  - eexists _, _, _. split; [exact Erun|]. split; [by apply (ready_moved p2 w); rewrite ?Hv2, ?Hv1|].
    split; [by constructor|]. apply (R_some _ new ks true s'); [|done].
    apply (eq_rect_r (stored_as s' new ks)) with (2 := Hv2).
    split; [apply random_bytes|done|apply Hst|eexists; split; [apply random_bytes|reflexivity]|].
    change (keys (store w1)) with (keys (store w)). rewrite Hks.
    eexists. split; [apply random_bytes|]. split; [apply random_length|reflexivity].
  - eexists _, _, _. split; [exact Erun|]. split; [by apply (ready_moved p2 w); rewrite ?Hv2, ?Hv1|].
    split; [constructor|]. apply (R_some _ pw ks true s); [|exact (conj eq_refl (conj Hu Hks))].
    change (stored_as s pw ks (view p2)). by rewrite Hv2, Hv1.
Qed.

Lemma refine_change a cur new w : ready w → R a w →
  considered (utf8_encode cur) → considered (utf8_encode new) → simulates a (AChangePassword cur new) w.
Proof.
  intros Hr HR Hcc Hcn. pose proof Hr as [Hq Hs _]. pose proof (always_up scope md view up (place w)) as Hup.
  assert (Hfail : v_meta (view (place w)) = None ∨ (status (store w) ≠ unlocked)
    ∨ (∃ m e, v_meta (view (place w)) = Some m ∧ check_password cur m = Throw e ∧ is_Some (sessionKey w)) →
    simulates a (AChangePassword cur new) w).
  { intros Hc. destruct (change_refused scope md view up cur new w Hq Hs Hup Hc) as (p & msg & Hp & Hv & E).
    eexists _, _, a. split; [exact E|]. split; [by apply (ready_moved p w); rewrite ?Hv|]. split; [constructor|].
    apply (R_same a w _ HR); [exact (f_equal v_meta Hv)|exact (f_equal v_data Hv)|done..]. }
  destruct HR as [w Hm Hsh|w pw ks [|] s Hst Ho]; [by auto| |].
  - destruct (decide (utf8_encode cur = utf8_encode pw)) as [Hp|Hp]; [by eapply change_open|].
    destruct (refused_stored s pw ks _ cur Hst Hcc Hp) as (m & e & Hm & Hc).
    apply Hfail. right. right. exists m, e. destruct Ho as (Hk & _). by rewrite Hk.
  - apply Hfail. right. left. apply Ho.
Qed.

Lemma refine_initialize a pw w : ready w → R a w → a_open a = false → considered (utf8_encode pw) → simulates a (AInitialize pw) w.
Proof.
  intros Hr HR Ho Hcp. pose proof Hr as [Hq Hs Hl].
  assert (shut w) as Hsh by (destruct HR as [|w ? ? []]; [done|by cbn in Ho|done]).
  destruct (initialize_spec scope md view up pw w Hq Hs (always_up scope md view up _) Hl) as (p & n & Hp & Hlp & H).
  assert (∀ u, place u = p → sched u = sched w → auth_user u = auth_user w → auth_tenant u = auth_tenant w → ready u) as Hu.
  { intros u <- E1 E2 E3. destruct Hs as [Hs1 Hs2]. split; [unfold quiet; by rewrite E1| |done].
    split; [by rewrite E2, E3|by apply Hp]. }
  destruct a as [st o]. cbn in Ho. subst o.
  destruct H as [(ks & s & i & j & x & t & Hbs & Hbi & Hbj & Hj & _ & Hku & Hm & Hd & E)|(msg & Hm & E)].
  - eexists _, _, _. split; [exact E|]. split; [by apply Hu|]. split; [apply (s_initialize st pw ks)|].
    apply (R_some _ pw ks true s); [|done]. split; [done|done|done|by exists i|by exists j].
  - eexists _, _, _. split; [exact E|]. split; [by apply Hu|]. split; [constructor|]. constructor; [exact Hm|].
    destruct Hsh as (_ & ? & ?). done.
Qed.

(** ** The simulation *)

Lemma refine_action a act w : ready w → R a w → enabled a act → simulates a act w.
Proof.
  intros Hr HR He. destruct act; cbn in He.
  - by apply refine_refresh.
  - destruct He. by apply refine_initialize.
  - destruct He. by apply refine_unlock.
  - by apply refine_lock.
  - by apply refine_idle.
  - by apply refine_add.
  - by apply refine_update.
  - by apply refine_remove.
  - destruct He. by apply refine_change.
  - by apply refine_reset.
  - by apply refine_clearError.
  - by apply refine_settings.
Qed.

(** ** Sessions *)

(** What the UI lets through: setup and unlock are not offered while open. *)
Definition allowed (act : action) (w : World) : bool :=
  match act with
  | AInitialize _ | AUnlock _ => bool_decide (status (store w) ≠ unlocked)
  | _ => true
  end.

Definition well_formed (act : action) : Prop :=
  match act with
  | AInitialize pw | AUnlock pw => considered (utf8_encode pw)
  | AChangePassword cur new => considered (utf8_encode cur) ∧ considered (utf8_encode new)
  | AAdd e => input_units e = true
  | AUpdate _ u => updates_units u = true
  | _ => True
  end.

Definition user_step (w : World) (act : action) : World :=
  if allowed act w then (run_action act w).2 else w.

Lemma enabled_allowed a act w : R a w → well_formed act → allowed act w = true → enabled a act.
Proof.
  intros HR Hwf Ha. destruct act; cbn in *; try done; (split; [|done]);
    apply bool_decide_eq_true in Ha; (destruct HR as [|w ? ? [|] ? ? Ho]; [done| |done]);
    by destruct Ho as (_ & ? & _).
Qed.

Lemma session_invariant acts w : ready w → (∃ a, R a w) → Forall well_formed acts →
  ready (foldl user_step w acts) ∧ ∃ a, R a (foldl user_step w acts).
Proof.
  revert w. induction acts as [|act acts IH]; cbn; intros w Hr HR Hwf; [done|].
  inversion_clear Hwf as [|? ? H1 H2]. destruct HR as [a HR].
  assert (ready (user_step w act) ∧ ∃ a, R a (user_step w act)) as [? ?]; [|by apply IH].
  unfold user_step. destruct (allowed act w) eqn:Ea; [|eauto].
  destruct (refine_action a act w Hr HR (enabled_allowed a act w HR H1 Ea)) as (r & w' & a' & E & Hr' & _ & HR').
  rewrite E. eauto.
Qed.

Lemma R_some_inv pw ks o w : R (mkA (Some (pw, ks)) o) w →
  ∃ s, stored_as s pw ks (view (place w)) ∧ if o then opened (derived pw s) ks w else shut w.
Proof. inversion 1; subst; eauto. Qed.

Lemma R_unlocked_inv a w : R a w → status (store w) = unlocked → ∃ pw ks, a = mkA (Some (pw, ks)) true.
Proof.
  intros HR Hu. destruct HR as [w Hm (_ & Hn & _)|w pw ks [|] s Hst Ho]; [done|by eexists _, _|].
  by destruct Ho as (_ & Hn & _).
Qed.

Lemma unlock_step pw ks ok a : astep (mkA (Some (pw, ks)) false) (AUnlock pw) ok a →
  ok = true ∧ a = mkA (Some (pw, ks)) true.
Proof. inversion 1; subst; [done|]. unfold same_password in *. done. Qed.

(** C1: The store refines the abstract vault.  Every action of the store, run
    without interruption from a world related to an abstract vault, terminates in
    a world related to the result of a step the abstract vault allows for that
    action, with the same success or failure: keys are added, changed, removed or
    re-encrypted under the new password as a whole or not at all, a wrong password
    opens nothing, and only a reset or a failed setup drops the vault. *)
Theorem store_refines_vault a act w : ready w → R a w → enabled a act →
  ∃ r w' a', run_action act w = (r, w') ∧ ready w' ∧ astep a act (succeeded act r w') a' ∧ R a' w'.
Proof. apply refine_action. Qed.

(** C20: Locking and unlocking again with the master password gives back exactly
    the keys that were shown before. *)
Theorem lock_unlock_round_trip pw ks w : ready w → R (mkA (Some (pw, ks)) true) w →
  let w' := (unlock pw (lock w).2).2 in
  keys (store w) = ks ∧ keys (store (lock w).2) = [] ∧ sessionKey (lock w).2 = None
  ∧ keys (store w') = ks ∧ status (store w') = unlocked ∧ error (store w') = None.
Proof.
  intros Hr HR. destruct (R_some_inv _ _ _ _ HR) as (s & Hst & _ & _ & Hks).
  destruct (refine_lock _ w Hr HR) as (r & w1 & a1 & E1 & Hr1 & S1 & HR1).
  assert (a1 = mkA (Some (pw, ks)) false) as -> by by inversion S1.
  destruct (R_some_inv _ _ _ _ HR1) as (s1 & _ & Hk1 & _ & Hks1).
  destruct (refine_unlock _ pw w1 Hr1 HR1 eq_refl (st_password _ _ _ _ Hst)) as (r2 & w2 & a2 & E2 & _ & S2 & HR2).
  destruct (unlock_step _ _ _ _ S2) as [Hok ->]. destruct (R_some_inv _ _ _ _ HR2) as (s2 & _ & _ & Hu & Hks2).
  cbn [run_action] in E1, E2. rewrite E1. cbn [snd]. rewrite E2. cbn [snd].
  split; [done|]. split; [done|]. split; [done|]. split; [done|]. split; [done|].
  cbn in Hok. by destruct (error (store w2)).
Qed.

End Refine.

(** ** The Community Edition *)

Section LocalSession.
Context `{WC : WebCrypto} `{VA : VaultApi} `{PF : Platform}.
Context `{WCL : !WebCryptoLaws} `{IC : !IdealCrypto} `{PFL : !PlatformLaws} `{QL : !QuotaLaws}.
Context (scope : option VaultScope) (community_edition : isVaultServerEnabled = false).

Notation view := (local_view scope).

(** A page that has just loaded: nothing in memory, and in localStorage either no
    vault or one this code wrote. *)
Definition fresh_page (w : World) : Prop :=
  quiet w ∧ scope_of (auth_user w) (auth_tenant w) = scope
  ∧ forallb legacy_units (v_legacy (view (place w))) = true ∧ shut w
  ∧ (v_meta (view (place w)) = None ∨ ∃ s pw ks, stored_as s pw ks (view (place w))).

Lemma fresh_page_ready w : fresh_page w → ready scope local_mode view w ∧ ∃ a, R view a w.
Proof.
  intros (Hq & Hs & Hl & Hsh & Hv). split.
  - split; [done| |done]. split; [done|]. by apply community_mode.
  - destruct Hv as [Hn|(s & pw & ks & Hst)]; [by eexists; constructor|].
    eexists. by apply (R_some view w pw ks false s).
Qed.

(** C2: Whatever a user does in a session, in any order and whichever writes the
    browser's quota refuses: while the store does not show the vault as unlocked
    it holds neither keys nor a session key, and while it does, the blob in
    localStorage opens, under a key that a password accepted by the stored meta
    record derives, to exactly the keys in memory. *)
Theorem local_session_safe acts w : fresh_page w → Forall well_formed acts →
  let w' := foldl user_step w acts in
  (status (store w') ≠ unlocked → sessionKey w' = None ∧ keys (store w') = [])
  ∧ (status (store w') = unlocked → ∃ k pw m d,
       sessionKey w' = Some k
       ∧ parseVaultMeta (localStorage w' !! meta_key scope) = Some m ∧ check_password pw m = Ok k
       ∧ parseVaultData (localStorage w' !! data_key scope) = Some d
       ∧ open_keys k d = Some (keys (store w'))).
Proof.
  intros Hf Hwf w'. destruct (fresh_page_ready w Hf) as [Hr HR].
  pose proof (LocalVaultBackend_reliable scope community_edition) as RB.
  destruct (session_invariant scope local_mode view local_up acts w Hr HR Hwf) as [Hr' [a HR']].
  fold w' in Hr', HR'. destruct HR' as [u Hm (Hk & Hu & Hks)|u pw ks [|] s Hst Ho].
  - done.
  - destruct Ho as (Hk & Hu & Hks). split; [done|]. intros _.
    destruct (protected_stored s pw ks _ pw Hst eq_refl) as (m & Hm & Hc).
    pose proof (holds_stored s pw ks _ Hst) as Hh. destruct Hst as [_ _ _ _ (j & _ & _ & Hd)].
    unfold holds in Hh. rewrite Hd in Hh.
    exists (derived pw s), pw, m. eexists. split; [done|]. split; [exact Hm|]. split; [done|].
    split; [exact Hd|]. by rewrite Hks.
  - destruct Ho as (Hk & Hu & Hks). done.
Qed.

End LocalSession.
