(* ===== verification/VaultToy.v ===== *)
(** * Concrete collaborators

    One instance of each parameter of the vault model, simple enough to compute
    with, and the proof that it satisfies the stated laws: the hypotheses of the
    vault theorems can hold together, and the theorems can be run on examples. *)

From S2P Require Import Prelude JsString JsJson JsEncoding JsDate VaultTypes VaultTracker.
From S2P Require Import VaultWorld VaultCrypto VaultBackend VaultStore VaultLaws VaultStoreFacts VaultRefine.

(** ** Cryptography: a 16-byte tag that names the password *)

Definition toy_tag (k : list N) : list N :=
  take 16 ((N.of_nat (length k) mod 256)%N :: map (λ b, b mod 256)%N k ++ replicate 16 0%N).

#[global] Arguments toy_tag : simpl never.

Definition toy_crypto : WebCrypto := {|
  CryptoKey := list N;
  subtle_deriveKey p _ _ := p;
  subtle_encrypt k _ m := toy_tag k ++ m;
  subtle_decrypt k _ c := if bool_decide (take 16 c = toy_tag k) then Some (drop 16 c) else None;
|}.

Lemma toy_tag_length k : length (toy_tag k) = 16%nat.
Proof. unfold toy_tag. rewrite length_take, length_cons, length_app, length_map, length_replicate. lia. Qed.

Lemma toy_tag_bytes k : Forall is_byte (toy_tag k).
Proof.
  apply Forall_take, Forall_cons. split; [by apply N.mod_lt|]. apply Forall_app. split.
  - apply Forall_map, Forall_true. intros b. by apply N.mod_lt.
  - apply Forall_replicate. done.
Qed.

Lemma toy_crypto_laws : @WebCryptoLaws toy_crypto.
Proof.
  split; cbn [subtle_encrypt subtle_decrypt toy_crypto].
  - intros k _ p _ _. rewrite take_app_length', drop_app_length' by (by rewrite toy_tag_length).
    by rewrite bool_decide_eq_true_2.
  - intros k _ p Hp. apply Forall_app. split; [apply toy_tag_bytes|done].
  - intros k _ p. rewrite length_app, toy_tag_length. lia.
Qed.

Definition toy_considered (p : list N) : Prop := (length p <= 15)%nat ∧ Forall is_byte p.

Lemma map_mod_bytes p : Forall is_byte p → map (λ b, b mod 256)%N p = p.
Proof. induction 1 as [|b p Hb Hp IH]; [done|]. cbn. rewrite N.mod_small by exact Hb. by rewrite IH. Qed.

Lemma toy_tag_inj p q : toy_considered p → toy_considered q → toy_tag p = toy_tag q → p = q.
Proof.
  intros [Hp Hbp] [Hq Hbq]. unfold toy_tag. rewrite !map_mod_bytes by done.
  cbn [take]. intros E. injection E as El E.
  rewrite !N.mod_small in El by lia. apply Nat2N.inj in El.
  rewrite !take_app_ge in E by lia. by apply app_inj_1 in E as [E _].
Qed.

Lemma toy_ideal : @IdealCrypto toy_crypto.
Proof.
  refine {| considered := toy_considered |}.
  cbn [subtle_encrypt subtle_decrypt subtle_deriveKey toy_crypto]. intros p q _ _ _ _ m Hp Hq Hne.
  rewrite take_app_length' by (by rewrite toy_tag_length). rewrite bool_decide_eq_false_2; [done|].
  intros E. by apply Hne, toy_tag_inj.
Defined.

(** ** The browser: 2000 code units per item, no crypto.randomUUID *)

Definition toy_fits (s : gmap jsstring jsstring) (k v : jsstring) : bool :=
  (length v <=? 2000)%nat || match s !! k with Some x => (length v <=? length x)%nat | None => false end.

Definition toy_random (i n : nat) : list N :=
  let x := N.of_nat i in map (λ j, (x * 37 + x * x * x + x / 8 + N.of_nat j * 11) mod 256)%N (seq 0 n).

Definition toy_platform (e : Edition) : Platform := {|
  fits := toy_fits;
  getRandomValues := toy_random;
  native_randomUUID := None;
  edition := e;
|}.

Lemma toy_platform_laws e : @PlatformLaws (toy_platform e).
Proof.
  split; cbn.
  - intros i n. apply Forall_map, Forall_true. intros j. by apply N.mod_lt.
  - intros i n. unfold toy_random. by rewrite length_map, length_seq.
  - done.
Qed.

Lemma toy_quota_laws e : @QuotaLaws (toy_platform e).
Proof.
  split. cbn. intros s k v v' Hk Hl. unfold toy_fits. rewrite Hk. apply orb_true_iff. right.
  by apply Nat.leb_le.
Qed.

(** ** The server: it always answers *)

Definition toy_write (v : ServerVault) : res (Reply (option Z)) * option ServerVault := (saved v, Some v).

Definition toy_api : VaultApi := {|
  Srv := option ServerVault;
  getVault s := (match s with Some v => Ok (mkReply 200 false (Some (response_of v))) | None => not_found end, s);
  saveVaultMeta m s := toy_write (put_meta m (default empty_vault s));
  saveVaultSettings x s := toy_write (put_settings x (default empty_vault s));
  saveVaultData d n s :=
    match s with
    | Some v => if n =? sv_version v then toy_write (put_data d v) else (conflict, s)
    | None => (not_found, s)
    end;
  deleteVault s := (match s with Some _ => Ok (mkReply 200 false (Some tt)) | None => not_found end, None);
|}.

Lemma toy_api_laws : @VaultApiLaws toy_api.
Proof.
  refine {| held := (λ s, s) : @Srv toy_api → option ServerVault; online := λ _, True |}; cbn.
  - intros s. eexists _, _. split; [reflexivity|]. split; [done|]. split; [done|]. by left.
  - intros m s. eexists _, _. split; [reflexivity|]. split; [done|]. by left.
  - intros x s. eexists _, _. split; [reflexivity|]. split; [done|]. by left.
  - intros d n [v|]; [|eexists _, _; split; [reflexivity|]; split; [done|]; auto].
    destruct (Z.eqb_spec n (sv_version v)) as [->|Hn].
    + eexists _, _. split; [reflexivity|]. split; [done|]. rewrite bool_decide_eq_true_2 by done. by left.
    + eexists _, _. split; [reflexivity|]. split; [done|]. rewrite bool_decide_eq_false_2 by done. auto.
  - intros s. eexists _, _. split; [reflexivity|]. split; [done|]. left. split; [done|].
    destruct s; auto.
Defined.

(** ** Worlds *)

Definition toy_user : jsstring := js "alice".
Definition toy_tenant : jsstring := js "dev".
Definition toy_scope : option VaultScope := Some (mkScope toy_user toy_tenant).

Definition toy_world (sch : list (list (@interrupt toy_api))) : @World toy_crypto toy_api :=
  @mkWorld toy_crypto toy_api ∅ None ∅ None initial_state (initial 1700000000000)
    (Some toy_user) (Some toy_tenant) 0 sch.
