(* ===== verification/VaultRaces.v ===== *)
(** * What other tasks can do to the vault

    While an action of the store waits for the browser or the server, the user
    may lock the vault, the auto-lock may fire, and other sessions may write to
    the server.  This file proves what survives every such schedule; the
    schedules in which the code does not do what it means to are runs of
    [VaultExamples]. *)

From S2P Require Import Prelude JsString JsJson JsEncoding JsDate VaultTypes VaultTracker.
From S2P Require Import VaultWorld VaultCrypto VaultBackend VaultStore VaultLaws.

Section Preserve.
Context `{WC : WebCrypto} `{VA : VaultApi} `{PF : Platform}.

(** [m] keeps a property of the store, whatever the schedule and the outcome. *)
Definition pres (Q : VaultState → Prop) {A} (m : V A) : Prop := ∀ w, Q (store w) → Q (store (m w).2).

(** Other tasks keep it too. *)
Definition stable (Q : VaultState → Prop) : Prop := ∀ i, pres Q (interrupt_run i).

Section Rules.
Variable Q : VaultState → Prop.
Hypothesis HQ : stable Q.

Lemma pres_ret {A} (a : A) : pres Q (mret a).
Proof. by intros w. Qed.
Lemma pres_throw {A} e : pres Q (@throw World A e).
Proof. by intros w. Qed.
Lemma pres_gets {A} (f : World → A) : pres Q (gets f).
Proof. by intros w. Qed.
Lemma pres_bind {A B} (m : V A) (f : A → V B) : pres Q m → (∀ a, pres Q (f a)) → pres Q (m ≫= f).
Proof.
  intros Hm Hf w Hw. unfold mbind, M_bind. specialize (Hm w Hw). destruct (m w) as [[a|e] w']; [|done].
  by apply Hf.
Qed.
Lemma pres_fmap {A B} (f : A → B) (m : V A) : pres Q m → pres Q (f <$> m).
Proof. intros Hm w Hw. unfold fmap, M_fmap. specialize (Hm w Hw). by destruct (m w) as [[a|e] w']. Qed.
Lemma pres_try {A} (m : V A) h : pres Q m → (∀ e, pres Q (h e)) → pres Q (try_catch m h).
Proof.
  intros Hm Hh w Hw. unfold try_catch. specialize (Hm w Hw). destruct (m w) as [[a|e] w']; [done|].
  by apply Hh.
Qed.
Lemma pres_swallow (m : V unit) : pres Q m → pres Q (swallow m).
Proof. intros Hm. apply pres_try; [done|]. intros _. apply pres_ret. Qed.
Lemma pres_or_return {A B} (m : V (A + B)) k : pres Q m → (∀ b, pres Q (k b)) → pres Q (or_return m k).
Proof. intros Hm Hk. apply pres_bind; [done|]. intros [a|b]; [apply pres_ret|apply Hk]. Qed.

(** Effects outside the store. *)
Lemma pres_modify f : (∀ w, store (f w) = store w) → pres Q (modify f).
Proof. intros Hf w Hw. cbn. by rewrite Hf. Qed.
Lemma pres_put f : (∀ s, Q s → Q (f s)) → pres Q (put f).
Proof. intros Hf w Hw. by apply Hf. Qed.

Lemma pres_interrupts l : pres Q (interrupts_run l).
Proof. induction l as [|i l IH]; [apply pres_ret|]. apply pres_bind; [apply HQ|done]. Qed.
Lemma pres_pause : pres Q pause.
Proof. intros w Hw. unfold pause. destruct (sched w); [done|]. by apply pres_interrupts. Qed.
Lemma pres_request {A} (call : Srv → res A * Srv) : pres Q (request call).
Proof.
  apply pres_bind; [apply pres_pause|]. intros _. apply pres_bind.
  { intros w Hw. by destruct (call (srv w)). }
  intros r. apply pres_bind; [apply pres_pause|]. intros _. destruct r; [apply pres_ret|apply pres_throw].
Qed.
Lemma pres_random n : pres Q (random n).
Proof. by intros w. Qed.
Lemma pres_try_setItem k v : pres Q (try_setItem k v).
Proof. intros w Hw. unfold try_setItem. by destruct (fits _ _ _). Qed.
Lemma pres_lift {A} (r : res A) : pres Q (lift r).
Proof. destruct r; by intros w. Qed.

End Rules.
End Preserve.

Create HintDb pres.
#[export] Hint Resolve pres_ret pres_throw pres_gets pres_pause pres_request pres_random
  pres_try_setItem pres_lift pres_swallow pres_fmap : pres.

(** Walk a computation down to the effects that touch the store; [tac] deals with
    those. *)
Ltac walk_with tac :=
  repeat first
    [ progress intros
    | solve [auto 3 with pres]
    | tac tt
    | apply pres_or_return | apply pres_bind | apply pres_try
    | apply pres_modify; intros; reflexivity
    | match goal with |- pres _ (match ?x with _ => _ end) => destruct x end
    | match goal with |- pres _ ((match ?x with _ => _ end) _) => destruct x end ].

Ltac walk := walk_with ltac:(fun _ => fail).

Section Pieces.
Context `{WC : WebCrypto} `{VA : VaultApi} `{PF : Platform}.
Variable Q : VaultState → Prop.
Hypothesis HQ : stable Q.

Lemma pres_encrypt k p : pres Q (encrypt k p).
Proof. unfold encrypt. walk. Qed.
Lemma pres_decrypt k d : pres Q (decrypt k d).
Proof. unfold decrypt. walk. Qed.
Lemma pres_createVaultMeta pw : pres Q (createVaultMeta pw).
Proof. unfold createVaultMeta, deriveKey. walk. Qed.
Lemma pres_verifyPassword pw m : pres Q (verifyPassword pw m).
Proof. unfold verifyPassword, deriveKey. walk. Qed.
Lemma pres_uuid : pres Q generateRandomUUID.
Proof.
  unfold generateRandomUUID. destruct native_randomUUID; [by intros w|].
  generalize uuid_template as t. induction t; cbn [uuid_fill]; walk.
Qed.
Lemma pres_fetch key : pres Q (fetch key).
Proof. unfold fetch, track. walk. Qed.
Lemma pres_legacy : pres Q loadLegacyKeysFromStorage.
Proof. unfold loadLegacyKeysFromStorage, getItem. walk. Qed.

#[local] Hint Resolve pres_encrypt pres_decrypt pres_createVaultMeta pres_verifyPassword pres_uuid
  pres_fetch pres_legacy : pres.

(** No operation of a backend touches the store. *)
Record quietly (b : IVaultBackend) : Prop := {
  q_loadMeta : pres Q (loadMeta b);
  q_saveMeta m : pres Q (saveMeta b m);
  q_loadData : pres Q (loadData b);
  q_saveData d : pres Q (saveData b d);
  q_clear : pres Q (clear b);
  q_loadLegacyKeys : pres Q (loadLegacyKeys b);
  q_clearLegacyKeys : pres Q (clearLegacyKeys b);
  q_loadSettings : pres Q (loadSettings b);
  q_saveSettings x : pres Q (saveSettings b x);
}.

Lemma backend_quietly scope md : quietly (backend_of scope md).
Proof.
  destruct md; split; intros;
    cbn [backend_of loadMeta saveMeta loadData saveData clear loadLegacyKeys clearLegacyKeys
         loadSettings saveSettings LocalVaultBackend ServerVaultBackend];
    unfold server_saveData, server_clear, settle, safeSetItem, written, track, version,
      removeItem, clearLegacyKeysFromStorage, getItem; walk.
Qed.

Lemma getBackend_total w : ∃ scope md, getBackend w = (Ok (backend_of scope md), w).
Proof. eexists _, _. by apply getBackend_selected. Qed.

Lemma pres_getBackend {A} (f : IVaultBackend → V A) :
  (∀ b, quietly b → pres Q (f b)) → pres Q (getBackend ≫= f).
Proof.
  intros Hf w Hw. destruct (getBackend_total w) as (sc & md & E). rewrite (bind_ok _ _ _ _ _ E).
  apply Hf; [apply backend_quietly|done].
Qed.

Lemma pres_peek {A B} (g : VaultState → A) (f : A → V B) :
  (∀ s, Q s → pres Q (f (g s))) → pres Q (peek g ≫= f).
Proof. intros Hf w Hw. unfold mbind, M_bind. cbn. by eapply Hf. Qed.

Lemma pres_setVaultStorageMode m scope : pres Q (setVaultStorageMode m scope).
Proof. unfold setVaultStorageMode, setItem. walk. Qed.
Lemma pres_getScope : pres Q getScope.
Proof. by intros w. Qed.
Lemma pres_getVaultStorageMode scope : pres Q (getVaultStorageMode scope).
Proof. intros w Hw. by rewrite getVaultStorageMode_eq. Qed.
Lemma pres_on_tracker f : pres Q (on_tracker f).
Proof. by intros w. Qed.
Lemma pres_startTracker : pres Q startTracker.
Proof. by intros w. Qed.

Lemma pres_persistKeys_at ks b : quietly b → pres Q (persistKeys ks (Some b)).
Proof.
  intros [? ? ? ? ? ? ? ? ?]. unfold persistKeys. apply pres_bind; [apply pres_gets|].
  intros [k|]; [|apply pres_throw]. intros w. rewrite bind_ret. revert w.
  change (pres Q (data ← encrypt k (stringify (keys_json ks)); saveData b data)). walk.
Qed.

Lemma pres_persistKeys ks : pres Q (persistKeys ks None).
Proof.
  unfold persistKeys. apply pres_bind; [apply pres_gets|]. intros [k|]; [|apply pres_throw].
  apply pres_getBackend. intros b [? ? ? ? ? ? ? ? ?]. walk.
Qed.

(** The commit of a key action: the list is shown only if the vault is still
    unlocked. *)
Lemma pres_commit ks : (∀ s, Q s → status s = unlocked → Q (set_keys ks s)) → pres Q (commit_keys ks).
Proof.
  intros H. unfold commit_keys. intros w Hw. unfold mbind, M_bind, peek, gets.
  destruct (bool_decide_reflect (status (store w) ≠ unlocked)) as [Hs|Hs]; [done|].
  apply H; [done|]. by apply dec_stable.
Qed.

Lemma pres_legacyKeys_at now l : pres Q (migrateLegacyKeys_at now l).
Proof. induction l; cbn [migrateLegacyKeys_at]; walk. Qed.

End Pieces.

#[export] Hint Resolve pres_encrypt pres_decrypt pres_createVaultMeta pres_verifyPassword pres_uuid
  pres_fetch pres_legacy pres_setVaultStorageMode pres_getScope pres_getVaultStorageMode
  pres_on_tracker pres_startTracker pres_persistKeys pres_persistKeys_at pres_legacyKeys_at : pres.

(** ** Keys are only shown while unlocked *)

Section Hygiene.
Context `{WC : WebCrypto} `{VA : VaultApi} `{PF : Platform}.

(** No key is in memory unless the status is unlocked. *)
Definition hygienic (s : VaultState) : Prop := status s ≠ unlocked → keys s = [].

Lemma hygienic_stable : stable hygienic.
Proof.
  intros [| | | |] w Hw; try done; cbn [interrupt_run].
  unfold gets, mbind, M_bind. destruct (bool_decide _); [|done].
  unfold onIdle, peek, gets, mbind, M_bind. by destruct (bool_decide _).
Qed.

(** The store updates the actions make keep it. *)
Definition harmless (f : VaultState → VaultState) : Prop :=
  ∀ s, status (f s) = status s ∧ keys (f s) = keys s ∨ status (f s) = unlocked ∨ keys (f s) = [].

Lemma pres_harmless f : harmless f → pres hygienic (put f).
Proof.
  intros Hf. apply pres_put. intros s Hs. unfold hygienic in *.
  destruct (Hf s) as [[-> ->]|[->| ->]]; done.
Qed.

Lemma pres_fail_with msg : pres hygienic (fail_with msg).
Proof. apply pres_harmless. by left. Qed.

Lemma pres_put_unlocked f : (∀ s, status (f s) = unlocked) → pres hygienic (put f).
Proof. intros H. apply pres_harmless. intros s. by right; left. Qed.

#[local] Hint Resolve hygienic_stable pres_fail_with : pres.

#[local] Ltac puts := first
  [ apply pres_harmless; by left
  | apply pres_harmless; by right; left
  | apply pres_harmless; by right; right ].

#[local] Ltac actions := walk_with ltac:(fun _ => first
  [ apply pres_getBackend; [by apply hygienic_stable|intros ? Hb; pose proof Hb as [? ? ? ? ? ? ? ? ?]] | puts ]).

Lemma hygienic_loadSettings : pres hygienic loadSettingsIntoState.
Proof. unfold loadSettingsIntoState. apply pres_swallow. actions. Qed.

#[local] Hint Resolve hygienic_loadSettings : pres.

Lemma hygienic_commit ks : pres hygienic (commit_keys ks).
Proof. apply pres_commit. intros s Hs Hu Hn. by destruct Hn. Qed.

#[local] Hint Resolve hygienic_commit : pres.

Lemma hygienic_addKey e : pres hygienic (addKey e).
Proof. unfold addKey. actions. Qed.
Lemma hygienic_updateKey i u : pres hygienic (updateKey i u).
Proof. unfold updateKey. actions. Qed.
Lemma hygienic_removeKey i : pres hygienic (removeKey i).
Proof. unfold removeKey. actions. Qed.
Lemma hygienic_unlock pw : pres hygienic (unlock pw).
Proof. unfold unlock, json_parse. actions. Qed.
Lemma hygienic_initialize pw m : pres hygienic (initialize pw m).
Proof. unfold initialize, migrateLegacyKeys. actions. Qed.
Lemma hygienic_changeMasterPassword cur new : pres hygienic (changeMasterPassword cur new).
Proof. unfold changeMasterPassword, replace_key. actions. Qed.
Lemma hygienic_resetVault : pres hygienic resetVault.
Proof. unfold resetVault. actions. Qed.
Lemma hygienic_settings t h : pres hygienic (updateAutoLockSettings t h).
Proof. unfold updateAutoLockSettings. actions. Qed.

(** C5: Under every schedule of lock requests, auto-lock expirations, server
    changes and waits, and whatever the storage and the server answer, no action
    of the store other than [refreshStatus] leaves keys in memory while the
    status is not unlocked; in particular a key action whose save completes after
    the vault was locked does not bring the keys back. *)
Theorem keys_hidden_while_locked :
  (∀ e, pres hygienic (addKey e)) ∧ (∀ i u, pres hygienic (updateKey i u))
  ∧ (∀ i, pres hygienic (removeKey i)) ∧ (∀ pw, pres hygienic (unlock pw))
  ∧ (∀ pw m, pres hygienic (initialize pw m))
  ∧ (∀ cur new, pres hygienic (changeMasterPassword cur new))
  ∧ pres hygienic resetVault ∧ (∀ t h, pres hygienic (updateAutoLockSettings t h))
  ∧ pres hygienic lock ∧ pres hygienic onIdle ∧ pres hygienic clearError.
Proof.
  split_and!; auto using hygienic_addKey, hygienic_updateKey, hygienic_removeKey, hygienic_unlock,
    hygienic_initialize, hygienic_changeMasterPassword, hygienic_resetVault, hygienic_settings.
  - apply (hygienic_stable ILock).
  - intros w Hw. unfold onIdle, peek, gets, mbind, M_bind. by destruct (bool_decide _).
  - apply (hygienic_stable IClearError).
Qed.

End Hygiene.

(** ** Names and fingerprints stay unique *)

(** No two keys share an id, a name or a fingerprint. *)
Definition unique_keys (ks : list VaultKeyEntry) : Prop :=
  NoDup (map id ks) ∧ NoDup (map name ks) ∧ NoDup (map fingerprint ks).

#[export] Instance unique_keys_dec ks : Decision (unique_keys ks).
Proof. unfold unique_keys. apply _. Defined.

(** What [checkDuplicates] excludes. *)
Lemma checkDuplicates_none ks n f x : checkDuplicates ks n f x = None →
  (∀ k, k ∈ ks → Some (id k) ≠ x → n ≠ Some (name k) ∧ f ≠ Some (fingerprint k)).
Proof.
  unfold checkDuplicates. intros H k Hk Hx.
  assert (∀ (g : VaultKeyEntry → jsstring) v, existsb (λ k, other x k && bool_decide (g k = v)) ks = false →
    Some v ≠ Some (g k)) as Hno.
  { intros g v Hf [= ->]. rewrite existsb_false in Hf. specialize (Hf k Hk). unfold other in Hf.
    by rewrite !bool_decide_eq_true_2 in Hf. }
  destruct (match n with Some _ => _ | None => false end) eqn:E1,
    (match f with Some _ => _ | None => false end) eqn:E2; try done.
  split; [destruct n; [|done]|destruct f; [|done]]; by apply Hno.
Qed.

Lemma unique_add ks k : unique_keys ks → id k ∉ map id ks →
  checkDuplicates ks (Some (name k)) (Some (fingerprint k)) None = None → unique_keys (ks ++ [k]).
Proof.
  intros (Hi & Hn & Hf) Hk Hd. pose proof (checkDuplicates_none _ _ _ _ Hd) as H.
  unfold unique_keys. rewrite !map_app, !NoDup_app. cbn.
  repeat split; try done; try apply NoDup_singleton; intros x Hx Hy;
    apply list_elem_of_singleton in Hy; subst x; [done| |];
    apply list_elem_of_fmap in Hx as (y & E & Hy); destruct (H y Hy); congruence.
Qed.

Lemma unique_remove i ks : unique_keys ks → unique_keys (remove_keys i ks).
Proof.
  assert (∀ {A} (g : VaultKeyEntry → A), NoDup (map g ks) → NoDup (map g (remove_keys i ks))) as H.
  { intros A g. induction ks as [|k ks IH]; [done|]. cbn. rewrite NoDup_cons. intros [Hk Hn].
    destruct (negb _); [|auto]. cbn. apply NoDup_cons. split; [|auto]. intros Hx. apply Hk.
    apply list_elem_of_In, in_map_iff in Hx as (y & <- & Hy). apply filter_In in Hy as [Hy _].
    by apply list_elem_of_In, in_map. }
  intros (? & ? & ?). split_and!; auto.
Qed.

Lemma update_lookup i u now ks a (g : VaultKeyEntry → jsstring) x :
  map g (update_keys i u now ks) !! a = Some x →
  ∃ k, ks !! a = Some k ∧ x = g (if has_id i k then apply_updates u now k else k).
Proof.
  unfold update_keys. intros H. apply list_lookup_fmap_Some in H as (y & -> & H).
  apply list_lookup_fmap_Some in H as (k & -> & H). eauto.
Qed.

(** One field of an updated list: [v] is the new value, if any, of the key [i]. *)
Lemma unique_update_field i u now ks (g : VaultKeyEntry → jsstring) v :
  NoDup (map id ks) → NoDup (map g ks) → (∀ k, g (apply_updates u now k) = nullish v (g k)) →
  (∀ k, k ∈ ks → id k ≠ i → v ≠ Some (g k)) → NoDup (map g (update_keys i u now ks)).
Proof.
  intros Hi Hg Hv Hd. apply NoDup_alt. intros a b x Ha Hb.
  apply update_lookup in Ha as (k & Ha & ->). apply update_lookup in Hb as (k' & Hb & E).
  assert (g k = g k' → a = b) as Hsame.
  { intros Eg. rewrite NoDup_alt in Hg. apply (Hg a b (g k)).
    - apply list_lookup_fmap_Some. eauto.
    - rewrite Eg. apply list_lookup_fmap_Some. eauto. }
  unfold has_id in E. repeat case_bool_decide; auto.
  - rewrite NoDup_alt in Hi. apply (Hi a b i); apply list_lookup_fmap_Some; [by exists k|by exists k'].
  - rewrite Hv in E. destruct v as [n|]; [|auto]. exfalso. cbn in E. subst n.
    by eapply (Hd k'); eauto using list_elem_of_lookup_2.
  - rewrite Hv in E. destruct v as [n|]; [|auto]. exfalso. cbn in E. subst n.
    by eapply (Hd k); eauto using list_elem_of_lookup_2.
Qed.

Lemma unique_update i u now ks : unique_keys ks →
  checkDuplicates ks (up_name u) (up_fingerprint u) (Some i) = None → unique_keys (update_keys i u now ks).
Proof.
  intros (Hi & Hn & Hf) Hd. pose proof (checkDuplicates_none _ _ _ _ Hd) as H. split_and!.
  - assert (map id (update_keys i u now ks) = map id ks) as ->; [|done].
    unfold update_keys. rewrite map_map. apply map_ext. intros k. by destruct (has_id i k).
  - apply (unique_update_field i u now ks name (up_name u)); try done.
    intros k Hk Hne. apply (H k Hk). congruence.
  - apply (unique_update_field i u now ks fingerprint (up_fingerprint u)); try done.
    intros k Hk Hne. apply (H k Hk). congruence.
Qed.

Section Unique.
Context `{WC : WebCrypto} `{VA : VaultApi} `{PF : Platform}.

Definition unique_state (s : VaultState) : Prop := unique_keys (keys s).

Lemma unique_nil : unique_keys [].
Proof. split_and!; apply NoDup_nil_2. Qed.

Lemma unique_stable : stable unique_state.
Proof.
  intros [| | | |] w Hw; try done; cbn [interrupt_run]; try apply unique_nil.
  unfold gets, mbind, M_bind. destruct (bool_decide _); [|done].
  unfold onIdle, peek, gets, mbind, M_bind. destruct (bool_decide _); [done|]. apply unique_nil.
Qed.

Lemma unique_save ks : unique_keys ks → pres unique_state (persistKeys ks None;; commit_keys ks).
Proof.
  intros H. apply pres_bind; [apply pres_persistKeys, unique_stable|]. intros _.
  apply pres_commit. done.
Qed.

(** The id [addKey] draws is not in use. *)
Definition fresh_id (w : World) : Prop :=
  ∀ i w', generateRandomUUID w = (Ok i, w') → i ∉ map id (keys (store w)).

(** C23: Under every schedule, a vault whose keys have distinct ids, names and
    fingerprints keeps them distinct through [addKey] (when the drawn id is not in
    use), [updateKey] and [removeKey], whether they succeed or throw. *)
Theorem keys_stay_unique w : unique_keys (keys (store w)) →
  (∀ e, fresh_id w → unique_keys (keys (store (addKey e w).2)))
  ∧ (∀ i u, unique_keys (keys (store (updateKey i u w).2)))
  ∧ (∀ i, unique_keys (keys (store (removeKey i w).2))).
Proof.
  intros Hw. split_and!.
  - intros e Hf. unfold addKey, peek, gets, now. unfold mbind at 1, M_bind at 1.
    destruct (checkDuplicates _ _ _ _) eqn:Hd; [done|]. unfold gets. unfold mbind at 1, M_bind at 1.
    unfold mbind at 1, M_bind at 1.
    pose proof (pres_uuid unique_state w Hw) as Hu.
    destruct (generateRandomUUID w) as [[i|] w'] eqn:Ei; [|exact Hu].
    apply unique_save; [|exact Hu]. apply unique_add; [done|by eapply Hf|exact Hd].
  - intros i u. unfold updateKey, peek, gets, now. unfold mbind at 1, M_bind at 1.
    destruct (negb _); [done|]. destruct (checkDuplicates _ _ _ _) eqn:Hd; [done|].
    unfold gets. unfold mbind at 1, M_bind at 1. apply unique_save; [|done]. by apply unique_update.
  - intros i. unfold removeKey, peek, gets. unfold mbind at 1, M_bind at 1.
    destruct (negb _); [done|]. apply unique_save; [|done]. by apply unique_remove.
Qed.

End Unique.
