(* ===== verification/VaultMigrate.v ===== *)
(** * Moving the vault: properties of utils/vault-migrate.ts

    A migration copies the vault and then clears the origin.  Whatever request
    or write fails on the way, one of the two places still holds it. *)

From S2P Require Import Prelude JsString JsJson JsEncoding JsDate VaultTypes VaultTracker.
From S2P Require Import VaultWorld VaultCrypto VaultBackend VaultStore VaultLaws.

Section Migrate.
Context `{WC : WebCrypto} `{VA : VaultApi} `{PF : Platform} `{VAL : !VaultApiLaws}.
Variable scope : option VaultScope.

Notation local := (LocalVaultBackend scope).
Notation server := (ServerVaultBackend scope).
Notation lview := (local_view scope).
Notation sview := server_view.

(** What makes up a vault in one place. *)
Definition vault_of (v : View) : option VaultMeta * option VaultData * VaultSettings :=
  (v_meta v, v_data v, v_settings v).

(** ** The server operations leave localStorage alone *)

Definition storage_at (s : gmap jsstring jsstring) (w : World) : Prop := quiet w ∧ localStorage w = s.

Lemma keeps_request {A} s (call : Srv → res A * Srv) : keeps (storage_at s) (request call).
Proof. split. intros w [Hq Hs]. by rewrite request_quiet. Qed.
Lemma keeps_track s key v : keeps (storage_at s) (track key v).
Proof. split. intros w. by destruct v. Qed.
Hint Resolve keeps_request keeps_track : keeps.
Lemma keeps_fetch s key : keeps (storage_at s) (fetch key).
Proof. unfold fetch. keeping. Qed.
Lemma keeps_written s key e r : keeps (storage_at s) (written key e r).
Proof. unfold written. keeping. Qed.
Lemma keeps_version s key : keeps (storage_at s) (version key).
Proof. split. by intros w. Qed.
Hint Resolve keeps_fetch keeps_written keeps_version : keeps.

Lemma keeps_saveMeta s m : keeps (storage_at s) (saveMeta server m).
Proof. unfold server, ServerVaultBackend. cbn [saveMeta]. keeping. Qed.
Lemma keeps_saveData s d : keeps (storage_at s) (saveData server d).
Proof. unfold server, ServerVaultBackend, server_saveData. cbn [saveData]. keeping. Qed.
Lemma keeps_clear s : keeps (storage_at s) (clear server).
Proof.
  unfold server, ServerVaultBackend, server_clear. cbn [clear]. keeping. by apply keeps_modify.
Qed.
Lemma keeps_saveSettings s x : keeps (storage_at s) (saveSettings server x).
Proof. unfold server, ServerVaultBackend. cbn [saveSettings]. keeping. Qed.
Lemma keeps_loadMeta s : keeps (storage_at s) (loadMeta server).
Proof. unfold server, ServerVaultBackend. cbn [loadMeta]. keeping. Qed.
Lemma keeps_loadData s : keeps (storage_at s) (loadData server).
Proof. unfold server, ServerVaultBackend. cbn [loadData]. keeping. Qed.

(** ** One step of a migration *)

(** A server write seen from both sides: the local vault is untouched. *)
Definition server_step (m : V unit) (g : View → View) : Prop := ∀ w, quiet w →
  ∃ p, p_storage p = localStorage w
    ∧ (m w = (Ok tt, set_place p w) ∧ sview p = g (sview (place w))
       ∨ ∃ e, m w = (Throw e, set_place p w) ∧ sview p = sview (place w)).

Lemma storage_kept {A} (m : V A) r p w : (∀ s, keeps (storage_at s) m) → quiet w → m w = (r, set_place p w) →
  p_storage p = localStorage w.
Proof. intros Hk Hq E. destruct (keeps_run _ _ (Hk (localStorage w)) w (conj Hq eq_refl)) as [_ H]. by rewrite E in H. Qed.

Lemma step_of_writes m g : writes scope server_mode sview server_up m g → (∀ s, keeps (storage_at s) m) → server_step m g.
Proof.
  intros Hw Hk w Hq. destruct (Hw w Hq) as (p & _ & H). exists p. split; [|done].
  destruct H as [[E _]|[e [E _]]]; by eapply storage_kept.
Qed.

Lemma step_clear : server_step (clear server) without_vault.
Proof.
  intros w Hq. destruct (clear_law scope server_mode sview server_up w Hq) as (p & H). exists p. split; [|done].
  destruct H as [[E _]|[e [E _]]]; eapply (storage_kept _ _ _ w keeps_clear Hq E).
Qed.
Lemma step_saveMeta m : iterations_ok m → server_step (saveMeta server m) (with_meta m).
Proof.
  intros Hm. apply step_of_writes; [by apply (saveMeta_law scope server_mode sview server_up)|].
  intros s. apply keeps_saveMeta.
Qed.
Lemma step_saveData d : server_step (saveData server d) (with_data d).
Proof.
  apply step_of_writes; [apply (saveData_law scope server_mode sview server_up)|]. intros s. apply keeps_saveData.
Qed.
Lemma step_saveSettings x : server_step (saveSettings server x) (with_settings (stored_settings x)).
Proof.
  apply step_of_writes; [apply (saveSettings_law scope server_mode sview server_up)|]. intros s. apply keeps_saveSettings.
Qed.

(** The upload of a vault to an emptied server. *)
Definition upload (m : VaultMeta) (d : option VaultData) (x : VaultSettings) : V unit :=
  clear server;; saveMeta server m;;
  match d with Some d => saveData server d | None => mret tt end;;
  saveSettings server x.

(** The upload ends with the vault on the server, or throws. *)
Lemma upload_spec m d x w : quiet w → iterations_ok m → stored_settings x = x →
  ∃ p, p_storage p = localStorage w
    ∧ (upload m d x w = (Ok tt, set_place p w) ∧ vault_of (sview p) = (Some m, d, x)
       ∨ ∃ e, upload m d x w = (Throw e, set_place p w)).
Proof.
  intros Hq Hm Hx. unfold upload.
  destruct (step_clear w Hq) as (p1 & S1 & [[E1 V1]|[e [E1 _]]]).
  2: { exists p1. split; [done|]. right. exists e. by rewrite (bind_throw _ _ _ _ _ E1). }
  rewrite (bind_ok _ _ _ _ _ E1). set (w1 := set_place p1 w).
  destruct (step_saveMeta m Hm w1 Hq) as (p2 & S2 & [[E2 V2]|[e [E2 _]]]).
  2: { exists p2. split; [by rewrite S2|]. right. exists e. by rewrite (bind_throw _ _ _ _ _ E2). }
  rewrite (bind_ok _ _ _ _ _ E2). set (w2 := set_place p2 w1).
  assert (∃ p3, p_storage p3 = localStorage w
    ∧ (((match d with Some d => saveData server d | None => mret tt end) : V unit) w2 = (Ok tt, set_place p3 w2)
         ∧ v_meta (sview p3) = Some m ∧ v_data (sview p3) = d
       ∨ ∃ e, ((match d with Some d => saveData server d | None => mret tt end) : V unit) w2
                = (Throw e, set_place p3 w2))) as (p3 & S3 & H3).
  { change (place w1) with p1 in V2. destruct d as [d|].
    - destruct (step_saveData d w2 Hq) as (p3 & S3 & [[E3 V3]|[e [E3 _]]]); exists p3;
        (split; [by rewrite S3; cbn; rewrite S2|]); [left|right; by exists e].
      change (place w2) with p2 in V3. by rewrite V3, V2.
    - exists p2. split; [by rewrite S2|]. left. split; [done|]. by rewrite V2, V1. }
  destruct H3 as [(E3 & M3 & D3)|[e E3]].
  2: { exists p3. split; [done|]. right. exists e. by rewrite (bind_throw _ _ _ _ _ E3). }
  rewrite (bind_ok _ _ _ _ _ E3). set (w3 := set_place p3 w2).
  destruct (step_saveSettings x w3 Hq) as (p4 & S4 & [[E4 V4]|[e [E4 _]]]); exists p4;
    (split; [by rewrite S4; cbn; rewrite S3|]); [left|right; by exists e].
  split; [exact E4|]. change (place w3) with p3 in V4. unfold vault_of. rewrite V4.
  unfold with_settings. cbn [v_meta v_data v_settings]. by rewrite M3, D3, Hx.
Qed.

(** ** Local to server *)

(** Recording the choice succeeds or does not fit. *)
Lemma setVaultStorageMode_cases m w :
  setVaultStorageMode m scope w = (Ok tt, set_place (put_storage (modeKey scope) (mode_string m) (place w)) w)
  ∨ setVaultStorageMode m scope w = (Throw quota_exception, w).
Proof.
  unfold setVaultStorageMode, setItem, try_setItem, mbind, M_bind. destruct (fits _ _ _); auto.
Qed.

Lemma local_settings_stored p : stored_settings (v_settings (lview p)) = v_settings (lview p).
Proof. apply parseVaultSettings_stringify, (view_settings_ok scope local_mode lview local_up). Qed.

Lemma migrateLocalToServer_eq m w : v_meta (lview (place w)) = Some m →
  migrateLocalToServer scope w =
  (upload m (v_data (lview (place w))) (v_settings (lview (place w)));;
   clear local;; setVaultStorageMode server_mode scope) w.
Proof.
  intros Hm. unfold migrateLocalToServer.
  rewrite (bind_ok _ _ w (v_meta (lview (place w))) w) by reflexivity. rewrite Hm.
  rewrite (bind_ok _ _ w (v_data (lview (place w))) w) by reflexivity.
  rewrite (bind_ok _ _ w (v_settings (lview (place w))) w) by reflexivity.
  unfold upload, mbind, M_bind. destruct (clear server w) as [[] w1]; [|reflexivity].
  destruct (saveMeta server m w1) as [[] w2]; [|reflexivity].
  destruct ((match v_data (lview (place w)) with Some d => saveData server d | None => mret tt end) w2)
    as [[] w3]; reflexivity.
Qed.

(** The mode key is none of the vault's keys. *)
Lemma lview_mode k p : lview (put_storage (modeKey scope) k p) = lview p.
Proof.
  destruct (keys_ne _ _ _ _ _ (local_keys_distinct scope)) as ((? & ? & ? & ?) & (? & ? & ?) & (? & ?) & ?).
  unfold local_view, view_at, put_storage. cbn [p_storage].
  rewrite !lookup_insert_ne by congruence. reflexivity.
Qed.

Lemma local_clear_eq w : ∃ p, clear local w = (Ok tt, set_place p w) ∧ p_srv p = srv w
  ∧ lview p = without_vault (lview (place w)).
Proof.
  exists (mkPlace (delete (settings_key scope) (delete (data_key scope)
      (delete (meta_key scope) (localStorage w)))) (srv w) (versionRegistry w)).
  split; [reflexivity|]. split; [reflexivity|]. eapply view_clear, local_keys_distinct.
Qed.

(** The view of each place only depends on its own part. *)
Lemma lview_storage p q : p_storage p = p_storage q → lview p = lview q.
Proof. intros E. unfold local_view, view_at. by rewrite E. Qed.
Lemma vault_of_srv p q : p_srv p = p_srv q → vault_of (sview p) = vault_of (sview q).
Proof. intros E. unfold vault_of, server_view. by rewrite E. Qed.

Lemma migrate_to_server_outcome m w : quiet w → v_meta (lview (place w)) = Some m →
  ∃ r p, migrateLocalToServer scope w = (r, set_place p w) ∧
  match r with
  | Ok _ => vault_of (sview p) = vault_of (lview (place w))
            ∧ v_meta (lview p) = None ∧ v_data (lview p) = None ∧ p_storage p !! modeKey scope = Some (js "server")
  | Throw _ => lview p = lview (place w) ∨ vault_of (sview p) = vault_of (lview (place w))
  end.
Proof.
  intros Hq Hm. rewrite (migrateLocalToServer_eq m w Hm).
  pose proof (view_meta_ok scope local_mode lview local_up _ _ Hm) as Hi.
  destruct (upload_spec m (v_data (lview (place w))) (v_settings (lview (place w))) w Hq Hi (local_settings_stored _))
    as (p & Hs & [[E Hv]|[e E]]).
  2: { rewrite (bind_throw _ _ _ _ _ E). eexists _, p. split; [done|]. left. by apply lview_storage. }
  rewrite (bind_ok _ _ _ _ _ E).
  destruct (local_clear_eq (set_place p w)) as (p1 & E1 & Hsrv & Hl). rewrite (bind_ok _ _ _ _ _ E1).
  assert (vault_of (sview p1) = vault_of (lview (place w))) as Hcopy.
  { rewrite (vault_of_srv p1 p Hsrv), Hv. unfold vault_of. by rewrite Hm. }
  destruct (setVaultStorageMode_cases server_mode (set_place p1 (set_place p w))) as [->| ->].
  - set (q := put_storage (modeKey scope) (mode_string server_mode) p1).
    assert (lview q = without_vault (lview (place w))) as Hq'.
    { unfold q. rewrite lview_mode, Hl. f_equal. by apply lview_storage. }
    exists (Ok tt), q. split; [done|].
    split; [exact Hcopy|]. split; [exact (f_equal v_meta Hq')|]. split; [exact (f_equal v_data Hq')|].
    apply lookup_insert_eq.
  - eexists _, p1. split; [done|]. right. exact Hcopy.
Qed.

(** C11: Moving a local vault to the server succeeds with the same meta record,
    data and settings on the server, no vault left in the browser and the server
    mode recorded; when it throws, the vault is still complete in the browser, or
    (only if recording the mode does not fit) already complete on the server. *)
Theorem migrate_to_server_safe m w : quiet w → v_meta (lview (place w)) = Some m →
  let '(r, w') := migrateLocalToServer scope w in
  match r with
  | Ok _ => vault_of (sview (place w')) = vault_of (lview (place w))
            ∧ v_meta (lview (place w')) = None ∧ v_data (lview (place w')) = None
            ∧ localStorage w' !! modeKey scope = Some (js "server")
  | Throw _ => lview (place w') = lview (place w)
               ∨ vault_of (sview (place w')) = vault_of (lview (place w))
  end.
Proof. intros Hq Hm. by destruct (migrate_to_server_outcome m w Hq Hm) as (r & p & -> & H). Qed.

(** ** Server to local *)

(** A local write seen from both sides. *)
Definition local_step (m : V unit) (g : View → View) : Prop := ∀ w,
  ∃ p, p_srv p = srv w
    ∧ (m w = (Ok tt, set_place p w) ∧ lview p = g (lview (place w)) ∨ ∃ e, m w = (Throw e, set_place p w)).

Lemma step_item k v g : (∀ p, lview (put_storage k v p) = g (lview p)) → local_step (settle (safeSetItem k v)) g.
Proof.
  intros Hg w. rewrite safeSetItem_eq. destruct (fits _ _ _).
  - exists (put_storage k v (place w)). split; [done|]. left. split; [done|]. apply Hg.
  - exists (place w). split; [done|]. right. eexists. by rewrite set_place_id.
Qed.

(** The copy into localStorage. *)
Definition download (m : VaultMeta) (d : option VaultData) (x : VaultSettings) : V unit :=
  saveMeta local m;; match d with Some d => saveData local d | None => mret tt end;; saveSettings local x.

(** What the browser holds once the copy is complete; without data on the server,
    the local data is not touched. *)
Definition holds_copy (v : View) (m : VaultMeta) (d : option VaultData) : Prop :=
  v_meta v = Some m ∧ (∀ d', d = Some d' → v_data v = Some d').

Lemma download_spec m d x w : iterations_ok m →
  ∃ p, p_srv p = srv w
    ∧ (download m d x w = (Ok tt, set_place p w) ∧ holds_copy (lview p) m d
       ∨ ∃ e, download m d x w = (Throw e, set_place p w)).
Proof.
  intros Hi. unfold download.
  assert (local_step (saveMeta local m) (with_meta m)) as S1
    by (apply step_item; intros q; by eapply view_put_meta; [apply local_keys_distinct|]).
  destruct (S1 w) as (p1 & R1 & [[E1 V1]|[e E1]]).
  2: { exists p1. split; [done|]. right. exists e. by rewrite (bind_throw _ _ _ _ _ E1). }
  rewrite (bind_ok _ _ _ _ _ E1). set (w1 := set_place p1 w).
  assert (∃ p2, p_srv p2 = srv w
    ∧ (((match d with Some d => saveData local d | None => mret tt end) : V unit) w1 = (Ok tt, set_place p2 w1)
         ∧ holds_copy (lview p2) m d
       ∨ ∃ e, ((match d with Some d => saveData local d | None => mret tt end) : V unit) w1
                = (Throw e, set_place p2 w1))) as (p2 & R2 & H2).
  { destruct d as [d|]; [|exists p1; split; [done|]; left; split; [done|]; split; [by rewrite V1|done]].
    assert (local_step (saveData local d) (with_data d)) as S2
      by (apply step_item; intros q; eapply view_put_data, local_keys_distinct).
    destruct (S2 w1) as (p2 & R2 & [[E2 V2]|[e E2]]); exists p2; (split; [by rewrite R2|]); [left|right; by exists e].
    split; [done|]. change (place w1) with p1 in V2. split; rewrite V2; [by rewrite V1|]. by intros d' [= <-]. }
  destruct H2 as [[E2 V2]|[e E2]].
  2: { exists p2. split; [done|]. right. exists e. by rewrite (bind_throw _ _ _ _ _ E2). }
  rewrite (bind_ok _ _ _ _ _ E2). set (w2 := set_place p2 w1).
  assert (local_step (saveSettings local x) (with_settings (stored_settings x))) as S3
    by (apply step_item; intros q; eapply view_put_settings, local_keys_distinct).
  destruct (S3 w2) as (p3 & R3 & [[E3 V3]|[e E3]]); exists p3; (split; [by rewrite R3|]); [left|right; by exists e].
  split; [exact E3|]. change (place w2) with p2 in V3. unfold holds_copy. rewrite V3. exact V2.
Qed.

(** Reading the server: the vault as it is held, or an exception, and nothing
    changes in either place. *)
Lemma read_server {A} (m : V A) f w : reads scope server_mode sview server_up m f → (∀ s, keeps (storage_at s) m) → quiet w →
  ∃ p, p_storage p = localStorage w ∧ sview p = sview (place w)
    ∧ (m w = (Ok (f (sview (place w))), set_place p w) ∨ ∃ e, m w = (Throw e, set_place p w)).
Proof.
  intros Hr Hk Hq. destruct (Hr w Hq) as (p & _ & Hv & H). exists p.
  assert (p_storage p = localStorage w) as Hs
    by (destruct H as [E|[_ [e E]]]; by eapply storage_kept).
  split; [done|]. split; [done|]. rewrite <-Hv. destruct H as [E|[_ [e E]]]; eauto.
Qed.

(** After the reads: copy, clear the server, record the choice. *)
Lemma finish_local m d x w : quiet w → iterations_ok m →
  ∃ r p, (download m d x;; clear server;; setVaultStorageMode local_mode scope) w = (r, set_place p w) ∧
  match r with
  | Ok _ => holds_copy (lview p) m d ∧ v_meta (sview p) = None ∧ p_storage p !! modeKey scope = Some (js "local")
  | Throw _ => vault_of (sview p) = vault_of (sview (place w)) ∨ holds_copy (lview p) m d
  end.
Proof.
  intros Hq Hi. destruct (download_spec m d x w Hi) as (p & Hr & [[E Hc]|[e E]]).
  2: { rewrite (bind_throw _ _ _ _ _ E). eexists _, p. split; [done|]. left. by apply vault_of_srv. }
  rewrite (bind_ok _ _ _ _ _ E). set (w1 := set_place p w).
  destruct (step_clear w1 Hq) as (p2 & Hs2 & [[E2 V2]|[e [E2 V2]]]).
  2: { rewrite (bind_throw _ _ _ _ _ E2). eexists _, p2. split; [done|]. left.
       etrans; [exact (f_equal vault_of V2)|]. by apply vault_of_srv. }
  rewrite (bind_ok _ _ _ _ _ E2). set (w2 := set_place p2 w1).
  assert (holds_copy (lview p2) m d) as Hc2 by (by rewrite (lview_storage p2 p Hs2)).
  destruct (setVaultStorageMode_cases local_mode w2) as [->| ->]; [|eexists _, p2; split; [done|by right]].
  eexists _, (put_storage (modeKey scope) (mode_string local_mode) p2). split; [done|].
  split; [exact (eq_rect_r (λ v, holds_copy v m d) Hc2 (lview_mode (mode_string local_mode) p2))|].
  split; [exact (f_equal v_meta V2)|]. apply lookup_insert_eq.
Qed.

Lemma migrateServerToLocal_eq w : migrateServerToLocal scope w =
  (meta ← loadMeta server;
   match meta with
   | None => throw (Error (js "No synced vault to migrate."))
   | Some m => d ← loadData server; x ← loadSettings server;
               (download m d x;; clear server;; setVaultStorageMode local_mode scope)
   end) w.
Proof.
  unfold migrateServerToLocal, download, mbind, M_bind.
  destruct (loadMeta server w) as [[[m|]|] w1]; try reflexivity.
  destruct (loadData server w1) as [[d|] w2]; [|reflexivity].
  destruct (loadSettings server w2) as [[x|] w3]; [|reflexivity].
  destruct (saveMeta local m w3) as [[] w4]; [|reflexivity].
  destruct ((match d with Some d => saveData local d | None => mret tt end) w4) as [[] w5]; reflexivity.
Qed.

Lemma migrate_to_local_outcome w : quiet w → let v := sview (place w) in
  ∃ r p, migrateServerToLocal scope w = (r, set_place p w) ∧
  match r with
  | Ok _ => ∃ m, v_meta v = Some m ∧ holds_copy (lview p) m (v_data v)
                 ∧ v_meta (sview p) = None ∧ p_storage p !! modeKey scope = Some (js "local")
  | Throw _ => vault_of (sview p) = vault_of v ∨ ∃ m, v_meta v = Some m ∧ holds_copy (lview p) m (v_data v)
  end.
Proof.
  intros Hq v. rewrite migrateServerToLocal_eq.
  destruct (read_server _ _ w (loadMeta_law scope server_mode sview server_up) keeps_loadMeta Hq)
    as (p1 & S1 & V1 & [E1|[e E1]]).
  2: { rewrite (bind_throw _ _ _ _ _ E1). eexists _, p1. split; [done|]. left. exact (f_equal vault_of V1). }
  rewrite (bind_ok _ _ _ _ _ E1). fold v. set (w1 := set_place p1 w).
  destruct (v_meta v) as [m|] eqn:Em; [|eexists _, p1; split; [done|left; exact (f_equal vault_of V1)]].
  destruct (read_server _ _ w1 (loadData_law scope server_mode sview server_up) keeps_loadData Hq)
    as (p2 & S2 & V2 & [E2|[e E2]]); change (place w1) with p1 in *; rewrite V1 in *.
  2: { rewrite (bind_throw _ _ _ _ _ E2). eexists _, p2. split; [done|]. left. exact (f_equal vault_of V2). }
  rewrite (bind_ok _ _ _ _ _ E2). fold v. set (w2 := set_place p2 w1).
  destruct (loadSettings_law scope server_mode sview server_up w2 Hq) as (p3 & x & _ & V3 & E3 & _).
  change (backend_of scope server_mode) with server in E3.
  rewrite (bind_ok _ _ _ _ _ E3). change (place w2) with p2 in *.
  pose proof (view_meta_ok scope server_mode sview server_up (place w) m Em) as Hi.
  destruct (finish_local m (v_data v) x (set_place p3 w2) Hq Hi) as (r & p & -> & Hf). exists r, p. split; [done|].
  destruct r as [u|e].
  - destruct Hf as (H1 & H2 & H3). by exists m.
  - destruct Hf as [H|H]; [left|right; by exists m].
    etrans; [exact H|]. change (place (set_place p3 w2)) with p3. by rewrite V3, V2.
Qed.

(** Moving the server vault into the browser succeeds with its meta record
    and data stored locally, no vault left on the server and the local mode
    recorded; when it throws, the server still holds the vault, or the browser
    already does. *)
Theorem migrate_to_local_safe w : quiet w →
  let v := sview (place w) in
  let '(r, w') := migrateServerToLocal scope w in
  match r with
  | Ok _ => ∃ m, v_meta v = Some m ∧ holds_copy (lview (place w')) m (v_data v)
                 ∧ v_meta (sview (place w')) = None ∧ localStorage w' !! modeKey scope = Some (js "local")
  | Throw _ => vault_of (sview (place w')) = vault_of v
               ∨ ∃ m, v_meta v = Some m ∧ holds_copy (lview (place w')) m (v_data v)
  end.
Proof. intros Hq v. by destruct (migrate_to_local_outcome w Hq) as (r & p & -> & H). Qed.

(** Adopting the server's vault drops the browser's and leaves the server alone. *)
Lemma adopt_outcome w : ∃ r p, adoptServerVault scope w = (r, set_place p w) ∧
  vault_of (sview p) = vault_of (sview (place w)) ∧ v_meta (lview p) = None ∧ v_data (lview p) = None ∧
  match r with Ok _ => p_storage p !! modeKey scope = Some (js "server") | Throw _ => True end.
Proof.
  unfold adoptServerVault. destruct (local_clear_eq w) as (p & E & Hs & Hl). rewrite (bind_ok _ _ _ _ _ E).
  assert (vault_of (sview p) = vault_of (sview (place w))) as Hv by by apply vault_of_srv.
  destruct (setVaultStorageMode_cases server_mode (set_place p w)) as [->| ->].
  - eexists _, (put_storage (modeKey scope) (mode_string server_mode) p). split; [done|]. split; [exact Hv|].
    rewrite lview_mode, Hl. split; [done|]. split; [done|]. apply lookup_insert_eq.
  - eexists _, p. split; [done|]. split; [done|]. by rewrite Hl.
Qed.

End Migrate.
