(* ===== verification/VaultScopes.v ===== *)
(** * Whose vault it is

    Properties of how the backends key their storage: by user and tenant in
    localStorage, by version on the server, and of the choice between the two. *)

From S2P Require Import Prelude JsString JsJson JsEncoding JsDate VaultTypes VaultTracker.
From S2P Require Import VaultWorld VaultCrypto VaultBackend VaultStore VaultLaws.

(** ** Scopes are isolated *)

(** User names do not contain the separator. *)
Definition no_colon (s : jsstring) : Prop := Forall (λ c, c ≠ 58%N) s.

Lemma colon_split a b c d : no_colon a → no_colon c → a ++ 58%N :: b = c ++ 58%N :: d → a = c ∧ b = d.
Proof.
  intros Ha. revert c. induction Ha as [|x a Hx Ha IH]; intros [|y c] Hc E; cbn in E.
  - by simplify_eq.
  - inversion Hc. simplify_eq.
  - simplify_eq.
  - inversion Hc. injection E as -> E. destruct (IH c) as [-> ->]; done.
Qed.

Lemma scope_prefix_inj u t u' t' : no_colon u → no_colon u' →
  scope_prefix (Some (mkScope u t)) = scope_prefix (Some (mkScope u' t')) → u = u' ∧ t = t'.
Proof. intros Hu Hu' E. cbn in E. injection E as E. by apply colon_split. Qed.

(** The storage keys of two different scopes are different. *)
Lemma storage_keys_differ u t u' t' base base' :
  base ∈ [VAULT_META_KEY; VAULT_DATA_KEY; VAULT_SETTINGS_KEY] →
  base' ∈ [VAULT_META_KEY; VAULT_DATA_KEY; VAULT_SETTINGS_KEY] →
  no_colon u → no_colon u' → (u, t) ≠ (u', t') →
  prefixKey base (scope_prefix (Some (mkScope u t))) ≠ prefixKey base' (scope_prefix (Some (mkScope u' t'))).
Proof.
  intros Hb Hb' Hu Hu' Hne E.
  assert (∀ b v s, prefixKey b (scope_prefix (Some (mkScope v s))) = b ++ js ":" ++ v ++ js ":" ++ s) as Hp.
  { intros b v s. unfold prefixKey. cbn [scope_prefix fmap option_fmap option_map scope_user scope_tenant].
    by destruct v. }
  rewrite !Hp in E.
  assert (base = base' → False) as Hbb.
  { intros ->. apply app_inv_head in E. injection E as E. apply colon_split in E as [-> ->]; done. }
  rewrite !elem_of_cons, elem_of_nil in Hb, Hb'.
  destruct_or? Hb; destruct_or? Hb'; subst; first [discriminate E | exact (Hbb eq_refl)].
Qed.

#[local] Opaque prefixKey scope_prefix VAULT_META_KEY VAULT_DATA_KEY VAULT_SETTINGS_KEY.

Section Scopes.
Context `{WC : WebCrypto} `{VA : VaultApi} `{PF : Platform}.

(** What localStorage holds for one scope. *)
Definition vault_items (sc : option VaultScope) (s : gmap jsstring jsstring) : list (option jsstring) :=
  [s !! meta_key sc; s !! data_key sc; s !! settings_key sc].

Lemma items_insert sc k v s : k ≠ meta_key sc → k ≠ data_key sc → k ≠ settings_key sc →
  vault_items sc (<[k := v]> s) = vault_items sc s.
Proof. intros H1 H2 H3. unfold vault_items. by rewrite !lookup_insert_ne by congruence. Qed.

Lemma items_delete sc k s : k ≠ meta_key sc → k ≠ data_key sc → k ≠ settings_key sc →
  vault_items sc (delete k s) = vault_items sc s.
Proof. intros H1 H2 H3. unfold vault_items. by rewrite !lookup_delete_ne by congruence. Qed.

Lemma items_safeSetItem sc k v w : k ≠ meta_key sc → k ≠ data_key sc → k ≠ settings_key sc →
  vault_items sc (localStorage (settle (safeSetItem k v) w).2) = vault_items sc (localStorage w).
Proof.
  intros H1 H2 H3. rewrite safeSetItem_eq. destruct (fits _ _ _); [|reflexivity]. exact (items_insert sc k v (localStorage w) H1 H2 H3).
Qed.

(** Vaults of different users or namespaces in the same browser do not
    interfere: no write or clear through the local backend of one scope changes
    any stored item of another, as long as user names contain no colon. *)
Theorem local_scopes_isolated u t u' t' w : no_colon u → no_colon u' → (u, t) ≠ (u', t') →
  let b := LocalVaultBackend (Some (mkScope u t)) in
  let items x := vault_items (Some (mkScope u' t')) (localStorage x) in
  (∀ m, items (saveMeta b m w).2 = items w) ∧ (∀ d, items (saveData b d w).2 = items w)
  ∧ (∀ x, items (saveSettings b x w).2 = items w) ∧ items (clear b w).2 = items w.
Proof.
  intros Hu Hu' Hne b items.
  assert (∀ base base', base ∈ [VAULT_META_KEY; VAULT_DATA_KEY; VAULT_SETTINGS_KEY] →
    base' ∈ [VAULT_META_KEY; VAULT_DATA_KEY; VAULT_SETTINGS_KEY] →
    prefixKey base (scope_prefix (Some (mkScope u t))) ≠ prefixKey base' (scope_prefix (Some (mkScope u' t')))) as K.
  { intros. by apply storage_keys_differ. }
  assert (VAULT_META_KEY ∈ [VAULT_META_KEY; VAULT_DATA_KEY; VAULT_SETTINGS_KEY]) as B1 by (left).
  assert (VAULT_DATA_KEY ∈ [VAULT_META_KEY; VAULT_DATA_KEY; VAULT_SETTINGS_KEY]) as B2 by (right; left).
  assert (VAULT_SETTINGS_KEY ∈ [VAULT_META_KEY; VAULT_DATA_KEY; VAULT_SETTINGS_KEY]) as B3 by (right; right; left).
  split_and!; intros; unfold items.
  - exact (items_safeSetItem _ _ _ w (K _ _ B1 B1) (K _ _ B1 B2) (K _ _ B1 B3)).
  - exact (items_safeSetItem _ _ _ w (K _ _ B2 B1) (K _ _ B2 B2) (K _ _ B2 B3)).
  - exact (items_safeSetItem _ _ _ w (K _ _ B3 B1) (K _ _ B3 B2) (K _ _ B3 B3)).
  - cbn [clear LocalVaultBackend b]. unfold removeItem, modify, mbind, M_bind, mret, M_ret. cbn [snd].
    unfold set_localStorage. cbn [localStorage].
    rewrite (items_delete _ _ _ (K _ _ B3 B1) (K _ _ B3 B2) (K _ _ B3 B3)).
    rewrite (items_delete _ _ _ (K _ _ B2 B1) (K _ _ B2 B2) (K _ _ B2 B3)).
    exact (items_delete _ _ _ (K _ _ B1 B1) (K _ _ B1 B2) (K _ _ B1 B3)).
Qed.

End Scopes.

(** ** Versions *)

Section Versions.
Context `{WC : WebCrypto} `{VA : VaultApi} `{PF : Platform} `{VAL : !VaultApiLaws}.

(** A write of vault data is never blind.  When [saveData] of the server
    backend succeeds, the version this session last saw was the server's current
    one and only the data has changed (with the version advanced by one); when it
    throws, the vault on the server is unchanged.  localStorage is not involved. *)
Theorem server_save_checks_version scope d w : quiet w →
  let '(r, w') := saveData (ServerVaultBackend scope) d w in
  match r with
  | Ok _ => ∃ v, held (srv w) = Some v ∧ nullish (versionRegistry w !! scopeKey scope) 0 = sv_version v
                 ∧ held (srv w') = Some (put_data (stringify (data_json d)) v)
  | Throw _ => held (srv w') = held (srv w)
  end ∧ localStorage w' = localStorage w.
Proof.
  intros Hq. destruct (server_saveData_spec (scopeKey scope) d w Hq) as (s & r & _ & [[E H]|[e [E H]]]);
    cbn [saveData ServerVaultBackend]; rewrite E; by split.
Qed.

(** After a successful read or write the next write is based on what was seen:
    [fetch] leaves the server's version in the registry. *)
Lemma fetch_tracks_version key w : quiet w → online (srv w) →
  ∃ w', fetch key w = (Ok (response_of <$> held (srv w)), w')
    ∧ ∀ v, held (srv w) = Some v → versionRegistry w' !! key = Some (sv_version v).
Proof.
  intros Hq Ho. destruct (fetch_spec key w Hq) as (s & r & _ & _ & [[E H]|[Hn _]]); [|done].
  eexists. split; [exact E|exact H].
Qed.

End Versions.
