(* ===== verification/VaultExamples.v ===== *)
(** * Vault runs

    Concrete sessions of the vault on the collaborators of [VaultToy]: instances
    of the theorems, and the schedules in which the store does not do what its
    comments say. *)

From S2P Require Import Prelude JsString JsJson JsEncoding JsDate VaultTypes VaultTracker.
From S2P Require Import VaultWorld VaultCrypto VaultBackend VaultStore VaultLaws VaultStoreFacts VaultRefine.
From S2P Require Import VaultRaces VaultToy VaultMigrate VaultScopes.

#[local] Existing Instance toy_crypto.
#[local] Existing Instance toy_api.
#[local] Existing Instance toy_crypto_laws.
#[local] Existing Instance toy_ideal.
#[local] Existing Instance toy_api_laws.

Definition laptop : KeyInput := mkInput (js "laptop") (js "KEY-A") false (js "aa:bb") None.
Definition server_key : KeyInput := mkInput (js "server") (js "KEY-B") true (js "cc:dd") (Some (js "ed25519")).

(** ** The Community Edition: one browser *)

Section Local.
#[local] Instance local_platform : Platform := toy_platform community.
#[local] Instance local_platform_laws : PlatformLaws := toy_platform_laws community.
#[local] Instance local_quota_laws : QuotaLaws := toy_quota_laws community.

Lemma toy_community : isVaultServerEnabled = false.
Proof. vm_compute. reflexivity. Qed.

(** Create, add two keys (one twice), change the password, lock, mistype, unlock. *)
Definition sample_session : list action :=
  [AInitialize (js "hunter2"); AAdd laptop; AAdd laptop; AAdd server_key;
   AChangePassword (js "hunter2") (js "s3cret"); ALock; AUnlock (js "hunter2"); AUnlock (js "s3cret")].

Lemma toy_fresh : fresh_page toy_scope (toy_world []).
Proof.
  split; [reflexivity|]. split; [reflexivity|]. split; [vm_compute; reflexivity|].
  split; [split; [reflexivity|split; [discriminate|reflexivity]]|]. left. vm_compute. reflexivity.
Qed.

Lemma toy_password p : (length (utf8_encode p) <=? 15)%nat && forallb (λ c, c <? 256)%N (utf8_encode p) = true →
  considered (utf8_encode p).
Proof. intros [H1 H2]%andb_prop. split; [by apply Nat.leb_le|by apply Forall_ltb]. Qed.

Lemma sample_well_formed : Forall well_formed sample_session.
Proof. repeat constructor. Qed.

Lemma local_session_safe_witness :
  let w' := foldl user_step (toy_world []) sample_session in
  map name (keys (store w')) = [js "laptop"; js "server"] ∧ status (store w') = unlocked
  ∧ ∃ k pw m d, sessionKey w' = Some k
       ∧ parseVaultMeta (localStorage w' !! meta_key toy_scope) = Some m ∧ check_password pw m = Ok k
       ∧ parseVaultData (localStorage w' !! data_key toy_scope) = Some d
       ∧ open_keys k d = Some (keys (store w')).
Proof.
  intros w'. split; [vm_compute; reflexivity|].
  assert (status (store w') = unlocked) as Hu by (vm_compute; reflexivity). split; [exact Hu|].
  destruct (local_session_safe toy_scope toy_community sample_session (toy_world []) toy_fresh sample_well_formed) as [_ H].
  exact (H Hu).
Defined.

(** The relation holds after the first steps of the sample. *)
Definition opened_world : World := foldl user_step (toy_world []) [AInitialize (js "hunter2"); AAdd laptop].

#[local] Instance local_reliable : ReliableBackend toy_scope local_mode (local_view toy_scope) local_up :=
  LocalVaultBackend_reliable toy_scope toy_community.

Lemma toy_ready : ready toy_scope local_mode (local_view toy_scope) (toy_world [])
  ∧ R (local_view toy_scope) (mkA None false) (toy_world []).
Proof.
  split.
  - destruct toy_fresh as (Hq & Hs & Hl & _). split; [exact Hq|split; [exact Hs|]|exact Hl].
    apply community_mode, toy_community.
  - constructor; [vm_compute; reflexivity|]. destruct toy_fresh as (_ & _ & _ & Hsh & _). exact Hsh.
Qed.

Lemma store_refines_vault_witness : ∃ r w' a',
  run_action (AInitialize (js "hunter2")) (toy_world []) = (r, w')
  ∧ astep (mkA None false) (AInitialize (js "hunter2")) true a' ∧ R (local_view toy_scope) a' w'.
Proof.
  destruct (store_refines_vault toy_scope local_mode (local_view toy_scope) local_up (mkA None false)
              (AInitialize (js "hunter2")) (toy_world []))
    as (r & w' & a' & E & _ & S & HR).
  - apply toy_ready.
  - apply toy_ready.
  - split; [reflexivity|]. apply toy_password. vm_compute. reflexivity.
  - exists r, w', a'. split; [exact E|]. split; [|exact HR].
    assert (succeeded (AInitialize (js "hunter2")) r w' = true) as Hs.
    { pose proof (f_equal snd E) as Ew. cbn [snd] in Ew. rewrite <-Ew. vm_compute. reflexivity. }
    rewrite Hs in S. exact S.
Defined.

(** An open vault with one key. *)
Lemma opened_related : ∃ pw ks, ready toy_scope local_mode (local_view toy_scope) opened_world
  ∧ R (local_view toy_scope) (mkA (Some (pw, ks)) true) opened_world.
Proof.
  destruct toy_ready as [Hr HR].
  destruct (session_invariant toy_scope local_mode (local_view toy_scope) local_up
              [AInitialize (js "hunter2"); AAdd laptop] (toy_world []) Hr (ex_intro _ _ HR)) as [Hr' [a HR']].
  { repeat constructor. }
  fold opened_world in Hr', HR'.
  assert (status (store opened_world) = unlocked) as Hu by (vm_compute; reflexivity).
  destruct (R_unlocked_inv _ _ _ HR' Hu) as (pw & ks & ->). exists pw, ks. split; assumption.
Qed.

Lemma lock_unlock_round_trip_witness : ∃ pw ks, keys (store opened_world) = ks ∧ length ks = 1%nat
  ∧ keys (store (lock opened_world).2) = [] ∧ keys (store (unlock pw (lock opened_world).2).2) = ks.
Proof.
  destruct opened_related as (pw & ks & Hr & HR). exists pw, ks.
  destruct (lock_unlock_round_trip toy_scope local_mode (local_view toy_scope) local_up pw ks opened_world Hr HR)
    as (H1 & H2 & _ & H3 & _).
  split; [exact H1|]. split; [rewrite <-H1; vm_compute; reflexivity|]. split; [exact H2|exact H3].
Defined.

Lemma uuid_fallback_v4_witness : native_randomUUID = None
  ∧ ∃ u n, generateRandomUUID (toy_world []) = (Ok u, set_draws n (toy_world [])) ∧ is_uuid_v4 u = true.
Proof. split; [reflexivity|]. apply (uuid_fallback_v4 (toy_world [])). reflexivity. Defined.

Lemma opened_unique : unique_keys (keys (store opened_world)).
Proof. apply (bool_decide_unpack (unique_keys _)). vm_compute. exact I. Qed.

Lemma opened_fresh_id : fresh_id opened_world.
Proof.
  intros i w' E. assert (Some i = match (generateRandomUUID opened_world).1 with Ok i => Some i | _ => None end) as Ei
    by (rewrite E; reflexivity).
  clear E. revert Ei. vm_compute (match _ with Ok _ => _ | _ => _ end). intros [= ->].
  apply (bool_decide_unpack (_ ∉ _)). vm_compute. exact I.
Qed.

Lemma keys_stay_unique_witness : unique_keys (keys (store (addKey server_key opened_world).2))
  ∧ length (keys (store (addKey server_key opened_world).2)) = 2%nat.
Proof.
  split; [|vm_compute; reflexivity].
  exact (proj1 (keys_stay_unique opened_world opened_unique) server_key opened_fresh_id).
Defined.

End Local.

(** ** The Cloud edition: the vault on the server *)

Section Cloud.
#[local] Instance cloud_platform : Platform := toy_platform cloud.

(** An open vault with one key, stored on the server. *)
Definition cloud_world : World := foldl user_step (toy_world []) [AInitialize (js "hunter2"); AAdd laptop].

(** Nothing happens during the first [n] waits, then [i]. *)
Definition after_waits (n : nat) (i : @interrupt toy_api) : list (list (@interrupt toy_api)) :=
  replicate n [] ++ [[i]].

Definition names_in (k : CryptoKey) (d : option jsstring) : option (list jsstring) :=
  (λ ks, map name ks) <$> (parseVaultData d ≫= open_keys k).

(** A lock that arrives while [changeMasterPassword] waits for the old blob
    (after the check its comment calls critical) destroys the vault: the handler
    encrypts the key list the lock has just emptied, stores it with the new meta
    record, and reports success.  The vault held one key; afterwards the new
    password opens an empty one. *)
Theorem change_password_race_loses_keys :
  map name (keys (store cloud_world)) = [js "laptop"]
  ∧ let w := set_sched (after_waits 8 ILock) cloud_world in
    let '(r, w') := changeMasterPassword (js "hunter2") (js "s3cret") w in
    r = Ok tt ∧ error (store w') = None
    ∧ names_in (utf8_encode (js "s3cret")) (srv w' ≫= sv_data) = Some []
    ∧ let w2 := (unlock (js "s3cret") w').2 in status (store w2) = unlocked ∧ keys (store w2) = [].
Proof. vm_compute. repeat split. Qed.

(** A lock (or a logout) that arrives while [unlock] is decrypting does not
    keep the vault locked: the handler goes on to show the keys with status
    unlocked, although the lock has removed the session key. *)
Theorem unlock_race_shows_keys_after_lock :
  let w := set_sched (after_waits 7 ILock) (lock cloud_world).2 in
  let w' := (unlock (js "hunter2") w).2 in
  status (store w') = unlocked ∧ map name (keys (store w')) = [js "laptop"] ∧ sessionKey w' = None.
Proof. vm_compute. repeat split. Qed.

(** Another session of the same user adds a key and saves. *)
Definition other_session (s : @Srv toy_api) : @Srv toy_api :=
  srv (foldl user_step (@mkWorld toy_crypto toy_api ∅ None ∅ s initial_state (initial 1700000000000)
    (Some toy_user) (Some toy_tenant) 500 []) [ARefresh; AUnlock (js "hunter2"); AAdd server_key]).

Definition desktop : KeyInput := mkInput (js "desktop") (js "KEY-C") false (js "ee:ff") None.

(** The version check does not prevent a lost update.  After another session
    has added a key, the first [addKey] is refused with a conflict, but it leaves
    the fresh version behind, so simply trying again succeeds and overwrites the
    other session's key, which was never loaded.  Reading the status (which any
    page that shows the vault does) has the same effect without any conflict. *)
Theorem retry_overwrites_other_session :
  let w := set_srv (other_session (srv cloud_world)) cloud_world in
  let k := utf8_encode (js "hunter2") in
  names_in k (srv w ≫= sv_data) = Some [js "laptop"; js "server"]
  ∧ (addKey desktop w).1 = Throw conflict_error
  ∧ (let w' := (addKey desktop (addKey desktop w).2).2 in
     names_in k (srv w' ≫= sv_data) = Some [js "laptop"; js "desktop"])
  ∧ (let w' := (addKey desktop (refreshStatus w).2).2 in
     names_in k (srv w' ≫= sv_data) = Some [js "laptop"; js "desktop"]).
Proof. vm_compute. repeat split. Qed.

(** *** Instances of the backend theorems *)

Lemma server_save_checks_version_witness :
  let d := mkData (js "aXY=") (js "Y3Q=") in
  (saveData (ServerVaultBackend toy_scope) d cloud_world).1 = Ok tt
  ∧ ∃ v, srv cloud_world = Some v
    ∧ srv (saveData (ServerVaultBackend toy_scope) d cloud_world).2 = Some (put_data (stringify (data_json d)) v).
Proof.
  intros d. assert ((saveData (ServerVaultBackend toy_scope) d cloud_world).1 = Ok tt) as Hr
    by (vm_compute; reflexivity).
  split; [exact Hr|].
  pose proof (server_save_checks_version toy_scope d cloud_world) as H.
  destruct (saveData (ServerVaultBackend toy_scope) d cloud_world) as [r w'].
  cbn [fst snd] in *. subst r. destruct H as [(v & Hv & _ & Hw) _]; [vm_compute; reflexivity|].
  exists v. split; [exact Hv|exact Hw].
Defined.

(** The vault as another session leaves it after deleting it on the server. *)
Definition orphaned_world : World := set_srv None cloud_world.

Lemma refresh_keeps_secrets_witness :
  let w' := (refreshStatus orphaned_world).2 in
  map name (keys (store w')) = [js "laptop"] ∧ status (store w') = uninitialized
  ∧ sessionKey w' = sessionKey orphaned_world ∧ currentOptions (tracker w') = None.
Proof.
  intros w'. split; [vm_compute; reflexivity|].
  destruct (refresh_keeps_secrets_of_missing_vault toy_scope server_mode server_view server_up orphaned_world)
    as (H1 & _ & H2 & H3).
  - vm_compute. reflexivity.
  - split; vm_compute; reflexivity.
  - exact I.
  - vm_compute. reflexivity.
  - split; [exact H1|]. split; [exact H2|exact H3].
Defined.

Lemma migrate_to_local_safe_witness :
  let '(r, w') := migrateServerToLocal toy_scope cloud_world in
  r = Ok tt ∧ ∃ m, v_meta (server_view (place cloud_world)) = Some m
    ∧ holds_copy (local_view toy_scope (place w')) m (v_data (server_view (place cloud_world)))
    ∧ v_meta (server_view (place w')) = None.
Proof.
  assert ((migrateServerToLocal toy_scope cloud_world).1 = Ok tt) as Hr by (vm_compute; reflexivity).
  pose proof (migrate_to_local_safe toy_scope cloud_world) as H.
  destruct (migrateServerToLocal toy_scope cloud_world) as [r w']. cbn [fst] in Hr. subst r.
  split; [reflexivity|]. destruct H as (m & H1 & H2 & H3 & _); [vm_compute; reflexivity|].
  exists m. split; [exact H1|]. split; [exact H2|exact H3].
Defined.

(** A browser that holds the vault: the same session after moving it here. *)
Definition moved_world : World := (migrateServerToLocal toy_scope cloud_world).2.

Lemma migrate_to_server_safe_witness :
  let '(r, w') := migrateLocalToServer toy_scope moved_world in
  r = Ok tt ∧ vault_of (server_view (place w')) = vault_of (local_view toy_scope (place moved_world))
  ∧ v_meta (local_view toy_scope (place w')) = None.
Proof.
  assert ((migrateLocalToServer toy_scope moved_world).1 = Ok tt) as Hr by (vm_compute; reflexivity).
  assert (is_Some (v_meta (local_view toy_scope (place moved_world)))) as [m Hm]
    by (vm_compute; eexists; reflexivity).
  pose proof (migrate_to_server_safe toy_scope m moved_world) as H.
  destruct (migrateLocalToServer toy_scope moved_world) as [r w']. cbn [fst] in Hr. subst r.
  split; [reflexivity|]. destruct H as (H1 & H2 & _); [vm_compute; reflexivity|exact Hm|].
  split; [exact H1|exact H2].
Defined.

Lemma local_scopes_isolated_witness :
  let items x := vault_items (Some (mkScope (js "bob") toy_tenant)) (localStorage x) in
  items (clear (LocalVaultBackend toy_scope) moved_world).2 = items moved_world.
Proof.
  apply (local_scopes_isolated toy_user toy_tenant (js "bob") toy_tenant moved_world).
  - repeat constructor; discriminate.
  - repeat constructor; discriminate.
  - discriminate.
Defined.

End Cloud.

(** ** A full localStorage *)

Section Full.
#[local] Instance full_platform : Platform := {|
  fits _ _ _ := false; getRandomValues := toy_random; native_randomUUID := None; edition := cloud;
|}.

Lemma initialize_stuck_loading_witness :
  ∃ w', initialize (js "hunter2") (Some local_mode) (toy_world []) = (Throw quota_exception, w')
        ∧ loading (store w') = true ∧ error (store w') = None.
Proof. apply (initialize_stuck_loading (js "hunter2") local_mode (toy_world [])). reflexivity. Defined.

End Full.
