(* ===== verification/Session.v ===== *)
(** * The session: authStore, mfaResetStore and the interceptors of the client

    The whole console as far as signing in and out reaches: the auth store with
    its persisted copy, the vault, the terminals and the recent devices, the chat
    widget, the connectivity store, the scope of the recordings, the query cache
    and the address of the page.

    The generated API client is not code of the repository: [HttpClient] is a
    parameter, and [HttpClientLaws] states what its documentation promises, that
    a call runs the registered interceptors around the request.  So are the
    server ([AuthServer]) and zustand's persist middleware ([Persist]).

    Other tasks run while a call waits ([apause]): the schedule says which. *)

From S2P Require Import Prelude JsString JsJson JsEncoding JsDate Permission VaultTypes VaultTracker.
From S2P Require Import VaultWorld VaultCrypto Terminal Chatwoot Connectivity AuthTypes.

(** ** Collaborators *)

(** The requests of the two stores. *)
Inductive Request :=
  | RLogin (u p : jsstring)
  | RGetUserInfo
  | RUpdateUser (body : json)
  | RDeleteUser
  | RAuthMfa (t code : jsstring)
  | RMfaRecover (identifier code : jsstring)
  | RRequestResetMfa (identifier : jsstring)
  | RResetMfa (userId mainCode recoveryCode : jsstring)
  | RGetInfo.

Record HttpResponse := mkResponse {
  http_status : Z;
  http_url : jsstring;
  x_mfa_token : option jsstring;
  x_expires_at : option jsstring;
  http_data : option UserData;
  http_reset_token : jsstring;
}.

Definition ok_status (st : Z) : bool := (200 <=? st) && (st <=? 299).

(** The network and the server: a request with its Authorization header; no
    response when the network fails. *)
Class AuthServer := {
  ASrv : Type;
  fetch : Request → option jsstring → ASrv → option HttpResponse * ASrv;
}.

(** zustand's persist middleware over localStorage: [persist_write name version
    partial storage]. *)
Class Persist := {
  persist_write : jsstring → Z → json → gmap jsstring jsstring → gmap jsstring jsstring;
}.

(** It writes [JSON.stringify({ state, version })] under its name, nothing else. *)
Definition persisted (version : Z) (state : json) : jsstring :=
  stringify (JObj [(js "state", state); (js "version", JNum (Dec version 0))]).

Class PersistLaws `{Persist} := {
  persist_spec n v j s : persist_write n v j s = <[n := persisted v j]> s;
}.

(** ** The application *)

Record MfaResetState := mkMfaReset {
  mfaResetToken : option jsstring;
  mfaResetIdentifier : option jsstring;
  mr_loading : bool;
  mr_error : option jsstring;
}.
Definition mfaReset_initial : MfaResetState := mkMfaReset None None false None.

Section App.
Context `{WC : WebCrypto} `{VA : VaultApi} `{PF : Platform} `{AS : AuthServer} `{PS : Persist}.

(** What another task may do while a call waits. *)
Inductive ainterrupt :=
  | ALogout
  | ASetSession (t tn : jsstring) (r : option Role)
  | AUpdateMfaStatus (b : bool)
  | AVault (i : interrupt)
  | ATerminal (a : taction)
  | AServer (f : ASrv → ASrv).

Record App := mkApp {
  auth : AuthState;
  mfaReset : MfaResetState;
  vault : World;
  terminals : TerminalState;
  recents : ByTenant;
  chatwoot : Chatwoot;
  conn : Connectivity;
  recordingsScope : option jsstring;
  queryCache : list jsstring;
  navigations : list jsstring;
  urlHasToken : bool;
  server : ASrv;
  asched : list (list ainterrupt);
}.

Notation A := (M App).

Definition set_auth (x : AuthState) (w : App) : App :=
  mkApp x (mfaReset w) (vault w) (terminals w) (recents w) (chatwoot w) (conn w) (recordingsScope w)
    (queryCache w) (navigations w) (urlHasToken w) (server w) (asched w).
Definition set_mfaReset (x : MfaResetState) (w : App) : App :=
  mkApp (auth w) x (vault w) (terminals w) (recents w) (chatwoot w) (conn w) (recordingsScope w)
    (queryCache w) (navigations w) (urlHasToken w) (server w) (asched w).
Definition set_vault (x : World) (w : App) : App :=
  mkApp (auth w) (mfaReset w) x (terminals w) (recents w) (chatwoot w) (conn w) (recordingsScope w)
    (queryCache w) (navigations w) (urlHasToken w) (server w) (asched w).
Definition set_terminals (x : TerminalState) (w : App) : App :=
  mkApp (auth w) (mfaReset w) (vault w) x (recents w) (chatwoot w) (conn w) (recordingsScope w)
    (queryCache w) (navigations w) (urlHasToken w) (server w) (asched w).
Definition set_recents (x : ByTenant) (w : App) : App :=
  mkApp (auth w) (mfaReset w) (vault w) (terminals w) x (chatwoot w) (conn w) (recordingsScope w)
    (queryCache w) (navigations w) (urlHasToken w) (server w) (asched w).
Definition set_chatwoot (x : Chatwoot) (w : App) : App :=
  mkApp (auth w) (mfaReset w) (vault w) (terminals w) (recents w) x (conn w) (recordingsScope w)
    (queryCache w) (navigations w) (urlHasToken w) (server w) (asched w).
Definition set_conn (x : Connectivity) (w : App) : App :=
  mkApp (auth w) (mfaReset w) (vault w) (terminals w) (recents w) (chatwoot w) x (recordingsScope w)
    (queryCache w) (navigations w) (urlHasToken w) (server w) (asched w).
Definition set_recordingsScope (x : option jsstring) (w : App) : App :=
  mkApp (auth w) (mfaReset w) (vault w) (terminals w) (recents w) (chatwoot w) (conn w) x
    (queryCache w) (navigations w) (urlHasToken w) (server w) (asched w).
Definition set_queryCache (x : list jsstring) (w : App) : App :=
  mkApp (auth w) (mfaReset w) (vault w) (terminals w) (recents w) (chatwoot w) (conn w) (recordingsScope w)
    x (navigations w) (urlHasToken w) (server w) (asched w).
Definition set_navigations (x : list jsstring) (w : App) : App :=
  mkApp (auth w) (mfaReset w) (vault w) (terminals w) (recents w) (chatwoot w) (conn w) (recordingsScope w)
    (queryCache w) x (urlHasToken w) (server w) (asched w).
Definition set_server (x : ASrv) (w : App) : App :=
  mkApp (auth w) (mfaReset w) (vault w) (terminals w) (recents w) (chatwoot w) (conn w) (recordingsScope w)
    (queryCache w) (navigations w) (urlHasToken w) x (asched w).
Definition set_asched (x : list (list ainterrupt)) (w : App) : App :=
  mkApp (auth w) (mfaReset w) (vault w) (terminals w) (recents w) (chatwoot w) (conn w) (recordingsScope w)
    (queryCache w) (navigations w) (urlHasToken w) (server w) x.

(** A handler of the vault, run in the application. *)
Definition lift {R} (m : M World R) : A R := λ w,
  match m (vault w) with (r, v) => (r, set_vault v w) end.

Definition storage (w : App) : gmap jsstring jsstring := localStorage (vault w).
Definition set_storage (s : gmap jsstring jsstring) (w : App) : App :=
  set_vault (set_localStorage s (vault w)) w.

Definition time_now (w : App) : Z := clock (tracker (vault w)).

(** ** stores/authStore.ts *)

Definition SESSION : jsstring := js "shellhub-session".

(** [useAuthStore.subscribe]: the recordings follow the user id. *)
Definition subscriber (prev : AuthState) (w : App) : App :=
  if bool_decide (userId (auth w) = userId prev) then w
  else set_recordingsScope (userId (auth w)) w.

(** [set(partial)] of the auth store: the new state, the subscriber, the persisted
    copy.  [getScope] of the vault store reads the auth store when it is called;
    the world of the vault keeps what it would read, written here with the state. *)
Definition put_auth (f : AuthState → AuthState) (w : App) : App :=
  let prev := auth w in
  let s := f prev in
  let w := set_vault (set_auth_scope (user s) (tenant s) (vault w)) (set_auth s w) in
  let w := subscriber prev w in
  set_storage (persist_write SESSION 1 (partialize s) (storage w)) w.

Definition setAuth (f : AuthState → AuthState) : A unit := modify (put_auth f).
Definition getAuth {R} (f : AuthState → R) : A R := gets (λ w, f (auth w)).

Definition tearDown (r : TearDownReason) : A unit :=
  modify (λ w, set_chatwoot (tearDownChatwoot r (chatwoot w)) w).

Definition on_terminals (f : TerminalState → TerminalState) : A unit :=
  modify (λ w, set_terminals (f (terminals w)) w).

(** [terminal.sessions.forEach((s) => terminal.close(s.id))]: the sessions as
    they were when the snapshot was taken. *)
Definition closeTerminals : A unit :=
  modify (λ w, set_terminals
    (fold_left (λ t s, close (id s) t) (sessions (terminals w)) (terminals w)) w).

Definition remove_item (k : jsstring) : A unit :=
  modify (λ w, set_storage (delete k (storage w)) w).

Definition logout : A unit :=
  tearDown logout_reason;;
  lift lock;;
  closeTerminals;;
  setAuth (λ _, initialState);;
  remove_item SESSION;;
  modify (set_queryCache []).

Definition navigate (to : jsstring) : A unit := modify (λ w, set_navigations (navigations w ++ [to]) w).

Definition setSession (t tn : jsstring) (r : option Role) : A unit := setAuth (set_namespace t tn r).
Definition updateMfaStatus (b : bool) : A unit := setAuth (set_mfaEnabled b).
Definition setMfaToken (t : jsstring) : A unit := setAuth (set_mfaToken (Some t)).

(** ** Waiting *)

Definition ainterrupt_run (i : ainterrupt) : A unit :=
  match i with
  | ALogout => logout
  | ASetSession t tn r => setSession t tn r
  | AUpdateMfaStatus b => updateMfaStatus b
  | AVault i => lift (interrupt_run i)
  | ATerminal a => on_terminals (λ t, trun1 t a)
  | AServer f => modify (λ w, set_server (f (server w)) w)
  end.

Fixpoint ainterrupts_run (l : list ainterrupt) : A unit :=
  match l with
  | [] => mret tt
  | i :: l => ainterrupt_run i;; ainterrupts_run l
  end.

Definition apause : A unit := λ w,
  match asched w with
  | [] => (Ok tt, w)
  | l :: rest => ainterrupts_run l (set_asched rest w)
  end.

(** ** api/fetchInterceptors.ts *)

Definition on_conn (f : Connectivity → Connectivity) : A unit :=
  modify (λ w, set_conn (f (conn w)) w).

(** The request interceptor: the Authorization header of the request, if any. *)
Definition request_interceptor : A (option jsstring) :=
  t ← getAuth token;
  match t with
  | Some t =>
      if truthy t then
        now ← gets time_now;
        if isTokenExpired now t then
          isTokenLogin ← gets urlHasToken;
          when (negb isTokenLogin) (logout;; navigate (js "/login"));;
          throw (Error (js "Token expired"))
        else mret (Some (js "Bearer " ++ t))
      else mret None
  | None => mret None
  end.

(** The 401 branch of the response interceptor. *)
Definition on_unauthorized (r : HttpResponse) : A unit :=
  if is_truthy (x_mfa_token r) then setMfaToken (default [] (x_mfa_token r))
  else
    let isLoginRequest := includes (http_url r) (js "/api/login") in
    isTokenLogin ← gets urlHasToken;
    if negb isLoginRequest && negb isTokenLogin
    then logout;; navigate (js "/login")
    else mret tt.

Definition response_interceptor (r : HttpResponse) : A unit :=
  on_conn (on_response (http_status r));;
  if http_status r =? 401 then on_unauthorized r else mret tt.

(** The error interceptor; with a response it returns the error enriched with
    the status, which the stores below do not inspect. *)
Definition error_interceptor (r : option HttpResponse) : A unit :=
  match r with None => on_conn on_no_response | Some _ => mret tt end.

Definition network_error : exn := Error (js "Failed to fetch").
Definition http_error (r : HttpResponse) : exn := Thrown (js "[object Object]").

(** ** The client *)

Definition transmit (req : Request) (authorization : option jsstring) : A (option HttpResponse) := λ w,
  match fetch req authorization (server w) with (r, s) => (Ok r, set_server s w) end.

(** What the client documents of a call with [throwOnError: true]: the request
    interceptors run before the request is sent, the response interceptors on
    every response, the error interceptors when there is none or it is not
    successful; the call resolves with a successful response and rejects
    otherwise.  Whether an exception of a request interceptor reaches the error
    interceptors depends on the client's version. *)
Definition documented_call (catches : bool) (req : Request) : A HttpResponse :=
  authorization ← try_catch request_interceptor (λ e, when catches (error_interceptor None);; throw e);
  apause;;
  r ← transmit req authorization;
  apause;;
  match r with
  | None => error_interceptor None;; throw network_error
  | Some r =>
      response_interceptor r;;
      if ok_status (http_status r) then mret r
      else error_interceptor (Some r);; throw (http_error r)
  end.

Class HttpClient := { send : Request → A HttpResponse }.
Class HttpClientLaws `{HttpClient} := {
  catches : bool;
  send_spec req w : send req w = documented_call catches req w;
}.

Context `{HC : HttpClient}.

(** [data.field] when the reply has no body. *)
Definition type_error : exn := Error (js "Cannot read properties of undefined").
Definition data_of (r : HttpResponse) : A UserData :=
  match http_data r with Some d => mret d | None => throw type_error end.

(** ** The asynchronous actions of the auth store *)

Definition login (u p : jsstring) : A unit :=
  setAuth (set_mfaToken None ∘ set_loading true);;
  try_catch
    (r ← send (RLogin u p);
     if is_truthy (x_mfa_token r)
     then setAuth (set_loading false ∘ set_user (Some u) ∘ set_mfaEnabled true ∘ set_mfaToken (x_mfa_token r))
     else d ← data_of r;
          setAuth (set_loading false ∘ set_mfaEnabled (default false (ud_mfa d)) ∘ set_identity d))
    (λ err,
       t ← getAuth mfaToken;
       if is_truthy t
       then setAuth (set_mfaEnabled true ∘ set_user (Some u) ∘ set_loading false)
       else setAuth (set_loading false);; throw err).

Definition loginWithToken (t : jsstring) : A unit :=
  setAuth (set_token (Some t) ∘ set_loading true);;
  try_catch
    (r ← send RGetUserInfo;
     d ← data_of r;
     setAuth (set_loading false ∘ set_user_info d))
    (λ _,
       tearDown logout_reason;;
       setAuth (λ _, initialState);;
       throw (Error (js "Token login failed"))).

Definition fetchUser : A unit :=
  try_catch
    (r ← send RGetUserInfo;
     d ← data_of r;
     setAuth (set_fetched d))
    (λ _, setAuth (set_isAdmin false)).

Definition updateProfile (data : json) : A unit :=
  send (RUpdateUser data);; fetchUser.

Definition updatePassword (currentPassword newPassword : jsstring) : A unit :=
  send (RUpdateUser (JObj [(js "current_password", JStr currentPassword);
                           (js "password", JStr newPassword)]));; mret tt.

Definition deleteUser : A unit :=
  send RDeleteUser;; logout;; navigate (js "/login").

Definition loginWithMfa (code : jsstring) : A unit :=
  t ← getAuth mfaToken;
  if negb (is_truthy t) then throw (Error (js "No MFA token available"))
  else
    setAuth (set_error None ∘ set_loading true);;
    try_catch
      (r ← send (RAuthMfa (default [] t) code);
       d ← data_of r;
       setAuth (set_loading false ∘ set_mfaEnabled true ∘ set_mfaToken None ∘ set_identity d))
      (λ _,
         setAuth (set_error (Some (js "Invalid verification code")) ∘ set_loading false);;
         throw (Error (js "Invalid verification code"))).

(** [a || b] on strings that may be missing. *)
Definition or_opt (a b : option jsstring) : option jsstring := if is_truthy a then a else b.

Definition recoverWithCode (code : jsstring) (identifier : option jsstring) : A unit :=
  u ← getAuth user; n ← getAuth username;
  let who := or_opt identifier (or_opt u n) in
  if negb (is_truthy who) then
    setAuth (set_error (Some (js "Username or email is required")));;
    throw (Error (js "Username or email is required"))
  else
    setAuth (set_error None ∘ set_loading true);;
    try_catch
      (r ← send (RMfaRecover (default [] who) code);
       d ← data_of r;
       let expiresAt := default [] (x_expires_at r) in
       let expiryValue := if truthy expiresAt then parseInt expiresAt else None in
       setAuth (set_loading false ∘ set_recovery_expiry expiryValue ∘ set_mfaToken None
                ∘ set_mfaEnabled true ∘ set_identity d))
      (λ _,
         setAuth (set_error (Some (js "Invalid recovery code or username")) ∘ set_loading false);;
         throw (Error (js "Invalid recovery code or username"))).

(** ** stores/mfaResetStore.ts *)

Definition put_mfaReset (f : MfaResetState → MfaResetState) : A unit :=
  modify (λ w, set_mfaReset (f (mfaReset w)) w).
Definition mr_set_loading (b : bool) (s : MfaResetState) : MfaResetState :=
  mkMfaReset (mfaResetToken s) (mfaResetIdentifier s) b (mr_error s).
Definition mr_set_error (e : option jsstring) (s : MfaResetState) : MfaResetState :=
  mkMfaReset (mfaResetToken s) (mfaResetIdentifier s) (mr_loading s) e.
Definition mr_set_session (t i : option jsstring) (s : MfaResetState) : MfaResetState :=
  mkMfaReset t i (mr_loading s) (mr_error s).

Definition requestMfaReset (identifier : jsstring) : A unit :=
  put_mfaReset (mr_set_error None ∘ mr_set_loading true);;
  try_catch
    (r ← send (RRequestResetMfa identifier);
     put_mfaReset (mr_set_loading false ∘ mr_set_session (Some (http_reset_token r)) (Some identifier)))
    (λ _,
       put_mfaReset (mr_set_error (Some (js "Unable to send reset emails. Please check your identifier."))
                     ∘ mr_set_loading false);;
       throw (Error (js "Reset request failed"))).

Definition completeMfaReset (mainEmailCode recoveryEmailCode : jsstring) : A unit :=
  t ← gets (λ w, mfaResetToken (mfaReset w));
  if negb (is_truthy t) then
    put_mfaReset (mr_set_error (Some (js "Invalid reset session. Please start over.")));;
    throw (Error (js "No reset token available"))
  else
    put_mfaReset (mr_set_error None ∘ mr_set_loading true);;
    try_catch
      (r ← send (RResetMfa (default [] t) mainEmailCode recoveryEmailCode);
       d ← data_of r;
       setAuth (set_mfaEnabled (default false (ud_mfa d)) ∘ set_identity d);;
       put_mfaReset (mr_set_loading false ∘ mr_set_session None None))
      (λ _,
         put_mfaReset (mr_set_error (Some (js "Invalid verification codes. Please check and try again."))
                       ∘ mr_set_loading false);;
         throw (Error (js "Invalid codes"))).

Definition resetMfaReset : A unit := put_mfaReset (λ _, mfaReset_initial).

(** ** Opening a terminal (stores/terminalStore.ts, stores/recentDevicesStore.ts) *)

Definition RECENT : jsstring := js "shellhub:recent-devices".

Definition recent_json (d : RecentDevice) : json :=
  JObj [(js "uid", JStr (uid d)); (js "name", JStr (Terminal.name d)); (js "connectedAt", JStr (connectedAt d))].
Definition byTenant_json (m : ByTenant) : json :=
  JObj [(js "byTenant", JObj ((λ kv, (kv.1, JArr (map recent_json kv.2))) <$> map_to_list m))].

(** [record]: nothing is set, so nothing is persisted, without a tenant. *)
Definition recordRecent (u n : jsstring) : A unit := λ w,
  if is_truthy (tenant (auth w)) then
    let m := recordDevice (tenant (auth w)) (time_now w) u n (recents w) in
    let w := set_recents m w in
    (Ok tt, set_storage (persist_write RECENT 1 (byTenant_json m) (storage w)) w)
  else (Ok tt, w).

Definition openTerminal (p : TerminalParams) : A unit :=
  i ← lift generateRandomUUID;
  recordRecent (deviceUid p) (deviceName p);;
  on_terminals (open i p).

End App.

Notation A := (M App).
