(* ===== verification/SessionFacts.v ===== *)
(** * Theorems about the session

    Signing out clears every trace of the user; the copies of the session in the
    recordings scope, the vault and localStorage stay in step with the store
    under every schedule; an expired token is never sent and a rejected one ends
    the session; what each outcome of a sign-in leaves in the store. *)

From S2P Require Import Prelude JsString JsJson JsEncoding JsDate Permission VaultTypes VaultTracker.
From S2P Require Import VaultWorld VaultCrypto Terminal Chatwoot Connectivity AuthTypes Session.

Section Facts.
Context `{WC : WebCrypto} `{VA : VaultApi} `{PF : Platform} `{AS : AuthServer} `{PS : Persist}.
Context `{PSL : !PersistLaws}.

(** ** Copies of the session *)

(** The scope of the recordings, what the vault reads of the user, and the
    persisted record agree with the store. *)
Definition in_sync (w : App) : Prop :=
  recordingsScope w = userId (auth w) ∧
  auth_user (vault w) = user (auth w) ∧
  auth_tenant (vault w) = tenant (auth w) ∧
  (∀ s, storage w !! SESSION = Some s → s = persisted 1 (partialize (auth w))).

Lemma put_auth_spec f w :
  auth (put_auth f w) = f (auth w) ∧
  auth_user (vault (put_auth f w)) = user (f (auth w)) ∧
  auth_tenant (vault (put_auth f w)) = tenant (f (auth w)) ∧
  storage (put_auth f w) = <[SESSION := persisted 1 (partialize (f (auth w)))]> (storage w) ∧
  recordingsScope (put_auth f w) =
    (if bool_decide (userId (f (auth w)) = userId (auth w)) then recordingsScope w else userId (f (auth w))).
Proof.
  unfold put_auth, subscriber. cbn. case_bool_decide; cbn; rewrite persist_spec; done.
Qed.

Lemma put_auth_sync f w : in_sync w → in_sync (put_auth f w).
Proof.
  intros (H1 & H2 & H3 & H4). destruct (put_auth_spec f w) as (E1 & E2 & E3 & E4 & E5).
  split; [|split; [|split]].
  - rewrite E5, E1. case_bool_decide as E; congruence.
  - by rewrite E1.
  - by rewrite E1.
  - rewrite E1, E4, lookup_insert_eq. congruence.
Qed.

Lemma keeps_setAuth f : keeps in_sync (setAuth f).
Proof. apply keeps_modify. apply put_auth_sync. Qed.

Lemma keeps_tearDown r : keeps in_sync (tearDown r).
Proof. by apply keeps_modify. Qed.
Lemma keeps_terminals f : keeps in_sync (on_terminals f).
Proof. by apply keeps_modify. Qed.
Lemma keeps_closeTerminals : keeps in_sync closeTerminals.
Proof. by apply keeps_modify. Qed.
Lemma keeps_navigate to : keeps in_sync (navigate to).
Proof. by apply keeps_modify. Qed.
Lemma keeps_conn f : keeps in_sync (on_conn f).
Proof. by apply keeps_modify. Qed.
Lemma keeps_clearCache : keeps in_sync (modify (set_queryCache [])).
Proof. by apply keeps_modify. Qed.
Lemma keeps_put_mfaReset f : keeps in_sync (put_mfaReset f).
Proof. by apply keeps_modify. Qed.
Lemma keeps_remove k : keeps in_sync (remove_item k).
Proof.
  apply keeps_modify. intros w (H1 & H2 & H3 & H4). repeat split; try done. cbn. intros s.
  rewrite lookup_delete_Some. intros [_ Hs]. by apply H4.
Qed.
Lemma keeps_transmit r a : keeps in_sync (transmit r a).
Proof. split. intros w Hw. unfold transmit. by destruct (fetch r a (server w)). Qed.

(** A handler of the vault that leaves the user and the storage alone. *)
Definition vault_local {R} (m : M World R) : Prop := ∀ v,
  localStorage (m v).2 = localStorage v ∧ auth_user (m v).2 = auth_user v ∧ auth_tenant (m v).2 = auth_tenant v.

Lemma keeps_lift {R} (m : M World R) : vault_local m → keeps in_sync (lift m).
Proof.
  intros H. split. intros w (H1 & H2 & H3 & H4). unfold lift. destruct (H (vault w)) as (E1 & E2 & E3).
  destruct (m (vault w)) as [r v]. cbn in *. repeat split; cbn; [done|congruence..|].
  unfold storage. cbn. by rewrite E1.
Qed.

Lemma vault_local_interrupt i : vault_local (interrupt_run i).
Proof.
  intros v. destruct i; try done. cbn. unfold mbind, M_bind, gets. case_bool_decide; [|done].
  unfold onIdle, mbind, M_bind, peek, gets. case_bool_decide; done.
Qed.

Lemma vault_local_uuid : vault_local generateRandomUUID.
Proof.
  assert (∀ m, vault_local (uuid_fill m)) as Hf.
  { induction m as [|c m IH]; intros v; [done|]. cbn [uuid_fill].
    unfold mbind, M_bind.
    repeat match goal with |- context [ (if ?b then _ else _) ] => destruct b end;
    cbn; try (destruct (IH (set_draws (S (draws v)) v)) as (E1 & E2 & E3));
    try (destruct (IH v) as (F1 & F2 & F3));
    repeat match goal with |- context [ uuid_fill m ?w ] => destruct (uuid_fill m w) as [[]]; cbn in * end; done. }
  unfold generateRandomUUID. destruct native_randomUUID; [done|]. apply Hf.
Qed.

#[local] Hint Resolve keeps_setAuth keeps_tearDown keeps_terminals keeps_closeTerminals keeps_navigate
  keeps_conn keeps_clearCache keeps_put_mfaReset keeps_remove keeps_transmit : keeps.

Lemma keeps_logout : keeps in_sync logout.
Proof. unfold logout. keeping. by apply keeps_lift. Qed.
#[local] Hint Resolve keeps_logout : keeps.

Lemma keeps_apause : keeps in_sync apause.
Proof.
  split. intros w Hw. unfold apause. destruct (asched w) as [|l rest]; [done|].
  enough (keeps in_sync (ainterrupts_run l)) as H by (by apply H).
  induction l as [|i l IH]; cbn [ainterrupts_run]; [apply keeps_ret|]. apply keeps_bind; [|done].
  destruct i; cbn [ainterrupt_run]; unfold setSession, updateMfaStatus; auto with keeps.
  - apply keeps_lift, vault_local_interrupt.
  - by apply keeps_modify.
Qed.
#[local] Hint Resolve keeps_apause : keeps.

Lemma keeps_documented_call c r : keeps in_sync (documented_call c r).
Proof.
  unfold documented_call, request_interceptor, getAuth, error_interceptor, response_interceptor,
    on_unauthorized, setMfaToken. keeping.
Qed.

Context `{HC : !HttpClient} `{HCL : !HttpClientLaws}.

Lemma keeps_send r : keeps in_sync (send r).
Proof. split. intros w Hw. rewrite send_spec. by apply keeps_documented_call. Qed.
Lemma keeps_data_of r : keeps in_sync (data_of r).
Proof. unfold data_of. keeping. Qed.
#[local] Hint Resolve keeps_send keeps_data_of : keeps.

(** ** Runs of the console *)

Inductive saction :=
  | SLogin (u p : jsstring) | SLoginWithToken (t : jsstring) | SLogout | SFetchUser
  | SSetSession (t tn : jsstring) (r : option Role) | SUpdateProfile (data : json)
  | SUpdatePassword (old new : jsstring) | SDeleteUser | SLoginWithMfa (code : jsstring)
  | SRecover (code : jsstring) (identifier : option jsstring) | SUpdateMfaStatus (b : bool)
  | SSetMfaToken (t : jsstring) | SRequestMfaReset (identifier : jsstring)
  | SCompleteMfaReset (c1 c2 : jsstring) | SResetMfaReset
  | SOpen (p : TerminalParams) | STerminal (a : taction).

Definition srun1 (a : saction) : M App unit :=
  match a with
  | SLogin u p => login u p
  | SLoginWithToken t => loginWithToken t
  | SLogout => logout
  | SFetchUser => fetchUser
  | SSetSession t tn r => setSession t tn r
  | SUpdateProfile d => updateProfile d
  | SUpdatePassword o n => updatePassword o n
  | SDeleteUser => deleteUser
  | SLoginWithMfa c => loginWithMfa c
  | SRecover c i => recoverWithCode c i
  | SUpdateMfaStatus b => updateMfaStatus b
  | SSetMfaToken t => setMfaToken t
  | SRequestMfaReset i => requestMfaReset i
  | SCompleteMfaReset c1 c2 => completeMfaReset c1 c2
  | SResetMfaReset => resetMfaReset
  | SOpen p => openTerminal p
  | STerminal a => on_terminals (λ t, trun1 t a)
  end.

Definition srun (l : list saction) (w : App) : App := fold_left (λ w a, (srun1 a w).2) l w.

Lemma SESSION_RECENT : SESSION ≠ RECENT.
Proof. apply (bool_decide_unpack _). vm_compute. exact I. Qed.

Lemma keeps_recordRecent u n : keeps in_sync (recordRecent u n).
Proof.
  split. intros w (H1 & H2 & H3 & H4). unfold recordRecent. destruct (is_truthy _); [|done].
  repeat split; try done. cbn -[SESSION RECENT]. rewrite persist_spec, lookup_insert_ne by apply not_eq_sym, SESSION_RECENT.
  exact H4.
Qed.

Lemma keeps_srun1 a : keeps in_sync (srun1 a).
Proof.
  assert (keeps in_sync fetchUser) as Hf by (unfold fetchUser; keeping).
  destruct a; cbn [srun1]; unfold login, loginWithToken, setSession, updateProfile, updatePassword,
    deleteUser, loginWithMfa, recoverWithCode, updateMfaStatus, setMfaToken, requestMfaReset,
    completeMfaReset, resetMfaReset, openTerminal, getAuth; keeping.
  - apply keeps_lift, vault_local_uuid.
  - apply keeps_recordRecent.
Qed.

(** However the user signs in and out, with one or two factors, switches
    namespaces, edits the profile or opens terminals, whatever the server answers
    and whatever other tasks do in between: the recordings are scoped to the
    user of the store, the vault reads that user and namespace, and the session
    kept for a reload is that of the store. *)
Theorem session_in_sync (l : list saction) (w : App) (Hw : in_sync w) : in_sync (srun l w).
Proof. revert w Hw. induction l as [|a l IH]; intros w Hw; [done|]. by apply IH, keeps_srun1. Qed.

(** ** Signing out *)

(** Nothing of the user is left on the page, and nothing that would bring the
    session back after a reload. *)
Record signed_out (w : App) : Prop := {
  so_auth : auth w = initialState;
  so_scope : recordingsScope w = None;
  so_stored : storage w !! SESSION = None;
  so_locked : VaultWorld.status (store (vault w)) = locked;
  so_keys : keys (store (vault w)) = [];
  so_sessionKey : sessionKey (vault w) = None;
  so_tracker : at_rest (tracker (vault w));
  so_vault_user : auth_user (vault w) = None;
  so_vault_tenant : auth_tenant (vault w) = None;
  so_terminals : sessions (terminals w) = [];
  so_cache : queryCache w = [];
  so_widget : no_widget (chatwoot w);
}.

Lemma close_all l t : (∀ s, s ∈ sessions t → s ∈ l) →
  sessions (fold_left (λ t s, close (id s) t) l t) = [].
Proof.
  revert t. induction l as [|x l IH]; intros t H; simpl.
  - destruct (sessions t) as [|s r] eqn:E; [done|]. exfalso. apply (not_elem_of_nil s), H. rewrite ?E. left.
  - apply IH. intros s Hs. unfold close in Hs. cbn in Hs.
    rewrite list_elem_of_In in Hs. apply filter_In in Hs as [Hs Hne]. rewrite <-list_elem_of_In in Hs.
    apply H in Hs. apply elem_of_cons in Hs as [->|Hs]; [|done].
    unfold is_id in Hne. by rewrite bool_decide_eq_true_2 in Hne.
Qed.

(** What [set] of the auth store leaves alone. *)
Lemma put_auth_frame f w : terminals (put_auth f w) = terminals w ∧ chatwoot (put_auth f w) = chatwoot w ∧
  recents (put_auth f w) = recents w ∧ navigations (put_auth f w) = navigations w ∧
  server (put_auth f w) = server w ∧ conn (put_auth f w) = conn w ∧
  store (vault (put_auth f w)) = store (vault w) ∧ sessionKey (vault (put_auth f w)) = sessionKey (vault w) ∧
  tracker (vault (put_auth f w)) = tracker (vault w).
Proof. unfold put_auth, subscriber. destruct (bool_decide _); repeat split; reflexivity. Qed.

(** The state of the page when [logout] resets the store. *)
Definition before_reset (w : App) : App :=
  let w := set_chatwoot (tearDownChatwoot logout_reason (chatwoot w)) w in
  let w := set_vault (lock (vault w)).2 w in
  set_terminals (fold_left (λ t s, close (id s) t) (sessions (terminals w)) (terminals w)) w.

Lemma logout_run w : logout w =
  (Ok tt, let x := put_auth (λ _, initialState) (before_reset w) in
          set_queryCache [] (set_storage (delete SESSION (storage x)) x)).
Proof. reflexivity. Qed.

Lemma logout_spec w : in_sync w → cw_ok (chatwoot w) →
  ∃ w', logout w = (Ok tt, w') ∧ signed_out w' ∧
    (∀ k, k ≠ SESSION → storage w' !! k = storage w !! k) ∧
    (tracked (tracker (vault w)) → timers (tracker (vault w')) = ∅) ∧
    recents w' = recents w ∧ navigations w' = navigations w ∧ server w' = server w ∧ conn w' = conn w.
Proof.
  intros (Hs & Hu & Ht & _) Hc. rewrite logout_run. eexists. split; [reflexivity|].
  set (w1 := before_reset w). destruct (put_auth_spec (λ _, initialState) w1) as (E1 & E2 & E3 & E4 & E5).
  assert (recordingsScope w1 = userId (auth w1)) as Hw1 by exact Hs.
  destruct (put_auth_frame (λ _, initialState) w1) as (P1 & P2 & P3 & P4 & P5 & P6 & P7 & P8 & P9).
  split; [|split; [|split; [|split; [|split; [|split]]]]].
  - split.
    + exact E1.
    + etransitivity; [exact E5|]. rewrite Hw1. case_bool_decide as E; [by rewrite <-E|done].
    + apply lookup_delete_eq.
    + etransitivity; [exact (f_equal VaultWorld.status P7)|reflexivity].
    + etransitivity; [exact (f_equal keys P7)|reflexivity].
    + etransitivity; [exact P8|reflexivity].
    + change (at_rest (tracker (vault (put_auth (λ _, initialState) w1)))). rewrite P9. apply stop_at_rest.
    + exact E2.
    + exact E3.
    + etransitivity; [exact (f_equal sessions P1)|]. apply close_all. auto.
    + reflexivity.
    + change (no_widget (chatwoot (put_auth (λ _, initialState) w1))). rewrite P2. by apply tearDown_no_widget.
  - intros k Hk. etransitivity; [by apply lookup_delete_ne|]. rewrite E4. by apply lookup_insert_ne.
  - intros Htr. change (timers (tracker (vault (put_auth (λ _, initialState) w1))) = ∅). rewrite P9.
    by apply stop_clean.
  - exact P3.
  - exact P4.
  - exact P5.
  - exact P6.
Qed.

(** C3: Signing out never fails and leaves nothing of the user: the store is
    reset, the vault locked with no key in memory, its auto-lock stopped with no
    timer pending and no listener, every terminal closed, the chat widget removed,
    the query cache empty, the recordings unscoped and the stored session deleted;
    every other item of localStorage (the vault, the recent devices) is untouched.
    The page is one in which the copies of the session agree ([in_sync]), the chat
    and the tracker keep the timers and listeners they have ([cw_ok], [tracked]),
    which each of their events preserves. *)
Theorem logout_signs_out (w : App) (Hsync : in_sync w) (Hcw : cw_ok (chatwoot w)) (Htr : tracked (tracker (vault w))) :
  ∃ w', logout w = (Ok tt, w') ∧ signed_out w' ∧ timers (tracker (vault w')) = ∅ ∧
    (∀ k, k ≠ SESSION → storage w' !! k = storage w !! k).
Proof. destruct (logout_spec w Hsync Hcw) as (w' & H1 & H2 & H3 & H4 & _). exists w'. auto. Qed.

(** ** Calls to the server *)

Lemma apause_nil w : asched w = [] → apause w = (Ok tt, w).
Proof. unfold apause. by intros ->. Qed.

(** A token that is sent: none, or the store's, not expired. *)
Definition header_of (w : App) : option (option jsstring) :=
  match token (auth w) with
  | Some t => if truthy t then
                if isTokenExpired (time_now w) t then None else Some (Some (js "Bearer " ++ t))
              else Some None
  | None => Some None
  end.

Lemma request_interceptor_header w h : header_of w = Some h → request_interceptor w = (Ok h, w).
Proof.
  unfold header_of, request_interceptor, getAuth, mbind, M_bind, gets.
  destruct (token (auth w)) as [t|]; [|by intros [= <-]]. destruct (truthy t); [|by intros [= <-]].
  destruct (isTokenExpired _ _); [done|]. by intros [= <-].
Qed.

Lemma request_interceptor_expired w : header_of w = None → in_sync w → cw_ok (chatwoot w) →
  ∃ w', request_interceptor w = (Throw (Error (js "Token expired")), w') ∧ server w' = server w ∧
    (urlHasToken w = false → signed_out w' ∧ navigations w' = navigations w ++ [js "/login"]).
Proof.
  unfold header_of, request_interceptor, getAuth, mbind, M_bind, gets. intros Hh Hs Hc.
  destruct (token (auth w)) as [t|]; [|done]. destruct (truthy t); [|done].
  destruct (isTokenExpired _ _); [|done]. unfold when. destruct (urlHasToken w).
  - exists w. split; [reflexivity|]. by split.
  - destruct (logout_spec w Hs Hc) as (w' & E & [] & _ & _ & _ & Hn & Hsrv & _).
    cbn [negb]. rewrite E. eexists. split; [reflexivity|]. split; [exact Hsrv|]. intros _.
    split; [by split|]. exact (f_equal (λ x, x ++ [js "/login"]) Hn).
Qed.

(** The call up to the reply, when no other task interferes. *)
Lemma documented_call_reply c req w h r s :
  asched w = [] → header_of w = Some h → Session.fetch req h (server w) = (r, s) →
  documented_call c req w =
    match r with
    | None => (error_interceptor None;; throw network_error) (set_server s w)
    | Some r => (response_interceptor r;;
                 if ok_status (http_status r) then mret r
                 else error_interceptor (Some r);; throw (http_error r)) (set_server s w)
    end.
Proof.
  intros Ha Hh Hf. unfold documented_call.
  rewrite (bind_ok _ _ w h w) by (apply try_ok; by apply request_interceptor_header).
  rewrite (bind_ok _ _ w tt w) by (by apply apause_nil).
  rewrite (bind_ok _ _ w r (set_server s w)) by (unfold transmit; by rewrite Hf).
  rewrite (bind_ok _ _ _ tt (set_server s w)) by (by apply apause_nil).
  by destruct r.
Qed.

(** C17: An expired token is never sent: the call fails before the server sees
    it, and unless the page is completing a sign-in by token the session is ended
    and the user taken to the login page; a token that is not expired is sent as
    the Bearer token of exactly the request that was asked for. *)
Theorem expired_token_never_sent (req : Request) (w : App) (Hsync : in_sync w) (Hcw : cw_ok (chatwoot w)) :
  (header_of w = None →
   ∃ w', send req w = (Throw (Error (js "Token expired")), w') ∧ server w' = server w ∧
     (urlHasToken w = false → signed_out w' ∧ navigations w' = navigations w ++ [js "/login"])) ∧
  (∀ h, header_of w = Some h → asched w = [] →
   server (send req w).2 = (Session.fetch req h (server w)).2).
Proof.
  split.
  - intros Hh. destruct (request_interceptor_expired w Hh Hsync Hcw) as (w' & E & Hsrv & Hout).
    rewrite send_spec. unfold documented_call.
    rewrite (bind_throw _ _ w (Error (js "Token expired"))
      (if catches then set_conn (on_no_response (conn w')) w' else w')).
    + eexists. split; [reflexivity|]. destruct catches; [|done]. split; [done|]. intros Hu.
      destruct (Hout Hu) as [[] Hn]. split; [by split|done].
    + unfold try_catch. rewrite E. by destruct catches.
  - intros h Hh Ha. rewrite send_spec. destruct (Session.fetch req h (server w)) as [r s] eqn:Hf.
    rewrite (documented_call_reply catches req w h r s) by done. cbn.
    assert (∀ x, server (set_server s x) = s) as Hs by done.
    destruct r as [r|]; [|done]. unfold response_interceptor.
    assert (server ((if http_status r =? 401 then on_unauthorized r else mret tt)
        (set_conn (on_response (http_status r) (conn w)) (set_server s w))).2 = s) as Hr.
    { destruct (http_status r =? 401); [|done]. unfold on_unauthorized. destruct (is_truthy _).
      - unfold setMfaToken, setAuth, modify. cbn [snd]. by apply put_auth_frame.
      - unfold mbind, M_bind, gets. destruct (negb _ && negb _); [|done].
        set (w1 := set_conn _ _). destruct (logout_spec w1) as (w' & -> & _ & _ & _ & _ & _ & E & _); [done|done|].
        cbn. exact E. }
    revert Hr. unfold mbind, M_bind, on_conn, modify. cbn.
    destruct (http_status r =? 401); [|by destruct (ok_status _)].
    destruct (on_unauthorized r _) as [[[]|e] x]; cbn; [|done]. by destruct (ok_status _).
Qed.

(** ** Other tasks in between *)

Lemma ainterrupt_ok i w : (ainterrupt_run i w).1 = Ok tt.
Proof.
  destruct i as [| | |i|a|f]; try reflexivity. cbn [ainterrupt_run]. unfold lift.
  enough ((interrupt_run i (vault w)).1 = Ok tt) as H by (by destruct (interrupt_run i (vault w))).
  destruct i; try reflexivity. cbn. unfold mbind, M_bind, gets. case_bool_decide; [|done].
  unfold onIdle, mbind, M_bind, peek, gets. case_bool_decide; done.
Qed.

Lemma put_auth_chat f w : chatwoot (put_auth f w) = chatwoot w.
Proof. unfold put_auth, subscriber. by destruct (bool_decide _). Qed.

Lemma ainterrupt_chat i w : cw_ok (chatwoot w) → cw_ok (chatwoot (ainterrupt_run i w).2).
Proof.
  intros H. destruct i as [|t tn r|b|i|a|f]; cbn [ainterrupt_run]; try exact H.
  - rewrite logout_run. cbn [snd]. change (cw_ok (chatwoot (put_auth (λ _, initialState) (before_reset w)))).
    rewrite put_auth_chat. by apply tearDown_ok.
  - unfold setSession, setAuth, modify. cbn [snd]. by rewrite put_auth_chat.
  - unfold updateMfaStatus, setAuth, modify. cbn [snd]. by rewrite put_auth_chat.
  - unfold lift. by destruct (interrupt_run i (vault w)).
Qed.

(** Waiting never fails and leaves the copies of the session and the chat in order. *)
Lemma apause_spec w : in_sync w → cw_ok (chatwoot w) →
  ∃ w', apause w = (Ok tt, w') ∧ in_sync w' ∧ cw_ok (chatwoot w').
Proof.
  intros Hs Hc. pose proof (keeps_run _ _ keeps_apause w Hs) as Hs'.
  assert (∀ l v, cw_ok (chatwoot v) → (ainterrupts_run l v).1 = Ok tt ∧ cw_ok (chatwoot (ainterrupts_run l v).2)) as H.
  { induction l as [|i l IH]; intros v Hv; [done|]. cbn [ainterrupts_run]. unfold mbind, M_bind.
    pose proof (ainterrupt_ok i v) as E. pose proof (ainterrupt_chat i v Hv) as Hi.
    destruct (ainterrupt_run i v) as [r v']. cbn [fst snd] in *. subst r. by apply IH. }
  assert ((apause w).1 = Ok tt ∧ cw_ok (chatwoot (apause w).2)) as [H1 H2].
  { unfold apause. destruct (asched w) as [|l rest]; [done|]. by apply H. }
  exists (apause w).2. split; [|done]. rewrite <-H1. by destruct (apause w).
Qed.

(** The call up to the reply, whatever other tasks do while it waits. *)
Lemma documented_call_awaits c req w h r s w1 w2 :
  header_of w = Some h → apause w = (Ok tt, w1) → Session.fetch req h (server w1) = (Some r, s) →
  apause (set_server s w1) = (Ok tt, w2) →
  documented_call c req w =
    (response_interceptor r;;
     if ok_status (http_status r) then mret r
     else error_interceptor (Some r);; throw (http_error r)) w2.
Proof.
  intros Hh H1 Hf H2. unfold documented_call.
  rewrite (bind_ok _ _ w h w) by (apply try_ok; by apply request_interceptor_header).
  rewrite (bind_ok _ _ w tt w1) by done.
  rewrite (bind_ok _ _ w1 (Some r) (set_server s w1)) by (unfold transmit; by rewrite Hf).
  by rewrite (bind_ok _ _ _ tt w2).
Qed.

(** C32: A reply that rejects the credentials (401 with no second factor asked, on
    a request other than a sign-in) fails the call, whatever other tasks did while
    it was awaited.  Unless the page completes a sign-in by token, it ends the
    session: nothing of the user is left, and the user is taken to the login page.
    On such a page nothing but the connectivity state changes. *)
Theorem unauthorized_reply_signs_out (req : Request) (w : App) (h : option jsstring) (r : HttpResponse) (s : ASrv)
    (Hsync : in_sync w) (Hcw : cw_ok (chatwoot w)) (Hh : header_of w = Some h)
    (Hfetch : Session.fetch req h (server (apause w).2) = (Some r, s))
    (H401 : http_status r = 401) (Hmfa : is_truthy (x_mfa_token r) = false)
    (Hurl : includes (http_url r) (js "/api/login") = false) :
  let replied := (apause (set_server s (apause w).2)).2 in
  ∃ w', send req w = (Throw (http_error r), w') ∧
    if urlHasToken replied then w' = set_conn (on_response 401 (conn replied)) replied
    else signed_out w' ∧ navigations w' = navigations replied ++ [js "/login"].
Proof.
  destruct (apause_spec w Hsync Hcw) as (w1 & E1 & S1 & C1). rewrite E1 in *. cbn [snd] in *.
  destruct (apause_spec (set_server s w1)) as (w2 & E2 & S2 & C2); [done|done|]. rewrite E2. cbn [snd].
  rewrite send_spec, (documented_call_awaits catches req w h r s w1 w2) by done.
  unfold response_interceptor. rewrite H401. unfold mbind, M_bind, on_conn, modify. cbn -[js includes].
  set (w3 := set_conn _ _). unfold on_unauthorized. rewrite Hmfa, Hurl. unfold mbind, M_bind, gets.
  change (urlHasToken w3) with (urlHasToken w2). destruct (urlHasToken w2); cbn [negb andb].
  - eexists. split; [reflexivity|]. reflexivity.
  - destruct (logout_spec w3) as (w' & -> & [] & _ & _ & _ & Hn & _); [done|done|].
    eexists. split; [reflexivity|]. split; [by split|]. cbn -[js]. by rewrite Hn.
Qed.

(** ** Signing in *)

Lemma put_auth_page f w : asched (put_auth f w) = asched w ∧ urlHasToken (put_auth f w) = urlHasToken w ∧
  mfaReset (put_auth f w) = mfaReset w ∧ queryCache (put_auth f w) = queryCache w ∧
  server (put_auth f w) = server w ∧ navigations (put_auth f w) = navigations w.
Proof. unfold put_auth, subscriber. destruct (bool_decide _); repeat split; reflexivity. Qed.

Lemma bind_setAuth {R} f (k : M App R) w : (setAuth f;; k) w = k (put_auth f w).
Proof. reflexivity. Qed.

Lemma bind_data_of {R} r d (k : UserData → M App R) w : http_data r = Some d → (data_of r ≫= k) w = k d w.
Proof. unfold data_of. by intros ->. Qed.

Lemma header_of_anonymous w : token (auth w) = None → header_of w = Some None.
Proof. unfold header_of. by intros ->. Qed.

(** A call of a user who is not signed in, with a reply and no other task. *)
Lemma anonymous_call req w r s : asched w = [] → token (auth w) = None →
  Session.fetch req None (server w) = (Some r, s) →
  send req w = (response_interceptor r;;
                if ok_status (http_status r) then mret r
                else error_interceptor (Some r);; throw (http_error r)) (set_server s w).
Proof.
  intros Ha Ht Hf. rewrite send_spec. by rewrite (documented_call_reply catches req w None (Some r) s)
    by (done || by apply header_of_anonymous).
Qed.

(** The world in which the reply of the server is interpreted. *)
Definition replied (r : HttpResponse) (s : ASrv) (w : App) : App :=
  set_conn (on_response (http_status r) (conn w)) (set_server s w).

Lemma call_success req w r s : asched w = [] → token (auth w) = None →
  Session.fetch req None (server w) = (Some r, s) → ok_status (http_status r) = true →
  send req w = (Ok r, replied r s w).
Proof.
  intros Ha Ht Hf Hok. rewrite (anonymous_call req w r s) by done.
  unfold response_interceptor, mbind, M_bind, on_conn, modify. cbn.
  assert ((http_status r =? 401) = false) as -> by (unfold ok_status in Hok; lia).
  cbn. by rewrite Hok.
Qed.

Lemma call_refused req w r s : asched w = [] → token (auth w) = None →
  Session.fetch req None (server w) = (Some r, s) → ok_status (http_status r) = false → http_status r ≠ 401 →
  send req w = (Throw (http_error r), replied r s w).
Proof.
  intros Ha Ht Hf Hok Hne. rewrite (anonymous_call req w r s) by done. unfold response_interceptor, mbind, M_bind, on_conn, modify. cbn.
  rewrite (proj2 (Z.eqb_neq _ _)) by done. cbn. by rewrite Hok.
Qed.




(** The second factor: with a ticket in the store the code is checked with
    it; on success the token of the reply replaces the ticket, on failure the
    ticket stays for another try, and no token appears; without a ticket nothing
    is sent. *)
Theorem second_factor (code : jsstring) (w : App) :
  (is_truthy (mfaToken (auth w)) = false →
     loginWithMfa code w = (Throw (Error (js "No MFA token available")), w)) ∧
  (∀ t r s, mfaToken (auth w) = Some t → truthy t = true → asched w = [] → token (auth w) = None →
     Session.fetch (RAuthMfa t code) None (server w) = (Some r, s) →
     (∀ d, ok_status (http_status r) = true → http_data r = Some d →
        (loginWithMfa code w).1 = Ok tt ∧ token (auth (loginWithMfa code w).2) = Some (ud_token d) ∧
        mfaToken (auth (loginWithMfa code w).2) = None) ∧
     (ok_status (http_status r) = false → http_status r ≠ 401 →
        (loginWithMfa code w).1 = Throw (Error (js "Invalid verification code")) ∧
        token (auth (loginWithMfa code w).2) = None ∧ mfaToken (auth (loginWithMfa code w).2) = Some t)).
Proof.
  split.
  { intros H. unfold loginWithMfa, getAuth, mbind, M_bind, gets. by rewrite H. }
  intros t r s Ht Htr Hq Htok Hf. unfold loginWithMfa, getAuth.
  rewrite (bind_ok _ _ w (Some t) w) by (unfold gets; by rewrite Ht).
  unfold is_truthy. cbn [default from_option]. rewrite Htr. cbn [negb].
  rewrite !bind_setAuth.
  set (f0 := set_error None ∘ set_loading true). set (w1 := put_auth f0 w).
  destruct (put_auth_spec f0 w) as (A1 & _). destruct (put_auth_page f0 w) as (Q1 & _ & _ & _ & Q5 & _).
  fold w1 in A1, Q1, Q5. rewrite Hq in Q1.
  assert (token (auth w1) = None) as T1 by (by rewrite A1). rewrite <-Q5 in Hf.
  change (default [] (Some t)) with t.
  split.
  - intros d Hok Hd. unfold try_catch. rewrite (bind_ok _ _ _ r (replied r s w1)) by (by apply call_success).
    rewrite (bind_data_of r d) by done. unfold setAuth, modify. cbn [fst snd].
    rewrite (proj1 (put_auth_spec _ _)). change (auth (replied r s w1)) with (auth w1). rewrite A1. done.
  - intros Hok Hne. unfold try_catch. rewrite (bind_throw _ _ _ _ _ (call_refused _ _ _ _ Q1 T1 Hf Hok Hne)), bind_setAuth.
    unfold throw. cbn [fst snd]. rewrite (proj1 (put_auth_spec _ _)).
    change (auth (replied r s w1)) with (auth w1). rewrite A1. done.
Qed.

(** A sign-out while [fetchUser] waits for its reply is partly undone (a
    defect): the reply of the old request puts the identity of the user who left
    back into the store, scopes the recordings to that user again, and writes a
    session record that a reload would pick up; only the token stays away. *)
Theorem fetch_user_undoes_logout (w : App) (h : option jsstring) (r : HttpResponse) (d : UserData) (s : ASrv)
    (Hsync : in_sync w) (Hcw : cw_ok (chatwoot w)) (Hsched : asched w = [[]; [ALogout]])
    (Hh : header_of w = Some h) (Hfetch : Session.fetch RGetUserInfo h (server w) = (Some r, s))
    (Hok : ok_status (http_status r) = true) (Hd : http_data r = Some d) :
  let w' := (fetchUser w).2 in
  (fetchUser w).1 = Ok tt ∧ token (auth w') = None ∧ userId (auth w') = Some (ud_id d) ∧
  recordingsScope w' = Some (ud_id d) ∧
  storage w' !! SESSION = Some (persisted 1 (partialize (set_fetched d initialState))).
Proof.
  set (w1 := set_server s (set_asched [[ALogout]] w)).
  destruct (logout_spec (set_asched [] w1)) as (w2 & E2 & [S1 S2 S3 _ _ _ _ _ _ _ _ _] & _); [done|done|].
  set (w3 := set_conn (on_response (http_status r) (conn w2)) w2).
  assert (send RGetUserInfo w = (Ok r, w3)) as E.
  { rewrite send_spec. unfold documented_call.
    rewrite (bind_ok _ _ w h w) by (apply try_ok; by apply request_interceptor_header).
    rewrite (bind_ok _ _ w tt (set_asched [[ALogout]] w)) by (unfold apause; by rewrite Hsched).
    rewrite (bind_ok _ _ _ (Some r) w1) by (unfold transmit; cbn; by rewrite Hfetch).
    rewrite (bind_ok _ _ _ tt w2).
    2: { unfold apause, w1 at 1. cbn [asched set_server set_asched].
         cbn [ainterrupts_run ainterrupt_run]. by rewrite (bind_ok _ _ _ tt w2). }
    unfold response_interceptor, mbind, M_bind, on_conn, modify. cbn.
    assert ((http_status r =? 401) = false) as -> by (unfold ok_status in Hok; lia). cbn. by rewrite Hok. }
  unfold fetchUser, try_catch. rewrite (bind_ok _ _ _ _ _ E), (bind_data_of r d) by done.
  unfold setAuth, modify. cbn [fst snd].
  destruct (put_auth_spec (set_fetched d) w3) as (B1 & _ & _ & B4 & B5).
  change (auth w3) with (auth w2) in *. change (recordingsScope w3) with (recordingsScope w2) in *.
  change (storage w3) with (storage w2) in *. rewrite S1 in *. cbn zeta. rewrite B1, B4, B5.
  rewrite lookup_insert_eq. done.
Qed.

End Facts.
