(* ===== verification/SessionExamples.v ===== *)
(** * The session on concrete collaborators

    A server that answers from a script, the persist middleware and the client
    as documented, and the theorems of [SessionFacts] applied to them. *)

From S2P Require Import Prelude JsString JsJson JsEncoding JsDate Permission VaultTypes VaultTracker.
From S2P Require Import VaultWorld VaultCrypto VaultToy Terminal Chatwoot Connectivity AuthTypes Session SessionFacts.

(** The replies to come; the network fails when there is none. *)
Definition script_server : AuthServer := {|
  ASrv := list HttpResponse;
  fetch _ _ s := match s with [] => (None, []) | r :: s => (Some r, s) end;
|}.

Definition json_persist : Persist := {|
  persist_write n v j s := <[n := persisted v j]> s;
|}.

Lemma json_persist_laws : @PersistLaws json_persist.
Proof. by split. Qed.

#[local] Existing Instances toy_crypto toy_api script_server json_persist json_persist_laws.
#[local] Instance community_platform : Platform := toy_platform community.

Definition documented_client : HttpClient := {| send := documented_call true |}.
#[local] Existing Instance documented_client.

Lemma documented_client_laws : HttpClientLaws.
Proof. by exists true. Qed.
#[local] Existing Instance documented_client_laws.

(** A fresh page, nobody signed in. *)
Definition blank_world : World :=
  mkWorld ∅ None ∅ None initial_state (initial 1700000000000) None None 0 [].
Definition blank_app (srv : list HttpResponse) (sch : list (list ainterrupt)) : App :=
  mkApp initialState mfaReset_initial blank_world initial_terminals ∅ initial_chatwoot
    (initial_conn 1700000000000) None [js "devices"] [] false srv sch.

(** A token that expires at the given second. *)
Definition token_until (exp : Z) : jsstring := jwt (js "h") (JObj [(js "exp", JNum (Dec exp 0))]) (js "s").

Definition alice_data (exp : Z) : UserData :=
  mkUserData (token_until exp) (js "alice") (js "id-alice") (js "a@x.io") (js "dev") (js "Alice") None None None None.

(** The same page with Alice signed in. *)
Definition alice_app (exp : Z) (srv : list HttpResponse) (sch : list (list ainterrupt)) : App :=
  put_auth (set_identity (alice_data exp)) (blank_app srv sch).

Definition reply_ok : HttpResponse :=
  mkResponse 200 (js "/api/user") None None (Some (alice_data 1800000000)) [].
Definition reply_401 : HttpResponse := mkResponse 401 (js "/api/devices") None None None [].

Lemma blank_sync srv sch : in_sync (blank_app srv sch).
Proof. by split. Qed.
Lemma alice_sync exp srv sch : in_sync (alice_app exp srv sch).
Proof. apply put_auth_sync, blank_sync. Qed.
Lemma blank_widget : cw_ok initial_chatwoot.
Proof. split; [simpl; lia|done]. Qed.

Lemma session_in_sync_witness :
  in_sync (srun [SLogin (js "alice") (js "pw"); SFetchUser; SLogout]
             (blank_app [reply_ok; reply_ok] [[]; [AUpdateMfaStatus true]; []; [ALogout]])).
Proof. apply session_in_sync, blank_sync. Defined.

(** Alice with the auto-lock running, a timer pending. *)
Definition alice_unlocked : App :=
  let w := alice_app 1800000000 [] [] in
  set_vault (set_tracker (start (mkOptions 60000 true 5000) (tracker (vault w))) (vault w)) w.
Lemma alice_tracked : tracked (tracker (vault alice_unlocked)).
Proof. apply tracked_start, tracked_initial. Qed.

Lemma logout_signs_out_witness :
  ∃ w', logout alice_unlocked = (Ok tt, w') ∧ signed_out w' ∧ timers (tracker (vault w')) = ∅.
Proof.
  destruct (logout_signs_out alice_unlocked (alice_sync _ _ _) blank_widget alice_tracked) as (w' & H1 & H2 & H3 & _).
  exists w'. split; [exact H1|]. split; [exact H2|exact H3].
Defined.

Lemma expired_token_witness :
  ∃ w', send RGetUserInfo (alice_app 1600000000 [reply_ok] []) = (Throw (Error (js "Token expired")), w') ∧
        server w' = [reply_ok].
Proof.
  destruct (proj1 (expired_token_never_sent RGetUserInfo (alice_app 1600000000 [reply_ok] [])
    (alice_sync _ _ _) blank_widget)) as (w' & H1 & H2 & _); [vm_compute; reflexivity|].
  exists w'. split; [exact H1|exact H2].
Defined.

Lemma unauthorized_reply_witness :
  ∃ w', send RGetUserInfo (alice_app 1800000000 [reply_401] [[]; [AUpdateMfaStatus true]]) =
          (Throw (http_error reply_401), w') ∧ signed_out w'.
Proof.
  destruct (unauthorized_reply_signs_out RGetUserInfo (alice_app 1800000000 [reply_401] [[]; [AUpdateMfaStatus true]])
    (Some (js "Bearer " ++ token_until 1800000000)) reply_401 [] (alice_sync _ _ _) blank_widget)
    as (w' & H1 & H2 & _); try (vm_compute; reflexivity).
  exists w'. split; [exact H1|exact H2].
Defined.


Lemma second_factor_witness :
  token (auth (loginWithMfa (js "123456")
    (put_auth (set_mfaToken (Some (js "ticket"))) (blank_app [reply_ok] []))).2) = Some (token_until 1800000000).
Proof.
  apply (proj1 (proj2 (second_factor (js "123456")
    (put_auth (set_mfaToken (Some (js "ticket"))) (blank_app [reply_ok] [])))
    (js "ticket") reply_ok [] eq_refl eq_refl eq_refl eq_refl eq_refl)
    (alice_data 1800000000) eq_refl eq_refl).
Defined.

Lemma fetch_user_undoes_logout_witness :
  userId (auth (fetchUser (alice_app 1800000000 [reply_ok] [[]; [ALogout]])).2) = Some (js "id-alice").
Proof.
  destruct (fetch_user_undoes_logout (alice_app 1800000000 [reply_ok] [[]; [ALogout]])
    (Some (js "Bearer " ++ token_until 1800000000)) reply_ok (alice_data 1800000000) []
    (alice_sync _ _ _) blank_widget eq_refl) as (_ & _ & H & _); [vm_compute; reflexivity..|exact H].
Defined.
