(* ===== verification/RecordingsFacts.v ===== *)
(** * Theorems about local recordings

    A finished recording replays: its file decodes, line by line, to the header
    and exactly the recorded events; its sidecar reads back; and no operation of
    one user touches the files of another. *)

From Stdlib Require Import Sorted.
From S2P Require Import Prelude JsString JsJson JsEncoding Recordings.

(** ** Lines *)

#[local] Open Scope N_scope.

Lemma escape_char_not_10 c e : escape_char c = Some e → e ≠ 10.
Proof.
  unfold escape_char. intros H.
  repeat (case_match; [injection H as <-; done|]). done.
Qed.

Lemma escape_char_10 : escape_char 10 = Some 110.
Proof. by vm_compute. Qed.

Lemma hex_digit_not_10 n : hex_digit n ≠ 10.
Proof. unfold hex_digit. destruct (n <? 10); lia. Qed.

Lemma unicode_escape_no_10 c : 10 ∉ unicode_escape c.
Proof.
  unfold unicode_escape, hex4. rewrite !not_elem_of_cons.
  repeat (split; [done || (apply not_eq_sym, hex_digit_not_10)|]). apply not_elem_of_nil.
Qed.

Lemma quote_body_no_10_le n s : (length s <= n)%nat → 10 ∉ quote_body s.
Proof.
  revert s. induction n as [|n IH]; intros [|c r] Hl; try (apply not_elem_of_nil || (simpl in Hl; lia)).
  assert (10 ∉ quote_body r) as Hr by (apply IH; simpl in Hl; lia). cbn [quote_body].
  destruct (escape_char c) as [e|] eqn:Ee.
  - rewrite !not_elem_of_cons. split; [done|]. split; [by apply not_eq_sym, (escape_char_not_10 c)|done].
  - assert (c ≠ 10) as Hc by (intros ->; by rewrite escape_char_10 in Ee).
    assert (10 ∉ unicode_escape c ++ quote_body r) as Hu.
    { rewrite not_elem_of_app. split; [apply unicode_escape_no_10|done]. }
    destruct (c <? 32); [done|]. destruct (is_low_surrogate c); [done|].
    destruct (is_high_surrogate c); [|apply not_elem_of_cons; auto].
    destruct r as [|d r']; [apply unicode_escape_no_10|]. destruct (is_low_surrogate d) eqn:Ed; [|done].
    apply not_elem_of_cons. split; [done|]. apply not_elem_of_cons. split; [intros <-; done|].
    apply IH. simpl in Hl. lia.
Qed.

Lemma quote_no_10 s : 10 ∉ quote s.
Proof.
  unfold quote. apply not_elem_of_cons. split; [done|]. apply not_elem_of_app.
  split; [by eapply quote_body_no_10_le|]. rewrite list_elem_of_singleton. done.
Qed.

Lemma join_no_10 l : Forall (λ s, 10 ∉ s) l → 10 ∉ join [44] l.
Proof.
  induction 1 as [|s l Hs Hl IH]; [apply not_elem_of_nil|]. destruct l as [|x l]; [done|].
  change (join [44] (s :: x :: l)) with (s ++ [44] ++ join [44] (x :: l)).
  rewrite !not_elem_of_app. split; [done|]. split; [|done]. rewrite list_elem_of_singleton. done.
Qed.

Lemma digits_no_10 s : Forall (λ c, is_digit c = true) s → 10 ∉ s.
Proof. intros H Hin. rewrite Forall_forall in H. by apply H in Hin. Qed.

Lemma num_to_string_no_10 m k : 10 ∉ num_to_string (Dec m k).
Proof.
  assert (∀ b : bool, 10 ∉ (if b then [45] else [])) as Hs.
  { intros []; [|apply not_elem_of_nil]. rewrite list_elem_of_singleton. done. }
  unfold num_to_string. destruct k as [|k].
  - destruct (Z_to_string_shape m) as (neg & ds & -> & -> & _). rewrite not_elem_of_app.
    split; [apply Hs|apply digits_no_10, digitsN_digits].
  - rewrite !not_elem_of_app. split; [apply Hs|]. split; [apply digits_no_10, digitsN_digits|].
    split; [rewrite list_elem_of_singleton; done|]. apply digits_no_10, pad_left_digits, digitsN_digits.
Qed.

(** JSON text is one line. *)
Lemma stringify_no_10 j : 10 ∉ stringify j.
Proof.
  assert (∀ s : jsstring, bool_decide (10%N ∉ s) = true → 10%N ∉ s) as Hlit.
  { intros s. apply bool_decide_eq_true_1. }
  induction j as [| [] | [| |m k] |s|l IH|l IH] using json_ind'; cbn [stringify].
  1-5: apply Hlit; vm_compute; reflexivity.
  - apply num_to_string_no_10.
  - apply quote_no_10.
  - apply not_elem_of_cons. split; [done|]. apply not_elem_of_app.
    split; [|rewrite list_elem_of_singleton; done]. apply join_no_10. by apply Forall_map.
  - apply not_elem_of_cons. split; [done|]. apply not_elem_of_app.
    split; [|rewrite list_elem_of_singleton; done]. apply join_no_10. apply Forall_map.
    eapply Forall_impl; [exact IH|]. intros [k v] H. cbn [fst snd] in *.
    apply not_elem_of_app. split; [apply quote_no_10|]. apply not_elem_of_cons. split; [done|exact H].
Qed.

(** The lines of a text that ends in a newline. *)
Definition text_lines (s : jsstring) : list jsstring := removelast (split s 10).

Lemma text_lines_concat l : Forall (λ s, 10 ∉ s) l → text_lines (concat (map (λ s, s ++ [10]) l)) = l.
Proof.
  intros H. unfold text_lines.
  assert (split (concat (map (λ s, s ++ [10]) l)) 10 = l ++ [[]]) as ->; [|apply removelast_last].
  induction H as [|s l Hs Hl IH]; [done|]. cbn [map concat]. rewrite <-app_assoc. cbn [app].
  rewrite split_sep by done. by rewrite IH.
Qed.

(** ** The recorder *)

#[local] Close Scope N_scope.

(** What the terminal does while it is recorded, with the time it does it;
    [EChain] is the next pending write. *)
Inductive tevent :=
  | EOutput (now : Z) (text : jsstring)
  | EResize (now cols rows : Z)
  | EUid (u : jsstring)
  | EChain.

Definition tstep (r : Recorder) (e : tevent) : Recorder :=
  match e with
  | EOutput now text => recordOutput now text r
  | EResize now c h => recordResize now c h r
  | EUid u => setSessionUid u r
  | EChain => chain_step true r
  end.

(** The JSON of the events, for a recording that began at [t0]. *)
Definition event_json (t0 : Z) (e : tevent) : option json :=
  match e with
  | EOutput now text => Some (JArr [JNum (seconds (now - t0)); JStr (js "o"); JStr text])
  | EResize now c h => Some (JArr [JNum (seconds (now - t0)); JStr (js "r");
                                   JStr (Z_to_string c ++ js "x" ++ Z_to_string h)])
  | _ => None
  end.

Definition header_json (t0 cols rows : Z) : json :=
  JObj [(js "version", jint 2); (js "width", jint cols); (js "height", jint rows); (js "timestamp", jint (t0 / 1000))].

Definition cast_json (t0 cols rows : Z) (l : list tevent) : list json :=
  header_json t0 cols rows :: omap (event_json t0) l.

Definition line_of (j : json) : jsstring := stringify j ++ [10%N].

(** Nothing is lost or reordered between the terminal and the stream. *)
Record recording (t0 cols rows : Z) (js_ : list json) (r : Recorder) : Prop := {
  rec_started : r_started r = true;
  rec_ok : r_failed r = false;
  rec_start : r_startMs r = t0;
  rec_dims : r_cols r = cols ∧ r_rows r = rows;
  rec_lines : r_written r ++ r_chain r = map line_of js_;
  rec_count : S (r_count r) = length js_;
}.

Lemma recording_event t0 cols rows js_ r now e :
  recording t0 cols rows js_ r →
  recording t0 cols rows (js_ ++ [e (seconds (now - t0))]) (record_event now (λ x, line_of (e x)) r).
Proof.
  intros [H1 H2 H3 H4 H5 H6]. unfold record_event. rewrite H1, H2. cbn [negb orb].
  split; cbn; try done.
  - rewrite app_assoc, H5, map_app. unfold elapsed. by rewrite H3.
  - rewrite length_app. simpl. lia.
Qed.

Lemma recording_step t0 cols rows js_ r e : recording t0 cols rows js_ r →
  recording t0 cols rows (js_ ++ omap (event_json t0) [e]) (tstep r e).
Proof.
  intros H. destruct e as [now text|now c h|u|]; cbn [tstep omap list_omap event_json].
  - by apply (recording_event t0 cols rows js_ r now (λ x, JArr [JNum x; JStr (js "o"); JStr text])).
  - by apply (recording_event t0 cols rows js_ r now
      (λ x, JArr [JNum x; JStr (js "r"); JStr (Z_to_string c ++ js "x" ++ Z_to_string h)])).
  - rewrite app_nil_r. by destruct H.
  - rewrite app_nil_r. destruct H as [H1 H2 H3 H4 H5 H6]. unfold chain_step.
    destruct (r_chain r) as [|x rest] eqn:E; split; cbn; try done; rewrite ?H2, ?E; try done.
    by rewrite <-app_assoc.
Qed.

Lemma recording_run t0 cols rows l js_ r : recording t0 cols rows js_ r →
  recording t0 cols rows (js_ ++ omap (event_json t0) l) (fold_left tstep l r).
Proof.
  revert js_ r. induction l as [|e l IH]; intros js_ r H; [by rewrite app_nil_r|].
  cbn [fold_left]. apply (recording_step _ _ _ _ _ e) in H. apply IH in H.
  rewrite <-app_assoc in H. cbn [omap list_omap] in *. by destruct (event_json t0 e).
Qed.

Lemma recording_start i dir n u us su t0 cols rows :
  recording t0 cols rows [header_json t0 cols rows] (start t0 cols rows (new_recorder i dir n u us su)).
Proof. by split. Qed.

Lemma drain_all n t0 cols rows js_ r : (length (r_chain r) <= n)%nat → recording t0 cols rows js_ r →
  let r' := drain (replicate n true) r in
  r_written r' = map line_of js_ ∧ r_count r' = r_count r ∧ r_dir r' = r_dir r ∧ r_id r' = r_id r ∧
  r_deviceName r' = r_deviceName r ∧ r_deviceUid r' = r_deviceUid r ∧ r_username r' = r_username r ∧
  r_sessionUid r' = r_sessionUid r ∧ r_cols r' = r_cols r ∧ r_rows r' = r_rows r ∧
  r_lastElapsed r' = r_lastElapsed r ∧ r_startMs r' = r_startMs r.
Proof.
  revert r. induction n as [|n IH]; intros r Hn H; cbn [replicate drain].
  - destruct H as [_ _ _ _ H _]. destruct (r_chain r); [|simpl in Hn; lia]. rewrite app_nil_r in H. done.
  - apply (recording_step _ _ _ _ _ EChain) in H. cbn [tstep omap list_omap event_json] in H.
    rewrite app_nil_r in H. cbn zeta in *.
    destruct (IH (chain_step true r)) as (E1 & E2 & E3 & E4 & E5 & E6 & E7 & E8 & E9 & E10 & E11 & E12); [|done|].
    + unfold chain_step. destruct (r_chain r) eqn:E; cbn; rewrite ?E; simpl in *; lia.
    + rewrite E1, E2, E3, E4, E5, E6, E7, E8, E9, E10, E11, E12.
      unfold chain_step. by destruct (r_chain r).
Qed.

(** ** A finished recording replays *)

Section Replay.
Variable format_now : Z → jsstring.
Variable unicode_lower : N → jsstring.

(** Times and sizes the language holds exactly. *)
Definition safe (z : Z) : Prop := Z.abs z <= 2 ^ 53.

Lemma safe_overflow z : safe z → Z.abs z < overflow_bound.
Proof. unfold safe. intros H. eapply Z.le_lt_trans; [exact H|]. by vm_compute. Qed.

Lemma int_wf z : safe z → json_wf (jint z) = true.
Proof.
  intros H%safe_overflow. cbn. apply andb_true_iff. split; [|done].
  apply Z.ltb_lt. change (Z.of_nat 0) with 0. rewrite Z.pow_0_r, Z.mul_1_r. exact H.
Qed.

Lemma dec_norm_wf m k : Z.abs m < overflow_bound * 10 ^ Z.of_nat k → num_wf (dec_norm m k) = true.
Proof.
  revert m. induction k as [|k IH]; intros m H; cbn [dec_norm].
  - unfold num_wf. rewrite (proj2 (Z.ltb_lt _ _)) by done. done.
  - destruct (Z.eqb_spec (m mod 10) 0) as [E|E].
    + apply IH. rewrite Nat2Z.inj_succ, Z.pow_succ_r in H by lia.
      assert (m = 10 * (m / 10)) as Hm by (pose proof (Z.div_mod m 10); lia).
      rewrite Hm, Z.abs_mul in H. change (Z.abs 10) with 10 in H.
      set (x := overflow_bound * 10 ^ Z.of_nat k) in *.
      replace (overflow_bound * (10 * 10 ^ Z.of_nat k)) with (10 * x) in H by (unfold x; ring). lia.
    + unfold num_wf. rewrite (proj2 (Z.ltb_lt _ _)) by done. by rewrite (proj2 (Z.eqb_neq _ _)).
Qed.

Lemma seconds_wf ms : safe ms → num_wf (seconds ms) = true.
Proof.
  intros H%safe_overflow. apply dec_norm_wf. change (10 ^ Z.of_nat 3) with 1000. lia.
Qed.

(** An event at a time the clock can show. *)
Definition timely (t0 : Z) (e : tevent) : Prop :=
  match e with EOutput now _ | EResize now _ _ => safe (now - t0) | _ => True end.

Lemma event_json_wf t0 e j : timely t0 e → event_json t0 e = Some j → json_wf j = true.
Proof.
  destruct e; cbn [timely event_json]; intros H E; simplify_eq; cbn [json_wf forallb]; by rewrite seconds_wf.
Qed.

Lemma cast_json_wf t0 cols rows l : safe t0 → safe cols → safe rows → Forall (timely t0) l →
  Forall (λ j, json_wf j = true) (cast_json t0 cols rows l).
Proof.
  intros Ht Hc Hr Hl. apply Forall_cons. split.
  - unfold header_json. cbn [json_wf]. apply andb_true_iff. split; [by vm_compute|].
    cbn [forallb snd]. rewrite !int_wf; [done| |done|done|done].
    unfold safe in *. pose proof (Z.abs_le t0 (2 ^ 53)). apply Z.abs_le.
    assert (- 2 ^ 53 <= t0 <= 2 ^ 53) by tauto. Z.to_euclidean_division_equations. lia.
  - induction Hl as [|e l He Hl IH]; [apply Forall_nil_2|]. cbn [omap list_omap].
    destruct (event_json t0 e) eqn:E; [|done]. apply Forall_cons_2; [|done]. by eapply event_json_wf.
Qed.

Lemma last_elapsed_wf t0 cols rows l js_ r : recording t0 cols rows js_ r → Forall (timely t0) l →
  num_wf (r_lastElapsed r) = true → num_wf (r_lastElapsed (fold_left tstep l r)) = true.
Proof.
  intros H Hl. revert js_ r H. induction Hl as [|e l He Hl IH]; intros js_ r H Hr; [done|]. cbn [fold_left].
  eapply IH; [by apply (recording_step _ _ _ js_ _ e)|].
  destruct H as [H1 H2 H3 _ _ _].
  destruct e as [now text|now c h|u|]; cbn [tstep timely] in *.
  - unfold recordOutput, record_event, elapsed. rewrite H1, H2, H3. cbn. by apply seconds_wf.
  - unfold recordResize, record_event, elapsed. rewrite H1, H2, H3. cbn. by apply seconds_wf.
  - done.
  - unfold chain_step. by destruct (r_chain r).
Qed.

Lemma mapM_parse_lines l : Forall (λ j, json_wf j = true) l →
  mapM parse (text_lines (concat (map line_of l))) = Some l.
Proof.
  intros H. assert (map line_of l = map (λ s, s ++ [10%N]) (map stringify l)) as ->.
  { by rewrite map_map. }
  rewrite text_lines_concat.
  - induction H as [|j l Hj Hl IH]; [done|]. cbn. rewrite parse_stringify by done. cbn. by rewrite IH.
  - apply Forall_map, Forall_true. intros j. apply stringify_no_10.
Qed.

(** *** The sidecar *)

Lemma meta_of_meta_json m : meta_of_json (meta_json m) = Some m.
Proof. destruct m as [i f n u us [su|] w h d c s]; reflexivity. Qed.

Lemma meta_json_wf m : safe (m_width m) → safe (m_height m) → safe (m_createdAt m) → safe (m_size m) →
  num_wf (m_durationSec m) = true → json_wf (meta_json m) = true.
Proof.
  intros Hw Hh Hc Hs Hd. unfold meta_json. cbn [json_wf]. apply andb_true_iff.
  split; [by destruct (m_sessionUid m); vm_compute|]. rewrite !forallb_app.
  destruct (m_sessionUid m); cbn [forallb snd json_wf andb]; rewrite !int_wf, Hd by done; done.
Qed.

Lemma cast_ne_json i : cast_name i ≠ json_name i.
Proof. unfold cast_name, json_name. intros H%app_inv_head. by vm_compute in H. Qed.

(** C22: A finished recording replays: if the stream accepted the writes, the
    stored file, split into lines and parsed, is the asciicast header followed by
    exactly the recorded outputs and resizes, in order, with their times in
    seconds; the sidecar reads back to the returned metadata; and only the
    directory captured when the recording began has changed, even if the user
    signed out meanwhile. *)
Theorem recording_replays (i dir dn du us : jsstring) (su : option jsstring) (t0 cols rows : Z)
    (l : list tevent) (n : nat) (w : Rec)
    (Hsafe : safe t0 ∧ safe cols ∧ safe rows) (Htimes : Forall (timely t0) l)
    (Hsome : omap (event_json t0) l ≠ []) :
  let r := fold_left tstep l (start t0 cols rows (new_recorder i dir dn du us su)) in
  (length (r_chain r) <= n)%nat →
  ∃ meta w' c s, finish format_now unicode_lower (replicate n true) true true r w = (Ok (Some meta), w') ∧
    files dir w' !! cast_name i = Some c ∧ mapM parse (text_lines c) = Some (cast_json t0 cols rows l) ∧
    files dir w' !! json_name i = Some s ∧ parse s ≫= meta_of_json = Some meta ∧
    (∀ d, d ≠ dir → opfs w' !! d = opfs w !! d).
Proof.
  intros r Hn. destruct Hsafe as (Ht & Hc & Hr).
  pose proof (recording_start i dir dn du us su t0 cols rows) as H0.
  assert (num_wf (r_lastElapsed r) = true) as Hlast by (by eapply last_elapsed_wf).
  apply (recording_run _ _ _ l) in H0. fold r in H0. cbn [app] in H0. fold (cast_json t0 cols rows l) in H0.
  destruct (drain_all n _ _ _ _ r Hn H0) as (E1 & E2 & E3 & E4 & _ & _ & _ & _ & E9 & E10 & E11 & E12).
  assert (r_dir r = dir ∧ r_id r = i) as [Hdir Hid].
  { unfold r. assert (∀ x, r_dir (fold_left tstep l x) = r_dir x ∧ r_id (fold_left tstep l x) = r_id x) as Hx.
    { clear. induction l as [|e l IH]; intros x; [done|]. cbn [fold_left]. destruct (IH (tstep x e)) as [-> ->].
      destruct e; cbn [tstep]; unfold recordOutput, recordResize, record_event, chain_step; by repeat case_match. }
    apply Hx. }
  destruct H0 as [_ _ R3 [R4 R5] _ R6].
  unfold finish. cbn zeta. set (r' := drain (replicate n true) r) in *. cbn [negb].
  assert ((r_count r' =? 0)%nat = false) as Hcount.
  { apply Nat.eqb_neq. rewrite E2. intros Hz. rewrite Hz in R6. unfold cast_json in R6. simpl in R6.
    destruct (omap (event_json t0) l); [done|simpl in R6; lia]. }
  rewrite Hcount. set (meta := meta_of format_now unicode_lower (rec_now w) r').
  set (c := concat (r_written r')). set (s := stringify (meta_json meta)).
  assert (files (r_dir r') (set_opfs (<[r_dir r' := <[cast_name (r_id r') := c]> (files (r_dir r') w)]> (opfs w)) w)
    = <[cast_name (r_id r') := c]> (files (r_dir r') w)) as F1.
  { unfold files at 1. cbn. by rewrite lookup_insert_eq. }
  eexists meta, _, c, s. split; [reflexivity|].
  rewrite E3, E4, Hdir, Hid in *.
  split; [|split; [|split; [|split]]].
  - unfold files at 1. cbn. rewrite lookup_insert_eq. cbn. rewrite lookup_insert_ne by apply not_eq_sym, cast_ne_json.
    rewrite F1. apply lookup_insert_eq.
  - unfold c. rewrite E1. apply mapM_parse_lines. by apply cast_json_wf.
  - unfold files at 1. cbn. rewrite lookup_insert_eq. cbn. apply lookup_insert_eq.
  - unfold s. rewrite parse_stringify; [apply meta_of_meta_json|]. unfold meta. apply meta_json_wf; cbn.
    + by rewrite E9, R4.
    + by rewrite E10, R5.
    + by rewrite E12, R3.
    + by vm_compute.
    + by rewrite E11.
  - intros d Hd. cbn. rewrite !lookup_insert_ne by congruence. done.
Qed.

End Replay.

(** ** Users do not see each other's recordings *)

Section Isolation.
Variable format_now : Z → jsstring.
Variable unicode_lower : N → jsstring.
Variables (u : jsstring) (others : jsstring → option (gmap jsstring jsstring)).

(** The page of user [u], with the directories of everybody else as given. *)
Definition page_of (w : Rec) : Prop :=
  userScope w = Some u ∧ ∀ d, d ≠ u → opfs w !! d = others d.

Lemma keeps_dir {A} (f : jsstring → M Rec A) : keeps page_of (f u) → keeps page_of (recordingsDir ≫= f).
Proof.
  intros [Hf]. split. intros w [Hu Ho]. unfold recordingsDir, mbind, M_bind. rewrite Hu.
  destruct (truthy u); [|done]. apply Hf. split; [done|]. intros d Hd. cbn. rewrite lookup_insert_ne by congruence.
  by apply Ho.
Qed.

Lemma keeps_put_file n c : keeps page_of (put_file u n c).
Proof. apply keeps_modify. intros w [Hu Ho]. split; [done|]. intros d Hd. cbn. rewrite lookup_insert_ne by congruence. by apply Ho. Qed.

Lemma keeps_removeEntry n : keeps page_of (removeEntry u n).
Proof.
  apply keeps_modify. intros w [Hu Ho]. destruct (opfs w !! u); [|done]. split; [done|]. intros d Hd. cbn.
  rewrite lookup_insert_ne by congruence. by apply Ho.
Qed.

Lemma keeps_read_file n : keeps page_of (read_file u n).
Proof. split. intros w Hw. unfold read_file. by destruct (files u w !! n). Qed.

#[local] Hint Resolve keeps_put_file keeps_removeEntry keeps_read_file : keeps.

Lemma keeps_scoped : keeps page_of scoped.
Proof. unfold scoped, isRecordingSupported. keeping. Qed.
Lemma keeps_deleteRecording i : keeps page_of (deleteRecording i).
Proof. unfold deleteRecording. apply keeps_dir. keeping. Qed.
Lemma keeps_listRecordings : keeps page_of listRecordings.
Proof.
  unfold listRecordings. apply keeps_bind; [apply keeps_scoped|]. intros b. destruct (negb b); [apply keeps_ret|].
  apply keeps_dir. keeping.
Qed.
Lemma keeps_delete_all l : keeps page_of (delete_all l).
Proof. induction l; cbn [delete_all]; [apply keeps_ret|]. apply keeps_bind; [apply keeps_deleteRecording|done]. Qed.
#[local] Hint Resolve keeps_scoped keeps_deleteRecording keeps_listRecordings keeps_delete_all : keeps.

Lemma keeps_clearRecordings : keeps page_of clearRecordings.
Proof.
  unfold clearRecordings. apply keeps_bind; [apply keeps_scoped|]. intros b. destruct (negb b); [apply keeps_ret|].
  apply keeps_dir, keeps_modify.
  intros w [Hu Ho]. split; [done|]. intros d Hd. cbn. rewrite lookup_insert_ne by congruence. by apply Ho.
Qed.
Lemma keeps_pruneRecordings n : keeps page_of (pruneRecordings n).
Proof. unfold pruneRecordings. keeping. Qed.
Lemma keeps_downloadRecording m : keeps page_of (downloadRecording m).
Proof. unfold downloadRecording. apply keeps_dir. keeping. Qed.
Lemma keeps_create i dn du us su : keeps page_of (create i dn du us su).
Proof. unfold create. apply keeps_dir. keeping. Qed.

(** The store's actions, in any order. *)
Inductive raction :=
  | RRefresh | RRemove (i : jsstring) | RClearAll | RRetention (days : option Z)
  | RDownload (m : RecordingMeta) | RNotify (m : RecordingMeta) | RClearNotice
  | RCreate (i dn du us : jsstring) (su : option jsstring).

Definition rrun1 (a : raction) : M RecordingsState unit :=
  match a with
  | RRefresh => refresh
  | RRemove i => remove i
  | RClearAll => clearAll
  | RRetention d => setRetentionDays d
  | RDownload m => download m;; mret tt
  | RNotify m => notify m
  | RClearNotice => clearNotice
  | RCreate i dn du us su => on_page (create i dn du us su);; mret tt
  end.

Definition rrun (l : list raction) (s : RecordingsState) : RecordingsState :=
  fold_left (λ s a, (rrun1 a s).2) l s.

Definition store_of (s : RecordingsState) : Prop := page_of (rs_page s).

Lemma keeps_on_page {A} (m : M Rec A) : keeps page_of m → keeps store_of (on_page m).
Proof.
  intros [H]. split. intros s Hs. unfold on_page. specialize (H _ Hs). by destruct (m (rs_page s)).
Qed.

Lemma keeps_refresh : keeps store_of refresh.
Proof.
  unfold refresh. apply keeps_bind; [by apply keeps_modify|]. intros _. apply keeps_finally; [|by apply keeps_modify].
  apply keeps_bind; [apply keeps_gets|]. intros d. apply keeps_bind.
  { destruct d; [apply keeps_on_page, keeps_pruneRecordings|apply keeps_ret]. }
  intros _. apply keeps_bind; [apply keeps_on_page, keeps_listRecordings|]. intros. by apply keeps_modify.
Qed.

Lemma keeps_rrun1 a : keeps store_of (rrun1 a).
Proof.
  assert (∀ f : RecordingsState → RecordingsState, (∀ s, rs_page (f s) = rs_page s) → keeps store_of (modify f)) as Hm.
  { intros f Hf. apply keeps_modify. intros s Hs. unfold store_of. by rewrite Hf. }
  destruct a; cbn [rrun1].
  - apply keeps_refresh.
  - apply keeps_bind; [apply keeps_on_page, keeps_deleteRecording|]. intros _. by apply Hm.
  - apply keeps_bind; [apply keeps_on_page, keeps_clearRecordings|]. intros _. by apply Hm.
  - apply keeps_bind; [by apply Hm|]. intros _. apply keeps_bind; [by apply Hm|]. intros _.
    apply keeps_try; [apply keeps_refresh|]. intros _. apply keeps_ret.
  - apply keeps_bind; [apply keeps_on_page, keeps_downloadRecording|]. intros _. apply keeps_ret.
  - apply keeps_bind; [by apply Hm|]. intros _. apply keeps_try; [apply keeps_refresh|]. intros _. apply keeps_ret.
  - by apply Hm.
  - apply keeps_bind; [apply keeps_on_page, keeps_create|]. intros _. apply keeps_ret.
Qed.

Lemma rrun_store l s : store_of s → store_of (rrun l s).
Proof. revert s. induction l as [|a l IH]; intros s Hs; [done|]. apply IH. by apply (keeps_run _ _ (keeps_rrun1 a)). Qed.

(** A listing is made of the user's own sidecars. *)
Lemma list_own w l w' : userScope w = Some u → listRecordings w = (Ok l, w') →
  l = [] ∨ l = sort_metas (omap (read_entry (files u w)) (map_to_list (files u w))).
Proof.
  intros Hu. unfold listRecordings, scoped, isRecordingSupported, mbind, M_bind, gets. cbn. rewrite Hu.
  destruct (negb _) eqn:E; [intros [= <- _]; by left|]. unfold recordingsDir. rewrite Hu.
  destruct (truthy u) eqn:Et; [|done]. intros [= <- _]. right.
  assert (files u (set_opfs (<[u := default ∅ (opfs w !! u)]> (opfs w)) w) = files u w) as ->; [|done].
  unfold files. cbn. by rewrite lookup_insert_eq.
Qed.

End Isolation.

(** C31: Whatever a signed-in user does with the recordings (listing with
    retention, deleting, clearing, exporting, recording anew), the files of every
    other user of the browser stay as they are, and a listing shows only what the
    user's own directory holds. *)
Theorem recordings_isolated (u : jsstring) (l : list raction) (s : RecordingsState)
    (Hu : userScope (rs_page s) = Some u) :
  (∀ d, d ≠ u → opfs (rs_page (rrun l s)) !! d = opfs (rs_page s) !! d) ∧
  (∀ ms w', listRecordings (rs_page (rrun l s)) = (Ok ms, w') →
     ms = [] ∨ ms = sort_metas (omap (read_entry (files u (rs_page (rrun l s))))
                                (map_to_list (files u (rs_page (rrun l s)))))).
Proof.
  destruct (rrun_store u (λ d, opfs (rs_page s) !! d) l s) as [H1 H2]; [by split|].
  split; [done|]. intros ms w'. by apply list_own.
Qed.

(** *** The order of a listing *)

Lemma insert_meta_perm m l : insert_meta m l ≡ₚ m :: l.
Proof.
  induction l as [|x l IH]; [done|]. cbn. destruct (_ <? _); [done|]. rewrite IH. by rewrite Permutation_swap.
Qed.

Definition newer (a b : RecordingMeta) : Prop := m_createdAt b <= m_createdAt a.

Lemma insert_meta_sorted m l : Sorted newer l → Sorted newer (insert_meta m l).
Proof.
  induction 1 as [|x l Hl IH Hx]; cbn; [by repeat constructor|].
  destruct (Z.ltb_spec (m_createdAt x) (m_createdAt m)).
  - constructor; [by constructor|]. constructor. unfold newer. lia.
  - constructor; [done|]. destruct l as [|y l]; cbn; [by repeat constructor|].
    destruct (_ <? _); constructor; [done|]. by inversion Hx.
Qed.

(** The sort is a permutation, newest first. *)
Lemma sort_metas_spec l : sort_metas l ≡ₚ l ∧ Sorted newer (sort_metas l).
Proof.
  unfold sort_metas. assert (∀ acc, Sorted newer acc →
    fold_left (λ acc m, insert_meta m acc) l acc ≡ₚ acc ++ l ∧
    Sorted newer (fold_left (λ acc m, insert_meta m acc) l acc)) as H.
  { induction l as [|m l IH]; intros acc Ha; cbn; [by rewrite app_nil_r|].
    destruct (IH (insert_meta m acc) (insert_meta_sorted _ _ Ha)) as [H1 H2]. split; [|done].
    rewrite H1, insert_meta_perm. cbn. by rewrite Permutation_middle. }
  destruct (H [] (Sorted_nil _)). done.
Qed.

(** ** Witnesses *)

Definition sample_events : list tevent :=
  [EOutput 1700000000500 (js "hello"); EChain; EResize 1700000001250 120 40; EUid (js "sess"); EOutput 1700000002000 [27; 10; 34]%N].

Lemma recording_replays_witness :
  ∃ meta w' c, finish (λ _, js "now") (λ c, [c]) (replicate 4 true) true true
      (fold_left tstep sample_events (start 1700000000000 80 24
         (new_recorder (js "id1") (js "alice") (js "web 1") (js "uid") (js "root") None)))
      (mkRec ∅ None true 1700000003000) = (Ok (Some meta), w') ∧
    files (js "alice") w' !! cast_name (js "id1") = Some c ∧
    mapM parse (text_lines c) = Some (cast_json 1700000000000 80 24 sample_events).
Proof.
  destruct (recording_replays (λ _, js "now") (λ c, [c]) (js "id1") (js "alice") (js "web 1") (js "uid") (js "root")
    None 1700000000000 80 24 sample_events 4 (mkRec ∅ None true 1700000003000)) as (m & w' & c & s & H1 & H2 & H3 & _).
  - unfold safe. repeat split; vm_compute; discriminate.
  - repeat apply Forall_cons_2; try apply Forall_nil_2; unfold timely, safe; try exact I; vm_compute; discriminate.
  - discriminate.
  - vm_compute. lia.
  - exists m, w', c. split; [exact H1|]. split; [exact H2|exact H3].
Defined.

Lemma recordings_isolated_witness :
  opfs (rs_page (rrun [RClearAll; RRefresh]
    (mkRecordings [] false None None ∅ (mkRec {[ js "bob" := {[ js "x.cast" := [] ]} ]} (Some (js "alice")) true 0)))) !! js "bob"
  = Some {[ js "x.cast" := [] ]}.
Proof.
  etransitivity; [apply (recordings_isolated (js "alice")); [reflexivity|apply (bool_decide_unpack _); vm_compute; exact I]|].
  vm_compute. reflexivity.
Defined.
