(* ===== verification/SshKeys.v ===== *)
(** * SSH keys (utils/sshKeys.ts)

    Reading private keys through sshpk, signing the server's challenge, the wire
    format of a browser key, its [authorized_keys] line and its fingerprint, and
    the shape check of pasted public keys.  sshpk, node-rsa and the digest of the
    browser are parameters.

    The theorems say that the wire format is the one a reader of length-prefixed
    strings takes apart, that the line carries it and passes the check, and that
    a signature is unwrapped to its blob. *)

From S2P Require Import Prelude JsString JsEncoding.

#[local] Open Scope N_scope.

(** ** Byte arrays *)

(** [view.setUint32(offset, n)]: big-endian, modulo 2^32. *)
Definition be32 (n : N) : list N :=
  [n / 16777216 mod 256; n / 65536 mod 256; n / 256 mod 256; n mod 256].

(** [blob.set(bytes, offset)] inside the array; the code sizes the array so that
    it never throws. *)
Definition u8_set (blob : list N) (bytes : list N) (offset : nat) : list N :=
  take offset blob ++ bytes ++ drop (offset + length bytes) blob.

(** [buf.readUInt32BE(offset)] *)
Definition readUInt32BE (buf : list N) (offset : nat) : res N :=
  match drop offset buf with
  | a :: b :: c :: d :: _ => Ok (a * 16777216 + b * 65536 + c * 256 + d)
  | _ => Throw (Error (js "ERR_OUT_OF_RANGE"))
  end.

(** [buf.subarray(start, end)] *)
Definition subarray (buf : list N) (start stop : nat) : list N := drop start (take stop buf).

(** ** Browser keys on the wire *)

Definition ed25519_type : list N := utf8_encode (js "ssh-ed25519").

Definition ed25519Blob (raw32 : list N) : list N :=
  let type := ed25519_type in
  let blob := replicate (4 + length type + 4 + length raw32) 0 in
  let offset := 0%nat in
  let blob := u8_set blob (be32 (N.of_nat (length type))) offset in
  let offset := (offset + 4)%nat in
  let blob := u8_set blob type offset in
  let offset := (offset + length type)%nat in
  let blob := u8_set blob (be32 (N.of_nat (length raw32))) offset in
  let offset := (offset + 4)%nat in
  u8_set blob raw32 offset.

Definition ed25519PublicKeyLine (raw32 : list N) : jsstring :=
  js "ssh-ed25519 " ++ b64_encode (ed25519Blob raw32).

(** [crypto.subtle.digest("SHA-256", ...)] is the parameter [digest]. *)
Definition sha256Fingerprint (digest : list N → list N) (raw32 : list N) : jsstring :=
  js "SHA256:" ++ drop_trailing (N.eqb 61) (b64_encode (digest (ed25519Blob raw32))).

(** ** Public keys typed or pasted *)

Definition SSH_KEY_PREFIXES : list jsstring :=
  [js "ssh-rsa"; js "ssh-dss"; js "ssh-ed25519"; js "ecdsa-sha2-nistp256"; js "ecdsa-sha2-nistp384";
   js "ecdsa-sha2-nistp521"].

Definition PEM_BEGIN : jsstring := js "-----BEGIN".

(** [s.split(/\s+/)]; [in_ws] says that the previous unit was white space. *)
Fixpoint split_ws (in_ws : bool) (s : jsstring) : list jsstring :=
  match s with
  | [] => [[]]
  | c :: r =>
      if is_ws c then if in_ws then split_ws true r else [] :: split_ws true r
      else match split_ws false r with
           | w :: ws => (c :: w) :: ws
           | [] => [[c]]
           end
  end.

(** [parts.length >= 2 && parts[1].length > 10] *)
Definition second_part_long (parts : list jsstring) : bool :=
  match parts with _ :: p :: _ => (10 <? length p)%nat | _ => false end.

Definition isPublicKeyValid (key : jsstring) : bool :=
  let trimmed := trim key in
  if negb (truthy trimmed) then false
  else if existsb (λ prefix, startsWith trimmed prefix && second_part_long (split_ws false trimmed)) SSH_KEY_PREFIXES
  then true
  else if startsWith trimmed PEM_BEGIN then includes trimmed (js "-----END")
  else false.

(** ** Private keys *)

(** The key types sshpk parses. *)
Inductive KeyType := rsa | dsa | ecdsa | ed25519 | curve25519.
Inductive HashAlgo := sha256 | sha384 | sha512.

(** What the code uses of sshpk and node-rsa.  A failed parse is an [Error] with
    a name, or something else. *)
Class Sshpk := {
  Key : Type;
  Signature : Type;
  parsePrivateKey : jsstring → option jsstring → Key + option jsstring;
  key_type : Key → KeyType;
  key_size : Key → N;
  key_curve : Key → option jsstring;
  key_fingerprint_md5 : Key → jsstring;
  key_to_pem : Key → jsstring;
  key_sign : Key → HashAlgo → list N → Signature;
  sig_to_ssh : Signature → list N;
  sig_to_buffer : Signature → list N;
  rsa_sign_pkcs1_sha1 : jsstring → list N → list N;
}.

Inductive KeyValidationResult :=
  | ValidKey (encrypted : bool)
  | InvalidKey (error : jsstring).

Section PrivateKeys.
Context `{Sshpk}.

(** The text of the errors of sshpk is not modelled; callers show their own. *)
Definition parse_key (pem : jsstring) (passphrase : option jsstring) : res Key :=
  match parsePrivateKey pem passphrase with
  | inl k => Ok k
  | inr (Some name) => Throw (Error name)
  | inr None => Throw (Thrown [])
  end.

Definition validatePrivateKey (pem : jsstring) : KeyValidationResult :=
  match parsePrivateKey pem None with
  | inl _ => ValidKey false
  | inr name =>
      if bool_decide (name = Some (js "KeyEncryptedError")) then ValidKey true
      else InvalidKey (js "Invalid private key format.")
  end.

Definition getFingerprint (pem : jsstring) (passphrase : option jsstring) : res jsstring :=
  match parse_key pem passphrase with
  | Ok key => Ok (key_fingerprint_md5 key)
  | Throw e => Throw e
  end.

Definition algorithm_label (key : Key) : jsstring :=
  match key_type key with
  | rsa => js "RSA " ++ digitsN (key_size key)
  | ecdsa =>
      let curve := key_curve key in
      if bool_decide (curve = Some (js "nistp256")) then js "ECDSA P-256"
      else if bool_decide (curve = Some (js "nistp384")) then js "ECDSA P-384"
      else if bool_decide (curve = Some (js "nistp521")) then js "ECDSA P-521"
      else js "ECDSA " ++ digitsN (key_size key)
  | ed25519 => js "Ed25519"
  | dsa => js "DSA " ++ digitsN (key_size key)
  | curve25519 => js "CURVE25519"
  end.

Definition getAlgorithm (pem : jsstring) (passphrase : option jsstring) : res jsstring :=
  match parse_key pem passphrase with
  | Ok key => Ok (algorithm_label key)
  | Throw e => Throw e
  end.

Definition generateRsaKeySignature (privateKeyPem : jsstring) (challenge : list N) : jsstring :=
  b64_encode (rsa_sign_pkcs1_sha1 privateKeyPem challenge).

Definition hash_algo (key : Key) : HashAlgo :=
  match key_type key with
  | ecdsa =>
      if bool_decide (key_curve key = Some (js "nistp256")) then sha256
      else if bool_decide (key_curve key = Some (js "nistp384")) then sha384
      else sha512
  | _ => sha512
  end.

(** [toBuffer('ssh')] without its framing: the blob after the algorithm. *)
Definition ssh_signature_blob (buf : list N) : res (list N) :=
  match readUInt32BE buf 0 with
  | Throw e => Throw e
  | Ok algLen =>
      match readUInt32BE buf (4 + N.to_nat algLen) with
      | Throw e => Throw e
      | Ok blobLen =>
          Ok (subarray buf (8 + N.to_nat algLen) (8 + N.to_nat algLen + N.to_nat blobLen))
      end
  end.

Definition generateSignature (privateKey : jsstring) (challenge : list N) (passphrase : option jsstring)
    : res jsstring :=
  match parse_key privateKey passphrase with
  | Throw e => Throw e
  | Ok parsedKey =>
      match key_type parsedKey with
      | rsa => Ok (generateRsaKeySignature (key_to_pem parsedKey) challenge)
      | ty =>
          let sig := key_sign parsedKey (hash_algo parsedKey) challenge in
          match ty with
          | ecdsa =>
              match ssh_signature_blob (sig_to_ssh sig) with
              | Ok blob => Ok (b64_encode blob)
              | Throw e => Throw e
              end
          | _ => Ok (b64_encode (sig_to_buffer sig))
          end
      end
  end.
End PrivateKeys.

(** ** A reader of the wire format *)

(** RFC 4251: a string is its length and its bytes. *)
Definition read_frame (buf : list N) : option (list N * list N) :=
  match readUInt32BE buf 0 with
  | Ok n => if (N.to_nat n <=? length buf - 4)%nat
            then Some (take (N.to_nat n) (drop 4 buf), drop (4 + N.to_nat n) buf) else None
  | Throw _ => None
  end.

Definition frame (s : list N) : list N := be32 (N.of_nat (length s)) ++ s.

Definition fits (s : list N) : Prop := N.of_nat (length s) < 4294967296.

Lemma be32_value n : n < 4294967296 →
  n / 16777216 mod 256 * 16777216 + n / 65536 mod 256 * 65536 + n / 256 mod 256 * 256 + n mod 256 = n.
Proof.
  intros Hn. assert (n / 16777216 < 256) by (apply N.Div0.div_lt_upper_bound; lia).
  rewrite (N.mod_small (n / 16777216)) by done.
  pose proof (N.div_mod n 256). pose proof (N.div_mod (n / 256) 256). pose proof (N.div_mod (n / 65536) 256).
  replace (n / 65536) with (n / 256 / 256) in * by (rewrite N.Div0.div_div; reflexivity).
  replace (n / 16777216) with (n / 256 / 256 / 256) in * by (rewrite !N.Div0.div_div; reflexivity).
  lia.
Qed.

Lemma readUInt32BE_frame p s r : fits s → readUInt32BE (p ++ frame s ++ r) (length p) = Ok (N.of_nat (length s)).
Proof.
  intros Hs. unfold readUInt32BE, frame, be32. rewrite drop_app_length. cbn [app].
  f_equal. by apply be32_value.
Qed.

Lemma read_frame_frame s r : fits s → read_frame (frame s ++ r) = Some (s, r).
Proof.
  intros Hs. unfold read_frame.
  pose proof (readUInt32BE_frame [] s r Hs) as E. cbn [app length] in E. rewrite E, Nat2N.id.
  unfold frame. rewrite <- app_assoc. set (h := be32 _). assert (length h = 4%nat) as Hh by done.
  rewrite !length_app, Hh. destruct (Nat.leb_spec (length s) (4 + (length s + length r) - 4)) as [_|]; [|lia].
  rewrite <- drop_drop, (drop_app_length' h _ 4) by done. by rewrite drop_app_length, take_app_length.
Qed.

Lemma u8_set_at a b c bytes off : off = length a → length b = length bytes →
  u8_set (a ++ b ++ c) bytes off = a ++ bytes ++ c.
Proof.
  intros -> Hb. unfold u8_set. rewrite take_app_length. f_equal. f_equal.
  rewrite app_assoc, <- Hb, <- length_app. apply drop_app_length.
Qed.

Lemma ed25519Blob_frames raw : ed25519Blob raw = frame ed25519_type ++ frame raw.
Proof.
  unfold ed25519Blob, frame. cbv zeta.
  set (T := ed25519_type). set (h := be32 (N.of_nat (length T))). set (k := be32 (N.of_nat (length raw))).
  rewrite !replicate_add, <- !app_assoc.
  set (z := replicate 4 0). set (zT := replicate (length T) 0). set (zr := replicate (length raw) 0).
  assert (length zT = length T ∧ length zr = length raw) as [HT Hr]
    by (unfold zT, zr; by rewrite !length_replicate).
  change (z ++ zT ++ z ++ zr) with ([] ++ z ++ (zT ++ z ++ zr)). rewrite u8_set_at by done. cbn [app].
  rewrite (u8_set_at h zT (z ++ zr)) by done.
  rewrite (app_assoc h T), u8_set_at by (done || by rewrite length_app).
  rewrite (app_assoc (h ++ T) k), <- (app_nil_r zr), u8_set_at by (done || by rewrite !length_app).
  by rewrite app_nil_r, <- !app_assoc.
Qed.

(** A reader gets the type and the key back, so different keys have different
    blobs. *)
Lemma ed25519Blob_reads raw : fits raw →
  read_frame (ed25519Blob raw) = Some (ed25519_type, frame raw) ∧ read_frame (frame raw) = Some (raw, []).
Proof.
  intros Hr. rewrite ed25519Blob_frames. split; [by apply read_frame_frame|].
  rewrite <- (app_nil_r (frame raw)). by apply read_frame_frame.
Qed.

Lemma be32_bytes n : Forall is_byte (be32 n).
Proof. unfold be32, is_byte. repeat apply Forall_cons_2; try apply Forall_nil_2; by apply N.mod_lt. Qed.

Lemma ed25519Blob_bytes raw : Forall is_byte raw → Forall is_byte (ed25519Blob raw).
Proof.
  intros Hr. rewrite ed25519Blob_frames. unfold frame. rewrite !Forall_app.
  repeat split; try apply be32_bytes; try done. apply utf8_encode_bytes.
  apply Forall_ltb. reflexivity.
Qed.

(** ** The line of [authorized_keys] *)

Lemma graphic_not_ws c : 33 <= c <= 126 → is_ws c = false.
Proof. intros H. unfold is_ws. by rewrite !in_range_false, !(proj2 (N.eqb_neq _ _)) by lia. Qed.

Lemma b64_char_range v : v < 64 → 43 <= b64_char v <= 122 ∧ b64_char v ≠ 61.
Proof.
  intros H. split; [|by apply b64_char_alphabet]. unfold b64_char.
  destruct (N.ltb_spec v 26); [|destruct (N.ltb_spec v 52); [|destruct (N.ltb_spec v 62);
    [|destruct (N.eqb_spec v 62)]]]; lia.
Qed.

Lemma b64_digits_range bs : Forall is_byte bs → Forall (λ c, 43 <= c <= 122 ∧ c ≠ 61) (b64_digits bs).
Proof.
  intros Hb. rewrite b64_digits_sextets. apply Forall_map.
  eapply Forall_impl; [by apply sextets_lt|]. apply b64_char_range.
Qed.

Lemma b64_encode_no_js_ws bs : Forall is_byte bs → Forall (λ c, is_ws c = false) (b64_encode bs).
Proof.
  intros Hb. unfold b64_encode. apply Forall_app. split.
  - eapply Forall_impl; [by apply b64_digits_range|]. intros c [Hc _]. apply graphic_not_ws. lia.
  - unfold b64_padding. repeat case_match; repeat apply Forall_cons_2; done || apply Forall_nil_2.
Qed.

(** Without its padding a base64 text is its digits. *)
Lemma unpadded bs : Forall is_byte bs → drop_trailing (N.eqb 61) (b64_encode bs) = b64_digits bs.
Proof.
  intros Hb%b64_digits_range. unfold drop_trailing, b64_encode. rewrite reverse_app.
  assert (drop_while (N.eqb 61) (reverse (b64_digits bs)) = reverse (b64_digits bs)) as E.
  { apply Forall_reverse in Hb. destruct Hb as [|c l [_ Hc] _]; [done|].
    cbn [drop_while]. by rewrite (proj2 (N.eqb_neq 61 c)). }
  assert (∃ k, b64_padding bs = replicate k 61) as [k ->].
  { unfold b64_padding. repeat case_match; [by exists 0%nat|by exists 2%nat|by exists 1%nat|by exists 0%nat]. }
  rewrite reverse_replicate. rewrite <- (reverse_involutive (b64_digits bs)) at 2. f_equal.
  induction k as [|k IH]; [done|]. exact IH.
Qed.

Lemma split_ws_word b w : Forall (λ c, is_ws c = false) w → split_ws b w = [w].
Proof.
  intros Hw. revert b. induction w as [|c w IH]; intros b; [done|]. apply Forall_cons in Hw as [Hc Hw].
  cbn [split_ws]. by rewrite Hc, (IH Hw).
Qed.

Lemma split_ws_two a w c : Forall (λ c, is_ws c = false) a → is_ws c = true → Forall (λ c, is_ws c = false) w →
  split_ws false (a ++ c :: w) = [a; w].
Proof.
  intros Ha Hc Hw. induction a as [|x a IH]; cbn [app split_ws].
  - by rewrite Hc, split_ws_word.
  - apply Forall_cons in Ha as [Hx Ha]. by rewrite Hx, (IH Ha).
Qed.

(** The digest of a key with its prefix: digests of one length give one
    fingerprint only if they are equal. *)
Lemma fingerprint_injective digest raw raw' :
  let d := digest (ed25519Blob raw) in let d' := digest (ed25519Blob raw') in
  Forall is_byte d → Forall is_byte d' → length d = length d' →
  sha256Fingerprint digest raw = sha256Fingerprint digest raw' → d = d'.
Proof.
  intros d d' Hd Hd' Hl E. unfold sha256Fingerprint in E. apply app_inv_head in E.
  rewrite !unpadded in E by done.
  assert (b64_encode d = b64_encode d') as E'.
  { unfold b64_encode. f_equal; [exact E|]. unfold b64_padding. by rewrite Hl. }
  apply (f_equal b64_decode) in E'. rewrite !b64_round_trip in E' by done. by injection E'.
Qed.

Lemma line_parts raw : Forall is_byte raw →
  split_ws false (ed25519PublicKeyLine raw) = [js "ssh-ed25519"; b64_encode (ed25519Blob raw)].
Proof.
  intros Hr. apply (split_ws_two (js "ssh-ed25519") (b64_encode (ed25519Blob raw)) 32).
  - repeat apply Forall_cons_2; try apply Forall_nil_2; reflexivity.
  - reflexivity.
  - by apply b64_encode_no_js_ws, ed25519Blob_bytes.
Qed.

Lemma b64_digits_long bs : (length bs <= length (b64_digits bs))%nat.
Proof. induction bs as [| | |a b c r IH] using list_ind3; cbn [b64_digits length]; lia. Qed.

Lemma line_trimmed raw : Forall is_byte raw → trim (ed25519PublicKeyLine raw) = ed25519PublicKeyLine raw.
Proof.
  intros Hr. apply trim_id; [reflexivity|]. unfold ed25519PublicKeyLine. rewrite reverse_app.
  assert (Forall (λ c, is_ws c = false) (b64_encode (ed25519Blob raw))) as Hw
    by (by apply b64_encode_no_js_ws, ed25519Blob_bytes).
  apply Forall_reverse in Hw. rewrite ed25519Blob_frames in *.
  destruct (reverse (b64_encode _)) as [|c l] eqn:E; [|by apply Forall_cons in Hw as [Hc _]].
  apply (f_equal length) in E. rewrite length_reverse in E. unfold b64_encode in E. rewrite length_app in E.
  pose proof (b64_digits_long (frame ed25519_type ++ frame raw)) as Hl. rewrite !length_app in Hl.
  change (length (frame ed25519_type)) with 15%nat in Hl. cbn [length] in E. lia.
Qed.

(** The line of a browser key passes the public key check, and whoever reads
    it back - the type, a space, and the base64 of two length-prefixed strings -
    gets the type and exactly the key, with nothing after it. *)
Theorem ed25519_line_round_trip (raw : list N) :
  Forall is_byte raw → fits raw →
  isPublicKeyValid (ed25519PublicKeyLine raw) = true ∧
  ∃ w blob rest,
    split_ws false (ed25519PublicKeyLine raw) = [js "ssh-ed25519"; w] ∧
    b64_decode w = Some blob ∧
    read_frame blob = Some (js "ssh-ed25519", rest) ∧ read_frame rest = Some (raw, []).
Proof.
  intros Hr Hf. destruct (ed25519Blob_reads raw Hf) as [H1 H2]. split.
  - unfold isPublicKeyValid. rewrite (line_trimmed raw Hr), (line_parts raw Hr).
    cbn [second_part_long].
    destruct (Nat.ltb_spec 10 (length (b64_encode (ed25519Blob raw)))) as [_|Hl]; [reflexivity|].
    exfalso. unfold b64_encode in Hl. rewrite length_app in Hl.
    pose proof (b64_digits_long (ed25519Blob raw)) as Hd. rewrite ed25519Blob_frames in Hd at 1.
    rewrite !length_app in Hd. change (length (frame ed25519_type)) with 15%nat in Hd. lia.
  - exists (b64_encode (ed25519Blob raw)), (ed25519Blob raw), (frame raw).
    split; [by apply line_parts|]. split; [by apply b64_round_trip, ed25519Blob_bytes|]. by split.
Qed.

Lemma ed25519_line_witness : isPublicKeyValid (ed25519PublicKeyLine (replicate 32 7)) = true.
Proof.
  refine (proj1 (ed25519_line_round_trip (replicate 32 7) _ _)); [|reflexivity].
  apply Forall_replicate. reflexivity.
Defined.

(** ** Signatures *)

Lemma ssh_signature_blob_frames alg blob : fits alg → fits blob →
  ssh_signature_blob (frame alg ++ frame blob) = Ok blob.
Proof.
  intros Ha Hb. unfold ssh_signature_blob.
  pose proof (readUInt32BE_frame [] alg (frame blob) Ha) as E. cbn [app length] in E. rewrite E, Nat2N.id.
  pose proof (readUInt32BE_frame (frame alg) blob [] Hb) as E2. rewrite app_nil_r in E2.
  assert (∀ s, length (frame s) = 4 + length s)%nat as Hl by done. rewrite Hl in E2. rewrite E2, Nat2N.id.
  unfold subarray. rewrite take_ge by (rewrite length_app, !Hl; lia). f_equal.
  unfold frame at 2. rewrite app_assoc. apply drop_app_length'. rewrite length_app, Hl. cbn [length be32]. lia.
Qed.

(** An ECDSA signature is sent as the blob inside sshpk's SSH encoding, with the
    hash of its curve; a buffer too short for its first length is an error. *)
Lemma ecdsa_signature `{Sshpk} pem pass k c alg blob :
  parsePrivateKey pem pass = inl k → key_type k = ecdsa → fits alg → fits blob →
  sig_to_ssh (key_sign k (hash_algo k) c) = frame alg ++ frame blob →
  generateSignature pem c pass = Ok (b64_encode blob).
Proof.
  intros Hp Ht Ha Hb Hs. unfold generateSignature, parse_key. rewrite Hp, Ht, Hs.
  by rewrite ssh_signature_blob_frames.
Qed.
