(* ===== verification/InstallKeys.v ===== *)
(** * Install keys (pages/install-keys/helpers.ts)

    Where a device came from, the allow list of MAC addresses, the checks of the
    forms, the reasons a key is blocked, its usage meter and its expiry.  The
    clock [now] is an argument; [Date], [URL] and date-fns are parameters, and so
    is [toLowerCase] beyond ASCII.

    Theorems: the allow list is the set of typed addresses and survives being
    shown and read again; the meter and the blockers agree; which forms pass. *)

From S2P Require Import Prelude JsString JsRegex Recordings.
From Stdlib Require Import QArith Qminmax.

#[local] Open Scope Z_scope.

(** The members of the API's [InstallKey] the code reads. *)
Record InstallKey := mkInstallKey {
  ik_id : jsstring;
  ik_name : jsstring;
  ik_type : jsstring;
  ik_expires_at : option jsstring;
  ik_revoked : option bool;
  ik_disabled : option bool;
  ik_usage_limit : Z;
  ik_used_times : Z;
}.

Definition is_type (key : InstallKey) (t : string) : bool := bool_decide (ik_type key = js t).

Definition isSystemKey (key : InstallKey) : bool := is_type key "legacy" || is_type key "pairing".
Definition isPairingKey (key : InstallKey) : bool := is_type key "pairing".

Definition installKeyDisplayName (key : InstallKey) : jsstring :=
  if isPairingKey key then js "Pairing code"
  else if isSystemKey key then js "Tenant-only registration"
  else ik_name key.

Inductive EnrollmentSource :=
  | FromLegacy
  | FromPairing
  | FromKey (name : jsstring).

Definition resolveEnrollmentSource (installKeyId : option jsstring) (installKeys : list InstallKey)
    : option EnrollmentSource :=
  if negb (is_truthy installKeyId) then None
  else match List.find (λ k, bool_decide (Some (ik_id k) = installKeyId)) installKeys with
       | None => None
       | Some m =>
           if isSystemKey m then Some (if isPairingKey m then FromPairing else FromLegacy)
           else Some (FromKey (ik_name m))
       end.

(** ** The allow list *)

(** [seen.add(x)] on a [Set], which keeps the order of insertion. *)
Definition set_add (seen : list jsstring) (x : jsstring) : list jsstring :=
  if bool_decide (x ∈ seen) then seen else seen ++ [x].

Section Macs.
Variable unicode_lower : N → jsstring.

Definition normal_mac (line : jsstring) : jsstring := toLowerCase unicode_lower (trim line).

Definition parseAllowedMacs (text : jsstring) : list jsstring :=
  fold_left (λ seen line,
    let mac := normal_mac line in
    if truthy mac then set_add seen mac else seen) (JsString.split text 10%N) [].
End Macs.

(** ** Checks of the forms *)

(** [[a-zA-Z0-9_-]] *)
Definition key_name_char (c : N) : bool :=
  is_lower c || is_upper c || is_digit c || (c =? 95)%N || (c =? 45)%N.
Definition KEY_NAME_REGEX : re := RPlus (RChr key_name_char).

Definition validateKeyName (value : jsstring) : jsstring :=
  if (length value <? 3)%nat then js "Name must be at least 3 characters."
  else if (20 <? length value)%nat then js "Name must be at most 20 characters."
  else if negb (rmatch KEY_NAME_REGEX value) then js "Name can only contain letters, numbers, - and _."
  else [].

Definition TIMEOUT_MIN : Z := 1.
Definition TIMEOUT_MAX : Z := 15.
Definition WINDOW_MIN_H : Z := 1.
Definition WINDOW_MAX_H : Z := 24.

(** [Math.round(a / b)] of integers: halves go up. *)
Definition round_div (a b : Z) : Z := (2 * a + b) / (2 * b).

Record ModeOptions := mkModeOptions {
  secretOptional : bool;
  webhookTimeout : option Z;
  webhookCallbackTtl : option Z;
}.

Definition outside (lo hi n : Z) : bool := (n <? lo) || (hi <? n).

Section Modes.
(** [new URL(s).protocol], nothing when the constructor throws. *)
Variable URL_protocol : jsstring → option jsstring.

Definition isWebhookUrl (value : jsstring) : bool :=
  match URL_protocol (trim value) with
  | Some p => bool_decide (p = js "http:") || bool_decide (p = js "https:")
  | None => false
  end.

Definition validateModeConfig (mode webhookUrl webhookSecret : jsstring) (macs : list jsstring)
    (options : ModeOptions) : jsstring :=
  let allowlist :=
    if bool_decide (mode = js "allowlist") && (length macs =? 0)%nat
    then js "Add at least one MAC address for allowlist mode." else [] in
  if bool_decide (mode = js "webhook") then
    if negb (isWebhookUrl webhookUrl) then js "Webhook URL must be an http or https URL."
    else if negb (truthy webhookSecret) && negb (secretOptional options)
    then js "A signing secret is required for webhook mode."
    else if match webhookTimeout options with
            | Some t => outside TIMEOUT_MIN TIMEOUT_MAX t | None => false end
    then js "Reply timeout must be " ++ Z_to_string TIMEOUT_MIN ++ js "–" ++ Z_to_string TIMEOUT_MAX
           ++ js " seconds."
    else if match webhookCallbackTtl options with
            | Some ttl => outside WINDOW_MIN_H WINDOW_MAX_H (round_div ttl 3600) | None => false end
    then js "Callback window must be " ++ Z_to_string WINDOW_MIN_H ++ js "–" ++ Z_to_string WINDOW_MAX_H
           ++ js " hours."
    else allowlist
  else allowlist.
End Modes.

(** ** Blockers, usage and expiry *)

Record KeyBlockers := mkKeyBlockers {
  revoked : bool;
  disabled : bool;
  expired : bool;
  overused : bool;
  inert : bool;
}.

Inductive UsageKind := single | limited | unlimited.

Record UsageInfo := mkUsageInfo {
  kind : UsageKind;
  used : Z;
  limit : Z;
  ratio : Q;
  exhausted : bool;
}.

Definition getUsageInfo (key : InstallKey) : UsageInfo :=
  let used := ik_used_times key in
  if ik_usage_limit key =? 0 then mkUsageInfo unlimited used 0 0%Q false
  else
    let limit := ik_usage_limit key in
    mkUsageInfo (if limit =? 1 then single else limited) used limit
      (Qmin 1%Q (inject_Z used / inject_Z limit)%Q) (limit <=? used).

(** A payload with an optional member. *)
Definition keyExpiryPayload (expiresIn : jsstring) : option jsnum :=
  let days := Number expiresIn in
  if num_gtb days 0 then Some days else None.

(** The update always carries the member, [null] standing for no expiry. *)
Definition keyExpiryUpdatePayload (expiresIn : jsstring) : option jsnum :=
  let days := Number expiresIn in
  if num_gtb days 0 then Some days else None.

Inductive ExpiryTone := muted | normal | warning | danger.

Section Expiry.
(** [new Date(s).getTime()], [None] standing for [NaN]. *)
Variable Date_time : jsstring → option Z.
(** [differenceInCalendarDays] and [format(_, "MMM d, yyyy")] of valid dates. *)
Variable calendar_days : Z → Z → Z.
Variable format_day : Z → jsstring.
(** [Date.now()] *)
Variable now : Z.

(** [new Date(s).getTime() <= Date.now()] *)
Definition elapsed (s : jsstring) : bool :=
  match Date_time s with Some t => t <=? now | None => false end.

Definition isInstallKeyExpired (key : InstallKey) : bool :=
  match ik_expires_at key with Some s => elapsed s | None => false end.

Definition getKeyBlockers (key : InstallKey) : KeyBlockers :=
  let revoked := default false (ik_revoked key) in
  let disabled := default false (ik_disabled key) in
  let expired := isInstallKeyExpired key in
  let overused := (0 <? ik_usage_limit key) && (ik_usage_limit key <=? ik_used_times key) in
  mkKeyBlockers revoked disabled expired overused (revoked || disabled || expired || overused).

(** The days to show in the form and whether the key has expired. *)
Definition getRemainingDays (expiresAt : option jsstring) : jsstring * bool :=
  match expiresAt with
  | None => (js "-1", false)
  | Some s =>
      match Date_time s with
      | None => (js "NaN", false)
      | Some t =>
          let remaining := calendar_days t now in
          if remaining <? 1 then (js "1", elapsed s) else (Z_to_string remaining, false)
      end
  end.

(** [format] throws on an invalid date. *)
Definition getExpiryInfo (expiresAt : option jsstring) : res (jsstring * ExpiryTone) :=
  match expiresAt with
  | None => Ok (js "Never", muted)
  | Some s =>
      match Date_time s with
      | None => Throw (Error (js "Invalid time value"))
      | Some t =>
          let label := format_day t in
          if t <=? now then Ok (label, danger)
          else Ok (label, if calendar_days t now <=? 7 then warning else normal)
      end
  end.
End Expiry.

(** ** The allow list is the set of typed addresses *)

Section MacFacts.
Variable unicode_lower : N → jsstring.
Notation normal_mac := (normal_mac unicode_lower).
Notation parseAllowedMacs := (parseAllowedMacs unicode_lower).

Lemma set_add_spec seen x : NoDup seen → NoDup (set_add seen x) ∧ ∀ y, y ∈ set_add seen x ↔ y ∈ seen ∨ y = x.
Proof.
  intros Hn. unfold set_add. case_bool_decide as Hx; [naive_solver|]. split.
  - apply NoDup_app. split; [done|]. split; [|apply NoDup_singleton]. set_solver.
  - set_solver.
Qed.

Definition add_line (seen : list jsstring) (line : jsstring) : list jsstring :=
  if truthy (normal_mac line) then set_add seen (normal_mac line) else seen.

Lemma add_lines_spec lines seen : NoDup seen →
  NoDup (fold_left add_line lines seen) ∧
  ∀ m, m ∈ fold_left add_line lines seen ↔ m ∈ seen ∨ m ≠ [] ∧ m ∈ map normal_mac lines.
Proof.
  revert seen. induction lines as [|l r IH]; intros seen Hn; cbn [fold_left map]; [set_solver|].
  assert (NoDup (add_line seen l) ∧ ∀ y, y ∈ add_line seen l ↔ y ∈ seen ∨ y ≠ [] ∧ y = normal_mac l) as [H1 H2].
  { unfold add_line. destruct (normal_mac l) as [|c m] eqn:E; cbn [truthy]; [naive_solver|].
    destruct (set_add_spec seen (c :: m) Hn) as [Ha Hb]. split; [done|]. intros y. rewrite Hb. naive_solver. }
  destruct (IH _ H1) as [H3 H4]. split; [done|]. intros m. rewrite H4, H2. set_solver.
Qed.

Lemma parseAllowedMacs_spec text :
  NoDup (parseAllowedMacs text) ∧
  ∀ m, m ∈ parseAllowedMacs text ↔ m ≠ [] ∧ m ∈ map normal_mac (JsString.split text 10%N).
Proof.
  destruct (add_lines_spec (JsString.split text 10%N) [] NoDup_nil_2) as [H1 H2].
  split; [exact H1|]. intros m. etransitivity; [apply H2|]. set_solver.
Qed.

Definition mac_list (l : list jsstring) : Prop :=
  NoDup l ∧ Forall (λ m, m ≠ [] ∧ 10%N ∉ m ∧ normal_mac m = m) l.

Lemma add_lines_fresh l seen : Forall (λ m, m ≠ [] ∧ normal_mac m = m) l → NoDup (seen ++ l) →
  fold_left add_line l seen = seen ++ l.
Proof.
  revert seen. induction l as [|a l IH]; intros seen Hl Hn; cbn [fold_left]; [by rewrite app_nil_r|].
  apply Forall_cons in Hl as [[Ha Hm] Hl]. unfold add_line at 2. rewrite Hm.
  destruct a as [|c a]; [done|]. cbn [truthy]. unfold set_add.
  rewrite bool_decide_false by (apply NoDup_app in Hn as (_ & Hd & _); intros Hi; apply (Hd _ Hi); set_solver).
  rewrite IH by (done || by rewrite <- app_assoc). by rewrite <- app_assoc.
Qed.

(** The list an edit form shows, one address per line, is read back unchanged. *)
Lemma parseAllowedMacs_join l : l ≠ [] → mac_list l → parseAllowedMacs (join [10%N] l) = l.
Proof.
  intros Hne [Hn Hl]. unfold InstallKeys.parseAllowedMacs. rewrite split_join; [|done|].
  - apply (add_lines_fresh l []); [|done]. eapply Forall_impl; [exact Hl|]. naive_solver.
  - eapply Forall_impl; [exact Hl|]. naive_solver.
Qed.
End MacFacts.

(** ** Usage and blockers *)

Lemma inject_pos l : 0 < l → (0 < inject_Z l)%Q.
Proof. intros H. change (inject_Z 0 < inject_Z l)%Q. by rewrite <- Zlt_Qlt. Qed.

Lemma ratio_full u l : 0 < l → (inject_Z u / inject_Z l < 1)%Q ↔ u < l.
Proof.
  intros Hl. assert (0 < inject_Z l)%Q as Hq by (by apply inject_pos).
  rewrite (Zlt_Qlt u l). split.
  - intros H. apply (Qmult_lt_r _ _ (inject_Z l)) in H; [|done]. rewrite Qmult_1_l in H.
    rewrite Qmult_comm, Qmult_div_r in H by (intros E; rewrite E in Hq; by apply Qlt_irrefl in Hq). done.
  - intros H. by apply Qlt_shift_div_r; [|rewrite Qmult_1_l].
Qed.

(** For counts the API sends (not negative): the meter's fill is between 0 and 1,
    full exactly when the key is used up, which is when the card says so. *)
Lemma usage_meter Date_time now key : 0 <= ik_usage_limit key → 0 <= ik_used_times key →
  let u := getUsageInfo key in
  (0 <= ratio u <= 1)%Q ∧ (ratio u == 1 ↔ exhausted u = true)%Q ∧
  exhausted u = overused (getKeyBlockers Date_time now key).
Proof.
  intros Hl Hu. unfold getUsageInfo, getKeyBlockers. cbn [overused].
  destruct (Z.eqb_spec (ik_usage_limit key) 0) as [->|Hne]; cbn [ratio exhausted].
  { split; [split; discriminate|]. split; [|reflexivity]. split; [intros E; discriminate|discriminate]. }
  set (l := ik_usage_limit key) in *. set (n := ik_used_times key) in *.
  assert (0 < inject_Z l)%Q as Hq by (apply inject_pos; lia).
  split; [split|split].
  - apply Q.min_glb; [discriminate|]. apply Qle_shift_div_l; [done|]. rewrite Qmult_0_l.
    change (inject_Z 0 <= inject_Z n)%Q. by rewrite <- Zle_Qle.
  - apply Q.le_min_l.
  - rewrite Z.leb_le. split.
    + intros E. destruct (Z.le_gt_cases l n) as [|Hlt]; [done|]. exfalso.
      apply (ratio_full n l) in Hlt; [|lia]. apply (Qlt_irrefl 1). rewrite <- E at 1.
      eapply Qle_lt_trans; [apply Q.le_min_r|done].
    + intros Hle. apply Q.min_l. apply Qle_shift_div_l; [done|]. rewrite Qmult_1_l. by rewrite <- Zle_Qle.
  - destruct (Z.ltb_spec 0 l); [done|lia].
Qed.

(** A key is inert exactly when something blocks it, and the card is red exactly
    when the key has expired. *)
Lemma expiry_shown Date_time cal fmt now key :
  expired (getKeyBlockers Date_time now key) = true ↔
  ∃ label, getExpiryInfo Date_time cal fmt now (ik_expires_at key) = Ok (label, danger).
Proof.
  unfold getKeyBlockers, isInstallKeyExpired, getExpiryInfo, elapsed. cbn [expired].
  destruct (ik_expires_at key) as [s|]; [|naive_solver].
  destruct (Date_time s) as [t|]; [|naive_solver].
  destruct (t <=? now); [naive_solver|]. split; [done|]. intros [x E]. case_match; discriminate.
Qed.

(** ** What the forms let through *)

Lemma key_name_exact v : validateKeyName v = [] ↔ (3 <= length v <= 20)%nat ∧ Forall (λ c, key_name_char c = true) v.
Proof.
  unfold validateKeyName, KEY_NAME_REGEX.
  destruct (Nat.ltb_spec (length v) 3); [split; [discriminate|lia]|].
  destruct (Nat.ltb_spec 20 (length v)); [split; [discriminate|lia]|].
  destruct (rmatch _ v) eqn:E; cbn [negb].
  - split; [|done]. intros _. split; [lia|]. by apply rmatch_spec, lang_PlusChr in E as [_ E].
  - split; [discriminate|]. intros [_ Hf]. assert (v ≠ []) as Hv by (intros ->; cbn [length] in *; lia).
    rewrite (proj2 (rmatch_spec _ _) (proj2 (lang_PlusChr _ _) (conj Hv Hf))) in E. discriminate.
Qed.

Lemma round_hours ttl : outside WINDOW_MIN_H WINDOW_MAX_H (round_div ttl 3600) = false ↔ 1800 <= ttl < 88200.
Proof.
  unfold outside, WINDOW_MIN_H, WINDOW_MAX_H, round_div. rewrite orb_false_iff, !Z.ltb_ge. zlia.
Qed.

(** In webhook mode: an http(s) URL, a secret unless one is stored, a reply
    timeout of 1 to 15 seconds and a callback window from half an hour to just
    below 24 and a half hours. *)
Lemma webhook_mode_exact P url secret macs o :
  validateModeConfig P (js "webhook") url secret macs o = [] ↔
  isWebhookUrl P url = true ∧ truthy secret || secretOptional o = true ∧
  (∀ t, webhookTimeout o = Some t → 1 <= t <= 15) ∧
  (∀ t, webhookCallbackTtl o = Some t → 1800 <= t < 88200).
Proof.
  unfold validateModeConfig. rewrite (bool_decide_true (js "webhook" = js "webhook")) by done.
  rewrite bool_decide_false by discriminate. cbn [andb].
  destruct (isWebhookUrl P url); cbn [negb]; [|split; [discriminate|naive_solver]].
  rewrite <- negb_orb. destruct (truthy secret || secretOptional o); cbn [negb]; [|split; [discriminate|naive_solver]].
  destruct (match webhookTimeout o with Some _ => _ | None => _ end) eqn:Et.
  { split; [discriminate|]. intros (_ & _ & Ht & _). exfalso. destruct (webhookTimeout o) as [t|]; [|discriminate].
    specialize (Ht t eq_refl). unfold outside, TIMEOUT_MIN, TIMEOUT_MAX in Et. lia. }
  destruct (match webhookCallbackTtl o with Some _ => _ | None => _ end) eqn:Ec.
  { split; [discriminate|]. intros (_ & _ & _ & Hc). exfalso. destruct (webhookCallbackTtl o) as [t|]; [|discriminate].
    specialize (Hc t eq_refl). apply round_hours in Hc. congruence. }
  split; [|done]. intros _. split; [done|]. split; [done|].
  split; intros t E; [rewrite E in Et; unfold outside, TIMEOUT_MIN, TIMEOUT_MAX in Et; lia|].
  rewrite E in Ec. by apply round_hours.
Qed.
