(* ===== verification/Pairing.v ===== *)
(** * Adding a device by pairing code (hooks/useDevicePairingEnrollment.ts)

    The hook mints or reuses a pairing code and waits until a device claims it.
    It is a component of an event loop: three effects that React runs again when
    their dependencies change, two intervals, requests that answer in any order,
    and a code cached in localStorage.

    The state holds what the hook holds (its [useState]s and its ref), the
    dependencies React saw last, the intervals and the requests in flight; a
    request belongs to a run of its effect, numbered by a generation, and its
    [cancelled] is true once the effect was cleaned up.  [step] is one turn of the
    event loop: a handler, then the renders and effects it causes.

    Theorem: whatever the order of replies, ticks and clicks, the hook is never
    stuck, expires only after the deadline and connects only for the code it
    shows. *)

From S2P Require Import Prelude JsString JsJson.

Inductive EnrollmentPhase := minting | waiting | connected | expired | error.
#[export] Instance phase_eq_dec : EqDecision EnrollmentPhase.
Proof. solve_decision. Defined.

Definition POLL_INTERVAL_MS : Z := 3000.
Definition DEFAULT_TTL_SECONDS : Z := 600.
Definition STORAGE_PREFIX : jsstring := js "shellhub:pairing-enrollment:".

Record StoredCode := mkStored { s_code : jsstring; s_expiresAt : jsnum }.

(** ** The cached code *)

(** localStorage: its items, and whether the browser lets them be read and
    written at the moment. *)
Record Disk := mkDisk { items : gmap jsstring jsstring; readable : bool; writable : bool }.

Definition readStored (d : Disk) (key : jsstring) : option StoredCode :=
  if negb (readable d) then None
  else match items d !! key with
       | None => None
       | Some raw =>
           if negb (truthy raw) then None
           else match parse raw with
                | None => None
                | Some parsed =>
                    match as_string (get parsed (js "code")), as_number (get parsed (js "expiresAt")) with
                    | Some c, Some e => Some (mkStored c e)
                    | _, _ => None
                    end
                end
       end.

Definition writeStored (key : jsstring) (v : StoredCode) (d : Disk) : Disk :=
  if writable d
  then mkDisk (<[key := stringify (JObj [(js "code", JStr (s_code v)); (js "expiresAt", JNum (s_expiresAt v))])]> (items d))
         (readable d) (writable d)
  else d.

Definition clearStored (key : jsstring) (d : Disk) : Disk :=
  if readable d then mkDisk (delete key (items d)) (readable d) (writable d) else d.

(** ** State *)

Record View := mkView {
  code : jsstring;
  phase : EnrollmentPhase;
  device : option (jsstring * jsstring);   (* uid and name *)
  secondsLeft : jsnum;
}.

(** Requests in flight, with the generation and the variables their
    continuation closes over. *)
Inductive task :=
  | AcqStatus (gen : nat) (key : jsstring) (stored : StoredCode)
  | AcqMint (gen : nat) (key : jsstring)
  | FinalCheck (gen : nat) (key c : jsstring)
  | PollCheck (gen : nat) (key c : jsstring).

Definition deps1 : Type := bool * jsstring * nat.
Definition deps2 : Type := bool * EnrollmentPhase * jsstring * jsstring.

Record Loop := mkLoop {
  seen1 : option deps1;
  seen2 : option deps2;
  acq_gen : nat;
  watch_gen : nat;
  countdown : option Z;    (* when the intervals fire next *)
  poll : option Z;
  tasks : list task;
  clk : Z;
}.

Record Pairing := mkPairing {
  enabled : bool;
  tenant : jsstring;
  nonce : nat;
  view : View;
  expiresAtRef : jsnum;
  disk : Disk;
  loop : Loop;
}.

Definition storageKey (s : Pairing) : jsstring := STORAGE_PREFIX ++ tenant s.
Definition now (s : Pairing) : Z := clk (loop s).

Definition on_view (f : View → View) (s : Pairing) : Pairing :=
  mkPairing (enabled s) (tenant s) (nonce s) (f (view s)) (expiresAtRef s) (disk s) (loop s).
Definition on_disk (f : Disk → Disk) (s : Pairing) : Pairing :=
  mkPairing (enabled s) (tenant s) (nonce s) (view s) (expiresAtRef s) (f (disk s)) (loop s).
Definition on_loop (f : Loop → Loop) (s : Pairing) : Pairing :=
  mkPairing (enabled s) (tenant s) (nonce s) (view s) (expiresAtRef s) (disk s) (f (loop s)).
Definition setExpires (e : jsnum) (s : Pairing) : Pairing :=
  mkPairing (enabled s) (tenant s) (nonce s) (view s) e (disk s) (loop s).

Definition setCode (c : jsstring) : Pairing → Pairing :=
  on_view (λ v, mkView c (phase v) (device v) (secondsLeft v)).
Definition setPhase (p : EnrollmentPhase) : Pairing → Pairing :=
  on_view (λ v, mkView (code v) p (device v) (secondsLeft v)).
Definition setDevice (d : option (jsstring * jsstring)) : Pairing → Pairing :=
  on_view (λ v, mkView (code v) (phase v) d (secondsLeft v)).
Definition setSecondsLeft (n : jsnum) : Pairing → Pairing :=
  on_view (λ v, mkView (code v) (phase v) (device v) n).

Definition set_tasks (ts : list task) : Pairing → Pairing :=
  on_loop (λ l, mkLoop (seen1 l) (seen2 l) (acq_gen l) (watch_gen l) (countdown l) (poll l) ts (clk l)).
Definition push (t : task) (s : Pairing) : Pairing := set_tasks (tasks (loop s) ++ [t]) s.
Definition set_countdown (c : option Z) : Pairing → Pairing :=
  on_loop (λ l, mkLoop (seen1 l) (seen2 l) (acq_gen l) (watch_gen l) c (poll l) (tasks l) (clk l)).
Definition set_poll (p : option Z) : Pairing → Pairing :=
  on_loop (λ l, mkLoop (seen1 l) (seen2 l) (acq_gen l) (watch_gen l) (countdown l) p (tasks l) (clk l)).

(** [Math.max(0, Math.ceil((expiresAt - Date.now()) / 1000))] *)
Definition seconds_until (e : jsnum) (t : Z) : jsnum :=
  match e with
  | Dec m k => Dec (Z.max 0 (- ((t * 10 ^ Z.of_nat k - m) / (1000 * 10 ^ Z.of_nat k)))) 0
  | Inf true => Dec 0 0
  | other => other
  end.

(** ** Acquiring a code *)

Definition start (v : StoredCode) (s : Pairing) : Pairing :=
  setPhase waiting
    (setSecondsLeft (seconds_until (s_expiresAt v) (now s)) (setExpires (s_expiresAt v) (setCode (s_code v) s))).

Definition mint_begin (gen : nat) (key : jsstring) (s : Pairing) : Pairing := push (AcqMint gen key) s.

(** The rest of [mint] once [prepareDevicePairing] answered. *)
Definition mint_end (key : jsstring) (c : option jsstring) (ttl : option Z) (s : Pairing) : Pairing :=
  let value := mkStored (default [] c) (Dec (now s + default DEFAULT_TTL_SECONDS ttl * 1000) 0) in
  start value (on_disk (writeStored key value) s).

(** The acquire effect, up to its first request. *)
Definition acquire (s : Pairing) : Pairing :=
  let s := setCode [] (setDevice None (setPhase minting s)) in
  match readStored (disk s) (storageKey s) with
  | Some stored =>
      if num_gtb (s_expiresAt stored) (now s)
      then push (AcqStatus (acq_gen (loop s)) (storageKey s) stored) s
      else mint_begin (acq_gen (loop s)) (storageKey s) s
  | None => mint_begin (acq_gen (loop s)) (storageKey s) s
  end.

(** ** Watching it *)

(** The body of the countdown's [tick], [c] being the code it closes over; true
    when the time is up, and then the last check is on its way. *)
Definition tick (c : jsstring) (s : Pairing) : Pairing * bool :=
  let left := seconds_until (expiresAtRef s) (now s) in
  let s := setSecondsLeft left s in
  if num_gtb left 0 then (s, false)
  else (push (FinalCheck (watch_gen (loop s)) (storageKey s) c) s, true).

(** The countdown effect: the first tick comes before [setInterval], so it clears
    no interval. *)
Definition watch_countdown (c : jsstring) (s : Pairing) : Pairing :=
  let s := (tick c s).1 in set_countdown (Some (now s + 1000)) s.

Definition watch_poll (c : jsstring) (s : Pairing) : Pairing :=
  if truthy c then set_poll (Some (now s + POLL_INTERVAL_MS)) s else s.

(** ** Renders *)

Definition deps1_of (s : Pairing) : deps1 := (enabled s, tenant s, nonce s).
Definition deps2_of (s : Pairing) : deps2 := (enabled s, phase (view s), code (view s), storageKey s).

(** One commit: the effects whose dependencies changed are cleaned up and run
    again, with the values of this render. *)
Definition cleanup (c1 c2 : bool) (s : Pairing) : Pairing :=
  on_loop (λ l, mkLoop (Some (deps1_of s)) (Some (deps2_of s))
    (if c1 then S (acq_gen l) else acq_gen l) (if c2 then S (watch_gen l) else watch_gen l)
    (if c2 then None else countdown l) (if c2 then None else poll l) (tasks l) (clk l)) s.

Definition commit (s : Pairing) : Pairing :=
  let c1 := negb (bool_decide (seen1 (loop s) = Some (deps1_of s))) in
  let c2 := negb (bool_decide (seen2 (loop s) = Some (deps2_of s))) in
  let r := view s in
  let s := cleanup c1 c2 s in
  let s := if c1 && enabled s then acquire s else s in
  if c2 && enabled s && bool_decide (phase r = waiting)
  then watch_poll (code r) (watch_countdown (code r) s)
  else s.

(** The state an effect sets causes one more render, and no more. *)
Definition settle (s : Pairing) : Pairing := commit (commit s).

(** ** Replies *)

Inductive reply :=
  | RStatus (accepted : bool) (uid name : option jsstring)
  | RMinted (c : option jsstring) (ttl : option Z)
  | RFailed.

Definition connect (key : jsstring) (uid name : option jsstring) (s : Pairing) : Pairing :=
  setPhase connected (setDevice (Some (default [] uid, default [] name)) (on_disk (clearStored key) s)).

(** Which replies a request can get. *)
Definition answers (t : task) (r : reply) : bool :=
  match r, t with
  | RFailed, _ => true
  | RMinted _ _, AcqMint _ _ => true
  | RStatus _ _ _, AcqMint _ _ => false
  | RStatus _ _ _, _ => true
  | RMinted _ _, _ => false
  end.

(** The continuations.  The first one does not look at [cancelled] when its
    request failed. *)
Definition on_acq_status (gen : nat) (key : jsstring) (stored : StoredCode) (r : reply) (s : Pairing) : Pairing :=
  let cancelled := negb (gen =? acq_gen (loop s))%nat in
  match r with
  | RStatus accepted _ _ =>
      if cancelled then s
      else if accepted then mint_begin gen key (on_disk (clearStored key) s)
      else start stored s
  | _ => mint_begin gen key (on_disk (clearStored key) s)
  end.

Definition on_acq_mint (gen : nat) (key : jsstring) (r : reply) (s : Pairing) : Pairing :=
  let cancelled := negb (gen =? acq_gen (loop s))%nat in
  match r with
  | RMinted c ttl => if cancelled then s else mint_end key c ttl s
  | _ => if cancelled then s else setPhase error s
  end.

Definition on_final_check (gen : nat) (key : jsstring) (r : reply) (s : Pairing) : Pairing :=
  let cancelled := negb (gen =? watch_gen (loop s))%nat in
  match r with
  | RStatus true uid name => if cancelled then s else connect key uid name s
  | _ => if cancelled then s else setPhase expired s
  end.

Definition on_poll_check (gen : nat) (key : jsstring) (r : reply) (s : Pairing) : Pairing :=
  let cancelled := negb (gen =? watch_gen (loop s))%nat in
  match r with
  | RStatus true uid name => if cancelled then s else connect key uid name s
  | _ => s
  end.

Definition on_reply (t : task) (r : reply) (s : Pairing) : Pairing :=
  match t with
  | AcqStatus gen key stored => on_acq_status gen key stored r s
  | AcqMint gen key => on_acq_mint gen key r s
  | FinalCheck gen key _ => on_final_check gen key r s
  | PollCheck gen key _ => on_poll_check gen key r s
  end.

(** ** Events *)

Inductive pevent :=
  | PReply (i : nat) (r : reply)       (* the [i]-th request in flight answers *)
  | PElapse (ms : Z)
  | PCountdown
  | PPoll
  | PRegenerate
  | PTenant (t : jsstring)
  | PEnabled (b : bool)
  | PStorage (readable writable : bool).

Definition regenerate (s : Pairing) : Pairing :=
  let s := on_disk (clearStored (storageKey s)) s in
  mkPairing (enabled s) (tenant s) (S (nonce s)) (view s) (expiresAtRef s) (disk s) (loop s).

Definition due (t : option Z) (s : Pairing) : bool :=
  match t with Some d => d <=? now s | None => false end.

Definition handle (e : pevent) (s : Pairing) : Pairing :=
  match e with
  | PReply i r =>
      match tasks (loop s) !! i with
      | Some t => if answers t r then on_reply t r (set_tasks (delete i (tasks (loop s))) s) else s
      | None => s
      end
  | PElapse ms =>
      on_loop (λ l, mkLoop (seen1 l) (seen2 l) (acq_gen l) (watch_gen l) (countdown l) (poll l) (tasks l)
                      (clk l + Z.max 0 ms)) s
  | PCountdown =>
      if due (countdown (loop s)) s then
        let '(s, up) := tick (code (view s)) s in
        set_countdown (if up then None else Some (now s + 1000)) s
      else s
  | PPoll =>
      if due (poll (loop s)) s then
        set_poll (Some (now s + POLL_INTERVAL_MS))
          (push (PollCheck (watch_gen (loop s)) (storageKey s) (code (view s))) s)
      else s
  | PRegenerate => regenerate s
  | PTenant t => mkPairing (enabled s) t (nonce s) (view s) (expiresAtRef s) (disk s) (loop s)
  | PEnabled b => mkPairing b (tenant s) (nonce s) (view s) (expiresAtRef s) (disk s) (loop s)
  | PStorage r w => on_disk (λ d, mkDisk (items d) r w) s
  end.

Definition step (s : Pairing) (e : pevent) : Pairing := settle (handle e s).
Definition run (s : Pairing) (l : list pevent) : Pairing := fold_left step l s.

(** The first render and its effects. *)
Definition mount (en : bool) (t : jsstring) (d : Disk) (at_ : Z) : Pairing :=
  settle (mkPairing en t 0 (mkView [] minting None (Dec 0 0)) (Dec 0 0) d
            (mkLoop None None 0 0 None None [] at_)).

(** ** Live requests

    A request is live while the run of the effect that sent it was not cleaned
    up. *)

Definition live_acq (g : nat) (t : task) : bool :=
  match t with AcqStatus g' _ _ | AcqMint g' _ => (g' =? g)%nat | _ => false end.
Definition live_watch (g : nat) (t : task) : bool :=
  match t with FinalCheck g' _ _ | PollCheck g' _ _ => (g' =? g)%nat | _ => false end.
Definition is_final (t : task) : bool := match t with FinalCheck _ _ _ => true | _ => false end.
Definition task_code (t : task) : option jsstring :=
  match t with FinalCheck _ _ c | PollCheck _ _ c => Some c | _ => None end.
Definition gen_le (a w : nat) (t : task) : Prop :=
  match t with
  | AcqStatus g _ _ | AcqMint g _ => (g <= a)%nat
  | FinalCheck g _ _ | PollCheck g _ _ => (g <= w)%nat
  end.

Definition acq_count (s : Pairing) : nat := length (List.filter (live_acq (acq_gen (loop s))) (tasks (loop s))).

(** The deadline of the code has passed. *)
Definition elapsed (s : Pairing) : Prop := num_gtb (expiresAtRef s) (now s) = false.

Definition acquiring (s : Pairing) : bool := enabled s && bool_decide (phase (view s) = minting).
Definition watching (s : Pairing) : bool := enabled s && bool_decide (phase (view s) = waiting).

Definition acq_ok (s : Pairing) : Prop := acq_count s = if acquiring s then 1%nat else 0%nat.

Record watch_ok (s : Pairing) : Prop := {
  w_tasks : Forall (λ t, live_watch (watch_gen (loop s)) t = true →
              watching s = true ∧ task_code t = Some (code (view s)) ∧ (is_final t = true → elapsed s)) (tasks (loop s));
  w_wait : watching s = true → countdown (loop s) ≠ None ∨
             Exists (λ t, live_watch (watch_gen (loop s)) t = true ∧ is_final t = true) (tasks (loop s));
  w_timers : watching s = false → countdown (loop s) = None ∧ poll (loop s) = None;
  w_poll : watching s = true → code (view s) ≠ [] → poll (loop s) ≠ None;
}.

Record base (s : Pairing) : Prop := {
  b_gen : Forall (gen_le (acq_gen (loop s)) (watch_gen (loop s))) (tasks (loop s));
  b_conn : phase (view s) = connected → device (view s) ≠ None;
  b_exp : phase (view s) = expired → elapsed s;
}.

(** Between a handler and the commits that follow it. *)
Record between (s : Pairing) : Prop := {
  j_base : base s;
  j_acq : seen1 (loop s) = Some (deps1_of s) → acq_ok s;
  j_watch : seen2 (loop s) = Some (deps2_of s) → watch_ok s;
}.

(** Between two turns of the event loop. *)
Record inv (s : Pairing) : Prop := {
  i_between : between s;
  i_seen1 : seen1 (loop s) = Some (deps1_of s);
  i_seen2 : seen2 (loop s) = Some (deps2_of s);
}.

Lemma seconds_left_elapsed e t : num_gtb (seconds_until e t) 0 = num_gtb e t.
Proof.
  destruct e as [| [] |m k]; try done. cbn [seconds_until num_gtb].
  assert (0 < 10 ^ Z.of_nat k) as Hp by (apply Z.pow_pos_nonneg; lia).
  set (q := 10 ^ Z.of_nat k) in *. change (10 ^ Z.of_nat 0) with 1.
  assert ((t * q - m) / (1000 * q) < 0 ↔ t * q < m) as Hd.
  { split; intros H.
    - destruct (Z.lt_ge_cases (t * q) m) as [|Hge]; [done|].
      assert (0 <= (t * q - m) / (1000 * q)) by (apply Z.div_pos; lia). lia.
    - apply Z.div_lt_upper_bound; lia. }
  destruct (Z.ltb_spec (t * q) m); [apply Z.ltb_lt|apply Z.ltb_ge]; lia.
Qed.

Lemma no_live_acq a w ts : Forall (gen_le a w) ts → List.filter (live_acq (S a)) ts = [].
Proof.
  induction 1 as [|t ts Ht _ IH]; [done|]. cbn [List.filter]. rewrite IH.
  destruct t; cbn [live_acq gen_le] in *; try done; by rewrite (proj2 (Nat.eqb_neq _ _)) by lia.
Qed.

Lemma no_live_watch a w ts : Forall (gen_le a w) ts → Forall (λ t, live_watch (S w) t = false) ts.
Proof.
  intros H. eapply Forall_impl; [exact H|]. intros t Ht.
  destruct t; cbn [live_watch gen_le] in *; try done; apply Nat.eqb_neq; lia.
Qed.

Lemma gen_le_mono a w a' w' ts : (a <= a')%nat → (w <= w')%nat → Forall (gen_le a w) ts → Forall (gen_le a' w') ts.
Proof. intros Ha Hw H. eapply Forall_impl; [exact H|]. intros t Ht. destruct t; cbn [gen_le] in *; lia. Qed.

(** ** What the effects do to the state *)

#[local] Opaque STORAGE_PREFIX js.

Lemma watch_start_eq c s :
  let l := loop s in let v := view s in
  let left := seconds_until (expiresAtRef s) (now s) in
  watch_poll c (watch_countdown c s) =
  mkPairing (enabled s) (tenant s) (nonce s) (mkView (code v) (phase v) (device v) left) (expiresAtRef s) (disk s)
    (mkLoop (seen1 l) (seen2 l) (acq_gen l) (watch_gen l) (Some (clk l + 1000))
       (if truthy c then Some (clk l + POLL_INTERVAL_MS) else poll l)
       (tasks l ++ if num_gtb left 0 then [] else [FinalCheck (watch_gen l) (storageKey s) c]) (clk l)).
Proof.
  intros l v left. unfold watch_poll, watch_countdown, tick. fold left.
  destruct (num_gtb left 0); [rewrite app_nil_r|]; destruct (truthy c); reflexivity.
Qed.

Lemma acquire_eq s : ∃ t, live_acq (acq_gen (loop s)) t = true ∧
  acquire s =
  mkPairing (enabled s) (tenant s) (nonce s) (mkView [] minting None (secondsLeft (view s))) (expiresAtRef s) (disk s)
    (let l := loop s in mkLoop (seen1 l) (seen2 l) (acq_gen l) (watch_gen l) (countdown l) (poll l) (tasks l ++ [t]) (clk l)).
Proof.
  unfold acquire, mint_begin. repeat case_match; eexists; (split; [|reflexivity]); apply Nat.eqb_refl.
Qed.

(** A watch that has just been cleaned up. *)
Definition unwatched (s : Pairing) : Prop :=
  Forall (λ t, live_watch (watch_gen (loop s)) t = false) (tasks (loop s)) ∧
  countdown (loop s) = None ∧ poll (loop s) = None.

Lemma unwatched_ok s : unwatched s → watching s = false → watch_ok s.
Proof.
  intros (Ht & Hc & Hp) Hw. split; [|by rewrite Hw|done|by rewrite Hw].
  eapply Forall_impl; [exact Ht|]. cbn. intros t -> ?. done.
Qed.

Lemma watch_start_ok s : unwatched s → watching s = true →
  watch_ok (watch_poll (code (view s)) (watch_countdown (code (view s)) s)).
Proof.
  intros (Ht & Hc & Hp) Hw. rewrite watch_start_eq. cbv zeta.
  set (left := seconds_until _ _). assert (num_gtb left 0 = false → elapsed s) as He.
  { unfold left. by rewrite seconds_left_elapsed. }
  split; cbn [loop watch_gen tasks countdown poll view code]; try (intros; congruence).
  - apply Forall_app. split.
    + eapply Forall_impl; [exact Ht|]. cbn. intros t -> ?. done.
    + destruct (num_gtb left 0) eqn:El; [apply Forall_nil_2|]. apply Forall_singleton. intros _.
      split; [exact Hw|]. split; [done|]. intros _. by apply He.
  - intros _. left. discriminate.
  - intros Hf. exfalso. unfold watching in *. cbn in Hf. congruence.
  - intros _ Hne. destruct (code (view s)); [done|]. discriminate.
Qed.

Lemma filter_snoc {A} (p : A → bool) l x : List.filter p (l ++ [x]) = List.filter p l ++ if p x then [x] else [].
Proof. by rewrite List.filter_app. Qed.

Lemma cleanup_unwatched c1 s : base s → unwatched (cleanup c1 true s).
Proof. intros [Hg _ _]. split; [|done]. by apply (no_live_watch _ _ _ Hg). Qed.

Lemma cleanup_base c1 c2 s : base s → base (cleanup c1 c2 s).
Proof.
  intros [Hg Hc He]. split; [|exact Hc|exact He].
  eapply gen_le_mono; [| |exact Hg]; cbn; [destruct c1|destruct c2]; lia.
Qed.

Lemma cleanup_no_acq c2 s : base s → acq_count (cleanup true c2 s) = 0%nat.
Proof. intros [Hg _ _]. unfold acq_count. cbn. by rewrite (no_live_acq _ _ _ Hg). Qed.

Lemma live_acq_gen a w t : live_acq a t = true → gen_le a w t ∧ live_watch w t = false.
Proof. destruct t; cbn; try discriminate; intros ->%Nat.eqb_eq; split; done || lia. Qed.

Lemma acquire_base s : base s → base (acquire s).
Proof.
  intros [Hg _ _]. destruct (acquire_eq s) as (t & Ht & ->). split; cbn; try discriminate.
  apply Forall_app. split; [done|]. apply Forall_singleton. by apply live_acq_gen.
Qed.

Lemma acquire_acq_ok s : enabled s = true → acq_count s = 0%nat → acq_ok (acquire s).
Proof.
  intros He Hc. destruct (acquire_eq s) as (t & Ht & ->). unfold acq_ok, acq_count, acquiring in *.
  cbn [loop acq_gen tasks enabled view phase]. rewrite filter_snoc, Ht, length_app, Hc, He. reflexivity.
Qed.

Lemma watch_start_base c s : base s → base (watch_poll c (watch_countdown c s)).
Proof.
  intros [Hg Hc He]. rewrite watch_start_eq. split; cbn [loop acq_gen watch_gen tasks view phase device].
  - apply Forall_app. split; [done|]. case_match; [apply Forall_nil_2|]. apply Forall_singleton. cbn [gen_le]. lia.
  - exact Hc.
  - exact He.
Qed.

Lemma watch_start_count c s : acq_count (watch_poll c (watch_countdown c s)) = acq_count s.
Proof.
  rewrite watch_start_eq. unfold acq_count. cbn [loop acq_gen tasks]. rewrite List.filter_app, length_app.
  case_match; cbn [List.filter live_acq length]; lia.
Qed.

(** Dependencies and what React remembers of them, through the effects. *)
Lemma watch_start_frame c s : let s' := watch_poll c (watch_countdown c s) in
  deps1_of s' = deps1_of s ∧ deps2_of s' = deps2_of s ∧ seen1 (loop s') = seen1 (loop s) ∧
  seen2 (loop s') = seen2 (loop s) ∧ acquiring s' = acquiring s.
Proof. cbv zeta. rewrite watch_start_eq. done. Qed.

Lemma acquire_frame s :
  deps1_of (acquire s) = deps1_of s ∧ deps2_of (acquire s) = (enabled s, minting, [], storageKey s) ∧
  seen1 (loop (acquire s)) = seen1 (loop s) ∧ seen2 (loop (acquire s)) = seen2 (loop s) ∧
  watching (acquire s) = false ∧ enabled (acquire s) = enabled s.
Proof.
  destruct (acquire_eq s) as (t & _ & ->). repeat split. unfold watching. cbn. by rewrite andb_false_r.
Qed.

(** A restart of the watch, or none. *)
Definition rewatch (c2 : bool) (r : View) (s : Pairing) : Pairing :=
  if c2 && enabled s && bool_decide (phase r = waiting)
  then watch_poll (code r) (watch_countdown (code r) s) else s.

Lemma commit_rewatch s : commit s =
  let c1 := negb (bool_decide (seen1 (loop s) = Some (deps1_of s))) in
  let c2 := negb (bool_decide (seen2 (loop s) = Some (deps2_of s))) in
  let s' := cleanup c1 c2 s in rewatch c2 (view s) (if c1 && enabled s' then acquire s' else s').
Proof. reflexivity. Qed.

Lemma rewatch_frame c2 r s :
  deps1_of (rewatch c2 r s) = deps1_of s ∧ deps2_of (rewatch c2 r s) = deps2_of s ∧
  seen1 (loop (rewatch c2 r s)) = seen1 (loop s) ∧ seen2 (loop (rewatch c2 r s)) = seen2 (loop s) ∧
  acquiring (rewatch c2 r s) = acquiring s ∧ acq_count (rewatch c2 r s) = acq_count s ∧
  (base s → base (rewatch c2 r s)).
Proof.
  unfold rewatch. case_match; [|done]. destruct (watch_start_frame (code r) s) as (?&?&?&?&?).
  repeat split_and; try done; [apply watch_start_count|apply watch_start_base].
Qed.

Lemma watch_ok_unwatched s : watch_ok s → watching s = false → unwatched s.
Proof.
  intros [Ht _ Hm _] Hw. split; [|by apply Hm]. eapply Forall_impl; [exact Ht|]. cbn. intros t Hl.
  destruct (live_watch _ t); [|done]. destruct (Hl eq_refl). congruence.
Qed.

Lemma acquire_unwatched s : unwatched s → unwatched (acquire s).
Proof.
  intros (Ht & Hc & Hp). destruct (acquire_eq s) as (t & Hl & ->). split; [|done]. cbn.
  apply Forall_app. split; [done|]. apply Forall_singleton. by apply (live_acq_gen (acq_gen (loop s))).
Qed.

Lemma cleanup_watch_ok c1 s : watch_ok s → watch_ok (cleanup c1 false s).
Proof. intros [H1 H2 H3 H4]. split; [exact H1|exact H2|exact H3|exact H4]. Qed.

(** After a cleanup of the watch because the dependencies changed, or with none
    to watch. *)
Lemma cleanup_not_watching c1 (c2 : bool) s : base s → (c2 = false → watch_ok s) → watching s = false →
  unwatched (cleanup c1 c2 s).
Proof.
  intros Hb Hw Hn. destruct c2; [by apply cleanup_unwatched|]. apply watch_ok_unwatched; [|exact Hn].
  by apply cleanup_watch_ok, Hw.
Qed.

Lemma rewatch_ok c2 s : base s → (c2 = false → watch_ok s) →
  watch_ok (rewatch c2 (view s) (cleanup false c2 s)).
Proof.
  intros Hb Hw. unfold rewatch. destruct c2; cbn [andb]; [|by apply cleanup_watch_ok, Hw].
  pose proof (cleanup_unwatched false s Hb) as Hu.
  change (enabled (cleanup false true s) && bool_decide (phase (view s) = waiting)) with (watching (cleanup false true s)).
  destruct (watching _) eqn:E; [by apply (watch_start_ok (cleanup false true s))|by apply unwatched_ok].
Qed.

Definition fresh1 (s : Pairing) : Prop := seen1 (loop s) = Some (deps1_of s).
Definition fresh2 (s : Pairing) : Prop := seen2 (loop s) = Some (deps2_of s).

Lemma commit_same s : between s → fresh1 s → inv (commit s).
Proof.
  intros [Hb Ha Hw] E1. rewrite commit_rewatch. cbv zeta. rewrite (bool_decide_true (seen1 _ = _)) by exact E1.
  cbn [negb andb]. set (c2 := negb _). set (s' := cleanup false c2 s).
  destruct (rewatch_frame c2 (view s) s') as (D1 & D2 & S1 & S2 & Q & K & B).
  split; [split| |].
  - by apply B, cleanup_base.
  - intros _. unfold acq_ok. rewrite K, Q. exact (Ha E1).
  - intros _. apply rewatch_ok; [done|]. unfold c2. intros H%negb_false_iff%bool_decide_eq_true. by apply Hw.
  - by rewrite S1, D1.
  - by rewrite S2, D2.
Qed.

Lemma commit_changed s : between s → ¬ fresh1 s → between (commit s) ∧ fresh1 (commit s).
Proof.
  intros [Hb Ha Hw] E1. rewrite commit_rewatch. cbv zeta. rewrite (bool_decide_false (seen1 _ = _)) by exact E1.
  cbn [negb andb]. set (c2 := negb _). set (s' := cleanup true c2 s).
  assert (c2 = false → watch_ok s) as Hw' by (unfold c2; intros H%negb_false_iff%bool_decide_eq_true; by apply Hw).
  assert (base s') as Hb' by (by apply cleanup_base).
  destruct (enabled s') eqn:En.
  - destruct (rewatch_frame c2 (view s) (acquire s')) as (D1 & D2 & S1 & S2 & Q & K & B).
    destruct (acquire_frame s') as (D1' & D2' & S1' & S2' & W' & En').
    assert (fresh1 (rewatch c2 (view s) (acquire s'))) as F1 by (unfold fresh1; rewrite S1, D1, S1', D1'; reflexivity).
    split; [|exact F1]. split.
    + by apply B, acquire_base.
    + intros _. unfold acq_ok. rewrite K, Q. apply acquire_acq_ok; [done|]. by apply cleanup_no_acq.
    + intros F2. rewrite S2, S2', D2, D2' in F2. cbn [s' cleanup on_loop loop seen2] in F2.
      assert (phase (view s) = minting) as Hp by (unfold deps2_of in F2; congruence).
      assert (watching s = false) as Hn by (unfold watching; rewrite Hp; by rewrite andb_false_r).
      unfold rewatch. rewrite Hp, (bool_decide_false (minting = waiting)), andb_false_r by done.
      apply unwatched_ok; [|done]. apply acquire_unwatched. by apply cleanup_not_watching.
  - assert (watching s = false ∧ acquiring s' = false) as [Hn Hq].
    { unfold watching, acquiring. change (enabled s) with (enabled s'). by rewrite En. }
    assert (rewatch c2 (view s) s' = s') as -> by (unfold rewatch; by rewrite En, andb_false_r).
    split; [|reflexivity]. split; [done| |].
    + intros _. unfold acq_ok. rewrite Hq. by apply cleanup_no_acq.
    + intros _. apply unwatched_ok; [|exact Hn]. by apply cleanup_not_watching.
Qed.

Lemma settle_inv s : between s → inv (settle s).
Proof.
  intros H. unfold settle. destruct (decide (seen1 (loop s) = Some (deps1_of s))) as [E|E].
  - pose proof (commit_same s H E) as [H1 H2 _]. by apply commit_same.
  - pose proof (commit_changed s H E) as [H1 H2]. by apply commit_same.
Qed.

(** Two commits are enough: another one would do nothing. *)
Lemma settled s : inv s → commit s = s.
Proof.
  intros [_ E1 E2]. unfold commit. rewrite !bool_decide_true by done. cbn [negb andb].
  destruct s as [en tn n v ex d []]. unfold cleanup, on_loop. cbn in *. by rewrite E1, E2.
Qed.

(** ** What the handlers keep *)

Lemma between_disk f s : between s → between (on_disk f s).
Proof.
  intros [[H1 H2 H3] H4 H5]. split; [split; [exact H1|exact H2|exact H3]|exact H4|].
  intros E. destruct (H5 E) as [W1 W2 W3 W4]. split; [exact W1|exact W2|exact W3|exact W4].
Qed.

Lemma num_gtb_mono e t t' : num_gtb e t = false → t <= t' → num_gtb e t' = false.
Proof.
  destruct e as [| |m k]; cbn [num_gtb]; [done|done|]. rewrite !Z.ltb_ge. intros H Ht.
  assert (0 < 10 ^ Z.of_nat k) by (apply Z.pow_pos_nonneg; lia). nia.
Qed.

Lemma elapse_between ms s : between s → between (handle (PElapse ms) s).
Proof.
  intros [[H1 H2 H3] H4 H5].
  assert (elapsed s → elapsed (handle (PElapse ms) s)) as He.
  { intros H. apply (num_gtb_mono _ (now s)); [exact H|]. unfold now. cbn. lia. }
  split; [split; [exact H1|exact H2|]|exact H4|].
  - intros E. by apply He, H3.
  - intros E. destruct (H5 E) as [W1 W2 W3 W4]. split; [|exact W2|exact W3|exact W4].
    eapply Forall_impl; [exact W1|]. cbn. intros t Ht Hl. destruct (Ht Hl) as (?&?&Hf).
    split; [done|]. split; [done|]. intros Hi. by apply He, Hf.
Qed.

Lemma tenant_between t s : inv s → between (handle (PTenant t) s).
Proof.
  intros [[Hb Ha Hw] E1 E2]. destruct (decide (t = tenant s)) as [->|Hne]; [by destruct s|].
  cbn [handle]. split; [destruct Hb as [A B C]; split; [exact A|exact B|exact C]| |].
  - cbn. rewrite E1. unfold deps1_of. cbn. congruence.
  - cbn [loop]. rewrite E2. unfold deps2_of, storageKey. intros E. exfalso. apply Hne.
    apply (inj Some), pair_equal_spec in E as [_ E]. by apply app_inv_head in E.
Qed.

Lemma enabled_between b s : inv s → between (handle (PEnabled b) s).
Proof.
  intros [[Hb Ha Hw] E1 E2]. destruct (decide (b = enabled s)) as [->|Hne]; [by destruct s|].
  cbn [handle]. split; [destruct Hb as [A B C]; split; [exact A|exact B|exact C]| |].
  - cbn. rewrite E1. unfold deps1_of. cbn. congruence.
  - cbn. rewrite E2. unfold deps2_of. cbn. congruence.
Qed.

Lemma regenerate_between s : inv s → between (regenerate s).
Proof.
  intros [H E1 E2]. apply (between_disk (clearStored (storageKey s))) in H as [Hb Ha Hw].
  unfold regenerate. split; [destruct Hb as [A B C]; split; [exact A|exact B|exact C]| |].
  - cbn. rewrite E1. unfold deps1_of. cbn. intros E. injection E as E. lia.
  - intros _. destruct (Hw E2) as [W1 W2 W3 W4]. split; [exact W1|exact W2|exact W3|exact W4].
Qed.

(** A handler that leaves the dependencies alone has to keep the invariants
    themselves. *)
Lemma same_deps_between s s' : inv s → base s' → acq_ok s' → watch_ok s' → between s'.
Proof. by split. Qed.

Lemma push_watch_count t s : live_acq (acq_gen (loop s)) t = false → acq_count (push t s) = acq_count s.
Proof. intros Ht. unfold acq_count, push. cbn. rewrite filter_snoc, Ht. by rewrite app_nil_r. Qed.

Lemma push_base t s : base s → gen_le (acq_gen (loop s)) (watch_gen (loop s)) t → base (push t s).
Proof. intros [A B C] Ht. split; [|exact B|exact C]. cbn. apply Forall_app. split; [done|by apply Forall_singleton]. Qed.

Lemma due_some t s : due t s = true → t ≠ None.
Proof. by destruct t. Qed.

Lemma timer_watching s : watch_ok s → countdown (loop s) ≠ None ∨ poll (loop s) ≠ None → watching s = true.
Proof. intros [_ _ Hm _] H. destruct (watching s); [done|]. destruct (Hm eq_refl). naive_solver. Qed.

Lemma poll_between s : inv s → between (handle PPoll s).
Proof.
  intros Hi. pose proof Hi as [[Hb Ha Hw] E1 E2]. specialize (Ha E1). specialize (Hw E2). cbn [handle].
  destruct (due (poll (loop s)) s) eqn:Ed; [|by split].
  apply due_some in Ed. assert (watching s = true) as Hs by (apply timer_watching; [done|by right]).
  set (t := PollCheck _ _ _).
  assert (base (push t s)) as [A B C] by (apply push_base; [done|cbn; lia]).
  pose proof (push_watch_count t s eq_refl) as K. destruct Hw as [W1 W2 W3 W4].
  apply (same_deps_between s); [done|split; [exact A|exact B|exact C]|unfold acq_ok; etransitivity; [exact K|exact Ha]|].
  split.
  - cbn. apply Forall_app. split; [exact W1|]. apply Forall_singleton. intros _. split; [exact Hs|]. by split.
  - intros _. destruct (W2 Hs) as [?|He]; [by left|]. right. cbn. apply Exists_app. by left.
  - intros Hf. exfalso. change (watching s = false) in Hf. congruence.
  - intros _ _. discriminate.
Qed.

Lemma tick_eq c s : let left := seconds_until (expiresAtRef s) (now s) in
  tick c s = if num_gtb left 0 then (setSecondsLeft left s, false)
             else (setSecondsLeft left (push (FinalCheck (watch_gen (loop s)) (storageKey s) c) s), true).
Proof. reflexivity. Qed.

Lemma countdown_between s : inv s → between (handle PCountdown s).
Proof.
  intros Hi. pose proof Hi as [[Hb Ha Hw] E1 E2]. specialize (Ha E1). specialize (Hw E2). cbn [handle].
  destruct (due (countdown (loop s)) s) eqn:Ed; [|by split].
  apply due_some in Ed. assert (watching s = true) as Hs by (apply timer_watching; [done|by left]).
  rewrite tick_eq. cbv zeta. set (left := seconds_until _ _). destruct Hw as [W1 W2 W3 W4].
  destruct (num_gtb left 0) eqn:El.
  - destruct Hb as [A B C].
    apply (same_deps_between s); [done|split; [exact A|exact B|exact C]|exact Ha|].
    split; [exact W1|intros _; left; discriminate| |exact W4].
    intros Hf. exfalso. change (watching s = false) in Hf. congruence.
  - set (t := FinalCheck _ _ _).
    assert (base (push t s)) as [A B C] by (apply push_base; [done|cbn; lia]).
    pose proof (push_watch_count t s eq_refl) as K.
    apply (same_deps_between s); [done|split; [exact A|exact B|exact C]|unfold acq_ok; etransitivity; [exact K|exact Ha]|].
    split; [| | |exact W4].
    + cbn. apply Forall_app. split; [exact W1|]. apply Forall_singleton. intros _. split; [exact Hs|].
      split; [done|]. intros _. unfold elapsed. cbn. unfold left in El. by rewrite seconds_left_elapsed in El.
    + intros _. right. cbn. apply Exists_app. right. apply Exists_cons_hd. split; [apply Nat.eqb_refl|done].
    + intros Hf. exfalso. change (watching s = false) in Hf. congruence.
Qed.

(** ** Replies *)

Lemma live_watch_not_acq a w t : live_watch w t = true → live_acq a t = false.
Proof. by destruct t. Qed.

Section Reply.
Context (s : Pairing) (Hi : inv s) (l1 l2 : list task) (t : task) (Ht : tasks (loop s) = l1 ++ t :: l2).
Let s0 := set_tasks (l1 ++ l2) s.

Lemma rest_base : base s0 ∧ gen_le (acq_gen (loop s)) (watch_gen (loop s)) t.
Proof.
  destruct Hi as [[[A B C] _ _] _ _]. rewrite Ht in A. apply Forall_app in A as [A1 A2].
  apply Forall_cons in A2 as [A2 A3]. split; [|done]. split; [|exact B|exact C]. cbn. by apply Forall_app.
Qed.

Lemma rest_count : ((if live_acq (acq_gen (loop s)) t then 1 else 0) + acq_count s0)%nat = acq_count s.
Proof.
  unfold acq_count, s0. cbn. rewrite Ht, !List.filter_app, !length_app. cbn [List.filter].
  destruct (live_acq _ t); cbn [length]; lia.
Qed.

Lemma acq_live : live_acq (acq_gen (loop s)) t = true → acquiring s = true ∧ acq_count s0 = 0%nat.
Proof.
  intros Hl. pose proof rest_count as K. rewrite Hl in K. destruct Hi as [[_ Ha _] E1 _]. specialize (Ha E1).
  unfold acq_ok in Ha. destruct (acquiring s); [split; [done|lia]|lia].
Qed.

Lemma acq_dead : live_acq (acq_gen (loop s)) t = false → acq_ok s0.
Proof.
  intros Hl. pose proof rest_count as K. rewrite Hl in K. destruct Hi as [[_ Ha _] E1 _]. specialize (Ha E1).
  unfold acq_ok in *. etransitivity; [exact K|exact Ha].
Qed.

Lemma watch_live : live_watch (watch_gen (loop s)) t = true →
  watching s = true ∧ task_code t = Some (code (view s)) ∧ (is_final t = true → elapsed s).
Proof.
  destruct Hi as [[_ _ Hw] _ E2]. destruct (Hw E2) as [W _ _ _]. rewrite Ht in W.
  apply Forall_app in W as [_ W]. by apply Forall_cons in W as [W _].
Qed.

Lemma rest_watch : live_watch (watch_gen (loop s)) t = false ∨ is_final t = false → watch_ok s0.
Proof.
  intros Hd. destruct Hi as [[_ _ Hw] _ E2]. destruct (Hw E2) as [W1 W2 W3 W4]. split; [| |exact W3|exact W4].
  - rewrite Ht in W1. apply Forall_app in W1 as [W1 W1']. apply Forall_cons in W1' as [_ W1']. cbn.
    apply Forall_app. by split.
  - intros H. destruct (W2 H) as [?|He]; [by left|]. right. rewrite Ht in He. cbn.
    apply Exists_app. apply Exists_app in He as [He|He]; [by left|].
    apply Exists_cons in He as [[E F]|He]; [|by right]. destruct Hd; congruence.
Qed.

(** An acquisition that goes on with another request. *)
Lemma again_between f t' : live_acq (acq_gen (loop s)) t' = live_acq (acq_gen (loop s)) t →
  live_watch (watch_gen (loop s)) t = false → live_watch (watch_gen (loop s)) t' = false →
  gen_le (acq_gen (loop s)) (watch_gen (loop s)) t' → between (push t' (on_disk f s0)).
Proof.
  intros Hl Hd Hd' Hg. apply (between_disk f (push t' s0)).
  apply (same_deps_between s); [done|by apply push_base; [apply rest_base|]| |].
  - destruct Hi as [[_ Ha _] E1 _]. specialize (Ha E1). pose proof rest_count as K.
    unfold acq_ok, acq_count in *. cbn in *. rewrite filter_snoc, length_app, Hl.
    etransitivity; [|exact Ha]. destruct (live_acq _ t); cbn [length] in *; lia.
  - destruct (rest_watch (or_introl Hd)) as [W1 W2 W3 W4]. split; [| |exact W3|exact W4].
    + cbn. apply Forall_app. split; [exact W1|]. apply Forall_singleton. cbn. by rewrite Hd'.
    + intros H. destruct (W2 H) as [?|He]; [by left|]. right. cbn. apply Exists_app. by left.
Qed.

(** An acquisition that ends, with a new phase. *)
Lemma acquired_between s' : live_acq (acq_gen (loop s)) t = true →
  loop s' = loop s0 → enabled s' = enabled s → phase (view s') = waiting ∨ phase (view s') = error → between s'.
Proof.
  intros Hl Hlo Hen Hp. destruct (acq_live Hl) as [Hq K]. apply andb_true_iff in Hq as [_ Hm%bool_decide_eq_true].
  split.
  - destruct rest_base as [[A B C] _]. split; rewrite ?Hlo; [exact A| |]; intros E; rewrite E in Hp; naive_solver.
  - intros _. unfold acq_ok, acquiring. assert (acq_count s' = 0%nat) as -> by (unfold acq_count; by rewrite Hlo).
    rewrite bool_decide_false by (intros E; rewrite E in Hp; naive_solver). by rewrite andb_false_r.
  - rewrite Hlo. intros E. exfalso. change (seen2 (loop s0)) with (seen2 (loop s)) in E. rewrite (i_seen2 s Hi) in E.
    unfold deps2_of in E. rewrite Hm in E. assert (phase (view s') = minting) as E' by congruence.
    rewrite E' in Hp. naive_solver.
Qed.

(** A watch that ends, with a new phase. *)
Lemma watched_between s' : live_watch (watch_gen (loop s)) t = true →
  loop s' = loop s0 → phase (view s') = connected ∧ device (view s') ≠ None ∨
  phase (view s') = expired ∧ elapsed s' → between s'.
Proof.
  intros Hl Hlo Hp. destruct (watch_live Hl) as [Hw _]. apply andb_true_iff in Hw as [_ Hm%bool_decide_eq_true].
  split.
  - destruct rest_base as [[A B C] _]. split; rewrite ?Hlo; [exact A| |]; intros E; rewrite E in Hp;
      by destruct Hp as [[? ?]|[? ?]].
  - intros _. assert (live_acq (acq_gen (loop s)) t = false) as Hd by (by eapply live_watch_not_acq).
    pose proof (acq_dead Hd) as K. unfold acq_ok, acquiring in *.
    assert (acq_count s' = acq_count s0) as -> by (unfold acq_count; by rewrite Hlo). rewrite K.
    change (phase (view s0)) with (phase (view s)). rewrite Hm.
    rewrite !bool_decide_false by (done || by intros E; rewrite E in Hp; destruct Hp as [[? ?]|[? ?]]). by rewrite !andb_false_r.
  - rewrite Hlo. intros E. exfalso. change (seen2 (loop s0)) with (seen2 (loop s)) in E. rewrite (i_seen2 s Hi) in E.
    unfold deps2_of in E. assert (phase (view s') = phase (view s)) as E' by congruence.
    rewrite E', Hm in Hp. by destruct Hp as [[? ?]|[? ?]].
Qed.

Lemma dropped_between : live_acq (acq_gen (loop s)) t = false →
  live_watch (watch_gen (loop s)) t = false ∨ is_final t = false → between s0.
Proof.
  intros Ha Hw. apply (same_deps_between s); [done|apply rest_base|by apply acq_dead|by apply rest_watch].
Qed.

End Reply.

Lemma reply_between s l1 l2 t r : inv s → tasks (loop s) = l1 ++ t :: l2 → answers t r = true →
  between (on_reply t r (set_tasks (l1 ++ l2) s)).
Proof.
  intros Hi Ht Hr. pose proof (dropped_between s Hi l1 l2 t Ht) as Hdrop.
  pose proof (again_between s Hi l1 l2 t Ht) as Hagain. pose proof (acquired_between s Hi l1 l2 t Ht) as Hacq.
  pose proof (watched_between s Hi l1 l2 t Ht) as Hwat. pose proof (watch_live s Hi l1 l2 t Ht) as Hlive.
  destruct (rest_base s Hi l1 l2 t Ht) as [_ Hg]. clear Ht. set (s0 := set_tasks (l1 ++ l2) s) in *.
  destruct t as [g k st|g k|g k c|g k c]; cbn [on_reply live_acq live_watch is_final] in *;
    unfold on_acq_status, on_acq_mint, on_final_check, on_poll_check.
  - change (acq_gen (loop s0)) with (acq_gen (loop s)) in *.
    assert (between (mint_begin g k (on_disk (clearStored k) s0))) as Hm by (by apply Hagain).
    destruct r as [a u n| |]; [|discriminate|exact Hm].
    destruct (g =? acq_gen (loop s))%nat; cbn [negb]; [|apply Hdrop; [done|by left]].
    destruct a; [exact Hm|]. apply Hacq; [done..|by left].
  - change (acq_gen (loop s0)) with (acq_gen (loop s)) in *.
    destruct (g =? acq_gen (loop s))%nat; cbn [negb].
    + destruct r; [discriminate| |]; (apply Hacq; [done..|]); [by left|by right].
    + assert (between s0) by (apply Hdrop; [done|by left]). by destruct r.
  - change (watch_gen (loop s0)) with (watch_gen (loop s)) in *.
    destruct (g =? watch_gen (loop s))%nat; cbn [negb].
    + destruct (Hlive eq_refl) as (_ & _ & He). specialize (He eq_refl).
      destruct r as [[] u n| |]; (apply Hwat; [done..|]); [left; split; [done|discriminate]|right; by split..].
    + assert (between s0) by (apply Hdrop; [done|by left]). by destruct r as [[] u n| |].
  - change (watch_gen (loop s0)) with (watch_gen (loop s)) in *.
    destruct (g =? watch_gen (loop s))%nat; cbn [negb].
    + destruct r as [[] u n| |]; [|apply Hdrop; [done|by right]..].
      apply Hwat; [done..|]. left. split; [done|discriminate].
    + assert (between s0) by (apply Hdrop; [done|by left]). by destruct r as [[] u n| |].
Qed.

Lemma handle_between e s : inv s → between (handle e s).
Proof.
  intros Hi. destruct e as [i r|ms| | | |tn|b|a b].
  - cbn [handle]. destruct (tasks (loop s) !! i) as [t|] eqn:Hl; [|by destruct Hi].
    destruct (answers t r) eqn:Hr; [|by destruct Hi].
    pose proof (take_drop_middle _ _ _ Hl) as Hm. rewrite delete_take_drop. by apply reply_between.
  - apply elapse_between. by destruct Hi.
  - by apply countdown_between.
  - by apply poll_between.
  - by apply regenerate_between.
  - by apply tenant_between.
  - by apply enabled_between.
  - apply between_disk. by destruct Hi.
Qed.

Lemma step_inv s e : inv s → inv (step s e).
Proof. intros H. by apply settle_inv, handle_between. Qed.

Lemma run_inv l s : inv s → inv (run s l).
Proof. revert s. induction l as [|e l IH]; intros s H; [done|]. cbn. by apply IH, step_inv. Qed.

Lemma mount_inv en t d at_ : inv (mount en t d at_).
Proof. apply settle_inv. split; [split; [apply Forall_nil_2|discriminate..]|discriminate..]. Qed.

(** ** How the hook comes to say that a device connected *)

Definition shown (s : Pairing) : EnrollmentPhase * jsstring * option (jsstring * jsstring) :=
  (phase (view s), code (view s), device (view s)).

Lemma rewatch_shown c2 r s : shown (rewatch c2 r s) = shown s.
Proof. unfold rewatch. case_match; [|done]. by rewrite watch_start_eq. Qed.

Lemma commit_shown s : shown (commit s) = shown s ∨ phase (view (commit s)) = minting.
Proof.
  rewrite commit_rewatch. cbv zeta. set (c1 := negb (bool_decide (seen1 _ = _))).
  set (c2 := negb (bool_decide (seen2 _ = _))). destruct (c1 && enabled (cleanup c1 c2 s)).
  - right. pose proof (rewatch_shown c2 (view s) (acquire (cleanup c1 c2 s))) as E.
    assert (phase (view (acquire (cleanup c1 c2 s))) = minting) as Ha by (by destruct (acquire_eq (cleanup c1 c2 s)) as (t & _ & ->)).
    rewrite <- Ha. unfold shown in E. congruence.
  - left. by rewrite rewatch_shown.
Qed.

Lemma settle_connected s : phase (view (settle s)) = connected → shown (settle s) = shown s.
Proof.
  unfold settle. intros H. destruct (commit_shown (commit s)) as [E|E]; [|congruence].
  assert (phase (view (commit s)) = connected) as H' by (unfold shown in E; congruence).
  destruct (commit_shown s) as [E'|E']; congruence.
Qed.

(** The only handler that says so is the reply of a live watch. *)
Lemma handle_connected s e : phase (view s) ≠ connected → phase (view (handle e s)) = connected →
  ∃ i t uid name, e = PReply i (RStatus true uid name) ∧ tasks (loop s) !! i = Some t ∧
    live_watch (watch_gen (loop s)) t = true ∧
    shown (handle e s) = (connected, code (view s), Some (default [] uid, default [] name)).
Proof.
  intros Hn. destruct e as [i r|ms| | | |tn|b|a b]; cbn [handle]; try (intros H; exfalso; exact (Hn H)).
  - destruct (tasks (loop s) !! i) as [t|] eqn:Hl; [|done]. destruct (answers t r) eqn:Hr; [|done].
    destruct t as [g k st|g k|g k c|g k c]; cbn [on_reply];
      unfold on_acq_status, on_acq_mint, on_final_check, on_poll_check.
    all: set (live := (g =? _)%nat); destruct r as [[] u n| |]; destruct live eqn:E; cbn [negb]; try (intros H; discriminate H);
      try (intros H; exfalso; exact (Hn H)); intros _.
    all: eexists i, _, u, n; split; [done|]; split; [exact Hl|]; split; [exact E|done].
  - destruct (due _ s); [|intros H; exfalso; exact (Hn H)]. rewrite tick_eq. cbv zeta.
    destruct (num_gtb _ 0); intros H; exfalso; exact (Hn H).
  - destruct (due _ s); intros H; exfalso; exact (Hn H).
Qed.

(** C14: However replies, ticks, clicks and changes of namespace interleave: while
    the hook says "minting" exactly one request that will end it is in flight;
    while it says "waiting" the countdown is running or the last check is in
    flight, and the code is polled; no interval runs otherwise.  It says "expired"
    only once the deadline has passed, and it says "connected" only because a
    request about the code on screen was answered "accepted", naming that
    device. *)
Theorem pairing_enrollment (en : bool) (t : jsstring) (d : Disk) (at0 : Z) (events : list pevent) :
  let s := run (mount en t d at0) events in
  (acquiring s = true → acq_count s = 1%nat) ∧
  (watching s = true → countdown (loop s) ≠ None ∨
     Exists (λ t, live_watch (watch_gen (loop s)) t = true ∧ is_final t = true) (tasks (loop s))) ∧
  (watching s = true → code (view s) ≠ [] → poll (loop s) ≠ None) ∧
  (watching s = false → countdown (loop s) = None ∧ poll (loop s) = None) ∧
  (phase (view s) = expired → num_gtb (expiresAtRef s) (now s) = false) ∧
  (phase (view s) = connected → device (view s) ≠ None) ∧
  (∀ e, phase (view s) ≠ connected → phase (view (step s e)) = connected →
     ∃ i t uid name, e = PReply i (RStatus true uid name) ∧ tasks (loop s) !! i = Some t ∧
       task_code t = Some (code (view s)) ∧
       shown (step s e) = (connected, code (view s), Some (default [] uid, default [] name))).
Proof.
  intros s. assert (inv s) as Hi by (apply run_inv, mount_inv).
  pose proof Hi as [[[Hg Hc He] Ha Hw] E1 E2]. specialize (Ha E1). specialize (Hw E2).
  destruct Hw as [W1 W2 W3 W4]. split; [|split_and!; try done].
  - intros H. unfold acq_ok in Ha. by rewrite H in Ha.
  - intros e Hn Hs. pose proof (settle_connected _ Hs) as E.
    assert (phase (view (handle e s)) = connected) as Hh by (unfold shown in E; unfold step in Hs; congruence).
    destruct (handle_connected s e Hn Hh) as (i & tk & u & n & -> & Hl & Hv & Hsh).
    exists i, tk, u, n. split; [done|]. split; [done|]. split; [|by unfold step; rewrite E].
    rewrite Forall_lookup in W1. by apply (W1 _ _ Hl).
Qed.

(** ** A late failure of a superseded check

    A code is cached and its status is asked for; the user regenerates and gets a
    new code; the first request then fails.  Its continuation does not look at
    [cancelled]: it removes the new code from the cache and mints one more, whose
    reply nobody will use. *)
Lemma superseded_check_drops_code :
  let key := STORAGE_PREFIX ++ js "t" in
  let d := writeStored key (mkStored (js "OLD") (Dec 9000 0)) (mkDisk ∅ true true) in
  let s1 := run (mount true (js "t") d 0) [PRegenerate; PReply 1 (RMinted (Some (js "NEW")) None)] in
  let s2 := step s1 (PReply 0 RFailed) in
  readStored (disk s1) key = Some (mkStored (js "NEW") (Dec 600000 0)) ∧
  readStored (disk s2) key = None ∧ code (view s2) = js "NEW" ∧ phase (view s2) = waiting ∧
  tasks (loop s2) = [AcqMint 1 key].
Proof. vm_compute. repeat split; reflexivity. Qed.
