(* ===== verification/SignUp.v ===== *)
(** * Errors of the API and the sign-up store (api/errors.ts, stores/signUpStore.ts)

    A caught value is JSON with the status the error interceptor attached, or
    something else.  The actions of the store are split at their request: what
    runs before it, and what runs with its answer.

    Lemmas: how a sign-up can end, and that a validation that was aborted writes
    nothing. *)

From S2P Require Import Prelude JsString JsJson.

(** ** api/errors.ts *)

(** What a [catch] gets: an object the SDK threw, or any other value. *)
Inductive caught :=
  | CObject (members : list (jsstring * json))
  | COther.

(** The status of an [SdkHttpError]; nothing when the guard is false. *)
Definition isSdkError (err : caught) : option jsnum :=
  match err with
  | CObject ms => match assoc (js "status") ms with Some (JNum n) => Some n | _ => None end
  | COther => None
  end.

Definition GENERIC_MESSAGE : jsstring := js "Something went wrong. Please try again.".

Definition unavailable : jsstring := js "The service is unavailable right now. Try again shortly.".

Definition STATUS_MESSAGES (status : Z) : option jsstring :=
  if status =? 400 then Some (js "Some values are invalid. Review the form and try again.")
  else if status =? 401 then Some (js "Your session has expired. Sign in again.")
  else if status =? 402 then Some (js "This action needs an active subscription.")
  else if status =? 403 then Some (js "You do not have permission to do this.")
  else if status =? 404 then Some (js "We could not find what you asked for.")
  else if status =? 409 then Some (js "That value is already in use.")
  else if status =? 423 then Some (js "This account is not active yet.")
  else if status =? 429 then Some (js "Too many attempts. Wait a moment and try again.")
  else if status =? 500 then Some (js "Something went wrong on our side. Try again.")
  else if (status =? 502) || (status =? 503) || (status =? 504) then Some unavailable
  else None.

Definition apiErrorMessage (err : caught) : jsstring :=
  match isSdkError err with
  | None => GENERIC_MESSAGE
  | Some status =>
      match as_integer status with
      | Some st => nullish (STATUS_MESSAGES st) GENERIC_MESSAGE
      | None => GENERIC_MESSAGE
      end
  end.

Definition string_entry (e : jsstring * json) : option (jsstring * jsstring) :=
  match e with (k, JStr v) => Some (k, v) | _ => None end.

Definition apiErrorFields (err : caught) : list (jsstring * jsstring) :=
  match isSdkError err, err with
  | Some _, CObject ms =>
      match assoc (js "fields") ms with Some (JObj fs) => omap string_entry fs | _ => [] end
  | _, _ => []
  end.

(** ** The store *)

Inductive ValidationStatus := idle | processing | success | failed | failed_token.

Record SignUpState := mkSignUp {
  signUpToken : option jsstring;
  signUpTenant : option jsstring;
  signUpLoading : bool;
  signUpError : option jsstring;
  signUpServerFields : list jsstring;
  resendLoading : bool;
  resendError : option jsstring;
  validationStatus : ValidationStatus;
}.

Definition signUp_initial : SignUpState := mkSignUp None None false None [] false None idle.

(** [signUp] up to [registerUser], and from its answer on. *)
Definition signUp_begin (s : SignUpState) : SignUpState :=
  mkSignUp None None true None [] (resendLoading s) (resendError s) (validationStatus s).

Definition signUp_ok (token tenant : option jsstring) (s : SignUpState) : SignUpState * option jsstring :=
  (mkSignUp token tenant false (signUpError s) (signUpServerFields s) (resendLoading s) (resendError s)
     (validationStatus s), token).

Definition signUp_catch (error : caught) (s : SignUpState) : SignUpState * option jsstring :=
  let fields := map fst (apiErrorFields error) in
  if (0 <? length fields)%nat
  then (mkSignUp (signUpToken s) (signUpTenant s) false (signUpError s) fields (resendLoading s) (resendError s)
          (validationStatus s), None)
  else (mkSignUp (signUpToken s) (signUpTenant s) false (Some (apiErrorMessage error)) (signUpServerFields s)
          (resendLoading s) (resendError s) (validationStatus s), None).

Definition clearSignUpServerField (field : jsstring) (s : SignUpState) : SignUpState :=
  mkSignUp (signUpToken s) (signUpTenant s) (signUpLoading s) (signUpError s)
    (List.filter (λ f, negb (bool_decide (f = field))) (signUpServerFields s)) (resendLoading s) (resendError s)
    (validationStatus s).

Definition resetSignUpErrors (s : SignUpState) : SignUpState :=
  mkSignUp (signUpToken s) (signUpTenant s) (signUpLoading s) None [] (resendLoading s) (resendError s)
    (validationStatus s).

Definition set_resend (loading : bool) (e : option jsstring) (s : SignUpState) : SignUpState :=
  mkSignUp (signUpToken s) (signUpTenant s) (signUpLoading s) (signUpError s) (signUpServerFields s) loading e
    (validationStatus s).

Definition resendEmail_begin (s : SignUpState) : SignUpState := set_resend true None s.
Definition resendEmail_end (ok : bool) (s : SignUpState) : SignUpState * bool :=
  if ok then (set_resend false (resendError s) s, true)
  else (set_resend false (Some (js "Failed to resend email. Please try again.")) s, false).
Definition resetResendError (s : SignUpState) : SignUpState := set_resend (resendLoading s) None s.

Definition set_validation (v : ValidationStatus) (s : SignUpState) : SignUpState :=
  mkSignUp (signUpToken s) (signUpTenant s) (signUpLoading s) (signUpError s) (signUpServerFields s)
    (resendLoading s) (resendError s) v.

Definition validateAccount_begin (s : SignUpState) : SignUpState := set_validation processing s.

(** The answer: nothing thrown, or the caught value; [aborted] is the state of
    the signal when the answer is handled. *)
Definition validateAccount_end (answer : option caught) (aborted : bool) (s : SignUpState) : SignUpState :=
  match answer with
  | None => set_validation success s
  | Some error =>
      if aborted then s
      else
        let status := isSdkError error in
        if bool_decide (status = Some (Dec 400 0)) || bool_decide (status = Some (Dec 401 0))
        then set_validation failed_token s else set_validation failed s
  end.

Definition resetValidation (s : SignUpState) : SignUpState := set_validation idle s.
Definition setValidationFailed (s : SignUpState) : SignUpState := set_validation failed s.

(** ** How a sign-up ends *)

(** A failed sign-up shows the fields the server named, and otherwise a message,
    never both and never neither; the form is free again and there is no
    token. *)
Lemma signUp_failure s error :
  let '(s', r) := signUp_catch error (signUp_begin s) in
  r = None ∧ signUpLoading s' = false ∧ signUpToken s' = None ∧ signUpTenant s' = None ∧
  (signUpServerFields s' = [] ↔ signUpError s' ≠ None) ∧
  (∀ f, f ∈ signUpServerFields s' ↔ ∃ reason, (f, reason) ∈ apiErrorFields error).
Proof.
  assert (∀ f, f ∈ map fst (apiErrorFields error) ↔ ∃ reason, (f, reason) ∈ apiErrorFields error) as Hf.
  { intros f. rewrite list_elem_of_fmap. split; [intros ([a b] & -> & H); by exists b|intros [b H]; by exists (f, b)]. }
  unfold signUp_catch. destruct (map fst (apiErrorFields error)) as [|a l]; cbn [length Nat.ltb Nat.leb].
  - split_and!; [done..| |exact Hf]. by split.
  - split_and!; [done..| |exact Hf]. cbn. by split.
Qed.

(** Every field shown is one the reply named with a text. *)
Lemma apiErrorFields_spec ms n fs k v :
  assoc (js "status") ms = Some (JNum n) → assoc (js "fields") ms = Some (JObj fs) →
  (k, v) ∈ apiErrorFields (CObject ms) ↔ (k, JStr v) ∈ fs.
Proof.
  intros Hs Hf. unfold apiErrorFields, isSdkError. rewrite Hs, Hf, list_elem_of_omap. split.
  - intros ([k' []] & Hi & E); try discriminate. cbn in E. by simplify_eq.
  - intros H. by exists (k, JStr v).
Qed.

(** Two validations of which the first was aborted: the second decides. *)
Lemma aborted_validation_is_silent s e answer :
  validateAccount_end (Some e) true (validateAccount_end answer false (validateAccount_begin s)) =
  validateAccount_end answer false (validateAccount_begin s).
Proof. reflexivity. Qed.
