(* ===== verification/SshIdentity.v ===== *)
(** * SSH identities (utils/sshIdentity.ts)

    How an enrolled key ends and what is shown of it, the short form of a
    fingerprint and the fields of the enrolment requests.  [Date], its locale
    format and date-fns are parameters.  The copy of [sshIdentitySource] is text
    and is left out.

    Lemmas: which ending a key shows, and what a short fingerprint keeps. *)

From S2P Require Import Prelude JsString SignUp.

Definition isAlreadyEnrolled (err : caught) : bool := bool_decide (isSdkError err = Some (Dec 409 0)).

Definition keyExpiryPayload (expiresIn : jsstring) : option jsnum :=
  let days := Number expiresIn in
  if num_gtb days 0 then Some days else None.

Definition serviceAccountLifecyclePayload (expiresIn : jsstring) (singleUse : bool) : bool * option jsnum :=
  (singleUse, keyExpiryPayload expiresIn).

Definition shortFingerprint (fingerprint : jsstring) : jsstring :=
  let '(prefix, body) :=
    match indexOf fingerprint (js ":") with
    | Some i => (take (i + 1) fingerprint, drop (i + 1) fingerprint)
    | None => ([], fingerprint)
    end in
  if (12 <? length body)%nat then prefix ++ take 12 body ++ js "…" else fingerprint.

Inductive IdentityStatusTone := dead | armed | quiet.
Definition EXPIRY_WARNING_DAYS : Z := 14.
Inductive EndKind := consumed | expired | single_use_end | expires | never.

Record IdentityEndOfLife := mkEnd {
  end_kind : EndKind;
  end_value : jsstring;
  end_tone : IdentityStatusTone;
  end_title : option jsstring;
}.

(** Absent and empty members behave alike: the code tests for truth. *)
Record Lifecycle := mkLifecycle {
  expires_at : option jsstring;
  consumed_at : option jsstring;
  single_use : bool;
}.

Section Life.
(** [new Date(s).getTime()], [NaN] being [None]. *)
Variable Date_time : jsstring → option Z.
(** [new Date(s).toLocaleString()] *)
Variable toLocaleString : jsstring → jsstring.
(** [format(_, "MMM d, yyyy")] of a valid date, and [differenceInDays(new Date(s), now)]. *)
Variable format_day : Z → jsstring.
Variable differenceInDays : Z → Z → Z.

(** utils/date.ts; [format] throws on an invalid date. *)
Definition formatDateShort (dateStr : jsstring) : res jsstring :=
  if negb (truthy dateStr) then Ok (js "—")
  else match Date_time dateStr with
       | Some t => Ok (format_day t)
       | None => Throw (Error (js "Invalid time value"))
       end.

(** A comparison with the [NaN] of an invalid date is false. *)
Definition expiry_tone (at_ : jsstring) (now : Z) : IdentityStatusTone :=
  match Date_time at_ with
  | Some t => if differenceInDays t now <=? EXPIRY_WARNING_DAYS then armed else quiet
  | None => quiet
  end.

Definition sshIdentityEndOfLife (identity : Lifecycle) (now : Z) : res IdentityEndOfLife :=
  let at_ := default [] (expires_at identity) in
  if is_truthy (consumed_at identity) then
    Ok (mkEnd consumed (js "consumed") dead (Some (toLocaleString (default [] (consumed_at identity)))))
  else if is_truthy (expires_at identity) && match Date_time at_ with Some t => t <=? now | None => false end then
    Ok (mkEnd expired (js "expired") dead (Some (toLocaleString at_)))
  else if single_use identity then Ok (mkEnd single_use_end (js "on first use") armed None)
  else if is_truthy (expires_at identity) then
    match formatDateShort at_ with
    | Ok value => Ok (mkEnd expires value (expiry_tone at_ now) (Some (toLocaleString at_)))
    | Throw e => Throw e
    end
  else Ok (mkEnd never (js "never") quiet None).

Definition STATUS_LABEL (k : EndKind) : option jsstring :=
  match k with
  | consumed => Some (js "Consumed")
  | expired => Some (js "Expired")
  | single_use_end => Some (js "Single-use")
  | expires => Some (js "Expires")
  | never => None
  end.

(** The label, the tone and the tooltip of the badge. *)
Definition badge (end_ : IdentityEndOfLife) : option (jsstring * IdentityStatusTone * option jsstring) :=
  match STATUS_LABEL (end_kind end_) with
  | None => None
  | Some label =>
      Some (match end_kind end_ with expires => label ++ js " " ++ end_value end_ | _ => label end,
            end_tone end_, end_title end_)
  end.

Definition sshIdentityStatus (identity : Lifecycle) (now : Z)
    : res (option (jsstring * IdentityStatusTone * option jsstring)) :=
  match sshIdentityEndOfLife identity now with
  | Ok end_ => Ok (badge end_)
  | Throw e => Throw e
  end.

Definition shown_dead (identity : Lifecycle) (now : Z) : Prop :=
  ∃ e, sshIdentityEndOfLife identity now = Ok e ∧ end_tone e = dead.

Lemma expiry_tone_alive at_ now : expiry_tone at_ now ≠ dead.
Proof. unfold expiry_tone. repeat case_match; discriminate. Qed.

(** A key is shown dead exactly when it was consumed or its deadline has passed,
    and once dead it stays dead. *)
Lemma dead_exact identity now :
  shown_dead identity now ↔
  is_truthy (consumed_at identity) = true ∨
  (is_truthy (expires_at identity) = true ∧
   ∃ t, Date_time (default [] (expires_at identity)) = Some t ∧ t <= now).
Proof.
  unfold shown_dead, sshIdentityEndOfLife. destruct (is_truthy (consumed_at identity)).
  { split; [by left|intros _; eexists; by split]. }
  destruct (is_truthy (expires_at identity)); cbn [andb].
  - destruct (Date_time _) as [t|] eqn:Ht; [destruct (Z.leb_spec t now) as [Hle|Hlt]|].
    + split; [intros _; right; split; [done|by exists t]|intros _; eexists; by split].
    + split.
      * intros (e & He & Hd). exfalso. repeat case_match; simplify_eq; try discriminate; by eapply expiry_tone_alive.
      * intros [?|(_ & t' & Ht' & ?)]; [discriminate|]. simplify_eq. lia.
    + split; [|intros [?|(_ & t' & ? & _)]; discriminate].
      intros (e & He & Hd). exfalso. repeat case_match; simplify_eq; try discriminate; by eapply expiry_tone_alive.
  - split; [|intros [?|[? _]]; discriminate]. intros (e & He & Hd). exfalso. case_match; simplify_eq; try discriminate.
Qed.

Lemma dead_stays_dead identity now now' : now <= now' → shown_dead identity now → shown_dead identity now'.
Proof.
  intros Hn. rewrite !dead_exact. intros [H|(H & t & Ht & Hle)]; [by left|]. right. split; [done|].
  exists t. split; [done|lia].
Qed.

(** A durable key has no badge, any other has one (or its date does not
    parse). *)
Lemma badge_exact identity now :
  sshIdentityStatus identity now = Ok None ↔
  is_truthy (consumed_at identity) = false ∧ is_truthy (expires_at identity) = false ∧ single_use identity = false.
Proof.
  unfold sshIdentityStatus, sshIdentityEndOfLife.
  destruct (is_truthy (consumed_at identity)); [split; [discriminate|by intros [? _]]|].
  destruct (is_truthy (expires_at identity)); cbn [andb].
  - split; [|by intros (_ & ? & _)]. destruct (match Date_time _ with Some _ => _ | None => _ end); [discriminate|].
    destruct (single_use identity); [discriminate|]. destruct (formatDateShort _); discriminate.
  - destruct (single_use identity); split; try done. by intros (_ & _ & ?).
Qed.
End Life.

(** A shortened fingerprint is a prefix of the original and an ellipsis. *)
Lemma shortFingerprint_spec f :
  shortFingerprint f = f ∨ ∃ n, (12 <= n < length f)%nat ∧ shortFingerprint f = take n f ++ js "…".
Proof.
  unfold shortFingerprint. destruct (indexOf f (js ":")) as [i|]; cbv beta iota.
  - destruct (Nat.ltb_spec 12 (length (drop (i + 1) f))) as [H|_]; [|by left]. right. rewrite length_drop in H.
    exists (i + 1 + 12)%nat. split; [lia|]. rewrite app_assoc. f_equal.
    rewrite <- (take_drop (i + 1) (take (i + 1 + 12) f)), take_take, skipn_firstn_comm. f_equal; f_equal; lia.
  - destruct (Nat.ltb_spec 12 (length f)) as [H|_]; [|by left]. right. exists 12%nat. split; [lia|done].
Qed.
