(* ===== verification/Otp.v ===== *)
(** * The one-time code field (hooks/useOtpInput.ts)

    One input per character.  [length] and [alphanumeric] are the arguments of
    the hook; the state is the array of cells and which input has the focus.
    The pages render one input per cell, so an edit names the index of a cell.

    Theorems: whatever is typed, erased or pasted, there are [length] cells, each
    empty or one allowed character; the code is complete exactly when its value
    has [length] characters; pasting a code, with whatever separators, fills it. *)

From S2P Require Import Prelude JsString.

Section Otp.
Variable len : nat.
Variable alphanumeric : bool.

Record Otp := mkOtp {
  cells : list jsstring;
  focused : option nat;
}.

Definition new_otp : Otp := mkOtp (replicate len []) None.

Definition is_alnum (c : N) : bool := is_lower c || is_upper c || is_digit c.

(** [/^[a-zA-Z0-9]$/] or [/^\d$/] *)
Definition allowed (c : N) : bool := if alphanumeric then is_alnum c else is_digit c.
Definition pattern (value : jsstring) : bool := match value with [c] => allowed c | _ => false end.

(** [toUpperCase] on the ASCII characters that pass the pattern. *)
Definition upper (c : N) : N := if is_lower c then (c - 32)%N else c.

(** The inputs rendered have the indices of the cells; beyond them this does nothing. *)
Definition set_cell (i : nat) (v : jsstring) (o : Otp) : Otp := mkOtp (<[i := v]> (cells o)) (focused o).
Definition focus (i : nat) (o : Otp) : Otp := mkOtp (cells o) (Some i).

Definition handleChange (index : nat) (value : jsstring) (o : Otp) : Otp :=
  if truthy value && negb (pattern value) then o
  else
    let o := set_cell index (if alphanumeric then map upper value else value) o in
    if truthy value && (index <? len - 1)%nat then focus (S index) o else o.

Definition handleKeyDown (index : nat) (key : jsstring) (o : Otp) : Otp :=
  if bool_decide (key = js "Backspace") then
    if negb (is_truthy (cells o !! index)) && (0 <? index)%nat
    then focus (index - 1) (set_cell (index - 1) [] o)
    else set_cell index [] o
  else o.

Definition clean (raw : jsstring) : jsstring :=
  if alphanumeric then map upper (List.filter is_alnum raw) else List.filter is_digit raw.

Definition handlePaste (raw : jsstring) (o : Otp) : Otp :=
  let pasted := clean raw in
  if (length pasted =? len)%nat then focus (len - 1) (mkOtp (map (λ c, [c]) pasted) (focused o)) else o.

Definition reset (o : Otp) : Otp := mkOtp (replicate len []) (Some 0%nat).

Definition getValue (o : Otp) : jsstring := concat (cells o).
Definition isComplete (o : Otp) : bool := forallb truthy (cells o).

(** ** What the user can do *)

Inductive edit := Change (i : nat) (v : jsstring) | KeyDown (i : nat) (key : jsstring) | Paste (raw : jsstring) | Reset.

Definition apply_edit (o : Otp) (e : edit) : Otp :=
  match e with
  | Change i v => handleChange i v o
  | KeyDown i k => handleKeyDown i k o
  | Paste raw => handlePaste raw o
  | Reset => reset o
  end.
Definition edits (l : list edit) : Otp := fold_left apply_edit l new_otp.

(** A character a cell may hold. *)
Definition held (c : N) : bool := if alphanumeric then is_upper c || is_digit c else is_digit c.
Definition cell_ok (v : jsstring) : Prop := v = [] ∨ ∃ c, v = [c] ∧ held c = true.

Definition otp_ok (o : Otp) : Prop := length (cells o) = len ∧ Forall cell_ok (cells o).

Lemma upper_held c : alphanumeric = true → is_alnum c = true → held (upper c) = true.
Proof.
  unfold held, is_alnum, upper, is_lower, is_upper, is_digit, in_range. intros ->.
  destruct (N.leb_spec 97 c), (N.leb_spec c 122); cbn; intros Hc;
    rewrite ?orb_true_iff, ?andb_true_iff, ?N.leb_le in *; lia.
Qed.

Lemma set_cell_ok i v o : cell_ok v → otp_ok o → otp_ok (set_cell i v o).
Proof. intros Hv [Hl Hc]. split; cbn; [by rewrite length_insert|]. by apply Forall_insert. Qed.

Lemma blank_ok : Forall cell_ok (replicate len []).
Proof. apply Forall_replicate. by left. Qed.

Lemma clean_held raw : Forall (λ c, held c = true) (clean raw).
Proof.
  unfold clean. destruct alphanumeric eqn:Ea.
  - apply Forall_map, List.Forall_forall. intros c [_ Hc]%List.filter_In. by apply upper_held.
  - apply List.Forall_forall. intros c [_ Hc]%List.filter_In. unfold held. by rewrite Ea.
Qed.

Lemma change_ok i v o : otp_ok o → otp_ok (handleChange i v o).
Proof.
  intros Ho. unfold handleChange. destruct (truthy v && negb (pattern v)) eqn:E; [done|].
  assert (cell_ok (if alphanumeric then map upper v else v)) as Hv.
  { destruct v as [|c [|d v]]; [left; by destruct alphanumeric| |by destruct alphanumeric].
    right. cbn in E. unfold allowed in E. apply negb_false_iff in E. destruct alphanumeric eqn:Ea.
    - exists (upper c). split; [done|]. by apply upper_held.
    - exists c. split; [done|]. unfold held. by rewrite Ea. }
  apply (set_cell_ok i) with (o := o) in Hv; [|done]. clear E. destruct (truthy v && _); exact Hv.
Qed.

Lemma edit_ok e o : otp_ok o → otp_ok (apply_edit o e).
Proof.
  destruct e as [i v|i k|raw|]; cbn; intros Ho; [by apply change_ok| | |].
  - unfold handleKeyDown. destruct (bool_decide _); [|done].
    destruct (negb _ && _); [destruct (set_cell_ok (i - 1) [] o (or_introl eq_refl) Ho)
                            |destruct (set_cell_ok i [] o (or_introl eq_refl) Ho)]; done.
  - unfold handlePaste. destruct (Nat.eqb_spec (length (clean raw)) len) as [E|]; [|done].
    split; cbn; [by rewrite length_map|]. apply Forall_map. eapply Forall_impl; [apply clean_held|].
    cbn. intros c Hc. right. by exists c.
  - split; cbn; [apply length_replicate|apply blank_ok].
Qed.

Lemma edits_ok l : otp_ok (edits l).
Proof.
  assert (∀ o, otp_ok o → otp_ok (fold_left apply_edit l o)) as H.
  { induction l as [|e l IH]; cbn; intros o Ho; [done|]. by apply IH, edit_ok. }
  apply H. split; cbn; [apply length_replicate|apply blank_ok].
Qed.

Lemma value_complete cs : Forall cell_ok cs →
  Forall (λ c, held c = true) (concat cs) ∧ (length (concat cs) <= length cs)%nat ∧
  (forallb truthy cs = true ↔ length (concat cs) = length cs).
Proof.
  induction 1 as [|v cs [->|(c & -> & Hc)] _ (IH1 & IH2 & IH3)]; [done| |]; cbn.
  - split; [done|]. split; [lia|]. split; [done|]. lia.
  - split; [by constructor|]. split; [lia|]. rewrite IH3. lia.
Qed.

(** C40: Whatever is typed, erased or pasted, the field has one cell per character
    of the code, its value consists of allowed characters only, in upper case when
    letters are allowed, and it is complete exactly when the value has the full
    length. *)
Theorem otp_well_typed (l : list edit) :
  let o := edits l in
  length (cells o) = len ∧ Forall cell_ok (cells o) ∧
  Forall (λ c, held c = true) (getValue o) ∧ (isComplete o = true ↔ length (getValue o) = len).
Proof.
  intros o. destruct (edits_ok l) as [Hl Hc]. fold o in Hl, Hc.
  destruct (value_complete _ Hc) as (H1 & _ & H2). rewrite Hl in H2. done.
Qed.

Lemma concat_singletons {A} (l : list A) : concat (map (λ c, [c]) l) = l.
Proof. induction l; cbn; [done|by f_equal]. Qed.

(** Pasting fills the field whatever it held, and separators are ignored. *)
Lemma paste_fills raw o : length (clean raw) = len →
  getValue (handlePaste raw o) = clean raw ∧ isComplete (handlePaste raw o) = true.
Proof.
  intros E. unfold handlePaste. rewrite E, Nat.eqb_refl. unfold getValue, isComplete. cbn [cells focus].
  rewrite concat_singletons. split; [done|]. apply forallb_Forall, Forall_map, Forall_true. done.
Qed.
End Otp.

Example paste_grouped : getValue (edits 6 false [Change 2 (js "7"); Paste (js "123 456")]) = js "123456".
Proof. reflexivity. Qed.
