(* ===== verification/SshApproval.v ===== *)
(** * Approving an SSH login (hooks/useSSHApproval.ts, pages/SSHApproval.tsx)

    The dialog that decides on a login the gateway holds open.  [Approval] is the
    state of the hook: the request as fetched, its phase, the countdown and the
    decision in flight.  [Page] adds what the page keeps: the step of a
    re-authentication, the form that proves a factor, and the requests of that
    form.  Fetches, decisions and factors answer in any order, as events; a
    closure is identified by what it captured (a fetch by the run of its effect, a
    form by its mount).

    The server is an event too: every answer that says something about the login
    is logged in [said], so that theorems can compare the screen with it. *)

From S2P Require Import Prelude JsString JsJson Otp.

Inductive ApprovalPhase := loading | pending | confirmed | rejected | expired | failed.
#[export] Instance ApprovalPhase_eq_dec : EqDecision ApprovalPhase.
Proof. solve_decision. Defined.

Inductive ApprovalKind := identity | reauth.
#[export] Instance ApprovalKind_eq_dec : EqDecision ApprovalKind.
Proof. solve_decision. Defined.

Record ApprovalDetails := mkDetails {
  d_sshid : jsstring;
  d_deviceName : jsstring;
  d_username : jsstring;
  d_ipAddress : jsstring;
  d_requestedAt : jsstring;
  d_fingerprint : jsstring;
  d_code : jsstring;
  d_kind : ApprovalKind;
  d_reauthPeriod : Z;
  d_namespace : jsstring;
}.

(** The answer of the server; every member may be missing. *)
Record ApprovalData := mkData {
  a_sshid : option jsstring;
  a_device_name : option jsstring;
  a_username : option jsstring;
  a_ip_address : option jsstring;
  a_requested_at : option jsstring;
  a_fingerprint : option jsstring;
  a_code : option jsstring;
  a_kind : option jsstring;
  a_reauth_period : option Z;
  a_namespace : option jsstring;
  a_state : option jsstring;
  a_expires_in_seconds : option Z;
}.

(** A request answered: a value, an SDK error with its status, or anything else. *)
Inductive answer (A : Type) := Good (a : A) | Refused (status : Z) | Broken.
Arguments Good {A} _.
Arguments Refused {A} _.
Arguments Broken {A}.

Inductive Decision := confirm | reject.
#[export] Instance Decision_eq_dec : EqDecision Decision.
Proof. solve_decision. Defined.

Definition APPROVAL_TTL_SECONDS : Z := 90.

(** ** The hook *)

Record Approval := mkApproval {
  code : jsstring;
  phase : ApprovalPhase;
  details : option ApprovalDetails;
  secondsLeft : Z;
  totalSeconds : Z;
  deciding : bool;
  actionError : jsstring;
  expiresAt : Z;                            (* expiresAtRef *)
  timer : bool;                             (* the interval of the countdown *)
  run : nat;                                (* runs of the effect that fetches *)
  fetches : gmap nat jsstring;              (* in flight, with the code captured *)
  decisions : list (jsstring * Decision);   (* in flight *)
}.

Definition put_phase (p : ApprovalPhase) (t : bool) (s : Approval) : Approval :=
  mkApproval (code s) p (details s) (secondsLeft s) (totalSeconds s) (deciding s) (actionError s) (expiresAt s) t
    (run s) (fetches s) (decisions s).
Definition put_window (left total e : Z) (s : Approval) : Approval :=
  mkApproval (code s) (phase s) (details s) left total (deciding s) (actionError s) e (timer s) (run s) (fetches s)
    (decisions s).
Definition put_details (d : ApprovalDetails) (s : Approval) : Approval :=
  mkApproval (code s) (phase s) (Some d) (secondsLeft s) (totalSeconds s) (deciding s) (actionError s) (expiresAt s)
    (timer s) (run s) (fetches s) (decisions s).
Definition put_deciding (b : bool) (e : jsstring) (ds : list (jsstring * Decision)) (s : Approval) : Approval :=
  mkApproval (code s) (phase s) (details s) (secondsLeft s) (totalSeconds s) b e (expiresAt s) (timer s) (run s)
    (fetches s) ds.
Definition put_fetches (f : gmap nat jsstring) (s : Approval) : Approval :=
  mkApproval (code s) (phase s) (details s) (secondsLeft s) (totalSeconds s) (deciding s) (actionError s) (expiresAt s)
    (timer s) (run s) f (decisions s).

(** [Math.max(0, Math.ceil((expiresAt - Date.now()) / 1000))] *)
Definition seconds_to (e now : Z) : Z := Z.max 0 (- ((now - e) / 1000)).

Definition tick (now : Z) (s : Approval) : Approval :=
  let left := seconds_to (expiresAt s) now in
  let s := put_window left (totalSeconds s) (expiresAt s) s in
  if left <=? 0 then put_phase expired false s else s.

(** [setPhase], and the effect on the phase that runs when it changed. *)
Definition setPhase (now : Z) (p : ApprovalPhase) (s : Approval) : Approval :=
  if bool_decide (p = phase s) then s
  else if bool_decide (p = pending) then tick now (put_phase pending true s)
  else put_phase p false s.

(** The effect on the code: the run before it is cancelled. *)
Definition fetch (now : Z) (c : jsstring) (s : Approval) : Approval :=
  let s := mkApproval c (phase s) (details s) (secondsLeft s) (totalSeconds s) (deciding s) (actionError s)
             (expiresAt s) (timer s) (S (run s)) (fetches s) (decisions s) in
  if negb (truthy c) then setPhase now expired s
  else put_fetches (<[run s := c]> (fetches s)) (setPhase now loading s).

Definition details_of (c : jsstring) (data : ApprovalData) : ApprovalDetails :=
  mkDetails (default [] (a_sshid data)) (default [] (a_device_name data)) (default [] (a_username data))
    (default [] (a_ip_address data)) (default [] (a_requested_at data)) (default [] (a_fingerprint data))
    (default c (a_code data))
    (if bool_decide (a_kind data = Some (js "reauth")) then reauth else identity)
    (default 0 (a_reauth_period data)) (default [] (a_namespace data)).

Definition on_data (now : Z) (c : jsstring) (data : ApprovalData) (s : Approval) : Approval :=
  let s := put_details (details_of c data) s in
  if bool_decide (a_state data = Some (js "confirmed")) then setPhase now confirmed s
  else if bool_decide (a_state data = Some (js "rejected")) then setPhase now rejected s
  else
    let left := default APPROVAL_TTL_SECONDS (a_expires_in_seconds data) in
    setPhase now pending (put_window left left (now + left * 1000) s).

Definition on_fetched (now : Z) (r : nat) (a : answer ApprovalData) (s : Approval) : Approval :=
  match fetches s !! r with
  | None => s
  | Some c =>
      let s := put_fetches (delete r (fetches s)) s in
      if negb (r =? run s)%nat then s                          (* cancelled *)
      else match a with
           | Good data => on_data now c data s
           | Refused 404 => setPhase now expired s
           | _ => setPhase now failed s
           end
  end.

Definition decide (d : Decision) (s : Approval) : Approval :=
  if negb (truthy (code s)) || deciding s then s
  else put_deciding true [] (decisions s ++ [(code s, d)]) s.

Definition verdict (d : Decision) : ApprovalPhase := match d with confirm => confirmed | reject => rejected end.

(** The rest of [decide]: the new state, and what the promise resolves to. *)
Definition on_decided (now : Z) (i : nat) (a : answer unit) (s : Approval) : Approval * bool :=
  match decisions s !! i with
  | None => (s, false)
  | Some (c, d) =>
      let rest := delete i (decisions s) in
      match a with
      | Good _ => (put_deciding false (actionError s) rest (setPhase now (verdict d) s), true)
      | Refused 404 => (put_deciding false (actionError s) rest (setPhase now expired s), false)
      | _ => (put_deciding false (js "Something went wrong. Please try again.") rest s, false)
      end
  end.

Definition markConfirmed (now : Z) (s : Approval) : Approval := setPhase now confirmed s.

Definition initial_approval (now : Z) (c : jsstring) : Approval :=
  fetch now c (mkApproval c loading None APPROVAL_TTL_SECONDS APPROVAL_TTL_SECONDS false [] 0 false 0 ∅ []).

(** ** The page *)

Inductive Flow := new_flow | confirm_flow.
#[export] Instance Flow_eq_dec : EqDecision Flow.
Proof. solve_decision. Defined.

Definition LIST : jsstring := js "/ssh-identities".
Definition flow_path (f : Flow) (c : jsstring) : jsstring :=
  match f with
  | new_flow => LIST ++ js "/new/" ++ c
  | confirm_flow => LIST ++ js "/confirm/" ++ c
  end.

Inductive Step := review | verify.

Record Namespace := mkNs { ns_name : jsstring; ns_tenant_id : jsstring }.

(** What the page reads of the auth store and of the namespaces query. *)
Record Env := mkEnv {
  tenant : option jsstring;
  mfaEnabled : bool;
  origin : option jsstring;
  namespaces : list Namespace;
}.

Definition isSso (e : Env) : bool := bool_decide (origin e = Some (js "saml")).

(** [useNamespaceMismatch] *)
Definition target (e : Env) (namespace : jsstring) : option Namespace :=
  List.find (λ n, bool_decide (ns_name n = namespace)) (namespaces e).
Definition elsewhere (e : Env) (namespace : jsstring) : bool :=
  truthy namespace &&
  match target e namespace with
  | Some n => negb (bool_decide (Some (ns_tenant_id n) = tenant e))
  | None => false
  end.
Definition currentName (e : Env) : jsstring :=
  match List.find (λ n, bool_decide (Some (ns_tenant_id n) = tenant e)) (namespaces e) with
  | Some n => ns_name n
  | None => []
  end.

(** [ReauthFactor] *)
Record Factor := mkFactor {
  mount : nat;
  otp : Otp;
  password : jsstring;
  submitting : bool;
  f_error : option jsstring;
}.
Definition put_form (o : Otp) (pw : jsstring) (f : Factor) : Factor := mkFactor (mount f) o pw (submitting f) (f_error f).
Definition put_submit (b : bool) (e : option jsstring) (f : Factor) : Factor := mkFactor (mount f) (otp f) (password f) b e.

Inductive said :=
  | SaidState (c : jsstring) (st : option jsstring)     (* the fetch of a request *)
  | SaidDecided (c : jsstring) (d : Decision)           (* a decision accepted *)
  | SaidFactor (approval : jsstring)                    (* a factor accepted *)
  | SaidSso.                                            (* the provider's window reported success *)

Record Page := mkPage {
  hook : Approval;
  clock : Z;
  routed : bool;
  flow : Flow;
  env : Env;
  step : Step;
  factor : option Factor;
  mounts : nat;
  submits : list (nat * jsstring * bool);   (* [webTerminalReauth] in flight: the form, the approval code, [mfaEnabled] *)
  urls : list nat;                          (* [getSamlReauthUrl] in flight *)
  decided_calls : nat;                      (* calls of [onDecided] *)
  log : list said;
}.

Definition on_hook (h : Approval) (p : Page) : Page :=
  mkPage h (clock p) (routed p) (flow p) (env p) (step p) (factor p) (mounts p) (submits p) (urls p) (decided_calls p) (log p).
Definition put_step (s : Step) (f : option Factor) (m : nat) (p : Page) : Page :=
  mkPage (hook p) (clock p) (routed p) (flow p) (env p) s f m (submits p) (urls p) (decided_calls p) (log p).
Definition put_flight (ss : list (nat * jsstring * bool)) (us : list nat) (p : Page) : Page :=
  mkPage (hook p) (clock p) (routed p) (flow p) (env p) (step p) (factor p) (mounts p) ss us (decided_calls p) (log p).
Definition logged (x : said) (p : Page) : Page :=
  mkPage (hook p) (clock p) (routed p) (flow p) (env p) (step p) (factor p) (mounts p) (submits p) (urls p)
    (decided_calls p) (log p ++ [x]).
Definition on_factor (g : Factor → Factor) (p : Page) : Page := put_step (step p) (g <$> factor p) (mounts p) p.

Definition actual (p : Page) : Flow :=
  match details (hook p) with
  | Some d => if bool_decide (d_kind d = reauth) then confirm_flow else new_flow
  | None => new_flow
  end.

(** [routed && details && actual !== flow]: the page renders a redirect. *)
Definition redirecting (p : Page) : bool :=
  routed p && bool_decide (is_Some (details (hook p))) && negb (bool_decide (actual p = flow p)).

(** The request shown by [PendingRequest]. *)
Definition shown (p : Page) : option ApprovalDetails :=
  if bool_decide (phase (hook p) = pending) && negb (redirecting p) then details (hook p) else None.

Definition verifying (p : Page) : bool :=
  match shown p, step p with
  | Some d, verify => bool_decide (d_kind d = reauth) && negb (elsewhere (env p) (d_namespace d))
  | _, _ => false
  end.

(** After a render: the step lives as long as [PendingRequest], the form as long
    as it is shown. *)
Definition render (p : Page) : Page :=
  let p := match shown p with Some _ => p | None => put_step review (factor p) (mounts p) p end in
  if verifying p then
    match factor p with
    | Some _ => p
    | None => put_step (step p) (Some (mkFactor (mounts p) (new_otp 6) [] false None)) (S (mounts p)) p
    end
  else put_step (step p) None (mounts p) p.

(** [decided(landed)]: only a dialog mounted inline reports it. *)
Definition decided (landed : bool) (p : Page) : Page :=
  if landed && negb (routed p)
  then mkPage (hook p) (clock p) (routed p) (flow p) (env p) (step p) (factor p) (mounts p) (submits p) (urls p)
         (S (decided_calls p)) (log p)
  else p.

Definition onReauthed (p : Page) : Page := decided true (on_hook (markConfirmed (clock p) (hook p)) p).

(** [details.code || code] *)
Definition approvalCode (p : Page) : jsstring :=
  match details (hook p) with
  | Some d => or_else (Some (d_code d)) (code (hook p))
  | None => code (hook p)
  end.

Definition canSubmit (e : Env) (f : Factor) : bool :=
  isSso e || (if mfaEnabled e then isComplete (otp f) else (0 <? length (password f))%nat).

(** The body of [webTerminalReauth]. *)
Definition reauth_body (e : Env) (fingerprint approval : jsstring) (f : Factor) : json :=
  JObj ((if mfaEnabled e then (js "code", JStr (getValue (otp f))) else (js "password", JStr (password f)))
        :: [(js "fingerprint", JStr fingerprint); (js "approval_code", JStr approval)]).

Definition submit (f : Factor) (p : Page) : Page :=
  if negb (canSubmit (env p) f) || submitting f then p
  else put_flight (submits p ++ [(mount f, approvalCode p, mfaEnabled (env p))]) (urls p) (on_factor (put_submit true None) p).

Definition startSso (f : Factor) (p : Page) : Page :=
  if submitting f then p
  else put_flight (submits p) (urls p ++ [mount f]) (on_factor (put_submit true None) p).

(** A state update of a form that is gone does nothing. *)
Definition of_mount (m : nat) (g : Factor → Factor) (f : Factor) : Factor := if (mount f =? m)%nat then g f else f.

Definition wrong_factor (mfa : bool) (a : answer unit) : jsstring :=
  match a with
  | Refused 403 => if mfa then js "Invalid code. It changes every 30 seconds — enter the current one."
                   else js "Incorrect password."
  | _ => js "Re-authentication failed. Please try again."
  end.

Definition on_submitted (i : nat) (a : answer unit) (p : Page) : Page :=
  match submits p !! i with
  | None => p
  | Some (m, approval, mfa) =>
      let p := put_flight (delete i (submits p)) (urls p) p in
      match a with
      | Good _ => onReauthed (logged (SaidFactor approval) p)
      | _ => on_factor (of_mount m (λ f, put_submit false (Some (wrong_factor mfa a))
                                           (put_form (if mfa then reset 6 (otp f) else otp f) (password f) f))) p
      end
  end.

(** The URL arrived ([popup]: a window opened on it) or the request failed. *)
Definition on_url (i : nat) (a : answer bool) (p : Page) : Page :=
  match urls p !! i with
  | None => p
  | Some m =>
      let p := put_flight (submits p) (delete i (urls p)) p in
      match a with
      | Good true => p
      | Good false => on_factor (of_mount m (put_submit false (Some (js "Pop-up blocked. Allow pop-ups for this site and try again.")))) p
      | _ => on_factor (of_mount m (put_submit false (Some (js "Could not start SSO re-authentication.")))) p
      end
  end.

(** The message of the provider's window, from the page's own origin. *)
Definition on_message (ok : bool) (p : Page) : Page :=
  if negb (isSso (env p)) then p
  else if ok then onReauthed (logged SaidSso p)
  else on_factor (put_submit false (Some (js "Re-authentication with your provider failed. Please try again."))) p.

(** ** Events *)

Inductive pevent :=
  | PFetched (r : nat) (a : answer ApprovalData)
  | PDecided (i : nat) (a : answer unit)
  | PTick
  | PWait (ms : nat)
  | PCode (c : jsstring)
  | PEnv (e : Env)
  | PRedirect
  | PConfirm
  | PReject
  | PContinue
  | PBack
  | PPassword (pw : jsstring)
  | POtp (e : edit)
  | PSubmit
  | PSubmitted (i : nat) (a : answer unit)
  | PUrl (i : nat) (a : answer bool)
  | PMessage (ok : bool).

(** What each event does; buttons act when they are rendered and enabled. *)
Definition pstep (p : Page) (e : pevent) : Page :=
  let h := hook p in
  match e with
  | PFetched r a =>
      let p := on_hook (on_fetched (clock p) r a h) p in
      match fetches h !! r, a with
      | Some c, Good data => logged (SaidState c (a_state data)) p
      | _, _ => p
      end
  | PDecided i a =>
      let '(h', landed) := on_decided (clock p) i a h in
      let p := on_hook h' p in
      match decisions h !! i with
      | Some (c, d) => if landed then decided true (logged (SaidDecided c d) p) else p
      | None => p
      end
  | PTick => if timer h then on_hook (tick (clock p) h) p else p
  | PWait ms => mkPage h (clock p + Z.of_nat ms) (routed p) (flow p) (env p) (step p) (factor p) (mounts p) (submits p)
                  (urls p) (decided_calls p) (log p)
  | PCode c => if bool_decide (c = code h) then p else on_hook (fetch (clock p) c h) p
  | PEnv e' => mkPage h (clock p) (routed p) (flow p) e' (step p) (factor p) (mounts p) (submits p) (urls p)
                 (decided_calls p) (log p)
  | PRedirect => if redirecting p
                 then mkPage h (clock p) (routed p) (actual p) (env p) (step p) (factor p) (mounts p) (submits p) (urls p)
                        (decided_calls p) (log p)
                 else p
  | PConfirm =>
      match shown p with
      | Some d => if negb (verifying p) && negb (elsewhere (env p) (d_namespace d)) && negb (bool_decide (d_kind d = reauth))
                  then on_hook (decide confirm h) p else p
      | None => p
      end
  | PReject =>
      match shown p with
      | Some _ => if negb (verifying p) && negb (deciding h) then on_hook (decide reject h) p else p
      | None => p
      end
  | PContinue =>
      match shown p with
      | Some d => if negb (elsewhere (env p) (d_namespace d)) && bool_decide (d_kind d = reauth)
                  then put_step verify (factor p) (mounts p) p else p
      | None => p
      end
  | PBack => match factor p with
             | Some f => if submitting f then p else put_step review (factor p) (mounts p) p
             | None => p
             end
  | PPassword pw => on_factor (λ f, put_form (otp f) pw f) p
  | POtp e' => on_factor (λ f, put_form (apply_edit 6 false (otp f) e') (password f) f) p
  | PSubmit => match factor p with
               | Some f => if isSso (env p) then startSso f p else submit f p
               | None => p
               end
  | PSubmitted i a => on_submitted i a p
  | PUrl i a => on_url i a p
  | PMessage ok => match factor p with Some _ => on_message ok p | None => p end
  end.

Definition prun1 (p : Page) (e : pevent) : Page := render (pstep p e).
Definition prun (p : Page) (l : list pevent) : Page := fold_left prun1 l p.

Definition open_page (now : Z) (c : jsstring) (rt : bool) (fl : Flow) (e : Env) : Page :=
  render (mkPage (initial_approval now c) now rt fl e review None 0 [] [] 0 []).

(** ** Texts *)

(** [Math.round] on a non-negative quotient. *)
Definition round_div (a b : Z) : Z := (2 * a + b) / (2 * b).

Definition reauth_window (periodSeconds : Z) : option jsstring :=
  if periodSeconds <=? 0 then None
  else
    let hours := round_div periodSeconds 3600 in
    Some (if 1 <=? hours then Z_to_string hours ++ js " " ++ (if hours =? 1 then js "hour" else js "hours")
          else Z_to_string (Z.max 1 (round_div periodSeconds 60)) ++ js " minutes").

Definition reauthWindowSentence (periodSeconds : Z) : jsstring :=
  match reauth_window periodSeconds with
  | None => []
  | Some window => js " Connecting with it again won't ask for the next " ++ window ++ js "."
  end.

(** A policy of half an hour is announced as an hour. *)
Example half_hour_announced_as_hour :
  reauthWindowSentence 1800 = js " Connecting with it again won't ask for the next 1 hour.".
Proof. reflexivity. Qed.

(** ** The countdown *)

Lemma setPhase_frame now ph s : let s' := setPhase now ph s in
  code s' = code s ∧ details s' = details s ∧ run s' = run s ∧ fetches s' = fetches s ∧ decisions s' = decisions s
  ∧ deciding s' = deciding s.
Proof. unfold setPhase, tick. repeat case_match; done. Qed.

Lemma setPhase_phase now ph s : phase (setPhase now ph s) = ph ∨ ph = pending ∧ phase (setPhase now ph s) = expired.
Proof. unfold setPhase, tick. repeat case_bool_decide; subst; cbn; auto. destruct (_ <=? 0); auto. Qed.

(** What holds of the hook at a time, with a clock that does not go back. *)
Record hook_ok (now : Z) (s : Approval) : Prop := {
  h_timer : timer s = bool_decide (phase s = pending);
  h_window : phase s = pending → 0 < secondsLeft s <= totalSeconds s ∧ expiresAt s <= now + totalSeconds s * 1000;
  h_one : length (decisions s) = if deciding s then 1%nat else 0%nat;
  h_fetching : is_Some (fetches s !! run s) → phase s ≠ pending;
}.

Lemma seconds_to_bound e now total : 0 < seconds_to e now → e <= now + total * 1000 → seconds_to e now <= total.
Proof. unfold seconds_to. intros Hp He. assert (- total <= (now - e) / 1000) by (apply Z.div_le_lower_bound; lia). lia. Qed.

Lemma tick_ok now s : expiresAt s <= now + totalSeconds s * 1000 → phase s = pending → timer s = true →
  length (decisions s) = (if deciding s then 1%nat else 0%nat) →
  fetches s !! run s = None → hook_ok now (tick now s).
Proof.
  intros He Hp Ht Hd Hf. unfold tick. destruct (Z.leb_spec (seconds_to (expiresAt s) now) 0); split; cbn; try done.
  - rewrite Ht. by rewrite bool_decide_true.
  - intros _. split; [|done]. split; [lia|]. by apply seconds_to_bound.
  - rewrite Hf. by intros [].
Qed.

Lemma setPhase_ok now ph s : hook_ok now s →
  (ph = pending → expiresAt s <= now + totalSeconds s * 1000 ∧ fetches s !! run s = None) →
  hook_ok now (setPhase now ph s).
Proof.
  intros Hs He. unfold setPhase. case_bool_decide as E1; [done|]. case_bool_decide as E2; destruct Hs as [A B C D].
  - destruct (He E2). by apply tick_ok.
  - split; cbn; [by rewrite bool_decide_false|done..].
Qed.

Lemma fetch_ok now c s : hook_ok now s → hook_ok now (fetch now c s).
Proof.
  intros [A B C D]. unfold fetch. set (s0 := mkApproval c _ _ _ _ _ _ _ _ _ _ _).
  destruct (truthy c) eqn:Ec; cbn [negb].
  - destruct (setPhase_frame now loading s0) as (F1 & F2 & F3 & F4 & F5 & F6).
    destruct (setPhase_phase now loading s0) as [F7|[? _]]; [|done].
    assert (timer (setPhase now loading s0) = false) as Ht.
    { unfold setPhase. cbn. by destruct (phase s) eqn:E. }
    split; cbn; rewrite ?F7, ?F5, ?F6, ?Ht; try done.
  - unfold setPhase. cbn. destruct (phase s) eqn:E; cbn; split; cbn; rewrite ?E; done.
Qed.

Lemma on_data_ok now c data s : hook_ok now s → phase s ≠ pending → fetches s !! run s = None →
  hook_ok now (on_data now c data s).
Proof.
  intros [A B C D] Hp Hf. unfold on_data. set (s0 := put_details _ s). assert (hook_ok now s0) by (by split).
  destruct (bool_decide (a_state data = _)); [by apply setPhase_ok|].
  destruct (bool_decide (a_state data = _)); [by apply setPhase_ok|]. apply setPhase_ok; [by split|]. intros _. split; [cbn; lia|done].
Qed.

Lemma on_fetched_ok now r a s : hook_ok now s → hook_ok now (on_fetched now r a s).
Proof.
  intros Hs. unfold on_fetched. destruct (fetches s !! r) as [c|] eqn:Er; [|done]. pose proof Hs as [A B C D].
  set (s0 := put_fetches _ s). assert (hook_ok now s0) as H0.
  { split; cbn; try done. intros Hf. apply D. destruct Hf as [x [_ Hx]%lookup_delete_Some]. by eexists. }
  change (run s0) with (run s). destruct (Nat.eqb_spec r (run s)) as [Hr|]; cbn [negb]; [|done].
  assert (fetches s0 !! run s0 = None) as Hf by (cbn; by rewrite Hr, lookup_delete_eq). rewrite Hr in Er.
  destruct a as [data| |]; [apply on_data_ok; [done|by apply D; eexists|done]|..];
    repeat case_match; by apply setPhase_ok.
Qed.

Lemma decide_ok now d s : hook_ok now s → hook_ok now (decide d s).
Proof.
  intros Hs. unfold decide. destruct (truthy (code s)); [|done]. destruct (deciding s) eqn:E; [done|].
  destruct Hs as [A B C D]. rewrite E in C. split; cbn; try done. rewrite length_app, C. done.
Qed.

Lemma on_decided_ok now i a s : hook_ok now s → hook_ok now (on_decided now i a s).1.
Proof.
  intros Hs. unfold on_decided. destruct (decisions s !! i) as [[c d]|] eqn:Ei; [|done].
  assert (length (delete i (decisions s)) = 0%nat) as Hd.
  { pose proof (h_one _ _ Hs) as C. pose proof (lookup_lt_Some _ _ _ Ei). rewrite length_delete by (by eexists).
    destruct (deciding s); lia. }
  assert (∀ e s', hook_ok now s' → decisions s' = decisions s →
    hook_ok now (put_deciding false e (delete i (decisions s)) s')) as Hput.
  { intros e s' [A B C D] _. by split. }
  assert (∀ ph, ph ≠ pending → hook_ok now (setPhase now ph s)) as Hph by (intros ph Hne; by apply setPhase_ok).
  assert (∀ ph, decisions (setPhase now ph s) = decisions s) as Hds by (intros ph; apply setPhase_frame).
  repeat case_match; cbn; apply Hput; auto; destruct d; auto.
Qed.

Lemma hook_later now now' s : now <= now' → hook_ok now s → hook_ok now' s.
Proof. intros Hn [A B C D]. split; try done. intros Hp. destruct (B Hp). split; [done|lia]. Qed.

Lemma hook_tick now s : hook_ok now s → timer s = true → hook_ok now (tick now s).
Proof.
  intros [A B C D] Ht. rewrite A in Ht. apply bool_decide_eq_true in Ht as Hp. apply tick_ok; try done; [by apply B|congruence|].
  destruct (fetches s !! run s) eqn:E; [|done]. exfalso. by apply D; [eexists|].
Qed.

(** Everything the page does besides keeps the hook or confirms it. *)
Lemma render_hook p : hook (render p) = hook p ∧ clock (render p) = clock p.
Proof. unfold render, verifying. repeat case_match; done. Qed.

Definition page_ok (p : Page) : Prop := hook_ok (clock p) (hook p).

Lemma onReauthed_ok p : page_ok p → page_ok (onReauthed p).
Proof.
  intros Hp. unfold onReauthed, decided. assert (hook_ok (clock p) (markConfirmed (clock p) (hook p))) by (by apply setPhase_ok).
  by destruct (_ && _).
Qed.

Lemma pstep_ok p e : page_ok p → page_ok (pstep p e).
Proof.
  intros Hp. destruct e as [r a|i a| |ms|c|e| | | | | |pw|e| |i a|i a|ok]; cbn [pstep]; try done.
  - pose proof (on_fetched_ok (clock p) r a _ Hp). by repeat case_match.
  - pose proof (on_decided_ok (clock p) i a _ Hp) as Hd. destruct (on_decided _ _ _ _) as [h landed]. cbn in Hd.
    unfold decided. by repeat case_match.
  - destruct (timer _) eqn:E; [|done]. by apply hook_tick.
  - eapply hook_later; [|exact Hp]. cbn. lia.
  - case_bool_decide; [done|]. by apply fetch_ok.
  - by destruct (redirecting p).
  - pose proof (decide_ok (clock p) confirm _ Hp). by repeat case_match.
  - pose proof (decide_ok (clock p) reject _ Hp). by repeat case_match.
  - by repeat case_match.
  - by repeat case_match.
  - unfold startSso, submit. by repeat case_match.
  - unfold on_submitted. destruct (submits p !! i) as [[[m ap] mfa]|]; [|done].
    destruct a; try done. by apply onReauthed_ok.
  - unfold on_url. by repeat case_match.
  - unfold on_message. repeat case_match; try done. by apply onReauthed_ok.
Qed.

Lemma prun_ok l p : page_ok p → page_ok (prun p l).
Proof.
  revert p. induction l as [|e l IH]; intros p Hp; [done|]. apply IH. unfold page_ok, prun1.
  destruct (render_hook (pstep p e)) as [-> ->]. by apply pstep_ok.
Qed.

Lemma open_ok now c rt fl e : page_ok (open_page now c rt fl e).
Proof.
  unfold page_ok, open_page. destruct (render_hook (mkPage (initial_approval now c) now rt fl e review None 0 [] [] 0 [])) as [-> ->].
  apply fetch_ok. by split.
Qed.

(** C35: Whatever answers, clicks and clock ticks do to the approval dialog: the
    countdown runs exactly while the request is pending, it shows a positive
    number of seconds within the window the server gave, the first tick at the
    end of the window expires the request, and at most one decision is in
    flight. *)
Theorem approval_countdown (now : Z) (c : jsstring) (rt : bool) (fl : Flow) (e : Env) (l : list pevent) :
  let p := prun (open_page now c rt fl e) l in
  let h := hook p in
  timer h = bool_decide (phase h = pending) ∧
  (phase h = pending → 0 < secondsLeft h <= totalSeconds h ∧
     (expiresAt h <= clock p → phase (hook (prun1 p PTick)) = expired)) ∧
  (length (decisions h) <= 1)%nat.
Proof.
  intros p h. pose proof (prun_ok l _ (open_ok now c rt fl e)) as [A B C D]. fold p in A, B, C, D. fold h in A, B, C, D.
  split; [done|]. split; [|rewrite C; destruct (deciding h); lia].
  intros Hp. split; [by apply B|]. intros He. unfold prun1. destruct (render_hook (pstep p PTick)) as [-> _].
  cbn. fold h. rewrite A, Hp. cbn. unfold tick. fold h.
  replace (seconds_to (expiresAt h) (clock p)) with 0; [done|]. unfold seconds_to.
  pose proof (Z.div_pos (clock p - expiresAt h) 1000). lia.
Qed.
