(* ===== verification/SshApprovalFacts.v ===== *)
(** * What the approval dialog shows, and what the server said

    For a dialog opened on one request: it reads "confirmed" or "rejected" only
    on the word of the server, a re-authentication is released by a proven factor
    and by nothing else, and the approval code sent with the factor is that of
    the request.  The dialog does not tie an answer to the request it was for:
    [stale_decision_marks_next] is what follows when the code changes. *)

From S2P Require Import Prelude JsString Otp SshApproval.

Definition kind_is (p : Page) (k : ApprovalKind) : Prop := ∃ d, details (hook p) = Some d ∧ d_kind d = k.

Definition confirms (x : said) : Prop :=
  match x with
  | SaidState _ st => st = Some (js "confirmed")
  | SaidDecided _ d => d = confirm
  | SaidFactor _ | SaidSso => True
  end.
Definition rejects (x : said) : Prop :=
  match x with
  | SaidState _ st => st = Some (js "rejected")
  | SaidDecided _ d => d = reject
  | _ => False
  end.

Definition phase_said (ph : ApprovalPhase) (l : list said) : Prop :=
  (ph = confirmed → ∃ x, x ∈ l ∧ confirms x) ∧ (ph = rejected → ∃ x, x ∈ l ∧ rejects x).

(** Answers to what the dialog asked about the request [c]. *)
Definition decision_ok (c : jsstring) (p : Page) (x : jsstring * Decision) : Prop :=
  x.1 = c ∧ (x.2 = confirm → kind_is p identity).
Definition credible (c : jsstring) (p : Page) (x : said) : Prop :=
  match x with
  | SaidState c' _ => c' = c
  | SaidDecided c' d => decision_ok c p (c', d)
  | SaidFactor a => a = approvalCode p ∧ kind_is p reauth
  | SaidSso => kind_is p reauth
  end.

Record said_ok (c : jsstring) (p : Page) : Prop := {
  s_code : code (hook p) = c;
  s_fetch : ∀ r x, fetches (hook p) !! r = Some x → r = run (hook p) ∧ x = c ∧ details (hook p) = None;
  s_dec : Forall (decision_ok c p) (decisions (hook p));
  s_log : Forall (credible c p) (log p);
  s_submits : Forall (λ x, x.1.2 = approvalCode p ∧ kind_is p reauth) (submits p);
  s_factor : is_Some (factor p) → kind_is p reauth;
  s_phase : phase_said (phase (hook p)) (log p);
}.

(** The request is the one it was. *)
Definition same_request (h h' : Approval) : Prop :=
  code h' = code h ∧ details h' = details h ∧ run h' = run h ∧ fetches h' ⊆ fetches h.

Lemma kind_same p p' k : details (hook p') = details (hook p) → kind_is p k → kind_is p' k.
Proof. unfold kind_is. by intros ->. Qed.
Lemma code_same p p' : same_request (hook p) (hook p') → approvalCode p' = approvalCode p.
Proof. unfold approvalCode. by intros (-> & -> & _). Qed.
Lemma credible_same c p p' x : same_request (hook p) (hook p') → credible c p x → credible c p' x.
Proof.
  intros Hr. pose proof (code_same _ _ Hr) as Ha. destruct Hr as (_ & Hd & _).
  destruct x; cbn; unfold decision_ok; rewrite ?Ha; naive_solver eauto using kind_same.
Qed.

(** Steps that stay on the request. *)
Lemma said_step c p p' : same_request (hook p) (hook p') →
  Forall (λ x, x ∈ decisions (hook p) ∨ decision_ok c p x) (decisions (hook p')) →
  Forall (λ x, x ∈ log p ∨ credible c p x) (log p') →
  Forall (λ x, x ∈ submits p ∨ x.1.2 = approvalCode p ∧ kind_is p reauth) (submits p') →
  (is_Some (factor p') → kind_is p reauth) → phase_said (phase (hook p')) (log p') → said_ok c p → said_ok c p'.
Proof.
  intros Hr Hd Hl Hs Hf Hp [A B C D E F G]. pose proof Hr as (R1 & R2 & R3 & R4). split; try done.
  - congruence.
  - intros r x Hx. rewrite R3, R2. apply B. by eapply lookup_weaken.
  - rewrite Forall_forall in *. intros x Hx. destruct (Hd x Hx) as [Hy|Hy]; [apply C in Hy|]; destruct Hy as [? Hk];
      (split; [done|]; intros Hc; eapply kind_same; [exact R2|by apply Hk]).
  - rewrite Forall_forall in *. intros x Hx. eapply credible_same; [done|]. by destruct (Hl x Hx); [apply D|].
  - rewrite (code_same _ _ Hr). rewrite Forall_forall in *. intros x Hx.
    destruct (Hs x Hx) as [Hy|Hy]; [apply E in Hy|]; destruct Hy as [? Hk]; (split; [done|by eapply kind_same]).
  - intros Hx. eapply kind_same; [done|auto].
Qed.

Lemma phase_more ph l l' : phase_said ph l → l ⊆ l' → phase_said ph l'.
Proof. intros [A B] Hl. split; intros Hp; [destruct (A Hp) as (x & Hx & ?)|destruct (B Hp) as (x & Hx & ?)]; exists x; auto. Qed.

Lemma said_sub {A} (P : A → Prop) (l : list A) : Forall (λ x, x ∈ l ∨ P x) l.
Proof. apply Forall_forall. auto. Qed.
Lemma said_snoc {A} (P : A → Prop) (l : list A) x : P x → Forall (λ y, y ∈ l ∨ P y) (l ++ [x]).
Proof. intros Hx. apply Forall_app. split; [apply said_sub|]. apply Forall_singleton. auto. Qed.
Lemma said_delete {A} (P : A → Prop) (l : list A) i : Forall (λ x, x ∈ l ∨ P x) (delete i l).
Proof.
  apply Forall_forall. intros x Hx. left. rewrite list_elem_of_lookup in *. destruct Hx as [j Hj].
  rewrite list_lookup_delete in Hj. by destruct (base.decide (j < i)%nat); eexists.
Qed.

Lemma same_refl h : same_request h h.
Proof. done. Qed.
Lemma same_phase now ph h : same_request h (setPhase now ph h).
Proof. destruct (setPhase_frame now ph h) as (A & B & C & D & _). unfold same_request. by rewrite A, B, C, D. Qed.

Lemma said_render c p : said_ok c p → said_ok c (render p).
Proof.
  intros Hp. apply (said_step c p); [by rewrite (proj1 (render_hook p))|..].
  - rewrite (proj1 (render_hook p)). apply said_sub.
  - replace (log (render p)) with (log p); [apply said_sub|]. unfold render, verifying. repeat case_match; done.
  - replace (submits (render p)) with (submits p); [apply said_sub|]. unfold render, verifying. repeat case_match; done.
  - unfold render. set (p0 := match shown p with Some _ => p | None => _ end).
    assert (hook p0 = hook p) as Eh by (unfold p0; by case_match).
    destruct (verifying p0) eqn:Ev; [|by intros []]. intros _. unfold verifying, shown in Ev. rewrite Eh in Ev.
    destruct (_ && _) eqn:E; [|done]. destruct (details (hook p)) as [d|] eqn:Ed; [|done]. destruct (step p0); [done|].
    apply andb_true_iff in Ev as [Hk%bool_decide_eq_true _]. by exists d.
  - replace (log (render p)) with (log p); [rewrite (proj1 (render_hook p)); apply Hp|].
    unfold render, verifying. repeat case_match; done.
  - done.
Qed.

Ltac said_quiet p :=
  apply (said_step _ p); [first [apply same_refl|apply same_phase|done]|try apply said_sub|try apply said_sub|try apply said_sub
                         |try done|try done|done].

(** Only what the server says changes the verdict. *)
Lemma verdict_quiet now ph h l : ph ≠ confirmed → ph ≠ rejected → phase_said (phase (setPhase now ph h)) l.
Proof. intros H1 H2. destruct (setPhase_phase now ph h) as [->|[_ ->]]; by split. Qed.

Lemma tick_same now h : same_request h (tick now h) ∧ decisions (tick now h) = decisions h ∧
  (phase (tick now h) = phase h ∨ phase (tick now h) = expired).
Proof. unfold tick. destruct (_ <=? 0); (split; [done|]); auto. Qed.

Lemma said_confirmed c p : said_ok c p → (∃ x, x ∈ log p ∧ confirms x) → said_ok c (onReauthed p).
Proof.
  intros Hp Hx. unfold onReauthed, decided, markConfirmed.
  assert (phase_said (phase (setPhase (clock p) confirmed (hook p))) (log p)) as Hs.
  { destruct (setPhase_phase (clock p) confirmed (hook p)) as [->|[? _]]; [by split|done]. }
  destruct (setPhase_frame (clock p) confirmed (hook p)) as (_ & _ & _ & _ & Hd & _).
  destruct (_ && _); cbn; apply (said_step c p); try done; try apply same_phase; try (cbn; rewrite ?Hd; apply said_sub); apply Hp.
Qed.

Lemma said_logged c p x : credible c p x → said_ok c p → said_ok c (logged x p).
Proof.
  intros Hx Hp. apply (said_step c p); try done; try apply said_sub; [by apply said_snoc|apply Hp|].
  eapply phase_more; [apply Hp|]. cbn. set_solver.
Qed.

Lemma said_factor c p g : said_ok c p → said_ok c (on_factor g p).
Proof.
  intros Hp. apply (said_step c p); try done; try apply said_sub; [|apply Hp].
  cbn. intros [f Hf]. apply Hp. by destruct (factor p).
Qed.

Lemma said_flight c p ss us : Forall (λ x, x ∈ submits p ∨ x.1.2 = approvalCode p ∧ kind_is p reauth) ss →
  said_ok c p → said_ok c (put_flight ss us p).
Proof. intros Hs Hp. apply (said_step c p); try done; try apply said_sub; apply Hp. Qed.

Lemma on_data_frame now c data h : let h' := on_data now c data h in
  code h' = code h ∧ fetches h' = fetches h ∧ decisions h' = decisions h ∧ details h' = Some (details_of c data) ∧
  phase_said (phase h') [SaidState c (a_state data)].
Proof.
  unfold on_data. destruct (bool_decide_reflect (a_state data = Some (js "confirmed"))) as [E|_].
  { set (h0 := put_details _ h). destruct (setPhase_frame now confirmed h0) as (-> & -> & _ & -> & -> & _). split_and!; try done.
    destruct (setPhase_phase now confirmed h0) as [->|[? _]]; [|done]. split; [|done].
    intros _. eexists. split; [by apply list_elem_of_singleton|]. exact E. }
  destruct (bool_decide_reflect (a_state data = Some (js "rejected"))) as [E|_].
  { set (h0 := put_details _ h). destruct (setPhase_frame now rejected h0) as (-> & -> & _ & -> & -> & _). split_and!; try done.
    destruct (setPhase_phase now rejected h0) as [->|[? _]]; [|done]. split; [done|].
    intros _. eexists. split; [by apply list_elem_of_singleton|]. exact E. }
  set (h0 := put_window _ _ _ _). destruct (setPhase_frame now pending h0) as (-> & -> & _ & -> & -> & _).
  split_and!; try done. by apply verdict_quiet.
Qed.

(** Before the request is known nothing can have been decided on it. *)
Lemma unknown_kind p k : details (hook p) = None → ¬ kind_is p k.
Proof. intros E (d & Hd & _). congruence. Qed.

Lemma said_known c p p' d : said_ok c p → details (hook p) = None → details (hook p') = Some d → code (hook p') = c →
  fetches (hook p') = ∅ → decisions (hook p') = decisions (hook p) → submits p' = submits p → factor p' = factor p →
  (∃ st, log p' = log p ++ [SaidState c st] ∧ phase_said (phase (hook p')) [SaidState c st]) → said_ok c p'.
Proof.
  intros [A B C D E F G] Hn Hd Hc Hf Hds Hs Hfa (st & Hl & Hp).
  assert (∀ k, kind_is p k → kind_is p' k) as Hk by (intros k Hk; by apply unknown_kind in Hk).
  assert (∀ a, a = approvalCode p ∧ kind_is p reauth → a = approvalCode p' ∧ kind_is p' reauth) as Ha.
  { intros a [_ Hr]. by apply unknown_kind in Hr. }
  split; rewrite ?Hf, ?Hds, ?Hs, ?Hfa, ?Hl; try done.
  - eapply Forall_impl; [exact C|]. intros x [? ?]. split; auto.
  - apply Forall_app. split; [|by apply Forall_singleton]. eapply Forall_impl; [exact D|].
    intros []; cbn; auto. unfold decision_ok. naive_solver.
  - eapply Forall_impl; [exact E|]. auto.
  - intros Hx. apply Hk, F, Hx.
  - eapply phase_more; [exact Hp|]. set_solver.
Qed.

Lemma said_fetched c p r a : said_ok c p → said_ok c (pstep p (PFetched r a)).
Proof.
  intros Hp. cbn [pstep]. unfold on_fetched. destruct (fetches (hook p) !! r) as [x|] eqn:Er.
  2:{ said_quiet p; [apply Hp|apply Hp]. }
  destruct (s_fetch _ _ Hp _ _ Er) as (-> & -> & Hn). cbn [run put_fetches]. rewrite Nat.eqb_refl. cbn [negb].
  set (h0 := put_fetches _ _). assert (fetches h0 = ∅) as Hf.
  { apply map_eq. intros i. rewrite lookup_empty. cbn. destruct (delete _ _ !! i) eqn:Ei; [|done].
    apply lookup_delete_Some in Ei as [Hi Ei]. by destruct (s_fetch _ _ Hp _ _ Ei). }
  assert (same_request (hook p) h0) as Hr by (split_and!; try done; apply delete_subseteq).
  assert (∀ ph, ph ≠ confirmed → ph ≠ rejected → said_ok c (on_hook (setPhase (clock p) ph h0) p)) as Hq.
  { intros ph H1 H2. destruct (setPhase_frame (clock p) ph h0) as (F1 & F2 & F3 & F4 & F5 & _).
    apply (said_step c p); try done; try apply said_sub.
    - unfold same_request. cbn [hook on_hook]. rewrite F1, F2, F3, F4. exact Hr.
    - cbn [hook on_hook]. rewrite F5. apply said_sub.
    - apply Hp.
    - by apply verdict_quiet. }
  destruct a as [data|st|]; [|repeat case_match; by apply Hq|by apply Hq].
  destruct (on_data_frame (clock p) c data h0) as (F1 & F2 & F3 & F4 & F5).
  eapply (said_known c p _ _ Hp Hn); cbn [hook on_hook logged]; [exact F4|rewrite F1; apply Hp|by rewrite F2|by rewrite F3|done|done|].
  exists (a_state data). done.
Qed.

Lemma said_decided c p i a : said_ok c p → said_ok c (pstep p (PDecided i a)).
Proof.
  intros Hp. cbn [pstep]. unfold on_decided. destruct (decisions (hook p) !! i) as [[x d]|] eqn:Ei.
  2:{ said_quiet p; [apply Hp|apply Hp]. }
  pose proof (proj1 (Forall_lookup _ _) (s_dec _ _ Hp) _ _ Ei) as Hd.
  assert (∀ e h', same_request (hook p) h' → ∀ l, Forall (λ x, x ∈ log p ∨ credible c p x) l → phase_said (phase h') l →
    ∀ n, said_ok c (mkPage (put_deciding false e (delete i (decisions (hook p))) h') (clock p) (routed p) (flow p) (env p)
                      (step p) (factor p) (mounts p) (submits p) (urls p) n l)) as Hq.
  { intros e h' Hr l Hl Hph n. apply (said_step c p); try done; [apply said_delete|apply said_sub|apply Hp]. }
  destruct a as [u|st|].
  - unfold decided. cbn [fst snd]. set (h' := setPhase _ _ _).
    assert (phase_said (phase h') (log p ++ [SaidDecided x d])) as Hph.
    { unfold h'. destruct (setPhase_phase (clock p) (verdict d) (hook p)) as [->|[? _]]; [|by destruct d].
      split; intros E; exists (SaidDecided x d); (split; [set_solver|]); by destruct d. }
    destruct (_ && _); apply (Hq _ h'); try done; try apply same_phase; by apply said_snoc.
  - assert (said_ok c (on_hook (put_deciding false (actionError (hook p)) (delete i (decisions (hook p)))
      (setPhase (clock p) expired (hook p))) p)) as H1.
    { apply Hq; [apply same_phase|apply said_sub|by apply verdict_quiet]. }
    assert (said_ok c (on_hook (put_deciding false (js "Something went wrong. Please try again.")
      (delete i (decisions (hook p))) (hook p)) p)) as H2 by (apply Hq; [done|apply said_sub|apply Hp]).
    destruct st as [|q|q]; [exact H2| |exact H2]. do 9 (destruct q as [q|q|]; try exact H2). exact H1.
  - apply Hq; [done|apply said_sub|apply Hp].
Qed.

Lemma said_hook c p h : same_request (hook p) h → (phase h = phase (hook p) ∨ phase h = expired) →
  Forall (λ x, x ∈ decisions (hook p) ∨ decision_ok c p x) (decisions h) → said_ok c p → said_ok c (on_hook h p).
Proof.
  intros Hr Hph Hd Hp. apply (said_step c p); try done; try apply said_sub; [apply Hp|].
  cbn. destruct Hph as [->| ->]; [apply Hp|by split].
Qed.

Lemma said_decide c p d : (d = confirm → kind_is p identity) → said_ok c p → said_ok c (on_hook (decide d (hook p)) p).
Proof.
  intros Hd Hp. unfold decide. destruct (_ || _).
  - apply said_hook; auto using same_refl, said_sub.
  - apply said_hook; [done|by left|apply said_snoc; split; [apply Hp|done]|done].
Qed.

Lemma said_submit c p f : factor p = Some f → said_ok c p → said_ok c (submit f p) ∧ said_ok c (startSso f p).
Proof.
  intros Ef Hp. unfold submit, startSso. pose proof (s_factor _ _ Hp) as Hk. rewrite Ef in Hk.
  split; case_match; try done; (apply said_flight; [|by apply said_factor]); cbn [submits on_factor put_step].
  - apply said_snoc. split; [done|]. apply Hk. by eexists.
  - apply said_sub.
Qed.

(** The user stays on the request the dialog was opened on. *)
Definition on_request (e : pevent) : Prop := match e with PCode _ => False | _ => True end.

Lemma said_pstep c p e : on_request e → said_ok c p → said_ok c (pstep p e).
Proof.
  intros He Hp. destruct e as [r a|i a| |ms|x|e'| | | | | |pw|e'| |i a|i a|ok]; try done.
  - by apply said_fetched.
  - by apply said_decided.
  - cbn [pstep]. destruct (timer _); [|done]. destruct (tick_same (clock p) (hook p)) as (Hr & Hd & Hph).
    apply said_hook; try done. rewrite Hd. apply said_sub.
  - said_quiet p; apply Hp.
  - said_quiet p; apply Hp.
  - cbn [pstep]. destruct (redirecting p); [|done]. said_quiet p; apply Hp.
  - cbn [pstep]. destruct (shown p) as [d|] eqn:Es; [|done]. destruct (_ && _) eqn:E; [|done].
    apply said_decide; [|done]. intros _. apply andb_true_iff in E as [_ Hk%negb_true_iff%bool_decide_eq_false].
    unfold shown in Es. destruct (_ && _); [|done]. exists d. split; [done|]. by destruct (d_kind d).
  - cbn [pstep]. destruct (shown p); [|done]. destruct (_ && _); [|done]. by apply said_decide.
  - cbn [pstep]. destruct (shown p); [|done]. destruct (_ && _); [|done]. said_quiet p; apply Hp.
  - cbn [pstep]. destruct (factor p) eqn:Ef; [|done]. destruct (submitting _); [done|]. rewrite <-Ef. said_quiet p; apply Hp.
  - by apply said_factor.
  - by apply said_factor.
  - cbn [pstep]. destruct (factor p) as [f|] eqn:Ef; [|done]. by destruct (isSso _); apply said_submit.
  - cbn [pstep]. unfold on_submitted. destruct (submits p !! i) as [[[m ap] mfa]|] eqn:Ei; [|done].
    pose proof (proj1 (Forall_lookup _ _) (s_submits _ _ Hp) _ _ Ei) as [Ha Hk]. cbn in Ha.
    set (p0 := put_flight _ _ p). assert (said_ok c p0) as H0 by (apply said_flight; [apply said_delete|done]).
    destruct a; [|by apply said_factor..]. apply said_confirmed; [by apply said_logged|].
    eexists. split; [cbn; apply elem_of_app; right; by apply list_elem_of_singleton|done].
  - cbn [pstep]. unfold on_url. destruct (urls p !! i); [|done].
    set (p0 := put_flight _ _ p). assert (said_ok c p0) as H0 by (apply said_flight; [apply said_sub|done]).
    destruct a as [[]| |]; [done|by apply said_factor..].
  - cbn [pstep]. destruct (factor p) as [f|] eqn:Ef; [|done]. unfold on_message. destruct (isSso _); [|done].
    destruct ok; [|by apply said_factor]. apply said_confirmed.
    + apply said_logged; [|done]. apply Hp. by rewrite Ef.
    + eexists. split; [cbn; apply elem_of_app; right; by apply list_elem_of_singleton|done].
Qed.

Lemma said_prun c l p : Forall on_request l → said_ok c p → said_ok c (prun p l).
Proof.
  revert p. induction l as [|e l IH]; intros p Hl Hp; [done|]. apply Forall_cons in Hl as [He Hl].
  apply IH; [done|]. by apply said_render, said_pstep.
Qed.

Lemma said_open now c rt fl e : said_ok c (open_page now c rt fl e).
Proof.
  apply said_render. unfold initial_approval, fetch. destruct (truthy c) eqn:Ec; cbn [negb].
  - split; cbn; try done. intros r x. rewrite lookup_insert_Some, lookup_empty. naive_solver.
  - split; cbn; try done.
Qed.

(** C9: In a dialog that stays on the request it was opened on (its code does not
    change: [on_request]; [stale_decision_marks_next] is what can happen when it
    does with a decision in flight), however answers, clicks and the clock
    interleave: "confirmed" and "rejected" are shown only on the server's word
    about that request.  If the request is a re-authentication, no confirmation
    is ever sent for it, and it reads "confirmed" only because the server said so
    when it was fetched, or accepted a factor sent with the approval code of this
    request, or the identity provider's window reported success. *)
Theorem approval_on_servers_word (now : Z) (c : jsstring) (rt : bool) (fl : Flow) (e : Env) (l : list pevent)
    (Hl : Forall on_request l) :
  let p := prun (open_page now c rt fl e) l in
  (phase (hook p) = rejected → SaidState c (Some (js "rejected")) ∈ log p ∨ SaidDecided c reject ∈ log p) ∧
  (phase (hook p) = confirmed →
     SaidState c (Some (js "confirmed")) ∈ log p ∨ kind_is p identity ∧ SaidDecided c confirm ∈ log p ∨
     kind_is p reauth ∧ (SaidFactor (approvalCode p) ∈ log p ∨ SaidSso ∈ log p)) ∧
  (kind_is p reauth → ∀ c', (c', confirm) ∉ decisions (hook p) ∧ SaidDecided c' confirm ∉ log p).
Proof.
  intros p. pose proof (said_prun c l _ Hl (said_open now c rt fl e)) as [A B C D E F [G1 G2]]. fold p in A, B, C, D, E, F, G1, G2.
  clearbody p. clear A. pose proof (proj1 (Forall_forall _ _) C) as C'. pose proof (proj1 (Forall_forall _ _) D) as D'. split; [|split].
  - intros Hp. destruct (G2 Hp) as ([] & Hx & Hr); cbn in Hr; subst; pose proof (D' _ Hx) as Hc; cbn in Hc; auto; try done.
    + subst. auto.
    + destruct Hc as [Hc _]. cbn in Hc. subst. auto.
  - intros Hp. destruct (G1 Hp) as ([] & Hx & Hr); cbn in Hr; subst; pose proof (D' _ Hx) as Hc; cbn in Hc.
    + subst. auto.
    + destruct Hc as [Hc Hk]. cbn in Hc. subst. auto.
    + destruct Hc as [-> Hk]. auto.
    + auto.
  - intros (d & Hd & Hk) c'. split.
    + intros Hx. destruct (C' _ Hx) as [_ Hi]. destruct (Hi eq_refl) as (d' & Hd' & Hk'). congruence.
    + intros Hx. destruct (D' _ Hx) as [_ Hi]. destruct (Hi eq_refl) as (d' & Hd' & Hk'). congruence.
Qed.

(** ** Concrete runs *)

Definition data_of (kind : string) : ApprovalData :=
  mkData None (Some (js "web-1")) (Some (js "root")) None None (Some (js "SHA256:abc")) (Some (js "AB12")) (Some (js kind))
    (Some 3600) (Some (js "dev")) (Some (js "pending")) (Some 60).

Definition by_password : Env := mkEnv (Some (js "t1")) false None [mkNs (js "dev") (js "t1")].
Definition by_provider : Env := mkEnv (Some (js "t1")) false (Some (js "saml")) [mkNs (js "dev") (js "t1")].

Definition proving : list pevent :=
  [PFetched 1 (Good (data_of "reauth")); PConfirm; PContinue; PPassword (js "pw"); PSubmit; PSubmitted 0 (Good tt)].

Lemma approval_on_servers_word_witness :
  let p := prun (open_page 0 (js "AB12") true confirm_flow by_password) proving in
  phase (hook p) = confirmed ∧ SaidFactor (js "AB12") ∈ log p ∧ ∀ c', SaidDecided c' confirm ∉ log p.
Proof.
  assert (Forall on_request proving) as Hl by (repeat constructor).
  pose proof (approval_on_servers_word 0 (js "AB12") true confirm_flow by_password proving Hl) as (_ & _ & H3).
  split; [vm_compute; reflexivity|]. split; [vm_compute; right; left|].
  intros c'. apply H3. eexists. split; vm_compute; reflexivity.
Defined.

(** The code changes while a decision is in flight, the decision lands, and the
    request shown, which nobody decided on, reads as confirmed. *)
Definition code_changes : list pevent :=
  [PFetched 1 (Good (data_of "identity")); PConfirm; PCode (js "CD34"); PFetched 2 (Good (data_of "identity")); PDecided 0 (Good tt)].

Example stale_decision_marks_next :
  let p := prun (open_page 0 (js "AB12") true new_flow by_password) code_changes in
  code (hook p) = js "CD34" ∧ phase (hook p) = confirmed ∧
  log p = [SaidState (js "AB12") (Some (js "pending")); SaidState (js "CD34") (Some (js "pending"));
           SaidDecided (js "AB12") confirm].
Proof. vm_compute. done. Qed.

(** A provider's window that is closed without an answer leaves the form
    submitting: neither another attempt nor the way back does anything. *)
Definition window_closed : list pevent :=
  [PFetched 1 (Good (data_of "reauth")); PContinue; PSubmit; PUrl 0 (Good true); PSubmit; PBack].

Example sso_window_closed_stuck :
  let p := prun (open_page 0 (js "AB12") true confirm_flow by_provider) window_closed in
  verifying p = true ∧ submitting <$> factor p = Some true ∧ urls p = [].
Proof. vm_compute. done. Qed.
