(* ===== verification/CommandPalette.v ===== *)
(** * The command palette (hooks/useCommandPalette.ts, components/commandPalette/)

    The rows of [items.tsx] as data: what a row does when it is selected is an
    [action] instead of a closure, performed by [perform].  [Palette] is the state
    of the hook with the shared open flag, the terminal store it acts on, what it
    reads of other stores and queries ([live]), and what it has done to the page.
    The view of a state (mode, rows, sections, highlighted row) is computed from
    it, as during a render.

    Parameters: [unicode_lower] ([toLowerCase] beyond ASCII), the host name, and
    date-fns' [formatDistanceToNow]. *)

From S2P Require Import Prelude JsString.
From S2P Require Terminal Recordings.

(** A device as the palette reads it. *)
Record Device := mkDevice {
  dev_uid : jsstring;
  dev_name : jsstring;
  dev_online : bool;
  dev_mac : option jsstring;
}.

Inductive BadgeVariant := green | yellow | red | muted.

Inductive action :=
  | ConnectOrRestore (uid name : jsstring) (online : bool) (row : jsstring)
  | RestoreTerminal (session row : jsstring)
  | Go (path : jsstring)
  | Logout
  | Copy (value label : jsstring).

Record CommandItem := mkItem {
  i_id : jsstring;
  i_label : jsstring;
  i_sublabel : option jsstring;
  i_section : jsstring;
  i_badge : option (jsstring * BadgeVariant);
  i_onSelect : action;
  i_onDrillIn : option jsstring;            (* the device whose menu it opens *)
  i_disabled : bool;
}.

Inductive Feedback := Failure (text : jsstring) | Success (text : jsstring).

Definition NO_CONNECT_PERMISSION : jsstring := js "You don't have permission to connect to devices".

(** What the hook reads of other stores and queries. *)
Record Live := mkLive {
  devices : list Device;
  canConnect : bool;
  nsName : jsstring;
  isIdentityMode : bool;
  recentEntries : list Terminal.RecentDevice;
}.

Record Palette := mkPalette {
  open : bool;                              (* commandPaletteStore *)
  query : jsstring;
  activeIndex : Z;
  drillInUid : option jsstring;
  feedback : option Feedback;
  shakeId : option jsstring;
  terminals : Terminal.TerminalState;
  live : Live;
  visited : list jsstring;                  (* navigate(path) *)
  logouts : nat;
  copied : list jsstring;
}.

(** ** utils/sshid.ts, utils/date.ts *)
Section Palette_.
Variable unicode_lower : N → jsstring.
Variable hostname : jsstring.
Variable formatDistanceToNow : jsstring → jsstring.

#[local] Abbreviation toLowerCase := (Recordings.toLowerCase unicode_lower).

Definition buildSshid (namespace deviceName : jsstring) : jsstring :=
  namespace ++ js "." ++ deviceName ++ js "@" ++ hostname.

Definition formatRelative (dateStr : jsstring) : jsstring :=
  if negb (truthy dateStr) then js "—" else formatDistanceToNow dateStr.

(** ** items.tsx *)

(** The loop of [fuzzyMatch]: what is left of the query after the text. *)
Fixpoint scan (t q : jsstring) : jsstring :=
  match q with
  | [] => []
  | x :: q' => match t with
               | [] => q
               | c :: t' => if bool_decide (c = x) then scan t' q' else scan t' q
               end
  end.

Definition fuzzyMatch (q text : jsstring) : bool :=
  let q := toLowerCase q in
  let t := toLowerCase text in
  if includes t q then true else negb (truthy (scan t q)).

Definition online_badge (online : bool) : jsstring * BadgeVariant :=
  if online then (js "Online", green) else (js "Offline", muted).

Definition deviceRow (d : Device) (i section sublabel : jsstring) : CommandItem :=
  mkItem i (dev_name d) (Some sublabel) section (Some (online_badge (dev_online d)))
    (ConnectOrRestore (dev_uid d) (dev_name d) (dev_online d) i) (Some (dev_uid d)) false.

Definition status_badge (st : Terminal.ConnectionStatus) : jsstring * BadgeVariant :=
  match st with
  | Terminal.connected => (js "Connected", green)
  | Terminal.connecting => (js "Connecting", yellow)
  | Terminal.disconnected => (js "Disconnected", red)
  end.

Definition window_label (st : Terminal.TerminalWindowState) : jsstring :=
  match st with
  | Terminal.minimized => js "Minimized"
  | Terminal.fullscreen => js "Fullscreen"
  | Terminal.docked => js "Docked"
  end.

Definition sessionRow (s : Terminal.TerminalSession) : CommandItem :=
  let i := js "term-" ++ Terminal.id s in
  mkItem i (Terminal.username (Terminal.params s) ++ js "@" ++ Terminal.deviceName (Terminal.params s))
    (Some (window_label (Terminal.state s))) (js "Terminal Sessions") (Some (status_badge (Terminal.connectionStatus s)))
    (RestoreTerminal (Terminal.id s) i) None false.

Definition recentRow (r : Device * jsstring) : CommandItem :=
  deviceRow r.1 (js "recent-" ++ dev_uid r.1) (js "Recent") (formatRelative r.2).

Definition listRow (d : Device) : CommandItem :=
  deviceRow d (js "device-" ++ dev_uid d) (js "Devices") (default (take 12 (dev_uid d)) (dev_mac d)).

Definition buildConnectionItems (devs : list Device) (sessions : list Terminal.TerminalSession)
    (recent : list (Device * jsstring)) : list CommandItem :=
  map sessionRow sessions ++ map recentRow recent ++ map listRow devs.

Definition legacyPaths : list jsstring := [js "/sshkeys/public-keys"; js "/secure-vault"].

Definition nav : list (jsstring * jsstring) :=
  [(js "Dashboard", js "/dashboard"); (js "Devices", js "/devices"); (js "Sessions", js "/sessions");
   (js "Public Keys", js "/sshkeys/public-keys"); (js "Secure Vault", js "/secure-vault"); (js "Team", js "/team");
   (js "Settings", js "/settings"); (js "Add Device", js "/devices/add"); (js "Claim a Device", js "/accept-device")].

Definition navRow (n : jsstring * jsstring) : CommandItem :=
  mkItem (js "nav-" ++ n.2) n.1 (Some n.2) (js "Navigation") None (Go n.2) None false.

Definition logoutRow : CommandItem :=
  mkItem (js "action-logout") (js "Logout") None (js "Actions") None Logout None false.

Definition buildCommandItems (identityMode : bool) : list CommandItem :=
  map navRow (List.filter (λ n, negb identityMode || negb (bool_decide (n.2 ∈ legacyPaths))) nav) ++ [logoutRow].

Definition buildDeviceActionItems (drillDevice : option Device) (ns : jsstring) (can hasOpenSession : bool)
    : list CommandItem :=
  match drillDevice with
  | None => []
  | Some d =>
      let sshid := if truthy ns then buildSshid ns (dev_name d) else dev_uid d in
      let sshCommand := js "ssh <username>@" ++ sshid in
      let connectDisabled := negb can || (negb (dev_online d) && negb hasOpenSession) in
      [mkItem (js "act-connect") (js "Connect") (if can then None else Some (js "Requires connect permission")) (dev_name d)
         (Some (online_badge (dev_online d)))
         (ConnectOrRestore (dev_uid d) (dev_name d) (dev_online d) (js "act-connect")) None connectDisabled;
       mkItem (js "act-copy-sshid") (js "Copy SSHID") (Some sshid) (dev_name d) None (Copy sshid (js "SSHID")) None false;
       mkItem (js "act-copy-ssh") (js "Copy ssh command") (Some sshCommand) (dev_name d) None
         (Copy sshCommand (js "ssh command")) None false;
       mkItem (js "act-details") (js "View details") (Some (js "/devices/" ++ dev_uid d)) (dev_name d) None
         (Go (js "/devices/" ++ dev_uid d)) None false]
  end.

(** ** The view of a state *)

Definition RECENT_LIMIT : nat := 5.

Definition find_device (u : jsstring) (l : list Device) : option Device :=
  List.find (λ d, bool_decide (dev_uid d = u)) l.

Definition session_of (u : jsstring) (t : Terminal.TerminalState) : option Terminal.TerminalSession :=
  List.find (λ s, bool_decide (Terminal.deviceUid (Terminal.params s) = u)) (Terminal.sessions t).
Definition has_session (u : jsstring) (t : Terminal.TerminalState) : bool := bool_decide (is_Some (session_of u t)).

(** The loop over the entries; [n]: how many are resolved already. *)
Fixpoint resolve_recents (t : Terminal.TerminalState) (devs : list Device) (n : nat) (l : list Terminal.RecentDevice)
    : list (Device * jsstring) :=
  match l with
  | [] => []
  | entry :: l =>
      if has_session (Terminal.uid entry) t then resolve_recents t devs n l
      else match find_device (Terminal.uid entry) devs with
           | None => resolve_recents t devs n l
           | Some d => (d, Terminal.connectedAt entry)
                       :: if (RECENT_LIMIT <=? S n)%nat then [] else resolve_recents t devs (S n) l
           end
  end.

Definition recentDevices (p : Palette) : list (Device * jsstring) :=
  resolve_recents (terminals p) (devices (live p)) 0 (recentEntries (live p)).

Definition drillDevice (p : Palette) : option Device :=
  match drillInUid p with
  | Some u => if truthy u then find_device u (devices (live p)) else None
  | None => None
  end.
Definition isDrilledIn (p : Palette) : bool := bool_decide (is_Some (drillDevice p)).

Definition commandMode (p : Palette) : bool := negb (isDrilledIn p) && startsWith (trimStart (query p)) (js ">").
Definition term (p : Palette) : jsstring :=
  if commandMode p then trim (drop 1 (trimStart (query p))) else trim (query p).

Definition activeItems (p : Palette) : list CommandItem :=
  match drillDevice p with
  | Some d => buildDeviceActionItems (Some d) (nsName (live p)) (canConnect (live p)) (has_session (dev_uid d) (terminals p))
  | None => if commandMode p then buildCommandItems (isIdentityMode (live p))
            else buildConnectionItems (devices (live p)) (Terminal.sessions (terminals p)) (recentDevices p)
  end.

Definition item_matches (t : jsstring) (item : CommandItem) : bool :=
  fuzzyMatch t (i_label item) ||
  (is_truthy (i_sublabel item) && fuzzyMatch t (default [] (i_sublabel item))) ||
  fuzzyMatch t (i_section item).

Definition filtered (p : Palette) : list CommandItem :=
  if negb (truthy (term p)) then activeItems p else List.filter (item_matches (term p)) (activeItems p).

(** The [Map] from a section to its rows, in the order of insertion. *)
Fixpoint add_item (item : CommandItem) (m : list (jsstring * list CommandItem)) : list (jsstring * list CommandItem) :=
  match m with
  | [] => [(i_section item, [item])]
  | (s, l) :: m => if bool_decide (i_section item = s) then (s, l ++ [item]) :: m else (s, l) :: add_item item m
  end.
Definition sections_of (l : list CommandItem) : list (jsstring * list CommandItem) :=
  fold_left (λ m item, add_item item m) l [].
Definition flat (m : list (jsstring * list CommandItem)) : list CommandItem := concat (map snd m).

Definition flatList (p : Palette) : list CommandItem := flat (sections_of (filtered p)).

Definition index_rows (l : list CommandItem) (from : gmap jsstring nat * nat) : gmap jsstring nat * nat :=
  fold_left (λ '(m, i) item, (<[i_id item := i]> m, S i)) l from.
Definition index_by_id (l : list CommandItem) : gmap jsstring nat := (index_rows l (∅, 0%nat)).1.

Definition len (p : Palette) : Z := Z.of_nat (length (flatList p)).
Definition safeIndex (p : Palette) : Z := if len p =? 0 then -1 else Z.min (activeIndex p) (len p - 1).
Definition row_at (p : Palette) (i : Z) : option CommandItem := if i <? 0 then None else flatList p !! Z.to_nat i.
Definition activeItem (p : Palette) : option CommandItem := row_at p (safeIndex p).

(** ** Handlers *)

Definition set_local (q : jsstring) (a : Z) (d : option jsstring) (f : option Feedback) (s : option jsstring) (p : Palette) : Palette :=
  mkPalette (open p) q a d f s (terminals p) (live p) (visited p) (logouts p) (copied p).
Definition set_open (b : bool) (p : Palette) : Palette :=
  mkPalette b (query p) (activeIndex p) (drillInUid p) (feedback p) (shakeId p) (terminals p) (live p) (visited p) (logouts p) (copied p).
Definition on_terminals (f : Terminal.TerminalState → Terminal.TerminalState) (p : Palette) : Palette :=
  mkPalette (open p) (query p) (activeIndex p) (drillInUid p) (feedback p) (shakeId p) (f (terminals p)) (live p) (visited p)
    (logouts p) (copied p).
Definition set_outside (v : list jsstring) (n : nat) (c : list jsstring) (p : Palette) : Palette :=
  mkPalette (open p) (query p) (activeIndex p) (drillInUid p) (feedback p) (shakeId p) (terminals p) (live p) v n c.

Definition openPalette : Palette → Palette := set_open true.
Definition closePalette : Palette → Palette := set_open false.

Definition close (p : Palette) : Palette := closePalette (set_local [] 0 None None None p).

Definition go (path : jsstring) (p : Palette) : Palette :=
  let p := close p in set_outside (visited p ++ [path]) (logouts p) (copied p) p.

Definition onLogout (p : Palette) : Palette :=
  let p := close p in set_outside (visited p ++ [js "/login"]) (S (logouts p)) (copied p) p.

Definition rejectRow (row message : jsstring) (p : Palette) : Palette :=
  set_local (query p) (activeIndex p) (drillInUid p) (Some (Failure message)) (Some row) p.

(** What [copy] puts on the clipboard; its own warning dialog is not modelled. *)
Definition copyAction (value label : jsstring) (p : Palette) : Palette :=
  let p := set_outside (visited p) (logouts p) (copied p ++ [value]) p in
  set_local (query p) (activeIndex p) (drillInUid p) (Some (Success (js "Copied " ++ label ++ js " to clipboard"))) (shakeId p) p.

Definition enterDrillIn (u : jsstring) (p : Palette) : Palette := set_local [] 0 (Some u) None None p.
Definition exitDrillIn (p : Palette) : Palette := set_local [] 0 None None None p.
Definition handleDismiss (p : Palette) : Palette := if isDrilledIn p then exitDrillIn p else close p.

Definition connectOrRestore (u name : jsstring) (online : bool) (row : jsstring) (p : Palette) : Palette :=
  if negb (canConnect (live p)) then rejectRow row NO_CONNECT_PERMISSION p
  else match session_of u (terminals p) with
       | Some existing => on_terminals (Terminal.restore (Terminal.id existing)) (close p)
       | None =>
           if negb online then rejectRow row (name ++ js " is offline — start it to connect") p
           else on_terminals (Terminal.requestConnect u name) (close p)
       end.

Definition perform (a : action) (p : Palette) : Palette :=
  match a with
  | ConnectOrRestore u n o row => connectOrRestore u n o row p
  | RestoreTerminal i row =>
      if negb (canConnect (live p)) then rejectRow row NO_CONNECT_PERMISSION p
      else on_terminals (Terminal.restore i) (close p)
  | Go path => go path p
  | Logout => onLogout p
  | Copy v l => copyAction v l p
  end.

(** A click or Enter on a row. *)
Definition select_row (item : CommandItem) (p : Palette) : Palette :=
  if i_disabled item then p else perform (i_onSelect item) p.

Definition setActiveIndex (i : Z) (p : Palette) : Palette :=
  set_local (query p) i (drillInUid p) (feedback p) (shakeId p) p.

Inductive Key := ArrowDown | ArrowUp | ArrowRight | ArrowLeft | Home | End_ | Enter | OtherKey.

Definition move (delta : Z) (p : Palette) : Palette :=
  setActiveIndex (Z.rem (Z.min (activeIndex p) (len p - 1) + delta + len p) (len p)) p.

(** [from] and [to]: the selection in the input. *)
Definition handleKeyDown (key : Key) (from to : nat) (p : Palette) : Palette :=
  let caretAtEnd := (from =? to)%nat && (from =? length (query p))%nat in
  let caretAtStart := (from =? to)%nat && (from =? 0)%nat in
  match key with
  | ArrowDown => if len p =? 0 then p else move 1 p
  | ArrowUp => if len p =? 0 then p else move (-1) p
  | ArrowRight =>
      match row_at p (safeIndex p) with
      | Some item => match i_onDrillIn item with
                     | Some u => if caretAtEnd && negb (isDrilledIn p) then enterDrillIn u p else p
                     | None => p
                     end
      | None => p
      end
  | ArrowLeft => if caretAtStart && isDrilledIn p then exitDrillIn p else p
  | Home => if len p =? 0 then p else setActiveIndex 0 p
  | End_ => if len p =? 0 then p else setActiveIndex (len p - 1) p
  | Enter => match activeItem p with Some item => select_row item p | None => p end
  | OtherKey => p
  end.

Definition onQueryChange (v : jsstring) (p : Palette) : Palette := set_local v 0 (drillInUid p) None None p.

(** Cmd/Ctrl+K anywhere on the page. *)
Definition shortcut (modifier : bool) (key : jsstring) (p : Palette) : Palette :=
  if modifier && bool_decide (toLowerCase key = js "k") then if open p then close p else openPalette p else p.

Inductive event :=
  | EShortcut (modifier : bool) (key : jsstring)
  | ETrigger                                          (* the button of the sidebar *)
  | EQuery (v : jsstring)
  | EKey (k : Key) (from to : nat)
  | EClick (i : nat)                                  (* on the i-th row *)
  | EDrill (i : nat)                                  (* on its chevron *)
  | EHover (i : nat)
  | EBack
  | EDismiss
  | EShakeDone
  | EStore (a : Terminal.taction)                     (* other components *)
  | ELive (l : Live).

Definition hover (item : CommandItem) (p : Palette) : Palette :=
  setActiveIndex (match index_by_id (flatList p) !! i_id item with Some i => Z.of_nat i | None => -1 end) p.

Definition in_dialog (f : Palette → Palette) (p : Palette) : Palette := if open p then f p else p.
Definition on_row (i : nat) (f : CommandItem → Palette → Palette) (p : Palette) : Palette :=
  match flatList p !! i with Some item => f item p | None => p end.

Definition step (p : Palette) (e : event) : Palette :=
  match e with
  | EShortcut m k => shortcut m k p
  | ETrigger => openPalette p
  | EQuery v => in_dialog (onQueryChange v) p
  | EKey k a b => in_dialog (handleKeyDown k a b) p
  | EClick i => in_dialog (on_row i select_row) p
  | EDrill i => in_dialog (on_row i (λ item p, match i_onDrillIn item with Some u => enterDrillIn u p | None => p end)) p
  | EHover i => in_dialog (on_row i hover) p
  | EBack => in_dialog exitDrillIn p
  | EDismiss => in_dialog handleDismiss p
  | EShakeDone => set_local (query p) (activeIndex p) (drillInUid p) (feedback p) None p
  | EStore a => on_terminals (λ t, Terminal.trun1 t a) p
  | ELive l => mkPalette (open p) (query p) (activeIndex p) (drillInUid p) (feedback p) (shakeId p) (terminals p) l (visited p)
                 (logouts p) (copied p)
  end.

Definition steps (p : Palette) (l : list event) : Palette := fold_left step l p.
Definition initial_palette (t : Terminal.TerminalState) (l : Live) : Palette :=
  mkPalette false [] 0 None None None t l [] 0 [].

(** ** Matching *)

Lemma scan_sublist t q : scan t q = [] ↔ q `sublist_of` t.
Proof.
  revert q. induction t as [|c t IH]; intros [|x q]; cbn [scan].
  - split; [|done]. intros _. apply sublist_nil_l.
  - split; [done|]. by intros ?%sublist_nil_r.
  - split; [|done]. intros _. apply sublist_nil_l.
  - case_bool_decide as E; rewrite IH, sublist_cons_r.
    + subst x. split; [intros Hq; right; eauto|]. intros [Hq|(q' & [= <-] & Hq)]; [|done].
      apply sublist_cons_l in Hq as (k1 & k2 & -> & Hq). by apply sublist_inserts_l, sublist_inserts_l with (k := [c]).
    + split; [auto|]. intros [Hq|(q' & [= ? _] & _)]; [done|congruence].
Qed.

Lemma startsWith_prefix s p : startsWith s p = true → ∃ r, s = p ++ r.
Proof.
  revert s. induction p as [|c p IH]; intros s; [by exists s|]. destruct s as [|d s]; [done|]. cbn.
  intros [->%N.eqb_eq [r ->]%IH]%andb_true_iff. by exists r.
Qed.

Lemma includes_sublist s p : includes s p = true → p `sublist_of` s.
Proof.
  unfold includes. induction s as [|c s IH]; cbn [indexOf]; destruct (startsWith _ p) eqn:E.
  - intros _. apply startsWith_prefix in E as [r E]. destruct p; [apply sublist_nil_l|done].
  - done.
  - intros _. apply startsWith_prefix in E as [r ->]. apply sublist_inserts_r. done.
  - destruct (indexOf s p); [|done]. intros _. by apply sublist_cons, IH.
Qed.

(** A row matches a search exactly when the characters of the search, in lower
    case, occur in this order in the text, in lower case: the one-pass scan and
    the substring shortcut agree with this definition. *)
Theorem fuzzy_subsequence (q text : jsstring) :
  fuzzyMatch q text = true ↔ toLowerCase q `sublist_of` toLowerCase text.
Proof.
  unfold fuzzyMatch. destruct (includes _ _) eqn:E.
  - split; [|done]. intros _. by apply includes_sublist.
  - rewrite <-scan_sublist. by destruct (scan _ _).
Qed.

(** ** Sections and indices *)

Lemma add_item_new item m : i_section item ∉ map fst m → add_item item m = m ++ [(i_section item, [item])].
Proof.
  induction m as [|[s l] m IH]; cbn; [done|]. intros [Hs Hm]%not_elem_of_cons. rewrite bool_decide_false by done.
  by rewrite IH.
Qed.

Lemma add_item_last item m s l : s ∉ map fst m → i_section item = s →
  add_item item (m ++ [(s, l)]) = m ++ [(s, l ++ [item])].
Proof.
  intros Hm <-. induction m as [|[s' l'] m IH]; cbn; [by rewrite bool_decide_true|].
  apply not_elem_of_cons in Hm as [Hs Hm]. rewrite bool_decide_false by done. by rewrite IH.
Qed.

#[local] Abbreviation add_all := (fold_left (λ m item, add_item item m)).

Lemma add_block s l m acc : s ∉ map fst m → Forall (λ i, i_section i = s) l →
  add_all l (m ++ [(s, acc)]) = m ++ [(s, acc ++ l)].
Proof.
  intros Hm Hl. revert acc. induction Hl as [|i l Hi _ IH]; intros acc; cbn; [by rewrite app_nil_r|].
  rewrite add_item_last by done. by rewrite IH, <-app_assoc.
Qed.

Lemma flat_snoc m s l : flat (m ++ [(s, l)]) = flat m ++ l.
Proof. unfold flat. rewrite map_app, concat_app. cbn. by rewrite app_nil_r. Qed.

#[local] Arguments flat : simpl never.

(** Rows that come section by section stay in their order. *)
Lemma flat_blocks blocks m : NoDup (map fst m ++ map fst blocks) →
  Forall (λ b, Forall (λ i, i_section i = b.1) b.2) blocks →
  flat (add_all (concat (map snd blocks)) m) = flat m ++ concat (map snd blocks).
Proof.
  intros Hd Hb. revert m Hd. induction Hb as [|[s l] blocks Hl _ IH]; intros m Hd; cbn; [by rewrite app_nil_r|].
  cbn in Hd, Hl. rewrite fold_left_app. destruct l as [|i l].
  { apply IH. by apply NoDup_app in Hd as (? & Hx & [_ ?]%NoDup_cons); apply NoDup_app; naive_solver set_solver. }
  apply Forall_cons in Hl as [Hi Hl]. assert (s ∉ map fst m) as Hs.
  { apply NoDup_app in Hd as (_ & Hx & _). intros Hm. apply (Hx s Hm). left. }
  cbn [fold_left]. rewrite add_item_new by (by rewrite Hi). rewrite Hi, add_block by done.
  rewrite IH, flat_snoc; [by rewrite <-app_assoc|]. rewrite map_app. cbn. by rewrite <-app_assoc.
Qed.

Lemma index_other l m k j : j ∉ map i_id l →
  (index_rows l (m, k)).1 !! j = m !! j.
Proof.
  revert m k. induction l as [|x l IH]; intros m k Hj; [done|]. apply not_elem_of_cons in Hj as [Hx Hj].
  change ((index_rows l (<[i_id x := k]> m, S k)).1 !! j = m !! j). rewrite IH by done. by apply lookup_insert_ne.
Qed.

Lemma index_fold l m k i item : NoDup (map i_id l) → l !! i = Some item →
  (index_rows l (m, k)).1 !! i_id item = Some (k + i)%nat.
Proof.
  revert m k i. induction l as [|x l IH]; intros m k [|i] Hd Hi; cbn in *; try done; apply NoDup_cons in Hd as [Hx Hd].
  - injection Hi as ->. change (index_rows (item :: l) (m, k)) with (index_rows l (<[i_id item := k]> m, S k)).
    rewrite index_other by done. rewrite lookup_insert_eq. f_equal. lia.
  - change (index_rows (x :: l) (m, k)) with (index_rows l (<[i_id x := k]> m, S k)).
    rewrite (IH _ (S k) i Hd Hi). f_equal. lia.
Qed.

(** The rows of a view, section by section. *)
Definition active_blocks (p : Palette) : list (jsstring * list CommandItem) :=
  match drillDevice p with
  | Some d => [(dev_name d, activeItems p)]
  | None =>
      if commandMode p
      then [(js "Navigation",
             map navRow (List.filter (λ n, negb (isIdentityMode (live p)) || negb (bool_decide (n.2 ∈ legacyPaths))) nav));
            (js "Actions", [logoutRow])]
      else [(js "Terminal Sessions", map sessionRow (Terminal.sessions (terminals p)));
            (js "Recent", map recentRow (recentDevices p)); (js "Devices", map listRow (devices (live p)))]
  end.

Lemma Forall_map_all {A B} (P : B → Prop) (f : A → B) l : (∀ x, P (f x)) → Forall P (map f l).
Proof. intros H. apply Forall_map, Forall_true. exact H. Qed.

Lemma active_blocks_spec p : activeItems p = concat (map snd (active_blocks p)) ∧ NoDup (map fst (active_blocks p)) ∧
  Forall (λ b, Forall (λ i, i_section i = b.1) b.2) (active_blocks p).
Proof.
  unfold active_blocks, activeItems. destruct (drillDevice p) as [d|].
  { split; [cbn [map snd concat]; by rewrite app_nil_r|]. split; [apply NoDup_singleton|]. repeat constructor. }
  destruct (commandMode p).
  - split; [done|]. split; [apply (bool_decide_unpack _); vm_compute; exact I|].
    repeat constructor; cbn. by apply Forall_map_all.
  - split; [unfold buildConnectionItems; cbn [map snd concat]; by rewrite app_nil_r|].
    split; [apply (bool_decide_unpack _); vm_compute; exact I|]. repeat constructor; cbn; by apply Forall_map_all.
Qed.

Lemma filter_concat {A} (f : A → bool) ls : List.filter f (concat ls) = concat (map (List.filter f) ls).
Proof. induction ls as [|l ls IH]; cbn; [done|]. by rewrite List.filter_app, IH. Qed.

Lemma flatList_filtered p : flatList p = filtered p.
Proof.
  destruct (active_blocks_spec p) as (Ha & Hd & Hb). unfold flatList, sections_of.
  assert (∃ f, filtered p = concat (map snd (map (λ b, (b.1, List.filter f b.2)) (active_blocks p)))) as [f ->].
  { unfold filtered. rewrite Ha. destruct (negb _).
    - exists (λ _, true). f_equal. rewrite map_map. apply map_ext. intros b. cbn. symmetry. apply List_filter_id.
      by apply Forall_true.
    - exists (item_matches (term p)). rewrite filter_concat, !map_map. done. }
  rewrite flat_blocks; [done| |].
  - cbn. by rewrite map_map.
  - apply Forall_map. eapply Forall_impl; [exact Hb|]. cbn. intros b Hi. apply List.Forall_forall. intros i [Hin _]%List.filter_In.
    by apply (proj1 (List.Forall_forall _ _) Hi).
Qed.

Lemma filtered_sublist p : filtered p `sublist_of` activeItems p.
Proof.
  unfold filtered. destruct (negb _); [done|]. generalize (activeItems p). intros l.
  induction l as [|i l IH]; cbn; [done|]. destruct (item_matches _ i); [by apply sublist_skip|by apply sublist_cons].
Qed.

(** ** The ids of the rows *)

Record sources_ok (p : Palette) : Prop := {
  o_sessions : NoDup (Terminal.ids (terminals p));
  o_devices : NoDup (map dev_uid (devices (live p)));
  o_recents : NoDup (map Terminal.uid (recentEntries (live p)));
}.

Lemma find_device_uid u l d : find_device u l = Some d → dev_uid d = u ∧ d ∈ l.
Proof. intros [H1 H2]%List.find_some. apply bool_decide_eq_true in H2. by rewrite list_elem_of_In. Qed.

Lemma recents_sublist t devs n l : map (λ r, dev_uid r.1) (resolve_recents t devs n l) `sublist_of` map Terminal.uid l.
Proof.
  revert n. induction l as [|e l IH]; intros n; cbn [resolve_recents map]; [done|].
  destruct (has_session _ _); [by apply sublist_cons|].
  destruct (find_device _ _) as [d|] eqn:E; [|by apply sublist_cons]. apply find_device_uid in E as [E _]. cbn [map fst]. rewrite E.
  destruct (RECENT_LIMIT <=? S n)%nat; apply sublist_skip; [apply sublist_nil_l|apply IH].
Qed.

Lemma NoDup_prefixed {A} (pre : jsstring) (f : A → jsstring) l : NoDup (map f l) → NoDup (map (λ x, pre ++ f x) l).
Proof.
  intros H. replace (map (λ x, pre ++ f x) l) with (map (app pre) (map f l)) by apply map_map.
  apply NoDup_fmap_2; [|done]. intros a b. apply app_inv_head.
Qed.

(** Ids that start with different letters. *)
Definition starts (c : N) (l : list jsstring) : Prop := Forall (λ s, head s = Some c) l.
Lemma starts_disjoint c d l k : c ≠ d → starts c l → starts d k → ∀ x, x ∈ l → x ∉ k.
Proof.
  unfold starts. rewrite !Forall_forall. intros Hne Hl Hk x Hx Hy. specialize (Hl x Hx). specialize (Hk x Hy). congruence.
Qed.

Lemma active_ids p : sources_ok p → NoDup (map i_id (activeItems p)).
Proof.
  intros [A B C]. unfold activeItems. destruct (drillDevice p) as [d|]; [apply (bool_decide_unpack _); vm_compute; exact I|].
  destruct (commandMode p); [destruct (isIdentityMode (live p)); apply (bool_decide_unpack _); vm_compute; exact I|].
  unfold buildConnectionItems. rewrite !map_app, !map_map.
  assert (NoDup (map (λ r : Device * jsstring, dev_uid r.1) (recentDevices p))) as C'.
  { eapply sublist_NoDup; [exact C|apply recents_sublist]. }
  apply (NoDup_prefixed (js "term-") Terminal.id) in A. apply (NoDup_prefixed (js "recent-")) in C'.
  apply (NoDup_prefixed (js "device-")) in B.
  apply NoDup_app. split; [exact A|]. split.
  { intros x Hx. rewrite not_elem_of_app. split; revert x Hx; eapply (starts_disjoint 116); try by apply Forall_map_all.
    all: done. }
  apply NoDup_app. split; [exact C'|]. split; [|exact B].
  eapply (starts_disjoint 114 100); [done|by apply Forall_map_all..].
Qed.

(** With session ids, device ids and recent devices that do not repeat, the
    palette lists every matching row once, in the order of the unfiltered list,
    under an id of its own; the position found through the id of a row is where
    the row is. *)
Theorem palette_rows (p : Palette) (Hp : sources_ok p) :
  flatList p = filtered p ∧ filtered p `sublist_of` activeItems p ∧
  (∀ item, item ∈ filtered p ↔ item ∈ activeItems p ∧ (term p = [] ∨ item_matches (term p) item = true)) ∧
  NoDup (map i_id (flatList p)) ∧
  (∀ i item, flatList p !! i = Some item → index_by_id (flatList p) !! i_id item = Some i).
Proof.
  assert (NoDup (map i_id (flatList p))) as Hd.
  { rewrite flatList_filtered. eapply sublist_NoDup; [by apply active_ids|].
    apply (fmap_sublist i_id), filtered_sublist. }
  split; [apply flatList_filtered|]. split; [apply filtered_sublist|]. split; [|split; [done|]].
  - intros item. unfold filtered. destruct (term p) as [|c t]; cbn [truthy negb]; [naive_solver|].
    rewrite !list_elem_of_In, List.filter_In. naive_solver.
  - intros i item Hi. unfold index_by_id. by rewrite (index_fold _ _ 0 i item).
Qed.

(** ** What the palette may do to the terminals *)

(** The target of a row is a device or a session of the lists. *)
Definition target_ok (p : Palette) (a : action) : Prop :=
  match a with
  | ConnectOrRestore u n o _ => ∃ d, d ∈ devices (live p) ∧ u = dev_uid d ∧ n = dev_name d ∧ o = dev_online d
  | RestoreTerminal i _ => ∃ s, s ∈ Terminal.sessions (terminals p) ∧ i = Terminal.id s
  | _ => True
  end.

Lemma recents_devices t devs n l : Forall (λ r, r.1 ∈ devs) (resolve_recents t devs n l).
Proof.
  revert n. induction l as [|e l IH]; intros n; cbn [resolve_recents]; [done|]. destruct (has_session _ _); [done|].
  destruct (find_device _ _) as [d|] eqn:E; [|done]. apply find_device_uid in E as [_ E].
  constructor; [done|]. by destruct (_ <=? _)%nat.
Qed.

Lemma active_targets p : Forall (λ i, target_ok p (i_onSelect i)) (activeItems p).
Proof.
  unfold activeItems. destruct (drillDevice p) as [d|] eqn:Ed.
  { unfold drillDevice in Ed. destruct (drillInUid p) as [u|]; [|done]. destruct (truthy u); [|done].
    apply find_device_uid in Ed as [_ Ed]. repeat constructor; cbn. by exists d. }
  destruct (commandMode p).
  { apply Forall_app. split; [by apply Forall_map_all|by repeat constructor]. }
  apply Forall_app. split; [|apply Forall_app; split]; apply Forall_map.
  - apply Forall_forall. intros s Hs. by exists s.
  - eapply Forall_impl; [apply recents_devices|]. intros r Hr. by exists r.1.
  - apply Forall_forall. intros d Hd. by exists d.
Qed.

Lemma row_target p i item : flatList p !! i = Some item → target_ok p (i_onSelect item).
Proof.
  rewrite flatList_filtered. intros Hi%list_elem_of_lookup_2. eapply elem_of_sublist in Hi; [|apply filtered_sublist].
  by apply (proj1 (Forall_forall _ _) (active_targets p)).
Qed.

(** A session brought back, or a connection asked for a device that is online and
    has no session. *)
Definition allowed_change (p : Palette) (t : Terminal.TerminalState) : Prop :=
  canConnect (live p) = true ∧
  ((∃ s, s ∈ Terminal.sessions (terminals p) ∧ t = Terminal.restore (Terminal.id s) (terminals p)) ∨
   (∃ d, d ∈ devices (live p) ∧ dev_online d = true ∧ session_of (dev_uid d) (terminals p) = None ∧
         t = Terminal.requestConnect (dev_uid d) (dev_name d) (terminals p))).

Lemma perform_allowed p a : target_ok p a → terminals (perform a p) = terminals p ∨ allowed_change p (terminals (perform a p)).
Proof.
  intros Ht. destruct a as [u n o row|i row|path| |v l]; cbn [perform]; try (by left).
  - destruct Ht as (d & Hd & -> & -> & ->). unfold connectOrRestore. destruct (canConnect (live p)) eqn:Ec; [|by left].
    cbn [negb]. destruct (session_of _ _) as [s|] eqn:Es.
    + right. split; [done|]. left. exists s. split; [|done]. apply List.find_some in Es as [Es _]. by apply list_elem_of_In.
    + destruct (dev_online d) eqn:Eo; [|by left]. right. split; [done|]. right. by exists d.
  - destruct Ht as (s & Hs & ->). destruct (canConnect (live p)) eqn:Ec; [|by left]. right. split; [done|]. left. by exists s.
Qed.

Lemma select_allowed p i item : flatList p !! i = Some item →
  terminals (select_row item p) = terminals p ∨ allowed_change p (terminals (select_row item p)).
Proof.
  intros Hi. unfold select_row. destruct (i_disabled item); [by left|]. by eapply perform_allowed, row_target.
Qed.

Lemma row_at_lookup p i item : row_at p i = Some item → ∃ n, flatList p !! n = Some item.
Proof. unfold row_at. destruct (i <? 0); [done|]. eauto. Qed.

(** Whatever is typed, clicked or highlighted, the palette changes the terminal
    store only for a user with the permission to connect, and only by restoring
    an open session or by asking to connect to a listed device that is online and
    has no open session. *)
Theorem palette_connects_with_permission (p : Palette) (e : event) :
  (∃ a, e = EStore a) ∨ terminals (step p e) = terminals p ∨ allowed_change p (terminals (step p e)).
Proof.
  destruct e as [m k| |v|k a b|i|i|i| | | |a|l]; cbn [step]; try (right; left; reflexivity).
  - right. left. unfold shortcut. by repeat case_match.
  - right. left. unfold in_dialog. by destruct (open p).
  - right. unfold in_dialog. destruct (open p); [|by left]. destruct k; cbn [handleKeyDown]; try (left; by repeat case_match).
    unfold activeItem. destruct (row_at p (safeIndex p)) as [item|] eqn:Er; [|by left].
    apply row_at_lookup in Er as [n Hn]. by eapply select_allowed.
  - right. unfold in_dialog, on_row. destruct (open p); [|by left]. destruct (flatList p !! i) as [item|] eqn:Ei; [|by left].
    by eapply select_allowed.
  - right. left. unfold in_dialog, on_row. by repeat case_match.
  - right. left. unfold in_dialog, on_row. by repeat case_match.
  - right. left. unfold in_dialog. by destruct (open p).
  - right. left. unfold in_dialog, handleDismiss. by repeat case_match.
  - left. by exists a.
Qed.

(** ** Opening fresh *)

Definition fresh (p : Palette) : Prop :=
  query p = [] ∧ activeIndex p = 0 ∧ drillInUid p = None ∧ feedback p = None ∧ shakeId p = None.

Definition palette_ok (p : Palette) : Prop := 0 <= activeIndex p ∧ (open p = false → fresh p).

Lemma palette_open_ok p : 0 <= activeIndex p → open p = true → palette_ok p.
Proof. intros Ha Ho. split; [done|]. congruence. Qed.

Lemma closed_ok p : palette_ok (close p).
Proof. by repeat split. Qed.
Lemma connected_ok f p : palette_ok (on_terminals f (close p)).
Proof. by repeat split. Qed.

Lemma perform_ok a p : palette_ok p → open p = true → palette_ok (perform a p).
Proof.
  intros [Ha Hf] Ho. destruct a as [u n o row|i row|path| |v l]; cbn [perform]; try (by repeat split).
  - unfold connectOrRestore. repeat case_match; try apply connected_ok; by apply palette_open_ok.
  - case_match; [by apply palette_open_ok|apply connected_ok].
  - by apply palette_open_ok.
Qed.

Lemma index_in l m k j : j ∈ map i_id l ∨ is_Some (m !! j) → is_Some ((index_rows l (m, k)).1 !! j).
Proof.
  revert m k. induction l as [|x l IH]; intros m k H; [naive_solver set_solver|].
  change (index_rows (x :: l) (m, k)) with (index_rows l (<[i_id x := k]> m, S k)). apply IH.
  destruct (decide (i_id x = j)) as [<-|Hne]; [right; rewrite lookup_insert_eq; by eexists|].
  rewrite lookup_insert_ne by done. destruct H as [H|H]; [|by right]. left. cbn in H. set_solver.
Qed.

Lemma len_pos p : (len p =? 0) = false → 0 < len p.
Proof. intros H%Z.eqb_neq. unfold len in *. lia. Qed.

Lemma key_ok k a b p : palette_ok p → open p = true → palette_ok (handleKeyDown k a b p).
Proof.
  intros Hp Ho. pose proof Hp as [Ha _].
  assert (∀ d, (len p =? 0) = false → -1 <= d → palette_ok (move d p)) as Hmove.
  { intros d Hl%len_pos Hd. apply palette_open_ok; [|done]. cbn. apply Z.rem_nonneg; lia. }
  destruct k; cbn [handleKeyDown]; try done.
  1,2: destruct (len p =? 0) eqn:E; [done|by apply Hmove].
  - destruct (row_at _ _) as [item|]; [|done]. destruct (i_onDrillIn item); [|done]. destruct (_ && _); [by apply palette_open_ok|done].
  - destruct (_ && _); [by apply palette_open_ok|done].
  - destruct (len p =? 0); [done|by apply palette_open_ok].
  - destruct (len p =? 0) eqn:E; [done|]. apply len_pos in E. apply palette_open_ok; [cbn; lia|done].
  - destruct (activeItem p) as [item|]; [|done]. unfold select_row. destruct (i_disabled item); [done|by apply perform_ok].
Qed.

Lemma step_ok p e : palette_ok p → palette_ok (step p e).
Proof.
  intros Hp. pose proof Hp as [Ha Hf].
  destruct e as [m k| |v|k a b|i|i|i| | | |a|l]; cbn [step]; unfold in_dialog, on_row; try done.
  - unfold shortcut. destruct (_ && _); [|done]. destruct (open p); [apply closed_ok|by apply palette_open_ok].
  - destruct (open p) eqn:Ho; [by apply palette_open_ok|done].
  - destruct (open p) eqn:Ho; [by apply key_ok|done].
  - destruct (open p) eqn:Ho; [|done]. destruct (flatList p !! i) as [item|]; [|done].
    unfold select_row. destruct (i_disabled item); [done|by apply perform_ok].
  - destruct (open p) eqn:Ho; [|done]. destruct (flatList p !! i) as [item|]; [|done].
    destruct (i_onDrillIn item); [by apply palette_open_ok|done].
  - destruct (open p) eqn:Ho; [|done]. destruct (flatList p !! i) as [item|] eqn:Ei; [|done].
    apply palette_open_ok; [|done]. unfold hover, index_by_id. cbn. destruct (index_in (flatList p) ∅ 0 (i_id item)) as [n ->]; [|lia].
    left. apply list_elem_of_lookup_2 in Ei. by apply (list_elem_of_fmap_2 i_id).
  - destruct (open p) eqn:Ho; [by apply palette_open_ok|done].
  - destruct (open p) eqn:Ho; [|done]. unfold handleDismiss. destruct (isDrilledIn p); [by apply palette_open_ok|apply closed_ok].
  - split; [done|]. intros Ho. destruct (Hf Ho) as (? & ? & ? & ? & ?). done.
Qed.

Lemma steps_ok l p : palette_ok p → palette_ok (steps p l).
Proof. revert p. induction l as [|e l IH]; intros p Hp; [done|]. by apply IH, step_ok. Qed.

(** However the palette is used and whatever the lists do meanwhile: while it
    is closed its search, highlight, device menu and messages are those of a new
    one, so that it opens fresh; and the highlighted row exists exactly when there
    are rows. *)
Theorem palette_opens_fresh (t : Terminal.TerminalState) (lv : Live) (l : list event) :
  let p := steps (initial_palette t lv) l in
  (open p = false → fresh p) ∧
  (flatList p = [] ∧ safeIndex p = -1 ∧ activeItem p = None ∨
   0 <= safeIndex p < len p ∧ is_Some (activeItem p)).
Proof.
  intros p. assert (palette_ok p) as [Ha Hf] by (apply steps_ok; by repeat split). split; [done|].
  unfold activeItem, row_at, safeIndex, len. destruct (flatList p) as [|x r] eqn:E; [by left|]. right.
  rewrite <-E. destruct (Z.eqb_spec (Z.of_nat (length (flatList p))) 0) as [E0|_]; [by rewrite E in E0|].
  assert (0 < Z.of_nat (length (flatList p))) by (rewrite E; cbn; lia).
  split; [lia|]. destruct (Z.ltb_spec (Z.min (activeIndex p) (Z.of_nat (length (flatList p)) - 1)) 0); [lia|].
  apply lookup_lt_is_Some. lia.
Qed.
End Palette_.

(** ** On a concrete page *)

Module Sample.
Definition plain (c : N) : jsstring := [c].
Definition lv : Live :=
  mkLive [mkDevice (js "u1") (js "web-1") true None; mkDevice (js "u2") (js "db-1") false (Some (js "aa:bb"))] true (js "dev") true
    [Terminal.mkRecent (js "u2") (js "db-1") (js "2024-01-01T00:00:00.000Z")].
Definition searching : Palette :=
  steps plain (js "host") (λ d, d) (initial_palette Terminal.initial_terminals lv) [ETrigger; EQuery (js "db")].

Lemma sample_sources : sources_ok searching.
Proof. split; apply (bool_decide_unpack _); vm_compute; exact I. Qed.

Lemma palette_rows_witness :
  map i_id (flatList plain (js "host") (λ d, d) searching) = [js "recent-u2"; js "device-u2"] ∧
  NoDup (map i_id (flatList plain (js "host") (λ d, d) searching)).
Proof.
  split; [vm_compute; reflexivity|]. apply (palette_rows plain (js "host") (λ d, d) searching sample_sources).
Defined.
End Sample.
