(* ===== verification/AccessPolicy.v ===== *)
(** * The access policy form (pages/access-policies/AccessPolicyDrawer.tsx,
      components/common/fields/SourceIpInput.tsx)

    The drawer that creates and edits an access policy: its fields, the input of
    unix logins, the input of source addresses (whose entries are parsed as in
    [SourceIp]), and the request it sends.  One value of [Form] is the state of
    the drawer, which stays mounted while it is closed; a step is one event of the
    user, of the queries the form reads, or of a request in flight.

    Theorems: the request that is sent is what the form shows, complete and with
    source entries of an address's shape, whatever was typed; opening a policy and saving it sends the policy back. *)

From S2P Require Import Prelude JsString SourceIp.

Inductive SubjectType := all_members | role | user | service_account.
#[export] Instance SubjectType_eq_dec : EqDecision SubjectType.
Proof. solve_decision. Defined.
Inductive FilterOption := f_all | f_hostname | f_tags.
#[export] Instance FilterOption_eq_dec : EqDecision FilterOption.
Proof. solve_decision. Defined.
Inductive Effect := allow | deny.
#[export] Instance Effect_eq_dec : EqDecision Effect.
Proof. solve_decision. Defined.

(** A subject as the API has it: all members, a role, or a user by id. *)
Inductive Subject := AllMembers | Role (value : jsstring) | User (value : jsstring).
#[export] Instance Subject_eq_dec : EqDecision Subject.
Proof. solve_decision. Defined.

Record AccessPolicy := mkPolicy {
  ap_id : jsstring;
  ap_name : jsstring;
  ap_action : Effect;
  ap_subject : Subject;
  ap_hostname : option jsstring;            (* filter.hostname *)
  ap_tags : list jsstring;                  (* the names of filter.tags *)
  ap_logins : list jsstring;
  ap_source_ip : list jsstring;
  ap_require_reauth : bool;
  ap_reauth_period : option Z;
}.

Inductive Filter := Hostname (h : jsstring) | Tags (l : list jsstring).

Record Request := mkRequest {
  r_name : jsstring;
  r_action : Effect;
  r_subject : Subject;
  r_filter : Filter;
  r_logins : list jsstring;
  r_source_ip : list jsstring;
  r_require_reauth : bool;
  r_reauth_period : option Z;
}.

(** What the form reads of the queries: the members by id and role, the service
    accounts by id and name, the tags. *)
Record Env := mkEnv {
  ns_members : list (option jsstring * option jsstring * option jsstring);   (* id, role, email *)
  serviceAccounts : list (jsstring * jsstring);
  allTags : list jsstring;
}.

Definition ROLES : list jsstring := [js "administrator"; js "operator"; js "observer"].
Definition ANY_LOGIN : list jsstring := [js "*"].
Definition isAnyLogin (v : list jsstring) : bool := bool_decide (v = ANY_LOGIN).

Record Member := mkMember { m_id : jsstring; m_role : jsstring; m_email : jsstring }.

(** Human members only. *)
Definition members (e : Env) : list Member :=
  omap (λ '(i, r, m), if is_truthy i && is_truthy r && is_truthy m && negb (bool_decide (r = Some (js "service")))
                      then Some (mkMember (default [] i) (default [] r) (default [] m)) else None) (ns_members e).

Definition roleMemberCount (e : Env) (r : jsstring) : nat :=
  length (List.filter (λ m, bool_decide (m_role m = r)) (members e)).

Record Form := mkForm {
  env : Env;
  open : bool;
  editPolicy : option AccessPolicy;
  name : jsstring;
  action : Effect;
  subjectType : SubjectType;
  roleValue : jsstring;
  userValue : jsstring;
  saValue : jsstring;
  filterOption : FilterOption;
  hostname : jsstring;
  selectedTags : list jsstring;
  logins : list jsstring;
  loginDraft : jsstring;                    (* LoginsInput *)
  sourceIP : list jsstring;
  sourceIpDraftError : bool;
  ipDraft : jsstring;                       (* SourceIpInput *)
  showDraftError : bool;
  requireReauth : bool;
  reauthPeriod : option Z;
  submitting : bool;
  error : option jsstring;
  pending : list (option jsstring * Request);   (* requests in flight, with the policy they update *)
  sent : list (option jsstring * Request);
  closed : nat;                             (* calls of onClose *)
}.

Definition set_page (e : Env) (o : bool) (ed : option AccessPolicy) (n : nat) (f : Form) : Form :=
  mkForm e o ed (name f) (action f) (subjectType f) (roleValue f) (userValue f) (saValue f) (filterOption f) (hostname f)
    (selectedTags f) (logins f) (loginDraft f) (sourceIP f) (sourceIpDraftError f) (ipDraft f) (showDraftError f)
    (requireReauth f) (reauthPeriod f) (submitting f) (error f) (pending f) (sent f) n.
Definition set_head (n : jsstring) (a : Effect) (f : Form) : Form :=
  mkForm (env f) (open f) (editPolicy f) n a (subjectType f) (roleValue f) (userValue f) (saValue f) (filterOption f)
    (hostname f) (selectedTags f) (logins f) (loginDraft f) (sourceIP f) (sourceIpDraftError f) (ipDraft f)
    (showDraftError f) (requireReauth f) (reauthPeriod f) (submitting f) (error f) (pending f) (sent f) (closed f).
Definition set_subject (t : SubjectType) (r u s : jsstring) (f : Form) : Form :=
  mkForm (env f) (open f) (editPolicy f) (name f) (action f) t r u s (filterOption f)
    (hostname f) (selectedTags f) (logins f) (loginDraft f) (sourceIP f) (sourceIpDraftError f) (ipDraft f)
    (showDraftError f) (requireReauth f) (reauthPeriod f) (submitting f) (error f) (pending f) (sent f) (closed f).
Definition set_filter (o : FilterOption) (h : jsstring) (t : list jsstring) (f : Form) : Form :=
  mkForm (env f) (open f) (editPolicy f) (name f) (action f) (subjectType f) (roleValue f) (userValue f) (saValue f) o
    h t (logins f) (loginDraft f) (sourceIP f) (sourceIpDraftError f) (ipDraft f)
    (showDraftError f) (requireReauth f) (reauthPeriod f) (submitting f) (error f) (pending f) (sent f) (closed f).
Definition set_logins (v : list jsstring) (d : jsstring) (f : Form) : Form :=
  mkForm (env f) (open f) (editPolicy f) (name f) (action f) (subjectType f) (roleValue f) (userValue f) (saValue f)
    (filterOption f) (hostname f) (selectedTags f) v d (sourceIP f) (sourceIpDraftError f) (ipDraft f)
    (showDraftError f) (requireReauth f) (reauthPeriod f) (submitting f) (error f) (pending f) (sent f) (closed f).
Definition set_ips (v : list jsstring) (err : bool) (d : jsstring) (sh : bool) (f : Form) : Form :=
  mkForm (env f) (open f) (editPolicy f) (name f) (action f) (subjectType f) (roleValue f) (userValue f) (saValue f)
    (filterOption f) (hostname f) (selectedTags f) (logins f) (loginDraft f) v err d
    sh (requireReauth f) (reauthPeriod f) (submitting f) (error f) (pending f) (sent f) (closed f).
Definition set_reauth (b : bool) (p : option Z) (f : Form) : Form :=
  mkForm (env f) (open f) (editPolicy f) (name f) (action f) (subjectType f) (roleValue f) (userValue f) (saValue f)
    (filterOption f) (hostname f) (selectedTags f) (logins f) (loginDraft f) (sourceIP f) (sourceIpDraftError f) (ipDraft f)
    (showDraftError f) b p (submitting f) (error f) (pending f) (sent f) (closed f).
Definition set_submit (b : bool) (e : option jsstring) (pe se : list (option jsstring * Request)) (f : Form) : Form :=
  mkForm (env f) (open f) (editPolicy f) (name f) (action f) (subjectType f) (roleValue f) (userValue f) (saValue f)
    (filterOption f) (hostname f) (selectedTags f) (logins f) (loginDraft f) (sourceIP f) (sourceIpDraftError f) (ipDraft f)
    (showDraftError f) (requireReauth f) (reauthPeriod f) b e pe se (closed f).

(** ** LoginsInput *)

(** [commit(raw)]; the result is whether there was a token. *)
Definition commit (raw : jsstring) (f : Form) : Form * bool :=
  let token := trim raw in
  let v := if negb (bool_decide (token ∈ logins f)) && truthy token then logins f ++ [token] else logins f in
  (set_logins v [] f, truthy token).

Definition login_key (key : jsstring) (f : Form) : Form :=
  if bool_decide (key = js "Enter") || bool_decide (key = js ",") then (commit (loginDraft f) f).1
  else if bool_decide (key = js "Backspace") && negb (truthy (loginDraft f)) && negb (bool_decide (logins f = []))
  then set_logins (take (length (logins f) - 1) (logins f)) (loginDraft f) f
  else f.

(** A change of the list inside [commit] is seen by the next render; [values] here
    is the list of this one. *)
Definition login_blur (f : Form) : Form :=
  let values := logins f in
  let '(f, committed) := commit (loginDraft f) f in
  if negb committed && bool_decide (values = []) then set_logins ANY_LOGIN (loginDraft f) f else f.

Definition login_remove (v : jsstring) (f : Form) : Form :=
  let next := List.filter (λ x, negb (bool_decide (x = v))) (logins f) in
  set_logins (if bool_decide (next = []) then ANY_LOGIN else next) (loginDraft f) f.

(** ** SourceIpInput *)

Definition SUGGESTIONS : list jsstring := [js "10.0.0.0/8"; js "192.168.0.0/16"; js "172.16.0.0/12"].

(** [canAdd], with the value to add. *)
Definition addable (draft : jsstring) : option jsstring :=
  match parseSourceIp draft with SOk _ v _ _ => Some v | _ => None end.

Definition ip_add (cidr : jsstring) (f : Form) : Form :=
  set_ips (if bool_decide (cidr ∈ sourceIP f) then sourceIP f else sourceIP f ++ [cidr]) (sourceIpDraftError f) []
    (showDraftError f) f.

Definition commitDraft (f : Form) : Form :=
  match addable (ipDraft f) with
  | Some v => let f := ip_add v f in set_ips (sourceIP f) false (ipDraft f) false f
  | None => f
  end.

Definition ip_blur (f : Form) : Form :=
  match addable (ipDraft f) with
  | Some _ => commitDraft f
  | None => if truthy (trim (ipDraft f)) then set_ips (sourceIP f) true (ipDraft f) true f else f
  end.

Definition ip_change (value : jsstring) (f : Form) : Form :=
  if showDraftError f then set_ips (sourceIP f) false value false f
  else set_ips (sourceIP f) (sourceIpDraftError f) value (showDraftError f) f.

Definition ip_key (key : jsstring) (f : Form) : Form :=
  if bool_decide (key = js "Enter") || bool_decide (key = js ",") then commitDraft f
  else if bool_decide (key = js "Backspace") && negb (truthy (ipDraft f)) && negb (bool_decide (sourceIP f = []))
  then set_ips (take (length (sourceIP f) - 1) (sourceIP f)) (sourceIpDraftError f) (ipDraft f) (showDraftError f) f
  else f.

Definition ip_remove (v : jsstring) (f : Form) : Form :=
  set_ips (List.filter (λ x, negb (bool_decide (x = v))) (sourceIP f)) (sourceIpDraftError f) (ipDraft f) (showDraftError f) f.

(** ** The drawer *)

Definition filter_init (p : AccessPolicy) : FilterOption :=
  if negb (bool_decide (ap_tags p = [])) then f_tags
  else if is_truthy (ap_hostname p) && negb (bool_decide (ap_hostname p = Some (js ".*"))) then f_hostname
  else f_all.

Definition is_service_account (e : Env) (i : jsstring) : bool := existsb (λ sa, bool_decide (sa.1 = i)) (serviceAccounts e).

Definition subject_init (e : Env) (s : Subject) : SubjectType :=
  match s with
  | AllMembers => all_members
  | Role _ => role
  | User v => if is_service_account e v then service_account else user
  end.

(** [useResetOnOpen]: the fields of a drawer that opens; the drafts of the source
    field go with its key, that of the logins stays. *)
Definition reset_form (p : option AccessPolicy) (f : Form) : Form :=
  let f := match p with
           | None => set_filter f_all [] [] (set_subject all_members (js "administrator") [] [] (set_head [] allow f))
           | Some p =>
               let fi := filter_init p in
               set_filter fi (if bool_decide (fi = f_hostname) then default [] (ap_hostname p) else [])
                 (if bool_decide (fi = f_tags) then ap_tags p else [])
                 (set_subject (subject_init (env f) (ap_subject p))
                    (match ap_subject p with Role v => v | _ => js "administrator" end)
                    (match ap_subject p with User v => if is_service_account (env f) v then [] else v | _ => [] end)
                    (match ap_subject p with User v => if is_service_account (env f) v then v else [] | _ => [] end)
                    (set_head (ap_name p) (ap_action p) f))
           end in
  let f := set_logins (match p with Some p => ap_logins p | None => ANY_LOGIN end) (loginDraft f) f in
  let f := set_ips (match p with Some p => ap_source_ip p | None => [] end) false [] false f in
  let f := set_reauth (match p with Some p => ap_require_reauth p | None => false end)
             (match p with Some p => ap_reauth_period p | None => None end) f in
  set_submit false None (pending f) (sent f) f.

Definition buildSubject (f : Form) : Subject :=
  match subjectType f with
  | role => Role (roleValue f)
  | user => User (userValue f)
  | service_account => User (saValue f)
  | all_members => AllMembers
  end.

Definition buildFilter (f : Form) : Filter :=
  if bool_decide (filterOption f = f_hostname) && truthy (hostname f) then Hostname (hostname f)
  else if bool_decide (filterOption f = f_tags) && negb (bool_decide (selectedTags f = [])) then Tags (selectedTags f)
  else Hostname (js ".*").

Definition reauthApplies (f : Form) : bool := negb (bool_decide (subjectType f = service_account)).

Definition confirmDisabled (f : Form) : bool :=
  negb (truthy (trim (name f)))
  || (bool_decide (subjectType f = user) && negb (truthy (userValue f)))
  || (bool_decide (subjectType f = service_account) && negb (truthy (saValue f)))
  || (bool_decide (filterOption f = f_hostname) && negb (truthy (trim (hostname f))))
  || (bool_decide (filterOption f = f_tags) && (bool_decide (selectedTags f = []) || (3 <? length (selectedTags f))%nat))
  || bool_decide (logins f = [])
  || sourceIpDraftError f.

(** The body of the request. *)
Definition body (f : Form) : Request :=
  mkRequest (trim (name f)) (action f) (buildSubject f) (buildFilter f) (logins f) (sourceIP f)
    (reauthApplies f && requireReauth f) (if reauthApplies f && requireReauth f then reauthPeriod f else None).

Definition request (f : Form) : option Request := if confirmDisabled f then None else Some (body f).

Definition handleSubmit (f : Form) : Form :=
  match request f with
  | None => f
  | Some r => let e := (ap_id <$> editPolicy f, r) in set_submit true None (pending f ++ [e]) (sent f ++ [e]) f
  end.

Definition onClose (f : Form) : Form := set_page (env f) false None (S (closed f)) f.

(** The answer of the [i]-th request in flight: success, an [Error] with a
    message, or another exception. *)
Definition on_answer (i : nat) (a : unit + option jsstring) (f : Form) : Form :=
  match pending f !! i with
  | None => f
  | Some (target, _) =>
      let f := set_submit (submitting f) (error f) (delete i (pending f)) (sent f) f in
      match a with
      | inl _ => let f := onClose f in set_submit false (error f) (pending f) (sent f) f
      | inr m =>
          let other := js "Failed to " ++ (if bool_decide (is_Some target) then js "update" else js "create")
                       ++ js " access policy" in
          set_submit false (Some (default other m)) (pending f) (sent f) f
      end
  end.

Definition toggle_tag (t : jsstring) (l : list jsstring) : list jsstring :=
  if bool_decide (t ∈ l) then List.filter (λ x, negb (bool_decide (x = t))) l
  else if (length l <? 3)%nat then l ++ [t] else l.

Inductive event :=
  | FEnv (e : Env)
  | FOpen (p : option AccessPolicy)
  | FClose
  | FName (s : jsstring) | FAction (a : Effect)
  | FAllMembers | FRole (i : nat) | FUser (i : nat) | FServiceAccount (i : nat)
  | FAllDevices | FTag (i : nat) | FHostname (s : jsstring)
  | FLoginDraft (s : jsstring) | FLoginKey (k : jsstring) | FLoginBlur | FLoginRemove (v : jsstring) | FLoginRestrict
  | FIpDraft (s : jsstring) | FIpKey (k : jsstring) | FIpBlur | FIpRemove (v : jsstring) | FIpPreview | FIpSuggest (i : nat)
  | FReauth | FPeriod (p : option Z)
  | FSubmit
  | FAnswer (i : nat) (a : unit + option jsstring).

Definition any_shown (f : Form) : bool := isAnyLogin (logins f).

(** Rows and buttons act on what is rendered; the source field's events need it to
    be shown, and the login input is not shown for any login. *)
Definition fstep (f : Form) (e : event) : Form :=
  match e with
  | FEnv e => set_page e (open f) (editPolicy f) (closed f) f
  | FOpen p => if open f then f else reset_form p (set_page (env f) true p (closed f) f)
  | FClose => if open f then onClose f else f
  | FName s => set_head s (action f) f
  | FAction a => set_head (name f) a f
  | FAllMembers => set_subject all_members (roleValue f) (userValue f) (saValue f) f
  | FRole i => match ROLES !! i with Some r => set_subject role r (userValue f) (saValue f) f | None => f end
  | FUser i => match members (env f) !! i with
               | Some m => set_subject user (roleValue f) (m_id m) (saValue f) f
               | None => f
               end
  | FServiceAccount i => match serviceAccounts (env f) !! i with
                         | Some sa => set_subject service_account (roleValue f) (userValue f) sa.1 f
                         | None => f
                         end
  | FAllDevices => set_filter f_all (hostname f) (selectedTags f) f
  | FTag i => match allTags (env f) !! i with
              | Some t => set_filter f_tags (hostname f) (toggle_tag t (selectedTags f)) f
              | None => f
              end
  | FHostname s => set_filter f_hostname s (selectedTags f) f
  | FLoginDraft s => if any_shown f then f else set_logins (logins f) s f
  | FLoginKey k => if any_shown f then f else login_key k f
  | FLoginBlur => if any_shown f then f else login_blur f
  | FLoginRemove v => if any_shown f then f else login_remove v f
  | FLoginRestrict => if any_shown f then set_logins [] (loginDraft f) f else f
  | FIpDraft s => ip_change s f
  | FIpKey k => ip_key k f
  | FIpBlur => ip_blur f
  | FIpRemove v => ip_remove v f
  | FIpPreview => commitDraft f
  | FIpSuggest i =>
      match List.filter (λ s, negb (bool_decide (s ∈ sourceIP f))) SUGGESTIONS !! i with
      | Some s => if truthy (ipDraft f) then f else ip_add s f
      | None => f
      end
  | FReauth => if reauthApplies f then set_reauth (negb (requireReauth f)) (reauthPeriod f) f else f
  | FPeriod p => if reauthApplies f && requireReauth f then set_reauth (requireReauth f) p f else f
  | FSubmit => if submitting f || confirmDisabled f then f else handleSubmit f
  | FAnswer i a => on_answer i a f
  end.

Definition frun (f : Form) (l : list event) : Form := fold_left fstep l f.

Definition initial_form (e : Env) : Form :=
  mkForm e false None [] allow all_members (js "administrator") [] [] f_all [] [] ANY_LOGIN [] [] false [] false false None false
    None [] [] 0.

(** ** Texts *)

Definition REAUTH_PERIODS : list (option Z * jsstring) :=
  [(None, js "Every session"); (Some 3600, js "Every hour"); (Some 43200, js "Every 12 hours");
   (Some 86400, js "Every 24 hours"); (Some 604800, js "Every 7 days")].
Definition reauthPeriodLabel (value : option Z) : jsstring :=
  match List.find (λ p, bool_decide (p.1 = value)) REAUTH_PERIODS with Some p => p.2 | None => js "Every session" end.

Definition isBroad (f : Form) : bool :=
  bool_decide (action f = allow) && bool_decide (subjectType f = all_members) && isAnyLogin (logins f)
  && bool_decide (filterOption f = f_all).

Definition subjectLabel (f : Form) : jsstring :=
  match subjectType f with
  | role => js "the " ++ roleValue f ++ js " role"
  | user => match List.find (λ m, bool_decide (m_id m = userValue f)) (members (env f)) with
            | Some m => m_email m
            | None => js "a member"
            end
  | service_account => match List.find (λ sa, bool_decide (sa.1 = saValue f)) (serviceAccounts (env f)) with
                       | Some sa => sa.2
                       | None => js "a service account"
                       end
  | all_members => js "all members"
  end.

Definition deviceLabel (f : Form) : jsstring :=
  match filterOption f with
  | f_tags => if bool_decide (selectedTags f = []) then js "devices" else js "devices tagged " ++ join (js ", ") (selectedTags f)
  | f_hostname => js "devices matching /" ++ or_else (Some (hostname f)) (js "…") ++ js "/"
  | f_all => js "all devices"
  end.

Definition loginLabel (f : Form) : jsstring :=
  if isAnyLogin (logins f) then js "any login (incl. root)" else join (js ", ") (logins f).

(** ** What is sent *)

Definition good_login (s : jsstring) : Prop := s ≠ [] ∧ trim s = s.
Definition normal_ip (v : jsstring) : Prop := ∃ k l n, parseSourceIp v = SOk k v l n.

Definition logins_ok (l : list jsstring) : Prop := NoDup l ∧ Forall good_login l.
Definition ips_ok (l : list jsstring) : Prop := NoDup l ∧ Forall normal_ip l.

Definition policy_wf (p : AccessPolicy) : Prop :=
  logins_ok (ap_logins p) ∧ ips_ok (ap_source_ip p) ∧ NoDup (ap_tags p).

Definition request_ok (r : Request) : Prop :=
  good_login (r_name r) ∧
  match r_subject r with User v => v ≠ [] | _ => True end ∧
  match r_filter r with
  | Hostname h => trim h ≠ []
  | Tags l => NoDup l ∧ (1 <= length l <= 3)%nat
  end ∧
  r_logins r ≠ [] ∧ logins_ok (r_logins r) ∧ ips_ok (r_source_ip r) ∧
  (r_require_reauth r = false → r_reauth_period r = None).

Record form_ok (f : Form) : Prop := {
  k_logins : logins_ok (logins f);
  k_ips : ips_ok (sourceIP f);
  k_tags : NoDup (selectedTags f);
  k_error : sourceIpDraftError f = showDraftError f;
  k_draft : showDraftError f = true → addable (ipDraft f) = None ∧ trim (ipDraft f) ≠ [];
  k_sent : Forall (λ e, request_ok e.2) (sent f);
}.

Lemma truthy_ne s : truthy s = true ↔ s ≠ [].
Proof. by destruct s. Qed.

Lemma token_good raw : truthy (trim raw) = true → good_login (trim raw).
Proof. intros H%truthy_ne. split; [done|]. apply trim_idemp. Qed.

Lemma addable_normal raw v : addable raw = Some v → normal_ip v.
Proof.
  unfold addable. destruct (parseSourceIp raw) as [|k v' l n| |] eqn:E; try done. intros [= <-].
  destruct (parse_normal _ _ _ _ _ E) as (k' & l' & n' & ? & _). by exists k', l', n'.
Qed.

(** Lists edited by adding a new element, removing one, or dropping the last. *)
Lemma list_add {A} (P : A → Prop) l x : x ∉ l → P x → NoDup l ∧ Forall P l → NoDup (l ++ [x]) ∧ Forall P (l ++ [x]).
Proof.
  intros Hx Px [Hd Hf]. split; [|by apply Forall_app; split; [|apply Forall_singleton]].
  apply NoDup_app. split; [done|]. split; [|apply NoDup_singleton]. intros y Hy ->%list_elem_of_singleton. done.
Qed.
Lemma list_keep {A} (P : A → Prop) l k : k `sublist_of` l → NoDup l ∧ Forall P l → NoDup k ∧ Forall P k.
Proof.
  intros Hs [Hd Hf]. split; [by eapply sublist_NoDup|]. rewrite Forall_forall in *. intros x Hx. by eapply Hf, elem_of_sublist.
Qed.
Lemma bool_filter_sublist {A} (p : A → bool) l : List.filter p l `sublist_of` l.
Proof. induction l as [|x l IH]; cbn; [done|]. destruct (p x); [by apply sublist_skip|by apply sublist_cons]. Qed.

Lemma any_login_ok : logins_ok ANY_LOGIN.
Proof. split; [apply NoDup_singleton|]. apply Forall_singleton. split; [done|reflexivity]. Qed.

Lemma suggestions_normal : Forall normal_ip SUGGESTIONS.
Proof. repeat constructor; eexists _, _, _; vm_compute; reflexivity. Qed.

Lemma toggle_tag_ok t l : NoDup l → NoDup (toggle_tag t l).
Proof.
  intros Hl. unfold toggle_tag. case_bool_decide as E.
  - by eapply sublist_NoDup; [|apply bool_filter_sublist].
  - destruct (_ <? _)%nat; [|done]. apply (list_add (λ _, True)); [done|done|]. split; [done|]. by apply Forall_true.
Qed.

Lemma ok_logins v d f : logins_ok v → form_ok f → form_ok (set_logins v d f).
Proof. intros Hv [A B C D E F]. by split. Qed.

Lemma ok_ips v d b f : ips_ok v → (b = true → addable d = None ∧ trim d ≠ []) → form_ok f → form_ok (set_ips v b d b f).
Proof. intros Hv Hd [A B C D E F]. by split. Qed.

Lemma ok_filter o h t f : NoDup t → form_ok f → form_ok (set_filter o h t f).
Proof. intros Ht [A B C D E F]. by split. Qed.

(** The source field and the form agree on whether there is a rejected draft. *)
Lemma ips_eta f v d : form_ok f →
  set_ips v (sourceIpDraftError f) d (showDraftError f) f = set_ips v (showDraftError f) d (showDraftError f) f.
Proof. intros Hf. by rewrite (k_error _ Hf). Qed.

Lemma commit_ok raw f : form_ok f → form_ok (commit raw f).1.
Proof.
  intros Hf. unfold commit. cbn [fst]. apply ok_logins; [|done]. destruct (_ && _) eqn:E; [|apply Hf].
  apply andb_true_iff in E as [Hn%negb_true_iff%bool_decide_eq_false Ht]. apply list_add; [done|by apply token_good|apply Hf].
Qed.

Lemma login_ok f : form_ok f →
  (∀ k, form_ok (login_key k f)) ∧ form_ok (login_blur f) ∧ (∀ v, form_ok (login_remove v f)).
Proof.
  intros Hf. split; [|split].
  - intros k. unfold login_key. destruct (_ || _); [by apply commit_ok|]. destruct (_ && _); [|done].
    apply ok_logins; [|done]. eapply list_keep; [apply sublist_take|apply Hf].
  - unfold login_blur. pose proof (commit_ok (loginDraft f) f Hf) as Hc. destruct (commit _ f) as [f' b]. cbn in Hc.
    destruct (_ && _); [|done]. by apply ok_logins; [apply any_login_ok|].
  - intros v. unfold login_remove. apply ok_logins; [|done]. case_bool_decide; [apply any_login_ok|].
    eapply list_keep; [apply bool_filter_sublist|apply Hf].
Qed.

Lemma ip_added v f : normal_ip v → form_ok f → ips_ok (if bool_decide (v ∈ sourceIP f) then sourceIP f else sourceIP f ++ [v]).
Proof. intros Hv Hf. case_bool_decide; [apply Hf|]. by apply list_add; [| |apply Hf]. Qed.

Lemma commitDraft_ok f : form_ok f → form_ok (commitDraft f).
Proof.
  intros Hf. unfold commitDraft. destruct (addable (ipDraft f)) as [v|] eqn:E; [|done].
  pose proof (ip_added v f (addable_normal _ _ E) Hf) as Hi. destruct Hf as [A B C D E' F]. by split.
Qed.

Lemma ip_ok f : form_ok f →
  (∀ s, form_ok (ip_change s f)) ∧ (∀ k, form_ok (ip_key k f)) ∧ form_ok (ip_blur f) ∧ (∀ v, form_ok (ip_remove v f)).
Proof.
  intros Hf. split_and!.
  - intros s. unfold ip_change. destruct (showDraftError f) eqn:E; [by apply ok_ips; [apply Hf| |]|].
    rewrite (k_error _ Hf), E. by apply ok_ips; [apply Hf| |].
  - intros k. unfold ip_key. destruct (_ || _); [by apply commitDraft_ok|]. destruct (_ && _); [|done].
    rewrite ips_eta by done. apply ok_ips; [|apply Hf|done]. eapply list_keep; [apply sublist_take|apply Hf].
  - unfold ip_blur. destruct (addable (ipDraft f)) eqn:E; [by apply commitDraft_ok|].
    destruct (truthy (trim (ipDraft f))) eqn:Et; [|done]. apply ok_ips; [apply Hf| |done]. intros _. by rewrite <-truthy_ne.
  - intros v. unfold ip_remove. rewrite ips_eta by done. apply ok_ips; [|apply Hf|done].
    eapply list_keep; [apply bool_filter_sublist|apply Hf].
Qed.

(** A suggestion is offered while the draft is empty. *)
Lemma suggest_ok v f : normal_ip v → ipDraft f = [] → form_ok f → form_ok (ip_add v f).
Proof.
  intros Hv Hd Hf. unfold ip_add. rewrite ips_eta by done. apply ok_ips; [by apply ip_added| |done].
  intros Hs. destruct (k_draft _ Hf Hs) as [_ Ht]. by rewrite Hd in Ht.
Qed.

(** The request of a form is well formed, and says what the form shows. *)
Lemma request_sound f r : form_ok f → request f = Some r →
  request_ok r ∧ r = body f ∧
  match filterOption f with
  | f_all => r_filter r = Hostname (js ".*")
  | f_hostname => r_filter r = Hostname (hostname f)
  | f_tags => r_filter r = Tags (selectedTags f)
  end ∧ sourceIpDraftError f = false.
Proof.
  intros [A B C D E F]. unfold request. destruct (confirmDisabled f) eqn:Ed; [done|]. intros [= <-].
  unfold confirmDisabled in Ed. rewrite !orb_false_iff, !andb_false_iff, !negb_false_iff, !bool_decide_eq_false in Ed.
  destruct Ed as [[[[[[En Eu] Es] Eh] Et] El] Ei]. split_and!; try done.
  - split; [by apply token_good|]. split_and!; try done.
    + cbn. unfold buildSubject. destruct (subjectType f); try done; apply truthy_ne; naive_solver.
    + cbn. unfold buildFilter. destruct (filterOption f); cbn; [done| |].
      * destruct Eh as [Eh|Eh]; [done|]. apply truthy_ne in Eh. destruct (hostname f); done.
      * destruct Et as [Et|Et]; [done|]. apply orb_false_iff in Et as [Et1%bool_decide_eq_false Et2%Nat.ltb_ge].
        rewrite (bool_decide_false (selectedTags f = [])) by done. cbn. split; [done|]. destruct (selectedTags f); [done|cbn in *; lia].
    + cbn. by intros ->.
  - cbn. unfold buildFilter. destruct (filterOption f); cbn; [done| |].
    + destruct Eh as [Eh|Eh]; [done|]. destruct (hostname f); done.
    + destruct Et as [Et|Et]; [done|]. apply orb_false_iff in Et as [Et1%bool_decide_eq_false _].
      by rewrite (bool_decide_false (selectedTags f = [])).
Qed.

(** Policies the drawer is opened on are well formed. *)
Definition opens_ok (e : event) : Prop := match e with FOpen (Some p) => policy_wf p | _ => True end.

Lemma reset_ok p f : (∀ q, p = Some q → policy_wf q) → form_ok f → form_ok (reset_form p f).
Proof.
  intros Hp [A B C D E F]. destruct p as [q|]; [destruct (Hp q eq_refl) as (Hl & Hi & Ht)|]; split; cbn; try done.
  - case_bool_decide; [done|apply NoDup_nil_2].
  - apply any_login_ok.
  - split; [apply NoDup_nil_2|done].
  - apply NoDup_nil_2.
Qed.

Lemma fstep_ok f e : opens_ok e → form_ok f → form_ok (fstep f e).
Proof.
  intros He Hf. pose proof Hf as [A B C D E F]. destruct (login_ok f Hf) as (Lk & Lb & Lr). destruct (ip_ok f Hf) as (Ic & Ik & Ib & Ir).
  destruct e as [e|p| |s|a| |i|i|i| |i|s|s|k| |v| |s|k| |v| |i| |p| |i a]; cbn [fstep]; try (by split); try done.
  - destruct (open f); [done|]. apply reset_ok; [|by split]. by intros q ->.
  - by destruct (open f); [split|].
  - by destruct (ROLES !! i); [split|].
  - by destruct (members _ !! i); [split|].
  - by destruct (serviceAccounts _ !! i); [split|].
  - destruct (allTags _ !! i); [|done]. apply ok_filter; [by apply toggle_tag_ok|done].
  - by destruct (any_shown f); [|apply ok_logins].
  - by destruct (any_shown f).
  - by destruct (any_shown f).
  - by destruct (any_shown f).
  - destruct (any_shown f); [|done]. apply ok_logins; [|done]. split; [apply NoDup_nil_2|done].
  - by apply commitDraft_ok.
  - destruct (_ !! i) as [s|] eqn:Es; [|done]. destruct (ipDraft f) eqn:Ed; [|done]. cbn. apply suggest_ok; [|done..].
    apply list_elem_of_lookup_2 in Es. eapply elem_of_sublist in Es; [|apply bool_filter_sublist].
    by apply (proj1 (Forall_forall _ _) suggestions_normal).
  - by destruct (reauthApplies f); [split|].
  - by destruct (_ && _); [split|].
  - destruct (_ || _); [done|]. unfold handleSubmit. destruct (request f) as [r|] eqn:Er; [|done].
    split; try done. cbn. apply Forall_app. split; [done|]. apply Forall_singleton. by destruct (request_sound _ _ Hf Er).
  - unfold on_answer. destruct (pending f !! i) as [[t r]|]; [|done]. by destruct a; split.
Qed.

Lemma initial_form_ok e : form_ok (initial_form e).
Proof.
  split; cbn; try done; [apply any_login_ok|split; [apply NoDup_nil_2|done]|apply NoDup_nil_2].
Qed.

Lemma frun_ok l f : Forall opens_ok l → form_ok f → form_ok (frun f l).
Proof.
  revert f. induction l as [|e l IH]; intros f Hl Hf; [done|]. apply Forall_cons in Hl as [He Hl].
  by apply IH, fstep_ok.
Qed.

(** An entry of the source field: an IPv4 network in decimal notation, or what the
    field takes for an IPv6 network, whose address is checked for its characters
    and the number of its parts only. *)
Definition source_entry (v : jsstring) : Prop := ipv4_network v ∨ ipv6_shaped v.

Lemma normal_entry v : normal_ip v → source_entry v.
Proof.
  intros (k & l & n & H). destruct (parse_normal _ _ _ _ _ H) as (k' & l' & n' & H' & Hk).
  by eapply parse_ok_shape.
Qed.

Lemma request_entries r : request_ok r → Forall source_entry (r_source_ip r).
Proof. intros (_ & _ & _ & _ & _ & [_ H] & _). eapply Forall_impl; [exact H|]. apply normal_entry. Qed.

(** When the source field has lost focus, what was typed in it is an entry or
    keeps the form from being sent. *)
Lemma blur_leaves_nothing f r : request (ip_blur f) = Some r → trim (ipDraft (ip_blur f)) = [].
Proof.
  unfold ip_blur, commitDraft. destruct (addable (ipDraft f)) eqn:E; [done|].
  destruct (truthy (trim (ipDraft f))) eqn:Et; [|intros _; by destruct (trim (ipDraft f))].
  unfold request, confirmDisabled. cbn. by rewrite orb_true_r.
Qed.

(** C7: Whatever is typed, picked, removed and answered in the policy form, opened
    on policies whose lists have no repeated or blank entries and whose source
    entries are as the field stores them: every request sent
    has a name, a subject, a device filter that is not blank, one to three tags
    where it filters by tags, at least one login, no repeated or blank entries, and
    source entries that are IPv4 networks (numbers up to 255, prefix up to 32) or
    IPv6-shaped ones (hexadecimal digits and colons, prefix up to 128; the field
    checks no more of them).  The request a form would send has the subject and the
    filter selected, never the wider one of all devices in its place, and asks no
    service account to re-authenticate.  Once the source field has lost focus, no
    request is possible while a text is left in it. *)
Theorem policy_request_sound (e : Env) (l : list event) (Hl : Forall opens_ok l) :
  let f := frun (initial_form e) l in
  Forall (λ s, request_ok s.2 ∧ Forall source_entry (r_source_ip s.2)) (sent f) ∧
  (∀ r, request f = Some r →
    request_ok r ∧ Forall source_entry (r_source_ip r) ∧
    r_subject r = match subjectType f with
      | role => Role (roleValue f) | user => User (userValue f)
      | service_account => User (saValue f) | all_members => AllMembers end ∧
    match filterOption f with
    | f_all => r_filter r = Hostname (js ".*")
    | f_hostname => r_filter r = Hostname (hostname f)
    | f_tags => r_filter r = Tags (selectedTags f)
    end ∧
    (r_require_reauth r = true → subjectType f ≠ service_account)) ∧
  (∀ r, request (ip_blur f) = Some r → trim (ipDraft (ip_blur f)) = []).
Proof.
  intros f. assert (form_ok f) as Hf by (apply frun_ok; [done|apply initial_form_ok]). split; [|split].
  - eapply Forall_impl; [apply Hf|]. intros s Hs. split; [done|by apply request_entries].
  - intros r Hr. destruct (request_sound f r Hf Hr) as (H1 & -> & H2 & H3). split_and!; try done; [by apply request_entries|].
    cbn. unfold reauthApplies. by intros [Ha%negb_true_iff%bool_decide_eq_false _]%andb_true_iff.
  - apply blur_leaves_nothing.
Qed.

(** ** Editing a policy *)

(** The policy as a request. *)
Definition policy_request (p : AccessPolicy) : Request :=
  mkRequest (ap_name p) (ap_action p) (ap_subject p)
    (match ap_tags p with
     | [] => Hostname (or_else (ap_hostname p) (js ".*"))
     | l => Tags l
     end) (ap_logins p) (ap_source_ip p) (ap_require_reauth p) (ap_reauth_period p).

(** When the button is enabled. *)
Lemma request_enabled f : trim (name f) ≠ [] → logins f ≠ [] → sourceIpDraftError f = false →
  (subjectType f = user → userValue f ≠ []) → (subjectType f = service_account → saValue f ≠ []) →
  (filterOption f = f_hostname → trim (hostname f) ≠ []) →
  (filterOption f = f_tags → (1 <= length (selectedTags f) <= 3)%nat) → request f = Some (body f).
Proof.
  intros Hn Hl Hi Hu Hs Hh Ht. unfold request. replace (confirmDisabled f) with false; [done|]. symmetry.
  unfold confirmDisabled. rewrite !orb_false_iff, !andb_false_iff, !negb_false_iff, !bool_decide_eq_false, !truthy_ne.
  split_and!; try done; [destruct (decide (subjectType f = user))|destruct (decide (subjectType f = service_account))
                        |destruct (decide (filterOption f = f_hostname))|destruct (decide (filterOption f = f_tags)) as [E|]]; auto.
  right. apply Ht in E. rewrite bool_decide_false by (intros Ee; rewrite Ee in E; cbn in E; lia). apply Nat.ltb_ge. lia.
Qed.

(** The subject and the filter of a drawer opened on a policy. *)
Lemma reset_subject p f : match ap_subject p with User v => v ≠ [] | _ => True end →
  (ap_require_reauth p = true → match ap_subject p with User v => is_service_account (env f) v = false | _ => True end) →
  let g := reset_form (Some p) f in
  buildSubject g = ap_subject p ∧ (subjectType g = user → userValue g ≠ []) ∧
  (subjectType g = service_account → saValue g ≠ []) ∧ reauthApplies g && ap_require_reauth p = ap_require_reauth p.
Proof.
  intros Hs Hsa. unfold buildSubject, reauthApplies, subject_init. cbn. destruct (ap_subject p) as [|v|v]; cbn; [done|done|].
  destruct (is_service_account (env f) v) eqn:Ev; cbn; split_and!; try done.
  destruct (ap_require_reauth p); [|done]. by specialize (Hsa eq_refl).
Qed.

Lemma reset_filter p f : request_ok (policy_request p) →
  let g := reset_form (Some p) f in
  buildFilter g = r_filter (policy_request p) ∧ (filterOption g = f_hostname → trim (hostname g) ≠ []) ∧
  (filterOption g = f_tags → (1 <= length (selectedTags g) <= 3)%nat).
Proof.
  intros (_ & _ & Hf & _) g. unfold policy_request in *. cbn [r_filter] in *. unfold buildFilter.
  change (filterOption g) with (filter_init p).
  change (hostname g) with (if bool_decide (filter_init p = f_hostname) then default [] (ap_hostname p) else []).
  change (selectedTags g) with (if bool_decide (filter_init p = f_tags) then ap_tags p else []).
  unfold filter_init. destruct (ap_tags p) as [|t ts] eqn:Et; [|by destruct Hf as [_ Hf]].
  rewrite (bool_decide_true ([] = [])) by done. cbn [negb].
  destruct (ap_hostname p) as [[|c h]|] eqn:Eh; try done. cbn [is_truthy truthy andb].
  destruct (bool_decide_reflect (Some (c :: h) = Some (js ".*"))) as [E|_]; [|done]. by injection E as -> ->.
Qed.

(** C24: A policy opened in the form and saved as it is is sent back unchanged: name,
    action, subject (a member or a service account alike), device filter, logins,
    source addresses and re-authentication.  (A re-authentication set on a service
    account is the one thing the form drops.) *)
Theorem policy_edit_roundtrip (f : Form) (p : AccessPolicy)
    (Hopen : open f = false) (Hreq : request_ok (policy_request p))
    (Hsa : ap_require_reauth p = true → match ap_subject p with User v => is_service_account (env f) v = false | _ => True end) :
  let f' := frun f [FOpen (Some p); FSubmit] in
  sent f' = sent f ++ [(Some (ap_id p), policy_request p)] ∧ submitting f' = true.
Proof.
  cbn [frun fold_left fstep]. rewrite Hopen. set (g := reset_form _ _).
  pose proof Hreq as ([Hn Ht] & Hs & _ & Hl & _ & _ & Hr). cbn [policy_request r_name r_subject r_logins r_require_reauth r_reauth_period] in Hn, Ht, Hs, Hl, Hr.
  destruct (reset_subject p (set_page (env f) true (Some p) (closed f) f) Hs Hsa) as (S1 & S2 & S3 & S4).
  destruct (reset_filter p (set_page (env f) true (Some p) (closed f) f) Hreq) as (F1 & F2 & F3). fold g in S1, S2, S3, S4, F1, F2, F3.
  assert (body g = policy_request p) as Hb.
  { unfold body. rewrite S1, F1. change (requireReauth g) with (ap_require_reauth p). rewrite S4.
    change (name g) with (ap_name p). rewrite Ht. unfold policy_request. f_equal.
    change (reauthPeriod g) with (ap_reauth_period p). destruct (ap_require_reauth p); [done|]. by rewrite Hr. }
  assert (request g = Some (policy_request p)) as Hg.
  { rewrite <-Hb. apply request_enabled; try done. change (name g) with (ap_name p). by rewrite Ht. }
  assert (confirmDisabled g = false) as Hd by (unfold request in Hg; by destruct (confirmDisabled g)).
  change (submitting g) with false. cbn [orb]. rewrite Hd. unfold handleSubmit. rewrite Hg. done.
Qed.

(** ** Concrete forms *)

Module Cases.
Definition here : Env := mkEnv [(Some (js "m1"), Some (js "operator"), Some (js "a@b.c"))] [(js "sa1", js "ci")] [js "prod"].

Definition typed : list event :=
  [FOpen None; FName (js " ops "); FUser 0; FTag 0; FLoginRestrict; FLoginDraft (js "root "); FLoginBlur;
   FIpDraft (js "10.0.0.5"); FIpBlur; FReauth].

Lemma typed_opens : Forall opens_ok typed.
Proof. repeat constructor. Qed.

Lemma policy_request_sound_witness :
  let r := mkRequest (js "ops") allow (User (js "m1")) (Tags [js "prod"]) [js "root"] [js "10.0.0.5/32"] true None in
  request (frun (initial_form here) typed) = Some r ∧ request_ok r ∧ Forall source_entry [js "10.0.0.5/32"].
Proof.
  intros r. assert (request (frun (initial_form here) typed) = Some r) as Hr by (vm_compute; reflexivity).
  destruct (proj1 (proj2 (policy_request_sound here typed typed_opens)) r Hr) as (H1 & H2 & _).
  split; [exact Hr|]. split; [exact H1|exact H2].
Defined.

Definition stored : AccessPolicy :=
  mkPolicy (js "p1") (js "ci") deny (User (js "sa1")) (Some (js "^db")) [] [js "deploy"] [js "10.0.0.0/8"] false None.

Lemma stored_ok : request_ok (policy_request stored).
Proof.
  repeat split; cbn; try done; try apply NoDup_singleton; try apply Forall_singleton.
  - split; [done|reflexivity].
  - eexists _, _, _. vm_compute. reflexivity.
Qed.

Lemma policy_edit_roundtrip_witness :
  sent (frun (initial_form here) [FOpen (Some stored); FSubmit]) = [(Some (js "p1"), policy_request stored)].
Proof.
  refine (proj1 (policy_edit_roundtrip (initial_form here) stored eq_refl stored_ok _)). intros H. discriminate H.
Defined.

(** The callout calls a grant the broadest possible although it is limited to one
    address and asks for a re-authentication. *)
Example broadest_with_limits :
  let f := frun (initial_form here) [FOpen None; FName (js "x"); FIpDraft (js "10.0.0.5"); FIpBlur; FReauth] in
  isBroad f = true ∧ sourceIP f = [js "10.0.0.5/32"] ∧ requireReauth f = true.
Proof. vm_compute. done. Qed.

(** A window of two hours, set through the API, is shown as "Every session". *)
Example period_shown_as_every_session : reauthPeriodLabel (Some 7200) = js "Every session".
Proof. reflexivity. Qed.

(** Removing the only login of a policy does not leave it without logins: it
    allows any. *)
Example last_login_removed_allows_any :
  let f := frun (initial_form here) [FOpen (Some stored); FLoginRemove (js "deploy")] in logins f = ANY_LOGIN.
Proof. vm_compute. done. Qed.

(** An answer to a save that was abandoned closes the drawer opened since. *)
Example late_answer_closes_next :
  let f := frun (initial_form here) [FOpen (Some stored); FSubmit; FClose; FOpen None; FName (js "next"); FAnswer 0 (inl tt)] in
  open f = false ∧ name f = js "next" ∧ sent f = [(Some (js "p1"), policy_request stored)].
Proof. vm_compute. done. Qed.
End Cases.
