(* ===== verification/BrowserKey.v ===== *)
(** * The browser's own SSH key (utils/browserKey.ts)

    One Ed25519 key per account and tenant, kept in IndexedDB under its scope.
    The private half is a handle that cannot be exported.  IndexedDB is a record
    of whether the API is there, whether opening and reading succeed, and what is
    stored; the key pair WebCrypto generates is an argument.  [browserLabel] names
    the browser from its client hints or its user agent. *)

From S2P Require Import Prelude JsString JsEncoding JsRegex SshKeys.

Record BrowserKey := mkBrowserKey {
  bk_private : nat;                         (* the CryptoKey *)
  bk_publicKeyLine : jsstring;
  bk_fingerprint : jsstring;
}.

Record Idb := mkIdb {
  available : bool;                         (* typeof indexedDB !== "undefined" *)
  working : bool;                           (* open, read and write succeed *)
  keys : gmap jsstring BrowserKey;          (* the object store, by scope *)
}.

Section Keys.
Variable digest : list N → list N.

Definition key_of_pair (pair : nat * list N) : BrowserKey :=
  mkBrowserKey pair.1 (ed25519PublicKeyLine pair.2) (sha256Fingerprint digest pair.2).

Definition idb_read (scope : jsstring) (db : Idb) : res (option BrowserKey) :=
  if working db then Ok (keys db !! scope) else Throw (Error (js "IndexedDB read failed")).

(** [webcrypto]: [crypto.subtle.generateKey] is a function; [pair]: what it and the
    export of the public half give, if Ed25519 is supported. *)
Definition ensureBrowserKey (webcrypto : bool) (pair : option (nat * list N)) (scope : jsstring) (db : Idb) : option BrowserKey :=
  if negb (available db) || negb webcrypto then None
  else match idb_read scope db with
       | Throw _ => None
       | Ok (Some existing) => Some existing
       | Ok None => key_of_pair <$> pair
       end.

Definition storedBrowserKeyFingerprint (scope : jsstring) (db : Idb) : option jsstring :=
  if negb (available db) then None
  else match idb_read scope db with Ok existing => bk_fingerprint <$> existing | Throw _ => None end.

Definition persistBrowserKey (scope : jsstring) (key : BrowserKey) (db : Idb) : res Idb :=
  if working db then Ok (mkIdb (available db) (working db) (<[scope := key]> (keys db)))
  else Throw (Error (js "IndexedDB open failed")).

(** The scope of an account in a tenant. *)
Definition key_scope (userId tenant : option jsstring) : option jsstring :=
  if is_truthy userId && is_truthy tenant then Some (default [] userId ++ js ":" ++ default [] tenant) else None.

(** A key persisted under a scope is the one found there, and nowhere else. *)
Lemma persist_ensure scope key db db' w pair s : persistBrowserKey scope key db = Ok db' → available db = true → w = true →
  ensureBrowserKey w pair s db' = if decide (s = scope) then Some key else ensureBrowserKey w pair s db.
Proof.
  unfold persistBrowserKey, ensureBrowserKey, idb_read. destruct (working db) eqn:Ew; [|done]. intros [= <-] Ha ->. cbn.
  rewrite Ha. cbn. destruct (decide (s = scope)) as [->|Hne]; [by rewrite lookup_insert_eq|]. by rewrite lookup_insert_ne.
Qed.

(** Scopes of accounts whose ids have no colon are different for different
    accounts and tenants. *)
Lemma key_scope_inj u t u' t' s : key_scope u t = Some s → key_scope u' t' = Some s →
  58%N ∉ default [] u → 58%N ∉ default [] u' → u = u' ∧ t = t'.
Proof.
  unfold key_scope. destruct u as [[|a u]|], t as [[|b t]|]; try done. cbn [is_truthy truthy andb default]. intros <-%(inj Some).
  destruct u' as [[|a' u']|], t' as [[|b' t']|]; try done. cbn [is_truthy truthy andb default id]. intros Hs%(inj Some) Hu Hu'.
  change (a' :: u' ++ 58%N :: b' :: t' = a :: u ++ 58%N :: b :: t) in Hs. rewrite !app_comm_cons in Hs.
  assert (∀ x y p q, 58%N ∉ x → 58%N ∉ y → x ++ 58%N :: p = y ++ 58%N :: q → x = y ∧ p = q) as Hsep.
  { induction x as [|c x IH]; intros [|d y] p q Hx Hy E; cbn in E.
    - by injection E.
    - injection E as <- _. exfalso. apply Hy. left.
    - injection E as -> _. exfalso. apply Hx. left.
    - injection E as -> E. apply not_elem_of_cons in Hx as [_ Hx], Hy as [_ Hy].
      destruct (IH y p q Hx Hy E). by subst. }
  destruct (Hsep _ _ _ _ Hu' Hu Hs) as [E1 E2]. by simplify_eq.
Qed.
End Keys.

(** ** browserLabel *)

Record UAData := mkUA { brands : list (jsstring * jsstring); platform : jsstring }.

Definition ascii_lower (c : N) : N := if is_upper c then (c + 32)%N else c.
Definition any_char : re := RChr (λ c, negb ((c =? 10) || (c =? 13) || (c =? 8232) || (c =? 8233))%N).
Definition all_chars : re := RStar (RChr (λ _, true)).
(** A literal without regard to ASCII case. *)
Definition RWord (w : jsstring) : re := fold_right (λ c r, RSeq (RChr (λ x, (ascii_lower x =? c)%N)) r) REps w.

(** [/Not.?A.?Brand/i.test(brand)] *)
Definition is_not_a_brand (brand : jsstring) : bool :=
  rmatch (RSeq all_chars (RSeq (RWord (js "not")) (RSeq (ROpt any_char) (RSeq (RWord (js "a")) (RSeq (ROpt any_char)
    (RSeq (RWord (js "brand")) all_chars)))))) brand.

(** [s.replace(/^word\s+/, "")] *)
Definition drop_word (word s : jsstring) : jsstring :=
  if startsWith s word then
    match drop (length word) s with
    | c :: r => if is_ws c then trimStart r else s
    | [] => s
    end
  else s.

Fixpoint take_while (p : N → bool) (s : jsstring) : jsstring :=
  match s with c :: r => if p c then c :: take_while p r else [] | [] => [] end.

(** The first match of a literal followed by digits; [tail] constrains what comes
    after them. *)
Fixpoint version_after (lit : jsstring) (tail : jsstring → bool) (ua : jsstring) : option jsstring :=
  let here := if startsWith ua lit then drop (length lit) ua else [] in
  let digits := take_while is_digit here in
  if truthy digits && tail (drop (length digits) here) then Some digits
  else match ua with [] => None | _ :: r => version_after lit tail r end.

Definition safari_tail (s : jsstring) : bool := startsWith (drop_while (λ c, negb (c =? 32)%N) s) (js " Safari").

Definition ua_rules : list (jsstring * (jsstring → bool) * jsstring) :=
  [(js "Edg/", λ _, true, js "Edge"); (js "OPR/", λ _, true, js "Opera"); (js "Firefox/", λ _, true, js "Firefox");
   (js "Chrome/", λ _, true, js "Chrome"); (js "Version/", safari_tail, js "Safari")].

Fixpoint first_rule (rules : list (jsstring * (jsstring → bool) * jsstring)) (ua : jsstring) : jsstring :=
  match rules with
  | [] => js "Browser"
  | (lit, tail, label) :: rules =>
      match version_after lit tail ua with
      | Some v => label ++ js " " ++ v
      | None => first_rule rules ua
      end
  end.

Definition ua_os (ua : jsstring) : jsstring :=
  if includes ua (js "Windows") then js "Windows"
  else if includes ua (js "Mac OS X") || includes ua (js "Macintosh") then js "macOS"
  else if includes ua (js "Android") then js "Android"
  else if includes ua (js "iPhone") || includes ua (js "iPad") || includes ua (js "iPod") then js "iOS"
  else if includes ua (js "Linux") then js "Linux"
  else js "Unknown OS".

Definition browserLabel (uaData : option UAData) (userAgent : jsstring) : jsstring :=
  match uaData with
  | Some d =>
      if negb (bool_decide (brands d = [])) then
        let brand := List.find (λ b, negb (is_not_a_brand b.1) && negb (bool_decide (b.1 = js "Chromium"))) (brands d) in
        let name := drop_word (js "Microsoft") (drop_word (js "Google") (match brand with Some b => b.1 | None => js "Browser" end)) in
        let version := match brand with Some b => if truthy b.2 then js " " ++ b.2 else [] | None => [] end in
        name ++ version ++ js " on " ++ platform d
      else first_rule ua_rules userAgent ++ js " on " ++ ua_os userAgent
  | None => first_rule ua_rules userAgent ++ js " on " ++ ua_os userAgent
  end.

Example chrome_hints :
  browserLabel (Some (mkUA [(js "Not(A:Brand", js "24"); (js "Chromium", js "149"); (js "Google Chrome", js "149")] (js "Linux"))) []
  = js "Chrome 149 on Linux".
Proof. vm_compute. reflexivity. Qed.
Example edge_user_agent :
  browserLabel None (js "Mozilla/5.0 (Windows NT 10.0) AppleWebKit/537.36 Chrome/149.0.0.0 Safari/537.36 Edg/149.0.0.0")
  = js "Edge 149 on Windows".
Proof. vm_compute. reflexivity. Qed.
Example safari_user_agent :
  browserLabel None (js "Mozilla/5.0 (Macintosh; Intel Mac OS X 10_15_7) AppleWebKit/605.1.15 Version/17.4 Safari/605.1.15")
  = js "Safari 17 on macOS".
Proof. vm_compute. reflexivity. Qed.
