(* ===== verification/Connect.v ===== *)
(** * Connecting to a device (components/ConnectDrawer.tsx)

    The drawer that collects credentials and opens a web terminal.  Outside
    identity mode it connects with a password, with a key of the vault or with a
    pasted key; in identity mode with the browser's own key ([BrowserKey]), once
    the server says the key is registered or after the user agreed to register it.

    The awaits of [handleConnect] and of [enrollAndConnect] are the constructors of
    [flight], with what the continuation captured; their answers are events, in
    any order.  The identities come through [queryClient.fetchQuery] with the
    client's default options (api/queryClient.ts): a cached answer younger than
    [staleTime] that was not invalidated is used without a request.

    [opened] lists the sessions handed to the terminal store; [answers] and
    [enrolled] what the server said.  The drawer stays mounted while closed, as on
    the devices pages. *)

From S2P Require Import Prelude JsString JsJson JsEncoding SshKeys BrowserKey.
From S2P Require VaultTypes Terminal SignUp SshIdentity.

#[local] Existing Instance VaultTypes.VaultStatus_eq_dec.

Inductive AuthMethod := by_password | by_key.
#[export] Instance AuthMethod_eq_dec : EqDecision AuthMethod.
Proof. solve_decision. Defined.
Inductive KeySource := from_vault | manual.
#[export] Instance KeySource_eq_dec : EqDecision KeySource.
Proof. solve_decision. Defined.

Record FormState := mkFormState {
  username : jsstring;
  authMethod : AuthMethod;
  password : jsstring;
  keySource : KeySource;
  selectedKeyId : jsstring;
  privateKey : jsstring;
  manualKeyValid : bool;
  manualKeyEncrypted : bool;
  passphrase : jsstring;
  keyError : option jsstring;
  recordSession : bool;
  keyUnavailable : option jsstring;
}.

Inductive FormAction :=
  | reset
  | setUsername (value : jsstring)
  | setAuthMethod (value : AuthMethod)
  | setPassword (value : jsstring)
  | setKeySource (value : KeySource)
  | setSelectedKeyId (value : jsstring)
  | setManualKey (value : jsstring) (valid encrypted : bool)
  | setPassphrase (value : jsstring)
  | setKeyError (value : option jsstring)
  | setKeyUnavailable (value : option jsstring)
  | setRecordSession (value : bool).

Definition initialState : FormState :=
  mkFormState [] by_password [] from_vault [] [] false false [] None true None.

Definition formReducer (s : FormState) (a : FormAction) : FormState :=
  let '(mkFormState u m pw ks id pk mv me ph ke rs ku) := s in
  match a with
  | reset => initialState
  | setUsername v => mkFormState v m pw ks id pk mv me ph ke rs ku
  | setAuthMethod v => mkFormState u v pw ks id pk mv me ph ke rs ku
  | setPassword v => mkFormState u m v ks id pk mv me ph ke rs ku
  | setKeySource v => mkFormState u m pw v id pk mv me ph ke rs ku
  | setSelectedKeyId v => mkFormState u m pw ks v pk mv me [] ke rs ku
  | setManualKey v valid encrypted => mkFormState u m pw ks id v valid encrypted [] ke rs ku
  | setPassphrase v => mkFormState u m pw ks id pk mv me v ke rs ku
  | setKeyError v => mkFormState u m pw ks id pk mv me ph v rs ku
  | setKeyUnavailable v => mkFormState u m pw ks id pk mv me ph ke rs v
  | setRecordSession v => mkFormState u m pw ks id pk mv me ph ke v ku
  end.

(** What the drawer reads of the stores, the namespace and the browser. *)
Record Env := mkEnv {
  vaultStatus : VaultTypes.VaultStatus;
  vaultKeys : list VaultTypes.VaultKeyEntry;
  tenant : option jsstring;
  userId : option jsstring;
  identityMode : bool;
  namespaceRecords : bool;
  recordingSupported : bool;
  webcrypto : bool;
}.

Record Enroll := mkEnroll { e_key : BrowserKey; e_scope : jsstring; e_params : Terminal.TerminalParams }.

(** Continuations; [rec] is [!namespaceRecords && state.recordSession] as captured. *)
Inductive flight :=
  | AwaitKey (scope : jsstring) (params : Terminal.TerminalParams) (rec : bool)
  | AwaitIdentities (e : Enroll) (rec : bool)
  | AwaitCreate (e : Enroll) (rec : bool)
  | AwaitPersist (e : Enroll) (rec : bool).

(** The cached query: fingerprints, when they were fetched, whether invalidated. *)
Record Cache := mkCache { c_fingerprints : list jsstring; c_at : Z; c_invalidated : bool }.

Definition staleTime : Z := 30000.

Record Drawer := mkDrawer {
  open : bool;
  device : jsstring * jsstring;
  state : FormState;
  env : Env;
  pendingEnroll : option Enroll;
  enrolling : bool;                         (* the consent dialog's [submitting] *)
  enrollError : bool;
  idb : Idb;
  cache : option Cache;
  clock : Z;
  flights : list flight;
  opened : list Terminal.TerminalParams;
  answers : list (list jsstring);
  enrolled : list jsstring;
}.

Definition set_ui (o : bool) (d : jsstring * jsstring) (s : FormState) (p : option Enroll) (b er : bool) (x : Drawer) : Drawer :=
  mkDrawer o d s (env x) p b er (idb x) (cache x) (clock x) (flights x) (opened x) (answers x) (enrolled x).
Definition set_flights (l : list flight) (x : Drawer) : Drawer :=
  mkDrawer (open x) (device x) (state x) (env x) (pendingEnroll x) (enrolling x) (enrollError x) (idb x) (cache x) (clock x) l
    (opened x) (answers x) (enrolled x).
Definition set_world (e : Env) (i : Idb) (c : option Cache) (t : Z) (x : Drawer) : Drawer :=
  mkDrawer (open x) (device x) (state x) e (pendingEnroll x) (enrolling x) (enrollError x) i c t (flights x)
    (opened x) (answers x) (enrolled x).
Definition set_logs (o : list Terminal.TerminalParams) (a : list (list jsstring)) (en : list jsstring) (x : Drawer) : Drawer :=
  mkDrawer (open x) (device x) (state x) (env x) (pendingEnroll x) (enrolling x) (enrollError x) (idb x) (cache x) (clock x)
    (flights x) o a en.

Definition dispatch (a : FormAction) (x : Drawer) : Drawer :=
  set_ui (open x) (device x) (formReducer (state x) a) (pendingEnroll x) (enrolling x) (enrollError x) x.
Definition setPendingEnroll (p : option Enroll) (x : Drawer) : Drawer :=
  set_ui (open x) (device x) (state x) p
    (match p with Some _ => false | None => enrolling x end) (match p with Some _ => false | None => enrollError x end) x.
Definition onClose (x : Drawer) : Drawer :=
  set_ui false (device x) (state x) (pendingEnroll x) (enrolling x) (enrollError x) x.

Section Connect_.
Context `{Sshpk}.
Variable digest : list N → list N.

(** ** Derived values *)

Definition hasVaultKeys (e : Env) : bool :=
  bool_decide (vaultStatus e = VaultTypes.unlocked) && negb (bool_decide (length (vaultKeys e) = 0%nat)).
Definition effectiveKeySource (x : Drawer) : KeySource := if hasVaultKeys (env x) then keySource (state x) else manual.
Definition selectedVaultKey (x : Drawer) : option VaultTypes.VaultKeyEntry :=
  if hasVaultKeys (env x)
  then List.find (λ k, bool_decide (VaultTypes.id k = selectedKeyId (state x))) (vaultKeys (env x)) else None.

Definition canConnect (x : Drawer) : bool :=
  let s := state x in
  truthy (trim (username s)) &&
  (identityMode (env x) ||
   match authMethod s with
   | by_password => truthy (trim (password s))
   | by_key =>
       match effectiveKeySource x with
       | from_vault => match selectedVaultKey x with
                       | Some k => negb (VaultTypes.hasPassphrase k) || truthy (trim (passphrase s))
                       | None => false
                       end
       | manual => manualKeyValid s && (negb (manualKeyEncrypted s) || truthy (trim (passphrase s)))
       end
   end).

Definition handleManualKeyChange (pem : jsstring) (x : Drawer) : Drawer :=
  if negb (truthy (trim pem)) then dispatch (setManualKey pem false false) x
  else match validatePrivateKey (trim pem) with
       | ValidKey encrypted => dispatch (setManualKey pem true encrypted) x
       | InvalidKey _ => dispatch (setManualKey pem false false) x
       end.

(** ** Opening the terminal *)

Definition base_params (x : Drawer) (pw : jsstring) : Terminal.TerminalParams :=
  Terminal.mkParams (device x).1 (device x).2 (trim (username (state x))) pw None None None None None None.

Definition with_record (p : Terminal.TerminalParams) : Terminal.TerminalParams :=
  Terminal.mkParams (Terminal.deviceUid p) (Terminal.deviceName p) (Terminal.username p) (Terminal.password p)
    (Terminal.fingerprint p) (Terminal.privateKey p) (Terminal.passphrase p) (Terminal.browserKey p) (Terminal.publicKeyLine p)
    (Some true).

Definition wants_record (x : Drawer) : bool := negb (namespaceRecords (env x)) && recordSession (state x).

Definition finalizeConnect (rec : bool) (p : Terminal.TerminalParams) (x : Drawer) : Drawer :=
  let p := if rec && recordingSupported (env x) then with_record p else p in
  onClose (set_logs (opened x ++ [p]) (answers x) (enrolled x) x).

Definition attachKey (p : Terminal.TerminalParams) (k : BrowserKey) : Terminal.TerminalParams :=
  Terminal.mkParams (Terminal.deviceUid p) (Terminal.deviceName p) (Terminal.username p) (Terminal.password p)
    (Some (bk_fingerprint k)) (Terminal.privateKey p) (Terminal.passphrase p) (Some (bk_private k)) (Some (bk_publicKeyLine k))
    (Terminal.record p).

(** ** handleConnect *)

Definition KEY_UNAVAILABLE : jsstring :=
  js "This browser can't hold an SSH key, so it can't open the web terminal. It needs Ed25519 in WebCrypto and IndexedDB, which private windows and older browsers often block. Connecting over SSH from your terminal still works.".
Definition IDENTITIES_UNKNOWN : jsstring :=
  js "Couldn't check your SSH identities, so we can't tell whether this browser's key is still valid. Try again in a moment.".

(** The key and the passphrase a key login uses. *)
Definition key_choice (x : Drawer) : jsstring * option jsstring :=
  match effectiveKeySource x, selectedVaultKey x with
  | from_vault, Some k =>
      (VaultTypes.data k, if VaultTypes.hasPassphrase k then Some (passphrase (state x)) else None)
  | _, _ => (trim (privateKey (state x)), if manualKeyEncrypted (state x) then Some (passphrase (state x)) else None)
  end.

(** The fingerprint the chosen vault key should have. *)
Definition expected_fingerprint (x : Drawer) : option jsstring :=
  match effectiveKeySource x, selectedVaultKey x with
  | from_vault, Some k => Some (VaultTypes.fingerprint k)
  | _, _ => None
  end.

Definition connect_key (x : Drawer) : Drawer :=
  let '(key, phrase) := key_choice x in
  match getFingerprint key phrase with
  | Throw _ => dispatch (setKeyError (Some (js "Failed to read private key. Check the key or passphrase."))) x
  | Ok fp =>
      if match expected_fingerprint x with Some f => negb (bool_decide (fp = f)) | None => false end
      then dispatch (setKeyError (Some (js "Key data appears corrupted. Try re-importing the key into the vault."))) x
      else
        let x := dispatch (setKeyError None) x in
        let b := base_params x [] in
        finalizeConnect (wants_record x)
          (Terminal.mkParams (Terminal.deviceUid b) (Terminal.deviceName b) (Terminal.username b) [] (Some fp) (Some key) phrase
             None None None) x
  end.

Definition handleConnect (x : Drawer) : Drawer :=
  if negb (canConnect x) then x
  else if identityMode (env x) then
    match key_scope (userId (env x)) (tenant (env x)) with
    | Some scope => set_flights (flights x ++ [AwaitKey scope (base_params x []) (wants_record x)]) x
    | None => dispatch (setKeyUnavailable (Some KEY_UNAVAILABLE)) x
    end
  else match authMethod (state x) with
       | by_password => finalizeConnect (wants_record x) (base_params x (password (state x))) x
       | by_key => connect_key x
       end.

(** Whether [fetchQuery] answers from the cache, and with what. *)
Definition cached (x : Drawer) : option (list jsstring) :=
  match cache x with
  | Some c => if negb (c_invalidated c) && (clock x <? c_at c + staleTime) then Some (c_fingerprints c) else None
  | None => None
  end.

(** Once the identities are known. *)
Definition on_registered (e : Enroll) (rec : bool) (fps : list jsstring) (x : Drawer) : Drawer :=
  if bool_decide (bk_fingerprint (e_key e) ∈ fps) then finalizeConnect rec (attachKey (e_params e) (e_key e)) x
  else setPendingEnroll (Some e) x.

(** [ensureBrowserKey] answered. *)
Definition on_key (scope : jsstring) (p : Terminal.TerminalParams) (rec : bool) (pair : option (nat * list N)) (x : Drawer) : Drawer :=
  match ensureBrowserKey digest (webcrypto (env x)) pair scope (idb x) with
  | None => dispatch (setKeyUnavailable (Some KEY_UNAVAILABLE)) x
  | Some key =>
      let e := mkEnroll key scope p in
      match cached x with
      | Some fps => on_registered e rec fps x
      | None => set_flights (flights x ++ [AwaitIdentities e rec]) x
      end
  end.

(** The server listed the identities, or the request failed. *)
Definition on_identities (e : Enroll) (rec : bool) (a : option (list jsstring)) (x : Drawer) : Drawer :=
  match a with
  | None => dispatch (setKeyUnavailable (Some IDENTITIES_UNKNOWN)) x
  | Some fps =>
      let x := set_world (env x) (idb x) (Some (mkCache fps (clock x) false)) (clock x) x in
      on_registered e rec fps (set_logs (opened x) (answers x ++ [fps]) (enrolled x) x)
  end.

(** *** enrollAndConnect *)

Definition enroll_failed (x : Drawer) : Drawer :=
  set_ui (open x) (device x) (state x) (pendingEnroll x) false true x.

(** [onConfirm] of the consent dialog, which ignores clicks while it submits. *)
Definition on_confirm (x : Drawer) : Drawer :=
  match pendingEnroll x with
  | None => x
  | Some e =>
      if enrolling x then x
      else set_flights (flights x ++ [AwaitCreate e (wants_record x)])
             (set_ui (open x) (device x) (state x) (pendingEnroll x) true false x)
  end.

(** The server's answer to the registration: accepted, or the value thrown. *)
Definition on_create (e : Enroll) (rec : bool) (a : option SignUp.caught) (x : Drawer) : Drawer :=
  let accepted := match a with None => true | Some err => SshIdentity.isAlreadyEnrolled err end in
  if accepted
  then set_flights (flights x ++ [AwaitPersist e rec])
         (set_logs (opened x) (answers x) (enrolled x ++ [bk_publicKeyLine (e_key e)])
            (set_world (env x) (idb x) (match a with
                                        | None => (λ c, mkCache (c_fingerprints c) (c_at c) true) <$> cache x
                                        | Some _ => cache x
                                        end) (clock x) x))
  else enroll_failed x.

(** IndexedDB answered; [invalidateQueries] and the rest follow. *)
Definition on_persist (e : Enroll) (rec : bool) (x : Drawer) : Drawer :=
  match persistBrowserKey (e_scope e) (e_key e) (idb x) with
  | Throw _ => enroll_failed x
  | Ok db =>
      let x := set_world (env x) db (cache x) (clock x) x in
      setPendingEnroll None (finalizeConnect rec (attachKey (e_params e) (e_key e)) x)
  end.

(** ** Events *)

Inductive event :=
  | DOpen (d : jsstring * jsstring)
  | DClose
  | DAction (a : FormAction)
  | DManualKey (pem : jsstring)
  | DSubmit
  | DKey (i : nat) (generated : option (nat * list N))
  | DIdentities (i : nat) (a : option (list jsstring))
  | DConfirm
  | DDecline
  | DCreate (i : nat) (a : option SignUp.caught)
  | DPersist (i : nat)
  | DEnv (e : Env)
  | DIdb (working : bool)
  | DRefetched (fps : list jsstring)            (* another reader of the query *)
  | DInvalidate
  | DWait (ms : nat).

Definition landed (i : nat) (x : Drawer) : Drawer := set_flights (delete i (flights x)) x.

Definition dstep (x : Drawer) (e : event) : Drawer :=
  match e with
  | DOpen d => if open x then x else set_ui true d initialState (pendingEnroll x) (enrolling x) (enrollError x) x
  | DClose => onClose x
  | DAction a => if open x then dispatch a x else x
  | DManualKey pem => if open x then handleManualKeyChange pem x else x
  | DSubmit => if open x then handleConnect x else x
  | DKey i generated => match flights x !! i with
                   | Some (AwaitKey scope p rec) => on_key scope p rec generated (landed i x)
                   | _ => x
                   end
  | DIdentities i a => match flights x !! i with
                       | Some (AwaitIdentities e rec) => on_identities e rec a (landed i x)
                       | _ => x
                       end
  | DConfirm => on_confirm x
  | DDecline => setPendingEnroll None x
  | DCreate i a => match flights x !! i with
                   | Some (AwaitCreate e rec) => on_create e rec a (landed i x)
                   | _ => x
                   end
  | DPersist i => match flights x !! i with
                  | Some (AwaitPersist e rec) => on_persist e rec (landed i x)
                  | _ => x
                  end
  | DEnv e => set_world e (idb x) (cache x) (clock x) x
  | DIdb w => set_world (env x) (mkIdb (available (idb x)) w (keys (idb x))) (cache x) (clock x) x
  | DRefetched fps =>
      set_logs (opened x) (answers x ++ [fps]) (enrolled x)
        (set_world (env x) (idb x) (Some (mkCache fps (clock x) false)) (clock x) x)
  | DInvalidate => set_world (env x) (idb x) ((λ c, mkCache (c_fingerprints c) (c_at c) true) <$> cache x) (clock x) x
  | DWait ms => set_world (env x) (idb x) (cache x) (clock x + Z.of_nat ms) x
  end.

Definition drun (x : Drawer) (l : list event) : Drawer := fold_left dstep l x.
Definition new_drawer (e : Env) (db : Idb) (now : Z) : Drawer :=
  mkDrawer false ([], []) initialState e None false false db None now [] [] [] [].

(** ** What is opened *)

Definition good_name (p : Terminal.TerminalParams) : Prop :=
  Terminal.username p ≠ [] ∧ trim (Terminal.username p) = Terminal.username p.

(** The server said that a key is registered, or accepted it. *)
Definition vouched (ans : list (list jsstring)) (enr : list jsstring) (k : BrowserKey) : Prop :=
  Exists (λ fps, bk_fingerprint k ∈ fps) ans ∨ bk_publicKeyLine k ∈ enr.

(** The three ways to log in. *)
Definition session_ok (ans : list (list jsstring)) (enr : list jsstring) (p : Terminal.TerminalParams) : Prop :=
  good_name p ∧
  match Terminal.browserKey p, Terminal.privateKey p with
  | Some k, pk =>
      pk = None ∧ Terminal.password p = [] ∧ Terminal.passphrase p = None ∧
      ∃ key, bk_private key = k ∧ Terminal.fingerprint p = Some (bk_fingerprint key) ∧
             Terminal.publicKeyLine p = Some (bk_publicKeyLine key) ∧ vouched ans enr key
  | None, Some pem =>
      Terminal.password p = [] ∧ Terminal.publicKeyLine p = None ∧
      ∃ fp, Terminal.fingerprint p = Some fp ∧ getFingerprint pem (Terminal.passphrase p) = Ok fp
  | None, None =>
      trim (Terminal.password p) ≠ [] ∧ Terminal.fingerprint p = None ∧ Terminal.passphrase p = None ∧
      Terminal.publicKeyLine p = None
  end.

(** Parameters that wait for the browser's key. *)
Definition bare (p : Terminal.TerminalParams) : Prop :=
  good_name p ∧ Terminal.password p = [] ∧ Terminal.privateKey p = None ∧ Terminal.passphrase p = None.

Definition flight_ok (enr : list jsstring) (fl : flight) : Prop :=
  match fl with
  | AwaitKey _ p _ => bare p
  | AwaitIdentities e _ | AwaitCreate e _ => bare (e_params e)
  | AwaitPersist e _ => bare (e_params e) ∧ bk_publicKeyLine (e_key e) ∈ enr
  end.

Record drawer_ok (db0 : gmap jsstring BrowserKey) (x : Drawer) : Prop := {
  d_opened : Forall (session_ok (answers x) (enrolled x)) (opened x);
  d_flights : Forall (flight_ok (enrolled x)) (flights x);
  d_pending : ∀ e, pendingEnroll x = Some e → bare (e_params e);
  d_cache : ∀ c, cache x = Some c → c_fingerprints c ∈ answers x;
  d_store : ∀ s k, keys (idb x) !! s = Some k → db0 !! s = Some k ∨ bk_publicKeyLine k ∈ enrolled x;
}.

Lemma session_more ans enr ans' enr' p : ans ⊆ ans' → enr ⊆ enr' → session_ok ans enr p → session_ok ans' enr' p.
Proof.
  intros Ha He [Hn Hp]. split; [done|]. destruct (Terminal.browserKey p); [|done].
  destruct Hp as (? & ? & ? & key & ? & ? & ? & Hv). split_and!; try done. exists key. split_and!; try done.
  destruct Hv as [Hv|Hv]; [left|right; by apply He]. apply Exists_exists in Hv as (fps & Hf & Hk). apply Exists_exists.
  exists fps. split; [by apply Ha|done].
Qed.

Lemma flight_more enr enr' fl : enr ⊆ enr' → flight_ok enr fl → flight_ok enr' fl.
Proof. intros He. destruct fl; cbn; [done..|]. intros [? ?]. split; [done|]. by apply He. Qed.

Lemma base_ok x : truthy (trim (username (state x))) = true → good_name (base_params x []).
Proof. intros Ht. split; cbn; [by destruct (trim _)|apply trim_idemp]. Qed.

Lemma ok_opened db0 rec p x : session_ok (answers x) (enrolled x) p → drawer_ok db0 x → drawer_ok db0 (finalizeConnect rec p x).
Proof.
  intros Hp [A B C D E]. split; cbn; try done. apply Forall_app. split; [done|]. apply Forall_singleton.
  destruct (_ && _); [|done]. destruct Hp as [[? ?] Hp]. by split.
Qed.

Lemma ok_flight db0 fl x : flight_ok (enrolled x) fl → drawer_ok db0 x → drawer_ok db0 (set_flights (flights x ++ [fl]) x).
Proof. intros Hf [A B C D E]. split; cbn; try done. apply Forall_app. by split; [|apply Forall_singleton]. Qed.

Lemma ok_landed db0 i x : drawer_ok db0 x → drawer_ok db0 (landed i x).
Proof. intros [A B C D E]. split; cbn; try done. by apply Forall_delete. Qed.

Lemma attach_ok ans enr p k : bare p → vouched ans enr k → session_ok ans enr (attachKey p k).
Proof. intros (Hn & Hp & Hk & Hh) Hv. split; [done|]. cbn. rewrite Hk. split_and!; try done. by exists k. Qed.

Lemma ok_registered db0 e rec fps x : bare (e_params e) → fps ∈ answers x → drawer_ok db0 x →
  drawer_ok db0 (on_registered e rec fps x).
Proof.
  intros Hb Hf Hx. unfold on_registered. case_bool_decide as E.
  - apply ok_opened; [|done]. apply attach_ok; [done|]. left. apply Exists_exists. by exists fps.
  - destruct Hx as [A B C D F]. split; cbn; try done. by intros ? [= <-].
Qed.

Lemma ok_connect db0 x : drawer_ok db0 x → drawer_ok db0 (handleConnect x).
Proof.
  intros Hx. unfold handleConnect. destruct (canConnect x) eqn:Ec; [|done]. cbn [negb].
  unfold canConnect in Ec. apply andb_true_iff in Ec as [Ht Ec]. pose proof (base_ok x Ht) as Hb.
  destruct (identityMode (env x)); [destruct (key_scope _ _)|]; [| |destruct (authMethod (state x))].
  - by apply ok_flight.
  - destruct Hx as [A B C D E]. by split.
  - apply ok_opened; [|done]. split; [done|]. split_and!; try done.
    intros Hn. change (trim (password (state x)) = []) in Hn. by rewrite Hn in Ec.
  - unfold connect_key. destruct (key_choice x) as [key phrase]. destruct (getFingerprint key phrase) as [fp|] eqn:Ef;
      [|destruct Hx as [A B C D E]; by split].
    assert (∀ v, drawer_ok db0 (dispatch (setKeyError v) x)) as Hd by (intros v; destruct Hx as [A B C D E]; by split).
    destruct (match expected_fingerprint x with Some _ => _ | None => _ end); [done|]. apply ok_opened; [|done].
    assert (username (state (dispatch (setKeyError None) x)) = username (state x)) as Hu by (cbn; by destruct (state x)).
    split; [unfold good_name; cbn [Terminal.username base_params]; rewrite Hu; exact Hb|]. cbn. split_and!; try done. by exists fp.
Qed.

Lemma ok_ui db0 o d st b er x : drawer_ok db0 x → drawer_ok db0 (set_ui o d st (pendingEnroll x) b er x).
Proof. intros [A B C D E]. by split. Qed.

Lemma ok_key db0 scope p rec generated x : bare p → drawer_ok db0 x → drawer_ok db0 (on_key scope p rec generated x).
Proof.
  intros Hp Hx. unfold on_key. destruct (ensureBrowserKey _ _ _ _ _) as [k|]; [|by apply ok_ui].
  destruct (cached x) as [fps|] eqn:Ec; [|by apply ok_flight]. apply ok_registered; [done| |done].
  unfold cached in Ec. destruct (cache x) as [c|] eqn:E; [|done]. destruct (_ && _); [|done]. injection Ec as <-. by apply Hx.
Qed.

Lemma ok_identities db0 e rec a x : bare (e_params e) → drawer_ok db0 x → drawer_ok db0 (on_identities e rec a x).
Proof.
  intros He Hx. unfold on_identities. destruct a as [fps|]; [|by apply ok_ui].
  apply ok_registered; [done|cbn; set_solver|]. destruct Hx as [A B C D E]. split; cbn; try done.
  - eapply Forall_impl; [exact A|]. intros p. apply session_more; set_solver.
  - intros c [= <-]. cbn. set_solver.
Qed.

Lemma ok_create db0 e rec a x : bare (e_params e) → drawer_ok db0 x → drawer_ok db0 (on_create e rec a x).
Proof.
  intros He Hx. unfold on_create. destruct (match a with None => _ | Some _ => _ end); [|by apply ok_ui].
  set (x0 := set_logs _ _ _ _). change (flights x) with (flights x0).
  apply ok_flight; [cbn; split; [done|set_solver]|]. destruct Hx as [A B C D E]. split; cbn; try done.
  - eapply Forall_impl; [exact A|]. intros p. apply session_more; set_solver.
  - eapply Forall_impl; [exact B|]. intros p. apply flight_more. set_solver.
  - intros c Hc. destruct a; [by apply D|]. destruct (cache x) as [c'|] eqn:Ec; [|done]. injection Hc as <-. exact (D c' eq_refl).
  - intros s k Hk. destruct (E s k Hk); [by left|]. right. set_solver.
Qed.

Lemma ok_persist db0 e rec x : bare (e_params e) → bk_publicKeyLine (e_key e) ∈ enrolled x → drawer_ok db0 x →
  drawer_ok db0 (on_persist e rec x).
Proof.
  intros He Hl Hx. unfold on_persist, persistBrowserKey. destruct (working (idb x)); [|by apply ok_ui].
  set (x0 := set_world _ _ _ _ x). assert (drawer_ok db0 x0) as H0.
  { destruct Hx as [A B C D E]. split; cbn; try done. intros s k. rewrite lookup_insert_Some.
    intros [[_ <-]|[_ Hk]]; [by right|by apply E in Hk]. }
  assert (drawer_ok db0 (finalizeConnect rec (attachKey (e_params e) (e_key e)) x0)) as [A B C D E].
  { apply ok_opened; [|done]. apply attach_ok; [done|by right]. }
  by split.
Qed.

Lemma dstep_ok db0 x e : drawer_ok db0 x → drawer_ok db0 (dstep x e).
Proof.
  intros Hx. pose proof Hx as [A B C D E].
  assert (∀ i fl, flights x !! i = Some fl → flight_ok (enrolled x) fl) as Hfl.
  { intros i fl Hi. by apply (proj1 (Forall_lookup _ _) B i). }
  destruct e as [d| |a|pem| |i g|i a| | |i a|i|e|w|fps| |ms]; cbn [dstep].
  - by destruct (open x); [|apply ok_ui].
  - by apply ok_ui.
  - by destruct (open x); [apply ok_ui|].
  - destruct (open x); [|done]. unfold handleManualKeyChange. repeat case_match; by apply ok_ui.
  - by destruct (open x); [apply ok_connect|].
  - destruct (flights x !! i) as [[]|] eqn:Ei; try done. apply ok_key; [exact (Hfl _ _ Ei)|by apply ok_landed].
  - destruct (flights x !! i) as [[]|] eqn:Ei; try done. apply ok_identities; [exact (Hfl _ _ Ei)|by apply ok_landed].
  - unfold on_confirm. destruct (pendingEnroll x) as [e|] eqn:Ep; [|done]. destruct (enrolling x); [done|].
    set (x0 := set_ui _ _ _ _ _ _ x). change (flights x) with (flights x0). apply ok_flight; [by apply C|].
    unfold x0. rewrite <-Ep. by apply ok_ui.
  - by split.
  - destruct (flights x !! i) as [[]|] eqn:Ei; try done. apply ok_create; [exact (Hfl _ _ Ei)|by apply ok_landed].
  - destruct (flights x !! i) as [[]|] eqn:Ei; try done. destruct (Hfl _ _ Ei) as [Hb Hl].
    apply ok_persist; [done|done|by apply ok_landed].
  - by split.
  - by split.
  - split; cbn; try done.
    + eapply Forall_impl; [exact A|]. intros p. apply session_more; set_solver.
    + intros c [= <-]. cbn. set_solver.
  - split; cbn; try done. intros c Hc. destruct (cache x) as [c'|] eqn:Ec; [|done]. injection Hc as <-. exact (D c' eq_refl).
  - by split.
Qed.

(** C6: However answers, clicks and other tabs interleave, every terminal the
    drawer opens has a user name and exactly one credential: a password and no
    key; or a private key whose fingerprint was read from the key itself, and no
    password; or the browser's key and nothing else, a key the server listed as
    registered or accepted for registration.  A key is stored in the browser only
    after the server accepted it. *)
Theorem connect_one_credential (e : Env) (db : Idb) (now : Z) (l : list event) :
  let x := drun (new_drawer e db now) l in
  Forall (session_ok (answers x) (enrolled x)) (opened x) ∧
  (∀ s k, keys (idb x) !! s = Some k → keys db !! s = Some k ∨ bk_publicKeyLine k ∈ enrolled x).
Proof.
  intros x. assert (∀ l y, drawer_ok (keys db) y → drawer_ok (keys db) (drun y l)) as Hrun.
  { induction l0 as [|ev l0 IH]; intros y Hy; [done|]. by apply IH, dstep_ok. }
  destruct (Hrun l (new_drawer e db now)) as [A _ _ _ E]; [|done]. split; cbn; try done. by left.
Qed.
End Connect_.

(** ** Concrete runs *)

Module Traces.
#[local] Instance any_sshpk : Sshpk := {|
  Key := jsstring; Signature := list N;
  parsePrivateKey pem _ := inl pem;
  key_type _ := ed25519; key_size _ := 256; key_curve _ := None;
  key_fingerprint_md5 k := k; key_to_pem k := k;
  key_sign _ _ c := c; sig_to_ssh c := c; sig_to_buffer c := c;
  rsa_sign_pkcs1_sha1 _ c := c;
|}%N.

Definition identity_env : Env :=
  mkEnv VaultTypes.locked [] (Some (js "t1")) (Some (js "u1")) true false false true.
Definition mine : BrowserKey := mkBrowserKey 1 (js "ssh-ed25519 AAAA") (js "SHA256:mine").
Definition holding : Idb := mkIdb true true {[ js "u1:t1" := mine ]}.
Definition start_ : Drawer := new_drawer identity_env holding 0.
Definition typed : list event := [DOpen (js "uid", js "dev"); DAction (setUsername (js "root"))].

(** Nothing stops a second click on Connect while the first is being checked: two
    terminals open. *)
Example two_clicks_two_terminals :
  length (opened (drun (λ b, b) start_ (typed ++ [DSubmit; DSubmit; DKey 0 None; DKey 0 None;
    DIdentities 0 (Some [js "SHA256:mine"]); DIdentities 0 (Some [js "SHA256:mine"])]))) = 2%nat.
Proof. vm_compute. reflexivity. Qed.

(** Cancelling while the key is being checked does not stop the connection. *)
Example cancelled_still_connects :
  let x := drun (λ b, b) start_ (typed ++ [DSubmit; DKey 0 None; DClose; DIdentities 0 (Some [js "SHA256:mine"])]) in
  open x = false ∧ length (opened x) = 1%nat.
Proof. vm_compute. done. Qed.

(** The identities were listed ten seconds ago; the key was revoked elsewhere
    since; the check is answered from the cache and the terminal opens with the
    revoked key, without a request. *)
Example revoked_key_from_cache :
  let x := drun (λ b, b) start_ ([DRefetched [js "SHA256:mine"]; DWait 10000] ++ typed ++ [DSubmit; DKey 0 None]) in
  length (opened x) = 1%nat ∧ flights x = [] ∧ pendingEnroll x = None.
Proof. vm_compute. done. Qed.

(** The password stays in the state of the closed drawer. *)
Example password_kept_when_closed :
  let e := mkEnv VaultTypes.locked [] (Some (js "t1")) (Some (js "u1")) false false false true in
  let x := drun (λ b, b) (new_drawer e holding 0) (typed ++ [DAction (setPassword (js "hunter2")); DSubmit]) in
  open x = false ∧ length (opened x) = 1%nat ∧ password (state x) = js "hunter2".
Proof. vm_compute. done. Qed.
End Traces.
