(* ===== verification/DevicePolling.v ===== *)
(** * Polling the device counts (hooks/useDevicePolling.ts)

    The chain of timeouts with a growing delay: a timer fires, a request goes out,
    its answer schedules the next timer.  Timers and requests in flight are lists;
    which fires or answers next is an event.  Delays are exact rationals.

    Theorems: delays stay between the first and the largest; once stopped, the
    chain makes no further request and ends.  [restarted_twice] is a run with two
    chains. *)

From S2P Require Import Prelude.
From Stdlib Require Import QArith Qminmax.
#[local] Open Scope Z_scope.

Section Polling_.
Variables initialInterval maxInterval backoffFactor : Q.

Record Polling := mkPolling {
  isPolling : bool;
  active : bool;                            (* activeRef *)
  timeoutRef : option nat;
  timers : list (nat * Q);                  (* pending, with their delay *)
  requests : list Q;                        (* in flight, with the delay captured *)
  next_handle : nat;
  asked : nat;                              (* requests made *)
  polled : nat;                             (* calls of onPoll *)
}.

Definition new_polling : Polling := mkPolling false false None [] [] 0 0 0.

Definition put_refs (p a : bool) (t : option nat) (s : Polling) : Polling :=
  mkPolling p a t (timers s) (requests s) (next_handle s) (asked s) (polled s).
Definition put_work (ts : list (nat * Q)) (rs : list Q) (s : Polling) : Polling :=
  mkPolling (isPolling s) (active s) (timeoutRef s) ts rs (next_handle s) (asked s) (polled s).
Definition count (a p : nat) (s : Polling) : Polling :=
  mkPolling (isPolling s) (active s) (timeoutRef s) (timers s) (requests s) (next_handle s) a p.

Definition clear (h : option nat) (ts : list (nat * Q)) : list (nat * Q) :=
  match h with Some h => List.filter (λ t, negb (t.1 =? h)%nat) ts | None => ts end.

Definition stop (s : Polling) : Polling :=
  put_work (clear (timeoutRef s) (timers s)) (requests s) (put_refs false false None s).

Definition schedule (delay : Q) (s : Polling) : Polling :=
  mkPolling (isPolling s) (active s) (Some (next_handle s)) (timers s ++ [(next_handle s, delay)]) (requests s)
    (S (next_handle s)) (asked s) (polled s).

Definition start (s : Polling) : Polling :=
  if active s then s else schedule initialInterval (put_refs true true (timeoutRef s) s).

Definition unmount (s : Polling) : Polling :=
  put_work (clear (timeoutRef s) (timers s)) (requests s) (put_refs (isPolling s) false (timeoutRef s) s).

(** The [i]-th pending timer fires. *)
Definition fire (i : nat) (s : Polling) : Polling :=
  match timers s !! i with
  | None => s
  | Some (h, delay) =>
      let s := put_work (delete i (timers s)) (requests s) s in
      if active s then count (S (asked s)) (polled s) (put_work (timers s) (requests s ++ [delay]) s) else s
  end.

(** The rest of the callback: schedule the next poll. *)
Definition continue_ (delay : Q) (s : Polling) : Polling :=
  if active s then schedule (Qmin (delay * backoffFactor) maxInterval) s else s.

(** The [i]-th request in flight answered: what [onPoll] returned for the counts,
    or a failure. *)
Definition answer (i : nat) (r : option bool) (s : Polling) : Polling :=
  match requests s !! i with
  | None => s
  | Some delay =>
      let s := put_work (timers s) (delete i (requests s)) s in
      match r with
      | Some shouldStop =>
          if active s then
            let s := count (asked s) (S (polled s)) s in
            if shouldStop then stop s else continue_ delay s
          else s
      | None => continue_ delay s
      end
  end.

Inductive event := PStart | PStop | PUnmount | PFire (i : nat) | PAnswer (i : nat) (r : option bool).

Definition step (s : Polling) (e : event) : Polling :=
  match e with
  | PStart => start s
  | PStop => stop s
  | PUnmount => unmount s
  | PFire i => fire i s
  | PAnswer i r => answer i r s
  end.
Definition run (s : Polling) (l : list event) : Polling := fold_left step l s.

(** ** Delays *)

Definition within (q : Q) : Prop := (initialInterval <= q /\ q <= maxInterval)%Q.
Definition delays_ok (s : Polling) : Prop := Forall (λ t, within t.2) (timers s) ∧ Forall within (requests s).

Lemma clear_sub (P : nat * Q → Prop) h ts : Forall P ts → Forall P (clear h ts).
Proof.
  intros Hp. destruct h; [|done]. cbn. apply List.Forall_forall. intros t [Ht _]%List.filter_In.
  by apply (proj1 (List.Forall_forall _ _) Hp).
Qed.

Lemma schedule_ok d s : within d → delays_ok s → delays_ok (schedule d s).
Proof. intros Hd [A B]. split; cbn; [|done]. apply Forall_app. by split; [|apply Forall_singleton]. Qed.

Lemma backoff_within d : (0 <= initialInterval)%Q → (initialInterval <= maxInterval)%Q → (1 <= backoffFactor)%Q → within d →
  within (Qmin (d * backoffFactor) maxInterval).
Proof.
  intros H0 H1 H2 [Hlo Hhi]. split; [|apply Q.le_min_r]. apply Q.min_glb; [|done].
  apply (Qle_trans _ d); [done|]. rewrite <-(Qmult_1_r d) at 1. rewrite (Qmult_comm d 1), (Qmult_comm d).
  apply Qmult_le_compat_r; [done|]. by apply (Qle_trans _ initialInterval).
Qed.

Lemma delays_step s e : (0 <= initialInterval)%Q → (initialInterval <= maxInterval)%Q → (1 <= backoffFactor)%Q →
  delays_ok s → delays_ok (step s e).
Proof.
  intros H0 H1 H2 Hs. pose proof Hs as [A B].
  assert (∀ d s', within d → delays_ok s' → delays_ok (continue_ d s')) as Hc.
  { intros d s' Hd Hs'. unfold continue_. destruct (active s'); [|done]. apply schedule_ok; [by apply backoff_within|done]. }
  destruct e as [| | |i|i r]; cbn [step].
  - unfold start. destruct (active s); [done|]. apply schedule_ok; [|done]. split; [apply Qle_refl|done].
  - split; cbn; [by apply clear_sub|done].
  - split; cbn; [by apply clear_sub|done].
  - unfold fire. destruct (timers s !! i) as [[h d]|] eqn:Ei; [|done].
    pose proof (proj1 (Forall_lookup _ _) A _ _ Ei) as Hd. cbn in Hd.
    destruct (active _); split; cbn; try (by apply Forall_delete); [|done]. apply Forall_app. by split; [|apply Forall_singleton].
  - unfold answer. destruct (requests s !! i) as [d|] eqn:Ei; [|done].
    pose proof (proj1 (Forall_lookup _ _) B _ _ Ei) as Hd.
    assert (delays_ok (put_work (timers s) (delete i (requests s)) s)) as Hw by (split; cbn; [done|by apply Forall_delete]).
    destruct r as [[]|]; [| |by apply Hc].
    + destruct (active _); [|done]. destruct Hw as [A' B']. split; cbn; [by apply clear_sub|done].
    + destruct (active _); [|done]. by apply Hc.
Qed.

(** Every poll waits at least the first interval and at most the largest. *)
Lemma polling_delays l : (0 <= initialInterval)%Q → (initialInterval <= maxInterval)%Q → (1 <= backoffFactor)%Q →
  delays_ok (run new_polling l).
Proof.
  intros H0 H1 H2. assert (∀ s, delays_ok s → delays_ok (run s l)) as Hr; [|by apply Hr].
  induction l as [|e l IH]; intros s Hs; [done|]. by apply IH, delays_step.
Qed.

(** ** Stopping *)

Definition work (s : Polling) : nat := length (timers s) + length (requests s).

(** An event that fires a pending timer or answers a request in flight. *)
Definition effective (s : Polling) (e : event) : nat :=
  match e with
  | PFire i => if decide (i < length (timers s))%nat then 1 else 0
  | PAnswer i _ => if decide (i < length (requests s))%nat then 1 else 0
  | _ => 0
  end.
Fixpoint settled (s : Polling) (l : list event) : nat :=
  match l with [] => 0 | e :: l => effective s e + settled (step s e) l end.

Definition not_start (e : event) : Prop := match e with PStart => False | _ => True end.

Lemma clear_length h ts : (length (clear h ts) <= length ts)%nat.
Proof. destruct h; [|done]. apply List.filter_length_le. Qed.

Lemma stopped_step s e : not_start e → active s = false →
  active (step s e) = false ∧ asked (step s e) = asked s ∧ polled (step s e) = polled s ∧
  (work (step s e) + effective s e <= work s)%nat.
Proof.
  intros He Ha. unfold work. destruct e as [| | |i|i r]; cbn [step effective]; try done.
  - cbn. pose proof (clear_length (timeoutRef s) (timers s)). split_and!; try done; lia.
  - cbn. pose proof (clear_length (timeoutRef s) (timers s)). split_and!; try done; lia.
  - unfold fire. destruct (timers s !! i) as [[h d]|] eqn:Ei.
    + pose proof (lookup_lt_Some _ _ _ Ei). cbn. rewrite Ha. cbn. split_and!; try done.
      rewrite length_delete by (by eexists). destruct (decide _); lia.
    + apply lookup_ge_None in Ei. split_and!; try done. destruct (decide _); lia.
  - unfold answer. destruct (requests s !! i) as [d|] eqn:Ei.
    + pose proof (lookup_lt_Some _ _ _ Ei). unfold continue_. cbn. rewrite Ha.
      destruct r as [b|]; cbn; (split_and!; try done; rewrite length_delete by (by eexists); destruct (decide _); lia).
    + apply lookup_ge_None in Ei. split_and!; try done. destruct (decide _); lia.
Qed.

Lemma stopped_run l s : Forall not_start l → active s = false →
  active (run s l) = false ∧ asked (run s l) = asked s ∧ polled (run s l) = polled s ∧
  (work (run s l) + settled s l <= work s)%nat.
Proof.
  revert s. induction l as [|e l IH]; intros s Hl Ha; [cbn; split_and!; try done; lia|].
  apply Forall_cons in Hl as [He Hl]. destruct (stopped_step s e He Ha) as (A & B & C & D).
  destruct (IH (step s e) Hl A) as (A' & B' & C' & D'). change (run s (e :: l)) with (run (step s e) l). cbn [settled].
  split_and!; try congruence. lia.
Qed.

(** Firing what is left, first the timers, then the requests. *)
Definition drain (s : Polling) : list event :=
  replicate (length (timers s)) (PFire 0) ++ replicate (length (requests s)) (PAnswer 0 None).

Lemma drain_done s : active s = false → work (run s (drain s)) = 0%nat.
Proof.
  intros Ha. unfold drain, run. rewrite fold_left_app.
  assert (∀ n s, active s = false → length (timers s) = n →
    let s' := fold_left step (replicate n (PFire 0)) s in active s' = false ∧ timers s' = [] ∧ requests s' = requests s) as Ht.
  { induction n as [|n IH]; intros s0 H0 Hn; cbn; [by apply nil_length_inv in Hn|].
    assert (fire 0 s0 = put_work (delete 0%nat (timers s0)) (requests s0) s0) as ->.
    { unfold fire. destruct (timers s0) as [|[h d] ts] eqn:Et; [done|]. cbn. by rewrite H0. }
    apply (IH (put_work (delete 0%nat (timers s0)) (requests s0) s0)); [done|]. destruct (timers s0); [done|]. cbn in *. lia. }
  assert (∀ n s, active s = false → length (requests s) = n →
    let s' := fold_left step (replicate n (PAnswer 0 None)) s in timers s' = timers s ∧ requests s' = []) as Hr.
  { induction n as [|n IH]; intros s0 H0 Hn; cbn; [by apply nil_length_inv in Hn|].
    assert (answer 0 None s0 = put_work (timers s0) (delete 0%nat (requests s0)) s0) as ->.
    { unfold answer, continue_. destruct (requests s0) as [|d rs] eqn:Et; [done|]. cbn. by rewrite H0. }
    apply (IH (put_work (timers s0) (delete 0%nat (requests s0)) s0)); [done|]. destruct (requests s0); [done|]. cbn in *. lia. }
  destruct (Ht _ s Ha eq_refl) as (H1 & H2 & H3). rewrite <-H3.
  destruct (Hr _ _ H1 eq_refl) as (H4 & H5). unfold work. by rewrite H4, H2, H5.
Qed.

(** C30: Once polling is stopped or the component is gone, and until it is started
    again, the loop makes no request and calls nobody back, every timer that fires
    and every answer that arrives leaves strictly less pending, and when those
    pending have come in nothing is left: the loop ends. *)
Theorem polling_ends (s : Polling) (l : list event) (Hs : active s = false) (Hl : Forall not_start l) :
  asked (run s l) = asked s ∧ polled (run s l) = polled s ∧
  (work (run s l) + settled s l <= work s)%nat ∧ work (run s (drain s)) = 0%nat.
Proof. destruct (stopped_run l s Hl Hs) as (_ & A & B & C). split_and!; try done. by apply drain_done. Qed.
End Polling_.

(** ** Concrete runs *)

Module Runs.
#[local] Abbreviation go := (run (2000 # 1) (10000 # 1) (3 # 2)).

Definition stopped : Polling := go new_polling [PStart; PFire 0; PStop].

Lemma polling_ends_witness :
  work stopped = 1%nat ∧ polled (go stopped [PAnswer 0 (Some false); PFire 0]) = 0%nat ∧
  work (go stopped (drain stopped)) = 0%nat.
Proof.
  destruct (polling_ends (2000 # 1) (10000 # 1) (3 # 2) stopped [PAnswer 0 (Some false); PFire 0] eq_refl
              ltac:(repeat constructor)) as (_ & A & _ & B).
  split; [reflexivity|]. split; [exact A|exact B].
Defined.

(** Stopped and started again while a request is in flight: its answer finds
    polling active and goes on, so that two chains run from then on. *)
Example restarted_twice :
  let s := go new_polling [PStart; PFire 0; PStop; PStart; PAnswer 0 (Some false); PFire 0; PFire 0] in
  work s = 2%nat ∧ asked s = 3%nat.
Proof. vm_compute. done. Qed.
End Runs.
