(* ===== verification/Schemas.v ===== *)
(** * Form schemas and their request bodies (pages/**/*Schema.ts, pages/setup)

    A schema is a function from the values of a form to its issues, each a field
    and a message; beside it are the defaults a form opens with and the body it
    sends.  Modules: [UserForm] (admin users) and [KeyForm] (public keys); the
    forms of accounts, teams and settings are in AccountForms.v. *)

From S2P Require Import Prelude JsString JsRegex JsEncoding Validation SshKeys.

(** [ctx.addIssue({ path: [field], message })] *)
Definition issue : Type := jsstring * jsstring.
Definition report (field : string) (message : option jsstring) : list issue :=
  match message with Some m => [(js field, m)] | None => [] end.
Definition unless (ok : bool) (message : string) : option jsstring := if ok then None else Some (js message).

Lemma report_nil field m : report field m = [] ↔ m = None.
Proof. by destruct m. Qed.
Lemma unless_none ok m : unless ok m = None ↔ ok = true.
Proof. by destruct ok. Qed.

(** ** pages/admin/users/userSchema.ts *)
Module UserForm.
Inductive UserFormMode := create | edit.
#[export] Instance UserFormMode_eq_dec : EqDecision UserFormMode.
Proof. solve_decision. Defined.

Record UserFormValues := mkValues {
  name : jsstring;
  username : jsstring;
  email : jsstring;
  password : jsstring;
  confirmed : bool;
  admin : bool;
  limitEnabled : bool;
  limitDisabled : bool;
  maxNamespaces : jsstring;
}.

(** [UserAdminResponse]: what the form reads of it. *)
Record User := mkUser {
  u_name : option jsstring;
  u_username : option jsstring;
  u_email : option jsstring;
  u_status : jsstring;
  u_admin : option bool;
  u_max_namespaces : option Z;
}.

(** The payloads of both modes; [p_confirmed] is only sent on edit. *)
Record Payload := mkPayload {
  p_name : jsstring;
  p_username : jsstring;
  p_email : jsstring;
  p_admin : bool;
  p_max_namespaces : option Z;
  p_password : option jsstring;
  p_confirmed : option bool;
}.

Definition MAX_NAMESPACES_ERROR : string := "Max namespaces must be a number greater than or equal to 1".

Definition userSchema (m : UserFormMode) (v : UserFormValues) : list issue :=
  report "name" (validateName (name v))
  ++ report "username" (validateUsername (username v))
  ++ report "email" (validateEmail (email v))
  ++ (if bool_decide (m = edit) && bool_decide (password v = []) then []
      else report "password" (validatePassword (password v)))
  ++ report "maxNamespaces" (unless (isMaxNamespacesValid (limitEnabled v) (limitDisabled v) (maxNamespaces v)) MAX_NAMESPACES_ERROR).

Definition blankValues : UserFormValues := mkValues [] [] [] [] false false false false (js "1").

Definition valuesFromUser (u : User) : UserFormValues :=
  let enabled := match u_max_namespaces u with Some max => 0 <=? max | None => false end in
  let disabled := enabled && bool_decide (u_max_namespaces u = Some 0) in
  mkValues (default [] (u_name u)) (default [] (u_username u)) (default [] (u_email u)) []
    (bool_decide (u_status u = js "confirmed")) (default false (u_admin u)) enabled disabled
    (match u_max_namespaces u with
     | Some max => if enabled && negb (max =? 0) then Z_to_string max else js "1"
     | None => js "1"
     end).

Definition buildUserDefaults (u : option User) : UserFormValues :=
  match u with Some u => valuesFromUser u | None => blankValues end.

(** [None] is [undefined]; [parseInt] of a field the schema accepts is a number. *)
Definition computeMaxNamespaces (m : UserFormMode) (v : UserFormValues) (initial : option User) : option Z :=
  if negb (limitEnabled v) then
    match m with
    | edit => match initial ≫= u_max_namespaces with
              | Some orig => if orig <? 0 then Some orig else None
              | None => None
              end
    | create => None
    end
  else if limitDisabled v then Some 0
  else parseInt (maxNamespaces v).

Definition buildUserPayload (m : UserFormMode) (v : UserFormValues) (initial : option User) : Payload :=
  mkPayload (trim (name v)) (trim (username v)) (trim (email v)) (admin v) (computeMaxNamespaces m v initial)
    (match m with
     | create => Some (password v)
     | edit => if bool_decide (password v = []) then None else Some (password v)
     end)
    (match m with create => None | edit => Some (confirmed v) end).

(** Saving the form of a user as it opened changes nothing, whatever the limit. *)
Lemma user_edit_roundtrip u : let p := buildUserPayload edit (valuesFromUser u) (Some u) in
  p_max_namespaces p = u_max_namespaces u ∧ p_password p = None ∧ p_admin p = default false (u_admin u) ∧
  p_confirmed p = Some (bool_decide (u_status u = js "confirmed")) ∧
  p_name p = trim (default [] (u_name u)) ∧ p_username p = trim (default [] (u_username u)) ∧
  p_email p = trim (default [] (u_email u)).
Proof.
  split; [|done]. cbn [buildUserPayload p_max_namespaces]. unfold computeMaxNamespaces, valuesFromUser. cbn.
  destruct (u_max_namespaces u) as [max|]; [|done]. destruct (Z.leb_spec 0 max) as [Hm|Hm]; cbn.
  - destruct (Z.eqb_spec max 0) as [->|Hne]; [done|]. cbn. rewrite bool_decide_false by congruence. apply parseInt_Z_to_string.
  - destruct (Z.ltb_spec max 0); [done|lia].
Qed.

(** What an accepted form sends. *)
Lemma user_payload_ok m v initial : userSchema m v = [] →
  let p := buildUserPayload m v initial in
  (1 <= length (p_name p) <= 64)%nat ∧ ((3 <= length (p_username p) <= 32)%nat ∧ Forall (λ c, username_char c = true) (p_username p)) ∧
  is_email (p_email p) ∧ (match p_password p with Some w => (5 <= length w <= 32)%nat | None => m = edit end) ∧
  (limitEnabled v = true → ∃ n, p_max_namespaces p = Some n ∧ 0 <= n ∧ (limitDisabled v = false → 1 <= n)).
Proof.
  unfold userSchema. intros (Hn%report_nil & (Hu%report_nil & (He%report_nil & (Hp & Hm%report_nil%unless_none)%app_nil)%app_nil)%app_nil)%app_nil.
  cbn [buildUserPayload p_name p_username p_email p_password p_max_namespaces].
  split; [|split; [|split; [|split]]].
  - unfold validateName, NAME_MAX_LENGTH in Hn. destruct (trim (name v)) as [|c s] eqn:E; [done|]. cbn [truthy negb] in Hn.
    destruct (Nat.ltb_spec 64 (length (c :: s))); [done|]. cbn in *. lia.
  - unfold validateUsername in Hu. destruct (negb (truthy (trim (username v)))); [done|].
    destruct (rmatch USERNAME_REGEX (trim (username v))) eqn:E; [|done]. by apply username_regex_spec.
  - unfold validateEmail in He. destruct (negb (truthy (trim (email v)))); [done|].
    destruct (rmatch EMAIL_REGEX (trim (email v))) eqn:E; [|done]. by apply email_regex_spec.
  - destruct m.
    + rewrite bool_decide_false in Hp by done. by apply report_nil, password_exact in Hp.
    + rewrite bool_decide_true in Hp by done. destruct (bool_decide (password v = [])); [done|]. by apply report_nil, password_exact in Hp.
  - intros Hl. unfold computeMaxNamespaces. rewrite Hl. cbn [negb]. unfold isMaxNamespacesValid in Hm. rewrite Hl in Hm.
    cbn [negb orb] in Hm. destruct (limitDisabled v); [exists 0; split_and!; [done|lia|done]|]. cbn [orb] in Hm.
    destruct (parseInt (maxNamespaces v)) as [n|]; [|done]. apply Z.leb_le in Hm. exists n. split_and!; [done|lia|done].
Qed.
End UserForm.

(** ** pages/public-keys/keySchema.ts *)
Module KeyForm.
Inductive KeyMode := create | edit.
Inductive UsernameOption := any_user | one_user.
Inductive FilterOption := all_devices | by_hostname | by_tags.
#[export] Instance UsernameOption_eq_dec : EqDecision UsernameOption.
Proof. solve_decision. Defined.
#[export] Instance FilterOption_eq_dec : EqDecision FilterOption.
Proof. solve_decision. Defined.

Record KeyFormValues := mkValues {
  name : jsstring;
  data : jsstring;
  usernameOption : UsernameOption;
  username : jsstring;
  filterOption : FilterOption;
  hostname : jsstring;
  tags : list jsstring;
}.
Definition DEFAULT_VALUES : KeyFormValues := mkValues [] [] any_user [] all_devices [] [].

Definition data_issue (d : jsstring) : option jsstring :=
  if negb (truthy (trim d)) then Some (js "Public key data is required")
  else unless (isPublicKeyValid d) "This is not a valid public key".

Definition keySchema (m : KeyMode) (v : KeyFormValues) : list issue :=
  report "name" (validateName (name v))
  ++ (match m with create => report "data" (data_issue (data v)) | edit => [] end)
  ++ (match usernameOption v with
      | one_user => report "username" (unless (truthy (trim (username v))) "Username pattern is required")
      | any_user => []
      end)
  ++ (match filterOption v with
      | by_hostname => report "hostname" (unless (truthy (trim (hostname v))) "Hostname pattern is required")
      | by_tags =>
          report "tags" (if (length (tags v) =? 0)%nat then Some (js "Select at least one tag")
                         else unless (length (tags v) <=? 3)%nat "You can select up to 3 tags")
      | all_devices => []
      end).

Inductive Filter := Hostname (h : jsstring) | Tags (l : list jsstring).
Record Body := mkBody { b_name : jsstring; b_data : jsstring; b_username : jsstring; b_filter : Filter }.

(** [btoa]: an [InvalidCharacterError] beyond Latin-1. *)
Definition btoa (s : jsstring) : res jsstring :=
  if forallb (λ c, (c <? 256)%N) s then Ok (b64_encode s) else Throw (Thrown (js "InvalidCharacterError")).

Definition build_filter (v : KeyFormValues) : Filter :=
  match filterOption v with
  | by_hostname => Hostname (hostname v)
  | by_tags => Tags (tags v)
  | all_devices => Hostname (js ".*")
  end.

Definition buildKeyBody (v : KeyFormValues) : res Body :=
  match btoa (trim (data v)) with
  | Throw e => Throw e
  | Ok d => Ok (mkBody (trim (name v)) d (match usernameOption v with one_user => trim (username v) | any_user => js ".*" end)
                  (build_filter v))
  end.

(** [PublicKeyResponse]: what the form reads of it. *)
Record PublicKey := mkKey {
  k_name : jsstring;
  k_data : jsstring;
  k_username : jsstring;
  k_hostname : option jsstring;
  k_tags : list jsstring;
}.

Definition buildKeyDefaults (k : PublicKey) : KeyFormValues :=
  let decoded := default (k_data k) (b64_decode (k_data k)) in
  let hasTags := negb (length (k_tags k) =? 0)%nat in
  let hasHostname := bool_decide (is_Some (k_hostname k)) && negb (bool_decide (k_hostname k = Some (js ".*"))) in
  let fo := if hasTags then by_tags else if hasHostname then by_hostname else all_devices in
  let any := bool_decide (k_username k = js ".*") in
  mkValues (k_name k) decoded (if any then any_user else one_user) (if any then [] else k_username k) fo
    (if bool_decide (fo = by_hostname) then default [] (k_hostname k) else []) (if hasTags then k_tags k else []).

(** The key the server stores for a body. *)
Definition stored (b : Body) : PublicKey :=
  mkKey (b_name b) (b_data b) (b_username b)
    (match b_filter b with Hostname h => Some h | Tags _ => None end)
    (match b_filter b with Tags l => l | Hostname _ => [] end).

(** A public key created from an accepted form opens for editing with the same
    name, key, user name and device filter, and editing it without changes sends
    the same body again. *)
Theorem public_key_roundtrip (v : KeyFormValues) (b : Body) (Hv : keySchema create v = []) (Hb : buildKeyBody v = Ok b) :
  data (buildKeyDefaults (stored b)) = trim (data v) ∧ keySchema edit (buildKeyDefaults (stored b)) = [] ∧
  buildKeyBody (buildKeyDefaults (stored b)) = Ok b.
Proof.
  unfold buildKeyBody, btoa in Hb. destruct (forallb _ (trim (data v))) eqn:El; [|done]. injection Hb as <-.
  assert (b64_decode (b64_encode (trim (data v))) = Some (trim (data v))) as Hd.
  { apply b64_round_trip, Forall_ltb. exact El. }
  unfold keySchema in Hv.
  apply app_nil in Hv as [Hn%report_nil [_ [Hu Hf]%app_nil]%app_nil].
  assert (validateName (trim (name v)) = None) as Hn' by (unfold validateName in *; by rewrite trim_idemp).
  set (u := match usernameOption v with one_user => trim (username v) | any_user => js ".*" end).
  assert (u ≠ []) as Hue.
  { unfold u. destruct (usernameOption v); [done|]. apply report_nil, unless_none in Hu. by destruct (trim (username v)). }
  assert (trim u = u) as Hut by (unfold u; destruct (usernameOption v); [reflexivity|apply trim_idemp]).
  assert (match build_filter v with Hostname h => trim h ≠ [] | Tags l => (1 <= length l <= 3)%nat end) as Hfo.
  { unfold build_filter. destruct (filterOption v); [done| |].
    - apply report_nil, unless_none in Hf. by destruct (trim (hostname v)).
    - apply report_nil in Hf. destruct (Nat.eqb_spec (length (tags v)) 0); [done|]. apply unless_none, Nat.leb_le in Hf. lia. }
  split; [cbn; by rewrite Hd|].
  assert (∀ w, name w = trim (name v) → (usernameOption w = one_user → username w = u) → (usernameOption w = any_user → u = js ".*") →
    build_filter w = build_filter v → data w = trim (data v) → keySchema edit w = [] ∧ buildKeyBody w =
      Ok (mkBody (trim (name v)) (b64_encode (trim (data v))) u (build_filter v))) as Hw.
  { intros w W1 W2 W3 W4 W5. split.
    - unfold keySchema. rewrite W1, Hn'. cbn [report app]. rewrite <-W4 in Hfo. unfold build_filter in Hfo.
      destruct (usernameOption w); [|rewrite W2, Hut by done; destruct u; [done|]]; cbn [report unless truthy app].
      all: destruct (filterOption w); [done| |].
      all: try (by destruct (trim (hostname w))).
      all: destruct (Nat.eqb_spec (length (tags w)) 0); [lia|]; by rewrite (proj2 (Nat.leb_le _ _)) by lia.
    - unfold buildKeyBody, btoa. rewrite W5, trim_idemp, El, W4, W1, trim_idemp. f_equal. f_equal.
      destruct (usernameOption w); [by rewrite W3|by rewrite W2]. }
  apply Hw; clear Hw; cbn [buildKeyDefaults stored name data usernameOption username b_name b_data b_username k_name k_data k_username].
  - done.
  - case_bool_decide; done.
  - by case_bool_decide.
  - unfold build_filter at 1. cbn [buildKeyDefaults stored filterOption hostname tags b_filter k_hostname k_tags].
    destruct (build_filter v) as [h|l] eqn:Eb; cbn [length Nat.eqb negb].
    + destruct (bool_decide_reflect (Some h = Some (js ".*"))) as [E|E]; [by injection E as ->|].
      by rewrite (bool_decide_true (is_Some (Some h))) by (by eexists).
    + destruct (Nat.eqb_spec (length l) 0); [lia|]. done.
  - by rewrite Hd.
Qed.

Lemma public_key_roundtrip_witness : ∃ v b,
  keySchema create v = [] ∧ buildKeyBody v = Ok b ∧ buildKeyBody (buildKeyDefaults (stored b)) = Ok b.
Proof.
  set (v := mkValues (js " laptop ") (js " ssh-ed25519 AAAAC3NzaC1lZDI1NTE5 me@laptop ") one_user (js " ^root$ ") by_tags []
    [js "prod"; js "eu"]).
  destruct (buildKeyBody v) as [b|] eqn:Hb; [|vm_compute in Hb; discriminate Hb]. exists v, b.
  assert (keySchema create v = []) as Hv by (vm_compute; reflexivity).
  exact (conj Hv (conj Hb (proj2 (proj2 (public_key_roundtrip v b Hv Hb))))).
Defined.

(** A key whose comment has a character beyond Latin-1 passes the form and then
    cannot be sent. *)
Example comment_beyond_latin1 :
  let v := mkValues (js "k") (js "ssh-ed25519 AAAAC3NzaC1lZDI1NTE5 josé@büro–1") any_user [] all_devices [] [] in
  keySchema create v = [] ∧ buildKeyBody v = Throw (Thrown (js "InvalidCharacterError")).
Proof. vm_compute. done. Qed.
End KeyForm.
