(* ===== verification/AccountForms.v ===== *)
(** * Forms of accounts, teams and settings

    The resolvers of the signed-out pages ([Setup]: pages/setup), the profile and
    password forms ([Profile]: pages/profile), members and API keys ([Team]:
    pages/team/schemas.ts), namespaces ([Namespaces]: editNamespaceSchema.ts,
    namespaceRenameSchema.ts), the vault's key form ([VaultKeyForm]) and the
    SAML settings ([Saml]: pages/admin/settings/samlSchema.ts).

    Parameters: [unicode_lower] ([toLowerCase] beyond ASCII), [valid_url] (whether
    [new URL(s)] accepts) and what sshpk says of a private key. *)

From S2P Require Import Prelude JsString JsRegex Validation SshKeys Schemas.
From S2P Require Recordings.

(** What a resolver answers: [{ values, errors: {} }] or [{ values: {}, errors }]. *)
Inductive outcome (V : Type) := Accepted (values : V) | Rejected (errors : list issue).
Arguments Accepted {_}.
Arguments Rejected {_}.

Definition resolve {V} (errors : list issue) (values : V) : outcome V :=
  match errors with [] => Accepted values | _ => Rejected errors end.

Lemma resolve_accepted {V} e (v w : V) : resolve e v = Accepted w ↔ e = [] ∧ w = v.
Proof. destruct e; cbn; split; [by intros [= ->]|by intros [_ ->]|done|by intros [? _]]. Qed.

(** ** pages/setup *)
Module Setup.
Section Lower.
#[local] Open Scope N_scope.
Variable unicode_lower : N → jsstring.

(** [s.replace(/p+/g, "-")]; [run] is whether the last unit was one of [p]. *)
Fixpoint replace_runs (p : N → bool) (run : bool) (s : jsstring) : jsstring :=
  match s with
  | [] => []
  | c :: r => if p c then (if run then [] else [45]) ++ replace_runs p true r else c :: replace_runs p false r
  end.
Fixpoint strip_start (s : jsstring) : jsstring :=
  match s with
  | [] => []
  | c :: r => if c =? 45 then strip_start r else s
  end.
Definition strip_end (s : jsstring) : jsstring := reverse (strip_start (reverse s)).

Definition suggestNamespace (username : jsstring) : jsstring :=
  let lower := Recordings.toLowerCase unicode_lower username in
  let slug := replace_runs (N.eqb 45) false (replace_runs (λ c, negb (namespace_char c)) false lower) in
  strip_end (take NAMESPACE_NAME_MAX_LENGTH (strip_start slug)).

Lemma replace_runs_Forall p run s : Forall (λ c, namespace_char c = true) (replace_runs (λ c, negb (p c)) run s) ↔
  Forall (λ c, p c = true → namespace_char c = true) s.
Proof.
  revert run. induction s as [|c s IH]; intros run; [done|]. cbn [replace_runs]. destruct (p c) eqn:E; cbn [negb].
  - rewrite !Forall_cons, IH. rewrite E. tauto.
  - rewrite Forall_cons, E. destruct run; cbn [app]; rewrite ?Forall_cons, IH; [|change (namespace_char 45) with true]; naive_solver.
Qed.

Lemma replace_hyphens_Forall run s : Forall (λ c, namespace_char c = true) s →
  Forall (λ c, namespace_char c = true) (replace_runs (N.eqb 45) run s).
Proof.
  revert run. induction s as [|c s IH]; intros run H; [done|]. apply Forall_cons in H as [Hc H]. cbn [replace_runs].
  destruct (45 =? c); [|apply Forall_cons; auto]. apply Forall_app. split; [|auto]. destruct run; [done|].
  by apply Forall_singleton.
Qed.

Lemma strip_start_spec s : ∃ p, s = p ++ strip_start s ∧ Forall (λ c, c = 45) p ∧ head (strip_start s) ≠ Some 45.
Proof.
  induction s as [|c s (p & E & Hp & Hh)]; [by exists []|]. cbn [strip_start]. destruct (N.eqb_spec c 45) as [->|Hc].
  - exists (45 :: p). cbn. rewrite <-E. split; [done|]. split; [by constructor|done].
  - exists []. split; [done|]. split; [done|]. cbn. congruence.
Qed.

Lemma strip_end_spec s : ∃ q, s = strip_end s ++ q ∧ Forall (λ c, c = 45) q ∧ last (strip_end s) ≠ Some 45.
Proof.
  destruct (strip_start_spec (reverse s)) as (p & E & Hp & Hh). exists (reverse p). unfold strip_end. split_and!.
  - apply (f_equal reverse) in E. by rewrite reverse_involutive, reverse_app in E.
  - by apply Forall_reverse.
  - by rewrite last_reverse.
Qed.

(** A letter or a digit in the user name survives. *)
Lemma replace_runs_alnum p run s : (∀ c, alnum_char c = true → p c = false) →
  Exists (λ c, alnum_char c = true) s → Exists (λ c, alnum_char c = true) (replace_runs p run s).
Proof.
  intros Hp. revert run. induction s as [|c s IH]; intros run H; [by apply Exists_nil in H|]. cbn [replace_runs].
  apply Exists_cons in H as [H|H].
  - rewrite Hp by done. by left.
  - destruct (p c); [apply Exists_app; right; auto|right; auto].
Qed.

Lemma alnum_45 : alnum_char 45 = false.
Proof. reflexivity. Qed.

(** The suggestion is a valid name of at most 30 units, or nothing when the user
    name has no letter and no digit. *)
Lemma suggest_namespace_ok u : let s := suggestNamespace u in
  (length s <= 30)%nat ∧ (s = [] ∨ is_namespace_name s) ∧
  (Exists (λ c, alnum_char c = true) (Recordings.toLowerCase unicode_lower u) → is_namespace_name s).
Proof.
  unfold suggestNamespace. set (l := Recordings.toLowerCase unicode_lower u).
  set (g := replace_runs (N.eqb 45) false (replace_runs (λ c, negb (namespace_char c)) false l)).
  assert (Forall (λ c, namespace_char c = true) g) as Hg.
  { apply replace_hyphens_Forall, replace_runs_Forall, Forall_true. auto. }
  destruct (strip_start_spec g) as (p & E1 & Hp & Hh). set (a := strip_start g) in *.
  destruct (strip_end_spec (take NAMESPACE_NAME_MAX_LENGTH a)) as (q & E2 & Hq & Hl).
  set (s := strip_end (take NAMESPACE_NAME_MAX_LENGTH a)) in *.
  assert (Forall (λ c, namespace_char c = true) s) as Hs.
  { rewrite E1 in Hg. apply Forall_app in Hg as [_ Hg]. apply (Forall_take _ NAMESPACE_NAME_MAX_LENGTH) in Hg. rewrite E2 in Hg.
    by apply Forall_app in Hg as [Hg _]. }
  assert (s ≠ [] → is_namespace_name s) as Hn.
  { intros Hne. split_and!; [done..| |done]. destruct s as [|c s']; [done|]. destruct a as [|d a']; [by destruct q|].
    cbn in E2, Hh |- *. congruence. }
  split_and!.
  - apply (f_equal length) in E2. rewrite length_take, length_app in E2. unfold NAMESPACE_NAME_MAX_LENGTH in E2. lia.
  - destruct s; [by left|right; by apply Hn].
  - intros Hx. apply Hn. intros Hs0. apply (replace_runs_alnum (λ c, negb (namespace_char c)) false) in Hx;
      [|intros c Hc; by rewrite alnum_namespace].
    apply (replace_runs_alnum (N.eqb 45) false) in Hx; [|intros c Hc; destruct (N.eqb_spec 45 c) as [<-|]; [|done]; by rewrite alnum_45 in Hc].
    fold g in Hx. rewrite E1 in Hx. apply Exists_app in Hx as [Hx|Hx].
    + apply Exists_exists in Hx as (c & Hin & Hc). rewrite Forall_forall in Hp. rewrite (Hp c Hin), alnum_45 in Hc. done.
    + destruct a as [|d a']; [by apply Exists_nil in Hx|]. rewrite Hs0 in E2. cbn in E2. destruct q as [|x q]; [done|].
      injection E2 as -> _. apply Forall_cons in Hq as [-> _]. done.
Qed.
End Lower.

(** The fields [validate] reads. *)
Record Fields := mkFields {
  name : jsstring;
  username : jsstring;
  email : jsstring;
  password : jsstring;
  confirmPassword : jsstring;
}.

Definition USERNAME_REGEX : re := RPlus (RChr username_char).
Definition between (lo hi : nat) (s : jsstring) : bool := negb ((length s <? lo) || (hi <? length s))%nat.

Definition validate (f : Fields) : list issue :=
  report "name" (unless (between 1 64 (name f)) "Name must be 1-64 characters long")
  ++ report "username"
       (if negb (between 3 32 (username f)) then Some (js "Username must be 3-32 characters long")
        else unless (rmatch USERNAME_REGEX (username f)) "Only lowercase letters, numbers, and -_.@ are allowed")
  ++ report "email" (unless (truthy (email f) && rmatch EMAIL_REGEX (email f)) "Enter a valid email address")
  ++ report "password" (unless (between 5 32 (password f)) "Password must be 5-32 characters long")
  ++ report "confirmPassword" (unless (bool_decide (confirmPassword f = password f)) "Passwords do not match").

Record SetupValues := mkSetup { fields : Fields; namespace : jsstring }.
Definition setupResolver (v : SetupValues) : outcome SetupValues :=
  resolve (validate (fields v) ++ report "namespace" (validateNamespaceName (namespace v))) v.

Record SignUpValues := mkSignUp { account : Fields; acceptPrivacyPolicy : bool }.
Definition signUpResolver (v : SignUpValues) : outcome SignUpValues :=
  resolve (validate (account v)
    ++ report "acceptPrivacyPolicy" (unless (acceptPrivacyPolicy v) "You must accept the privacy policy")) v.

(** The form of an invitation has no e-mail: a placeholder stands in, and only the
    four fields of [VALIDATE_FIELDS] are looked up. *)
Record InviteValues := mkInvite {
  i_name : jsstring;
  i_username : jsstring;
  i_password : jsstring;
  i_confirmPassword : jsstring;
}.
Definition invite_fields (v : InviteValues) : Fields :=
  mkFields (i_name v) (i_username v) (js "invite@placeholder.local") (i_password v) (i_confirmPassword v).
Definition invite_field (i : issue) : bool :=
  existsb (λ f, bool_decide (i.1 = js f)) ["name"; "username"; "password"; "confirmPassword"].
Definition inviteResolver (v : InviteValues) : outcome InviteValues :=
  resolve (List.filter invite_field (validate (invite_fields v))) v.

Record LoginValues := mkLogin { l_username : jsstring; l_password : jsstring }.
Definition loginResolver (v : LoginValues) : outcome LoginValues :=
  resolve (report "username" (validateIdentifier (l_username v))
    ++ report "password" (unless (truthy (l_password v)) "Password is required"))
    (mkLogin (trim (l_username v)) (l_password v)).

Definition forgotPasswordResolver (account : jsstring) : outcome jsstring :=
  resolve (report "account" (validateIdentifier account)) (trim account).

Definition mfaRecoverResolver (recoveryCode : jsstring) : outcome jsstring :=
  resolve (report "recoveryCode" (unless (truthy (trim recoveryCode)) "Recovery code is required")) (trim recoveryCode).

Definition updatePasswordResolver (password confirm : jsstring) : outcome (jsstring * jsstring) :=
  resolve (report "password" (validatePassword password)
    ++ report "confirmPassword" (unless (bool_decide (confirm = password)) "Passwords do not match")) (password, confirm).

(** pages/Setup.tsx: the suggestion follows the user name until the user edits it. *)
Record Form := mkForm { f_values : SetupValues; namespaceEdited : bool }.
Definition with_username (v : SetupValues) (u : jsstring) : SetupValues :=
  let f := fields v in mkSetup (mkFields (name f) u (email f) (password f) (confirmPassword f)) (namespace v).
Inductive form_event := TypeUsername (u : jsstring) | EditNamespace | TypeNamespace (n : jsstring).

Section Form.
Variable unicode_lower : N → jsstring.

(** The effect on [[usernameValue, namespaceEdited]], outside development. *)
Definition sync (f : Form) : Form :=
  if namespaceEdited f then f
  else mkForm (mkSetup (fields (f_values f)) (suggestNamespace unicode_lower (username (fields (f_values f))))) false.
Definition form_step (f : Form) (e : form_event) : Form :=
  match e with
  | TypeUsername u => sync (mkForm (with_username (f_values f) u) (namespaceEdited f))
  | EditNamespace => sync (mkForm (f_values f) true)
  | TypeNamespace n => if namespaceEdited f then mkForm (mkSetup (fields (f_values f)) n) true else f  (* read-only *)
  end.
Definition form_opened : Form := sync (mkForm (mkSetup (mkFields [] [] [] [] []) []) false).
End Form.

Lemma between_spec lo hi s : between lo hi s = true ↔ (lo <= length s <= hi)%nat.
Proof. unfold between. destruct (Nat.ltb_spec (length s) lo), (Nat.ltb_spec hi (length s)); cbn; split; (done || lia). Qed.

Definition account_ok (f : Fields) : Prop :=
  (1 <= length (name f) <= 64)%nat ∧
  ((3 <= length (username f) <= 32)%nat ∧ Forall (λ c, username_char c = true) (username f)) ∧
  is_email (email f) ∧ (5 <= length (password f) <= 32)%nat ∧ confirmPassword f = password f.

Lemma username_message_exact u :
  (if negb (between 3 32 u) then Some (js "Username must be 3-32 characters long")
   else unless (rmatch USERNAME_REGEX u) "Only lowercase letters, numbers, and -_.@ are allowed") = None ↔
  (3 <= length u <= 32)%nat ∧ Forall (λ c, username_char c = true) u.
Proof.
  rewrite <-between_spec. destruct (between 3 32 u) eqn:E; cbn [negb]; [|naive_solver].
  rewrite unless_none, rmatch_spec. unfold USERNAME_REGEX. rewrite lang_PlusChr. apply between_spec in E.
  destruct u; [cbn in E; lia|]. naive_solver.
Qed.

Lemma email_message_exact e : truthy e && rmatch EMAIL_REGEX e = true ↔ is_email e.
Proof. rewrite <-email_regex_spec, andb_true_iff. split; [tauto|]. by destruct e. Qed.

Lemma validate_exact f : validate f = [] ↔ account_ok f.
Proof.
  unfold validate, account_ok.
  by rewrite !app_nil, !report_nil, !unless_none, bool_decide_eq_true, !between_spec, email_message_exact, username_message_exact.
Qed.

(** The suggested name is the one of the current user name until it is edited. *)
Lemma suggestion_follows unicode_lower es : let f := fold_left (form_step unicode_lower) es (form_opened unicode_lower) in
  namespaceEdited f = false → namespace (f_values f) = suggestNamespace unicode_lower (username (fields (f_values f))).
Proof.
  induction es as [|e es IH] using rev_ind; [done|]. rewrite fold_left_app. cbn [fold_left]. cbn zeta in IH.
  set (f := fold_left _ es _) in *. destruct e as [u| |n]; cbn [form_step]; unfold sync; cbn [namespaceEdited].
  - by destruct (namespaceEdited f).
  - done.
  - destruct (namespaceEdited f) eqn:E; [done|]. intros _. by apply IH.
Qed.

(** The setup form submits exactly what was typed, and exactly when the name,
    user name, e-mail, password, confirmation and namespace name are well formed;
    while the namespace is not edited, it is the slug of the user name, a valid
    name of at most 30 characters unless the user name has no letter or digit. *)
Theorem setup_form_exact (unicode_lower : N → jsstring) (es : list form_event) :
  (∀ v w, setupResolver v = Accepted w ↔
     w = v ∧ account_ok (fields v) ∧ (3 <= length (namespace v) <= 30)%nat ∧ is_namespace_name (namespace v)) ∧
  let f := fold_left (form_step unicode_lower) es (form_opened unicode_lower) in
  namespaceEdited f = false →
  (length (namespace (f_values f)) <= 30)%nat ∧
  (Exists (λ c, alnum_char c = true) (Recordings.toLowerCase unicode_lower (username (fields (f_values f)))) →
   is_namespace_name (namespace (f_values f))).
Proof.
  split.
  - intros v w. unfold setupResolver. rewrite resolve_accepted, app_nil, validate_exact, report_nil, namespace_name_exact. tauto.
  - intros f Hf. unfold f in *. rewrite suggestion_follows by done.
    destruct (suggest_namespace_ok unicode_lower (username (fields (f_values f)))) as (H1 & _ & H3). done.
Qed.

(** Sign-in trims the identifier and keeps the password as typed. *)
Lemma login_accepts v w : loginResolver v = Accepted w ↔
  w = mkLogin (trim (l_username v)) (l_password v) ∧ l_password v ≠ [] ∧ validateIdentifier (l_username v) = None.
Proof.
  unfold loginResolver. rewrite resolve_accepted, app_nil, !report_nil, unless_none.
  assert (truthy (l_password v) = true ↔ l_password v ≠ []) as -> by by destruct (l_password v). tauto.
Qed.

(** The invitation's placeholder never fails the form. *)
Lemma invite_accepts v w : inviteResolver v = Accepted w ↔ w = v ∧ account_ok (invite_fields v).
Proof.
  unfold inviteResolver. rewrite resolve_accepted, <-validate_exact. split; [|by intros [-> ->]]. intros [H ->]. split; [done|].
  assert (∀ f m, existsb (λ g, bool_decide (js f = js g)) ["name"; "username"; "password"; "confirmPassword"] = true →
    List.filter invite_field (report f m) = report f m) as Hk.
  { intros f [m|] E; [|done]. cbn [report List.filter]. unfold invite_field. cbn [fst]. by rewrite E. }
  unfold validate in *. rewrite !List.filter_app in H.
  rewrite (Hk "name"), (Hk "username"), (Hk "password"), (Hk "confirmPassword") in H by done. done.
Qed.
End Setup.

(** ** pages/profile and pages/Profile.tsx *)
Module Profile.
Record EditProfileFormValues := mkValues { name : jsstring; username : jsstring; email : jsstring; recoveryEmail : jsstring }.

Definition PROFILE_USERNAME_REGEX : re := RPlus (RChr username_char).

Definition validateName (v : jsstring) : option jsstring :=
  if negb (truthy (trim v)) then Some (js "Name is required")
  else unless (length v <=? 64)%nat "Name must be at most 64 characters".
Definition validateEmail (v : jsstring) : option jsstring :=
  if negb (truthy (trim v)) then Some (js "Email is required")
  else unless (rmatch EMAIL_REGEX v) "Invalid email format".

Section Lower.
Variable unicode_lower : N → jsstring.
#[local] Abbreviation toLowerCase := (Recordings.toLowerCase unicode_lower).

Definition validateUsername (v : jsstring) : option jsstring :=
  if negb (truthy (trim v)) then Some (js "Username is required")
  else if (32 <? length v)%nat then Some (js "Username must be at most 32 characters")
  else if negb (bool_decide (v = toLowerCase v)) then Some (js "Username must be lowercase")
  else if includes v [32%N] then Some (js "Username cannot contain spaces")
  else unless (rmatch PROFILE_USERNAME_REGEX v)
    "Only lowercase letters, numbers, dots, underscores, @ and hyphens are allowed".
Definition validateRecoveryEmail (recovery primary : jsstring) : option jsstring :=
  if negb (truthy recovery) then None
  else if negb (rmatch EMAIL_REGEX recovery) then Some (js "Invalid email format")
  else unless (negb (bool_decide (toLowerCase recovery = toLowerCase primary))) "Must be different from your email".

(** Only a field that differs from the current profile is checked. *)
Definition editProfileSchema (current : EditProfileFormValues) (v : EditProfileFormValues) : list issue :=
  (if bool_decide (name v = name current) then [] else report "name" (validateName (name v)))
  ++ (if bool_decide (username v = username current) then [] else report "username" (validateUsername (username v)))
  ++ (if bool_decide (email v = email current) then [] else report "email" (validateEmail (email v)))
  ++ (if truthy (recoveryEmail v) then report "recoveryEmail" (validateRecoveryEmail (recoveryEmail v) (email v)) else []).

(** The body of EditProfileDrawer's [onValid]: the dirty fields. *)
Record Body := mkBody {
  b_name : option jsstring;
  b_username : option jsstring;
  b_email : option jsstring;
  b_recovery_email : option jsstring;
}.
Definition if_dirty (now initial : jsstring) : option jsstring := if bool_decide (now = initial) then None else Some now.
Definition profile_body (current v : EditProfileFormValues) : Body :=
  mkBody (if_dirty (name v) (name current)) (if_dirty (username v) (username current))
    (if_dirty (email v) (email current)) (if_dirty (recoveryEmail v) (recoveryEmail current)).

Lemma username_accepted v : validateUsername v = None ↔
  (1 <= length v <= 32)%nat ∧ Forall (λ c, username_char c = true) v.
Proof.
  assert (∀ c, username_char c = true → is_ws c = false ∧ c ≠ 32%N ∧ is_upper c = false ∧ (c <? 128)%N = true) as Hc.
  { intros c. unfold username_char, is_ws, is_lower, is_upper, is_digit, in_range. rewrite !orb_true_iff, !andb_true_iff, !N.eqb_eq, !N.leb_le.
    intros H. split_and!; [|lia| |apply N.ltb_lt; lia].
    - apply not_true_iff_false. rewrite !orb_true_iff, ?andb_true_iff, ?N.eqb_eq, ?N.leb_le. lia.
    - apply not_true_iff_false. rewrite andb_true_iff, !N.leb_le. lia. }
  unfold validateUsername. split.
  - destruct (trim v) eqn:Et; [done|]. cbn [truthy negb]. destruct (Nat.ltb_spec 32 (length v)); [done|].
    case_bool_decide; [|done]. destruct (includes v [32%N]); [done|]. cbn [negb]. rewrite unless_none, rmatch_spec. unfold PROFILE_USERNAME_REGEX.
    rewrite lang_PlusChr. intros [Hn Hf]. split; [|done]. destruct v; [done|]. cbn in *. lia.
  - intros [Hl Hf]. rewrite trim_no_ws by (eapply Forall_impl; [exact Hf|naive_solver]).
    assert (v ≠ []) as Hn by (destruct v; [cbn in Hl; lia|done]).
    replace (truthy v) with true by by destruct v. cbn [negb]. destruct (Nat.ltb_spec 32 (length v)); [lia|].
    assert (Recordings.toLowerCase unicode_lower v = v) as Hlo.
    { clear Hl Hn. induction Hf as [|c r Hch Hr IH]; [done|]. destruct (Hc c Hch) as (_ & _ & Hup & Ha). unfold Recordings.toLowerCase in *. cbn [flat_map].
      rewrite IH by (cbn in *; lia). unfold Recordings.lower_unit. by rewrite Hup, Ha. }
    rewrite Hlo, bool_decide_true by done. cbn [negb].
    destruct (includes v [32%N]) eqn:Ei.
    { apply includes_one in Ei. rewrite Forall_forall in Hf. destruct (Hc _ (Hf _ Ei)) as (_ & ? & _). done. }
    rewrite unless_none, rmatch_spec. unfold PROFILE_USERNAME_REGEX. by rewrite lang_PlusChr.
Qed.

Lemma if_dirty_some now initial x : if_dirty now initial = Some x → x = now ∧ now ≠ initial.
Proof. unfold if_dirty. case_bool_decide; [done|]. by intros [= ->]. Qed.

(** What an accepted form sends: only fields that changed, each well formed. *)
Lemma profile_body_ok current v : editProfileSchema current v = [] →
  let b := profile_body current v in
  (∀ u, b_username b = Some u → u ≠ username current ∧ (1 <= length u <= 32)%nat ∧ Forall (λ c, username_char c = true) u) ∧
  (∀ e, b_email b = Some e → e ≠ email current ∧ is_email e) ∧
  (∀ r, b_recovery_email b = Some r → r ≠ [] → is_email r ∧ toLowerCase r ≠ toLowerCase (email v)).
Proof.
  unfold editProfileSchema. intros (_ & (Hu & (He & Hr)%app_nil)%app_nil)%app_nil.
  cbn [profile_body b_username b_email b_recovery_email]. split_and!.
  - intros u [-> E]%if_dirty_some. rewrite bool_decide_false in Hu by done. apply report_nil, username_accepted in Hu. done.
  - intros e [-> E]%if_dirty_some. rewrite bool_decide_false in He by done. split; [done|]. apply report_nil in He. unfold validateEmail in He.
    destruct (negb _); [done|]. by apply unless_none, email_regex_spec in He.
  - intros r [-> E]%if_dirty_some Hn. destruct (recoveryEmail v) as [|c s] eqn:Er; [done|]. cbn [truthy] in Hr.
    apply report_nil in Hr. unfold validateRecoveryEmail in Hr. cbn [truthy negb] in Hr.
    destruct (rmatch EMAIL_REGEX (c :: s)) eqn:Em; [|done]. cbn [negb] in Hr. apply unless_none, negb_true_iff, bool_decide_eq_false in Hr.
    split; [by apply email_regex_spec|done].
Qed.

(** The profile form takes a one-character user name, which the setup, sign-up and
    admin forms refuse. *)
Example one_letter_username : validateUsername (js "a") = None ∧ Validation.validateUsername (js "a") ≠ None.
Proof. split; [by apply username_accepted; repeat constructor|done]. Qed.
End Lower.

(** ** changePasswordSchema.ts and its drawer's [allFilled] *)
Record PasswordValues := mkPasswords { current : jsstring; newPw : jsstring; confirmPw : jsstring }.
Definition changePasswordSchema (v : PasswordValues) : list issue :=
  (if truthy (newPw v) then report "newPw" (validatePassword (newPw v)) else [])
  ++ report "confirmPw" (unless (negb (truthy (confirmPw v) && negb (bool_decide (confirmPw v = newPw v)))) "Passwords do not match").
Definition allFilled (v : PasswordValues) : bool := truthy (current v) && truthy (newPw v) && truthy (confirmPw v).
Definition can_submit (v : PasswordValues) : bool := bool_decide (changePasswordSchema v = []) && allFilled v.

Lemma change_password_exact v : can_submit v = true ↔
  current v ≠ [] ∧ (5 <= length (newPw v) <= 32)%nat ∧ confirmPw v = newPw v.
Proof.
  unfold can_submit, changePasswordSchema, allFilled. rewrite !andb_true_iff, bool_decide_eq_true, app_nil, report_nil, unless_none.
  assert (∀ s, truthy s = true ↔ s ≠ []) as Ht by (by intros []). rewrite !Ht, negb_true_iff, andb_false_iff, negb_false_iff, bool_decide_eq_true.
  rewrite <-not_true_iff_false, Ht. split.
  - intros [[H1 [H2|H2]] [[H3 H4] H5]]; [done|]. split; [done|]. split; [|done]. rewrite (proj2 (Ht _) H4), report_nil in H1. by apply password_exact.
  - intros (H1 & H2 & H3). assert (newPw v ≠ []) as H4 by (intros E; rewrite E in H2; cbn in H2; lia).
    rewrite (proj2 (Ht _) H4), report_nil, H3. split; [split; [by apply password_exact|by right]|done].
Qed.
End Profile.

(** ** pages/team/schemas.ts and helpers.ts *)
Module Team.
Definition ROLES : list jsstring := map js ["administrator"; "operator"; "observer"].
Definition isAssignableRole (role : option jsstring) : bool :=
  match role with Some r => bool_decide (r ∈ ROLES) | None => false end.
Definition role_issue (role : jsstring) : list issue :=
  report "role" (unless (bool_decide (role ∈ ROLES)) "Invalid option").

Record Member := mkMember { m_email : jsstring; m_role : jsstring }.
Definition addMemberSchema (v : Member) : list issue :=
  report "email" (unless (rmatch EMAIL_REGEX (trim (m_email v))) "Enter a valid email address.") ++ role_issue (m_role v).
Definition ADD_MEMBER_DEFAULTS : Member := mkMember [] (js "operator").
Definition buildAddMemberBody (v : Member) : Member := mkMember (trim (m_email v)) (m_role v).

Definition assignableRoleOr (role : option jsstring) (fallback : jsstring) : jsstring :=
  match role with Some r => if isAssignableRole role then r else fallback | None => fallback end.
Definition buildMemberRoleDefaults (member_role : option jsstring) : jsstring := assignableRoleOr member_role (js "operator").

(** [[a-zA-Z0-9_-]] *)
Definition key_char (c : N) : bool := is_lower c || is_upper c || is_digit c || (c =? 95)%N || (c =? 45)%N.
Definition key_name_message (s : jsstring) : option jsstring :=
  if (length s <? 3)%nat then Some (js "Name must be at least 3 characters.")
  else if (20 <? length s)%nat then Some (js "Name must be at most 20 characters.")
  else unless (rmatch (RPlus (RChr key_char)) s) "Name can only contain letters, numbers, - and _.".

Record NewKey := mkNewKey { k_name : jsstring; k_role : jsstring; k_expiresIn : jsstring }.
Definition generateKeySchema (v : NewKey) : list issue := report "name" (key_name_message (k_name v)) ++ role_issue (k_role v).
Definition GENERATE_KEY_DEFAULTS : NewKey := mkNewKey [] (js "administrator") (js "30").
Definition buildGenerateKeyBody (v : NewKey) : jsstring * jsstring * jsnum := (trim (k_name v), k_role v, Number (k_expiresIn v)).

Definition EXPIRY_OPTIONS : list (string * Z) := [("30 days", 30); ("60 days", 60); ("90 days", 90); ("1 year", 365); ("Never", -1)].

Record EditKey := mkEditKey { e_name : jsstring; e_role : jsstring }.
Definition editKeySchema (v : EditKey) : list issue :=
  report "name" (unless (0 <? length (trim (e_name v)))%nat "Name is required.") ++ role_issue (e_role v).
Definition buildEditKeyDefaults (key : option (jsstring * jsstring)) : EditKey :=
  match key with
  | Some (n, r) => mkEditKey n (assignableRoleOr (Some r) (js "administrator"))
  | None => mkEditKey [] (js "administrator")
  end.
Definition buildEditKeyBody (v : EditKey) : EditKey := mkEditKey (trim (e_name v)) (e_role v).

(** [isExpired], at the time [now] in milliseconds. *)
Definition isExpired (expiresIn now : Z) : bool := if expiresIn <=? 0 then false else expiresIn * 1000 <? now.

(** Ownership is never offered by any of the forms. *)
Lemma forms_never_owner v n k : addMemberSchema v = [] → generateKeySchema n = [] → editKeySchema k = [] →
  m_role (buildAddMemberBody v) ≠ js "owner" ∧ (buildGenerateKeyBody n).1.2 ≠ js "owner" ∧ e_role (buildEditKeyBody k) ≠ js "owner".
Proof.
  assert (∀ r, role_issue r = [] → r ≠ js "owner") as Hr.
  { intros r H%report_nil%unless_none%bool_decide_eq_true ->. vm_compute in H. set_solver. }
  intros [_ H1]%app_nil [_ H2]%app_nil [_ H3]%app_nil. split_and!; by apply Hr.
Qed.

(** Every lifetime offered survives the text of its radio button. *)
Lemma expiry_round_trip v o : o ∈ EXPIRY_OPTIONS → k_expiresIn v = Z_to_string o.2 →
  (buildGenerateKeyBody v).2 = Dec o.2 0.
Proof. intros Ho Hv. cbn. rewrite Hv. unfold EXPIRY_OPTIONS in Ho. set_unfold. naive_solver. Qed.

Lemma api_key_name_exact s : key_name_message s = None ↔ (3 <= length s <= 20)%nat ∧ Forall (λ c, key_char c = true) s.
Proof.
  unfold key_name_message. destruct (Nat.ltb_spec (length s) 3); [split; [done|lia]|].
  destruct (Nat.ltb_spec 20 (length s)); [split; [done|lia]|]. rewrite unless_none, rmatch_spec, lang_PlusChr.
  destruct s; [cbn in *; lia|]. naive_solver lia.
Qed.
End Team.

(** ** pages/admin/namespaces/editNamespaceSchema.ts, pages/settings/namespaceRenameSchema.ts *)
Module Namespaces.
Record Settings := mkSettings {
  connection_announcement : jsstring;
  session_record : bool;
  ssh_access_mode : jsstring;
  ssh_legacy_allowed : bool;
}.

(** [rest] is every property of a [Namespace] the form does not touch. *)
Record Namespace (Rest : Type) := mkNamespace { name : jsstring; max_devices : Z; settings : option Settings; rest : Rest }.
Arguments mkNamespace {_}.
Arguments name {_}.
Arguments max_devices {_}.
Arguments settings {_}.
Arguments rest {_}.

Record EditNamespaceFormValues := mkValues { v_name : jsstring; v_maxDevices : jsstring; v_sessionRecord : bool }.
Definition MAX_DEVICES_ERROR : string := "Max devices must be a number greater than or equal to -1".

Definition editNamespaceSchema (originalName : jsstring) (v : EditNamespaceFormValues) : list issue :=
  (if bool_decide (v_name v = originalName) then [] else report "name" (validateNamespaceName (v_name v)))
  ++ report "maxDevices" (unless (match parseInt (v_maxDevices v) with Some n => -1 <=? n | None => false end) MAX_DEVICES_ERROR).

Definition namespaceRenameSchema (n : jsstring) : list issue := report "name" (validateNamespaceName n).

Section Forms.
Context {Rest : Type}.

Definition buildEditNamespaceDefaults (n : option (Namespace Rest)) : EditNamespaceFormValues :=
  match n with
  | Some n => mkValues (name n) (Z_to_string (max_devices n)) (match settings n with Some s => session_record s | None => false end)
  | None => mkValues [] (Z_to_string (-1)) false
  end.

(** [None] is the [NaN] of a number the schema refuses. *)
Definition buildEditNamespaceBody (n : Namespace Rest) (v : EditNamespaceFormValues) : option (Namespace Rest) :=
  max ← parseInt (v_maxDevices v);
  Some (mkNamespace (trim (v_name v)) max
    (Some (mkSettings (match settings n with Some s => connection_announcement s | None => [] end) (v_sessionRecord v)
      (match settings n with Some s => ssh_access_mode s | None => js "legacy" end)
      (match settings n with Some s => ssh_legacy_allowed s | None => false end))) (rest n)).

(** A namespace opened and saved as it is keeps every property (its settings when
    it has them), even one whose name the rules would refuse now, as long as the
    stored name has no white space around it. *)
Lemma namespace_edit_roundtrip (n : Namespace Rest) s : settings n = Some s → trim (name n) = name n → -1 <= max_devices n →
  let v := buildEditNamespaceDefaults (Some n) in
  editNamespaceSchema (name n) v = [] ∧ buildEditNamespaceBody n v = Some n.
Proof.
  intros Hs Hn Hm v. subst v. cbn. rewrite Hs. unfold editNamespaceSchema, buildEditNamespaceBody. cbn [v_name v_maxDevices v_sessionRecord].
  rewrite bool_decide_true, parseInt_Z_to_string by done. split.
  - by rewrite (proj2 (Z.leb_le _ _)).
  - cbn. rewrite Hn. destruct n as [nm mx st r]. cbn in Hs |- *. rewrite Hs. by destruct s.
Qed.

(** What an accepted form saves. *)
Lemma namespace_body_ok n v : editNamespaceSchema (name n) v = [] → ∃ n', buildEditNamespaceBody n v = Some n' ∧
  rest n' = rest n ∧ -1 <= max_devices n' ∧
  (v_name v ≠ name n → name n' = v_name v ∧ (3 <= length (name n') <= 30)%nat ∧ is_namespace_name (name n')).
Proof.
  unfold editNamespaceSchema. intros (Hn & Hm%report_nil%unless_none)%app_nil. unfold buildEditNamespaceBody.
  destruct (parseInt (v_maxDevices v)) as [m|]; [|done]. eexists. split; [done|]. cbn [rest max_devices name].
  split; [done|]. split; [by apply Z.leb_le|]. intros Hne. rewrite bool_decide_false in Hn by done.
  apply report_nil, namespace_name_exact in Hn as [Hl Hn].
  assert (trim (v_name v) = v_name v) as Ht; [|by rewrite Ht].
  apply trim_no_ws. destruct Hn as (_ & Hf & _). eapply Forall_impl; [exact Hf|]. intros c.
  unfold namespace_char, alnum_char, is_ws, is_lower, is_digit, in_range. rewrite !orb_true_iff, !andb_true_iff, !N.eqb_eq, !N.leb_le.
  intros H. apply not_true_iff_false. rewrite !orb_true_iff, ?andb_true_iff, ?N.eqb_eq, ?N.leb_le. lia.
Qed.
End Forms.
End Namespaces.

(** ** pages/admin/settings/samlSchema.ts *)
Module Saml.
Definition BEGIN_MARK : jsstring := js "-----BEGIN CERTIFICATE-----".
Definition END_MARK : jsstring := js "-----END CERTIFICATE-----".

Definition isCertValid (s : jsstring) : bool := includes s BEGIN_MARK && includes s END_MARK.

(** The last place [p] starts in [s]. *)
Fixpoint lastIndexOf (s p : jsstring) : option nat :=
  match s with
  | [] => if startsWith [] p then Some 0%nat else None
  | _ :: r =>
      match lastIndexOf r p with
      | Some i => Some (S i)
      | None => if startsWith s p then Some 0%nat else None
      end
  end.
(** [s.slice(a, b)] for indexes inside [s]; empty when [b <= a]. *)
Definition slice (s : jsstring) (a b : nat) : jsstring := take (b - a) (drop a s).
Definition strip_ws (s : jsstring) : jsstring := List.filter (λ c, negb (is_ws c)) s.

Definition normalizeCert (raw : jsstring) : jsstring :=
  match indexOf raw BEGIN_MARK, lastIndexOf raw END_MARK with
  | Some i, Some j => BEGIN_MARK ++ [10%N] ++ strip_ws (slice raw (i + length BEGIN_MARK) j) ++ [10%N] ++ END_MARK
  | _, _ => raw
  end.

Record SamlFormValues := mkValues {
  useMetadataUrl : bool;
  metadataUrl : jsstring;
  postUrl : jsstring;
  redirectUrl : jsstring;
  entityId : jsstring;
  certificate : jsstring;
  emailMapping : jsstring;
  nameMapping : jsstring;
  signRequests : bool;
}.

Section Urls.
(** Whether [new URL(s)] accepts [s]. *)
Variable isValidUrl : jsstring → bool.

Definition url_message (s : jsstring) : option jsstring := unless (isValidUrl s) "Must be a valid URL".
Definition sign_on_issues (v : SamlFormValues) : list issue :=
  if negb (truthy (postUrl v)) && negb (truthy (redirectUrl v))
  then report "postUrl" (Some (js "At least one Sign-On URL (POST or Redirect) is required"))
  else (if truthy (postUrl v) then report "postUrl" (url_message (postUrl v)) else [])
       ++ (if truthy (redirectUrl v) then report "redirectUrl" (url_message (redirectUrl v)) else []).
Definition certificate_message (c : jsstring) : option jsstring :=
  if negb (truthy (trim c)) then Some (js "Certificate is required")
  else unless (isCertValid c) "Must include BEGIN CERTIFICATE and END CERTIFICATE markers".

Definition samlSchema (v : SamlFormValues) : list issue :=
  if useMetadataUrl v then
    report "metadataUrl" (unless (truthy (metadataUrl v) && isValidUrl (metadataUrl v)) "Must be a valid URL")
  else
    sign_on_issues v
    ++ report "entityId" (unless (truthy (trim (entityId v))) "Entity ID is required")
    ++ report "certificate" (certificate_message (certificate v)).
End Urls.

(** The stored settings: [None] where a link of the optional chain is missing. *)
Record Config := mkConfig {
  enabled : bool;
  c_post : option jsstring;
  c_redirect : option jsstring;
  c_entity_id : option jsstring;
  c_certificates : list jsstring;
  c_email : option jsstring;
  c_name : option jsstring;
  c_sign_requests : option bool;
}.

Definition blank : SamlFormValues := mkValues false [] [] [] [] [] [] [] false.
Definition buildSamlDefaults (c : option Config) : SamlFormValues :=
  match c with
  | Some c =>
      if enabled c then
        mkValues false [] (default [] (c_post c)) (default [] (c_redirect c)) (default [] (c_entity_id c))
          (default [] (head (c_certificates c))) (default [] (c_email c)) (default [] (c_name c)) (default false (c_sign_requests c))
      else blank
  | None => blank
  end.

Record Manual := mkManual {
  s_entity_id : jsstring;
  s_post : option jsstring;
  s_redirect : option jsstring;
  s_certificate : jsstring;
  s_mappings : option (option jsstring * option jsstring);
}.
Inductive Idp := Metadata (url : jsstring) | ManualIdp (m : Manual).

Definition present (s : jsstring) : option jsstring := if truthy s then Some s else None.
(** [{ enable: true, idp, sp: { sign_requests } }] *)
Definition buildSamlBody (v : SamlFormValues) : Idp * bool :=
  if useMetadataUrl v then (Metadata (metadataUrl v), signRequests v)
  else
    (ManualIdp (mkManual (entityId v) (present (postUrl v)) (present (redirectUrl v)) (normalizeCert (certificate v))
      (if truthy (emailMapping v) || truthy (nameMapping v) then Some (present (emailMapping v), present (nameMapping v)) else None)),
     signRequests v).

(** What the server stores for a manual body. *)
Definition stored (m : Manual) (sign : bool) : Config :=
  mkConfig true (s_post m) (s_redirect m) (Some (s_entity_id m)) [s_certificate m] (s_mappings m ≫= fst) (s_mappings m ≫= snd) (Some sign).

Lemma startsWith_app p s : startsWith (p ++ s) p = true.
Proof. induction p as [|c p IH]; [done|]. cbn. by rewrite N.eqb_refl, IH. Qed.

Lemma lastIndexOf_self p : p ≠ [] → lastIndexOf p p = Some 0%nat.
Proof.
  assert (∀ s, (length s < length p)%nat → lastIndexOf s p = None) as Hs.
  { assert (∀ s q, (length s < length q)%nat → startsWith s q = false) as Hl.
    { intros s q. revert s. induction q as [|c q IH]; intros [|d s] H; cbn in *; try lia. by rewrite IH, andb_false_r by lia. }
    intros s. induction s as [|c s IH]; intros H; cbn [lastIndexOf].
    - by rewrite Hl.
    - cbn in H. rewrite IH by lia. by rewrite Hl by (cbn; lia). }
  destruct p as [|c p]; [done|]. intros _. cbn [lastIndexOf]. rewrite Hs by (cbn; lia).
  pose proof (startsWith_app (c :: p) []) as E. rewrite app_nil_r in E. by rewrite E.
Qed.

Lemma lastIndexOf_end s p : p ≠ [] → lastIndexOf (s ++ p) p = Some (length s).
Proof. intros Hp. induction s as [|c s IH]; [by apply lastIndexOf_self|]. cbn [app lastIndexOf]. by rewrite IH. Qed.

Lemma strip_ws_no_ws s : Forall (λ c, is_ws c = false) (strip_ws s).
Proof. induction s as [|c s IH]; [done|]. cbn. destruct (is_ws c) eqn:E; cbn; [done|by constructor]. Qed.

Lemma strip_ws_id s : Forall (λ c, is_ws c = false) s → strip_ws s = s.
Proof. unfold strip_ws. induction 1 as [|c s Hc _ IH]; [done|]. cbn [List.filter]. by rewrite Hc, IH. Qed.

(** What lies between the markers of a text that starts and ends with them. *)
Lemma normalizeCert_framed m :
  normalizeCert (BEGIN_MARK ++ m ++ END_MARK) = BEGIN_MARK ++ [10%N] ++ strip_ws m ++ [10%N] ++ END_MARK.
Proof.
  unfold normalizeCert.
  assert (indexOf (BEGIN_MARK ++ m ++ END_MARK) BEGIN_MARK = Some 0%nat) as -> by reflexivity.
  rewrite app_assoc, lastIndexOf_end, <-app_assoc, length_app by done. unfold slice. rewrite Nat.add_0_l, drop_app_length.
  replace (length BEGIN_MARK + length m - length BEGIN_MARK)%nat with (length m) by lia. by rewrite take_app_length.
Qed.

(** Normalising twice changes nothing. *)
Lemma normalizeCert_idemp raw : normalizeCert (normalizeCert raw) = normalizeCert raw.
Proof.
  unfold normalizeCert at 2 3. destruct (indexOf raw BEGIN_MARK) as [i|] eqn:Ei, (lastIndexOf raw END_MARK) as [j|] eqn:Ej;
    try (unfold normalizeCert; by rewrite Ei, ?Ej).
  set (body := strip_ws _). assert (strip_ws body = body) as Hb by apply strip_ws_id, strip_ws_no_ws.
  assert (∀ l, BEGIN_MARK ++ [10%N] ++ l ++ [10%N] ++ END_MARK = BEGIN_MARK ++ (10%N :: l ++ [10%N]) ++ END_MARK) as E.
  { intros l. cbn [app]. by rewrite <-app_assoc. }
  rewrite (E body) at 1. rewrite normalizeCert_framed. do 3 f_equal. unfold strip_ws. cbn [List.filter]. change (negb (is_ws 10)) with false.
  cbn iota. rewrite List.filter_app. fold (strip_ws body). rewrite Hb. cbn [List.filter]. change (negb (is_ws 10)) with false. apply app_nil_r.
Qed.

Lemma present_default s : present (default [] (present s)) = present s.
Proof. by destruct s. Qed.

(** Settings entered by hand, saved and opened again send the same body. *)
Lemma saml_roundtrip v m s : buildSamlBody v = (ManualIdp m, s) → buildSamlBody (buildSamlDefaults (Some (stored m s))) = (ManualIdp m, s).
Proof.
  unfold buildSamlBody at 1. destruct (useMetadataUrl v); [done|]. intros [= <- <-]. cbn. rewrite !present_default, normalizeCert_idemp.
  by destruct (emailMapping v), (nameMapping v).
Qed.

(** A pasted chain is accepted and sent as one certificate whose body holds the
    markers of the others without their spaces. *)
Example chain_corrupted :
  let chain := js "-----BEGIN CERTIFICATE-----
AA
-----END CERTIFICATE-----
-----BEGIN CERTIFICATE-----
BB
-----END CERTIFICATE-----" in
  certificate_message chain = None ∧ normalizeCert chain = js "-----BEGIN CERTIFICATE-----
AA-----ENDCERTIFICATE----------BEGINCERTIFICATE-----BB
-----END CERTIFICATE-----".
Proof. vm_compute. done. Qed.

(** Markers in the wrong order pass too, and an empty certificate is sent. *)
Example reversed_markers :
  let raw := END_MARK ++ js " AA " ++ BEGIN_MARK in
  certificate_message raw = None ∧ normalizeCert raw = BEGIN_MARK ++ [10; 10]%N ++ END_MARK.
Proof. vm_compute. done. Qed.
End Saml.
