(* ===== verification/VaultKeyForm.v ===== *)
(** * The vault's key form (pages/secure-vault)

    The schema, defaults and payload of vaultKeySchema.ts, the drawer of
    KeyDrawer.tsx whose submit runs the store's [addKey] and [updateKey]
    (VaultStore.v), and the file field it gets a key from
    (hooks/useKeyFileInput.ts). *)

From S2P Require Import Prelude JsString JsJson JsEncoding JsDate SshKeys VaultTypes VaultTracker VaultWorld VaultCrypto VaultBackend.
From S2P Require Import VaultStore VaultLaws VaultStoreFacts.
From S2P Require Import VaultRefine VaultToy VaultRaces VaultScopes VaultExamples Schemas.

(** ** hooks/useKeyFileInput.ts *)

(** [name.replace(/\.[^.]+$/, "")], on the reversed name: the units after the last
    dot, then the dot. *)
Definition base_name (s : jsstring) : jsstring :=
  match span (λ c, negb (c =? 46)%N) (reverse s) with
  | (_ :: _, _ :: stem) => reverse stem
  | _ => s
  end.

Record FileField := mkFileField { fileSizeError : bool; fileReadError : bool; dragging : bool }.
Definition maxBytes : Z := 512 * 1024.

(** [processFile] up to [readAsText]: whether the file is read. *)
Definition processFile (size : Z) (f : FileField) : FileField * bool :=
  if maxBytes <? size then (mkFileField true false (dragging f), false)
  else (mkFileField false false (dragging f), true).
Definition reader_error (f : FileField) : FileField := mkFileField (fileSizeError f) true (dragging f).

(** [handleDrop] ends the drag, with or without a file; [handleFileInputChange]
    does not touch it. *)
Definition handleDrop (file : option Z) (f : FileField) : FileField * bool :=
  let f := mkFileField (fileSizeError f) (fileReadError f) false in
  match file with Some size => processFile size f | None => (f, false) end.
Definition handleFileInputChange (file : option Z) (f : FileField) : FileField * bool :=
  match file with Some size => processFile size f | None => (f, false) end.

(** ** The form *)

Record VaultKeyFormValues := mkValues {
  v_name : jsstring;
  v_data : jsstring;
  v_encrypted : bool;
  v_passphrase : jsstring;
}.

Definition buildVaultKeyDefaults (entry : option VaultKeyEntry) : VaultKeyFormValues :=
  match entry with
  | Some e => mkValues (name e) (data e) (hasPassphrase e) []
  | None => mkValues [] [] false []
  end.

Section Form.
Context `{Sshpk}.

Definition data_message (d : jsstring) : option jsstring :=
  if negb (truthy d) then Some (js "Private key is required")
  else match validatePrivateKey d with ValidKey _ => None | InvalidKey error => Some error end.

Definition vaultKeySchema (v : VaultKeyFormValues) : list issue :=
  report "name" (unless (truthy (trim (v_name v))) "Name is required")
  ++ report "data" (data_message (trim (v_data v)))
  ++ report "passphrase" (unless (negb (v_encrypted v && negb (truthy (trim (v_passphrase v))))) "Passphrase is required").

(** [!!result?.valid && !!result.encrypted] *)
Definition is_encrypted (pem : jsstring) : bool :=
  truthy pem && match validatePrivateKey pem with ValidKey encrypted => encrypted | InvalidKey _ => false end.

Definition handleKeyChange (pem : jsstring) (v : VaultKeyFormValues) : VaultKeyFormValues :=
  mkValues (v_name v) pem (is_encrypted (trim pem)) [].
Definition handleFileName (fileName : jsstring) (v : VaultKeyFormValues) : VaultKeyFormValues :=
  if truthy (v_name v) then v else mkValues fileName (v_data v) (v_encrypted v) (v_passphrase v).
Definition validateForPaste (text : jsstring) : bool :=
  match validatePrivateKey (trim text) with ValidKey _ => true | InvalidKey _ => false end.

(** [reader.onload] and [handlePaste] (outside an input): a text that is not a key
    is ignored. *)
Definition reader_load (file text : jsstring) (v : VaultKeyFormValues) : VaultKeyFormValues :=
  if validateForPaste (trim text) then handleFileName (base_name file) (handleKeyChange text v) else v.
Definition handlePaste (text : jsstring) (v : VaultKeyFormValues) : VaultKeyFormValues :=
  if truthy text && validateForPaste (trim text) then handleKeyChange text v else v.

Inductive event :=
  | TypeName (s : jsstring)
  | TypeKey (pem : jsstring)
  | TypePassphrase (s : jsstring)
  | LoadFile (file text : jsstring)
  | Paste (text : jsstring).

Definition form_step (v : VaultKeyFormValues) (e : event) : VaultKeyFormValues :=
  match e with
  | TypeName s => mkValues s (v_data v) (v_encrypted v) (v_passphrase v)
  | TypeKey pem => handleKeyChange pem v
  | TypePassphrase s => mkValues (v_name v) (v_data v) (v_encrypted v) s
  | LoadFile file text => reader_load file text v
  | Paste text => handlePaste text v
  end.

(** ** Submit *)

Definition buildVaultKeyPayload (v : VaultKeyFormValues) (fp alg : jsstring) : KeyInput :=
  mkInput (trim (v_name v)) (trim (v_data v)) (v_encrypted v) fp (Some alg).
Definition updates_of (p : KeyInput) : KeyUpdates :=
  mkUpdates (Some (in_name p)) (Some (in_data p)) (Some (in_hasPassphrase p)) (Some (in_fingerprint p))
    (Some (in_algorithm p)).

(** The [catch] of the parse. *)
Definition parse_errors (v : VaultKeyFormValues) (err : exn) : list issue :=
  if v_encrypted v then
    report "passphrase" (Some (match err with
      | Error n => if bool_decide (n = js "KeyParseError") then js "Incorrect passphrase"
                   else js "Could not decrypt key with this passphrase"
      | Thrown _ => js "Could not decrypt key with this passphrase"
      end))
  else report "data" (Some (js "Failed to read private key")).

(** [err instanceof DuplicateKeyError]: the class is told by its message. *)
Definition duplicate_of (err : exn) : option DuplicateField :=
  find (λ f, bool_decide (err = DuplicateKeyError f)) [dup_name; dup_private_key; dup_both].

Definition save_errors (edit : option VaultKeyEntry) (err : exn) : list issue :=
  match duplicate_of err with
  | Some f =>
      match f with
      | dup_private_key => []
      | dup_name | dup_both => report "name" (Some (js "Name is already used"))
      end
      ++ match f with
         | dup_name => []
         | dup_private_key | dup_both => report "data" (Some (js "Private key is already stored"))
         end
  | None =>
      let msg := match err with Error m => m | Thrown _ => [] end in
      report "root" (Some (if truthy msg then msg
                           else js (match edit with Some _ => "Failed to update key" | None => "Failed to add key" end)))
  end.

Section Submit.
Context `{WC : WebCrypto} `{VA : VaultApi} `{PF : Platform}.

(** [None] closes the drawer; errors keep it open. *)
Definition onSubmit (edit : option VaultKeyEntry) (v : VaultKeyFormValues) : V (option (list issue)) :=
  let d := trim (v_data v) in
  let passphrase := if v_encrypted v then Some (v_passphrase v) else None in
  match getFingerprint d passphrase with
  | Throw err => mret (Some (parse_errors v err))
  | Ok fp =>
      match getAlgorithm d passphrase with
      | Throw err => mret (Some (parse_errors v err))
      | Ok alg =>
          let payload := buildVaultKeyPayload v fp alg in
          try_catch
            (match edit with
             | Some e => updateKey (id e) (updates_of payload)
             | None => addKey payload
             end;; mret None)
            (λ err, mret (Some (save_errors edit err)))
      end
  end.
End Submit.
End Form.

(** ** Correctness *)

Section FormFacts.
Context `{Sshpk}.

(** The flag the form carries is what sshpk says of the key in it, so the
    passphrase field shows exactly for an encrypted key. *)
Definition flag_ok (v : VaultKeyFormValues) : Prop := v_encrypted v = is_encrypted (trim (v_data v)).

Lemma form_flag es v : flag_ok v → flag_ok (fold_left form_step es v).
Proof.
  revert v. induction es as [|e es IH]; intros v Hv; [done|]. apply IH. destruct e as [| | |file text|text]; try done; cbn [form_step].
  - unfold reader_load. destruct (validateForPaste (trim text)); [|done].
    unfold handleFileName. by destruct (truthy _).
  - unfold handlePaste. by destruct (_ && _).
Qed.

Lemma new_form_flag es : flag_ok (fold_left form_step es (buildVaultKeyDefaults None)).
Proof. by apply form_flag. Qed.

(** A name typed first is not replaced by the one of a file. *)
Lemma file_keeps_name file text v : v_name v ≠ [] → v_name (reader_load file text v) = v_name v.
Proof.
  intros Hn. unfold reader_load. destruct (validateForPaste _); [|done]. unfold handleFileName.
  change (v_name (handleKeyChange text v)) with (v_name v). destruct (v_name v) eqn:E; [done|exact E].
Qed.

Lemma duplicate_of_error f : duplicate_of (DuplicateKeyError f) = Some f.
Proof. by destruct f. Qed.

Lemma save_errors_nonempty edit err : save_errors edit err ≠ [].
Proof. unfold save_errors. destruct (duplicate_of err) as [[]|]; done. Qed.

Lemma parse_errors_nonempty v err : parse_errors v err ≠ [].
Proof. unfold parse_errors. by destruct (v_encrypted v). Qed.
End FormFacts.

Section SubmitFacts.
Context `{Sshpk}.
Context `{WC : WebCrypto} `{VA : VaultApi} `{PF : Platform} `{WCL : !WebCryptoLaws} `{PFL : !PlatformLaws}.
Context (scope : option VaultScope) (md : VaultStorageMode).
Context (view : Place → View) (up : Place → Prop) `{LB : !LawfulBackend scope md view up}.

Notation selected := (selected scope md).
Notation stays := (stays scope md up).

Lemma committed_same w : committed (place w) (draws w) (keys (store w)) w = w.
Proof. by destruct w as [? ? ? ? [] ? ? ? ? ?]. Qed.

(** What a save leaves when it fails, and when it succeeds with the list [ks]. *)
Definition untouched (w w' : World) : Prop :=
  ∃ p n, w' = committed p n (keys (store w)) w ∧ stays (place w) p ∧ view p = view (place w).
Definition saved_as (k : CryptoKey) (ks : list VaultKeyEntry) (w w' : World) : Prop :=
  ∃ p n u, w' = committed p n ks w ∧ stays (place w) p ∧ view p = with_data (sealed k ks u) (view (place w)).

Lemma untouched_refl w : untouched w w.
Proof. exists (place w), (draws w). by rewrite committed_same. Qed.

Lemma add_outcome p k w : quiet w → selected w → sessionKey w = Some k → status (store w) = unlocked →
  (∃ e w', addKey p w = (Throw e, w') ∧ untouched w w') ∨
  (∃ i w', units_ok i = true ∧ addKey p w = (Ok tt, w') ∧ saved_as k (added p i w) w w').
Proof.
  intros Hq Hs Hk Hu. destruct (checkDuplicates (keys (store w)) (Some (in_name p)) (Some (in_fingerprint p)) None) as [f|] eqn:E.
  - left. eexists _, w. split; [by apply addKey_duplicate|apply untouched_refl].
  - destruct (addKey_spec scope md view up p k w Hq Hs Hk Hu E) as (pl & n & i & u & Hi & Hst & [[Ha Hv]|(e & Ha & Hv)]).
    + right. exists i, (committed pl n (added p i w) w). split_and!; [done..|]. by exists pl, n, u.
    + left. eexists e, _. split; [exact Ha|]. by exists pl, n.
Qed.

Lemma update_outcome i ups k w : quiet w → selected w → sessionKey w = Some k → status (store w) = unlocked →
  (∃ e w', updateKey i ups w = (Throw e, w') ∧ untouched w w') ∨
  (∃ w', existsb (has_id i) (keys (store w)) = true ∧ updateKey i ups w = (Ok tt, w') ∧
     saved_as k (update_keys i ups (toISOString (clock (tracker w))) (keys (store w))) w w').
Proof.
  intros Hq Hs Hk Hu. destruct (existsb (has_id i) (keys (store w))) eqn:Ei;
    [|left; eexists _, w; split; [by apply updateKey_missing|apply untouched_refl]].
  destruct (checkDuplicates (keys (store w)) (up_name ups) (up_fingerprint ups) (Some i)) as [f|] eqn:E.
  - left. eexists _, w. split; [by apply (updateKey_duplicate i ups f)|apply untouched_refl].
  - destruct (updateKey_spec scope md view up i ups k w Hq Hs Hk Hu Ei E) as (pl & n & Hst & [[Ha Hv]|(e & Ha & Hv)]).
    + right. eexists. split_and!; [done|exact Ha|]. by exists pl, n, w.
    + left. eexists e, _. split; [exact Ha|]. by exists pl, n.
Qed.

(** The fields of an entry that holds what a form says of a key: its name and text
    without surrounding blanks, whether it is encrypted, and sshpk's fingerprint and
    the algorithm of the key parsed from that text. *)
Definition entry_of_form (v : VaultKeyFormValues) (key : Key) (e : VaultKeyEntry) : Prop :=
  name e = trim (v_name v) ∧ data e = trim (v_data v) ∧ hasPassphrase e = v_encrypted v ∧
  fingerprint e = key_fingerprint_md5 key ∧ algorithm e = Some (algorithm_label key).

(** The key list a form saves: the new entry at the end, dated now; or the entry
    edited, in its place, with its id and the date it was created, and every other
    entry as it was. *)
Definition list_saved (edit : option VaultKeyEntry) (v : VaultKeyFormValues) (w : World) (ks : list VaultKeyEntry) : Prop :=
  ∃ key, parsePrivateKey (trim (v_data v)) (if v_encrypted v then Some (v_passphrase v) else None) = inl key ∧
  let now := toISOString (clock (tracker w)) in
  match edit with
  | None => ∃ e, ks = keys (store w) ++ [e] ∧ entry_of_form v key e ∧ createdAt e = now ∧ updatedAt e = now
  | Some e0 =>
      (∃ n old, keys (store w) !! n = Some old ∧ id old = id e0) ∧ length ks = length (keys (store w)) ∧
      ∀ n old, keys (store w) !! n = Some old →
        (id old = id e0 → ∃ e, ks !! n = Some e ∧ entry_of_form v key e ∧ id e = id old ∧
           createdAt e = createdAt old ∧ updatedAt e = now) ∧
        (id old ≠ id e0 → ks !! n = Some old)
  end.

Lemma added_saved v key i w : parsePrivateKey (trim (v_data v)) (if v_encrypted v then Some (v_passphrase v) else None) = inl key →
  list_saved None v w (added (buildVaultKeyPayload v (key_fingerprint_md5 key) (algorithm_label key)) i w).
Proof. intros Hp. exists key. split; [done|]. cbn zeta. eexists. split; [reflexivity|]. by repeat split. Qed.

Lemma updated_saved e0 v key w : parsePrivateKey (trim (v_data v)) (if v_encrypted v then Some (v_passphrase v) else None) = inl key →
  existsb (has_id (id e0)) (keys (store w)) = true →
  list_saved (Some e0) v w (update_keys (id e0) (updates_of (buildVaultKeyPayload v (key_fingerprint_md5 key) (algorithm_label key)))
    (toISOString (clock (tracker w))) (keys (store w))).
Proof.
  intros Hp Hx. exists key. split; [done|]. cbn zeta. split; [|split; [apply length_map|]].
  - apply existsb_exists in Hx as (old & Hin & Hid). apply list_elem_of_In, list_elem_of_lookup_1 in Hin as [n Hn].
    exists n, old. split; [done|]. by apply bool_decide_eq_true in Hid.
  - intros n old Hn. unfold update_keys. rewrite list_lookup_fmap, Hn. cbn [fmap option_fmap option_map]. unfold has_id. split.
    + intros Hi. rewrite bool_decide_eq_true_2 by done. eexists. split; [reflexivity|]. by repeat split.
    + intros Hi. by rewrite bool_decide_eq_false_2.
Qed.

(** C15: Submitting the key form of an open vault, with no other task in between,
    closes the drawer exactly when the key is saved: the list shown and the list sealed in storage are then the
    old one with the new entry added, or the edited entry replaced, carrying the
    trimmed name and text and the fingerprint sshpk computes.  In every other
    case (a wrong passphrase, an unreadable key, a duplicate, a missing entry, a
    failed write) the drawer stays with an error and the stored vault and the
    list are as before. *)
Theorem vault_key_submit (edit : option VaultKeyEntry) (v : VaultKeyFormValues) (k : CryptoKey) (w : World)
    (Hq : quiet w) (Hs : selected w) (Hk : sessionKey w = Some k) (Hu : status (store w) = unlocked) :
  ∃ r w', onSubmit edit v w = (Ok r, w') ∧
  match r with
  | None => ∃ ks, list_saved edit v w ks ∧ saved_as k ks w w'
  | Some errors => errors ≠ [] ∧ untouched w w'
  end.
Proof.
  unfold onSubmit, getFingerprint, getAlgorithm. unfold parse_key at 1.
  destruct (parsePrivateKey _ _) as [key|[n|]] eqn:Ek.
  2,3: eexists _, w; split; [done|]; split; [apply parse_errors_nonempty|apply untouched_refl].
  unfold parse_key. rewrite Ek. set (p := buildVaultKeyPayload v _ _). destruct edit as [e|].
  - destruct (update_outcome (id e) (updates_of p) k w Hq Hs Hk Hu) as [(err & w' & E & Hn)|(w' & Hi & E & Hsv)].
    + eexists _, w'. split; [by rewrite (try_throw _ _ _ _ _ (bind_throw _ _ _ _ _ E))|]. split; [apply save_errors_nonempty|done].
    + exists None, w'. split; [apply try_ok; by rewrite (bind_ok _ _ _ _ _ E)|]. eexists. split; [|exact Hsv]. by apply updated_saved.
  - destruct (add_outcome p k w Hq Hs Hk Hu) as [(err & w' & E & Hn)|(i & w' & Hi & E & Hsv)].
    + eexists _, w'. split; [by rewrite (try_throw _ _ _ _ _ (bind_throw _ _ _ _ _ E))|]. split; [apply save_errors_nonempty|done].
    + exists None, w'. split; [apply try_ok; by rewrite (bind_ok _ _ _ _ _ E)|]. eexists. split; [|exact Hsv]. by apply added_saved.
Qed.
End SubmitFacts.

(** ** A run: an encrypted key added to the vault of VaultExamples.v *)
Module Runs.
#[local] Existing Instance toy_crypto.
#[local] Existing Instance toy_api.
#[local] Existing Instance toy_crypto_laws.
#[local] Existing Instance toy_api_laws.
#[local] Existing Instance local_platform.
#[local] Existing Instance local_platform_laws.
#[local] Existing Instance local_reliable.

(** Keys are texts; "ENC" is encrypted, and opens with "pw". *)
#[local] Instance text_sshpk : Sshpk := {|
  Key := jsstring; Signature := list N;
  parsePrivateKey pem pass :=
    if bool_decide (pem = js "ENC") then
      match pass with
      | None => inr (Some (js "KeyEncryptedError"))
      | Some w => if bool_decide (w = js "pw") then inl pem else inr (Some (js "KeyParseError"))
      end
    else if bool_decide (pem = js "junk") then inr (Some (js "KeyParseError")) else inl pem;
  key_type _ := ed25519; key_size _ := 256; key_curve _ := None;
  key_fingerprint_md5 k := k; key_to_pem k := k;
  key_sign _ _ c := c; sig_to_ssh c := c; sig_to_buffer c := c;
  rsa_sign_pkcs1_sha1 _ c := c;
|}%N.

Definition filled (passphrase : jsstring) : VaultKeyFormValues :=
  fold_left form_step [LoadFile (js "id_ed25519.pem") (js "ENC "); TypePassphrase passphrase] (buildVaultKeyDefaults None).

Example loaded_from_file : filled (js "pw") = mkValues (js "id_ed25519") (js "ENC ") true (js "pw").
Proof. vm_compute. reflexivity. Qed.

Example wrong_passphrase : (onSubmit None (filled (js "no")) opened_world).1 =
  Ok (Some [(js "passphrase", js "Incorrect passphrase")]).
Proof. vm_compute. reflexivity. Qed.

Example saved_twice :
  let w := (onSubmit None (filled (js "pw")) opened_world).2 in
  map name (keys (store w)) = [js "laptop"; js "id_ed25519"] ∧
  (onSubmit None (filled (js "pw")) w).1 =
    Ok (Some [(js "name", js "Name is already used"); (js "data", js "Private key is already stored")]).
Proof. vm_compute. done. Qed.

Lemma vault_key_submit_witness : ∃ k w' ks, sessionKey opened_world = Some k ∧
  onSubmit None (filled (js "pw")) opened_world = (Ok None, w') ∧
  list_saved None (filled (js "pw")) opened_world ks ∧
  saved_as toy_scope local_mode (local_view toy_scope) local_up k ks opened_world w'.
Proof.
  destruct (sessionKey opened_world) as [k|] eqn:Hk; [|vm_compute in Hk; discriminate Hk].
  assert (ready toy_scope local_mode (local_view toy_scope) opened_world) as [Hq Hs _].
  { destruct opened_related as (? & ? & Hr & _). exact Hr. }
  destruct (vault_key_submit toy_scope local_mode (local_view toy_scope) local_up None (filled (js "pw")) k opened_world
    Hq Hs Hk ltac:(vm_compute; reflexivity)) as (r & w' & E & H).
  assert (r = None) as ->.
  { pose proof (f_equal fst E) as E1. vm_compute in E1. injection E1 as <-. reflexivity. }
  destruct H as (ks & H1 & H2). exists k, w', ks. exact (conj eq_refl (conj E (conj H1 H2))).
Defined.
End Runs.
