(* ===== verification/TerminalErrors.v ===== *)
(** * Errors and messages of a web terminal (components/terminal/terminalErrors.ts)

    The messages the gateway sends over the socket, and the text shown for its
    errors.

    Lemmas: what a message must look like, that every known error is explained,
    and that its links go to the device of the session. *)

From S2P Require Import Prelude JsString JsJson.

Record Link := mkLink { link_label : jsstring; link_to : jsstring }.

Record ErrorEntry := mkEntry {
  e_title : option jsstring;
  e_message : jsstring;
  e_reconnect : bool;
  e_hints : list jsstring;
  e_links : option (list Link);
}.

Record TerminalError := mkError {
  te_title : jsstring;
  te_message : jsstring;
  te_reconnect : bool;
  te_hints : list jsstring;
  te_links : list Link;
}.

Definition device_details : list Link := [mkLink (js "Device details") (js "/devices/$uid")].

Definition errorMap : list (jsstring * ErrorEntry) :=
  [(js "failed to authenticate to device",
    mkEntry None (js "The username or password is incorrect.") true
      [js "The username must match the OS user on the device, not your ShellHub account."] None);
   (js "failed to find the device",
    mkEntry None (js "Cannot reach this device.") false
      [js "The device may be offline or removed from ShellHub."] (Some device_details));
   (js "failed to connect to device",
    mkEntry None (js "Cannot reach this device.") false
      [js "Make sure the device is powered on and the ShellHub agent is running."] (Some device_details));
   (js "failed to create a session between the server to the agent",
    mkEntry None (js "Connected to the device but could not start a session.") false
      [js "This is usually temporary. Wait a few seconds and try again.";
       js "If it persists, the ShellHub agent on the device may need to be restarted."] None);
   (js "failed to get the shell to agent",
    mkEntry None (js "Connected to the device but it refused to open a shell.") false
      [js "Check that the user has a valid login shell (not /usr/sbin/nologin or /bin/false).";
       js "On containerized agents, make sure a shell is available inside the container."] None);
   (js "failed to request the pty to agent",
    mkEntry None (js "Connected to the device but terminal allocation was denied.") false
      [js "The device may have too many open terminals. Close unused sessions and try again."] None);
   (js "failed to find the credentials",
    mkEntry None (js "Your session credentials have expired.") false
      [js "This happens when the connection takes too long to establish. Close and open a new terminal."] None);
   (js "failed to get auth data from key",
    mkEntry None (js "The selected public key could not be used for authentication.") false
      [js "The key may have been deleted or modified since you selected it.";
       js "Verify the key is still registered in your SSH key settings."] None);
   (js "failed to use the public key for this action",
    mkEntry None (js "This public key is not authorized for this device.") false
      [js "Public keys must be associated with the target device or its tags."] None);
   (js "connections using public keys are not permitted when the agent version is 0.5.x or earlier",
    mkEntry None (js "This device does not support public key authentication.") true
      [js "The ShellHub agent is v0.5.x or earlier. Update to v0.6.0+ for public key support, or reconnect using a password."]
      (Some device_details));
   (js "access to the device has been denied",
    mkEntry (Some (js "Access denied")) (js "You do not have permission to access this device.") false
      [js "Access may be restricted by a billing limit or namespace policy."] None);
   (js "invalid sshid format",
    mkEntry (Some (js "Invalid connection identifier")) (js "The SSH connection identifier is malformed.") false
      [js "Use the format username@namespace.device@host - for example: root@dev.agent@localhost."] None)].

(** [WS_KIND] *)
Inductive WsKind := INPUT | RESIZE | SIGNATURE | ERROR | SESSION | REAUTH.
Definition kind_number (k : WsKind) : Z :=
  match k with INPUT => 1 | RESIZE => 2 | SIGNATURE => 3 | ERROR => 4 | SESSION => 5 | REAUTH => 6 end.
Definition is_kind (k : WsKind) (n : jsnum) : bool := bool_decide (n = Dec (kind_number k) 0).

Definition HTTP_CONNECT_ERROR : TerminalError :=
  mkError (js "Connection failed") (js "Could not start the session.") true
    [js "The ShellHub server may be temporarily unavailable. Try again in a moment."] [].
Definition WS_CLOSE_ERROR : TerminalError :=
  mkError (js "Disconnected") (js "The session has ended.") false [] [].
Definition WS_NETWORK_ERROR : TerminalError :=
  mkError (js "Connection error") (js "Could not reach the device.") false
    [js "Check your network connection and make sure the ShellHub server is running."] [].
Definition WS_REAUTH_CANCELLED : TerminalError :=
  mkError (js "Re-authentication needed") (js "This device requires a fresh re-authentication to connect.") true [] [].

Definition parseMessage (data : jsstring) : option (jsnum * jsstring) :=
  match parse data with
  | Some msg =>
      match as_number (get msg (js "kind")), as_string (get msg (js "data")) with
      | Some k, Some d => Some (k, d)
      | _, _ => None
      end
  | None => None
  end.

(** [s.split(p).join(r)] for a [p] that is not empty; [skip] units of the last
    match are left. *)
Fixpoint replace_each (p r : jsstring) (skip : nat) (s : jsstring) : jsstring :=
  match s with
  | [] => []
  | c :: t =>
      match skip with
      | S k => replace_each p r k t
      | O => if startsWith s p then r ++ replace_each p r (length p - 1) t
             else c :: replace_each p r 0 t
      end
  end.

(** What every object inherits: looked up in [errorMap] these names are found,
    and the value has no [hints]. *)
Definition inherited : list jsstring :=
  [js "constructor"; js "hasOwnProperty"; js "isPrototypeOf"; js "propertyIsEnumerable"; js "toLocaleString";
   js "toString"; js "valueOf"; js "__defineGetter__"; js "__defineSetter__"; js "__lookupGetter__";
   js "__lookupSetter__"; js "__proto__"].

Definition unexpected : TerminalError :=
  mkError (js "Connection failed") (js "An unexpected error occurred.") false [] [].

(** [hasFirewall] is [isEnterpriseOrCloud()]. *)
Definition resolve_entry (hasFirewall : bool) (deviceUid : jsstring) (entry : ErrorEntry) : TerminalError :=
  let hints := e_hints entry ++ if hasFirewall then [js "A firewall rule may be blocking this connection."] else [] in
  let links :=
    map (λ l, mkLink (link_label l) (replace_each (js "$uid") deviceUid 0 (link_to l))) (nullish (e_links entry) [])
    ++ if hasFirewall then [mkLink (js "Firewall rules") (js "/firewall-rules")] else [] in
  mkError (nullish (e_title entry) (js "Connection failed")) (e_message entry) (e_reconnect entry) hints links.

Definition resolveError (hasFirewall : bool) (raw deviceUid : jsstring) : res TerminalError :=
  match assoc raw errorMap with
  | Some entry => Ok (resolve_entry hasFirewall deviceUid entry)
  | None =>
      if bool_decide (raw ∈ inherited) then Throw (Error (js "entry.hints is not iterable")) else Ok unexpected
  end.

(** ** Lemmas *)

(** A message is an object with a number [kind] and a text [data]. *)
Lemma parseMessage_spec data k d :
  parseMessage data = Some (k, d) ↔
  ∃ msg, parse data = Some msg ∧ get msg (js "kind") = Some (JNum k) ∧ get msg (js "data") = Some (JStr d).
Proof.
  unfold parseMessage. destruct (parse data) as [msg|]; [|split; [done|by intros (? & ? & _)]].
  unfold as_number, as_string. split.
  - intros H. exists msg. destruct (get msg (js "kind")) as [[]|]; try done.
    destruct (get msg (js "data")) as [[]|]; try done. by simplify_eq.
  - intros (? & [= <-] & -> & ->). done.
Qed.

(** What the gateway sends is understood. *)
Lemma parseMessage_sent (k : WsKind) d :
  parseMessage (stringify (JObj [(js "kind", JNum (Dec (kind_number k) 0)); (js "data", JStr d)]))
  = Some (Dec (kind_number k) 0, d).
Proof.
  unfold parseMessage. rewrite parse_stringify; [by destruct k|]. by destruct k.
Qed.

(** Every error of the table has a message; its links name the device. *)
Lemma resolveError_known hf uid raw entry : assoc raw errorMap = Some entry →
  ∃ e, resolveError hf raw uid = Ok e ∧ te_message e = e_message entry ∧ te_reconnect e = e_reconnect entry ∧
    (∀ l, l ∈ te_links e → link_to l = js "/devices/" ++ uid ∨ hf = true ∧ link_to l = js "/firewall-rules").
Proof.
  intros H. unfold resolveError. rewrite H. eexists. split; [done|]. split; [done|]. split; [done|].
  intros l. unfold resolve_entry. cbn [te_links]. rewrite elem_of_app. intros [Hl|Hl]; cycle 1.
  { destruct hf; [|by apply not_elem_of_nil in Hl]. right. apply list_elem_of_singleton in Hl as ->. done. }
  left. apply list_elem_of_fmap in Hl as (l0 & -> & Hl0). cbn [link_to].
  assert (l0 ∈ device_details) as Hd.
  { clear -H Hl0. assert (Forall (λ '(_, e), ∀ l, l ∈ nullish (e_links e) [] → l ∈ device_details) errorMap) as Hf
      by (unfold errorMap, nullish; repeat apply Forall_cons_2; try apply Forall_nil_2; cbn [e_links default];
          intros l Hl; done || by apply not_elem_of_nil in Hl).
    rewrite Forall_forall in Hf. apply (Hf (raw, entry)); [|done].
    clear -H. induction errorMap as [|[k e] m IH]; [done|]. cbn [assoc] in H. case_bool_decide as Hk.
    - simplify_eq. by left.
    - right. by apply IH. }
  apply list_elem_of_singleton in Hd as ->. cbn [link_to].
  change (js "/devices/$uid") with (js "/devices/" ++ js "$uid").
  change (replace_each (js "$uid") uid 0 (js "/devices/" ++ js "$uid")) with (js "/devices/" ++ uid ++ []).
  by rewrite app_nil_r.
Qed.
