(* ===== verification/WebTerminal.v ===== *)
(** * A web terminal's connection (components/terminal/TerminalInstance.tsx)

    The effect that connects a terminal session: the request for a token, the
    socket with its handlers, the signature of the gateway's challenge, the
    recorder, and the cleanup.  One value of [WebTerm] is one run of the effect,
    with the variables of its closure, the refs, the React state and the terminal
    store it writes to.  What arrives in any order is an event: the token, socket
    events, the result of an asynchronous signature or of creating the recorder,
    keystrokes, resizes, actions of the store by other components, the unmount.

    xterm, WebCrypto, sshpk and Buffer's base64 are parameters or only receive
    values; the theme effects and the markup are not part of the model.

    Theorems: the private key signs at most one challenge and is gone afterwards;
    a recorder's file holds the decoding of what was received since it started; at
    most one recorder is made, and it is current, finished or discarded. *)

From S2P Require Import Prelude JsString JsJson JsEncoding JsStream SshKeys TerminalErrors.
From S2P Require Recordings.
From S2P Require Import Terminal.

Inductive ReadyState := CONNECTING | OPEN | CLOSING | CLOSED.
#[export] Instance ReadyState_eq_dec : EqDecision ReadyState.
Proof. solve_decision. Defined.

Section Instance_.
Context `{Sshpk}.
(** [Buffer.from(s, "base64")], [isEnterpriseOrCloud()], and the session the
    effect runs for. *)
Variable Buffer_base64 : jsstring → list N.
Variable hasFirewall : bool.
Variable session : TerminalSession.

#[local] Abbreviation p := (params session).

(** What is written to the screen: bytes of the device, or text. *)
Inductive output := Bytes (b : list N) | Text (s : jsstring).

Record WebTerm := mkWT {
  (* the closure of the effect *)
  cancelled : bool;
  lastError : bool;
  keyMaterial : option jsstring;
  keyPassphrase : option jsstring;
  decoder : Stream;
  size : Z * Z;
  (* refs *)
  ws : option ReadyState;
  resizeRegistered : bool;
  recorder : option Recordings.Recorder;
  (* React state *)
  error : option TerminalError;
  approvalCode : option jsstring;
  (* the terminal store *)
  terminals : TerminalState;
  (* requests in flight *)
  awaitingToken : bool;
  creating : nat;
  signing : nat;
  (* what the effect has done to the outside *)
  sent : list jsstring;
  screen : list output;
  signed : list (list N);                  (* challenges signed with the private key *)
  frames : list (list N);                  (* binary frames handled *)
  texts : list jsstring;                   (* what they decoded to *)
  created : nat;
  finished : list Recordings.Recorder;
  discarded : list Recordings.Recorder;
}.

Definition set_closure (c le : bool) (km kp : option jsstring) (w : WebTerm) : WebTerm :=
  mkWT c le km kp (decoder w) (size w) (ws w) (resizeRegistered w) (recorder w) (error w) (approvalCode w)
    (terminals w) (awaitingToken w) (creating w) (signing w) (sent w) (screen w) (signed w) (frames w) (texts w)
    (created w) (finished w) (discarded w).
Definition set_ws (x : option ReadyState) (w : WebTerm) : WebTerm :=
  mkWT (cancelled w) (lastError w) (keyMaterial w) (keyPassphrase w) (decoder w) (size w) x (resizeRegistered w)
    (recorder w) (error w) (approvalCode w) (terminals w) (awaitingToken w) (creating w) (signing w) (sent w)
    (screen w) (signed w) (frames w) (texts w) (created w) (finished w) (discarded w).
Definition set_view (e : option TerminalError) (a : option jsstring) (w : WebTerm) : WebTerm :=
  mkWT (cancelled w) (lastError w) (keyMaterial w) (keyPassphrase w) (decoder w) (size w) (ws w)
    (resizeRegistered w) (recorder w) e a (terminals w) (awaitingToken w) (creating w) (signing w) (sent w)
    (screen w) (signed w) (frames w) (texts w) (created w) (finished w) (discarded w).
Definition on_store (f : TerminalState → TerminalState) (w : WebTerm) : WebTerm :=
  mkWT (cancelled w) (lastError w) (keyMaterial w) (keyPassphrase w) (decoder w) (size w) (ws w)
    (resizeRegistered w) (recorder w) (error w) (approvalCode w) (f (terminals w)) (awaitingToken w) (creating w)
    (signing w) (sent w) (screen w) (signed w) (frames w) (texts w) (created w) (finished w) (discarded w).
Definition set_pending (aw : bool) (cr si : nat) (w : WebTerm) : WebTerm :=
  mkWT (cancelled w) (lastError w) (keyMaterial w) (keyPassphrase w) (decoder w) (size w) (ws w)
    (resizeRegistered w) (recorder w) (error w) (approvalCode w) (terminals w) aw cr si (sent w) (screen w)
    (signed w) (frames w) (texts w) (created w) (finished w) (discarded w).
Definition write_screen (o : output) (w : WebTerm) : WebTerm :=
  mkWT (cancelled w) (lastError w) (keyMaterial w) (keyPassphrase w) (decoder w) (size w) (ws w)
    (resizeRegistered w) (recorder w) (error w) (approvalCode w) (terminals w) (awaitingToken w) (creating w)
    (signing w) (sent w) (screen w ++ [o]) (signed w) (frames w) (texts w) (created w) (finished w)
    (discarded w).
(** A frame handled: the decoder moves on. *)
Definition take_frame (b : list N) (s : Stream) (t : jsstring) (w : WebTerm) : WebTerm :=
  mkWT (cancelled w) (lastError w) (keyMaterial w) (keyPassphrase w) s (size w) (ws w)
    (resizeRegistered w) (recorder w) (error w) (approvalCode w) (terminals w) (awaitingToken w) (creating w)
    (signing w) (sent w) (screen w) (signed w) (frames w ++ [b]) (texts w ++ [t]) (created w) (finished w)
    (discarded w).
Definition sign_log (c : list N) (w : WebTerm) : WebTerm :=
  mkWT (cancelled w) (lastError w) (keyMaterial w) (keyPassphrase w) (decoder w) (size w) (ws w)
    (resizeRegistered w) (recorder w) (error w) (approvalCode w) (terminals w) (awaitingToken w) (creating w)
    (signing w) (sent w) (screen w) (signed w ++ [c]) (frames w) (texts w) (created w) (finished w)
    (discarded w).
Definition set_recorder (r : option Recordings.Recorder) (n : nat) (fi di : list Recordings.Recorder) (w : WebTerm) : WebTerm :=
  mkWT (cancelled w) (lastError w) (keyMaterial w) (keyPassphrase w) (decoder w) (size w) (ws w)
    (resizeRegistered w) r (error w) (approvalCode w) (terminals w) (awaitingToken w) (creating w)
    (signing w) (sent w) (screen w) (signed w) (frames w) (texts w) n fi di.
Definition set_resize (b : bool) (sz : Z * Z) (w : WebTerm) : WebTerm :=
  mkWT (cancelled w) (lastError w) (keyMaterial w) (keyPassphrase w) (decoder w) sz (ws w) b
    (recorder w) (error w) (approvalCode w) (terminals w) (awaitingToken w) (creating w) (signing w) (sent w)
    (screen w) (signed w) (frames w) (texts w) (created w) (finished w) (discarded w).
Definition add_sent (m : jsstring) (w : WebTerm) : WebTerm :=
  mkWT (cancelled w) (lastError w) (keyMaterial w) (keyPassphrase w) (decoder w) (size w) (ws w)
    (resizeRegistered w) (recorder w) (error w) (approvalCode w) (terminals w) (awaitingToken w) (creating w)
    (signing w) (sent w ++ [m]) (screen w) (signed w) (frames w) (texts w) (created w) (finished w)
    (discarded w).

(** ** Pieces of the effect *)

Definition updateStatus (s : ConnectionStatus) : WebTerm → WebTerm := on_store (setConnectionStatus (id session) s).
Definition setError (e : TerminalError) (w : WebTerm) : WebTerm := set_view (Some e) (approvalCode w) w.
Definition setApprovalCode (c : option jsstring) (w : WebTerm) : WebTerm := set_view (error w) c w.

(** [ws.send]: dropped once the socket is closing.  It throws while the socket
    is connecting, when none of the handlers that send can run. *)
Definition ws_send (m : json) (w : WebTerm) : WebTerm :=
  if bool_decide (ws w = Some OPEN) then add_sent (stringify m) w else w.

Definition frame_json (k : WsKind) (data : json) : json :=
  JObj [(js "kind", JNum (Dec (kind_number k) 0)); (js "data", data)].

Definition ws_close (w : WebTerm) : WebTerm :=
  match ws w with
  | Some CLOSED | None => w
  | Some _ => set_ws (Some CLOSING) w
  end.

(** The body of [createWebSshSession]. *)
Definition connect_body : json :=
  let shared := [(js "device", JStr (deviceUid p)); (js "username", JStr (username p))] in
  if is_truthy (fingerprint p)
  then JObj (shared ++ (js "fingerprint", JStr (default [] (fingerprint p))) ::
               match publicKeyLine p with Some l => [(js "public_key", JStr l)] | None => [] end)
  else JObj (shared ++ [(js "password", JStr (password p))]).

(** [finalizeRecording]: the ref is cleared before anything is awaited. *)
Definition finalizeRecording (w : WebTerm) : WebTerm :=
  match recorder w with
  | None => w
  | Some r => set_recorder None (created w) (finished w ++ [r]) (discarded w) w
  end.

Definition discard (w : WebTerm) : WebTerm :=
  match recorder w with
  | None => w
  | Some r => set_recorder None (created w) (finished w) (discarded w ++ [r]) w
  end.

Definition with_recorder (f : Recordings.Recorder → Recordings.Recorder) (w : WebTerm) : WebTerm :=
  match recorder w with
  | None => w
  | Some r => set_recorder (Some (f r)) (created w) (finished w) (discarded w) w
  end.

Definition registerResizeHandler (w : WebTerm) : WebTerm := set_resize true (size w) w.

(** The key material leaves the closure and the store. *)
Definition clear_keys (w : WebTerm) : WebTerm :=
  on_store (clearSensitiveData (id session)) (set_closure (cancelled w) (lastError w) None None w).

(** ** Handlers *)

(** Up to the request for the token. *)
Definition connect (ts : TerminalState) : WebTerm :=
  updateStatus connecting
    (mkWT false false None None new_stream (0, 0) None false None None None ts true 0 0 [] [] [] [] [] 0 [] []).

(** From the token on; [container] says whether the element is there, and
    [cols] and [rows] are the size it was fitted to. *)
Definition on_token (ok container : bool) (cols rows : Z) (w : WebTerm) : WebTerm :=
  let w := set_pending false (creating w) (signing w) w in
  if cancelled w then w
  else if negb ok then setError HTTP_CONNECT_ERROR (updateStatus disconnected w)
  else if negb container then w
  else
    let w := set_closure (cancelled w) (lastError w) (privateKey p) (passphrase p) w in
    set_resize false (cols, rows) (set_ws (Some CONNECTING) w).

Definition on_open (w : WebTerm) : WebTerm :=
  if cancelled w then w
  else
    let w := updateStatus connected (set_ws (Some OPEN) w) in
    if default false (record p) then set_pending (awaitingToken w) (S (creating w)) (signing w) w else w.

(** [OpfsCastRecorder.create] answered with a fresh recorder, of an id and a
    directory, or rejected. *)
Definition on_recorder (fresh : option (jsstring * jsstring)) (now : Z) (w : WebTerm) : WebTerm :=
  let w := set_pending (awaitingToken w) (pred (creating w)) (signing w) w in
  match fresh with
  | None => w
  | Some (i, dir) =>
      let r := Recordings.new_recorder i dir (deviceName p) (deviceUid p) (username p) None in
      if cancelled w then set_recorder (recorder w) (S (created w)) (finished w) (discarded w ++ [r]) w
      else set_recorder (Some (Recordings.start now (size w).1 (size w).2 r)) (S (created w)) (finished w)
             (discarded w) w
  end.

Definition on_binary (bytes : list N) (now : Z) (w : WebTerm) : WebTerm :=
  let w := write_screen (Bytes bytes) w in
  let '(s, decoded) := decode_piece bytes (decoder w) in
  let w := take_frame bytes s decoded w in
  registerResizeHandler (with_recorder (Recordings.recordOutput now decoded) w).

Definition sign_failed (w : WebTerm) : WebTerm :=
  let w := write_screen (Text ([13; 10; 27]%N ++ js "[1;31mFailed to sign authentication challenge." ++ [27]%N ++ js "[0m"
                                ++ [13; 10]%N)) w in
  ws_close (clear_keys w).

Definition sign_done (signature : jsstring) (w : WebTerm) : WebTerm :=
  registerResizeHandler (clear_keys (ws_send (frame_json SIGNATURE (JStr signature)) w)).

Definition on_challenge (data : jsstring) (w : WebTerm) : WebTerm :=
  match browserKey p with
  | Some _ => set_pending (awaitingToken w) (creating w) (S (signing w)) w
  | None =>
      if negb (is_truthy (keyMaterial w)) then w
      else
        let challenge := Buffer_base64 data in
        let w := sign_log challenge w in
        match generateSignature (default [] (keyMaterial w)) challenge (keyPassphrase w) with
        | Ok signature => sign_done signature w
        | Throw _ => sign_failed w
        end
  end.

(** [crypto.subtle.sign] answered. *)
Definition on_signed (sig : option (list N)) (w : WebTerm) : WebTerm :=
  let w := set_pending (awaitingToken w) (creating w) (pred (signing w)) w in
  match sig with
  | Some bytes => sign_done (b64_encode bytes) w
  | None => sign_failed w
  end.

Definition on_text (textData : jsstring) (w : WebTerm) : WebTerm :=
  match parseMessage textData with
  | None => if negb (lastError w) then write_screen (Text textData) w else w
  | Some (k, data) =>
      if is_kind SIGNATURE k then on_challenge data w
      else if is_kind ERROR k then
        let w := set_closure (cancelled w) true (keyMaterial w) (keyPassphrase w) w in
        let w := updateStatus disconnected w in
        match resolveError hasFirewall data (deviceUid p) with
        | Ok e => setError e w
        | Throw _ => w
        end
      else if is_kind SESSION k then with_recorder (Recordings.setSessionUid data) w
      else if is_kind REAUTH k then setApprovalCode (Some data) w
      else w
  end.

Definition on_close (w : WebTerm) : WebTerm :=
  let w := set_ws (Some CLOSED) w in
  if cancelled w then w
  else
    let w := updateStatus disconnected w in
    let w := if negb (lastError w) then setError WS_CLOSE_ERROR w else w in
    finalizeRecording w.

Definition on_error (w : WebTerm) : WebTerm :=
  if cancelled w then w
  else
    let w := set_closure (cancelled w) true (keyMaterial w) (keyPassphrase w) w in
    setError WS_NETWORK_ERROR (updateStatus disconnected w).

(** [term.onData] and [term.onResize] *)
Definition on_data (data : jsstring) (w : WebTerm) : WebTerm :=
  ws_send (frame_json INPUT (JStr (take 4096 data))) w.
Definition on_resize (cols rows now : Z) (w : WebTerm) : WebTerm :=
  if negb (resizeRegistered w) then w
  else
    let w := ws_send (frame_json RESIZE (JObj [(js "cols", JNum (Dec cols 0)); (js "rows", JNum (Dec rows 0))])) w in
    with_recorder (Recordings.recordResize now cols rows) w.

(** The cleanup of the effect; the handlers of the socket are removed with it. *)
Definition unmount (w : WebTerm) : WebTerm :=
  let w := set_closure true (lastError w) (keyMaterial w) (keyPassphrase w) w in
  let stillOpen := existsb (is_id (id session)) (sessions (terminals w)) in
  let w := if stillOpen then discard w else finalizeRecording w in
  let w := on_store (clearSensitiveData (id session)) w in
  set_ws None w.

(** The dialog of a re-authentication. *)
Definition approval_closed (w : WebTerm) : WebTerm := setError WS_REAUTH_CANCELLED (setApprovalCode None w).
Definition approval_decided (w : WebTerm) : WebTerm := setApprovalCode None w.

(** ** Runs *)

Inductive wevent :=
  | WToken (ok container : bool) (cols rows : Z)
  | WOpen
  | WRecorder (fresh : option (jsstring * jsstring)) (now : Z)
  | WWritten (ok : bool)                   (* the recorder's next write settled *)
  | WBinary (bytes : list N) (now : Z)
  | WText (data : jsstring)
  | WSigned (sig : option (list N))
  | WClose
  | WError
  | WData (data : jsstring)
  | WResize (cols rows now : Z)
  | WApprovalClosed
  | WApprovalDecided
  | WStore (a : taction)
  | WUnmount.

(** Which events can happen: answers to requests in flight, what a socket in its
    state delivers to its handlers, input while the terminal is there. *)
Definition possible (w : WebTerm) (e : wevent) : bool :=
  match e with
  | WToken _ _ _ _ => awaitingToken w
  | WOpen => bool_decide (ws w = Some CONNECTING)
  | WRecorder _ _ => negb (creating w =? 0)%nat
  | WBinary _ _ | WText _ => bool_decide (ws w = Some OPEN)
  | WWritten _ => bool_decide (is_Some (recorder w))
  | WSigned _ => negb (signing w =? 0)%nat
  | WClose => bool_decide (is_Some (ws w)) && negb (bool_decide (ws w = Some CLOSED))
  | WError => bool_decide (is_Some (ws w)) && negb (bool_decide (ws w = Some CLOSED))
  | WData _ | WResize _ _ _ => bool_decide (is_Some (ws w))
  | WApprovalClosed | WApprovalDecided => bool_decide (is_Some (approvalCode w)) && negb (cancelled w)
  | WStore _ => true
  | WUnmount => negb (cancelled w)
  end.

Definition wstep (w : WebTerm) (e : wevent) : WebTerm :=
  match e with
  | WToken ok container cols rows => on_token ok container cols rows w
  | WOpen => on_open w
  | WRecorder fresh now => on_recorder fresh now w
  | WWritten ok => with_recorder (Recordings.chain_step ok) w
  | WBinary bytes now => on_binary bytes now w
  | WText data => on_text data w
  | WSigned sig => on_signed sig w
  | WClose => on_close w
  | WError => on_error w
  | WData data => on_data data w
  | WResize cols rows now => on_resize cols rows now w
  | WApprovalClosed => approval_closed w
  | WApprovalDecided => approval_decided w
  | WStore a => on_store (λ ts, trun1 ts a) w
  | WUnmount => unmount w
  end.

Definition wrun1 (w : WebTerm) (e : wevent) : WebTerm := if possible w e then wstep w e else w.
Definition wrun (w : WebTerm) (l : list wevent) : WebTerm := fold_left wrun1 l w.

(** ** The private key *)

Definition key_ok (w : WebTerm) : Prop :=
  (length (signed w) <= 1)%nat ∧
  (awaitingToken w = true → signed w = [] ∧ keyMaterial w = None) ∧
  (signed w ≠ [] → keyMaterial w = None ∧ keyPassphrase w = None ∧ erased_at (id session) (terminals w)) ∧
  (cancelled w = true → erased_at (id session) (terminals w)).

Lemma key_same w w' :
  signed w' = signed w → awaitingToken w' = awaitingToken w → keyMaterial w' = keyMaterial w →
  keyPassphrase w' = keyPassphrase w → cancelled w' = cancelled w →
  (erased_at (id session) (terminals w) → erased_at (id session) (terminals w')) → key_ok w → key_ok w'.
Proof.
  unfold key_ok. intros -> -> -> -> -> He (H1 & H2 & H3 & H4). split; [done|]. split; [done|].
  split; [|intros Hc; by apply He, H4]. intros Hs. destruct (H3 Hs) as (? & ? & ?). by auto.
Qed.

Lemma status_erased st w : erased_at (id session) (terminals w) → erased_at (id session) (terminals (updateStatus st w)).
Proof. apply (trun1_erased _ _ (TSetConnectionStatus (id session) st)). apply not_elem_of_nil. Qed.

Ltac key_quiet :=
  match goal with
  | Hk : key_ok ?w |- key_ok _ => apply (key_same w); [(reflexivity || (symmetry; assumption))..| |exact Hk]; try (intros He; exact He);
                                  try exact (status_erased _ w)
  end.

(** An attempt to sign with the key: it was the first, and the keys are cleared. *)
Lemma key_attempt w w' : awaitingToken w = false → signed w = [] → (length (signed w') <= 1)%nat →
  awaitingToken w' = false → keyMaterial w' = None → keyPassphrase w' = None →
  erased_at (id session) (terminals w') → key_ok w'.
Proof. intros Ha Hs Hl Ha' Hk Hp He. unfold key_ok. rewrite Ha'. naive_solver. Qed.

Lemma clear_keys_ok w w' : terminals w' = clearSensitiveData (id session) (terminals w) →
  erased_at (id session) (terminals w').
Proof. intros ->. apply clear_erases. Qed.

Lemma key_binary b now w : key_ok w → key_ok (on_binary b now w).
Proof.
  intros Hw. unfold on_binary, with_recorder, registerResizeHandler. cbn [decoder write_screen].
  destruct (decode_piece _ _) as [s d]. cbn [recorder take_frame write_screen]. destruct (recorder w); key_quiet.
Qed.

Lemma key_sign_end w w' : key_ok w → signed w' = signed w → awaitingToken w' = awaitingToken w →
  keyMaterial w' = None → keyPassphrase w' = None → erased_at (id session) (terminals w') → key_ok w'.
Proof. unfold key_ok. intros (H1 & H2 & _) -> -> -> -> He. naive_solver. Qed.

(** A finished attempt, good or bad. *)
Definition keys_gone (w w' : WebTerm) : Prop :=
  signed w' = signed w ∧ awaitingToken w' = awaitingToken w ∧ cancelled w' = cancelled w ∧
  keyMaterial w' = None ∧ keyPassphrase w' = None ∧ erased_at (id session) (terminals w').

Lemma sign_done_gone sg w : keys_gone w (sign_done sg w).
Proof. unfold sign_done, ws_send. case_bool_decide; repeat split; apply clear_erases. Qed.

Lemma sign_failed_gone w : keys_gone w (sign_failed w).
Proof. unfold sign_failed, ws_close. cbn. destruct (ws w) as [[]|]; repeat split; apply clear_erases. Qed.

Lemma keys_gone_ok w w' : key_ok w → keys_gone w w' → key_ok w'.
Proof. intros Hw (A & B & C & D & E & F). by apply (key_sign_end w). Qed.

Lemma key_challenge d w : key_ok w → key_ok (on_challenge d w).
Proof.
  intros Hw. unfold on_challenge. destruct (browserKey p); [key_quiet|].
  destruct (is_truthy (keyMaterial w)) eqn:Et; cbn [negb]; [|done].
  pose proof Hw as (H1 & H2 & H3 & _).
  assert (signed w = []) as Hs.
  { destruct (signed w) eqn:E; [done|]. destruct H3 as [Hk _]; [done|]. by rewrite Hk in Et. }
  assert (awaitingToken w = false) as Ha.
  { destruct (awaitingToken w); [|done]. destruct (H2 eq_refl) as [_ Hk]. by rewrite Hk in Et. }
  set (w0 := sign_log (Buffer_base64 d) w).
  assert (∀ w', keys_gone w0 w' → key_ok w') as Hgone.
  { intros w' (A & B & C & D & E & F). apply (key_attempt w); [done|done| |by rewrite B|done..].
    rewrite A. unfold w0. cbn. rewrite Hs. done. }
  destruct (generateSignature _ _ _); apply Hgone; [apply sign_done_gone|apply sign_failed_gone].
Qed.

Lemma key_text d w : key_ok w → key_ok (on_text d w).
Proof.
  intros Hw. unfold on_text. destruct (parseMessage d) as [[k data]|]; [|destruct (negb (lastError w)); [key_quiet|done]].
  destruct (is_kind SIGNATURE k); [by apply key_challenge|].
  destruct (is_kind ERROR k); [destruct (resolveError _ _ _); key_quiet|].
  destruct (is_kind SESSION k); [unfold with_recorder; destruct (recorder w); [key_quiet|done]|].
  destruct (is_kind REAUTH k); [key_quiet|done].
Qed.

Lemma key_token ok container cols rows w : awaitingToken w = true → key_ok w → key_ok (on_token ok container cols rows w).
Proof.
  intros Ha (H1 & H2 & H3 & H4). destruct (H2 Ha) as [Hs Hk]. unfold on_token. cbn [cancelled set_pending].
  destruct (cancelled w) eqn:Ec; [|destruct ok; [destruct container|]]; unfold key_ok; cbn; rewrite ?Hs, ?Hk, ?Ec; cbn;
    split_and!; try done; naive_solver lia.
Qed.

Lemma key_unmount w : key_ok w → key_ok (unmount w).
Proof.
  intros (H1 & H2 & H3 & H4). unfold unmount, discard, finalizeRecording. cbn.
  destruct (existsb _ _); destruct (recorder w); cbn; unfold key_ok; cbn;
    (split; [done|]; split; [done|]; split; [|intros _; apply clear_erases]);
    intros Hs; destruct (H3 Hs) as (? & ? & ?); (split; [done|]; split; [done|]; apply clear_erases).
Qed.

(** Store actions that do not open the session again. *)
Definition foreign (e : wevent) : Prop := match e with WStore a => id session ∉ opened [a] | _ => True end.

Lemma key_step w e : foreign e → key_ok w → key_ok (wrun1 w e).
Proof.
  intros Hf Hw. unfold wrun1. destruct (possible w e) eqn:Hp; [|done].
  destruct e as [ok ct cols rows| |fresh now|ok|b now|d|sg| | |d|cols rows now| | |a|]; cbn [wstep].
  - by apply key_token.
  - unfold on_open. destruct (cancelled w); [done|]. destruct (default false _); key_quiet.
  - unfold on_recorder. destruct fresh as [[i dir]|]; [cbn [cancelled set_pending]; destruct (cancelled w)|]; key_quiet.
  - unfold with_recorder. destruct (recorder w); [key_quiet|done].
  - by apply key_binary.
  - by apply key_text.
  - unfold on_signed. set (w0 := set_pending _ _ _ w). assert (key_ok w0) as Hw0 by key_quiet.
    destruct sg; apply (keys_gone_ok w0); try done; [apply sign_done_gone|apply sign_failed_gone].
  - unfold on_close, finalizeRecording. cbn [cancelled set_ws]. destruct (cancelled w) eqn:Ec; [key_quiet|].
    cbn. destruct (lastError w); cbn; destruct (recorder w); key_quiet.
  - unfold on_error. destruct (cancelled w) eqn:Ec; [done|]. key_quiet.
  - unfold on_data, ws_send. case_bool_decide; [key_quiet|done].
  - unfold on_resize. destruct (resizeRegistered w); cbn [negb]; [|done]. unfold ws_send, with_recorder.
    case_bool_decide; cbn [recorder add_sent]; destruct (recorder w); try done; key_quiet.
  - key_quiet.
  - key_quiet.
  - apply (key_same w); [reflexivity..| |exact Hw]. by apply trun1_erased.
  - by apply key_unmount.
Qed.

Lemma key_run l w : Forall foreign l → key_ok w → key_ok (wrun w l).
Proof.
  revert w. induction l as [|e l IH]; intros w Hl Hw; [done|]. apply Forall_cons in Hl as [He Hl].
  by apply IH; [|apply key_step].
Qed.

(** ** What is recorded *)

Definition bytes_of (o : output) : option (list N) := match o with Bytes b => Some b | Text _ => None end.

Definition a_recorder (w : WebTerm) : nat := match recorder w with Some _ => 1 | None => 0 end.

(** The lines of a recording whose output events are some texts. *)
Inductive cast_of : list jsstring → list jsstring → Prop :=
  | cast_header now cols rows : cast_of [Recordings.headerLine now cols rows] []
  | cast_output ls ts e t : cast_of ls ts → cast_of (ls ++ [Recordings.outputLine e t]) (ts ++ [t])
  | cast_resize ls ts e cols rows : cast_of ls ts → cast_of (ls ++ [Recordings.resizeLine e cols rows]) ts.

(** A recorder whose writes, done and pending, are the texts it was given. *)
Definition cast_ok (ts : list jsstring) (r : Recordings.Recorder) : Prop :=
  Recordings.r_started r = true ∧
  (Recordings.r_failed r = false → cast_of (Recordings.r_written r ++ Recordings.r_chain r) ts).

Lemma cast_start now cols rows i dir n u us :
  cast_ok [] (Recordings.start now cols rows (Recordings.new_recorder i dir n u us None)).
Proof. split; [done|]. intros _. apply cast_header. Qed.

Lemma cast_event now line ts ts' r :
  (∀ ls e, cast_of ls ts → cast_of (ls ++ [line e]) ts') → cast_ok ts r → cast_ok ts' (Recordings.record_event now line r).
Proof.
  intros Hl [Hs Hc]. unfold Recordings.record_event. rewrite Hs. cbn [negb orb].
  destruct (Recordings.r_failed r) eqn:Ef; split; try done; [congruence|]. intros _. cbn. rewrite app_assoc. by apply Hl, Hc.
Qed.

Lemma cast_chain ok ts r : cast_ok ts r → cast_ok ts (Recordings.chain_step ok r).
Proof.
  intros [Hs Hc]. unfold Recordings.chain_step. destruct (Recordings.r_chain r) as [|x l] eqn:E; [split; by rewrite ?E|]. split; [done|].
  cbn. intros [Hf Ho]%orb_false_iff. destruct ok; [|done]. rewrite <-app_assoc. by apply Hc.
Qed.

Record rec_ok (w : WebTerm) : Prop := {
  k_stream : decode_pieces (frames w) = (decoder w, texts w);
  k_screen : omap bytes_of (screen w) = frames w;
  k_count : created w = (length (finished w) + length (discarded w) + a_recorder w)%nat;
  k_one : (created w + creating w + (if bool_decide (ws w = Some CONNECTING) then 1 else 0)
           + (if awaitingToken w then 1 else 0) <= 1)%nat;
  k_done : finished w ≠ [] → ws w = None ∨ ws w = Some CLOSED;
  k_gone : cancelled w = true → recorder w = None ∧ ws w = None;
}.

Lemma finished_created w : rec_ok w → finished w ≠ [] → created w ≠ 0%nat.
Proof. intros Hw Hf. rewrite (k_count w Hw). destruct (finished w); [done|]. cbn. lia. Qed.

(** A handler that leaves the recorder, the frames and the screen's bytes alone. *)
Lemma rec_same w w' :
  frames w' = frames w → decoder w' = decoder w → texts w' = texts w → omap bytes_of (screen w') = omap bytes_of (screen w) →
  created w' = created w → finished w' = finished w → discarded w' = discarded w →
  recorder w' = recorder w → cancelled w' = cancelled w →
  (creating w' + (if bool_decide (ws w' = Some CONNECTING) then 1 else 0) + (if awaitingToken w' then 1 else 0) <=
   creating w + (if bool_decide (ws w = Some CONNECTING) then 1 else 0) + (if awaitingToken w then 1 else 0))%nat →
  (ws w = None ∨ ws w = Some CLOSED → created w ≠ 0%nat ∨ cancelled w = true → ws w' = ws w ∨ ws w' = None) → rec_ok w → rec_ok w'.
Proof.
  intros E1 E2 E3 E4 E5 E6 E7 E8 E9 Hle Hws Hw. pose proof (finished_created w Hw) as Hfc. destruct Hw as [A B D E G F].
  unfold a_recorder in *. split; unfold a_recorder; rewrite ?E1, ?E2, ?E3, ?E4, ?E5, ?E6, ?E7, ?E8, ?E9; try done; [lia|..].
  - intros Hf. destruct Hws as [->| ->]; auto.
  - intros Hc. destruct (F Hc) as [? ?]. destruct Hws as [->| ->]; auto.
Qed.

Ltac rec_quiet :=
  match goal with
  | Hk : rec_ok ?w |- rec_ok _ =>
      apply (rec_same w); [(reflexivity || (symmetry; assumption))..|cbn; try lia|cbn; auto|exact Hk]
  end.

Lemma omap_text s l : omap bytes_of (l ++ [Text s]) = omap bytes_of l.
Proof. rewrite omap_app. cbn. by rewrite app_nil_r. Qed.

Lemma decode_pieces_snoc ps q : decode_pieces (ps ++ [q]) =
  let '(s, ts) := decode_pieces ps in let '(s', t) := decode_piece q s in (s', ts ++ [t]).
Proof. unfold decode_pieces. rewrite fold_left_app. cbn [fold_left]. by destruct (fold_left _ ps _). Qed.

Lemma rec_binary b now w : rec_ok w → rec_ok (on_binary b now w).
Proof.
  intros [A B D E G F]. unfold on_binary, with_recorder, registerResizeHandler. cbn [decoder write_screen].
  destruct (decode_piece b (decoder w)) as [s d] eqn:Ed. cbn [recorder take_frame write_screen].
  assert (decode_pieces (frames w ++ [b]) = (s, texts w ++ [d])) as A' by (by rewrite decode_pieces_snoc, A, Ed).
  assert (omap bytes_of (screen w ++ [Bytes b]) = frames w ++ [b]) as B' by (by rewrite omap_app, B).
  destruct (recorder w) as [r|] eqn:Er; split; cbn; unfold a_recorder in *; cbn; rewrite ?Er in *; try done.
  intros Hc. by destruct (F Hc).
Qed.

Lemma rec_sign_end w w' : rec_ok w → frames w' = frames w → decoder w' = decoder w → texts w' = texts w →
  omap bytes_of (screen w') = omap bytes_of (screen w) → created w' = created w →
  finished w' = finished w → discarded w' = discarded w → recorder w' = recorder w → cancelled w' = cancelled w →
  creating w' = creating w → awaitingToken w' = awaitingToken w →
  (ws w' = ws w ∨ ws w' = Some CLOSING ∧ ws w ≠ None ∧ ws w ≠ Some CLOSED) → rec_ok w'.
Proof.
  intros Hw E1 E2 E3 E4 E6 E7 E8 E9 E10 E11 E12 Hws. apply (rec_same w); try done.
  - rewrite E11, E12. destruct Hws as [->|[-> _]]; [lia|]. rewrite (bool_decide_false (Some CLOSING = _)) by done. lia.
  - naive_solver.
Qed.

Lemma rec_sign_done sg w : rec_ok w → rec_ok (sign_done sg w).
Proof.
  intros Hw. unfold sign_done, ws_send. case_bool_decide; (apply (rec_sign_end w); [exact Hw|reflexivity..|by left]).
Qed.

Lemma rec_sign_failed w : rec_ok w → rec_ok (sign_failed w).
Proof.
  intros Hw. unfold sign_failed, ws_close. cbn [ws clear_keys on_store set_closure write_screen].
  destruct (ws w) as [[]|] eqn:E;
    (apply (rec_sign_end w); [exact Hw|reflexivity|reflexivity|reflexivity|apply omap_text|reflexivity..|]);
    cbn; rewrite ?E; naive_solver.
Qed.

Lemma rec_recorder f w : rec_ok w → rec_ok (with_recorder f w).
Proof.
  intros Hw. unfold with_recorder. destruct (recorder w) as [r|] eqn:Er; [|exact Hw].
  destruct Hw as [A B D E G F]. split; cbn; unfold a_recorder in *; cbn; rewrite ?Er in *; try done.
  intros Hc. by destruct (F Hc).
Qed.

(** The current recorder becomes finished or discarded, on a socket that is closed. *)
Lemma rec_finalize w : rec_ok w → ws w = None ∨ ws w = Some CLOSED →
  rec_ok (finalizeRecording w) ∧ recorder (finalizeRecording w) = None.
Proof.
  intros Hw Hs. unfold finalizeRecording. destruct (recorder w) as [r|] eqn:Er; [|by split].
  split; [|done]. destruct Hw as [A B D E G F]. split; cbn; unfold a_recorder in *; cbn; rewrite ?Er in *; try done.
  - rewrite length_app. cbn. lia.
  - intros Hc. by destruct (F Hc).
Qed.

Lemma rec_discard w : rec_ok w → rec_ok (discard w) ∧ recorder (discard w) = None.
Proof.
  intros Hw. unfold discard. destruct (recorder w) as [r|] eqn:Er; [|by split].
  split; [|done]. destruct Hw as [A B D E G F]. split; cbn; unfold a_recorder in *; cbn; rewrite ?Er in *; try done.
  - rewrite length_app. cbn. lia.
  - intros Hc. by destruct (F Hc).
Qed.

Lemma rec_challenge d w : rec_ok w → rec_ok (on_challenge d w).
Proof.
  intros Hw. unfold on_challenge. destruct (browserKey p); [rec_quiet|].
  destruct (is_truthy (keyMaterial w)); cbn [negb]; [|done]. set (w0 := sign_log _ w).
  assert (rec_ok w0) by rec_quiet. destruct (generateSignature _ _ _); [by apply rec_sign_done|by apply rec_sign_failed].
Qed.

Lemma rec_text d w : rec_ok w → rec_ok (on_text d w).
Proof.
  intros Hw. unfold on_text. destruct (parseMessage d) as [[k data]|].
  2:{ destruct (negb (lastError w)); [|done]. apply (rec_sign_end w); try done; [apply omap_text|by left]. }
  destruct (is_kind SIGNATURE k); [by apply rec_challenge|].
  destruct (is_kind ERROR k); [destruct (resolveError _ _ _); rec_quiet|].
  destruct (is_kind SESSION k); [by apply rec_recorder|].
  destruct (is_kind REAUTH k); [rec_quiet|done].
Qed.

(** Nothing was created before a recorder is. *)
Lemma none_before w : rec_ok w → creating w ≠ 0%nat →
  created w = 0%nat ∧ recorder w = None ∧ finished w = [] ∧ discarded w = [].
Proof.
  intros [A B D E G F] Hc. assert (created w = 0%nat) as H0 by lia. rewrite H0 in D. unfold a_recorder in D.
  destruct (recorder w), (finished w), (discarded w); cbn in D; try lia; done.
Qed.

Lemma rec_fresh fresh now w : creating w ≠ 0%nat → rec_ok w → rec_ok (on_recorder fresh now w).
Proof.
  intros Hc Hw. destruct (none_before w Hw Hc) as (H0 & Er & Ef & Ed). unfold on_recorder. destruct fresh as [[i dir]|].
  2:{ apply (rec_same w); try done; cbn; [lia|by left]. }
  destruct Hw as [A B D E G F]. cbn [cancelled set_pending]. unfold a_recorder in *. rewrite Er, Ef, Ed in *.
  destruct (cancelled w) eqn:Ec; (split; cbn; unfold a_recorder; cbn; rewrite ?Er, ?Ef, ?Ed; try done; cbn; try lia);
    rewrite Ec; [auto|done].
Qed.

(** [unmount] in an order that keeps the invariant; its parts do not look at each
    other's fields. *)
Lemma unmount_eq w : unmount w =
  let w1 := set_ws None w in
  let w2 := if existsb (is_id (id session)) (sessions (terminals w)) then discard w1 else finalizeRecording w1 in
  on_store (clearSensitiveData (id session)) (set_closure true (lastError w2) (keyMaterial w2) (keyPassphrase w2) w2).
Proof. unfold unmount, discard, finalizeRecording. cbn. by destruct (existsb _ _), (recorder w). Qed.

Lemma rec_unmount w : rec_ok w → rec_ok (unmount w).
Proof.
  intros Hw. rewrite unmount_eq. cbn zeta. set (w1 := set_ws None w).
  assert (rec_ok w1) as Hw1.
  { apply (rec_same w); try done; cbn; [|by right]. rewrite (bool_decide_false (None = _)) by done. lia. }
  assert (∀ w' a b c, rec_ok w' → recorder w' = None → ws w' = None →
    rec_ok (on_store (clearSensitiveData (id session)) (set_closure true a b c w'))) as Hend.
  { intros w' a b c [A B D E G F] Er Es. by split. }
  destruct (existsb _ _); apply Hend.
  - by apply rec_discard.
  - by apply rec_discard.
  - unfold discard. by destruct (recorder w1).
  - apply rec_finalize; [done|by left].
  - apply rec_finalize; [done|by left].
  - unfold finalizeRecording. by destruct (recorder w1).
Qed.

Lemma rec_close w : rec_ok w → ws w ≠ None → ws w ≠ Some CLOSED → rec_ok (on_close w).
Proof.
  intros Hw Hs Hs'. unfold on_close. cbn [cancelled set_ws].
  assert (cancelled w = false) as Ec by (destruct (cancelled w) eqn:Ec; [|done]; by destruct (k_gone w Hw Ec)).
  rewrite Ec. assert (rec_ok (updateStatus disconnected (set_ws (Some CLOSED) w))) as H0.
  { apply (rec_same w); try done; cbn; [|naive_solver]. rewrite (bool_decide_false (Some CLOSED = _)) by done. lia. }
  destruct (negb (lastError _)); apply rec_finalize; try (by right); [|done].
  apply (rec_same (updateStatus disconnected (set_ws (Some CLOSED) w))); auto.
Qed.

Lemma open_live w : rec_ok w → ws w = Some OPEN → cancelled w = false.
Proof. intros Hw E. destruct (cancelled w) eqn:Ec; [|done]. destruct (k_gone w Hw Ec). congruence. Qed.

Lemma rec_step w e : rec_ok w → rec_ok (wrun1 w e).
Proof.
  intros Hw. unfold wrun1. destruct (possible w e) eqn:Hp; [|done].
  destruct e as [ok ct cols rows| |fresh now|ok|b now|d|sg| | |d|cols rows now| | |a|]; cbn [wstep possible] in *.
  - unfold on_token. cbn [cancelled set_pending]. pose proof (k_one w Hw) as Hone. rewrite Hp in Hone.
    destruct (cancelled w) eqn:Ec; [|destruct ok; [destruct ct|]]; cbn [negb]; apply (rec_same w); try done; cbn;
      rewrite ?Hp; try lia; try (by left); [repeat case_bool_decide; lia|]. intros _ [?|?]; [lia|congruence].
  - apply bool_decide_eq_true in Hp. unfold on_open. destruct (cancelled w) eqn:Ec; [done|].
    destruct (default false _); apply (rec_same w); try done; cbn; rewrite ?Hp, ?Ec; try naive_solver;
      rewrite (bool_decide_false (Some OPEN = _)), bool_decide_true by done; lia.
  - apply rec_fresh; [|done]. apply negb_true_iff, Nat.eqb_neq in Hp. done.
  - by apply rec_recorder.
  - by apply rec_binary.
  - by apply rec_text.
  - unfold on_signed. set (w0 := set_pending _ _ _ w). assert (rec_ok w0) by rec_quiet.
    destruct sg; [by apply rec_sign_done|by apply rec_sign_failed].
  - apply andb_true_iff in Hp as [Hp%bool_decide_eq_true Hc%negb_true_iff%bool_decide_eq_false].
    apply rec_close; [done| |done]. by destruct (ws w), Hp.
  - unfold on_error. destruct (cancelled w) eqn:Ec; [done|]. rec_quiet.
  - clear Hp. unfold on_data, ws_send. case_bool_decide; [rec_quiet|done].
  - clear Hp. unfold on_resize. destruct (resizeRegistered w); cbn [negb]; [|done].
    apply rec_recorder. unfold ws_send. case_bool_decide; [rec_quiet|done].
  - rec_quiet.
  - rec_quiet.
  - rec_quiet.
  - by apply rec_unmount.
Qed.

Lemma rec_run l w : rec_ok w → rec_ok (wrun w l).
Proof. revert w. induction l as [|e l IH]; intros w Hw; [done|]. by apply IH, rec_step. Qed.

Lemma rec_connect ts : rec_ok (connect ts).
Proof. by split. Qed.

(** *** The key after the unmount *)

(** Only a message of an open socket has the key sign, and no event undoes an unmount. *)
Lemma signed_step w e : ws w ≠ Some OPEN → signed (wrun1 w e) = signed w ∧ (cancelled w = true → cancelled (wrun1 w e) = true).
Proof.
  intros Hs. unfold wrun1. destruct (possible w e) eqn:Hp; [|done].
  destruct e as [ok ct cols rows| |fresh now|ok|b now|d|sg| | |d|cols rows now| | |a|]; cbn [wstep possible] in *;
    try (by apply bool_decide_eq_true in Hp); clear Hp.
  - unfold on_token. cbn [cancelled set_pending]. by destruct (cancelled w) eqn:Ec, ok, ct.
  - unfold on_open. by destruct (cancelled w) eqn:Ec, (default false (record p)).
  - unfold on_recorder. cbn [cancelled set_pending]. by destruct (cancelled w) eqn:Ec, fresh as [[i dir]|].
  - unfold with_recorder. by destruct (recorder w).
  - unfold on_signed. destruct sg as [b|]; [destruct (sign_done_gone (b64_encode b) (set_pending (awaitingToken w) (creating w) (pred (signing w)) w)) as (-> & _ & -> & _)
      |destruct (sign_failed_gone (set_pending (awaitingToken w) (creating w) (pred (signing w)) w)) as (-> & _ & -> & _)]; done.
  - unfold on_close, finalizeRecording. cbn. destruct (cancelled w) eqn:Ec; [done|]. cbn. destruct (lastError w); cbn; by destruct (recorder w).
  - unfold on_error. by destruct (cancelled w) eqn:Ec.
  - unfold on_data, ws_send. by case_bool_decide.
  - unfold on_resize, ws_send, with_recorder. destruct (resizeRegistered w); [|done]. cbn. case_bool_decide; cbn; by destruct (recorder w).
  - done.
  - done.
  - done.
  - unfold unmount, discard, finalizeRecording. cbn. by destruct (existsb _ _), (recorder w).
Qed.

Lemma signed_after w l : rec_ok w → cancelled w = true → signed (wrun w l) = signed w.
Proof.
  revert w. induction l as [|e l IH]; intros w Hw Hc; [done|]. change (wrun w (e :: l)) with (wrun (wrun1 w e) l).
  destruct (signed_step w e) as [E Hc']; [destruct (k_gone w Hw Hc); congruence|].
  rewrite IH; [done|by apply rec_step|auto].
Qed.

(** C4: However the gateway, the user and the browser interleave, the private key
    of a session signs at most one challenge.  From then on neither the effect's
    closure nor the terminal store holds the private key, its passphrase or the
    password.  Once the terminal is unmounted the store holds none of them either,
    and the key signs nothing more (a closure whose key was never used keeps it). *)
Theorem key_signs_once (ts : TerminalState) (l : list wevent) (Hl : Forall foreign l) :
  let w := wrun (connect ts) l in
  (length (signed w) <= 1)%nat ∧
  (signed w ≠ [] → keyMaterial w = None ∧ keyPassphrase w = None ∧ erased_at (id session) (terminals w)) ∧
  (cancelled w = true → erased_at (id session) (terminals w) ∧ ∀ l', signed (wrun w l') = signed w).
Proof.
  intros w. assert (key_ok w) as (H1 & _ & H3 & H4) by (apply key_run; [done|]; unfold key_ok; cbn; naive_solver lia).
  split; [done|]. split; [done|]. intros Hc. split; [auto|]. intros l'. apply signed_after; [|done].
  apply rec_run, rec_connect.
Qed.

(** *** The texts of each recorder *)

(** A recorder whose file is kept: the current one or a finished one. *)
Definition tapes (w : WebTerm) (r : Recordings.Recorder) : Prop := recorder w = Some r ∨ r ∈ finished w.

(** Each tape goes back to a tape of before, with the texts that came since. *)
Definition carries (w w' : WebTerm) : Prop :=
  (length (texts w) <= length (texts w'))%nat ∧
  ∀ r', tapes w' r' → ∃ r, tapes w r ∧
    ∀ m, (m <= length (texts w))%nat → cast_ok (drop m (texts w)) r → cast_ok (drop m (texts w')) r'.

Lemma carries_same w w' : recorder w' = recorder w → finished w' = finished w → texts w' = texts w → carries w w'.
Proof. unfold carries, tapes. intros -> -> ->. split; [done|]. eauto. Qed.

Lemma carries_trans w1 w2 w3 : carries w1 w2 → carries w2 w3 → carries w1 w3.
Proof.
  intros [L1 H1] [L2 H2]. split; [lia|]. intros r3 (r2 & T2 & C2)%H2. destruct (H1 r2 T2) as (r1 & T1 & C1).
  exists r1. split; [done|]. intros m Hm Hc. apply C2; [lia|]. auto.
Qed.

Lemma carries_recorder f w : (∀ ts r, cast_ok ts r → cast_ok ts (f r)) → carries w (with_recorder f w).
Proof.
  intros Hf. unfold with_recorder. destruct (recorder w) as [r|] eqn:E; [|by apply carries_same].
  split; [done|]. intros r' [[= <-]|Hr]; [exists r; by split; [left|auto]|exists r'; by split; [right|]].
Qed.

Lemma carries_end w w' : texts w' = texts w → recorder w' = None →
  (∀ r, r ∈ finished w' → recorder w = Some r ∨ r ∈ finished w) → carries w w'.
Proof. unfold carries, tapes. intros -> -> Hf. split; [done|]. intros r [?|Hr]; [done|]. exists r. auto. Qed.

Lemma carries_finalize w : carries w (finalizeRecording w).
Proof.
  unfold finalizeRecording. destruct (recorder w) as [r|] eqn:E; [|by apply carries_same].
  apply carries_end; [done..|]. cbn. intros r'. rewrite elem_of_app, list_elem_of_singleton. intros [?| ->]; auto.
Qed.

Lemma carries_discard w : carries w (discard w).
Proof.
  unfold discard. destruct (recorder w) as [r|] eqn:E; [|by apply carries_same].
  apply carries_end; [done..|]. auto.
Qed.

Lemma carries_binary b now w : finished w = [] → carries w (on_binary b now w).
Proof.
  intros Hf. unfold on_binary, with_recorder, registerResizeHandler. cbn [decoder write_screen].
  destruct (decode_piece b (decoder w)) as [s d]. cbn [recorder take_frame write_screen].
  unfold carries, tapes. destruct (recorder w) as [r|] eqn:Er; cbn; rewrite length_app, ?Hf; (split; [lia|]); intros r' [E|E];
    try congruence; try (by apply not_elem_of_nil in E).
  injection E as <-. exists r. split; [by left|]. intros m Hm Hc. rewrite drop_app_le by done.
  eapply cast_event; [|exact Hc]. intros. by apply cast_output.
Qed.

Lemma carries_sign_end sg w : carries w (sign_done sg w) ∧ carries w (sign_failed w).
Proof.
  split; apply carries_same; unfold sign_done, sign_failed, ws_send, ws_close; cbn; try case_bool_decide; try done;
    by destruct (ws w) as [[]|].
Qed.

Lemma carries_text d w : carries w (on_text d w).
Proof.
  unfold on_text. destruct (parseMessage d) as [[k data]|]; [|by destruct (negb (lastError w)); apply carries_same].
  destruct (is_kind SIGNATURE k).
  { unfold on_challenge. destruct (browserKey p); [by apply carries_same|].
    destruct (is_truthy (keyMaterial w)); [|by apply carries_same]. cbn [negb].
    apply (carries_trans _ (sign_log (Buffer_base64 data) w)); [by apply carries_same|].
    destruct (generateSignature _ _ _) as [sg|]; [apply carries_sign_end|by apply (carries_sign_end [])]. }
  destruct (is_kind ERROR k); [by destruct (resolveError _ _ _); apply carries_same|].
  destruct (is_kind SESSION k); [by apply carries_recorder|].
  by destruct (is_kind REAUTH k); apply carries_same.
Qed.

(** The event that starts a recording. *)
Definition starts_recording (w : WebTerm) (e : wevent) : bool :=
  possible w e && negb (cancelled w) && match e with WRecorder (Some _) _ => true | _ => false end.

Lemma carries_step w e : rec_ok w → starts_recording w e = false → carries w (wrun1 w e).
Proof.
  intros Hw. unfold starts_recording, wrun1. destruct (possible w e) eqn:Hp; [|intros _; by apply carries_same].
  destruct e as [ok ct cols rows| |fresh now|ok|b now|d|sg| | |d|cols rows now| | |a|]; cbn [wstep possible andb] in *; intros Hs.
  - unfold on_token. cbn [cancelled set_pending]. destruct (cancelled w), ok, ct; by apply carries_same.
  - unfold on_open. destruct (cancelled w), (default false (record p)); by apply carries_same.
  - unfold on_recorder. cbn [cancelled set_pending]. destruct (cancelled w), fresh as [[i dir]|]; try done; by apply carries_same.
  - apply carries_recorder. intros. by apply cast_chain.
  - apply bool_decide_eq_true in Hp. apply carries_binary. destruct (finished w) eqn:Ef; [done|].
    destruct (k_done w Hw); congruence.
  - apply carries_text.
  - unfold on_signed. apply (carries_trans _ (set_pending (awaitingToken w) (creating w) (pred (signing w)) w)); [by apply carries_same|].
    destruct sg as [bytes|]; [apply carries_sign_end|by apply (carries_sign_end [])].
  - unfold on_close. cbn [cancelled set_ws]. destruct (cancelled w); [by apply carries_same|].
    cbn [lastError updateStatus on_store set_ws].
    destruct (lastError w); cbn [negb]; (eapply carries_trans; [|apply carries_finalize]); by apply carries_same.
  - unfold on_error. by destruct (cancelled w); apply carries_same.
  - clear Hp. unfold on_data, ws_send. by case_bool_decide; apply carries_same.
  - clear Hp. unfold on_resize. destruct (resizeRegistered w); cbn [negb]; [|by apply carries_same].
    eapply carries_trans; [|apply carries_recorder; intros; apply (cast_event _ _ _ _ _ (λ _ _, cast_resize _ _ _ _ _)); done].
    unfold ws_send. by case_bool_decide; apply carries_same.
  - by apply carries_same.
  - by apply carries_same.
  - by apply carries_same.
  - rewrite unmount_eq. cbn zeta. eapply carries_trans; [by apply (carries_same w (set_ws None w))|].
    destruct (existsb _ _).
    + eapply carries_trans; [apply carries_discard|by apply carries_same].
    + eapply carries_trans; [apply carries_finalize|by apply carries_same].
Qed.

(** A recording that starts is the only one, and its file has no text yet. *)
Lemma recording_starts w e : rec_ok w → starts_recording w e = true →
  texts (wrun1 w e) = texts w ∧ ∀ r, tapes (wrun1 w e) r → cast_ok [] r.
Proof.
  intros Hw. unfold starts_recording, wrun1. destruct (possible w e) eqn:Hp; [|done].
  destruct (cancelled w) eqn:Ec; [done|]. destruct e as [| |[[i dir]|] now| | | | | | | | | | | |]; try done. intros _.
  cbn [possible] in Hp. apply negb_true_iff, Nat.eqb_neq in Hp. destruct (none_before w Hw Hp) as (_ & _ & Ef & _).
  cbn [wstep]. unfold on_recorder, tapes. cbn [cancelled set_pending]. rewrite Ec. cbn [texts recorder finished set_recorder set_pending].
  rewrite Ef. split; [done|]. intros r [[= <-]|Hr]; [apply cast_start|by apply not_elem_of_nil in Hr].
Qed.

(** Where each tape began. *)
Lemma tapes_run ts l r : tapes (wrun (connect ts) l) r → ∃ l1 e l2, l = l1 ++ e :: l2 ∧
  let began := wrun (connect ts) l1 in starts_recording began e = true ∧
  (length (texts began) <= length (texts (wrun (connect ts) l)))%nat ∧
  cast_ok (drop (length (texts began)) (texts (wrun (connect ts) l))) r.
Proof.
  revert r. induction l as [|e l IH] using rev_ind; intros r.
  { intros [?|Hr]; [done|]. by apply not_elem_of_nil in Hr. }
  assert (rec_ok (wrun (connect ts) l)) as Hw by apply rec_run, rec_connect.
  assert (wrun (connect ts) (l ++ [e]) = wrun1 (wrun (connect ts) l) e) as -> by (unfold wrun; by rewrite fold_left_app).
  intros Hr.
  destruct (starts_recording (wrun (connect ts) l) e) eqn:Es.
  - destruct (recording_starts _ e Hw Es) as [Et Ht]. exists l, e, []. split; [done|]. cbn zeta.
    rewrite Et, drop_all. auto.
  - destruct (carries_step _ e Hw Es) as [Hl Hc]. destruct (Hc r Hr) as (r0 & T0 & C0).
    destruct (IH r0 T0) as (l1 & e1 & l2 & -> & S1 & L1 & K1). exists l1, e1, (l2 ++ [e]). rewrite <-app_assoc. split; [done|].
    cbn zeta in *. split; [done|]. split; [lia|]. by apply C0.
Qed.

(** The frames the socket delivered in a run. *)
Fixpoint delivered (w : WebTerm) (l : list wevent) : list (list N) :=
  match l with
  | [] => []
  | e :: l => (if possible w e then match e with WBinary b _ => [b] | _ => [] end else []) ++ delivered (wrun1 w e) l
  end.

Lemma frames_step w e : frames (wrun1 w e) = frames w ++ (if possible w e then match e with WBinary b _ => [b] | _ => [] end else []).
Proof.
  unfold wrun1. destruct (possible w e); [|by rewrite app_nil_r]. symmetry.
  destruct e as [ok ct cols rows| |fresh now|ok|b now|d|sg| | |d|cols rows now| | |a|]; cbn [wstep]; rewrite ?app_nil_r; symmetry.
  - unfold on_token. cbn [cancelled set_pending]. by destruct (cancelled w), ok, ct.
  - unfold on_open. by destruct (cancelled w), (default false (record p)).
  - unfold on_recorder. cbn [cancelled set_pending]. by destruct (cancelled w), fresh as [[i dir]|].
  - unfold with_recorder. by destruct (recorder w).
  - unfold on_binary, with_recorder. cbn [decoder write_screen]. destruct (decode_piece b (decoder w)). cbn. by destruct (recorder w).
  - unfold on_text. destruct (parseMessage d) as [[k data]|]; [|by destruct (negb (lastError w))].
    destruct (is_kind SIGNATURE k).
    { unfold on_challenge, sign_done, sign_failed, ws_send, ws_close. destruct (browserKey p); [done|].
      destruct (is_truthy (keyMaterial w)); [|done]. cbn. destruct (generateSignature _ _ _); [by case_bool_decide|].
      by destruct (ws w) as [[]|]. }
    destruct (is_kind ERROR k); [by destruct (resolveError _ _ _)|]. unfold with_recorder.
    destruct (is_kind SESSION k); [by destruct (recorder w)|]. by destruct (is_kind REAUTH k).
  - unfold on_signed, sign_done, sign_failed, ws_send, ws_close. cbn. destruct sg; [by case_bool_decide|]. by destruct (ws w) as [[]|].
  - unfold on_close, finalizeRecording. cbn. destruct (cancelled w); [done|]. cbn. destruct (lastError w); cbn; by destruct (recorder w).
  - unfold on_error. by destruct (cancelled w).
  - unfold on_data, ws_send. by case_bool_decide.
  - unfold on_resize, ws_send, with_recorder. destruct (resizeRegistered w); [|done]. cbn. case_bool_decide; cbn; by destruct (recorder w).
  - done.
  - done.
  - done.
  - unfold unmount, discard, finalizeRecording. cbn. by destruct (existsb _ _), (recorder w).
Qed.

Lemma frames_delivered w l : frames (wrun w l) = frames w ++ delivered w l.
Proof.
  revert w. induction l as [|e l IH]; intros w; cbn [delivered]; [by rewrite app_nil_r|].
  change (wrun w (e :: l)) with (wrun (wrun1 w e) l). by rewrite IH, frames_step, app_assoc.
Qed.

(** C16: However frames, messages and clicks interleave: the screen gets the bytes
    the socket delivered, in the order they came; the texts they decode to, joined
    and with what the decoder still holds, are the decoding of all these bytes,
    characters split between frames included.  Each recorder, the current one and
    the finished ones, began with one event that starts a recording; unless a
    write failed, its file (the lines written and those still to be) is a header
    and, but for resizes, one output line for each text decoded since that event,
    in order.  At most one recorder is created, it is current, finished or
    discarded, exactly once, and none is current once the terminal is unmounted. *)
Theorem terminal_output_recorded (ts : TerminalState) (l : list wevent) :
  let w := wrun (connect ts) l in
  omap bytes_of (screen w) = delivered (connect ts) l ∧
  concat (texts w) ++ flush (dec (decoder w)) = utf8_decode (concat (delivered (connect ts) l)) ∧
  (∀ r, recorder w = Some r ∨ r ∈ finished w → ∃ l1 e l2, l = l1 ++ e :: l2 ∧
     starts_recording (wrun (connect ts) l1) e = true ∧
     (Recordings.r_failed r = false →
      cast_of (Recordings.r_written r ++ Recordings.r_chain r) (drop (length (texts (wrun (connect ts) l1))) (texts w)))) ∧
  created w = (length (finished w) + length (discarded w) + a_recorder w)%nat ∧
  (created w + creating w <= 1)%nat ∧
  (cancelled w = true → recorder w = None).
Proof.
  intros w. pose proof (rec_run l _ (rec_connect ts)) as [A B D E G F]. fold w in A, B, D, E, G, F.
  assert (delivered (connect ts) l = frames w) as -> by (unfold w; by rewrite frames_delivered).
  split; [done|]. split.
  { pose proof (stream_decode (frames w)) as Hd. by rewrite A in Hd. }
  split. { intros r (l1 & e & l2 & El & Hs & _ & _ & Hc)%tapes_run. by exists l1, e, l2. }
  split; [done|]. split; [lia|]. intros Hc. by destruct (F Hc).
Qed.
End Instance_.

(** ** On a concrete session *)

Module Example_.
(** sshpk with one key type, signatures that echo the challenge. *)
#[local] Instance echo_sshpk : Sshpk := {|
  Key := jsstring; Signature := list N;
  parsePrivateKey pem _ := inl pem;
  key_type _ := ed25519; key_size _ := 256; key_curve _ := None;
  key_fingerprint_md5 k := k; key_to_pem k := k;
  key_sign _ _ c := c; sig_to_ssh c := c; sig_to_buffer c := c;
  rsa_sign_pkcs1_sha1 _ c := c;
|}%N.

Definition with_key : TerminalSession :=
  mkSession (js "s1") (mkParams (js "uid") (js "dev") (js "root") [] (Some (js "aa:bb")) (Some (js "PEM")) None None None
    (Some true)) fullscreen connecting.

Definition b64 (s : jsstring) : list N := default [] (b64_decode s).
Definition store : TerminalState := mkTerminalState [with_key] None.
Definition message (k : WsKind) (d : jsstring) : wevent := WText (stringify (frame_json k (JStr d))).

Definition challenged : list wevent :=
  [WToken true true 80 24; WOpen; message SIGNATURE (js "AQID"); message SIGNATURE (js "BAUG")].

Lemma challenged_foreign : Forall (foreign with_key) challenged.
Proof. repeat constructor. Defined.

Lemma key_signs_once_witness :
  signed (wrun b64 true with_key (connect with_key store) challenged) = [[1; 2; 3]%N] ∧
  keyMaterial (wrun b64 true with_key (connect with_key store) challenged) = None.
Proof.
  split; [vm_compute; reflexivity|].
  refine (proj1 (proj1 (proj2 (key_signs_once b64 true with_key store challenged challenged_foreign)) _)).
  vm_compute. discriminate.
Defined.

(** A recording whose session the gateway announces before the recorder is there
    never learns the session: the message is dropped. *)
Definition announced_early : list wevent :=
  [WToken true true 80 24; WOpen; message SESSION (js "sess-1"); WRecorder (Some (js "r1", js "u1")) 0;
   WBinary [104; 105]%N 5; WStore (TClose (js "s1")); WUnmount].

Example session_uid_lost :
  map (λ r, (Recordings.r_count r, Recordings.r_sessionUid r))
    (finished (wrun b64 true with_key (connect with_key store) announced_early)) = [(1%nat, None)].
Proof. vm_compute. reflexivity. Qed.
End Example_.
