(* ===== verification/TerminalTheme.v ===== *)
(** * Appearance settings

    The terminal's theme, font and size (stores/terminalThemeStore.ts), the
    keyboard shortcut for the size (components/terminal/fontSizeShortcut.ts and
    the handler TerminalInstance.tsx installs) and the application's theme
    (stores/themeStore.ts), with what each leaves in localStorage.  The colours of
    a theme are a map from names to values. *)

From S2P Require Import Prelude JsString.

(** ** stores/terminalThemeStore.ts *)

Record TerminalTheme := mkTheme {
  name : jsstring;
  dark : bool;
  preview : jsstring * jsstring;
  colors : gmap jsstring jsstring;
}.

Inductive TerminalFont :=
  | IBMPlexMono | JetBrainsMono | FiraCode | SourceCodePro | UbuntuMono | Inconsolata | Monaco | Menlo | monospace.
Definition font_name (f : TerminalFont) : jsstring :=
  js match f with
     | IBMPlexMono => "IBM Plex Mono" | JetBrainsMono => "JetBrains Mono" | FiraCode => "Fira Code"
     | SourceCodePro => "Source Code Pro" | UbuntuMono => "Ubuntu Mono" | Inconsolata => "Inconsolata"
     | Monaco => "Monaco" | Menlo => "Menlo" | monospace => "monospace"
     end.

Definition MIN_FONT_SIZE : Z := 8.
Definition MAX_FONT_SIZE : Z := 24.
Definition DEFAULT_FONT_SIZE : Z := 14.
Definition clampFontSize (size : Z) : Z := Z.min (Z.max size MIN_FONT_SIZE) MAX_FONT_SIZE.

Definition theme_key : jsstring := js "terminalTheme".
Definition fontFamily_key : jsstring := js "terminalFontFamily".
Definition fontSize_key : jsstring := js "terminalFontSize".

Definition FALLBACK_COLORS : gmap jsstring jsstring :=
  list_to_map (map (λ '(k, v), (js k, js v))
    [("background", "#18191B"); ("foreground", "#E1E4EA"); ("cursor", "#667ACC"); ("cursorAccent", "#18191B");
     ("selectionBackground", "#667ACC40"); ("black", "#1E2127"); ("red", "#ca6169"); ("green", "#82a568");
     ("yellow", "#bf8c5d"); ("blue", "#56a2e1"); ("magenta", "#b07cc8"); ("cyan", "#4e9aa3"); ("white", "#E1E4EA");
     ("brightBlack", "#5C6070"); ("brightRed", "#d9787f"); ("brightGreen", "#99ba82"); ("brightYellow", "#d4a676");
     ("brightBlue", "#72b6ed"); ("brightMagenta", "#c495d6"); ("brightCyan", "#68b2ba"); ("brightWhite", "#f0ede8")]).
Definition FALLBACK_THEME : TerminalTheme :=
  mkTheme (js "ShellHub Dark") true (js "#18191B", js "#667ACC") FALLBACK_COLORS.

(** [selection || rest.selectionBackground], [None] being [undefined]. *)
Definition normalizeColors (raw : gmap jsstring jsstring) : gmap jsstring jsstring :=
  let rest := delete (js "selection") raw in
  let selection := raw !! js "selection" in
  if is_truthy selection then partial_alter (λ _, selection) (js "selectionBackground") rest else rest.

Record State := mkState {
  themes : list TerminalTheme;
  themeName : jsstring;
  theme : TerminalTheme;
  fontFamily : jsstring;
  fontSize : Z;
  fontFamilyWithFallback : jsstring;
  loaded : bool;
  storage : gmap jsstring jsstring;
}.

Definition with_fallback (font : jsstring) : jsstring := js "'" ++ font ++ js "', monospace".

Definition initial_size (saved : option jsstring) : Z :=
  match saved with
  | Some s => if truthy s then match parseInt s with Some n => clampFontSize n | None => DEFAULT_FONT_SIZE end
              else DEFAULT_FONT_SIZE
  | None => DEFAULT_FONT_SIZE
  end.

(** [create((set, get) => ...)]: the store as the page loads it. *)
Definition initial (ls : gmap jsstring jsstring) : State :=
  let font := or_else (ls !! fontFamily_key) (js "IBM Plex Mono") in
  mkState [FALLBACK_THEME] (or_else (ls !! theme_key) (js "ShellHub Dark")) FALLBACK_THEME font
    (initial_size (ls !! fontSize_key)) (with_fallback font) false ls.

Definition find_theme (n : jsstring) (l : list TerminalTheme) : option TerminalTheme :=
  find (λ t, bool_decide (name t = n)) l.

Definition setTheme (n : jsstring) (s : State) : State :=
  match find_theme n (themes s) with
  | Some t => mkState (themes s) n t (fontFamily s) (fontSize s) (fontFamilyWithFallback s) (loaded s) (<[theme_key := n]> (storage s))
  | None => s
  end.
Definition setFontFamily (f : TerminalFont) (s : State) : State :=
  mkState (themes s) (themeName s) (theme s) (font_name f) (fontSize s) (with_fallback (font_name f)) (loaded s)
    (<[fontFamily_key := font_name f]> (storage s)).
Definition setFontSize (size : Z) (s : State) : State :=
  let clamped := clampFontSize size in
  mkState (themes s) (themeName s) (theme s) (fontFamily s) clamped (fontFamilyWithFallback s) (loaded s)
    (<[fontSize_key := Z_to_string clamped]> (storage s)).

(** One line of metadata.json with the colours its file held; [None] when the
    file could not be fetched or parsed. *)
Record Meta := mkMeta { m_name : jsstring; m_dark : bool; m_preview : jsstring * jsstring; m_colors : option (gmap jsstring jsstring) }.
Definition theme_of (m : Meta) : option TerminalTheme :=
  raw ← m_colors m; Some (mkTheme (m_name m) (m_dark m) (m_preview m) (normalizeColors raw)).

(** [loadThemes], in its two halves: the guard before the first fetch, and the
    [set] after the last answer ([None] when the metadata failed). *)
Definition loadThemes_starts (s : State) : bool := negb (loaded s).
Definition themes_loaded (metadata : option (list Meta)) (s : State) : State :=
  match metadata with
  | Some l =>
      let ts := omap theme_of l in
      let current := default FALLBACK_THEME (match find_theme (themeName s) ts with Some t => Some t | None => head ts end) in
      mkState ts (themeName s) current (fontFamily s) (fontSize s) (fontFamilyWithFallback s) true (storage s)
  | None =>
      mkState (themes s) (themeName s) (theme s) (fontFamily s) (fontSize s) (fontFamilyWithFallback s) true (storage s)
  end.

(** ** components/terminal/fontSizeShortcut.ts *)

Inductive FontSizeIntent := increase | decrease | reset.
Definition INTENT_BY_KEY (key : jsstring) : option FontSizeIntent :=
  if bool_decide (key = js "+") || bool_decide (key = js "=") then Some increase
  else if bool_decide (key = js "-") then Some decrease
  else if bool_decide (key = js "0") then Some reset
  else None.

Record KeyboardEvent := mkKey { key : jsstring; altKey : bool; ctrlKey : bool; metaKey : bool; keydown : bool }.
Definition STEP : Z := 1.
Definition nextFontSize (current : Z) (e : KeyboardEvent) : option Z :=
  if altKey e then None
  else if negb (ctrlKey e) && negb (metaKey e) then None
  else match INTENT_BY_KEY (key e) with
       | None => None
       | Some increase => Some (current + STEP)
       | Some decrease => Some (current - STEP)
       | Some reset => Some DEFAULT_FONT_SIZE
       end.

(** [attachCustomKeyEventHandler]: whether xterm still gets the key. *)
Definition on_key (e : KeyboardEvent) (s : State) : State * bool :=
  if negb (keydown e) then (s, true)
  else match nextFontSize (fontSize s) e with
       | None => (s, true)
       | Some next => (setFontSize next s, false)
       end.

(** ** Any use of the settings *)

Inductive event :=
  | SetTheme (n : jsstring)
  | SetFont (f : TerminalFont)
  | SetSize (z : Z)
  | Key (e : KeyboardEvent)
  | Loaded (metadata : option (list Meta)).

Definition step (s : State) (e : event) : State :=
  match e with
  | SetTheme n => setTheme n s
  | SetFont f => setFontFamily f s
  | SetSize z => setFontSize z s
  | Key e => (on_key e s).1
  | Loaded metadata => themes_loaded metadata s
  end.
Definition run (s : State) (es : list event) : State := fold_left step es s.

Lemma clamp_bounds z : MIN_FONT_SIZE <= clampFontSize z <= MAX_FONT_SIZE.
Proof. unfold clampFontSize, MIN_FONT_SIZE, MAX_FONT_SIZE. lia. Qed.

Lemma clamp_id z : MIN_FONT_SIZE <= z <= MAX_FONT_SIZE → clampFontSize z = z.
Proof. unfold clampFontSize. lia. Qed.

Lemma initial_size_bounds o : MIN_FONT_SIZE <= initial_size o <= MAX_FONT_SIZE.
Proof.
  unfold initial_size. destruct o as [s|]; [|done]. destruct (truthy s); [|done].
  destruct (parseInt s); [apply clamp_bounds|done].
Qed.

(** What the page would load now is what it shows. *)
Record inv (s : State) : Prop := {
  inv_size : fontSize s = initial_size (storage s !! fontSize_key);
  inv_font : fontFamily s = or_else (storage s !! fontFamily_key) (js "IBM Plex Mono");
  inv_fallback : fontFamilyWithFallback s = with_fallback (fontFamily s);
  inv_theme : themeName s ≠ [] → themeName s = or_else (storage s !! theme_key) (js "ShellHub Dark");
  inv_shown : find_theme (themeName s) (themes s) = Some (theme s) ∨ find_theme (themeName s) (themes s) = None;
}.

Lemma setFontSize_inv z s : inv s → inv (setFontSize z s).
Proof.
  intros [H1 H2 H3 H4 H5]. split; cbn [setFontSize fontSize fontFamily fontFamilyWithFallback themeName theme themes loaded storage].
  - rewrite lookup_insert_eq. unfold initial_size. rewrite parseInt_Z_to_string, (clamp_id (clampFontSize z)) by apply clamp_bounds.
    pose proof (Z_to_string_nonempty (clampFontSize z)). by destruct (Z_to_string (clampFontSize z)).
  - by rewrite lookup_insert_ne.
  - done.
  - intros Hn. rewrite lookup_insert_ne by done. auto.
  - done.
Qed.

Lemma setFontFamily_inv f s : inv s → inv (setFontFamily f s).
Proof.
  intros [H1 H2 H3 H4 H5]. split; cbn [setFontFamily fontSize fontFamily fontFamilyWithFallback themeName theme themes loaded storage].
  - by rewrite lookup_insert_ne.
  - rewrite lookup_insert_eq. by destruct f.
  - done.
  - intros Hn. rewrite lookup_insert_ne by done. auto.
  - done.
Qed.

Lemma setTheme_inv n s : inv s → inv (setTheme n s).
Proof.
  intros [H1 H2 H3 H4 H5]. unfold setTheme. destruct (find_theme n (themes s)) as [t|] eqn:E; [|by split].
  split; cbn [fontSize fontFamily fontFamilyWithFallback themeName theme themes loaded storage].
  - by rewrite lookup_insert_ne.
  - by rewrite lookup_insert_ne.
  - done.
  - intros Hn. rewrite lookup_insert_eq. by destruct n.
  - by left.
Qed.

Lemma themes_loaded_inv m s : inv s → inv (themes_loaded m s).
Proof.
  intros [H1 H2 H3 H4 H5]. destruct m as [l|];
    split; cbn [themes_loaded fontSize fontFamily fontFamilyWithFallback themeName theme themes loaded storage]; try done.
  destruct (find_theme (themeName s) (omap theme_of l)); [by left|by right].
Qed.

Lemma initial_inv ls : inv (initial ls).
Proof.
  split; try done. cbn [initial themeName themes theme]. unfold find_theme. cbn [find].
  case_bool_decide; [by left|by right].
Qed.

#[export] Hint Resolve setFontSize_inv setFontFamily_inv setTheme_inv themes_loaded_inv initial_inv : core.

Lemma settings_run_inv es s : inv s → inv (run s es).
Proof.
  revert s. induction es as [|e es IH]; intros s Hs; [done|]. apply IH. destruct e as [| | |e|]; cbn [step]; auto.
  unfold on_key. destruct (negb (keydown e)); [done|]. destruct (nextFontSize (fontSize s) e); cbn [fst]; auto.
Qed.

(** However the terminal's appearance is set (the drawer, the keyboard, themes
    arriving late or not at all) and whatever was stored, the size stays between
    8 and 24, reloading the page gives the same size, font and theme name, and the
    theme drawn is the one selected whenever it is among the themes loaded. *)
Theorem appearance_persists (ls : gmap jsstring jsstring) (es : list event) :
  let s := run (initial ls) es in
  8 <= fontSize s <= 24 ∧
  fontSize (initial (storage s)) = fontSize s ∧ fontFamily (initial (storage s)) = fontFamily s ∧
  fontFamilyWithFallback s = with_fallback (fontFamily s) ∧
  (themeName s ≠ [] → themeName (initial (storage s)) = themeName s) ∧
  (∀ t, find_theme (themeName s) (themes s) = Some t → theme s = t).
Proof.
  intros s. assert (inv s) as [H1 H2 H3 H4 H5] by (by apply settings_run_inv). split_and!; try done.
  - rewrite H1. apply initial_size_bounds.
  - rewrite H1. apply initial_size_bounds.
  - intros Hn. by rewrite (H4 Hn).
  - intros t Ht. destruct H5 as [H5|H5]; congruence.
Qed.

(** Plain typing, AltGr and key-up reach the shell; Ctrl or Cmd with +, = or - does not. *)
Lemma shortcut_keys e s : (on_key e s).2 = false ↔
  keydown e = true ∧ altKey e = false ∧ (ctrlKey e = true ∨ metaKey e = true) ∧ is_Some (INTENT_BY_KEY (key e)).
Proof.
  unfold on_key, nextFontSize. destruct (keydown e), (altKey e), (ctrlKey e), (metaKey e); cbn;
    try (split; [done|]; intros (? & ? & [?|?] & ?); done).
  all: destruct (INTENT_BY_KEY (key e)) as [[]|]; cbn; split; try done; [eauto 6 ..|].
  all: intros (_ & _ & _ & [? ?]); done.
Qed.

(** Only the settings drawer loads the themes: after a reload the terminals are
    drawn in the fallback theme, under the name of the one that was chosen. *)
Example saved_theme_not_drawn :
  let light := mkMeta (js "Solarized Light") false (js "#fdf6e3", js "#657b83") (Some {[js "background" := js "#fdf6e3"]}) in
  let before := run (initial ∅) [Loaded (Some [light]); SetTheme (js "Solarized Light")] in
  let after := initial (storage before) in
  name (theme before) = js "Solarized Light" ∧
  themeName after = js "Solarized Light" ∧ name (theme after) = js "ShellHub Dark" ∧
  name (theme (run after [Loaded (Some [light])])) = js "Solarized Light".
Proof. vm_compute. done. Qed.

(** ** stores/themeStore.ts *)
Module App.
Inductive AppTheme := dark | light.
Definition theme_string (t : AppTheme) : jsstring := match t with dark => js "dark" | light => js "light" end.
Definition STORAGE_KEY : jsstring := js "appTheme".

(** [light_class]: whether the document's root has the class [light]. *)
Record Page := mkPage { theme : AppTheme; light_class : bool; storage : gmap jsstring jsstring }.

Definition resolveInitialTheme (ls : gmap jsstring jsstring) : AppTheme :=
  if bool_decide (ls !! STORAGE_KEY = Some (js "light")) then light
  else if bool_decide (ls !! STORAGE_KEY = Some (js "dark")) then dark
  else dark.
Definition applyTheme (t : AppTheme) : bool := match t with light => true | dark => false end.
Definition load (ls : gmap jsstring jsstring) : Page :=
  mkPage (resolveInitialTheme ls) (applyTheme (resolveInitialTheme ls)) ls.
Definition setAppTheme (t : AppTheme) (p : Page) : Page :=
  mkPage t (applyTheme t) (<[STORAGE_KEY := theme_string t]> (storage p)).
Definition toggleTheme (p : Page) : Page := setAppTheme (match theme p with dark => light | light => dark end) p.

Lemma reload_setAppTheme t p : load (storage (setAppTheme t p)) = setAppTheme t p.
Proof.
  unfold load, setAppTheme. cbn [storage]. replace (resolveInitialTheme _) with t; [done|].
  unfold resolveInitialTheme. rewrite lookup_insert_eq. by destruct t.
Qed.

Lemma toggle_twice p : theme (toggleTheme (toggleTheme p)) = theme p.
Proof. by destruct p as [[] ? ?]. Qed.
End App.
