(* ===== verification/Login.v ===== *)
(** * Signing in and where it leads (utils/navigation.ts, pages/Login.tsx, pages/MfaLogin.tsx)

    The redirect of the query string, the pairing code left in localStorage while
    the user signs in, the login page's handler with its lockout countdown, and
    the second-factor page that takes over the redirect.  What the session store
    does with the credentials is Session.v; here its result is an input.

    A URL the code builds with [encodeURIComponent] is a path and the parameters
    it reads back as; a redirect is the string it is. *)

From S2P Require Import Prelude JsString ListParams.

(** ** utils/navigation.ts *)

Notation Storage := (gmap jsstring jsstring).
Definition PENDING_DEVICE_CODE_KEY : jsstring := js "shellhub:pending-device-code".
Definition setPendingDeviceCode (code : jsstring) (ls : Storage) : Storage := <[PENDING_DEVICE_CODE_KEY := code]> ls.
Definition clearPendingDeviceCode (ls : Storage) : Storage := delete PENDING_DEVICE_CODE_KEY ls.
Definition hasPendingDeviceCode (ls : Storage) : bool := bool_decide (is_Some (ls !! PENDING_DEVICE_CODE_KEY)).
Definition consumePendingDeviceCode (ls : Storage) : option jsstring * Storage :=
  let code := ls !! PENDING_DEVICE_CODE_KEY in
  (code, if is_truthy code then clearPendingDeviceCode ls else ls).

Definition DASHBOARD : jsstring := js "/dashboard".

(** The guard of [getSafeRedirect]; [92] is a backslash. *)
Definition is_safe (raw : jsstring) : bool :=
  truthy raw && startsWith raw [47%N] && negb (startsWith raw [47; 47]%N) && negb (startsWith raw [47; 92]%N).
Definition getSafeRedirect (params : URLSearchParams) : jsstring :=
  match sp_get params (js "redirect") with
  | Some raw => if is_safe raw then raw else DASHBOARD
  | None => DASHBOARD
  end.

Inductive target := Raw (url : jsstring) | Path (path : jsstring) (params : URLSearchParams).

Definition accept_device (code : jsstring) : target := Path (js "/accept-device") [(js "code", code)].

Definition resolvePostLoginRedirect (params : URLSearchParams) (ls : Storage) : target * Storage :=
  let redirect := getSafeRedirect params in
  if bool_decide (redirect = DASHBOARD) then
    let '(code, ls) := consumePendingDeviceCode ls in
    (match code with
     | Some c => if truthy c then accept_device c else Raw redirect
     | None => Raw redirect
     end, ls)
  else (Raw redirect, ls).

(** [useCreateNamespace] ends the same way. *)
Definition created_redirect (ls : Storage) : target * Storage :=
  let '(code, ls) := consumePendingDeviceCode ls in
  (match code with Some c => if truthy c then accept_device c else Raw DASHBOARD | None => Raw DASHBOARD end, ls).

(** ** pages/Login.tsx *)

(** What [login] does: a session, or the first factor only ([mfa]); the SDK's error
    with its status and its [x-account-lockout] header; another exception. *)
Inductive login_result :=
  | LoggedIn (mfa : bool)
  | SdkError (status : Z) (lockout : option jsstring)
  | OtherError.

Record Page := mkPage {
  error : option jsstring;
  lockoutEndEpoch : option jsnum;
  at_ : option target;
  ls : Storage;
}.

(** [Number(null)] is 0. *)
Definition lockout_epoch (header : option jsstring) : option jsnum :=
  match (match header with Some h => Number h | None => Dec 0 0 end) with NaN => None | n => Some n end.

Definition WRONG : jsstring :=
  js "Invalid login credentials. Your password is incorrect or this account doesn't exist.".
Definition WAITING : jsstring :=
  js "Your account is waiting for an administrator to approve it. You'll be able to sign in once it's approved.".
Definition LOCKED_OUT : jsstring := js "Too many failed login attempts. Please wait before trying again.".
Definition OUR_END : jsstring := js "Something went wrong on our end. Please try again later.".
Definition SOMETHING : jsstring := js "Something went wrong. Please try again later.".

Definition onSubmit (username : jsstring) (params : URLSearchParams) (r : login_result) (p : Page) : Page :=
  match r with
  | LoggedIn true =>
      let redirect := getSafeRedirect params in
      mkPage None None
        (Some (Path (js "/mfa-login") (if bool_decide (redirect = DASHBOARD) then [] else [(js "redirect", redirect)]))) (ls p)
  | LoggedIn false =>
      let '(t, ls) := resolvePostLoginRedirect params (ls p) in mkPage None None (Some t) ls
  | OtherError => mkPage (Some SOMETHING) None (at_ p) (ls p)
  | SdkError status lockout =>
      if status =? 401 then mkPage (Some WRONG) None (at_ p) (ls p)
      else if status =? 403 then mkPage None None (Some (Path (js "/confirm-account") [(js "username", username)])) (ls p)
      else if status =? 423 then mkPage (Some WAITING) None (at_ p) (ls p)
      else if status =? 429 then mkPage (Some LOCKED_OUT) (lockout_epoch lockout) (at_ p) (ls p)
      else mkPage (Some OUR_END) None (at_ p) (ls p)
  end.

(** pages/MfaLogin.tsx: [handleSubmit] once [loginWithMfa] succeeded. *)
Definition mfa_submit (params : URLSearchParams) (ls : Storage) : target * Storage := resolvePostLoginRedirect params ls.

(** [useLoginCountdown]: one tick at [now] milliseconds, for an epoch in whole
    seconds. *)
Record Countdown := mkCountdown { display : jsstring; expired : bool; epoch : option Z }.
Definition plural (n : Z) (one many : string) : jsstring := Z_to_string n ++ js " " ++ js (if n =? 1 then one else many).
Definition tick (end_ now : Z) : Countdown :=
  let diff := end_ * 1000 - now in
  if diff <=? 0 then mkCountdown [] true (Some end_)
  else if diff <? 60000 then mkCountdown (plural (diff / 1000) "second" "seconds") false (Some end_)
  else mkCountdown (plural (diff / 60000) "minute" "minutes") false (Some end_).
(** What the page shows: nothing of a countdown for another epoch. *)
Definition shown (c : Countdown) (lockout : option Z) : jsstring * bool :=
  if bool_decide (epoch c = lockout) then (display c, expired c) else ([], false).

(** ** Correctness *)

(** A path of this site: a slash, and neither a slash nor a backslash after it. *)
Definition local_path (s : jsstring) : Prop :=
  head s = Some 47%N ∧ s !! 1%nat ≠ Some 47%N ∧ s !! 1%nat ≠ Some 92%N.

Lemma is_safe_local raw : is_safe raw = true ↔ local_path raw.
Proof.
  unfold is_safe, local_path. destruct raw as [|c [|d r]]; [naive_solver|..]; cbn [truthy startsWith head lookup list_lookup].
  - rewrite !andb_false_r, !andb_true_r, andb_true_iff, N.eqb_eq. naive_solver.
  - rewrite !andb_true_r, !andb_true_iff, !negb_true_iff, !andb_false_iff, !N.eqb_eq, !N.eqb_neq. naive_solver.
Qed.

Lemma getSafeRedirect_local params : local_path (getSafeRedirect params).
Proof.
  unfold getSafeRedirect. destruct (sp_get params (js "redirect")) as [raw|]; [|done].
  destruct (is_safe raw) eqn:E; [by apply is_safe_local|done].
Qed.

Lemma redirect_param r : sp_get [(js "redirect", r)] (js "redirect") = Some r.
Proof. unfold sp_get. by rewrite getAll_one, bool_decide_true. Qed.

(** The redirect handed to the second-factor page is the one it reads. *)
Lemma mfa_redirect params : getSafeRedirect
  (if bool_decide (getSafeRedirect params = DASHBOARD) then [] else [(js "redirect", getSafeRedirect params)]) = getSafeRedirect params.
Proof.
  case_bool_decide as E; [by rewrite E|]. unfold getSafeRedirect at 1. rewrite redirect_param.
  by rewrite (proj2 (is_safe_local _) (getSafeRedirect_local params)).
Qed.

(** Where a sign-in ends: a path of this site, or the pairing code that waited. *)
Definition lands (params : URLSearchParams) (s : Storage) (t : target) (s' : Storage) : Prop :=
  (∃ r, t = Raw r ∧ local_path r ∧ s' = s) ∨
  (∃ c, t = accept_device c ∧ s !! PENDING_DEVICE_CODE_KEY = Some c ∧ c ≠ [] ∧ getSafeRedirect params = DASHBOARD ∧
        hasPendingDeviceCode s' = false).

Lemma resolve_lands params s : let '(t, s') := resolvePostLoginRedirect params s in lands params s t s'.
Proof.
  unfold resolvePostLoginRedirect, consumePendingDeviceCode. pose proof (getSafeRedirect_local params) as Hl.
  case_bool_decide as E; [|left; by eexists]. destruct (s !! PENDING_DEVICE_CODE_KEY) as [[|c r]|] eqn:Ec; cbn [is_truthy truthy].
  - left. by eexists.
  - right. exists (c :: r). split_and!; try done. unfold hasPendingDeviceCode, clearPendingDeviceCode.
    apply bool_decide_eq_false. rewrite lookup_delete_eq. by intros [? ?].
  - left. by eexists.
Qed.

(** C19: A sign-in leads, whatever the [redirect] parameter holds, to a path that
    begins with one slash followed by neither a slash nor a backslash, or to the
    pairing code that was waiting, which is then consumed; with a second factor
    asked in between, to the same place; and a failed sign-in goes nowhere but to
    the account confirmation, and shows its error otherwise. *)
Theorem login_destination (username : jsstring) (params : URLSearchParams) (p : Page) (r : login_result) :
  let q := onSubmit username params r p in
  match r with
  | LoggedIn false => ∃ t, at_ q = Some t ∧ lands params (ls p) t (ls q)
  | LoggedIn true => ∃ params', at_ q = Some (Path (js "/mfa-login") params') ∧ ls q = ls p ∧
      mfa_submit params' (ls q) = resolvePostLoginRedirect params (ls p)
  | SdkError status _ => ls q = ls p ∧
      (status = 403 ∧ at_ q = Some (Path (js "/confirm-account") [(js "username", username)]) ∧ error q = None ∨
       status ≠ 403 ∧ at_ q = at_ p ∧ is_Some (error q))
  | OtherError => ls q = ls p ∧ at_ q = at_ p ∧ is_Some (error q)
  end.
Proof.
  destruct r as [[]|status lockout|]; cbn [onSubmit].
  - eexists. split; [done|]. split; [done|]. unfold mfa_submit, resolvePostLoginRedirect. cbn [ls]. by rewrite mfa_redirect.
  - pose proof (resolve_lands params (ls p)) as H. destruct (resolvePostLoginRedirect params (ls p)) as [t s]. by exists t.
  - destruct (Z.eqb_spec status 401) as [->|]; [split; [done|]; right; by eauto|].
    destruct (Z.eqb_spec status 403) as [->|]; [split; [done|]; by left|].
    destruct (status =? 423); [split; [done|]; right; by eauto|].
    destruct (status =? 429); split; try done; right; by eauto.
  - by eauto.
Qed.

(** The countdown never shows an expired lockout as running, nor the reverse. *)
Lemma countdown_exact end_ now : expired (tick end_ now) = true ↔ end_ * 1000 <= now.
Proof.
  unfold tick. destruct (Z.leb_spec (end_ * 1000 - now) 0); [split; [lia|done]|].
  destruct (_ <? 60000); split; (done || lia).
Qed.

(** A URL parser drops tabs and newlines before it reads a URL. *)
Definition url_input (s : jsstring) : jsstring := List.filter (λ c, negb ((c =? 9) || (c =? 10) || (c =? 13))%N) s.

Lemma redirect_stays_local params : (∀ raw, sp_get params (js "redirect") = Some raw → url_input raw = raw) →
  local_path (url_input (getSafeRedirect params)).
Proof.
  intros H. pose proof (getSafeRedirect_local params) as Hl. unfold getSafeRedirect in *.
  destruct (sp_get params (js "redirect")) as [raw|]; [|done]. destruct (is_safe raw); [|done]. by rewrite H.
Qed.

(** With a tab after the slash the guard passes, and the URL is of another host. *)
Example tab_redirect :
  let params := [(js "redirect", [47; 9; 47]%N ++ js "evil.example")] in
  getSafeRedirect params = [47; 9; 47]%N ++ js "evil.example" ∧
  url_input (getSafeRedirect params) = js "//evil.example".
Proof. vm_compute. done. Qed.

(** Without its header a 429 is a lockout that ended in 1970: the next tick says it
    is over. *)
Example lockout_without_header : lockout_epoch None = Some (Dec 0 0) ∧
  shown (tick 0 1700000000000) (Some 0) = ([], true).
Proof. vm_compute. done. Qed.
