(* ===== verification/AcceptDevice.v ===== *)
(** * Claiming a device by its code

    components/devices/AcceptDeviceFlow.tsx (the page /accept-device and the
    dialog), hooks/useDeviceCode.ts, hooks/useAcceptDeviceByCode.ts (the welcome
    wizard) and the messages of utils/deviceErrors.ts.

    A code resolves to a device once (its query never goes stale; a failed one is
    asked again when the code is entered again; that the query library may also ask
    again when the window gets the focus is left out).  The flow is a state machine over
    what the user does and what the server answers, in any order; [requests] is
    what it sent. *)

From S2P Require Import Prelude JsString Login.

(** ** utils/deviceErrors.ts *)

Record Edition := mkEdition { isCloud : bool; isEnterprise : bool }.
Definition FALLBACK : jsstring := js "An error occurred while accepting the device. Please try again.".
Definition LICENSE_402 : jsstring :=
  js "Your instance has reached its device limit. Please update your license to accept more devices or contact the instance administrator.".
Definition BILLING_402 : jsstring :=
  js "Your subscription plan has reached its device limit. Please update your billing plan to accept more devices.".
Definition NAMESPACE_403 : jsstring := js "You do not have permission to accept devices in this namespace.".
Definition RENAME_409 : jsstring :=
  js "A device with this name already exists in the namespace. Please rename the device and try again.".

(** [err]: the status of an SDK error, [None] for anything else. *)
Definition getAcceptDeviceErrorMessage (ed : Edition) (err : option Z) : jsstring :=
  match err with
  | None => FALLBACK
  | Some status =>
      if status =? 402 then if isCloud ed then BILLING_402 else if isEnterprise ed then LICENSE_402 else FALLBACK
      else if status =? 403 then NAMESPACE_403
      else if status =? 409 then RENAME_409
      else FALLBACK
  end.

(** ** The flow *)

(** ResolveDeviceLoginCodeResponse: what the flow reads of it. *)
Record Device := mkDevice {
  pairing : bool;
  accepted : bool;
  tenant_id : option jsstring;
  uid : option jsstring;
  name : option jsstring;
}.

Inductive Branch :=
  | Loading
  | MissingCode
  | Failed
  | Switching
  | Ready (d : Device)
  | PickNamespace (d : Device)
  | AlreadyAccepted (d : Device)
  | Success (d : Device)
  | PairingSuccess (d : Device) (uid tenantId namespace : jsstring).

(** [branch.kind] *)
Definition kind (b : Branch) : nat :=
  match b with
  | Loading => 0 | MissingCode => 1 | Failed => 2 | Switching => 3 | Ready _ => 4 | PickNamespace _ => 5
  | AlreadyAccepted _ => 6 | Success _ => 7 | PairingSuccess _ _ _ _ => 8
  end%nat.

Inductive mutation := idle | pending | settled.
Inductive request :=
  | Accept (code uid tenant : jsstring)
  | Pair (code tenant : jsstring)
  | Switch (tenant code : jsstring).

Record State := mkState {
  inDialog : bool;
  authTenant : jsstring;
  code : jsstring;
  answers : gmap jsstring (option Device);
  actionBranch : option Branch;
  actionError : jsstring;
  selectedTenant : jsstring;
  switchNamespace : mutation;
  storage : gmap jsstring jsstring;
  requests : list request;
}.

(** [useResolveDeviceCode]: [None] while the answer is awaited. *)
Definition query (s : State) : option (option Device) := answers s !! code s.
Definition device (s : State) : option Device := mjoin (query s).

(** [device.tenant_id && device.tenant_id !== authTenant] *)
Definition elsewhere (s : State) (d : Device) : bool :=
  is_truthy (tenant_id d) && negb (bool_decide (tenant_id d = Some (authTenant s))).

Definition branch (s : State) : Branch :=
  match actionBranch s with
  | Some b => b
  | None =>
      if negb (truthy (code s)) then MissingCode
      else match query s with
           | None => Loading
           | Some None => Failed
           | Some (Some d) =>
               if pairing d then PickNamespace d
               else if accepted d then AlreadyAccepted d
               else if elsewhere s d then Switching
               else Ready d
           end
  end.

Definition set_storage (ls : gmap jsstring jsstring) (s : State) : State :=
  mkState (inDialog s) (authTenant s) (code s) (answers s) (actionBranch s) (actionError s) (selectedTenant s) (switchNamespace s) ls (requests s).
Definition set_answers (a : gmap jsstring (option Device)) (s : State) : State :=
  mkState (inDialog s) (authTenant s) (code s) a (actionBranch s) (actionError s) (selectedTenant s) (switchNamespace s) (storage s) (requests s).
Definition set_action (b : option Branch) (s : State) : State :=
  mkState (inDialog s) (authTenant s) (code s) (answers s) b (actionError s) (selectedTenant s) (switchNamespace s) (storage s) (requests s).
Definition setActionError (e : jsstring) (s : State) : State :=
  mkState (inDialog s) (authTenant s) (code s) (answers s) (actionBranch s) e (selectedTenant s) (switchNamespace s) (storage s) (requests s).
Definition setSelectedTenant (t : jsstring) (s : State) : State :=
  mkState (inDialog s) (authTenant s) (code s) (answers s) (actionBranch s) (actionError s) t (switchNamespace s) (storage s) (requests s).
Definition set_switch (m : mutation) (s : State) : State :=
  mkState (inDialog s) (authTenant s) (code s) (answers s) (actionBranch s) (actionError s) (selectedTenant s) m (storage s) (requests s).
Definition set_tenant (t : jsstring) (s : State) : State :=
  mkState (inDialog s) t (code s) (answers s) (actionBranch s) (actionError s) (selectedTenant s) (switchNamespace s) (storage s) (requests s).
Definition send (r : request) (s : State) : State :=
  mkState (inDialog s) (authTenant s) (code s) (answers s) (actionBranch s) (actionError s) (selectedTenant s) (switchNamespace s) (storage s) (requests s ++ [r]).

(** [setCode]: a code whose query had failed is asked again. *)
Definition setCode (c : jsstring) (s : State) : State :=
  let a := match answers s !! c with Some None => delete c (answers s) | _ => answers s end in
  mkState (inDialog s) (authTenant s) c a (actionBranch s) (actionError s) (selectedTenant s) (switchNamespace s) (storage s) (requests s).

Definition finish (b : Branch) (s : State) : State := set_action (Some b) (set_storage (clearPendingDeviceCode (storage s)) s).

(** The effect on [[branch.kind]]; [before] is the kind of the last render. *)
Definition clear_effect (before : option nat) (s : State) : State :=
  if bool_decide (before = Some (kind (branch s))) then s
  else match branch s with
       | Failed | AlreadyAccepted _ => set_storage (clearPendingDeviceCode (storage s)) s
       | _ => s
       end.

(** The effect that switches to the device's namespace. *)
Definition switch_effect (s : State) : State :=
  match device s, actionBranch s, switchNamespace s with
  | Some d, None, idle =>
      if elsewhere s d then set_switch pending (send (Switch (default [] (tenant_id d)) (code s)) s) else s
  | _, _, _ => s
  end.

(** ** What happens *)

Definition handleAccept (s : State) : State :=
  match branch s with
  | Ready d =>
      let s := setActionError [] s in
      match uid d with Some u => if truthy u then send (Accept (code s) u (authTenant s)) s else s | None => s end
  | _ => s
  end.
Definition handleAcceptPairing (s : State) : State :=
  match branch s with
  | PickNamespace d => if truthy (selectedTenant s) then send (Pair (code s) (selectedTenant s)) (setActionError [] s) else s
  | _ => s
  end.

(** [NamespacePicker]'s default: the current namespace, else the first. *)
Definition default_tenant (value : jsstring) (namespaces : list jsstring) (preferred : jsstring) : jsstring :=
  match namespaces with
  | first :: _ => if truthy value then value else if bool_decide (preferred ∈ namespaces) then preferred else first
  | [] => value
  end.

Inductive event :=
  | SubmitCode (c : jsstring)
  | Answer (c : jsstring) (r : option Device)
  | ClickAccept
  | Accepted (d : Device)
  | AcceptFailed (err : option Z)
  | Namespaces (l : list jsstring)
  | PickTenant (t : jsstring)
  | ClickPair
  | Paired (d : Device) (uid tenantId namespace : option jsstring)
  | PairFailed (err : option Z)
  | SwitchDone (tenant : jsstring)
  | SwitchFailed
  | EnterAnother
  | UseDifferent.

Section Flow.
Variable ed : Edition.

Definition handle (s : State) (e : event) : State :=
  match e with
  | SubmitCode c =>
      match branch s with
      | MissingCode => setCode c (if inDialog s then s else set_storage (setPendingDeviceCode c (storage s)) s)
      | _ => s
      end
  | Answer c r => match answers s !! c with None => set_answers (<[c := r]> (answers s)) s | Some _ => s end
  | ClickAccept => handleAccept s
  | Accepted d => finish (Success d) s
  | AcceptFailed err => setActionError (getAcceptDeviceErrorMessage ed err) s
  | Namespaces l =>
      match branch s with PickNamespace _ => setSelectedTenant (default_tenant (selectedTenant s) l (authTenant s)) s | _ => s end
  | PickTenant t => match branch s with PickNamespace _ => setSelectedTenant t s | _ => s end
  | ClickPair => handleAcceptPairing s
  | Paired d u t n => finish (PairingSuccess d (default [] u) (default [] t) (default [] n)) s
  | PairFailed err => setActionError (getAcceptDeviceErrorMessage ed err) s
  | SwitchDone t => match switchNamespace s with pending => set_tenant t (set_switch settled s) | _ => s end
  | SwitchFailed => match switchNamespace s with pending => finish Failed (set_switch settled s) | _ => s end
  | EnterAnother => match branch s with Failed => setCode [] (set_action None s) | _ => s end
  | UseDifferent =>
      match branch s with
      | Ready _ | PickNamespace _ => if inDialog s then setCode [] s else s
      | _ => s
      end
  end.

Definition step (s : State) (e : event) : State :=
  switch_effect (clear_effect (Some (kind (branch s))) (handle s e)).
Definition run (s : State) (es : list event) : State := fold_left step es s.
End Flow.

(** The page at /accept-device?code=c (pages/AcceptDevice.tsx), or the dialog. *)
Definition opened (dialog : bool) (tenant c : jsstring) (ls : gmap jsstring jsstring) : State :=
  let ls := if negb dialog && truthy c then setPendingDeviceCode c ls else ls in
  switch_effect (clear_effect None (mkState dialog tenant c ∅ None [] [] idle ls [])).

(** ** Correctness *)

(** A request is about the device its code resolved to: an acceptance for one that
    waits in the namespace of the session, a pairing for one without a namespace
    and into a chosen one, a switch to the namespace of the device. *)
Definition sound (a : gmap jsstring (option Device)) (r : request) : Prop :=
  match r with
  | Accept c u t => ∃ d, a !! c = Some (Some d) ∧ pairing d = false ∧ accepted d = false ∧ uid d = Some u ∧ u ≠ [] ∧
      (is_truthy (tenant_id d) = true → tenant_id d = Some t)
  | Pair c t => t ≠ [] ∧ ∃ d, a !! c = Some (Some d) ∧ pairing d = true
  | Switch t c => t ≠ [] ∧ ∃ d, a !! c = Some (Some d) ∧ tenant_id d = Some t
  end.

Definition is_switch (r : request) : bool := match r with Switch _ _ => true | _ => false end.
Definition shows_result (b : Branch) : bool :=
  match b with Failed | AlreadyAccepted _ | Success _ | PairingSuccess _ _ _ _ => true | _ => false end.
Definition final (b : Branch) : bool :=
  match b with Failed | Success _ | PairingSuccess _ _ _ _ => true | _ => false end.
Definition clean (s : State) : Prop := storage s !! PENDING_DEVICE_CODE_KEY = None.

Record inv (s : State) : Prop := {
  inv_sound : Forall (sound (answers s)) (requests s);
  inv_clean : shows_result (branch s) = true → clean s;
  inv_action : match actionBranch s with Some b => final b = true | None => True end;
  inv_switch : (length (List.filter is_switch (requests s)) <= match switchNamespace s with idle => 0 | _ => 1 end)%nat;
}.

Lemma sound_mono a a' r : (∀ c d, a !! c = Some (Some d) → a' !! c = Some (Some d)) → sound a r → sound a' r.
Proof. intros H. destruct r; cbn; naive_solver. Qed.

Lemma branch_query s b : actionBranch s = None → branch s = b → shows_result b = true ∨ (∃ d, b = Ready d ∨ b = PickNamespace d) →
  b ≠ Failed → ∃ d, query s = Some (Some d) ∧ (b = Ready d ∧ pairing d = false ∧ accepted d = false ∧ elsewhere s d = false
    ∨ b = PickNamespace d ∧ pairing d = true ∨ b = AlreadyAccepted d).
Proof.
  unfold branch. intros -> E Hb Hf. destruct (negb (truthy (code s))); [subst; naive_solver|].
  destruct (query s) as [[d|]|]; [|subst; naive_solver..]. exists d. split; [done|].
  destruct (pairing d); [naive_solver|]. destruct (accepted d); [naive_solver|]. destruct (elsewhere s d); subst; naive_solver.
Qed.

(** What a handler does to localStorage and to a result already shown. *)
Lemma handle_cases ed s e : inv s → let h := handle ed s e in
  storage h = clearPendingDeviceCode (storage s) ∨
  (storage h = storage s ∧ (actionBranch h = actionBranch s ∨ actionBranch h = None)) ∨
  (branch s = MissingCode ∧ actionBranch h = None).
Proof.
  intros [_ _ Ha _]. destruct e; cbn [handle]; unfold handleAccept, handleAcceptPairing.
  - destruct (branch s) eqn:E; try (right; left; split; [done|by left]). right; right. split; [done|].
    unfold branch in E. destruct (actionBranch s) as [b|] eqn:Eb; [subst b; done|]. by destruct (inDialog s).
  - destruct (answers s !! c); right; left; split; try done; by left.
  - destruct (branch s); try (right; left; split; [done|by left]). cbn. destruct (uid d) as [u|]; [destruct (truthy u)|];
      right; left; split; try done; by left.
  - by left.
  - right; left; split; [done|by left].
  - destruct (branch s); right; left; split; try done; by left.
  - destruct (branch s); right; left; split; try done; by left.
  - destruct (branch s); try (right; left; split; [done|by left]). destruct (truthy (selectedTenant s)); right; left; split; try done; by left.
  - by left.
  - right; left; split; [done|by left].
  - destruct (switchNamespace s); right; left; split; try done; by left.
  - destruct (switchNamespace s); [right; left; split; [done|by left]|by left|right; left; split; [done|by left]].
  - destruct (branch s); right; left; split; try done; try (by left); by right.
  - destruct (branch s); try destruct (inDialog s); right; left; split; try done; by left.
Qed.

Lemma kind_result b b' : kind b = kind b' → shows_result b = shows_result b'.
Proof. by destruct b, b'. Qed.

Lemma clear_branch before s : branch (clear_effect before s) = branch s.
Proof. unfold clear_effect. case_bool_decide; [done|]. by destruct (branch s) eqn:E; rewrite <-?E. Qed.

Lemma switch_branch s : branch (switch_effect s) = branch s ∧ storage (switch_effect s) = storage s.
Proof.
  unfold switch_effect. destruct (device s) as [d|]; [|done]. destruct (actionBranch s); [done|].
  destruct (switchNamespace s); [|done..]. by destruct (elsewhere s d).
Qed.

Lemma cleared s : clearPendingDeviceCode (storage s) !! PENDING_DEVICE_CODE_KEY = None.
Proof. apply lookup_delete_eq. Qed.

(** A result never leaves a code behind for the next sign-in. *)
Lemma step_clean ed s e : inv s → shows_result (branch (step ed s e)) = true → clean (step ed s e).
Proof.
  intros Hi. unfold step, clean. destruct (switch_branch (clear_effect (Some (kind (branch s))) (handle ed s e))) as [-> ->].
  rewrite clear_branch. intros Hr. destruct (handle_cases ed s e Hi) as [Hc|Hc].
  { unfold clear_effect. case_bool_decide; [rewrite Hc; apply cleared|].
    destruct (branch (handle ed s e)); try (rewrite Hc; apply cleared); cbn [set_storage storage]; apply cleared. }
  assert (kind (branch s) = kind (branch (handle ed s e)) → clean (handle ed s e)) as Hsame.
  { intros Hk. rewrite <-(kind_result _ _ Hk) in Hr. destruct Hc as [[Hc _]|[Hc _]]; [|by rewrite Hc in Hr].
    unfold clean. rewrite Hc. by apply (inv_clean s Hi). }
  unfold clear_effect. case_bool_decide as Ek; [apply Hsame; congruence|].
  destruct (branch (handle ed s e)) as [| | | | | | |d|d u t n] eqn:Eb; try done; try apply cleared.
  all: assert (actionBranch (handle ed s e) ≠ None) as Hn by
    (intros Hn; unfold branch in Eb; rewrite Hn in Eb; destruct (negb _); [done|]; destruct (query _) as [[d'|]|]; try done;
     destruct (pairing d'); [done|]; destruct (accepted d'); [done|]; by destruct (elsewhere _ d')).
  all: destruct Hc as [[Hc [Ha|Ha]]|[_ Ha]]; try done.
  all: exfalso; apply Ek; f_equal; f_equal; unfold branch in *; rewrite Ha in Eb; destruct (actionBranch s); [done|congruence].
Qed.

Lemma setCode_mono c s c' d : answers s !! c' = Some (Some d) → answers (setCode c s) !! c' = Some (Some d).
Proof.
  intros H. cbn. destruct (answers s !! c) as [[|]|] eqn:E; try done. rewrite lookup_delete_ne; [done|congruence].
Qed.

Lemma handle_mono ed s e c d : answers s !! c = Some (Some d) → answers (handle ed s e) !! c = Some (Some d).
Proof.
  intros H. destruct e as [c'|c' r| | | | | | | | | | | |]; cbn [handle]; unfold handleAccept, handleAcceptPairing; try done.
  - destruct (branch s); try done. apply setCode_mono. by destruct (inDialog s).
  - destruct (answers s !! c') eqn:E; [done|]. cbn. rewrite lookup_insert_ne; [done|congruence].
  - destruct (branch s); try done. destruct (uid _) as [u|]; [by destruct (truthy u)|done].
  - by destruct (branch s).
  - by destruct (branch s).
  - destruct (branch s); try done. by destruct (truthy _).
  - by destruct (switchNamespace s).
  - by destruct (switchNamespace s).
  - destruct (branch s); try done. by apply setCode_mono.
  - destruct (branch s); try done; destruct (inDialog s); try done; by apply setCode_mono.
Qed.

(** What a handler sends. *)
Lemma handle_requests ed s e : inv s →
  requests (handle ed s e) = requests s ∨
  ∃ r, requests (handle ed s e) = requests s ++ [r] ∧ sound (answers s) r ∧ is_switch r = false.
Proof.
  intros [_ _ Ha _]. destruct e; cbn [handle]; unfold handleAccept, handleAcceptPairing.
  1: destruct (branch s); by try destruct (inDialog s); left.
  1: destruct (answers s !! c); by left.
  2,3,4,5,7,8,9,10: try destruct (branch s); try destruct (switchNamespace s); by left.
  3: destruct (branch s); by left.
  3: destruct (branch s); try destruct (inDialog s); by left.
  - destruct (branch s) as [| | | |d| | | |] eqn:Eb; try (by left). destruct (uid d) as [u|] eqn:Eu; [|by left].
    destruct (truthy u) eqn:Et; [|by left]. right. eexists. split; [done|]. split; [|done].
    assert (actionBranch s = None) as Hn by (unfold branch in Eb; destruct (actionBranch s); [by subst|done]).
    destruct (branch_query s _ Hn Eb) as (d' & Hq & [(E & Hp & Hacc & He)|[[E _]|E]]); [right; by exists d; left|done| |done..].
    injection E as <-. exists d. split_and!; try done; [by destruct u|].
    intros Ht. unfold elsewhere in He. rewrite Ht in He. by apply negb_false_iff, bool_decide_eq_true in He.
  - destruct (branch s) as [| | | | |d| | |] eqn:Eb; try (by left). destruct (truthy (selectedTenant s)) eqn:Et; [|by left].
    right. eexists. split; [done|]. split; [|done].
    assert (actionBranch s = None) as Hn by (unfold branch in Eb; destruct (actionBranch s); [by subst|done]).
    destruct (branch_query s _ Hn Eb) as (d' & Hq & [(E & _)|[[E Hp]|E]]); [right; by exists d; right|done|done| |done].
    injection E as <-. split; [by destruct (selectedTenant s)|]. by exists d.
Qed.

Lemma handle_switch ed s e : switchNamespace (handle ed s e) = switchNamespace s ∨
  switchNamespace s = pending ∧ switchNamespace (handle ed s e) = settled.
Proof.
  destruct e; cbn [handle]; unfold handleAccept, handleAcceptPairing; try (by left).
  - destruct (branch s); by try destruct (inDialog s); left.
  - destruct (answers s !! c); by left.
  - destruct (branch s); try (by left). destruct (uid d) as [u|]; [destruct (truthy u)|]; by left.
  - destruct (branch s); by left.
  - destruct (branch s); by left.
  - destruct (branch s); try (by left). destruct (truthy _); by left.
  - destruct (switchNamespace s) eqn:E; cbn; auto.
  - destruct (switchNamespace s) eqn:E; cbn; auto.
  - destruct (branch s); by left.
  - destruct (branch s); try destruct (inDialog s); by left.
Qed.

Lemma handle_action ed s e : inv s → match actionBranch (handle ed s e) with Some b => final b = true | None => True end.
Proof.
  intros [_ _ Ha _]. destruct e; cbn [handle]; unfold handleAccept, handleAcceptPairing; try done.
  - destruct (branch s); by try destruct (inDialog s).
  - by destruct (answers s !! c).
  - destruct (branch s); try done. destruct (uid d) as [u|]; [by destruct (truthy u)|done].
  - by destruct (branch s).
  - by destruct (branch s).
  - destruct (branch s); try done. by destruct (truthy _).
  - by destruct (switchNamespace s).
  - by destruct (switchNamespace s).
  - by destruct (branch s).
  - destruct (branch s); by try destruct (inDialog s).
Qed.

(** Everything but the last clause of the invariant of a result, which the effects
    restore. *)
Definition pre (s : State) : Prop :=
  Forall (sound (answers s)) (requests s) ∧
  (match actionBranch s with Some b => final b = true | None => True end) ∧
  (length (List.filter is_switch (requests s)) <= match switchNamespace s with idle => 0 | _ => 1 end)%nat.

Lemma handle_pre ed s e : inv s → pre (handle ed s e).
Proof.
  intros Hi. split_and!; [| |].
  - destruct (handle_requests ed s e Hi) as [->|(r & -> & Hr & _)].
    + eapply Forall_impl; [apply (inv_sound s Hi)|]. intros r. apply sound_mono. intros c d. apply handle_mono.
    + apply Forall_app. split; [|apply Forall_singleton].
      * eapply Forall_impl; [apply (inv_sound s Hi)|]. intros q. apply sound_mono. intros c d. apply handle_mono.
      * eapply sound_mono; [|exact Hr]. intros c d. apply handle_mono.
  - by apply handle_action.
  - assert (length (List.filter is_switch (requests (handle ed s e))) = length (List.filter is_switch (requests s))) as ->.
    { destruct (handle_requests ed s e Hi) as [->|(r & -> & _ & Hr)]; [done|]. rewrite List.filter_app. cbn. by rewrite Hr, app_nil_r. }
    pose proof (inv_switch s Hi) as Hs. destruct (handle_switch ed s e) as [->|[E ->]]; [done|]. by rewrite E in Hs.
Qed.

Lemma clear_pre before s : pre s → pre (clear_effect before s).
Proof. intros H. unfold clear_effect. case_bool_decide; [done|]. by destruct (branch s). Qed.

Lemma switch_pre s : pre s → pre (switch_effect s).
Proof.
  intros (H1 & H2 & H3). unfold switch_effect. destruct (device s) as [d|] eqn:Ed; [|done].
  destruct (actionBranch s) eqn:Ea; [by split_and!; rewrite ?Ea|]. destruct (switchNamespace s) eqn:Es; [|by split_and!; rewrite ?Ea, ?Es..].
  destruct (elsewhere s d) eqn:Ee; [|by split_and!; rewrite ?Ea, ?Es].
  unfold pre. cbn [set_switch send requests answers actionBranch switchNamespace]. rewrite Ea. split; [|split; [done|]].
  - apply Forall_app. split; [done|]. apply Forall_singleton. unfold elsewhere in Ee. apply andb_prop in Ee as [Et _].
    destruct (tenant_id d) as [[|c t]|] eqn:Ei; try done. split; [done|]. exists d. split; [|done].
    unfold device, query in Ed. destruct (answers s !! code s) as [[d'|]|]; naive_solver.
  - rewrite List.filter_app, length_app. cbn. lia.
Qed.

Lemma flow_step_inv ed s e : inv s → inv (step ed s e).
Proof.
  intros Hi. destruct (switch_pre _ (clear_pre (Some (kind (branch s))) _ (handle_pre ed s e Hi))) as (H1 & H2 & H3).
  split; [exact H1| |exact H2|exact H3]. by apply step_clean.
Qed.

Lemma opened_inv dialog tenant c ls : inv (opened dialog tenant c ls).
Proof.
  unfold opened. set (s := mkState _ _ _ _ _ _ _ _ _ _).
  assert (branch s = MissingCode ∨ branch s = Loading) as Hb by (unfold branch; cbn; destruct (truthy c); auto).
  assert (pre s) as Hp by (split_and!; [constructor|done|cbn; lia]).
  destruct (switch_pre _ (clear_pre None s Hp)) as (H1 & H2 & H3). split; [exact H1| |exact H2|exact H3].
  intros Hr. exfalso. destruct (switch_branch (clear_effect None s)) as [E _]. rewrite E, clear_branch in Hr. by destruct Hb as [Hb|Hb]; rewrite Hb in Hr.
Qed.

Lemma flow_run_inv ed s es : inv s → inv (run ed s es).
Proof. revert s. induction es as [|e es IH]; intros s Hs; [done|]. apply IH. by apply flow_step_inv. Qed.

(** C8: Whatever the user does and however the answers interleave, the flow accepts
    only a pending device its code resolved to, in the namespace of the session;
    pairs only a device without one, into a chosen namespace; switches namespaces
    at most once, to the device's own; and no screen that shows a result leaves a
    pairing code waiting for the next sign-in. *)
Theorem claim_requests_sound (ed : Edition) (dialog : bool) (tenant c : jsstring) (ls : gmap jsstring jsstring) (es : list event) :
  let s := run ed (opened dialog tenant c ls) es in
  Forall (sound (answers s)) (requests s) ∧
  (length (List.filter is_switch (requests s)) <= 1)%nat ∧
  (shows_result (branch s) = true → hasPendingDeviceCode (storage s) = false).
Proof.
  intros s. assert (inv s) as [H1 H2 _ H4] by (apply flow_run_inv, opened_inv). split; [done|]. split.
  - destruct (switchNamespace s); lia.
  - intros Hr. apply bool_decide_eq_false. rewrite (H2 Hr). by intros [? ?].
Qed.

(** ** hooks/useAcceptDeviceByCode.ts *)

(** What the wizard answers and sends, for what the server answers: [resolve] and
    [accept] are [inl] of the status of an SDK error, or [inr] of the data. *)
Definition CANNOT : jsstring := js "That code can't be used here. Open the link the agent printed.".
Definition EXPIRED : jsstring := js "That code is invalid or has expired. Double-check it and try again.".
Definition by_code_error (ed : Edition) (err : option Z) : jsstring :=
  if bool_decide (err = Some 404) then EXPIRED else getAcceptDeviceErrorMessage ed err.

Definition submit (ed : Edition) (authTenant : option jsstring) (code : jsstring)
    (resolve : option Z + Device) (accept : option Z + option jsstring) : (jsstring + jsstring * jsstring) * list request :=
  match resolve with
  | inl err => (inl (by_code_error ed err), [])
  | inr d =>
      let n := default [] (name d) in
      if pairing d then
        (match accept with inl err => inl (by_code_error ed err) | inr u => inr (default [] u, n) end,
         [Pair code (default [] authTenant)])
      else match uid d with
           | Some u =>
               if truthy u then
                 (match accept with inl err => inl (by_code_error ed err) | inr _ => inr (u, n) end,
                  [Accept code u (default [] authTenant)])
               else (inl CANNOT, [])
           | None => (inl CANNOT, [])
           end
  end.

(** ** Runs *)
Module Runs.
Definition ed : Edition := mkEdition true false.
Definition away (t u : string) : Device := mkDevice false false (Some (js t)) (Some (js u)) (Some (js "gateway")).
Definition here_ (u : string) : Device := mkDevice false false (Some (js "mine")) (Some (js u)) (Some (js "gateway")).

(** After one failed switch the mutation is no longer idle: the code of another
    device elsewhere waits at "Switching namespace..." and nothing is sent. *)
Example second_switch_stuck :
  let s := run ed (opened false (js "mine") (js "AAAA") ∅)
    [Answer (js "AAAA") (Some (away "other" "u1")); SwitchFailed; EnterAnother; SubmitCode (js "BBBB");
     Answer (js "BBBB") (Some (away "third" "u2"))] in
  branch s = Switching ∧ switchNamespace s = settled ∧ requests s = [Switch (js "other") (js "AAAA")].
Proof. vm_compute. done. Qed.

(** In the dialog the error of one device is still shown for the next. *)
Example error_of_another_device :
  let s := run ed (opened true (js "mine") (js "AAAA") ∅)
    [Answer (js "AAAA") (Some (here_ "u1")); ClickAccept; AcceptFailed (Some 409); UseDifferent; SubmitCode (js "BBBB");
     Answer (js "BBBB") (Some (here_ "u2"))] in
  branch s = Ready (here_ "u2") ∧ actionError s = RENAME_409.
Proof. vm_compute. done. Qed.
End Runs.
