(* ===== verification/Routes.v ===== *)
(** * Routes and their guards (App.tsx, components/common/*Guard.tsx)

    The tree of routes as data, the guards as functions of what they read (the
    configuration, the stores of [Connectivity] and [AuthTypes], the answers of
    three queries), and [visit]: what a path shows.  A guard either lets the outlet
    through, shows something of its own, or redirects.

    React Router is a parameter: [match_routes] picks a branch for a path among the
    patterns of the tree, with two laws, that a tree with "*" always matches and
    that a pattern without parameters wins on its own path.

    The navigation of the two sidebars and of the command palette is compared with
    the routes.  Module [Config] is env.ts, module [License] utils/license.ts. *)

From S2P Require Import Prelude JsString.
From S2P Require Connectivity AuthTypes CommandPalette Recordings.

(** ** env.ts *)

Inductive Edition := community | enterprise | cloud.
#[export] Instance Edition_eq_dec : EqDecision Edition.
Proof. solve_decision. Defined.

Record ClientConfig := mkConfig {
  version : jsstring;
  edition : Edition;
  announcements : bool;
  webEndpoints : bool;
  onboardingUrl : jsstring;
  stripePublishableKey : jsstring;
  chatwootWebsiteToken : jsstring;
  chatwootBaseUrl : jsstring;
}.

Definition defaultConfig : ClientConfig := mkConfig [] community false false [] [] [] [].

Definition isCommunity (c : ClientConfig) : bool := bool_decide (edition c = community).
Definition isEnterprise (c : ClientConfig) : bool := bool_decide (edition c = enterprise).
Definition isCloud (c : ClientConfig) : bool := bool_decide (edition c = cloud).
Definition isEnterpriseOrCloud (c : ClientConfig) : bool := bool_decide (edition c ≠ community).

Module Config.
(** What config.json holds: any of the fields. *)
Record Partial := mkPartial {
  p_version : option jsstring;
  p_edition : option Edition;
  p_announcements : option bool;
  p_webEndpoints : option bool;
  p_onboardingUrl : option jsstring;
  p_stripePublishableKey : option jsstring;
  p_chatwootWebsiteToken : option jsstring;
  p_chatwootBaseUrl : option jsstring;
}.
Definition spread (d : ClientConfig) (p : Partial) : ClientConfig :=
  mkConfig (nullish (p_version p) (version d)) (nullish (p_edition p) (edition d))
    (nullish (p_announcements p) (announcements d)) (nullish (p_webEndpoints p) (webEndpoints d))
    (nullish (p_onboardingUrl p) (onboardingUrl d)) (nullish (p_stripePublishableKey p) (stripePublishableKey d))
    (nullish (p_chatwootWebsiteToken p) (chatwootWebsiteToken d)) (nullish (p_chatwootBaseUrl p) (chatwootBaseUrl d)).

(** The module's variables; [None] in [cached] is [defaultConfig] itself.
    [fetches] counts the requests made, [waiting] the callers of [inflight]. *)
Record Loader := mkLoader { cached : option ClientConfig; inflight : bool; waiting : nat; fetches : nat }.
Definition new_loader : Loader := mkLoader None false 0 0.
Definition getConfig (l : Loader) : ClientConfig := nullish (cached l) defaultConfig.

(** [Some c]: resolved at once; [None]: waits for the request. *)
Definition loadConfig (l : Loader) : Loader * option ClientConfig :=
  match cached l with
  | Some c => (l, Some c)
  | None =>
      if inflight l then (mkLoader None true (S (waiting l)) (fetches l), None)
      else (mkLoader None true 1 (S (fetches l)), None)
  end.
(** The request ended: its JSON, or [None] when it or its parse failed. *)
Definition settled (answer : option Partial) (l : Loader) : Loader :=
  if inflight l then
    mkLoader (match answer with Some p => Some (spread defaultConfig p) | None => cached l end) false 0 (fetches l)
  else l.

Inductive event := Load | Settle (answer : option Partial).
Definition step (l : Loader) (e : event) : Loader :=
  match e with Load => (loadConfig l).1 | Settle a => settled a l end.
Definition run (es : list event) : Loader := fold_left step es new_loader.

Definition loader_ok (l : Loader) : Prop :=
  (is_Some (cached l) → inflight l = false) ∧ (inflight l = true ↔ (0 < waiting l)%nat).

Lemma run_ok es : loader_ok (run es).
Proof.
  unfold run. assert (loader_ok new_loader) as H by (split; [done|simpl; split; [done|lia]]). revert H.
  generalize new_loader. induction es as [|e es IH]; intros l H; [done|]. cbn [fold_left]. apply IH. clear IH.
  destruct l as [[c|] [|] w f], H as [A B]; cbn in *; destruct e as [|[p|]]; cbn; split; cbn; try done; try naive_solver lia.
Qed.

(** One request serves every caller until it ends; once the file was read it is
    not asked for again, and a failure is asked again by the next caller. *)
Lemma config_loaded_once es l : run es = l →
  (∀ c, cached l = Some c → ∀ es', cached (fold_left step es' l) = Some c ∧ fetches (fold_left step es' l) = fetches l) ∧
  (inflight l = true → ∀ n, fetches (fold_left step (replicate n Load) l) = fetches l) ∧
  (inflight l = false → cached l = None → fetches (step l Load) = S (fetches l) ∧ inflight (step l Load) = true).
Proof.
  intros <-. destruct (run_ok es) as [H1 H2]. generalize dependent (run es). intros l H1 H2. split_and!.
  - intros c Hc es'. revert l H1 H2 Hc. induction es' as [|e es' IH]; intros l H1 H2 Hc; [done|]. cbn [fold_left].
    assert (step l e = l) as ->.
    { destruct e as [|a]; unfold step, loadConfig, settled; rewrite Hc; [done|]. by rewrite H1 by eauto. }
    by apply IH.
  - intros Hf n. clear H2. revert l H1 Hf. induction n as [|n IH]; intros l H1 Hf; [done|]. cbn [replicate fold_left].
    destruct (cached l) eqn:Ec; [rewrite H1 in Hf by eauto; done|].
    assert (step l Load = mkLoader None true (S (waiting l)) (fetches l)) as -> by (unfold step, loadConfig; by rewrite Ec, Hf).
    rewrite IH; [done|by intros [? ?]|done].
  - intros Hf Hc. unfold step, loadConfig. by rewrite Hc, Hf.
Qed.
End Config.

(** ** Queries *)

(** What a component reads of a TanStack query.  A query that was never enabled
    has made no request: it is neither loading nor failed and has no data. *)
Record Query (A : Type) := mkQuery { isLoading : bool; isError : bool; data : option A }.
Arguments mkQuery {A}.
Arguments isLoading {A}.
Arguments isError {A}.
Arguments data {A}.
Definition useQuery {A} (enabled : bool) (q : Query A) : Query A := if enabled then q else mkQuery false false None.

(** A license as the server answers: without [grace_period] it is no installed
    license; a 400 is [None], no license stored. *)
Record LicenseData := mkLicense { expired : bool; about_to_expire : bool; grace_period : option bool }.

Module License.
Definition formatDeviceCount (value : Z) : jsstring := if value =? -1 then js "Unlimited" else Z_to_string value.
Definition formatRegions (regions : list jsstring) : jsstring :=
  match regions with [] => js "Global" | _ => join (js ", ") regions end.

Definition validateLicenseFile (unicode_lower : N → jsstring) (name : jsstring) (size : Z) : option jsstring :=
  if negb (endsWith (Recordings.toLowerCase unicode_lower name) (js ".dat")) then Some (js "Only .dat files are allowed")
  else if 32 * 1024 <=? size then Some (js "File must be smaller than 32 KB")
  else None.

Inductive Variant_ := info | warning | failure.
Definition getLicenseAlertConfig (license : option LicenseData) : option (Variant_ * jsstring) :=
  match license with
  | None => Some (info, js "You do not have an installed license")
  | Some l =>
      let grace := nullish (grace_period l) false in
      if expired l && negb grace then Some (failure, js "Your license has expired!")
      else if expired l && grace
      then Some (warning, js "Your license has expired, but you are still within the grace period.")
      else if about_to_expire l then Some (info, js "Your license is about to expire!")
      else None
  end.

(** Nothing is said exactly about a license that is installed and good for a
    while, and an expiry never passes for a notice. *)
Lemma alert_exact license :
  (getLicenseAlertConfig license = None ↔ ∃ l, license = Some l ∧ expired l = false ∧ about_to_expire l = false) ∧
  (∀ l, license = Some l → expired l = true →
     ∃ v m, getLicenseAlertConfig license = Some (v, m) ∧ v = if nullish (grace_period l) false then warning else failure).
Proof.
  destruct license as [[[|] [|] [[|]|]]|]; cbn; split; try naive_solver; intros l H He; simplify_eq; cbn in *; try done; eauto.
Qed.
End License.

(** ** hooks/useAdminLicense.ts *)

(** What the query's function makes of the reply: [inl] the data, [inr] the
    status of an SDK error ([None] for another one). *)
Definition license_answer (r : LicenseData + option Z) : res (option LicenseData) :=
  match r with
  | inl l => Ok (Some l)
  | inr (Some 400) => Ok None
  | inr _ => Throw (Error (js "license"))
  end.

Definition installedLicense (q : Query (option LicenseData)) : option LicenseData :=
  match data q with
  | Some (Some l) => match grace_period l with Some _ => Some l | None => None end
  | _ => None
  end.

(** [isLoading], [isError] and [isExpired]. *)
Definition useAdminLicense (isAdmin isCloud : bool) (q : Query (option LicenseData)) : bool * bool * bool :=
  let enabled := isAdmin && negb isCloud in
  let q := useQuery enabled q in
  (isLoading q, isError q,
   enabled && negb (isLoading q) && match installedLicense q with None => true | Some l => expired l end).

(** ** What the guards read *)

Record Env := mkEnv {
  config : ClientConfig;
  conn : Connectivity.Connectivity;
  auth : AuthTypes.AuthState;
  setupLoading : bool;                      (* the state of SetupGuard *)
  setupDone : bool;
  license : Query (option LicenseData);
  namespaces : Query nat;                   (* how many *)
  accessMode : Query (option jsstring);     (* settings.ssh_access_mode of the tenant's namespace *)
}.

Definition authed (e : Env) : bool := is_truthy (AuthTypes.token (auth e)).
Definition isIdentityMode (e : Env) : bool :=
  match data (useQuery (is_truthy (AuthTypes.tenant (auth e))) (accessMode e)) with
  | Some (Some m) => bool_decide (m = js "identity")
  | _ => false
  end.

(** The two states of [SetupGuard]: before and after [getInfo] ([None] failed). *)
Definition setup_initial (c : ClientConfig) : bool * bool := (negb (isCloud c), true).
Definition setup_answered (r : option bool) : bool * bool := (false, nullish r true).

(** ** The guards *)

Inductive screen :=
  | Spinner (label : jsstring)
  | ApiUnavailable
  | FetchError (message : jsstring)
  | CreateNamespace
  | Premium (feature : jsstring)
  | Content (pages : list string).
Inductive outcome := Shows (s : screen) | Redirect (to : jsstring).

Inductive guard :=
  | ConnectivityGuard | SetupGuard | LoginLayout | SignUpGuard | ProtectedRoute | AdminLayout | AdminRoute
  | LicenseGuard | NamespaceGuard | AppLayout | LegacyAccessGuard.
#[export] Instance guard_eq_dec : EqDecision guard.
Proof. solve_decision. Defined.

Definition setup_guard (e : Env) (path : jsstring) : option outcome :=
  let isSetupPage := bool_decide (path = js "/setup") in
  if setupLoading e && negb (authed e) then Some (Shows (Spinner (js "Loading...")))
  else if negb (setupDone e) && negb (authed e) && negb isSetupPage then Some (Redirect (js "/setup"))
  else if setupDone e && isSetupPage then Some (Redirect (js "/login"))
  else None.

Definition namespace_guard (e : Env) (path : jsstring) : option outcome :=
  if isError (namespaces e) && negb (isLoading (namespaces e)) then
    Some (Shows (FetchError (js (if negb (Connectivity.apiReachable (conn e)) then "Unable to reach the API"
                                 else "Failed to load namespaces"))))
  else if isLoading (namespaces e) then Some (Shows (Spinner (js "Loading…")))
  else if bool_decide (nullish (data (namespaces e)) 0%nat = 0%nat) && negb (bool_decide (path = js "/profile"))
  then Some (Shows CreateNamespace)
  else None.

Definition license_guard (e : Env) : option outcome :=
  let '(loading, failed, isExpired) := useAdminLicense (AuthTypes.isAdmin (auth e)) (isCloud (config e)) (license e) in
  if loading then Some (Shows (Spinner (js "Checking license...")))
  else if failed || isExpired then Some (Redirect (js "/admin/license"))
  else None.

(** [None]: the outlet.  The layouts always show it. *)
Definition pass (e : Env) (path : jsstring) (g : guard) : option outcome :=
  match g with
  | ConnectivityGuard =>
      if negb (Connectivity.initialCheckDone (conn e)) then Some (Shows (Spinner (js "Connecting…")))
      else if negb (Connectivity.initialGatePassed (conn e)) then Some (Shows ApiUnavailable)
      else None
  | SetupGuard => setup_guard e path
  | SignUpGuard => if negb (isCloud (config e)) then Some (Redirect (js "/login")) else None
  | ProtectedRoute => if negb (authed e) then Some (Redirect (js "/login")) else None
  | AdminRoute => if negb (AuthTypes.isAdmin (auth e)) then Some (Redirect (js "/admin/unauthorized")) else None
  | LicenseGuard => license_guard e
  | NamespaceGuard => namespace_guard e path
  | LegacyAccessGuard => if isIdentityMode e then Some (Redirect (js "/access-policies")) else None
  | LoginLayout | AdminLayout | AppLayout => None
  end.

(** ** The tree (App.tsx) *)

Inductive element := Guard (g : guard) | Page (name : string) | Navigate (to : jsstring) | FeatureGate (feature name : string).
#[export] Instance element_eq_dec : EqDecision element.
Proof. solve_decision. Defined.
Inductive route := Route (path : option string) (e : element) (children : list route).

Definition layout (g : guard) (children : list route) : route := Route None (Guard g) children.
Definition page (path name : string) : route := Route (Some path) (Page name) [].

Definition login_routes (c : ClientConfig) : list route :=
  [page "/login" "Login"; page "/mfa-login" "MfaLogin"; page "/mfa-recover" "MfaRecover";
   page "/mfa-reset-request" "MfaResetRequest"; page "/mfa-reset-verify" "MfaResetVerify";
   page "/reset-mfa" "MfaResetComplete"; page "/setup" "Setup";
   layout SignUpGuard [page "/sign-up" "SignUp"; page "/confirm-account" "ConfirmAccount";
                       page "/validation-account" "ValidationAccount"];
   page "/accept-device" "AcceptDevice"]
  ++ (if isCloud c then [page "/forgot-password" "ForgotPassword"; page "/update-password" "UpdatePassword"] else [])
  ++ [page "/accept-invite" "AcceptInvite"].

Definition announcement_routes : list route :=
  [page "/admin/announcements" "AdminAnnouncements"; page "/admin/announcements/new" "NewAnnouncement";
   page "/admin/announcements/:uuid" "AdminAnnouncementDetails"; page "/admin/announcements/:uuid/edit" "EditAnnouncement"].

Definition licensed_routes (c : ClientConfig) : list route :=
  [Route (Some "/admin") (Navigate (js "/admin/dashboard")) [];
   page "/admin/dashboard" "AdminDashboard"; page "/admin/users" "AdminUsers"; page "/admin/users/:id" "AdminUserDetails";
   page "/admin/namespaces" "AdminNamespaces"; page "/admin/namespaces/:id" "AdminNamespaceDetails";
   page "/admin/devices" "AdminDevices"; page "/admin/devices/:uid" "AdminDeviceDetails";
   page "/admin/firewall-rules" "AdminFirewallRules"; page "/admin/firewall-rules/:id" "AdminFirewallRuleDetails"]
  ++ (if announcements c then announcement_routes else [])
  ++ [page "/admin/sessions" "AdminSessions"; page "/admin/sessions/:uid" "AdminSessionDetails";
      page "/admin/settings/authentication" "AdminAuthentication"].

Definition admin_routes (c : ClientConfig) : list route :=
  [page "/admin/unauthorized" "AdminUnauthorized";
   layout AdminRoute
     [Route (Some "/admin/license") (if isCloud c then Navigate (js "/admin/dashboard") else Page "AdminLicense") [];
      layout LicenseGuard (licensed_routes c)]].

Definition legacy_routes : list route :=
  [page "/sshkeys/public-keys" "PublicKeys"; page "/secure-vault" "SecureVault";
   Route (Some "/firewall-rules") (FeatureGate "Firewall Rules" "FirewallRules") []].

Definition console_routes (c : ClientConfig) : list route :=
  [Route (Some "/") (Navigate (js "/dashboard")) [];
   page "/dashboard" "Dashboard"; page "/devices" "Devices"; page "/devices/add" "AddDevice";
   page "/devices/:uid" "DeviceDetails"; page "/containers" "Containers"; page "/containers/:uid" "ContainerDetails";
   page "/sessions" "Sessions"; page "/sessions/:uid" "SessionDetails"; page "/access-policies" "AccessPolicies";
   Route (Some "/ssh-identities") (Page "SSHIdentities")
     [page "new/:code" "SSHApproval"; page "confirm/:code" "SSHApproval"];
   layout LegacyAccessGuard legacy_routes]
  ++ (if webEndpoints c then [Route (Some "/web-endpoints") (FeatureGate "Web Endpoints" "WebEndpoints") []] else [])
  ++ [page "/team" "Team"; page "/install-keys" "InstallKeys"; page "/install-keys/:id/activity" "InstallKeyHistory";
      page "/settings" "Settings"; page "/settings/banner" "BannerEdit";
      Route (Some "/settings/billing") (Navigate (js "/settings#billing")) []; page "/profile" "Profile"].

Definition routes (c : ClientConfig) : list route :=
  [page "/sso-reauth" "SsoReauthComplete";
   layout ConnectivityGuard
     [layout SetupGuard
        [layout LoginLayout (login_routes c);
         layout ProtectedRoute
           [layout AdminLayout (admin_routes c);
            layout NamespaceGuard [layout AppLayout (console_routes c)]]]];
   page "*" "NotFound"].

(** The branches of the tree: a pattern and the elements from the root to it.  A
    route without a path is no branch; a relative path continues its parent's. *)
Definition join_path (base : jsstring) (p : option string) : jsstring :=
  match p with
  | None => base
  | Some s => match js s with 47%N :: _ => js s | _ => if truthy base then base ++ js "/" ++ js s else js s end
  end.
Fixpoint branches_of (base : jsstring) (above : list element) (r : route) : list (jsstring * list element) :=
  match r with
  | Route p e children =>
      let base := join_path base p in
      let above := above ++ [e] in
      concat (map (branches_of base above) children)
      ++ match p with Some _ => [(base, above)] | None => [] end
  end.
Definition branches (c : ClientConfig) : list (jsstring * list element) := concat (map (branches_of [] []) (routes c)).

(** What the elements of a branch render. *)
Fixpoint render (e : Env) (path : jsstring) (shown : list string) (els : list element) : outcome :=
  match els with
  | [] => Shows (Content shown)
  | Guard g :: r => match pass e path g with Some o => o | None => render e path shown r end
  | Page p :: r => render e path (shown ++ [p]) r
  | Navigate to :: _ => Redirect to
  | FeatureGate f p :: r =>
      if isEnterpriseOrCloud (config e) then render e path (shown ++ [p]) r else Shows (Premium (js f))
  end.

(** ** Visiting a path *)

(** The path of a location, without its query and fragment. *)
Fixpoint pathname (to : jsstring) : jsstring :=
  match to with
  | [] => []
  | c :: r => if bool_decide (c = 35%N ∨ c = 63%N) then [] else c :: pathname r
  end.
(** A pattern without parameters. *)
Definition static (p : jsstring) : bool := negb (bool_decide (58%N ∈ p ∨ 42%N ∈ p)).

(** React Router's choice among patterns: a tree that has "*" matches every path,
    and a static pattern wins on the path it spells. *)
Class RouterLaws (match_routes : list jsstring → jsstring → option nat) : Prop := {
  match_some ps path : js "*" ∈ ps → ∃ i p, match_routes ps path = Some i ∧ ps !! i = Some p;
  match_static ps path : path ∈ ps → static path = true → ∃ i, match_routes ps path = Some i ∧ ps !! i = Some path;
}.

Section Visit.
Context (match_routes : list jsstring → jsstring → option nat) {laws : RouterLaws match_routes}.

Definition visit (e : Env) (path : jsstring) : outcome :=
  let bs := branches (config e) in
  match match_routes (map fst bs) path ≫= λ i, bs !! i with
  | Some (_, els) => render e path [] els
  | None => Shows (Content [])
  end.

(** *** What a branch shows *)

Definition pages_of (els : list element) : list string :=
  omap (λ x, match x with Page p | FeatureGate _ p => Some p | _ => None end) els.

Lemma render_content e path sh els ps : render e path sh els = Shows (Content ps) →
  ps = sh ++ pages_of els ∧ (∀ g, Guard g ∈ els → pass e path g = None) ∧
  (∀ f p, FeatureGate f p ∈ els → isEnterpriseOrCloud (config e) = true).
Proof.
  revert sh. induction els as [|x els IH]; intros sh H; cbn [render] in H.
  { simplify_eq. rewrite app_nil_r. split_and!; [done|..]; intros; by set_solver. }
  destruct x as [g|p|to|f p]; [|..].
  - destruct (pass e path g) as [o|] eqn:Ep.
    { subst o. exfalso. clear IH. destruct g; cbn [pass] in Ep; unfold setup_guard, namespace_guard, license_guard, useAdminLicense in Ep;
        repeat case_match; by simplify_eq. }
    destruct (IH _ H) as (A & B & C). split_and!; [done|intros g'; rewrite elem_of_cons; intros [[= ->]|?]; eauto|].
    intros f p. rewrite elem_of_cons. intros [?|?]; [done|eauto].
  - destruct (IH _ H) as (A & B & C). cbn. rewrite A, <- app_assoc. split_and!; [done|..]; intros *; rewrite elem_of_cons;
      intros [?|?]; simplify_eq; eauto.
  - done.
  - destruct (isEnterpriseOrCloud (config e)) eqn:Ei; [|done]. destruct (IH _ H) as (A & B & C). cbn.
    rewrite A, <- app_assoc. split_and!; [done|..]; intros *; rewrite elem_of_cons; intros [?|?]; simplify_eq; eauto.
Qed.

(** The branches depend on three settings only. *)
Lemma branches_cases (P : list (jsstring * list element) → Prop) :
  (∀ ed a w, P (branches (mkConfig [] ed a w [] [] [] []))) → ∀ c, P (branches c).
Proof. intros H [v ed a w o s t b]. exact (H ed a w). Qed.

Lemma branches_nodup c : NoDup (map fst (branches c)).
Proof.
  apply (branches_cases (λ bs, NoDup (map fst bs))). intros ed a w. apply (bool_decide_unpack _).
  destruct ed, a, w; vm_compute; exact I.
Qed.

Lemma branches_splat c : js "*" ∈ map fst (branches c).
Proof.
  apply (branches_cases (λ bs, js "*" ∈ map fst bs)). intros ed a w. apply (bool_decide_unpack _).
  destruct ed, a, w; vm_compute; exact I.
Qed.

Lemma choose_branch (bs : list (jsstring * list element)) path : js "*" ∈ map fst bs →
  ∃ p els, match_routes (map fst bs) path ≫= (λ i, bs !! i) = Some (p, els) ∧ (p, els) ∈ bs ∧
  (path ∈ map fst bs → static path = true → p = path).
Proof.
  intros Hs. destruct (match_some (map fst bs) path Hs) as (i & p & Hm & Hi). rewrite Hm. cbn.
  rewrite list_lookup_fmap in Hi. destruct (bs !! i) as [[p' els]|] eqn:Eb; [|done]. cbn in Hi. simplify_eq.
  exists p, els. split_and!; [done|by eapply list_elem_of_lookup_2|]. intros Hin Hst.
  destruct (match_static _ _ Hin Hst) as (j & Hj & Hp). rewrite Hm in Hj. simplify_eq. rewrite list_lookup_fmap, Eb in Hp.
  by injection Hp.
Qed.

Lemma visit_branch e path : ∃ p els, (p, els) ∈ branches (config e) ∧ visit e path = render e path [] els ∧
  (path ∈ map fst (branches (config e)) → static path = true → p = path).
Proof.
  destruct (choose_branch _ path (branches_splat (config e))) as (p & els & H1 & H2 & H3). exists p, els.
  unfold visit. rewrite H1. by split_and!.
Qed.

Lemma nodup_branch {A} (bs : list (jsstring * A)) p x y : NoDup (map fst bs) → (p, x) ∈ bs → (p, y) ∈ bs → x = y.
Proof.
  intros Hn Hx Hy. apply list_elem_of_lookup in Hx as [i Hi], Hy as [j Hj].
  assert (i = j) as -> by (eapply (NoDup_lookup _ i j p); [done|by rewrite list_lookup_fmap, Hi|by rewrite list_lookup_fmap, Hj]).
  by simplify_eq.
Qed.

(** A static pattern shows its own branch. *)
Lemma visit_static e path els : (path, els) ∈ branches (config e) → static path = true → visit e path = render e path [] els.
Proof.
  intros Hin Hs. destruct (visit_branch e path) as (p & els' & Hb & -> & Hp). f_equal.
  assert (path ∈ map fst (branches (config e))) as Hm by exact (list_elem_of_fmap_2 fst _ _ Hin).
  rewrite (Hp Hm Hs) in Hb. exact (nodup_branch _ _ _ _ (branches_nodup _) Hb Hin).
Qed.

(** *** Who may see a page *)

Definition open_pages : list string :=
  ["Login"; "MfaLogin"; "MfaRecover"; "MfaResetRequest"; "MfaResetVerify"; "MfaResetComplete"; "Setup"; "AcceptDevice";
   "ForgotPassword"; "UpdatePassword"; "AcceptInvite"]%string.
Definition sign_up_pages : list string := ["SignUp"; "ConfirmAccount"; "ValidationAccount"]%string.
Definition admin_pages : list string :=
  ["AdminDashboard"; "AdminUsers"; "AdminUserDetails"; "AdminNamespaces"; "AdminNamespaceDetails"; "AdminDevices";
   "AdminDeviceDetails"; "AdminFirewallRules"; "AdminFirewallRuleDetails"; "AdminAnnouncements"; "NewAnnouncement";
   "AdminAnnouncementDetails"; "EditAnnouncement"; "AdminSessions"; "AdminSessionDetails"; "AdminAuthentication"]%string.
Definition legacy_pages : list string := ["PublicKeys"; "SecureVault"; "FirewallRules"]%string.
Definition premium_pages : list string := ["FirewallRules"; "WebEndpoints"]%string.

(** The checks a page is behind.  A page that is not named is one of the console:
    it needs a session and a namespace. *)
Definition requires (p : string) : list guard :=
  if bool_decide (p ∈ ["SsoReauthComplete"; "NotFound"]%string) then []
  else [ConnectivityGuard; SetupGuard] ++
    (if bool_decide (p ∈ open_pages) then []
     else if bool_decide (p ∈ sign_up_pages) then [SignUpGuard]
     else ProtectedRoute ::
       (if bool_decide (p = "AdminUnauthorized"%string) then []
        else if bool_decide (p = "AdminLicense"%string) then [AdminRoute]
        else if bool_decide (p ∈ admin_pages) then [AdminRoute; LicenseGuard]
        else NamespaceGuard :: if bool_decide (p ∈ legacy_pages) then [LegacyAccessGuard] else [])).

(** What a check means. *)
Definition granted (e : Env) (path : jsstring) (g : guard) : Prop :=
  match g with
  | ConnectivityGuard => Connectivity.initialCheckDone (conn e) = true ∧ Connectivity.initialGatePassed (conn e) = true
  | SetupGuard =>
      (authed e = true ∨ setupLoading e = false ∧ (setupDone e = true ∨ path = js "/setup")) ∧
      (path = js "/setup" → setupDone e = false)
  | SignUpGuard => edition (config e) = cloud
  | ProtectedRoute => authed e = true
  | AdminRoute => AuthTypes.isAdmin (auth e) = true
  | LicenseGuard => AuthTypes.isAdmin (auth e) = true → edition (config e) = cloud ∨
      isLoading (license e) = false ∧ isError (license e) = false ∧
      ∃ l, installedLicense (license e) = Some l ∧ expired l = false
  | NamespaceGuard =>
      isLoading (namespaces e) = false ∧ isError (namespaces e) = false ∧
      ((0 < nullish (data (namespaces e)) 0)%nat ∨ path = js "/profile")
  | LegacyAccessGuard => isIdentityMode e = false
  | LoginLayout | AdminLayout | AppLayout => True
  end.

Lemma license_granted e : license_guard e = None → granted e [] LicenseGuard.
Proof.
  unfold license_guard, useAdminLicense, useQuery. intros H Ha. rewrite Ha in H. unfold isCloud in H.
  case_bool_decide as Hc; [by left|]. right. cbn in H. destruct (isLoading (license e)) eqn:E1; [done|].
  destruct (isError (license e)) eqn:E2; [done|]. cbn in H.
  destruct (installedLicense (license e)) as [l|]; [|done]. destruct (expired l) eqn:El; [done|]. eauto.
Qed.

Lemma pass_granted e path g : pass e path g = None → granted e path g.
Proof.
  destruct g; cbn [pass]; try done.
  - cbn. destruct (Connectivity.initialCheckDone _), (Connectivity.initialGatePassed _); done.
  - unfold setup_guard. cbn [granted]. destruct (authed e), (setupLoading e), (setupDone e); cbn; try case_bool_decide; naive_solver.
  - cbn [granted]. unfold isCloud. case_bool_decide; done.
  - cbn [granted]. by destruct (authed e).
  - cbn [granted]. by destruct (AuthTypes.isAdmin _).
  - apply license_granted.
  - unfold namespace_guard. cbn [granted].
    destruct (isError (namespaces e)), (isLoading (namespaces e)); cbn [negb andb]; try done. intros H. split; [done|]. split; [done|].
    case_bool_decide as Hn; [|left; lia]. right. case_bool_decide; [done|]. discriminate H.
  - cbn [granted]. by destruct (isIdentityMode e).
Qed.

(** Every branch of the tree has the guards its pages require. *)
Definition branch_guarded (b : jsstring * list element) : bool :=
  forallb (λ p, forallb (λ g, bool_decide (Guard g ∈ b.2)) (requires p)
                && (negb (bool_decide (p ∈ premium_pages)) || existsb (λ x, match x with FeatureGate _ _ => true | _ => false end) b.2))
    (pages_of b.2).

Lemma branches_guarded c : forallb branch_guarded (branches c) = true.
Proof.
  apply (branches_cases (λ bs, forallb branch_guarded bs = true)). intros ed a w. destruct ed, a, w; vm_compute; reflexivity.
Qed.

Lemma content_granted e path ps p : visit e path = Shows (Content ps) → p ∈ ps →
  (∀ g, g ∈ requires p → granted e path g) ∧ (p ∈ premium_pages → edition (config e) ≠ community).
Proof.
  intros Hv Hp. destruct (visit_branch e path) as (pat & els & Hb & Hr & _). rewrite Hr in Hv.
  destruct (render_content _ _ _ _ _ Hv) as (-> & Hg & Hf). pose proof (branches_guarded (config e)) as Hall.
  rewrite forallb_forall in Hall. specialize (Hall _ (proj1 (list_elem_of_In _ _) Hb)). unfold branch_guarded in Hall.
  cbn [snd] in Hall.
  rewrite forallb_forall in Hall. cbn [app] in Hp. specialize (Hall p (proj1 (list_elem_of_In _ _) Hp)).
  apply andb_true_iff in Hall as [H1 H2]. split.
  - intros g Hgr. rewrite forallb_forall in H1. specialize (H1 g (proj1 (list_elem_of_In _ _) Hgr)).
    apply bool_decide_eq_true in H1. by apply pass_granted, Hg.
  - intros Hpp. rewrite bool_decide_true in H2 by done. cbn [negb orb] in H2. apply existsb_exists in H2 as (x & Hx & Hm).
    destruct x as [| | |f q]; try done. apply list_elem_of_In in Hx. specialize (Hf _ _ Hx).
    unfold isEnterpriseOrCloud in Hf. by apply bool_decide_eq_true in Hf.
Qed.

(** *** Where redirects lead *)

(** A check passed on one path passes on another, but for the two paths the
    guards single out. *)
Lemma setup_elsewhere e path q : setup_guard e path = None → path ≠ js "/setup" → q ≠ js "/setup" → setup_guard e q = None.
Proof.
  unfold setup_guard. intros H Hp Hq. rewrite (bool_decide_false (path = _)) in H by done. rewrite (bool_decide_false (q = _)) by done.
  destruct (setupLoading e), (authed e), (setupDone e); done.
Qed.
Lemma namespace_elsewhere e path q : namespace_guard e path = None → path ≠ js "/profile" → namespace_guard e q = None.
Proof.
  unfold namespace_guard. intros H Hp. rewrite (bool_decide_false (path = _)) in H by done.
  destruct (isError (namespaces e)), (isLoading (namespaces e)); cbn [negb andb] in *; try done.
  case_bool_decide; [|done]. discriminate H.
Qed.

(** The shapes of branches, as far as redirects depend on them. *)
Definition plain (els : list element) : bool :=
  forallb (λ x, match x with Page _ | FeatureGate _ _ => true | _ => false end) els.
Definition shape (c : ClientConfig) (b : jsstring * list element) : bool :=
  match b.2 with
  | Guard ConnectivityGuard :: Guard SetupGuard :: r =>
      match r with
      | Guard LoginLayout :: r =>
          plain r || match r with Guard SignUpGuard :: r => plain r && negb (bool_decide (b.1 = js "/setup")) | _ => false end
      | Guard ProtectedRoute :: r =>
          negb (bool_decide (b.1 = js "/setup")) &&
          match r with
          | Guard AdminLayout :: Guard AdminRoute :: r =>
              plain r || bool_decide (r = [Navigate (js "/admin/dashboard")] ∧ isCloud c = true)
              || match r with
                 | Guard LicenseGuard :: r => plain r || bool_decide (r = [Navigate (js "/admin/dashboard")])
                 | _ => false
                 end
          | Guard AdminLayout :: r => plain r
          | Guard NamespaceGuard :: Guard AppLayout :: r =>
              plain r || negb (bool_decide (b.1 = js "/profile")) &&
              match r with
              | Guard LegacyAccessGuard :: r => plain r
              | [Navigate to] => bool_decide (to ∈ [js "/dashboard"; js "/settings#billing"])
              | _ => false
              end
          | _ => false
          end
      | _ => false
      end
  | els => plain els
  end.

Lemma branches_shape c : forallb (shape c) (branches c) = true.
Proof. destruct c as [v ed a w o s t b]. destruct ed, a, w; vm_compute; reflexivity. Qed.

Lemma plain_shows e path sh els : plain els = true → ∃ s, render e path sh els = Shows s.
Proof.
  revert sh. induction els as [|x els IH]; intros sh; cbn; [by eauto|]. rewrite andb_true_iff. intros [Hx Hr].
  destruct x; cbn; try done; [by apply IH|]. destruct (isEnterpriseOrCloud _); [by apply IH|by eauto].
Qed.

(** The targets. *)
Definition under_login (p : string) : list element := [Guard ConnectivityGuard; Guard SetupGuard; Guard LoginLayout; Page p].
Definition under_session (r : list element) : list element :=
  [Guard ConnectivityGuard; Guard SetupGuard; Guard ProtectedRoute] ++ r.
Lemma targets c :
  Forall (λ b, b ∈ branches c)
    [(js "/setup", under_login "Setup"); (js "/login", under_login "Login");
     (js "/admin/unauthorized", under_session [Guard AdminLayout; Page "AdminUnauthorized"]);
     (js "/admin/dashboard", under_session [Guard AdminLayout; Guard AdminRoute; Guard LicenseGuard; Page "AdminDashboard"]);
     (js "/access-policies", under_session [Guard NamespaceGuard; Guard AppLayout; Page "AccessPolicies"]);
     (js "/dashboard", under_session [Guard NamespaceGuard; Guard AppLayout; Page "Dashboard"]);
     (js "/settings", under_session [Guard NamespaceGuard; Guard AppLayout; Page "Settings"])].
Proof.
  apply (branches_cases (λ bs, Forall (λ b, b ∈ bs) _)). intros ed a w. apply (bool_decide_unpack _).
  destruct ed, a, w; vm_compute; exact I.
Qed.
Lemma license_target c : isCloud c = false →
  (js "/admin/license", under_session [Guard AdminLayout; Guard AdminRoute; Page "AdminLicense"]) ∈ branches c.
Proof.
  destruct c as [v ed a w o s t b]. intros H. apply (bool_decide_unpack _). destruct ed, a, w; try discriminate H; vm_compute; exact I.
Qed.

Lemma at_login e q p : (q, under_login p) ∈ branches (config e) → static q = true →
  pass e q ConnectivityGuard = None → setup_guard e q = None → visit e q = Shows (Content [p]).
Proof. intros Hb Hs Hc Hg. rewrite (visit_static e q _ Hb Hs). unfold under_login. cbn [render]. rewrite Hc. cbn [pass]. by rewrite Hg. Qed.
Lemma at_session e q r : (q, under_session r) ∈ branches (config e) → static q = true →
  pass e q ConnectivityGuard = None → setup_guard e q = None → authed e = true → visit e q = render e q [] r.
Proof.
  intros Hb Hs Hc Hg Ha. rewrite (visit_static e q _ Hb Hs). unfold under_session. cbn [render app]. rewrite Hc. cbn [pass].
  by rewrite Hg, Ha.
Qed.

(** What stands before the part of a branch that tells it from others. *)
Lemma shape_setup c p els : shape c (p, els) = true →
  plain els = true ∨ ∃ r, els = Guard ConnectivityGuard :: Guard SetupGuard :: r ∧
    ((∃ r', r = Guard LoginLayout :: r' ∧ plain r' = true) ∨
     (∃ r', r = Guard LoginLayout :: Guard SignUpGuard :: r' ∧ plain r' = true ∧ p ≠ js "/setup") ∨
     (∃ r', r = Guard ProtectedRoute :: r' ∧ p ≠ js "/setup" ∧ shape c (p, els) = true)).
Proof.
  intros H. pose proof H as H'. unfold shape in H. cbn [fst snd] in H.
  destruct els as [|[[]| | |] els]; try (by left); try discriminate H.
  destruct els as [|[[]| | |] els]; try discriminate H. right. eexists; split; [done|].
  destruct els as [|[[]| | |] els]; try discriminate H.
  - apply orb_true_iff in H as [H|H]; [left; by eauto|]. destruct els as [|[[]| | |] els]; try discriminate H.
    apply andb_true_iff in H as [H1 H2]. right. left. exists els. split_and!; try done. by apply negb_true_iff, bool_decide_eq_false in H2.
  - right. right. apply andb_true_iff in H as [H1 H2]. exists els. split_and!; try done. by apply negb_true_iff, bool_decide_eq_false in H1.
Qed.

(** A redirect of the checks in front leads to a page or a spinner. *)
Lemma setup_redirect e path to : pass e path ConnectivityGuard = None → setup_guard e path = Some (Redirect to) →
  ∃ s, visit e (pathname to) = Shows s.
Proof.
  intros Hc Hs. pose proof (targets (config e)) as Ht. rewrite !Forall_cons in Ht. destruct Ht as (T1 & T2 & _).
  unfold setup_guard in Hs. repeat case_match; simplify_eq.
  - change (pathname (js "/setup")) with (js "/setup"). rewrite (at_login e _ _ T1); [by eauto|done|done|].
    unfold setup_guard. rewrite H. destruct (setupDone e), (authed e); done.
  - change (pathname (js "/login")) with (js "/login"). rewrite (at_login e _ _ T2); [by eauto|done|done|].
    unfold setup_guard. rewrite H. destruct (setupDone e), (authed e); done.
Qed.

(** To the sign-in page, from where it was required. *)
Lemma login_redirect e path : pass e path ConnectivityGuard = None → setup_guard e path = None → path ≠ js "/setup" →
  ∃ s, visit e (js "/login") = Shows s.
Proof.
  intros Hc Hs Hp. pose proof (targets (config e)) as Ht. rewrite !Forall_cons in Ht. destruct Ht as (_ & T2 & _).
  rewrite (at_login e _ _ T2); [by eauto|done|done|]. by apply (setup_elsewhere e path).
Qed.

Section Session.
Variables (e : Env) (path p to : jsstring).
Hypotheses (Hc : pass e path ConnectivityGuard = None) (Hs : setup_guard e path = None) (Hp : path ≠ js "/setup")
  (Ha : authed e = true).

Lemma go q r : (q, under_session r) ∈ branches (config e) → static q = true → q ≠ js "/setup" → visit e q = render e q [] r.
Proof. intros Hb Hst Hq. apply at_session; try done. by apply (setup_elsewhere e path). Qed.

Lemma plain_no_redirect sh els : plain els = true → render e path sh els ≠ Redirect to.
Proof. intros H. destruct (plain_shows e path sh els H) as [s ->]. done. Qed.

(** With the license in order, or in the cloud, the dashboard of the admin panel. *)
Lemma to_dashboard : AuthTypes.isAdmin (auth e) = true → license_guard e = None →
  ∃ s, visit e (js "/admin/dashboard") = Shows s.
Proof.
  intros Hadm Hl. pose proof (targets (config e)) as Ht. rewrite !Forall_cons in Ht. destruct Ht as (_ & _ & _ & T & _).
  rewrite (go _ _ T); [|done|done]. cbn [render pass]. rewrite Hadm, Hl. by eauto.
Qed.

Lemma cloud_licensed : isCloud (config e) = true → license_guard e = None.
Proof. intros H. unfold license_guard, useAdminLicense. rewrite H, andb_false_r. done. Qed.

Lemma license_redirect o : license_guard e = Some o → AuthTypes.isAdmin (auth e) = true →
  o = Redirect to → ∃ s, visit e (pathname to) = Shows s.
Proof.
  intros Hl Hadm ->. destruct (isCloud (config e)) eqn:Ec; [by rewrite cloud_licensed in Hl|].
  assert (to = js "/admin/license") as ->.
  { unfold license_guard, useAdminLicense in Hl. repeat case_match; by simplify_eq. }
  change (pathname _) with (js "/admin/license"). rewrite (go _ _ (license_target _ Ec)); [|done|done].
  cbn [render pass]. rewrite Hadm. by eauto.
Qed.

Lemma admin_redirect r : render e path [] (Guard AdminRoute :: r) = Redirect to →
  plain r || bool_decide (r = [Navigate (js "/admin/dashboard")] ∧ isCloud (config e) = true)
  || match r with
     | Guard LicenseGuard :: r => plain r || bool_decide (r = [Navigate (js "/admin/dashboard")])
     | _ => false
     end = true → ∃ s, visit e (pathname to) = Shows s.
Proof.
  cbn [render pass]. destruct (AuthTypes.isAdmin (auth e)) eqn:Hadm; cbn [negb].
  - rewrite !orb_true_iff. intros Hr [[H|H]|H].
    + by destruct (plain_no_redirect _ _ H Hr).
    + apply bool_decide_eq_true in H as [-> Hcl]. cbn in Hr. simplify_eq. by apply to_dashboard, cloud_licensed.
    + destruct r as [|[[]| | |] r]; try discriminate H. cbn [render pass] in Hr.
      destruct (license_guard e) as [o|] eqn:Hl; [by eapply license_redirect|].
      apply orb_true_iff in H as [H|H]; [by destruct (plain_no_redirect _ _ H Hr)|].
      apply bool_decide_eq_true in H as ->. cbn in Hr. simplify_eq. by apply to_dashboard.
  - intros [= <-] _. pose proof (targets (config e)) as Ht. rewrite !Forall_cons in Ht. destruct Ht as (_ & _ & T & _).
    change (pathname _) with (js "/admin/unauthorized"). rewrite (go _ _ T); [|done|done]. by eauto.
Qed.

Lemma to_console q name : (q, under_session [Guard NamespaceGuard; Guard AppLayout; Page name]) ∈ branches (config e) →
  static q = true → q ≠ js "/setup" → namespace_guard e path = None → path ≠ js "/profile" → ∃ s, visit e q = Shows s.
Proof.
  intros T Hst Hq Hn Hpr. rewrite (go _ _ T) by done. cbn [render pass]. rewrite (namespace_elsewhere e path) by done. by eauto.
Qed.

Lemma console_redirect r : render e path [] (Guard NamespaceGuard :: Guard AppLayout :: r) = Redirect to →
  plain r || negb (bool_decide (p = js "/profile")) &&
    match r with
    | Guard LegacyAccessGuard :: r => plain r
    | [Navigate to] => bool_decide (to ∈ [js "/dashboard"; js "/settings#billing"])
    | _ => false
    end = true → (path = js "/profile" → p = js "/profile") → ∃ s, visit e (pathname to) = Shows s.
Proof.
  cbn [render pass]. intros Hr H Hpr. destruct (namespace_guard e path) as [o|] eqn:Hn.
  { unfold namespace_guard in Hn. repeat case_match; by simplify_eq. }
  pose proof (targets (config e)) as Ht. rewrite !Forall_cons in Ht. destruct Ht as (_ & _ & _ & _ & T5 & T6 & T7 & _).
  apply orb_true_iff in H as [H|H]; [by destruct (plain_no_redirect _ _ H Hr)|]. apply andb_true_iff in H as [Hq H].
  assert (path ≠ js "/profile") as Hne by (intros ->; by rewrite bool_decide_true in Hq by auto).
  destruct r as [|[[]| |t|] r]; try discriminate H.
  - cbn [render pass] in Hr. destruct (isIdentityMode e); [|by destruct (plain_no_redirect _ _ H Hr)]. injection Hr as <-.
    by apply (to_console _ _ T5).
  - destruct r; [|discriminate H]. cbn in Hr. simplify_eq. apply bool_decide_eq_true in H.
    rewrite !elem_of_cons in H. destruct H as [->|[->|H]]; [by apply (to_console _ _ T6)|by apply (to_console _ _ T7)|by apply not_elem_of_nil in H].
Qed.
End Session.

Lemma special_paths c : Forall (λ q, q ∈ map fst (branches c)) [js "/setup"; js "/profile"].
Proof.
  apply (branches_cases (λ bs, Forall (λ q, q ∈ map fst bs) _)). intros ed a w. apply (bool_decide_unpack _).
  destruct ed, a, w; vm_compute; exact I.
Qed.

Lemma redirect_once e path to : visit e path = Redirect to → ∃ s, visit e (pathname to) = Shows s.
Proof.
  destruct (visit_branch e path) as (p & els & Hb & -> & Hst). intros Hr.
  pose proof (special_paths (config e)) as Hq. rewrite !Forall_cons in Hq. destruct Hq as (Q1 & Q2 & _).
  assert (path = js "/setup" → p = js "/setup") as Hset by (intros ->; by apply Hst).
  assert (path = js "/profile" → p = js "/profile") as Hpro by (intros ->; by apply Hst).
  pose proof (branches_shape (config e)) as Hall. rewrite forallb_forall in Hall.
  specialize (Hall _ (proj1 (list_elem_of_In _ _) Hb)).
  destruct (shape_setup _ _ _ Hall) as [H|(r & -> & Hcase)]; [by destruct (plain_no_redirect e path to [] els H)|].
  cbn [render] in Hr. destruct (pass e path ConnectivityGuard) as [o|] eqn:Hc.
  { subst o. cbn [pass] in Hc. repeat case_match; by simplify_eq. }
  cbn [pass] in Hr. destruct (setup_guard e path) as [o|] eqn:Hs; [subst o; by eapply setup_redirect|].
  destruct Hcase as [(r' & -> & H)|[(r' & -> & H & Hne)|(r' & -> & Hne & H)]]; cbn [render pass] in Hr.
  - by destruct (plain_no_redirect e path to [] r' H).
  - destruct (isCloud (config e)); cbn [negb] in Hr; [by destruct (plain_no_redirect e path to [] r' H)|].
    injection Hr as <-. apply (login_redirect e path Hc Hs). by intros ->; auto.
  - assert (path ≠ js "/setup") as Hp by (intros ->; by auto).
    destruct (authed e) eqn:Ha; cbn [negb] in Hr; [|injection Hr as <-; by apply (login_redirect e path Hc Hs)].
    unfold shape in H. cbn [fst snd] in H. apply andb_true_iff in H as [_ H].
    destruct r' as [|[[]| | |] r']; try discriminate H.
    + change (render e path [] r' = Redirect to) in Hr. destruct r' as [|[[]| | |] r']; try discriminate H;
        try by destruct (plain_no_redirect e path to [] _ H). by eapply admin_redirect.
    + destruct r' as [|[[]| | |] r']; try discriminate H. by eapply console_redirect.
Qed.

(** C10: A path shows the pages of its route only when every check these pages
    require has passed: the server was reached, the instance is set up, and, as
    the page needs it, the user is signed in, has a namespace, is an admin, the
    license is valid, the edition has the feature, the namespace uses the legacy
    access mode.  And a redirect is the last one: where it leads something is
    shown, so that no two guards send the user back and forth. *)
Theorem pages_behind_guards (e : Env) (path : jsstring) :
  match visit e path with
  | Shows (Content ps) => ∀ p, p ∈ ps →
      (∀ g, g ∈ requires p → granted e path g) ∧ (p ∈ premium_pages → edition (config e) ≠ community)
  | Shows _ => True
  | Redirect to => ∃ s, visit e (pathname to) = Shows s
  end.
Proof.
  destruct (visit e path) as [[]|to] eqn:Hv; try done; [|by eapply redirect_once]. intros p Hp. by eapply content_granted.
Qed.
End Visit.

(** ** Navigation *)

(** components/layout/Sidebar.tsx: the links, by section. *)
Record NavItem := mkNav { to : jsstring; label : jsstring; premium : bool; beta : bool }.
Definition item (to label : string) : NavItem := mkNav (js to) (js label) false false.

Definition resources (c : ClientConfig) (identityMode : bool) : list NavItem :=
  [item "/devices" "Devices"; item "/containers" "Containers"]
  ++ (if negb identityMode then [item "/sessions" "Sessions"] else [])
  ++ (if webEndpoints c && isEnterpriseOrCloud c then [mkNav (js "/web-endpoints") (js "Web Endpoints") false true] else []).
Definition security (identityMode : bool) : list NavItem :=
  (if identityMode then [item "/sessions" "Sessions"] else [])
  ++ (if negb identityMode then [item "/sshkeys/public-keys" "Public Keys"] else [])
  ++ [item "/access-policies" "Access Policies"; item "/ssh-identities" "SSH Identities"]
  ++ (if negb identityMode
      then [mkNav (js "/firewall-rules") (js "Firewall Rules") true false; item "/secure-vault" "Secure Vault"] else []).
Definition buildSections (c : ClientConfig) (identityMode : bool) : list (jsstring * list NavItem) :=
  [(js "Overview", [item "/dashboard" "Dashboard"]);
   (js "Resources", resources c identityMode);
   (if identityMode then js "SSH" else js "Security", security identityMode);
   (js "Management", [item "/team" "Team"; item "/install-keys" "Install Keys"; item "/settings" "Settings"])].
Inductive badge := Pro | Beta.
Definition pickBadge (c : ClientConfig) (i : NavItem) : option badge :=
  if premium i && negb (isEnterpriseOrCloud c) then Some Pro else if beta i then Some Beta else None.

(** components/layout/AdminSidebar.tsx *)
Inductive NavEntry := Single (i : NavItem) | Group (label : jsstring) (children : list NavItem).
Definition coreNavEntries : list NavEntry :=
  [Single (item "/admin/dashboard" "Dashboard"); Single (item "/admin/users" "Users"); Single (item "/admin/devices" "Devices");
   Single (item "/admin/sessions" "Sessions"); Single (item "/admin/firewall-rules" "Firewall Rules");
   Single (item "/admin/namespaces" "Namespaces")].
Definition settings_children : list NavItem :=
  [item "/admin/settings/authentication" "Authentication"; item "/admin/license" "License"].
Definition expiredNavEntries : list NavEntry := [Group (js "Settings") [item "/admin/license" "License"]].
Definition buildNavEntries (c : ClientConfig) : list NavEntry :=
  coreNavEntries
  ++ (if announcements c then [Single (item "/admin/announcements" "Announcements")] else [])
  ++ [Group (js "Settings")
        (if isCloud c then List.filter (λ i, negb (bool_decide (to i = js "/admin/license"))) settings_children
         else settings_children)].
Definition visibleEntries (e : Env) : list NavEntry :=
  let '(loading, _, isExpired) := useAdminLicense (AuthTypes.isAdmin (auth e)) (isCloud (config e)) (license e) in
  if negb (AuthTypes.isAdmin (auth e)) || loading || isExpired then expiredNavEntries else buildNavEntries (config e).
(** The links one can follow: none while the sidebar is disabled. *)
Definition entry_links (isAdmin : bool) (x : NavEntry) : list jsstring :=
  if isAdmin then match x with Single i => [to i] | Group _ l => map to l end else [].

Definition console_links (e : Env) : list jsstring :=
  map to (concat (map snd (buildSections (config e) (isIdentityMode e)))) ++
  omap (λ i, match CommandPalette.i_onSelect i with CommandPalette.Go path => Some path | _ => None end)
    (CommandPalette.buildCommandItems (isIdentityMode e)).
Definition admin_links (e : Env) : list jsstring :=
  concat (map (entry_links (AuthTypes.isAdmin (auth e))) (visibleEntries e)).

(** A link does not miss: it shows a page, or the notice of a premium feature. *)
Definition hits (o : outcome) : Prop :=
  match o with
  | Shows (Content ps) => ps ≠ [] ∧ "NotFound"%string ∉ ps
  | Shows (Premium _) => True
  | _ => False
  end.

Definition found (els : list element) : bool :=
  plain els && negb (bool_decide (pages_of els = [])) && negb (bool_decide ("NotFound"%string ∈ pages_of els)).

Lemma plain_render e path sh els : plain els = true →
  render e path sh els = Shows (Content (sh ++ pages_of els)) ∨ ∃ f, render e path sh els = Shows (Premium f).
Proof.
  revert sh. induction els as [|x els IH]; intros sh; cbn [plain forallb render].
  { intros _. left. cbn. by rewrite app_nil_r. }
  rewrite andb_true_iff. intros [Hx Hr]. destruct x as [|q| |f q]; try done.
  - destruct (IH (sh ++ [q]) Hr) as [->|H]; [|by right]. left. cbn. by rewrite <- app_assoc.
  - destruct (isEnterpriseOrCloud _); [|right; by eauto]. destruct (IH (sh ++ [q]) Hr) as [->|H]; [|by right].
    left. cbn. by rewrite <- app_assoc.
Qed.

Lemma found_hits e path els : found els = true → hits (render e path [] els).
Proof.
  unfold found. rewrite !andb_true_iff, !negb_true_iff, !bool_decide_eq_false. intros [[H1 H2] H3].
  destruct (plain_render e path [] els H1) as [->|[f ->]]; [|done]. by cbn [hits app].
Qed.

(** How a link of the console is found in the tree, in either access mode. *)
Definition console_hit (identityMode : bool) (b : jsstring * list element) : bool :=
  match b.2 with
  | Guard ConnectivityGuard :: Guard SetupGuard :: Guard LoginLayout :: r => found r
  | Guard ConnectivityGuard :: Guard SetupGuard :: Guard ProtectedRoute :: Guard NamespaceGuard :: Guard AppLayout :: r =>
      found r || negb identityMode && match r with Guard LegacyAccessGuard :: r => found r | _ => false end
  | _ => false
  end.
Definition admin_hit (licensed : bool) (b : jsstring * list element) : bool :=
  match b.2 with
  | Guard ConnectivityGuard :: Guard SetupGuard :: Guard ProtectedRoute :: Guard AdminLayout :: Guard AdminRoute :: r =>
      found r || licensed && match r with Guard LicenseGuard :: r => found r | _ => false end
  | _ => false
  end.
Definition all_hit (hit : jsstring * list element → bool) (bs : list (jsstring * list element)) (links : list jsstring) : bool :=
  forallb (λ q, static q && negb (bool_decide (q = js "/setup")) && existsb (λ b, bool_decide (b.1 = q) && hit b) bs) links.

Lemma all_hit_branch hit bs links q : all_hit hit bs links = true → q ∈ links →
  static q = true ∧ q ≠ js "/setup" ∧ ∃ els, (q, els) ∈ bs ∧ hit (q, els) = true.
Proof.
  unfold all_hit. rewrite forallb_forall. intros H Hq. specialize (H q (proj1 (list_elem_of_In _ _) Hq)).
  rewrite !andb_true_iff, negb_true_iff, bool_decide_eq_false in H. destruct H as [[H1 H2] H3].
  apply existsb_exists in H3 as ((q' & els) & Hin & H3). apply andb_true_iff in H3 as [H3 H4]. apply bool_decide_eq_true in H3.
  cbn in H3. subst q'. apply list_elem_of_In in Hin. eauto.
Qed.

Lemma console_links_hit c im :
  all_hit (console_hit im) (branches c)
    (map to (concat (map snd (buildSections c im))) ++
     omap (λ i, match CommandPalette.i_onSelect i with CommandPalette.Go path => Some path | _ => None end)
       (CommandPalette.buildCommandItems im)) = true.
Proof. destruct c as [v ed a w o s t b]. destruct ed, a, w, im; vm_compute; reflexivity. Qed.
Lemma admin_links_hit c : all_hit (admin_hit true) (branches c) (concat (map (entry_links true) (buildNavEntries c))) = true.
Proof. destruct c as [v ed a w o s t b]. destruct ed, a, w; vm_compute; reflexivity. Qed.
Lemma expired_links_hit c : isCloud c = false →
  all_hit (admin_hit false) (branches c) (concat (map (entry_links true) expiredNavEntries)) = true.
Proof. destruct c as [v ed a w o s t b]. intros H. destruct ed, a, w; try discriminate H; vm_compute; reflexivity. Qed.

Section Links.
Context (match_routes : list jsstring → jsstring → option nat) {laws : RouterLaws match_routes}.
Variable e : Env.
Hypotheses (Hconn : ∀ q, pass e q ConnectivityGuard = None) (Hauth : authed e = true) (Hsetup : setupDone e = true).
#[local] Abbreviation visit := (visit match_routes).

Lemma setup_open q : q ≠ js "/setup" → setup_guard e q = None.
Proof. intros H. unfold setup_guard. rewrite Hauth, Hsetup, (bool_decide_false _ H). by destruct (setupLoading e). Qed.

Lemma visit_open q els : (q, els) ∈ branches (config e) → static q = true → q ≠ js "/setup" →
  (∀ r, els = Guard ConnectivityGuard :: Guard SetupGuard :: r → visit e q = render e q [] r).
Proof.
  intros Hb Hs Hq r ->. rewrite (visit_static match_routes e q _ Hb Hs). cbn [render]. rewrite Hconn. cbn [pass].
  by rewrite setup_open.
Qed.

(** No link of the console's sidebar or of the command palette leads away from
    the page it names, in either access mode. *)
Lemma console_links_lead q : (∀ q, namespace_guard e q = None) → q ∈ console_links e → hits (visit e q).
Proof.
  intros Hn Hq. destruct (all_hit_branch _ _ _ _ (console_links_hit (config e) (isIdentityMode e)) Hq) as (Hs & Hne & els & Hb & Hh).
  unfold console_hit in Hh. cbn [snd] in Hh.
  destruct els as [|[[]| | |] els]; try discriminate Hh. destruct els as [|[[]| | |] els]; try discriminate Hh.
  rewrite (visit_open q _ Hb Hs Hne _ eq_refl).
  destruct els as [|[[]| | |] els]; try discriminate Hh; cbn [render pass]; [by apply found_hits|]. rewrite Hauth. cbn [negb].
  destruct els as [|[[]| | |] els]; try discriminate Hh. cbn [render pass]. rewrite Hn.
  destruct els as [|[[]| | |] els]; try discriminate Hh. cbn [render pass].
  apply orb_true_iff in Hh as [Hh|Hh]; [by apply found_hits|]. apply andb_true_iff in Hh as [Him Hh].
  destruct els as [|[[]| | |] els]; try discriminate Hh. cbn [render pass]. apply negb_true_iff in Him. rewrite Him.
  by apply found_hits.
Qed.

(** Nor does one of the admin sidebar, as long as the license query has not
    failed. *)
Lemma admin_links_lead q : isError (license e) = false → q ∈ admin_links e → hits (visit e q).
Proof.
  unfold admin_links, visibleEntries. intros Her Hq.
  assert (∃ lic : bool, all_hit (admin_hit lic) (branches (config e)) [q] = true ∧ AuthTypes.isAdmin (auth e) = true ∧
            (lic = true → license_guard e = None)) as (lic & Hall & Hadm & Hlic).
  { unfold license_guard in *. destruct (useAdminLicense _ _ _) as [[ld fl] ex] eqn:Eu.
    destruct (AuthTypes.isAdmin (auth e)) eqn:Ea; [|cbn in Hq; by apply not_elem_of_nil in Hq]. cbn [negb orb] in Hq.
    assert (fl = false) as -> by (unfold useAdminLicense, useQuery in Eu; destruct (isCloud _); injection Eu as <- <- <-; done).
    assert (∀ hit bs links, all_hit hit bs links = true → q ∈ links → all_hit hit bs [q] = true) as Hone.
    { clear. intros hit bs links H Hq. unfold all_hit in *. rewrite forallb_forall in H. cbn [forallb].
      by rewrite (H q (proj1 (list_elem_of_In _ _) Hq)). }
    destruct (ld || ex) eqn:Eo.
    - exists false. split; [|done]. refine (Hone _ _ _ (expired_links_hit _ _) Hq).
      unfold useAdminLicense, useQuery in Eu. destruct (isCloud (config e)); [|done]. by injection Eu as <- <-.
    - exists true. split; [exact (Hone _ _ _ (admin_links_hit _) Hq)|]. split; [done|]. intros _.
      apply orb_false_iff in Eo as [-> ->]. done. }
  destruct (all_hit_branch _ _ _ q Hall ltac:(by left)) as (Hs & Hne & els & Hb & Hh). unfold admin_hit in Hh. cbn [snd] in Hh.
  destruct els as [|[[]| | |] els]; try discriminate Hh. destruct els as [|[[]| | |] els]; try discriminate Hh.
  rewrite (visit_open q _ Hb Hs Hne _ eq_refl).
  destruct els as [|[[]| | |] els]; try discriminate Hh. cbn [render pass]. rewrite Hauth. cbn [negb].
  destruct els as [|[[]| | |] els]; try discriminate Hh. cbn [render pass].
  destruct els as [|[[]| | |] els]; try discriminate Hh. cbn [render pass]. rewrite Hadm. cbn [negb].
  apply orb_true_iff in Hh as [Hh|Hh]; [by apply found_hits|]. apply andb_true_iff in Hh as [-> Hh].
  destruct els as [|[[]| | |] els]; try discriminate Hh. cbn [render pass]. rewrite Hlic by done. by apply found_hits.
Qed.
End Links.

Module Visits.
(** A router that satisfies the laws: an equal static pattern, else the first
    pattern that matches segment by segment, else "*". *)
Fixpoint segments_match (ps qs : list jsstring) : bool :=
  match ps, qs with
  | [], [] => true
  | (58%N :: _) :: ps, q :: qs => truthy q && segments_match ps qs
  | p :: ps, q :: qs => bool_decide (p = q) && segments_match ps qs
  | _, _ => false
  end.
Definition fits (path p : jsstring) : Prop := segments_match (split p 47) (split path 47) = true.
Definition spells (path p : jsstring) : Prop := p = path ∧ static p = true.
#[local] Instance fits_dec path p : Decision (fits path p).
Proof. unfold fits. apply _. Defined.
#[local] Instance spells_dec path p : Decision (spells path p).
Proof. unfold spells. apply _. Defined.
Definition choose (ps : list jsstring) (path : jsstring) : option nat :=
  fst <$> (match list_find (spells path) ps with
           | Some x => Some x
           | None => match list_find (fits path) ps with Some x => Some x | None => list_find (λ p, p = js "*") ps end
           end).

#[export] Instance choose_laws : RouterLaws choose.
Proof.
  split; intros ps path; unfold choose.
  - intros Hs. destruct (list_find (spells path) ps) as [[i p]|] eqn:E1; [apply list_find_Some in E1 as (? & _); by exists i, p|].
    destruct (list_find (fits path) ps) as [[i p]|] eqn:E2; [apply list_find_Some in E2 as (? & _); by exists i, p|].
    destruct (list_find_elem_of (λ p, p = js "*") ps (js "*") Hs eq_refl) as [[i p] E3]. rewrite E3.
    apply list_find_Some in E3 as (? & _). by exists i, p.
  - intros Hin Hst. destruct (list_find_elem_of (spells path) ps path Hin (conj eq_refl Hst)) as [[i p] E]. rewrite E.
    apply list_find_Some in E as (Hi & [-> _] & _). by exists i.
Qed.

Definition session (admin : bool) : AuthTypes.AuthState :=
  AuthTypes.mkAuth (Some (js "t")) None None None None None None (Some (js "ns")) None admin None false None false None None.
Definition signed_in (ed : Edition) (q : Query (option LicenseData)) (mode : string) : Env :=
  mkEnv (mkConfig [] ed true true [] [] [] []) (Connectivity.mkConn true true true false None [] 0 0) (session true) false true q
    (mkQuery false false (Some 1%nat)) (mkQuery false false (Some (Some (js mode)))).
Definition good : Query (option LicenseData) := mkQuery false false (Some (Some (mkLicense false false (Some false)))).

Example visits :
  visit choose (signed_in enterprise good "identity") (js "/secure-vault") = Redirect (js "/access-policies") ∧
  visit choose (signed_in enterprise good "legacy") (js "/devices/add") = Shows (Content ["AddDevice"]%string) ∧
  visit choose (signed_in enterprise good "legacy") (js "/devices/17") = Shows (Content ["DeviceDetails"]%string) ∧
  visit choose (signed_in community good "legacy") (js "/firewall-rules") = Shows (Premium (js "Firewall Rules")) ∧
  visit choose (signed_in cloud good "identity") (js "/ssh-identities/new/AB12") = Shows (Content ["SSHIdentities"; "SSHApproval"]%string) ∧
  visit choose (signed_in cloud good "identity") (js "/nowhere") = Shows (Content ["NotFound"]%string).
Proof. vm_compute. done. Qed.

(** A license that is valid and could not be read again: the sidebar shows every
    link of the admin panel, and every one of them leads to the license page. *)
Example stale_license_locked_out :
  let e := signed_in enterprise (mkQuery false true (data good)) "legacy" in
  js "/admin/users" ∈ admin_links e ∧ visit choose e (js "/admin/users") = Redirect (js "/admin/license").
Proof. split; [|reflexivity]. apply (bool_decide_unpack _). vm_compute. exact I. Qed.

Lemma pages_behind_guards_witness :
  let e := signed_in enterprise good "legacy" in
  visit choose e (js "/admin/users") = Shows (Content ["AdminUsers"]%string) ∧ granted e (js "/admin/users") AdminRoute.
Proof.
  split; [reflexivity|]. apply (pages_behind_guards choose (signed_in enterprise good "legacy") (js "/admin/users") "AdminUsers"%string).
  - by left.
  - apply (bool_decide_unpack _). vm_compute. exact I.
Defined.
End Visits.
