(* ===== verification/MfaEnable.v ===== *)
(** * Turning the second factor on (components/mfa/MfaEnableDrawer.tsx)

    Three steps: the recovery e-mail, the recovery codes, the authenticator; and
    the file of hooks/useRecoveryCodeActions.ts.

    A request is a [flight] with what its continuation captured; its answer is an
    event.  The drawer stays mounted while closed, so that an answer, or the
    delayed reset, may come after a close.  A button that is loading is disabled.
    [sent] and [generated] record the traffic. *)

From S2P Require Import Prelude JsString Otp.

(** ** hooks/useRecoveryCodeActions.ts *)

Definition nl : jsstring := [10%N].
Definition HEADER : jsstring := js "ShellHub Recovery Codes".
Definition FOOTER : jsstring := js "Keep these codes in a safe place. Each code can only be used once.".
(** [handleDownload]'s file and [handleCopy]'s text. *)
Definition download_content (codes : list jsstring) : jsstring :=
  HEADER ++ nl ++ nl ++ join nl codes ++ nl ++ nl ++ FOOTER.
Definition copy_content (codes : list jsstring) : jsstring := join nl codes.

Lemma split_nl_app a b : 10%N ∉ a → split (a ++ nl ++ b) 10 = a :: split b 10.
Proof. apply split_sep. Qed.

Lemma split_nl b : split (nl ++ b) 10 = [] :: split b 10.
Proof. done. Qed.

Lemma split_join_app l b : l ≠ [] → Forall (λ m, 10%N ∉ m) l → split (join nl l ++ nl ++ b) 10 = l ++ split b 10.
Proof.
  intros Hne H. induction H as [|x l Hx Hl IH]; [done|]. destruct l as [|y l].
  - cbn [join app]. by apply split_nl_app.
  - cbn [join]. rewrite <- !app_assoc, split_nl_app by done. cbn [app]. f_equal. by apply IH.
Qed.

(** The file has one line per code. *)
Lemma file_lists_codes codes : codes ≠ [] → Forall (λ m, 10%N ∉ m) codes →
  split (download_content codes) 10 = [HEADER; []] ++ codes ++ [[]; FOOTER] ∧ split (copy_content codes) 10 = codes.
Proof.
  intros Hne H. split; [|by apply JsString.split_join]. unfold download_content.
  rewrite split_nl_app by (apply (bool_decide_unpack _); vm_compute; exact I).
  rewrite split_nl, split_join_app, split_nl by done. cbn [app]. by do 3 f_equal.
Qed.

(** ** Turning it on *)

Inductive Step := email_step | codes_step | qr_step | done_step.
#[export] Instance Step_eq_dec : EqDecision Step.
Proof. solve_decision. Defined.

(** Who waits for a new secret and its codes. *)
Inductive origin := existing | after_save | next.
Inductive flight := Saving | Generating (o : origin) | Enabling.

(** A body of [enableMfa]; an answer of [generateMfa]: link, secret, codes. *)
Record Body := mkBody { b_code : jsstring; b_secret : jsstring; b_codes : list jsstring }.
Record Generated := mkGenerated { link : jsstring; g_secret : jsstring; g_codes : list jsstring }.

Record Form := mkForm {
  step : Step;
  error : jsstring;
  recoveryEmail : jsstring;
  userWantsNewEmail : bool;
  recoveryCodes : list jsstring;
  codesSaved : bool;
  qrLink : jsstring;
  secret : jsstring;
  otp : Otp;
}.
Record Drawer := mkDrawer {
  isOpen : bool;
  form : Form;
  loading : bool;
  resets : nat;                 (* the timeouts of [handleClose] *)
  flights : list flight;
  sent : list Body;
  generated : list Generated;
  confirmed : list (list jsstring);   (* the codes on screen when "Next Step" was pressed *)
  accepted : nat;               (* answers that enabled the factor *)
}.

Definition new_form (o : Otp) : Form := mkForm email_step [] [] false [] false [] [] o.
Definition new_drawer : Drawer := mkDrawer true (new_form (new_otp 6)) false 0 [] [] [] [] 0.

Definition setStep (s : Step) (f : Form) : Form :=
  mkForm s (error f) (recoveryEmail f) (userWantsNewEmail f) (recoveryCodes f) (codesSaved f) (qrLink f) (secret f) (otp f).
Definition setError (m : jsstring) (f : Form) : Form :=
  mkForm (step f) m (recoveryEmail f) (userWantsNewEmail f) (recoveryCodes f) (codesSaved f) (qrLink f) (secret f) (otp f).
Definition setEmail (m : jsstring) (new : bool) (f : Form) : Form :=
  mkForm (step f) (error f) m new (recoveryCodes f) (codesSaved f) (qrLink f) (secret f) (otp f).
Definition setCodesSaved (b : bool) (f : Form) : Form :=
  mkForm (step f) (error f) (recoveryEmail f) (userWantsNewEmail f) (recoveryCodes f) b (qrLink f) (secret f) (otp f).
Definition setGenerated (g : Generated) (f : Form) : Form :=
  mkForm (step f) (error f) (recoveryEmail f) (userWantsNewEmail f) (g_codes g) (codesSaved f) (link g) (g_secret g) (otp f).
Definition setOtp (o : Otp) (f : Form) : Form :=
  mkForm (step f) (error f) (recoveryEmail f) (userWantsNewEmail f) (recoveryCodes f) (codesSaved f) (qrLink f) (secret f) o.

Definition on_form (h : Form → Form) (d : Drawer) : Drawer :=
  mkDrawer (isOpen d) (h (form d)) (loading d) (resets d) (flights d) (sent d) (generated d) (confirmed d) (accepted d).
Definition set_open (b : bool) (n : nat) (d : Drawer) : Drawer :=
  mkDrawer b (form d) (loading d) n (flights d) (sent d) (generated d) (confirmed d) (accepted d).
Definition set_flights (b : bool) (l : list flight) (d : Drawer) : Drawer :=
  mkDrawer (isOpen d) (form d) b (resets d) l (sent d) (generated d) (confirmed d) (accepted d).
Definition log (s : list Body) (g : list Generated) (c : list (list jsstring)) (n : nat) (d : Drawer) : Drawer :=
  mkDrawer (isOpen d) (form d) (loading d) (resets d) (flights d) s g c n.
Definition send (f : flight) (d : Drawer) : Drawer := set_flights true (flights d ++ [f]) (on_form (setError []) d).

Section Enable_.
Variable currentRecoveryEmail : option jsstring.

Definition showRecoveryEmailInput (d : Drawer) : bool :=
  negb (is_truthy currentRecoveryEmail) || userWantsNewEmail (form d).

(** The buttons: shown, and neither disabled nor loading. *)
Definition at_step (s : Step) (d : Drawer) : bool := isOpen d && bool_decide (step (form d) = s).
Definition can_continue (d : Drawer) : bool := at_step email_step d && negb (showRecoveryEmailInput d) && negb (loading d).
Definition can_save (d : Drawer) : bool :=
  at_step email_step d && showRecoveryEmailInput d && truthy (trim (recoveryEmail (form d))) && negb (loading d).
Definition can_next (d : Drawer) : bool :=
  at_step codes_step d && codesSaved (form d) && negb (bool_decide (recoveryCodes (form d) = [])) && negb (loading d).
Definition can_enable (d : Drawer) : bool :=
  at_step qr_step d && isComplete (otp (form d)) && truthy (qrLink (form d)) && truthy (secret (form d)) && negb (loading d).

Definition handleConfirmExistingEmail (d : Drawer) : Drawer := send (Generating existing) d.
Definition handleSaveRecoveryEmail (d : Drawer) : Drawer := send Saving d.

Definition handleNextToQr (d : Drawer) : Drawer :=
  if negb (codesSaved (form d)) then d
  else
    let d := log (sent d) (generated d) (confirmed d ++ [recoveryCodes (form d)]) (accepted d) d in
    if negb (truthy (qrLink (form d))) then send (Generating next) d
    else on_form (setStep qr_step) (on_form (setError []) d).

Definition handleEnableMfa (d : Drawer) : Drawer :=
  if negb (isComplete (otp (form d))) then d
  else
    let body := mkBody (getValue (otp (form d))) (secret (form d)) (recoveryCodes (form d)) in
    send Enabling (log (sent d ++ [body]) (generated d) (confirmed d) (accepted d) d).

Definition handleClose (d : Drawer) : Drawer := set_open false (S (resets d)) d.
Definition reset_fires (d : Drawer) : Drawer :=
  set_open (isOpen d) (pred (resets d)) (on_form (λ f, new_form (reset 6 (otp f))) d).

(** What a failed request says, by what was waiting: [status] is that of an SDK
    error. *)
Definition failure (f : flight) (status : option Z) : jsstring :=
  js (match f with
      | Saving | Generating after_save =>
          if bool_decide (status = Some 409) then "Email already in use" else "Failed to save recovery email"
      | Generating existing => "Failed to generate MFA codes"
      | Generating next => "Failed to generate QR code"
      | Enabling => "Invalid verification code"
      end).

Inductive reply := Done | New (g : Generated) | Failed (status : option Z).

Definition on_reply (i : nat) (r : reply) (d : Drawer) : Drawer :=
  match flights d !! i with
  | None => d
  | Some f =>
      let rest := delete i (flights d) in
      match f, r with
      | Saving, Done => set_flights true (rest ++ [Generating after_save]) d
      | Generating o, New g =>
          let d := log (sent d) (generated d ++ [g]) (confirmed d) (accepted d) (on_form (setGenerated g) d) in
          set_flights false rest (on_form (setStep (match o with next => qr_step | _ => codes_step end)) d)
      | Enabling, Done =>
          set_flights false rest (on_form (setStep done_step) (log (sent d) (generated d) (confirmed d) (S (accepted d)) d))
      | Enabling, Failed s => set_flights false rest (on_form (λ f', setOtp (reset 6 (otp f')) (setError (failure f s) f')) d)
      | _, Failed s => set_flights false rest (on_form (setError (failure f s)) d)
      | _, _ => d
      end
  end.

Inductive event :=
  | Open | Email (v : jsstring) | WantsNew | Continue | Save | Tick (b : bool) | Next | Back | Code (e : edit) | Verify
  | Close | DoneClick | Fires | Reply (i : nat) (r : reply).

Definition dstep (d : Drawer) (e : event) : Drawer :=
  match e with
  | Open => set_open true (resets d) d
  | Email v => if at_step email_step d && showRecoveryEmailInput d then on_form (λ f, setEmail v (userWantsNewEmail f) f) d else d
  | WantsNew => if at_step email_step d then on_form (λ f, setEmail (recoveryEmail f) true f) d else d
  | Continue => if can_continue d then handleConfirmExistingEmail d else d
  | Save => if can_save d then handleSaveRecoveryEmail d else d
  | Tick b => if at_step codes_step d then on_form (setCodesSaved b) d else d
  | Next => if can_next d then handleNextToQr d else d
  | Back => if at_step qr_step d then on_form (setStep codes_step) d else d
  | Code ed => if at_step qr_step d then on_form (λ f, setOtp (apply_edit 6 false (otp f) ed) f) d else d
  | Verify => if can_enable d then handleEnableMfa d else d
  | Close => if isOpen d then handleClose d else d
  | DoneClick => if at_step done_step d then handleClose d else d
  | Fires => if (0 <? resets d)%nat then reset_fires d else d
  | Reply i r => on_reply i r d
  end.
Definition drun (l : list event) : Drawer := fold_left dstep l new_drawer.

(** *** What is sent *)

(** The server answered without a link once; it never should. *)
Definition linkless (d : Drawer) : Prop := ∃ s c, mkGenerated [] s c ∈ generated d.
Definition body_ok (d : Drawer) (b : Body) : Prop :=
  length (b_code b) = 6%nat ∧ Forall (λ c, is_digit c = true) (b_code b) ∧
  (∃ l, mkGenerated l (b_secret b) (b_codes b) ∈ generated d) ∧ (b_codes b ∈ confirmed d ∨ linkless d).

Definition flight_ok (d : Drawer) (f : flight) : Prop :=
  match f with
  | Saving | Generating existing | Generating after_save => step (form d) = email_step
  | Generating next => linkless d ∧ (step (form d) = codes_step ∨ step (form d) = email_step)
  | Enabling => True
  end.

Record inv (d : Drawer) : Prop := mkInv {
  inv_one : (loading d = false ∧ flights d = []) ∨ (loading d = true ∧ ∃ f, flights d = [f] ∧ flight_ok d f);
  inv_codes : (qrLink (form d) = [] ∧ secret (form d) = [] ∧ recoveryCodes (form d) = []) ∨
              mkGenerated (qrLink (form d)) (secret (form d)) (recoveryCodes (form d)) ∈ generated d;
  inv_otp : otp_ok 6 false (otp (form d));
  inv_qr : step (form d) = qr_step → recoveryCodes (form d) ∈ confirmed d ∨ linkless d;
  inv_done : step (form d) = done_step → (0 < accepted d)%nat;
  inv_sent : Forall (body_ok d) (sent d);
}.

Lemma at_step_true s d : at_step s d = true → step (form d) = s.
Proof. unfold at_step. rewrite andb_true_iff, bool_decide_eq_true. by intros [_ ?]. Qed.

(** The parts of the invariant that only look at some fields. *)
Lemma inv_same d d' : inv d → loading d' = loading d → flights d' = flights d → sent d' = sent d → generated d' = generated d →
  confirmed d' = confirmed d → accepted d' = accepted d → step (form d') = step (form d) → qrLink (form d') = qrLink (form d) →
  secret (form d') = secret (form d) → recoveryCodes (form d') = recoveryCodes (form d) → otp_ok 6 false (otp (form d')) → inv d'.
Proof.
  intros [A B C D E F] e1 e2 e3 e4 e5 e6 e7 e8 e9 e10 Ho.
  assert (linkless d' ↔ linkless d) as Hl by (unfold linkless; by rewrite e4).
  constructor; rewrite ?e1, ?e2, ?e3, ?e4, ?e5, ?e6, ?e7, ?e8, ?e9, ?e10, ?Hl; try done.
  - destruct A as [A|(A1 & f & A2 & A3)]; [by left|right]. split; [done|]. exists f. split; [done|]. revert A3.
    unfold flight_ok. rewrite e7. destruct f as [|[]|]; rewrite ?Hl; done.
  - eapply Forall_impl; [exact F|]. unfold body_ok. intros b. by rewrite e4, e5, Hl.
Qed.

Lemma reset_otp o : otp_ok 6 false (reset 6 o).
Proof. split; [done|]. apply (blank_ok 6 false). Qed.

Lemma idle d : inv d → loading d = false → flights d = [].
Proof. intros [[[_ ->]|[-> _]] _ _ _ _ _]; done. Qed.

(** A request starts. *)
Lemma send_inv f d : inv d → loading d = false → flight_ok d f → inv (send f d).
Proof.
  intros H Hl Hf. pose proof (idle d H Hl) as Hfl. destruct H as [A B C D E F]. constructor; try done. right. split; [done|].
  exists f. unfold send. cbn. by rewrite Hfl.
Qed.

Lemma body_ok_mono d d' b : generated d ⊆ generated d' → confirmed d ⊆ confirmed d' → body_ok d b → body_ok d' b.
Proof.
  intros Hg Hc (H1 & H2 & (l & H3) & H4). split_and!; [done|done|by exists l; apply Hg|].
  destruct H4 as [H4|(s & c & H4)]; [left; by apply Hc|right; exists s, c; by apply Hg].
Qed.

Lemma next_inv d : inv d → can_next d = true → inv (handleNextToQr d).
Proof.
  intros H Hn. unfold can_next in Hn. rewrite !andb_true_iff, !negb_true_iff, bool_decide_eq_false in Hn.
  destruct Hn as [[[Hs Hsv] Hc] Hl]. apply at_step_true in Hs. unfold handleNextToQr. rewrite Hsv. cbn [negb].
  set (d' := log _ _ _ _ d).
  assert (inv d') as H'.
  { destruct H as [A B C D E F]. constructor; try done.
    - intros Hq. destruct (D Hq) as [?|?]; [left; cbn; set_solver|by right].
    - eapply Forall_impl; [exact F|]. intros b. apply body_ok_mono; cbn; set_solver. }
  change (qrLink (form d')) with (qrLink (form d)). destruct (qrLink (form d)) as [|c r] eqn:Eq; cbn [truthy negb].
  - apply send_inv; [done..|]. destruct H as [A B C D E F]. split; [|by left]. rewrite Eq in B.
    destruct B as [(_ & _ & B)|B]; [done|]. by eexists _, _.
  - pose proof (idle d H Hl) as Hfl. destruct H' as [A B C D E F]. constructor; try done.
    + left. by split.
    + intros _. left. cbn. set_solver.
Qed.

Lemma enable_inv d : inv d → can_enable d = true → inv (handleEnableMfa d).
Proof.
  intros H Hn. unfold can_enable in Hn. rewrite !andb_true_iff, !negb_true_iff in Hn. destruct Hn as [[[[Hs Ho] Hq] Hsec] Hl].
  apply at_step_true in Hs. unfold handleEnableMfa. rewrite Ho. cbn [negb]. apply send_inv; [|done|done].
  destruct H as [A B C D E F]. constructor; try done. cbn. apply Forall_app. split; [exact F|]. constructor; [|constructor].
  destruct C as [C1 C2]. destruct (value_complete false _ C2) as (V1 & _ & V2). split_and!; cbn.
  - unfold getValue. rewrite (proj1 V2 Ho). exact C1.
  - exact V1.
  - destruct B as [(B & _)|B]; [by rewrite B in Hq|by eexists].
  - by apply D.
Qed.

Lemma reset_inv n b d : inv d → inv (set_open b n (on_form (λ f, new_form (reset 6 (otp f))) d)).
Proof.
  intros [A B C D E F]. constructor; try done.
  - destruct A as [A|(A1 & f & A2 & A3)]; [by left|right]. split; [done|]. exists f. split; [done|].
    destruct f as [|[]|]; try done. split; [by destruct A3|by right].
  - by left.
  - apply reset_otp.
Qed.

Lemma reply_inv i r d : inv d → inv (on_reply i r d).
Proof.
  intros H. unfold on_reply. destruct (flights d !! i) as [f|] eqn:Ei; [|done]. pose proof H as [A B C D E F].
  destruct A as [[_ A]|(Hl & f' & Hf & Hok)]; [by rewrite A in Ei|]. rewrite Hf in Ei.
  destruct i; [|done]. cbn in Ei. injection Ei as <-. rewrite Hf. cbn [delete list_delete].
  assert (∀ m, inv (set_flights false [] (on_form (setError m) d))) as Hfail by (intros m; constructor; try done; by left).
  destruct f' as [|o|], r as [|g|s]; try done; try apply Hfail; clear Hfail.
  - constructor; try done. right. split; [done|]. by exists (Generating after_save).
  - assert (∀ x, x ∈ generated d → x ∈ generated d ++ [g]) as Hg by set_solver.
    constructor; try done; cbn.
    + by left.
    + right. destruct g as [l s c]. cbn. set_solver.
    + intros Hq. right. destruct o; try done. destruct Hok as [(s & c & Hx) _]. exists s, c. cbn. by apply Hg.
    + by destruct o.
    + eapply Forall_impl; [exact F|]. intros b. apply body_ok_mono; cbn; set_solver.
  - constructor; try done; cbn; [by left|lia].
  - constructor; try done; cbn; [by left|apply reset_otp].
Qed.

Lemma enable_step_inv e d : inv d → inv (dstep d e).
Proof.
  intros H. destruct e; cbn [dstep]; try (case_match; [|done]).
  - by eapply (inv_same d); try done; destruct H.
  - by eapply (inv_same d); try done; destruct H.
  - by eapply (inv_same d); try done; destruct H.
  - unfold can_continue in *. rewrite !andb_true_iff, !negb_true_iff in *. destruct_and?. apply send_inv; [done..|by apply at_step_true].
  - unfold can_save in *. rewrite !andb_true_iff, !negb_true_iff in *. destruct_and?. apply send_inv; [done..|by apply at_step_true].
  - by eapply (inv_same d); try done; destruct H.
  - by apply next_inv.
  - pose proof H as [A B C D E F]. apply at_step_true in H0. constructor; try done.
    destruct A as [A|(A1 & f & A2 & A3)]; [by left|right]. split; [done|]. exists f. split; [done|].
    destruct f as [|[]|]; cbn in *; try congruence. split; [by destruct A3|by left].
  - eapply (inv_same d); try done. by apply (edit_ok 6 false), (inv_otp d).
  - by apply enable_inv.
  - by eapply (inv_same d); try done; destruct H.
  - by eapply (inv_same d); try done; destruct H.
  - by apply (reset_inv (pred (resets d)) (isOpen d)).
  - by apply reply_inv.
Qed.

Lemma new_inv : inv new_drawer.
Proof. constructor; try done; [by left|by left|split; [done|apply (blank_ok 6 false)]]. Qed.

(** C25: However clicks, answers, closes and their delayed resets interleave: a request
    to turn the factor on carries six digits, and a secret and recovery codes the
    server gave together; these codes were on the screen with their box ticked
    when the user went on (unless the server once gave no link); success is shown
    only after the server accepted; and at most one request is under way. *)
Lemma mfa_enable_sound (l : list event) :
  let d := drun l in
  Forall (body_ok d) (sent d) ∧ (step (form d) = done_step → (0 < accepted d)%nat) ∧ (length (flights d) <= 1)%nat.
Proof.
  assert (inv (drun l)) as [A B C D E F].
  { unfold drun. generalize new_drawer, new_inv. induction l as [|e l IH]; cbn; [done|]. intros d H. by apply IH, enable_step_inv. }
  split_and!; [done|done|]. destruct A as [[_ ->]|(_ & f & -> & _)]; cbn; lia.
Qed.
End Enable_.

(** The e-mail was saved and the codes could not be made: the message is about the
    e-mail. *)
Example saved_email_reported_as_failed :
  let d := drun None [Email (js "r@x.org"); Save; Reply 0 Done; Reply 0 (Failed (Some 500))] in
  error (form d) = js "Failed to save recovery email" ∧ flights d = [].
Proof. vm_compute. done. Qed.
