(* ===== verification/MfaDisable.v ===== *)
(** * Turning the second factor off (components/mfa/MfaDisableDialog.tsx)

    By a code of the authenticator, a recovery code, or two codes sent by e-mail.
    The dialog stays mounted while closed; submissions carry the mode they were
    made in, and are answered as events.  [sent] records them. *)

From S2P Require Import Prelude JsString Otp.

Inductive Mode := totp | recovery | email_reset.
#[export] Instance Mode_eq_dec : EqDecision Mode.
Proof. solve_decision. Defined.

(** The three bodies of [disableMfa]. *)
Inductive Body := Totp (code : jsstring) | Recovery (code : jsstring) | Emails (main recovery : jsstring).

Record Dialog := mkDialog {
  isOpen : bool;
  mode : Mode;
  otp : Otp;
  recoveryCode : jsstring;
  submitting : bool;
  error : jsstring;
  emailRequested : bool;
  requestingEmail : bool;
  otpMainEmail : Otp;
  otpRecoveryEmail : Otp;
  flights : list Mode;          (* submissions, with the mode they captured *)
  requests : nat;               (* requests for e-mails under way *)
  resets : nat;
  sent : list Body;
  identifiers : list jsstring;  (* whom e-mails were asked for *)
  accepted : nat;
  successes : nat;              (* calls of [onSuccess] *)
}.
Definition new_dialog : Dialog :=
  mkDialog true totp (new_otp 6) [] false [] false false (new_otp 5) (new_otp 5) [] 0 0 [] [] 0 0.

Definition set_ui (op : bool) (m : Mode) (rc er : jsstring) (d : Dialog) : Dialog :=
  mkDialog op m (otp d) rc (submitting d) er (emailRequested d) (requestingEmail d) (otpMainEmail d) (otpRecoveryEmail d)
    (flights d) (requests d) (resets d) (sent d) (identifiers d) (accepted d) (successes d).
Definition set_otps (a b c : Otp) (d : Dialog) : Dialog :=
  mkDialog (isOpen d) (mode d) a (recoveryCode d) (submitting d) (error d) (emailRequested d) (requestingEmail d) b c
    (flights d) (requests d) (resets d) (sent d) (identifiers d) (accepted d) (successes d).
Definition set_email (requested requesting : bool) (n : nat) (ids : list jsstring) (d : Dialog) : Dialog :=
  mkDialog (isOpen d) (mode d) (otp d) (recoveryCode d) (submitting d) (error d) requested requesting (otpMainEmail d)
    (otpRecoveryEmail d) (flights d) n (resets d) (sent d) ids (accepted d) (successes d).
Definition set_submit (b : bool) (l : list Mode) (n : nat) (s : list Body) (a ok : nat) (d : Dialog) : Dialog :=
  mkDialog (isOpen d) (mode d) (otp d) (recoveryCode d) b (error d) (emailRequested d) (requestingEmail d) (otpMainEmail d)
    (otpRecoveryEmail d) l (requests d) n s (identifiers d) a ok.
Definition setError (m : jsstring) (d : Dialog) : Dialog := set_ui (isOpen d) (mode d) (recoveryCode d) m d.
Definition setMode (m : Mode) (d : Dialog) : Dialog := set_ui (isOpen d) m (recoveryCode d) (error d) d.

Section Disable_.
(** Of the session: [user] and [username]. *)
Variables user username : option jsstring.

Definition handleRequestEmailReset (d : Dialog) : Dialog :=
  let identifier := or_else user (nullish username []) in
  if negb (truthy identifier) then setError (js "Unable to identify user. Please try again.") d
  else setError [] (set_email (emailRequested d) true (S (requests d)) (identifiers d ++ [identifier]) d).
Definition on_email_requested (ok : bool) (d : Dialog) : Dialog :=
  if (requests d =? 0)%nat then d
  else
    let n := pred (requests d) in
    if ok then set_email true false n (identifiers d) d
    else setError (js "Failed to send verification codes. Please try again.") (set_email (emailRequested d) false n (identifiers d) d).

Definition isComplete_ (d : Dialog) : bool :=
  match mode d with
  | totp => isComplete (otp d)
  | recovery => truthy (trim (recoveryCode d))
  | email_reset => isComplete (otpMainEmail d) && isComplete (otpRecoveryEmail d)
  end.
Definition body (d : Dialog) : Body :=
  match mode d with
  | totp => Totp (getValue (otp d))
  | recovery => Recovery (recoveryCode d)
  | email_reset => Emails (getValue (otpMainEmail d)) (getValue (otpRecoveryEmail d))
  end.

(** An early return runs the [finally]. *)
Definition handleSubmit (d : Dialog) : Dialog :=
  let d := setError [] d in
  if isComplete_ d
  then set_submit true (flights d ++ [mode d]) (resets d) (sent d ++ [body d]) (accepted d) (successes d) d
  else set_submit false (flights d) (resets d) (sent d) (accepted d) (successes d) d.

Definition rejected (m : Mode) : jsstring :=
  js (match m with
      | totp => "Invalid verification code" | recovery => "Invalid recovery code" | email_reset => "Invalid email verification codes"
      end).
Definition on_answer (i : nat) (ok : bool) (d : Dialog) : Dialog :=
  match flights d !! i with
  | None => d
  | Some m =>
      let rest := delete i (flights d) in
      if ok then
        set_ui false (mode d) (recoveryCode d) (error d)
          (set_submit false rest (S (resets d)) (sent d) (S (accepted d)) (S (successes d)) d)
      else
        let d := setError (rejected m) (set_submit false rest (resets d) (sent d) (accepted d) (successes d) d) in
        match m with
        | totp => set_otps (reset 6 (otp d)) (otpMainEmail d) (otpRecoveryEmail d) d
        | recovery => d
        | email_reset => set_otps (otp d) (reset 5 (otpMainEmail d)) (reset 5 (otpRecoveryEmail d)) d
        end
  end.
(** The timeout after a success. *)
Definition reset_fires (d : Dialog) : Dialog :=
  let d := set_submit (submitting d) (flights d) (pred (resets d)) (sent d) (accepted d) (successes d) d in
  let d := set_otps (reset 6 (otp d)) (reset 5 (otpMainEmail d)) (reset 5 (otpRecoveryEmail d)) d in
  set_ui (isOpen d) totp [] [] (set_email false (requestingEmail d) (requests d) (identifiers d) d).

(** The submit button: absent before the e-mails were sent. *)
Definition can_submit (d : Dialog) : bool :=
  isOpen d && (negb (bool_decide (mode d = email_reset)) || emailRequested d) && isComplete_ d && negb (submitting d).

Inductive field := FTotp | FMain | FRecovery.
Inductive event :=
  | Open | Close | Mode_ (m : Mode) | Type_ (v : jsstring) | Cell (f : field) (e : edit) | SendEmails | Emailed (ok : bool)
  | Submit | Answer (i : nat) (ok : bool) | Fires.
Definition dstep (d : Dialog) (e : event) : Dialog :=
  match e with
  | Open => set_ui true (mode d) (recoveryCode d) (error d) d
  | Close => set_ui false (mode d) (recoveryCode d) (error d) d
  | Mode_ email_reset => setMode email_reset (set_email false (requestingEmail d) (requests d) (identifiers d) d)
  | Mode_ m => setMode m d
  | Type_ v => set_ui (isOpen d) (mode d) v (error d) d
  | Cell FTotp e => set_otps (apply_edit 6 false (otp d) e) (otpMainEmail d) (otpRecoveryEmail d) d
  | Cell FMain e => set_otps (otp d) (apply_edit 5 true (otpMainEmail d) e) (otpRecoveryEmail d) d
  | Cell FRecovery e => set_otps (otp d) (otpMainEmail d) (apply_edit 5 true (otpRecoveryEmail d) e) d
  | SendEmails => if requestingEmail d then d else handleRequestEmailReset d
  | Emailed ok => on_email_requested ok d
  | Submit => if can_submit d then handleSubmit d else d
  | Answer i ok => on_answer i ok d
  | Fires => if (0 <? resets d)%nat then reset_fires d else d
  end.
Definition drun (l : list event) : Dialog := fold_left dstep l new_dialog.

Definition body_ok (b : Body) : Prop :=
  match b with
  | Totp c => length c = 6%nat ∧ Forall (λ x, is_digit x = true) c
  | Recovery c => trim c ≠ []
  | Emails a b => length a = 5%nat ∧ length b = 5%nat ∧ Forall (λ x, is_upper x || is_digit x = true) (a ++ b)
  end.

Record inv (d : Dialog) : Prop := mkInv {
  inv_totp : otp_ok 6 false (otp d);
  inv_main : otp_ok 5 true (otpMainEmail d);
  inv_rec : otp_ok 5 true (otpRecoveryEmail d);
  inv_one : (submitting d = true ∧ length (flights d) = 1%nat) ∨ (submitting d = false ∧ flights d = []);
  inv_sent : Forall body_ok (sent d);
  inv_count : successes d = accepted d ∧ (accepted d + length (flights d) <= length (sent d))%nat;
  inv_ids : Forall (λ x, truthy x = true) (identifiers d);
}.

Lemma held_alnum c : held true c = true → is_upper c || is_digit c = true.
Proof. done. Qed.

Lemma value_ok n al o : otp_ok n al o → isComplete o = true →
  length (getValue o) = n ∧ Forall (λ c, held al c = true) (getValue o).
Proof.
  intros [H1 H2] Hc. destruct (value_complete al _ H2) as (V1 & _ & V2). split; [|done]. unfold getValue.
  rewrite (proj1 V2 Hc). exact H1.
Qed.

Lemma body_complete d : inv d → isComplete_ d = true → body_ok (body d).
Proof.
  intros [A B C _ _ _ _]. unfold isComplete_, body. destruct (mode d); intros H; cbn.
  - by apply (value_ok 6 false).
  - by destruct (trim (recoveryCode d)).
  - apply andb_true_iff in H as [H1 H2]. destruct (value_ok _ _ _ B H1) as [B1 B2], (value_ok _ _ _ C H2) as [C1 C2].
    split_and!; [done|done|]. apply Forall_app. by split.
Qed.

Lemma blank_otp n al o : otp_ok n al (reset n o).
Proof. split; cbn; [apply length_replicate|apply blank_ok]. Qed.

Lemma answer_inv i ok d : inv d → inv (on_answer i ok d).
Proof.
  intros H. unfold on_answer. destruct (flights d !! i) as [m|] eqn:Ei; [|done]. destruct H as [A B C D E F G].
  destruct D as [[Hs Hl]|[_ D]]; [|by rewrite D in Ei]. destruct (flights d) as [|m' [|m'' fl]] eqn:Ef; try done.
  destruct i; [|done]. cbn in Ei. injection Ei as ->. cbn [delete list_delete]. cbn in F.
  destruct ok; [|destruct m]; constructor; cbn; try done; try apply blank_otp; try (by right); lia.
Qed.

Lemma disable_step_inv e d : inv d → inv (dstep d e).
Proof.
  intros H. pose proof H as [A B C D E F G]. destruct e as [| |m|v|f ed| |ok| |i ok|]; cbn [dstep].
  - by constructor.
  - by constructor.
  - by destruct m; constructor.
  - by constructor.
  - destruct f; constructor; cbn; try done; by apply edit_ok.
  - destruct (requestingEmail d); [done|]. unfold handleRequestEmailReset.
    destruct (truthy (or_else user _)) eqn:Et; cbn [negb]; constructor; cbn; try done. apply Forall_app. split; [done|].
    by apply Forall_singleton.
  - unfold on_email_requested. destruct (requests d =? 0)%nat; [done|]. by destruct ok; constructor.
  - destruct (can_submit d) eqn:Ec; [|done]. unfold can_submit in Ec. rewrite !andb_true_iff, negb_true_iff in Ec.
    destruct Ec as [[[_ _] Hc] Hs]. unfold handleSubmit. change (isComplete_ (setError [] d)) with (isComplete_ d). rewrite Hc.
    destruct D as [[D _]|[_ D]]; [congruence|]. constructor; cbn; try done.
    + left. by rewrite D.
    + apply Forall_app. split; [done|]. constructor; [|done]. exact (body_complete d H Hc).
    + rewrite !length_app, D. rewrite D in F. cbn in *. lia.
  - by apply answer_inv.
  - destruct (0 <? resets d)%nat; [|done]. constructor; cbn; try done; apply blank_otp.
Qed.

(** Whatever is typed, switched, closed and answered: a request to turn the factor
    off carries one complete proof (six digits, a recovery code that is not blank,
    or two codes of five characters), at most one is under way, the page is told
    of a success exactly as often as the server accepted, which is at most once
    per request, and e-mails are asked for a known user only. *)
Lemma mfa_disable_sound (l : list event) :
  let d := drun l in
  Forall body_ok (sent d) ∧ (length (flights d) <= 1)%nat ∧ successes d = accepted d ∧
  (accepted d <= length (sent d))%nat ∧ Forall (λ x, truthy x = true) (identifiers d).
Proof.
  assert (inv (drun l)) as [A B C D E F G].
  { unfold drun. assert (inv new_dialog) as H.
    { constructor; cbn; try done; try (split; [done|apply blank_ok]). by right. }
    revert H. generalize new_dialog. induction l as [|e l IH]; cbn; [done|]. intros d H. by apply IH, disable_step_inv. }
  destruct F as [F1 F2]. split_and!; try done; [|lia]. destruct D as [[_ D]|[_ D]]; rewrite D; cbn; lia.
Qed.
End Disable_.

(** A dialog closed by hand keeps what was typed: the recovery code is there when
    it opens again. *)
Example typed_code_kept :
  recoveryCode (drun None None [Mode_ recovery; Type_ (js "abcd-1234"); Close; Open]) = js "abcd-1234".
Proof. vm_compute. reflexivity. Qed.
