(* ===== verification/DeviceChooser.v ===== *)
(** * Choosing the devices to keep (components/billing/DeviceChooserDialog.tsx)

    The dialog of a Cloud namespace over its free limit: the suggested devices, or
    up to three picked from a searchable, sorted and paginated list.  With it the
    trigger that mounts it, hooks/useTableSort.ts, hooks/useDebouncedValue.ts and
    utils/pagination.ts.

    What the queries return is part of the state and may change at any time; the
    answers to the choice are events.  [sent] is what was asked for. *)

From S2P Require Import Prelude JsString.
From S2P Require Permission.

(** ** utils/pagination.ts, hooks/useTableSort.ts *)

Definition PER_PAGE : Z := 10.
(** [Math.ceil(totalCount / perPage)] *)
Definition pageCount (totalCount perPage : Z) : Z := - (- totalCount / perPage).

(** The pages hold every row, and none of them is empty. *)
Lemma pageCount_exact n per : 0 <= n → 0 < per → pageCount n per * per - per < n <= pageCount n per * per.
Proof. intros Hn Hp. unfold pageCount. pose proof (Z.div_mod (- n) per). pose proof (Z.mod_pos_bound (- n) per). nia. Qed.

Inductive SortOrder := asc | desc.
Definition flip (o : SortOrder) : SortOrder := match o with asc => desc | desc => asc end.
Definition handleSort (field : jsstring) (s : jsstring * SortOrder) : jsstring * SortOrder :=
  if bool_decide (s.1 = field) then (s.1, flip s.2)
  else (field, if bool_decide (field = js "name") then asc else desc).

(** ** hooks/useDebouncedValue.ts *)

Module Debounce.
Record State := mkState { value : jsstring; debounced : jsstring; timer : option (Z * jsstring); now : Z }.
Definition mount (delay t : Z) (v : jsstring) : State := mkState v v (Some (t + delay, v)) t.
(** The effect runs when the value differs from the last one. *)
Definition set (delay : Z) (v : jsstring) (s : State) : State :=
  if bool_decide (v = value s) then s else mkState v (debounced s) (Some (now s + delay, v)) (now s).
Definition wait (dt : Z) (s : State) : State :=
  let t := now s + dt in
  match timer s with
  | Some (due, v) => if due <=? t then mkState (value s) v None t else mkState (value s) (debounced s) (Some (due, v)) t
  | None => mkState (value s) (debounced s) None t
  end.
Inductive change := Set_ (v : jsstring) | Wait (dt : Z).
Definition react (delay : Z) (s : State) (e : change) : State := match e with Set_ v => set delay v s | Wait dt => wait dt s end.

Definition ok (delay : Z) (s : State) : Prop :=
  match timer s with Some (due, v) => v = value s ∧ due <= now s + delay | None => debounced s = value s end.

Lemma debounce_step_ok delay s e : 0 <= delay → (∀ dt, e = Wait dt → 0 <= dt) → ok delay s → ok delay (react delay s e).
Proof.
  intros Hd He H. destruct e as [v|dt]; cbn [react].
  - unfold set. case_bool_decide; [done|]. unfold ok. cbn. split; [done|lia].
  - specialize (He dt eq_refl). unfold wait, ok in *. destruct (timer s) as [[due v]|]; cbn; [|done]. destruct H as [-> H].
    destruct (Z.leb_spec due (now s + dt)); cbn; [done|split; [done|lia]].
Qed.

(** A pause as long as the delay brings the copy up to date; until the timer is
    due the copy does not move. *)
Lemma debounce_settles delay v t es : 0 <= delay → Forall (λ e, ∀ dt, e = Wait dt → 0 <= dt) es →
  let s := fold_left (react delay) es (mount delay t v) in
  debounced (wait delay s) = value s ∧
  (∀ due x, timer s = Some (due, x) → x = value s ∧ ∀ dt, now s + dt < due → debounced (wait dt s) = debounced s).
Proof.
  intros Hd Hes. cbn zeta. assert (ok delay (fold_left (react delay) es (mount delay t v))) as H.
  { assert (ok delay (mount delay t v)) as H by (unfold ok; cbn; split; [done|lia]). revert H. generalize (mount delay t v).
    induction Hes as [|e es He Hes IH]; intros s H; [done|]. cbn. by apply IH, debounce_step_ok. }
  generalize dependent (fold_left (react delay) es (mount delay t v)). intros s H. unfold ok, wait in *.
  destruct (timer s) as [[due x]|]; cbn.
  - destruct H as [-> H]. split; [by rewrite (proj2 (Z.leb_le _ _)) by lia|]. intros d x [= <- <-]. split; [done|].
    intros dt Hdt. by rewrite (proj2 (Z.leb_gt _ _)) by lia.
  - split; [done|]. by intros.
Qed.
End Debounce.

(** ** components/billing/DeviceChooserTrigger.tsx *)

Definition FREE_TIER_DEVICE_LIMIT : nat := 3.
Record Live := mkLive {
  l_cloud : bool;
  l_role : option jsstring;
  l_tenant : option jsstring;
  l_loading : bool;                 (* either query *)
  l_billing : option bool;          (* the namespace and whether its billing is active *)
  l_registered : option nat;        (* the stats *)
}.
Definition shouldShow (l : Live) (dismissed : bool) : bool :=
  if negb (l_cloud l) then false
  else if negb (is_truthy (l_tenant l)) || l_loading l then false
  else match l_billing l, l_registered l with
       | Some active, Some n =>
           Permission.hasPermission (l_role l) (js "device:choose") && negb active && (FREE_TIER_DEVICE_LIMIT <? n)%nat
           && negb dismissed
       | _, _ => false
       end.

(** ** The dialog *)

Inductive TabId := suggested_tab | all_tab.
#[export] Instance TabId_eq_dec : EqDecision TabId.
Proof. solve_decision. Defined.

Record Device := mkDevice { uid : jsstring; dev_name : jsstring }.

Record Dialog := mkDialog {
  isOpen : bool;
  userTab : option TabId;
  search : jsstring;
  page : Z;
  selected : list Device;
  error : option jsstring;
  sort : jsstring * SortOrder;
  inFlight : bool;                  (* the ref, and the pending mutation *)
  suggested : list Device;          (* the query of the most used devices *)
  suggestedLoading : bool;
  suggestedError : bool;
  sent : list (list jsstring);
}.
Definition new_dialog : Dialog := mkDialog true None [] 1 [] None (js "last_seen", desc) false [] true false [].

Definition put (ut : option TabId) (q : jsstring) (pg : Z) (sel : list Device) (er : option jsstring) (d : Dialog) : Dialog :=
  mkDialog (isOpen d) ut q pg sel er (sort d) (inFlight d) (suggested d) (suggestedLoading d) (suggestedError d) (sent d).
Definition put_sort (s : jsstring * SortOrder) (pg : Z) (d : Dialog) : Dialog :=
  mkDialog (isOpen d) (userTab d) (search d) pg (selected d) (error d) s (inFlight d) (suggested d) (suggestedLoading d)
    (suggestedError d) (sent d).
Definition put_query (l : list Device) (ld er : bool) (d : Dialog) : Dialog :=
  mkDialog (isOpen d) (userTab d) (search d) (page d) (selected d) (error d) (sort d) (inFlight d) l ld er (sent d).
Definition put_flight (op fl : bool) (er : option jsstring) (s : list (list jsstring)) (d : Dialog) : Dialog :=
  mkDialog op (userTab d) (search d) (page d) (selected d) er (sort d) fl (suggested d) (suggestedLoading d) (suggestedError d) s.

Definition suggestedEmpty (d : Dialog) : bool :=
  negb (suggestedLoading d) && negb (suggestedError d) && bool_decide (length (suggested d) = 0%nat).
Definition tab (d : Dialog) : TabId := if suggestedEmpty d then all_tab else nullish (userTab d) suggested_tab.

Definition is_uid (u : jsstring) (x : Device) : bool := bool_decide (uid x = u).
Definition toggle (x : Device) (prev : list Device) : list Device :=
  if existsb (is_uid (uid x)) prev then List.filter (λ y, negb (is_uid (uid x) y)) prev
  else if (FREE_TIER_DEVICE_LIMIT <=? length prev)%nat then prev
  else prev ++ [x].
Definition toggleSelected (x : Device) (d : Dialog) : Dialog :=
  put (match userTab d with None => Some all_tab | t => t end) (search d) (page d) (toggle x (selected d)) (error d) d.

Definition handleSearchChange (v : jsstring) (d : Dialog) : Dialog := put (userTab d) v 1 (selected d) None d.

Definition handleTabChange (next : TabId) (d : Dialog) : Dialog :=
  if bool_decide (next = suggested_tab) && suggestedEmpty d then d
  else put (Some next) (search d) (page d) (match next with suggested_tab => [] | all_tab => selected d end) None d.

Definition acceptDisabled (d : Dialog) : bool :=
  inFlight d || match tab d with
                | suggested_tab => bool_decide (suggested d = [])
                | all_tab => bool_decide (selected d = [])
                end.
Definition choices (d : Dialog) : list jsstring :=
  map uid (match tab d with suggested_tab => suggested d | all_tab => selected d end).
Definition accept (d : Dialog) : Dialog :=
  if inFlight d then d
  else match choices d with
       | [] => put_flight (isOpen d) false None (sent d) d
       | cs => put_flight (isOpen d) true None (sent d ++ [cs]) d
       end.
Definition FORBIDDEN : jsstring := js "You don't have permission to choose devices for this namespace.".
Definition NOT_SAVED : jsstring := js "We couldn't save your selection. Please try again in a few moments.".
(** [None]: saved; otherwise the status of an SDK error, if it is one. *)
Definition on_answer (r : option (option Z)) (d : Dialog) : Dialog :=
  if negb (inFlight d) then d
  else match r with
       | None => put_flight false false (error d) (sent d) d
       | Some status =>
           put_flight (isOpen d) false (Some (if bool_decide (status = Some 403) then FORBIDDEN else NOT_SAVED)) (sent d) d
       end.

(** The tabs by keyboard: [ArrowRight], [ArrowLeft], [Home], [End]. *)
Inductive Key := ArrowRight | ArrowLeft | Home | End_ | OtherKey.
Definition enabled_tabs (d : Dialog) : list TabId := if suggestedEmpty d then [all_tab] else [suggested_tab; all_tab].
Definition next_tab (k : Key) (d : Dialog) : option TabId :=
  let enabled := enabled_tabs d in
  let n := Z.of_nat (length enabled) in
  let idx := match list_find (λ t, t = tab d) enabled with Some (i, _) => Z.of_nat i | None => -1 end in
  match k with
  | ArrowRight => enabled !! Z.to_nat ((idx + 1) mod n)
  | ArrowLeft => enabled !! Z.to_nat ((idx - 1 + n) mod n)
  | Home => enabled !! 0%nat
  | End_ => enabled !! Z.to_nat (n - 1)
  | OtherKey => None
  end.
Definition handleKeyDown (k : Key) (d : Dialog) : Dialog :=
  match next_tab k d with Some t => handleTabChange t d | None => d end.

Inductive event :=
  | Toggle (x : Device) | Search (v : jsstring) | Tab (t : TabId) | KeyDown (k : Key) | Page (n : Z) | Sort (f : jsstring)
  | Accept | Answer (r : option (option Z)) | Cancel | Suggestions (l : list Device) (loading err : bool).
Definition step (d : Dialog) (e : event) : Dialog :=
  match e with
  | Toggle x => if bool_decide (tab d = all_tab) then toggleSelected x d else d
  | Search v => if bool_decide (tab d = all_tab) then handleSearchChange v d else d
  | Tab t => handleTabChange t d
  | KeyDown k => handleKeyDown k d
  | Page n => put (userTab d) (search d) n (selected d) (error d) d
  | Sort f => put_sort (handleSort f (sort d)) 1 d
  | Accept => if acceptDisabled d then d else accept d
  | Answer r => on_answer r d
  | Cancel => if inFlight d then d else put_flight false (inFlight d) (error d) (sent d) d
  | Suggestions l ld er => put_query l ld er d
  end.
Definition run (es : list event) : Dialog := fold_left step es new_dialog.

(** ** Facts *)

Definition sel_ok (l : list Device) : Prop := NoDup (map uid l) ∧ (length l <= FREE_TIER_DEVICE_LIMIT)%nat.

Lemma toggle_ok x l : sel_ok l → sel_ok (toggle x l).
Proof.
  intros [Hn Hl]. unfold toggle. destruct (existsb (is_uid (uid x)) l) eqn:E.
  - split.
    + clear E Hl. induction l as [|y l IH]; cbn in *; [constructor|]. apply NoDup_cons in Hn as [Hy Hn].
      destruct (negb (is_uid (uid x) y)); cbn; [|by apply IH]. apply NoDup_cons. split; [|by apply IH]. contradict Hy.
      apply list_elem_of_fmap in Hy as (z & -> & Hz). apply list_elem_of_In, List.filter_In in Hz as [Hz _].
      apply list_elem_of_fmap. exists z. split; [done|]. by apply list_elem_of_In.
    + etrans; [apply List.filter_length_le|done].
  - destruct (Nat.leb_spec FREE_TIER_DEVICE_LIMIT (length l)); [done|]. split; [|rewrite length_app; cbn; lia].
    rewrite map_app. apply NoDup_app. split_and!; [done| |apply NoDup_singleton]. intros u Hu ->%list_elem_of_singleton.
    apply list_elem_of_fmap in Hu as (z & Hz & Hin). apply Bool.not_true_iff_false in E. apply E, existsb_exists.
    exists z. split; [by apply list_elem_of_In|]. unfold is_uid. by apply bool_decide_eq_true.
Qed.

(** Toggling a device that is selected and again leaves the others as they were. *)
Lemma toggle_membership x l y : sel_ok l → uid y ≠ uid x → y ∈ toggle x l ↔ y ∈ l.
Proof.
  intros _ Hne. unfold toggle. destruct (existsb _ l) eqn:E; [|destruct (_ <=? _)%nat; [done|]].
  - rewrite !list_elem_of_In, List.filter_In. unfold is_uid. rewrite negb_true_iff, bool_decide_eq_false. naive_solver.
  - rewrite elem_of_app, list_elem_of_singleton. naive_solver.
Qed.

(** What was sent: a selection, or suggestions as they were shown. *)
Record inv (d : Dialog) : Prop := mkInv {
  inv_sel : sel_ok (selected d);
  inv_sent : Forall (λ cs, cs ≠ []) (sent d);
}.

Lemma tab_change_inv t d : inv d → inv (handleTabChange t d).
Proof.
  intros [A B]. unfold handleTabChange. destruct (_ && _); [done|]. constructor; [|done]. destruct t; [|done]. split; [constructor|cbn; lia].
Qed.

Lemma chooser_step_inv e d : inv d → inv (step d e).
Proof.
  intros H. pose proof H as [A B]. destruct e; cbn [step]; try (by constructor); try by apply tab_change_inv.
  - case_bool_decide; [|done]. constructor; [by apply toggle_ok|done].
  - case_bool_decide; [|done]. by constructor.
  - unfold handleKeyDown. destruct (next_tab k d); [by apply tab_change_inv|done].
  - destruct (acceptDisabled d); [done|]. unfold accept. destruct (inFlight d); [done|].
    destruct (choices d) as [|c cs]; constructor; try done. apply Forall_app. split; [done|]. by apply Forall_singleton.
  - unfold on_answer. destruct (negb _); [done|]. by destruct r.
  - by destruct (inFlight d).
Qed.

Lemma chooser_run_inv es : inv (run es).
Proof.
  unfold run. assert (inv new_dialog) as H by (constructor; [split; [constructor|cbn; lia]|constructor]).
  revert H. generalize new_dialog. induction es as [|e es IH]; cbn; [done|]. intros d H. by apply IH, chooser_step_inv.
Qed.

(** Whatever is picked, searched, switched and answered, and however the
    suggestions change: a choice that is sent is not empty; from the list of all
    devices it has at most three, each once, exactly those selected; from the
    suggestions exactly those shown; a second one waits for the first; and the
    dialog closes by itself only when the server took the choice. *)
Lemma chooser_sound es e :
  let d := run es in let d' := step d e in
  sel_ok (selected d) ∧ Forall (λ cs, cs ≠ []) (sent d) ∧
  (sent d' ≠ sent d → e = Accept ∧ inFlight d = false ∧ sent d' = sent d ++ [choices d] ∧ choices d ≠ [] ∧
     (tab d = all_tab → choices d = map uid (selected d) ∧ NoDup (choices d) ∧ (length (choices d) <= 3)%nat)) ∧
  (isOpen d = true → isOpen d' = false → e = Cancel ∨ e = Answer None).
Proof.
  cbn zeta. destruct (chooser_run_inv es) as [A B]. generalize dependent (run es). intros d A B. split; [done|]. split; [done|]. split.
  - intros Hs. destruct e; cbn [step] in Hs; try done.
    + by destruct (bool_decide _).
    + by destruct (bool_decide _).
    + unfold handleTabChange in Hs. by destruct (_ && _).
    + unfold handleKeyDown, handleTabChange in Hs. destruct (next_tab k d); [|done]. by destruct (_ && _).
    + cbn [step]. destruct (acceptDisabled d) eqn:Ed; [done|]. unfold accept in *. destruct (inFlight d); [done|].
      destruct (choices d) as [|c cs] eqn:Ec; [done|]. split_and!; try done. intros Ht. unfold choices in Ec. rewrite Ht in Ec.
      split; [done|]. rewrite <- Ec, length_map. exact A.
    + unfold on_answer in Hs. destruct (inFlight d), r; done.
    + by destruct (inFlight d).
  - intros Ho Hc. destruct e; cbn [step] in Hc; try (cbn in Hc; congruence).
    + case_bool_decide; cbn in Hc; congruence.
    + case_bool_decide; cbn in Hc; congruence.
    + unfold handleTabChange in Hc. destruct (_ && _); cbn in Hc; congruence.
    + unfold handleKeyDown, handleTabChange in Hc. destruct (next_tab k d); [|congruence]. destruct (_ && _); cbn in Hc; congruence.
    + destruct (acceptDisabled d); [congruence|]. unfold accept in Hc. destruct (inFlight d); [congruence|].
      destruct (choices d); cbn in Hc; congruence.
    + unfold on_answer in Hc. destruct (inFlight d); cbn in Hc; [|congruence]. destruct r; [cbn in Hc; congruence|by right].
    + by left.
Qed.

(** The keyboard never leads to a disabled tab. *)
Lemma keyboard_stays_enabled k d t : next_tab k d = Some t → t ∈ enabled_tabs d ∧ tab (handleTabChange t d) = t.
Proof.
  intros H. assert (t ∈ enabled_tabs d) as Ht by (unfold next_tab in H; destruct k; try done; by eapply list_elem_of_lookup_2).
  split; [done|]. assert (∀ a b c s r, suggestedEmpty (put a b c s r d) = suggestedEmpty d) as Hput by done.
  unfold enabled_tabs in Ht. unfold handleTabChange, tab. destruct (suggestedEmpty d) eqn:E.
  - apply list_elem_of_singleton in Ht as ->. rewrite bool_decide_false by done. cbn [andb]. by rewrite Hput.
  - by rewrite andb_false_r, Hput.
Qed.

(** The user went back to the suggestions, they emptied, a device was picked from
    the forced list, and they came back: "Accept" sends the suggestions. *)
Example picked_but_suggested_sent :
  let a := mkDevice (js "a") (js "a") in let b := mkDevice (js "b") (js "b") in
  let d := run [Suggestions [a] false false; Tab all_tab; Tab suggested_tab; Suggestions [] false false; Toggle b;
                Suggestions [a] false false; Accept] in
  map uid (selected d) = [js "b"] ∧ sent d = [[js "a"]].
Proof. vm_compute. done. Qed.
