(* ===== verification/WebEndpoints.v ===== *)
(** * Web endpoints (pages/WebEndpoints.tsx)

    The tunnels of the devices: how an endpoint's expiration reads, the validators
    of the new endpoint's host and hostname, the drawer that creates one and the
    dialog that deletes one.  With them components/common/fields/NumericInput.tsx,
    components/common/ConfirmDialog.tsx and hooks/useResetOnOpen.ts.

    The drawer and the page are event machines.  [sent] is what was asked for; the
    answers are events, and one that comes late runs on whatever the page shows by
    then.  Parameters: [getTime] (the time a date string stands for), [formatDate]
    (date-fns) and [toLocaleDateString]. *)

From S2P Require Import Prelude JsString JsRegex.
From S2P Require Recordings SourceIp DeviceChooser.

(** ** Regular expressions: the characters a pattern admits *)

Fixpoint only_chars (P : N → Prop) (r : re) : Prop :=
  match r with
  | REmpty | REps => True
  | RChr p => ∀ c, p c = true → P c
  | RSeq a b | RAlt a b => only_chars P a ∧ only_chars P b
  | RStar a => only_chars P a
  end.
Lemma lang_chars (P : N → Prop) r s : only_chars P r → lang r s → Forall P s.
Proof.
  intros Hr H. revert Hr. induction H as [|p c Hc|a b s t _ IHa _ IHb|a b s _ IH|a b s _ IH|a|a s t _ IHa _ IHb]; cbn; intros Hr.
  - constructor.
  - constructor; [by apply Hr|constructor].
  - apply Forall_app. naive_solver.
  - naive_solver.
  - naive_solver.
  - constructor.
  - apply Forall_app. naive_solver.
Qed.
Lemma only_chars_UpTo P n a : only_chars P a → only_chars P (RUpTo n a).
Proof. intros H. induction n; cbn; auto. Qed.
Lemma only_chars_Times P n a : only_chars P a → only_chars P (RTimes n a).
Proof. intros H. induction n; cbn; auto. Qed.
Lemma only_chars_Range P lo ex a : only_chars P a → only_chars P (RRange lo ex a).
Proof. split; [by apply only_chars_Times|by apply only_chars_UpTo]. Qed.

(** A bounded repetition is that many strings of the pattern, one after the other. *)
Lemma lang_Times n a s : lang (RTimes n a) s ↔ ∃ l, length l = n ∧ s = concat l ∧ Forall (lang a) l.
Proof.
  revert s. induction n as [|n IH]; intros s; cbn [RTimes].
  - rewrite lang_Eps. split; [intros ->; by exists []|]. intros ([|] & ? & -> & _); done.
  - rewrite lang_Seq. setoid_rewrite IH. split.
    + intros (u & v & -> & Hu & l & <- & -> & Hl). exists (u :: l). repeat split. by constructor.
    + intros ([|u l] & [= Hl] & -> & Hf); apply Forall_cons in Hf as [Hu Hf]. exists u, (concat l). eauto 10.
Qed.
Lemma lang_UpTo n a s : lang (RUpTo n a) s ↔ ∃ l, (length l <= n)%nat ∧ s = concat l ∧ Forall (lang a) l.
Proof.
  revert s. induction n as [|n IH]; intros s; cbn [RUpTo].
  - rewrite lang_Eps. split; [intros ->; by exists []|]. intros ([|] & H & -> & _); [done|cbn in H; lia].
  - rewrite lang_Opt, lang_Seq. setoid_rewrite IH. split.
    + intros [->|(u & v & -> & Hu & l & Hl & -> & Hf)]; [exists []; split; [cbn; lia|done]|].
      exists (u :: l). cbn. split; [lia|]. split; [done|by constructor].
    + intros ([|u l] & Hl & -> & Hf); [by left|]. right. apply Forall_cons in Hf as [Hu Hf]. cbn in Hl.
      exists u, (concat l). split; [done|]. split; [done|]. exists l. split; [lia|done].
Qed.
Lemma lang_Range lo ex a s : lang (RRange lo ex a) s ↔ ∃ l, (lo <= length l <= lo + ex)%nat ∧ s = concat l ∧ Forall (lang a) l.
Proof.
  unfold RRange. rewrite lang_Seq. setoid_rewrite lang_Times. setoid_rewrite lang_UpTo. split.
  - intros (u & v & -> & (l & Hl & -> & Hf) & k & Hk & -> & Hg). exists (l ++ k). rewrite length_app, concat_app.
    split; [lia|]. split; [done|by apply Forall_app].
  - intros (l & Hl & -> & Hf). exists (concat (take lo l)), (concat (drop lo l)). rewrite <-concat_app, take_drop.
    split; [done|]. split; [exists (take lo l)|exists (drop lo l)]; rewrite ?length_take, ?length_drop;
      (split; [lia|]); (split; [done|]); [by apply Forall_take|by apply Forall_drop].
Qed.

(** ** Expiration *)

Definition GO_ZERO_TIME : jsstring := js "0001-01-01T00:00:00Z".
Definition neverExpires (expiresIn : jsstring) : bool := negb (truthy expiresIn) || bool_decide (expiresIn = GO_ZERO_TIME).

Section Expiration.
Context (getTime : jsstring → option Z) (formatDate toLocaleDateString : jsstring → jsstring).

(** A comparison with an invalid date's [NaN] is false. *)
Definition isExpired (expiresIn : jsstring) (now : Z) : bool :=
  if neverExpires expiresIn then false
  else match getTime expiresIn with Some t => t <? now | None => false end.

Definition formatExpiration (expiresIn : jsstring) (now : Z) : jsstring :=
  if neverExpires expiresIn then js "Never expires"
  else match getTime expiresIn with
       | Some t =>
           if t <? now then js "Expired " ++ formatDate expiresIn
           else let diffMs := t - now in
                let diffMins := diffMs / 60000 in
                if diffMins <? 60 then Z_to_string diffMins ++ js "m remaining"
                else let diffHrs := diffMins / 60 in
                     if diffHrs <? 24 then Z_to_string diffHrs ++ js "h remaining"
                     else let diffDays := diffHrs / 24 in
                          if diffDays <? 30 then Z_to_string diffDays ++ js "d remaining"
                          else toLocaleDateString expiresIn
       | None => toLocaleDateString expiresIn
       end.

(** The units of the label, in milliseconds: what is left, rounded down to the
    largest unit that fits. *)
Definition units : list (Z * Z * jsstring) :=
  [(0, 60000, js "m remaining"); (3600000, 3600000, js "h remaining"); (86400000, 86400000, js "d remaining")].

(** The label of an endpoint still alive rounds down, to the largest of minutes,
    hours and days that is not zero, and beyond thirty days shows the date. *)
Lemma expiration_rounds_down e now t : neverExpires e = false → getTime e = Some t → now <= t →
  isExpired e now = false ∧
  (2592000000 <= t - now → formatExpiration e now = toLocaleDateString e) ∧
  (t - now < 2592000000 → ∃ n lo u suffix, (lo, u, suffix) ∈ units ∧ formatExpiration e now = Z_to_string n ++ suffix ∧
     n * u <= t - now < (n + 1) * u ∧ lo <= t - now ∧ 0 <= n).
Proof.
  intros Hn Ht Hle. unfold isExpired, formatExpiration. rewrite Hn, Ht, (proj2 (Z.ltb_ge t now)) by done. split; [done|]. cbv zeta.
  rewrite !Z.div_div by lia. change (60000 * 60) with 3600000. change (3600000 * 24) with 86400000. set (d := t - now).
  assert (0 <= d) as Hd by (unfold d; lia). split.
  - intros H. rewrite !(proj2 (Z.ltb_ge _ _)); [done|zlia..].
  - intros H. destruct (Z.ltb_spec (d / 60000) 60); [|destruct (Z.ltb_spec (d / 3600000) 24)].
    + eexists _, _, _, _. split; [left|]. split; [done|]. zlia.
    + eexists _, _, _, _. split; [right; left|]. split; [done|]. zlia.
    + rewrite (proj2 (Z.ltb_lt _ _)) by zlia. eexists _, _, _, _. split; [right; right; left|]. split; [done|]. zlia.
Qed.
End Expiration.

(** ** The validators *)

Definition num_geb (n : jsnum) (c : Z) : bool :=
  match n with NaN => false | Inf neg => negb neg | Dec m k => c * 10 ^ Z.of_nat k <=? m end.

Definition isValidIPv4 (ip : jsstring) : bool :=
  let parts := split ip 46 in
  if negb (length parts =? 4)%nat then false
  else forallb (λ p, let n := Number p in rmatch (RRange 1 2 (RChr is_digit)) p && num_geb n 0 && num_leb n 255) parts.

Definition GROUP6 : re := RRange 0 4 (RChr is_hex).
Definition IPV6 : re := RSeq (RRange 2 5 (RSeq GROUP6 (RLit 58))) GROUP6.
Definition isValidIPv6 (ip : jsstring) : bool := rmatch IPV6 ip || bool_decide (ip = js "::1").

Definition isValidHost (host : jsstring) : bool := isValidIPv4 host || isValidIPv6 host.

Definition letter (c : N) : bool := is_lower c || is_upper c.
Definition alnum (c : N) : bool := letter c || is_digit c.
Definition alnum_hyphen (c : N) : bool := alnum c || (c =? 45)%N.
Definition LABEL_RE : re := RSeq (RChr alnum) (ROpt (RSeq (RRange 0 61 (RChr alnum_hyphen)) (RChr alnum))).
Definition FQDN : re := RSeq (RPlus (RSeq LABEL_RE (RLit 46))) (RSeq (RTimes 2 (RChr letter)) (RStar (RChr letter))).
Definition isValidFQDN (domain : jsstring) : bool := rmatch FQDN domain.

Definition MAX_CUSTOM_TTL : Z := 9223372036.

Lemma Number_digits s : s ≠ [] → (length s <= 3)%nat → Forall (λ c, is_digit c = true) s →
  Number s = Dec (Z.of_N (digits_value s)) 0.
Proof.
  intros Hs Hl Hd. unfold Number. rewrite trim_no_ws by (eapply Forall_impl; [exact Hd|apply digit_not_ws]).
  rewrite bool_decide_eq_false_2 by done. rewrite radix_prefix_digits by done.
  destruct s as [|c r]; [done|]. pose proof Hd as [Hc _]%Forall_cons. rewrite read_sign_digit by done.
  rewrite bool_decide_eq_false_2 by (intros E; rewrite E in Hd; vm_compute in Hd; by apply Forall_cons in Hd as [? _]).
  rewrite (read_decimal_digits (c :: r)) by done. cbn [signed]. apply mk_num_integer.
  assert (∀ l a, (length l <= 3)%nat → Forall (λ c, is_digit c = true) l →
     (fold_left (λ a c, a * 10 + (c - 48)) l a <= 1000 * a + 999)%N) as HB.
  { intros l a Hl' Hf. destruct l as [|x [|y [|z [|]]]]; cbn in *; try lia; rewrite ?Forall_cons, ?is_digit_spec in Hf; lia. }
  specialize (HB (c :: r) 0%N Hl Hd). unfold digits_value.
  assert (999 < overflow_bound) by (vm_compute; done). lia.
Qed.

(** The dotted quad of this page is the one the source field of the firewall
    rules reads. *)
Lemma isValidIPv4_octets s : isValidIPv4 s = bool_decide (is_Some (SourceIp.ipv4Octets s)).
Proof.
  unfold isValidIPv4, SourceIp.ipv4Octets, SourceIp.quad_groups. destruct (Nat.eqb_spec (length (split s 46)) 4) as [E|E]; cbn [negb andb].
  2:{ done. }
  assert (∀ p, (rmatch (RRange 1 2 (RChr is_digit)) p && num_geb (Number p) 0 && num_leb (Number p) 255) =
    SourceIp.is_group p && (digits_value p <=? 255)%N) as HG.
  { intros p. assert (rmatch (RRange 1 2 (RChr is_digit)) p = SourceIp.is_group p) as ->.
    { apply eq_iff_eq_true. by rewrite rmatch_spec, lang_RangeChr, SourceIp.is_group_spec. }
    destruct (SourceIp.is_group p) eqn:G; [|done]. apply SourceIp.is_group_spec in G as [Hl Hd]. cbn.
    rewrite Number_digits by (done || lia || (by destruct p; [cbn in Hl; lia|])). cbn.
    apply eq_iff_eq_true. rewrite andb_true_iff, !Z.leb_le, N.leb_le. lia. }
  set (gs := split s 46). replace (forallb _ gs) with (forallb (λ p, SourceIp.is_group p && (digits_value p <=? 255)%N) gs)
    by (clear - HG; induction gs as [|g gs IH]; cbn; [done|by rewrite HG, IH]).
  clear. assert (forallb (λ p, SourceIp.is_group p && (digits_value p <=? 255)%N) gs =
    forallb SourceIp.is_group gs && negb (existsb (λ n, 255 <? n)%N (map digits_value gs))) as ->.
  { induction gs as [|g gs IH]; cbn [forallb map existsb]; [done|]. rewrite IH.
    rewrite negb_orb, N.ltb_antisym, negb_involutive. 
    by destruct (SourceIp.is_group g), (digits_value g <=? 255)%N, (forallb SourceIp.is_group gs),
      (existsb (λ n, 255 <? n)%N (map digits_value gs)). }
  destruct (forallb SourceIp.is_group gs); cbn [andb]; [|done]. by destruct (existsb _ _).
Qed.

(** What the IPv6 pattern takes: three to eight groups of at most four hexadecimal
    digits, any of them empty. *)
Lemma isValidIPv6_exact s : isValidIPv6 s = true ↔ ∃ gs g,
  (2 <= length gs <= 7)%nat ∧ s = concat (map (λ g, g ++ [58%N]) gs) ++ g ∧
  Forall (λ g, (length g <= 4)%nat ∧ Forall (λ c, is_hex c = true) g) (gs ++ [g]).
Proof.
  unfold isValidIPv6. rewrite orb_true_iff, rmatch_spec, bool_decide_eq_true.
  assert (lang IPV6 (js "::1")) as H1 by (apply rmatch_spec; vm_compute; done).
  transitivity (lang IPV6 s); [naive_solver|]. clear H1. unfold IPV6. rewrite lang_Seq. split.
  - intros (u & g & -> & (l & Hl & -> & Hf)%lang_Range & [Hg Hx]%lang_RangeChr).
    assert (∃ gs, l = map (λ g, g ++ [58%N]) gs ∧ Forall (λ g, (length g <= 4)%nat ∧ Forall (λ c, is_hex c = true) g) gs) as (gs & -> & Hgs).
    { clear Hl. induction Hf as [|x l Hx' Hf IH]; [by exists []|]. destruct IH as (gs & -> & Hgs).
      apply lang_Seq in Hx' as (a & b & -> & Ha%lang_RangeChr & ->%lang_Lit). exists (a :: gs). split; [done|].
      constructor; [|done]. split; [lia|naive_solver]. }
    exists gs, g. rewrite length_map in Hl. split; [lia|]. split; [done|]. apply Forall_app. split; [done|].
    constructor; [split; [lia|done]|constructor].
  - intros (gs & g & Hl & -> & [Hgs Hg]%Forall_app). apply Forall_singleton in Hg as [Hg Hx].
    exists (concat (map (λ g, g ++ [58%N]) gs)), g. split; [done|]. split; [|apply lang_RangeChr; split; [lia|done]].
    apply lang_Range. exists (map (λ g, g ++ [58%N]) gs). rewrite length_map. split; [lia|]. split; [done|]. apply Forall_map.
    eapply Forall_impl; [exact Hgs|]. intros x [Hx1 Hx2]. apply lang_Seq. exists x, [58%N].
    split; [done|]. split; [apply lang_RangeChr; split; [lia|done]|by apply lang_Lit].
Qed.

(** *** What the validators take, on its own terms *)

(** Four numbers of one to three digits, up to 255, between dots. *)
Definition octet (p : jsstring) : Prop := (1 <= length p <= 3)%nat ∧ Forall (λ c, is_digit c = true) p ∧ (digits_value p <= 255)%N.
Definition dotted_quad (s : jsstring) : Prop :=
  ∃ a b c d, s = a ++ 46%N :: b ++ 46%N :: c ++ 46%N :: d ∧ Forall octet [a; b; c; d].
(** Three to eight groups of at most four hexadecimal digits between colons: IPv6
    addresses for the most part, but some strings that are none (":::") too. *)
Definition hex_groups (s : jsstring) : Prop :=
  ∃ gs g, (2 <= length gs <= 7)%nat ∧ s = concat (map (λ g, g ++ [58%N]) gs) ++ g ∧
    Forall (λ g, (length g <= 4)%nat ∧ Forall (λ c, is_hex c = true) g) (gs ++ [g]).
(** One or more labels, of one to 63 letters, digits and hyphens and with no hyphen
    at an end, each with its dot, and a last one of two letters or more. *)
Definition dns_label (l : jsstring) : Prop :=
  (1 <= length l <= 63)%nat ∧ Forall (λ c, alnum_hyphen c = true) l ∧ head l ≠ Some 45%N ∧ last l ≠ Some 45%N.
Definition dns_name (s : jsstring) : Prop :=
  ∃ ls tld, ls ≠ [] ∧ s = concat (map (λ l, l ++ [46%N]) ls) ++ tld ∧ Forall dns_label ls ∧
    (2 <= length tld)%nat ∧ Forall (λ c, letter c = true) tld.

Lemma host_shape s : isValidHost s = true → dotted_quad s ∨ hex_groups s.
Proof.
  unfold isValidHost. rewrite orb_true_iff, isValidIPv4_octets, bool_decide_eq_true. intros [[o Ho]|H]; [left|right; by apply isValidIPv6_exact].
  unfold SourceIp.ipv4Octets in Ho. destruct (SourceIp.quad_groups s) as [gs|] eqn:Eg; [|done].
  destruct (existsb _ _) eqn:Ex; [done|]. destruct (SourceIp.quad_matches s gs Eg) as (a & b & c & d & -> & -> & _ & Hg).
  exists a, b, c, d. split; [by rewrite <-?app_assoc|]. cbn [existsb map] in Ex. rewrite !orb_false_iff, !N.ltb_ge in Ex.
  rewrite !Forall_cons, !SourceIp.is_group_spec in Hg. rewrite !Forall_cons. unfold octet. naive_solver.
Qed.

Lemma label_shape l : lang LABEL_RE l → dns_label l.
Proof.
  assert (∀ c, alnum c = true → alnum_hyphen c = true ∧ c ≠ 45%N) as Ha.
  { intros c Hc. unfold alnum_hyphen. rewrite Hc. split; [done|]. intros ->. by vm_compute in Hc. }
  intros (u & v & -> & (c & -> & [Hc Hn]%Ha)%lang_Chr & Hv)%lang_Seq. apply lang_Opt in Hv as [->|(m & e & -> & Hm & (z & -> & [Hz Hy]%Ha)%lang_Chr)%lang_Seq].
  - split; [cbn; lia|]. split; [by repeat constructor|]. cbn. naive_solver.
  - apply lang_RangeChr in Hm as [Hl Hf]. unfold dns_label. cbn [app head]. rewrite length_cons, length_app. cbn [length].
    split; [lia|]. split; [constructor; [done|]; apply Forall_app; split; [done|by repeat constructor]|]. split; [naive_solver|].
    rewrite app_comm_cons, last_snoc. naive_solver.
Qed.
Lemma domain_shape s : isValidFQDN s = true → dns_name s.
Proof.
  intros (u & tld & -> & Hu & (t & r & -> & [Ht Hf]%lang_TimesChr & Hr%lang_StarChr)%lang_Seq)%rmatch_spec%lang_Seq.
  assert (∃ ls, u = concat (map (λ l, l ++ [46%N]) ls) ∧ Forall dns_label ls ∧ ls ≠ []) as (ls & -> & Hls & Hn).
  { apply lang_Seq in Hu as (x & y & -> & Hx & Hy). 
    assert (∀ w, lang (RSeq LABEL_RE (RLit 46)) w → ∃ l, w = l ++ [46%N] ∧ dns_label l) as Hlab.
    { intros w (l & d & -> & Hl & ->%lang_Lit)%lang_Seq. exists l. split; [done|by apply label_shape]. }
    apply Hlab in Hx as (l & -> & Hl). assert (∃ ls, y = concat (map (λ l, l ++ [46%N]) ls) ∧ Forall dns_label ls) as (ls & -> & Hls).
    { remember (RStar _) as re eqn:E. induction Hy as [| | | | | |a u v Hu _ Hv IH]; try discriminate E; [by exists []|].
      injection E as ->. destruct (IH eq_refl) as (ls & -> & Hls). apply Hlab in Hu as (k & -> & Hk). exists (k :: ls). by split; [|constructor]. }
    exists (l :: ls). by split; [|split; [constructor|]]. }
  exists ls, (t ++ r). split; [done|]. split; [done|]. split; [done|]. rewrite length_app. split; [lia|by apply Forall_app].
Qed.

Lemma host_chars s : isValidHost s = true → s ≠ [] ∧ Forall (λ c, 40 <= c <= 127)%N s.
Proof.
  unfold isValidHost. rewrite orb_true_iff, isValidIPv4_octets, bool_decide_eq_true. intros [[o Ho]|H].
  - by eapply SourceIp.ipv4_chars.
  - split; [intros ->; by vm_compute in H|]. unfold isValidIPv6 in H. apply orb_true_iff in H as [H|H].
    + apply rmatch_spec in H. eapply lang_chars; [|exact H]. unfold IPV6, GROUP6.
      assert (∀ c, is_hex c = true → (40 <= c <= 127)%N) as Hx.
      { intros c. unfold is_hex, is_digit, in_range. rewrite !orb_true_iff, !andb_true_iff, !N.leb_le. lia. }
      cbn [only_chars]. split; [apply only_chars_Range; split; [apply only_chars_Range; exact Hx|]|apply only_chars_Range; exact Hx].
      intros c Hc%N.eqb_eq. lia.
    + apply bool_decide_eq_true in H as ->. vm_compute. repeat constructor; done.
Qed.

Lemma fqdn_chars s : isValidFQDN s = true → s ≠ [] ∧ Forall (λ c, 40 <= c <= 127)%N s.
Proof.
  intros H. split; [intros ->; by vm_compute in H|]. apply rmatch_spec in H. eapply lang_chars; [|exact H].
  assert (∀ c, alnum_hyphen c = true → (40 <= c <= 127)%N) as Hx.
  { intros c. unfold alnum_hyphen, alnum, letter, is_lower, is_upper, is_digit, in_range.
    rewrite !orb_true_iff, !andb_true_iff, !N.leb_le, N.eqb_eq. lia. }
  assert (∀ c, alnum c = true → (40 <= c <= 127)%N) as Hy by (intros c Hc; apply Hx; unfold alnum_hyphen; by rewrite Hc).
  assert (∀ c, letter c = true → (40 <= c <= 127)%N) as Hz by (intros c Hc; apply Hy; unfold alnum; by rewrite Hc).
  assert (only_chars (λ c, 40 <= c <= 127)%N (RSeq LABEL_RE (RLit 46))) as HL.
  { split; [split; [exact Hy|split; [done|split; [apply only_chars_Range; exact Hx|exact Hy]]]|]. intros c Hc%N.eqb_eq. lia. }
  split; [by split|]. split; [by apply only_chars_Times|exact Hz].
Qed.

Lemma printable_trim s : Forall (λ c, 40 <= c <= 127)%N s → trim s = s.
Proof. intros H. apply trim_no_ws. eapply Forall_impl; [exact H|]. apply SourceIp.char_not_ws. Qed.

(** ** Fields *)

(** components/common/fields/NumericInput.tsx: the edits that go through. *)
Definition NUMERIC (allowNegative : bool) : re :=
  if allowNegative then RSeq (ROpt (RLit 45)) (RStar (RChr is_digit)) else RStar (RChr is_digit).
Definition numeric_change (allowNegative : bool) (v old : jsstring) : jsstring :=
  if rmatch (NUMERIC allowNegative) v then v else old.

Record Device := mkDevice { uid : jsstring; dev_name : jsstring; online : bool }.

Section Search.
Context (unicode_lower : N → jsstring).
Definition filtered (search : jsstring) (devices : list Device) : list Device :=
  if truthy search then
    let low := Recordings.toLowerCase unicode_lower search in
    List.filter (λ d, includes (Recordings.toLowerCase unicode_lower (dev_name d)) low || includes (Recordings.toLowerCase unicode_lower (uid d)) low) devices
  else devices.
End Search.

(** ** The drawer of a new endpoint *)

Inductive HostMode := localhost | custom_host.
#[export] Instance HostMode_eq_dec : EqDecision HostMode.
Proof. solve_decision. Defined.

Definition LOCALHOST : jsstring := js "127.0.0.1".
Definition NO_EXPIRATION : jsstring := js "-1".
Definition EXPIRATION_PRESETS : list (jsstring * Z) :=
  [(js "1 min", 60); (js "5 min", 300); (js "15 min", 900); (js "1 hour", 3600); (js "1 day", 86400); (js "1 week", 604800);
   (js "1 month", 2624016)].

Record Tls := mkTls { t_enabled : bool; t_verify : bool; t_domain : jsstring }.
Record Body := mkBody { b_uid : jsstring; b_host : jsstring; b_port : option Z; b_ttl : option Z; b_tls : option Tls }.

Record Fields := mkFields {
  device : option Device;
  hostMode : HostMode;
  host : jsstring;
  port : jsstring;
  ttl : jsstring;
  ttlError : option jsstring;
  tlsEnabled : bool;
  tlsVerify : bool;
  tlsDomain : jsstring;
  submitting : bool;
  error : option jsstring;
}.
(** What [useResetOnOpen] sets when the drawer opens. *)
Definition blank : Fields := mkFields None localhost LOCALHOST [] NO_EXPIRATION None false false [] false None.

Definition hostError (f : Fields) : option jsstring :=
  if truthy (host f) && negb (isValidHost (host f)) then Some (js "Enter a valid IPv4 or IPv6 address") else None.
Definition portNum (f : Fields) : option Z := parseInt (port f).
Definition portError (f : Fields) : option jsstring :=
  if truthy (port f) && match portNum f with None => true | Some n => (n <? 1) || (65535 <? n) end
  then Some (js "Port must be 1-65535") else None.
Definition tlsDomainError (f : Fields) : option jsstring :=
  if truthy (tlsDomain f) && negb (isValidFQDN (tlsDomain f)) then Some (js "Enter a valid hostname (e.g. app.example.com)") else None.

Definition confirmDisabled (f : Fields) : bool :=
  bool_decide (device f = None) || negb (truthy (trim (host f))) || is_truthy (hostError f) || negb (truthy (trim (port f)))
  || is_truthy (portError f) || is_truthy (ttlError f) || is_truthy (tlsDomainError f)
  || (tlsEnabled f && negb (truthy (trim (tlsDomain f)))).

Definition body (d : Device) (f : Fields) : Body :=
  let domain := trim (tlsDomain f) in
  let hasTlsConfig := tlsEnabled f || negb (bool_decide (domain = [])) in
  mkBody (uid d) (trim (host f)) (portNum f) (parseInt (ttl f))
    (if hasTlsConfig then Some (mkTls (tlsEnabled f) (tlsVerify f) domain) else None).

(** The setters of the fields. *)
Definition set_device (x : option Device) (f : Fields) : Fields :=
  mkFields x (hostMode f) (host f) (port f) (ttl f) (ttlError f) (tlsEnabled f) (tlsVerify f) (tlsDomain f) (submitting f) (error f).
Definition set_host (m : HostMode) (h : jsstring) (f : Fields) : Fields :=
  mkFields (device f) m h (port f) (ttl f) (ttlError f) (tlsEnabled f) (tlsVerify f) (tlsDomain f) (submitting f) (error f).
Definition set_port (p : jsstring) (f : Fields) : Fields :=
  mkFields (device f) (hostMode f) (host f) p (ttl f) (ttlError f) (tlsEnabled f) (tlsVerify f) (tlsDomain f) (submitting f) (error f).
Definition set_ttl (t : jsstring) (e : option jsstring) (f : Fields) : Fields :=
  mkFields (device f) (hostMode f) (host f) (port f) t e (tlsEnabled f) (tlsVerify f) (tlsDomain f) (submitting f) (error f).
Definition set_tls (en ver : bool) (d : jsstring) (f : Fields) : Fields :=
  mkFields (device f) (hostMode f) (host f) (port f) (ttl f) (ttlError f) en ver d (submitting f) (error f).
Definition set_flight (s : bool) (e : option jsstring) (f : Fields) : Fields :=
  mkFields (device f) (hostMode f) (host f) (port f) (ttl f) (ttlError f) (tlsEnabled f) (tlsVerify f) (tlsDomain f) s e.

Record Drawer := mkDrawer {
  isOpen : bool;
  fields : Fields;
  isEditingCustom : bool;           (* the expiration selector's own state; it stays mounted *)
  pending : nat;                    (* requests without an answer *)
  sent : list Body;
}.
Definition closed : Drawer := mkDrawer false blank false 0 [].
Definition with_fields (g : Fields → Fields) (d : Drawer) : Drawer :=
  mkDrawer (isOpen d) (g (fields d)) (isEditingCustom d) (pending d) (sent d).
Definition with_ttl (t : jsstring) (e : option jsstring) (editing : bool) (d : Drawer) : Drawer :=
  mkDrawer (isOpen d) (set_ttl t e (fields d)) editing (pending d) (sent d).

(** *** The expiration selector *)

Definition hasExpiration (d : Drawer) : bool := negb (bool_decide (ttl (fields d) = NO_EXPIRATION)).
Definition handleToggle (enabled : bool) (d : Drawer) : Drawer :=
  with_ttl (if enabled then js "3600" else NO_EXPIRATION) None false d.
Definition handleExpirationChange (next : jsstring) (d : Drawer) : Drawer :=
  if bool_decide (next = js "custom") then with_ttl (ttl (fields d)) None true d
  else with_ttl next None false d.
Definition customError (v : jsstring) : option jsstring :=
  match parseInt v with
  | None => Some (js "Must be at least 1 second")
  | Some n => if n <? 1 then Some (js "Must be at least 1 second")
              else if MAX_CUSTOM_TTL <? n then Some (js "Maximum is " ++ Z_to_string MAX_CUSTOM_TTL)
              else None
  end.
Definition handleCustomValueChange (v : jsstring) (d : Drawer) : Drawer := with_ttl v (customError v) (isEditingCustom d) d.
(** The value of the radio group, and its pills. *)
Definition radio_value (d : Drawer) : jsstring := if isEditingCustom d then js "custom" else ttl (fields d).
Definition pills : list jsstring := map (λ p, Z_to_string p.2) EXPIRATION_PRESETS ++ [js "custom"].

(** *** Submitting *)

Definition handleSubmit (d : Drawer) : Drawer :=
  let f := fields d in
  match device f with
  | Some x =>
      if confirmDisabled f then d
      else mkDrawer (isOpen d) (set_flight true None f) (isEditingCustom d) (S (pending d)) (sent d ++ [body x f])
  | None => d
  end.
(** The answer to a request: nothing thrown, or the error and the status of an
    SDK error. *)
Definition CONFLICT : jsstring := js "A web endpoint with this configuration already exists.".
Definition on_answer (r : option (option Z * exn)) (d : Drawer) : Drawer :=
  match pending d with
  | O => d
  | S n =>
      match r with
      | None => mkDrawer false (set_flight false (error (fields d)) (fields d)) (isEditingCustom d) n (sent d)
      | Some (status, err) =>
          let m := if bool_decide (status = Some 409) then CONFLICT
                   else error_message (js "Failed to create web endpoint") err in
          mkDrawer (isOpen d) (set_flight false (Some m) (fields d)) (isEditingCustom d) n (sent d)
      end
  end.

Inductive event :=
  | Open | Close
  | Pick (x : option Device)
  | Mode (m : HostMode) | TypeHost (v : jsstring) | TypePort (v : jsstring)
  | Toggle (enabled : bool) | Radio (next : jsstring) | TypeTtl (v : jsstring)
  | TlsEnabled (b : bool) | TlsVerify (b : bool) | TypeDomain (v : jsstring)
  | Submit                           (* the button *)
  | SubmitForm                       (* the form's own submission *)
  | Answer (r : option (option Z * exn)).

Definition switch_host (m : HostMode) (f : Fields) : Fields :=
  match m with localhost => set_host localhost LOCALHOST f | custom_host => set_host custom_host [] f end.

(** A closed drawer is inert; a control that is not rendered has no events, and a
    radio that is checked does not change. *)
Definition edit (d : Drawer) (e : event) : Drawer :=
  let f := fields d in
  match e with
  | Pick x => with_fields (set_device x) d
  | Mode m => if bool_decide (hostMode f = m) then d else with_fields (switch_host m) d
  | TypeHost v => if bool_decide (hostMode f = custom_host) then with_fields (set_host custom_host v) d else d
  | TypePort v => with_fields (set_port (numeric_change false v (port f))) d
  | Toggle b => handleToggle b d
  | Radio next =>
      if hasExpiration d && bool_decide (next ∈ pills) && negb (bool_decide (next = radio_value d))
      then handleExpirationChange next d else d
  | TypeTtl v =>
      if hasExpiration d && isEditingCustom d && rmatch (NUMERIC false) v then handleCustomValueChange v d else d
  | TlsEnabled b => with_fields (set_tls b (tlsVerify f) (tlsDomain f)) d
  | TlsVerify b => if tlsEnabled f then with_fields (set_tls true b (tlsDomain f)) d else d
  | TypeDomain v => with_fields (set_tls (tlsEnabled f) (tlsVerify f) v) d
  | Submit => if submitting f || confirmDisabled f then d else handleSubmit d
  | SubmitForm => handleSubmit d
  | _ => d
  end.
Definition step (d : Drawer) (e : event) : Drawer :=
  match e with
  | Open => if isOpen d then d else mkDrawer true blank (isEditingCustom d) (pending d) (sent d)
  | Close => mkDrawer false (fields d) (isEditingCustom d) (pending d) (sent d)
  | Answer r => on_answer r d
  | e => if isOpen d then edit d e else d
  end.
Definition run (es : list event) (d : Drawer) : Drawer := fold_left step es d.

(** *** What is asked for *)

Definition ttl_ok (t : option Z) : Prop := t = Some (-1) ∨ ∃ n, t = Some n ∧ 1 <= n <= MAX_CUSTOM_TTL.
(** A request is the form as it was when it was sent: the device picked, the host,
    the port, the lifetime, and the TLS part exactly when TLS is on or a hostname is
    given; and each is one that can be served. *)
Definition body_ok (f : Fields) (b : Body) : Prop :=
  (∃ x, device f = Some x ∧ b_uid b = uid x) ∧
  b_host b = host f ∧ (dotted_quad (b_host b) ∨ hex_groups (b_host b)) ∧
  (∃ p, parseInt (port f) = Some p ∧ b_port b = Some p ∧ 1 <= p <= 65535) ∧
  b_ttl b = parseInt (ttl f) ∧ ttl_ok (b_ttl b) ∧
  match b_tls b with
  | Some t => t = mkTls (tlsEnabled f) (tlsVerify f) (tlsDomain f) ∧ dns_name (t_domain t)
  | None => tlsEnabled f = false ∧ tlsDomain f = []
  end.
(** The expiration in the drawer: without an error it is one that can be sent, and
    an error is only there while the custom value is edited. *)
Definition ttl_inv (d : Drawer) : Prop :=
  match ttlError (fields d) with
  | None => ttl_ok (parseInt (ttl (fields d)))
  | Some e => e ≠ [] ∧ isEditingCustom d = true
  end.
(** A step sends nothing, or the form it finds, when that is complete. *)
Definition sends (d d' : Drawer) : Prop :=
  sent d' = sent d ∨ ∃ b, sent d' = sent d ++ [b] ∧ body_ok (fields d) b.

Lemma customError_spec v : match customError v with None => ttl_ok (parseInt v) | Some e => e ≠ [] end.
Proof.
  unfold customError, ttl_ok. destruct (parseInt v) as [n|]; [|done].
  destruct (Z.ltb_spec n 1); [done|]. destruct (Z.ltb_spec MAX_CUSTOM_TTL n); [done|]. right. exists n. split; [done|lia].
Qed.

Lemma preset_ok next : next ∈ pills → next ≠ js "custom" → ttl_ok (parseInt next).
Proof.
  unfold pills. intros H Hn. apply elem_of_app in H as [H|H]; [|by apply list_elem_of_singleton in H].
  apply list_elem_of_fmap in H as ([l z] & -> & H). rewrite parseInt_Z_to_string. right. exists z. split; [done|].
  unfold EXPIRATION_PRESETS, MAX_CUSTOM_TTL in *. rewrite !elem_of_cons, elem_of_nil in H. naive_solver lia.
Qed.

Lemma not_disabled f : confirmDisabled f = false →
  (∃ x, device f = Some x) ∧ isValidHost (host f) = true ∧ (∃ p, portNum f = Some p ∧ 1 <= p <= 65535) ∧
  is_truthy (ttlError f) = false ∧ (tlsDomain f = [] ∨ isValidFQDN (tlsDomain f) = true) ∧
  (tlsEnabled f = true → tlsDomain f ≠ []).
Proof.
  unfold confirmDisabled. rewrite !orb_false_iff, bool_decide_eq_false, !negb_false_iff.
  intros (((((((Hd & Hh) & Hhe) & Hp) & Hpe) & Ht) & Hde) & Htls).
  split; [by destruct (device f); eauto|]. split.
  { unfold hostError in Hhe. destruct (host f) eqn:E; [done|]. cbn [truthy andb] in Hhe. by destruct (isValidHost _). }
  split.
  { unfold portError in Hpe. destruct (port f) as [|c r]; [done|]. cbn [truthy andb] in Hpe.
    destruct (portNum f) as [n|]; [|done]. exists n. split; [done|].
    destruct (Z.ltb_spec n 1), (Z.ltb_spec 65535 n); cbn in Hpe; try done; lia. }
  split; [done|]. split.
  { unfold tlsDomainError in Hde. destruct (tlsDomain f) eqn:E; [by left|]. right. cbn [truthy andb] in Hde. by destruct (isValidFQDN _). }
  intros He E. rewrite He, E in Htls. done.
Qed.

Lemma body_is_ok x f : ttl_ok (parseInt (ttl f)) → device f = Some x → confirmDisabled f = false → body_ok f (body x f).
Proof.
  intros Ht Hx (_ & Hh & (p & Hp & Hr) & _ & Hd & He)%not_disabled. unfold body_ok, body. cbn [b_uid b_host b_port b_ttl b_tls].
  rewrite (printable_trim (host f)) by apply (host_chars _ Hh). split; [by exists x|]. split; [done|]. split; [by apply host_shape|].
  split; [by exists p|]. split; [done|]. split; [done|]. destruct Hd as [E|Hd].
  - rewrite E. change (trim []) with (@nil N). rewrite bool_decide_eq_true_2 by done.
    destruct (tlsEnabled f); [by specialize (He eq_refl)|done].
  - rewrite (printable_trim (tlsDomain f)) by apply (fqdn_chars _ Hd).
    rewrite bool_decide_eq_false_2 by apply (fqdn_chars _ Hd). rewrite orb_true_r. split; [done|]. by apply domain_shape.
Qed.

Lemma submit_ok d : ttl_inv d → ttl_inv (handleSubmit d) ∧ sends d (handleSubmit d).
Proof.
  intros Ht. unfold handleSubmit. destruct (device (fields d)) as [x|] eqn:Ex; [|by split; [|left]].
  destruct (confirmDisabled (fields d)) eqn:E; [by split; [|left]|]. split; [done|]. right. eexists. split; [reflexivity|].
  apply body_is_ok; [|done|done]. apply not_disabled in E as (_ & _ & _ & E & _). unfold ttl_inv in Ht.
  destruct (ttlError (fields d)) as [[|]|]; [|done|done]. by destruct Ht.
Qed.

Lemma endpoint_edit_ok d e : ttl_inv d → ttl_inv (edit d e) ∧ sends d (edit d e).
Proof.
  intros Ht. assert (∀ d', ttl_inv d' → sent d' = sent d → ttl_inv d' ∧ sends d d') as Hq by (intros d' H1 H2; split; [done|by left]).
  destruct e as [| |x|m|v|v|b|next|v|b|b|v| | |r]; cbn [edit]; try (by apply Hq).
  - case_bool_decide; [by apply Hq|]. by apply Hq; destruct m.
  - case_bool_decide; by apply Hq.
  - destruct b; apply Hq; [|done| |done]; unfold ttl_inv; cbn -[parseInt].
    + right. exists 3600. split; [by vm_compute|unfold MAX_CUSTOM_TTL; lia].
    + left. by vm_compute.
  - destruct (_ && _) eqn:E; [|by apply Hq]. apply andb_true_iff in E as [[_ E]%andb_true_iff Hn].
    apply bool_decide_eq_true in E. apply negb_true_iff, bool_decide_eq_false in Hn.
    unfold handleExpirationChange. case_bool_decide as Hc; (apply Hq; [|done]); unfold ttl_inv; cbn -[parseInt].
    + unfold ttl_inv in Ht. unfold radio_value in Hn. destruct (isEditingCustom d); [done|].
      by destruct (ttlError (fields d)); [destruct Ht|].
    + by apply preset_ok.
  - destruct (hasExpiration d && isEditingCustom d && _) eqn:E; [|by apply Hq]. apply andb_true_iff in E as [[_ E]%andb_true_iff _].
    apply Hq; [|done]. unfold ttl_inv. cbn -[customError parseInt]. pose proof (customError_spec v).
    by destruct (customError v).
  - destruct (tlsEnabled _); by apply Hq.
  - destruct (_ || _); [by apply Hq|]. by apply submit_ok.
  - by apply submit_ok.
Qed.

Lemma endpoint_step_ok d e : ttl_inv d → ttl_inv (step d e) ∧ sends d (step d e).
Proof.
  intros Ht. assert (∀ d', ttl_inv d' → sent d' = sent d → ttl_inv d' ∧ sends d d') as Hq by (intros d' H1 H2; split; [done|by left]).
  destruct e as [| |x|m|v|v|b|next|v|b|b|v| | |r]; cbn [step]; try (destruct (isOpen d); [by apply (endpoint_edit_ok d)|by apply Hq]).
  - destruct (isOpen d); apply Hq; try done. left. by vm_compute.
  - by apply Hq.
  - unfold on_answer. destruct (pending d); [by apply Hq|]. destruct r as [[st er]|]; by apply Hq.
Qed.

Lemma submit_device d : device (fields (handleSubmit d)) = device (fields d).
Proof. unfold handleSubmit. destruct (device (fields d)) eqn:E; [|done]. by destruct (confirmDisabled _). Qed.
(** The device in the form is one that was picked. *)
Lemma device_picked es x : device (fields (run es closed)) = Some x → Pick (Some x) ∈ es.
Proof.
  revert x. induction es as [|e es IH] using rev_ind; intros x; [done|]. unfold run in *. rewrite fold_left_app. cbn [fold_left].
  set (d := fold_left step es closed) in *. rewrite elem_of_app. intros H.
  destruct e as [| |y|m|v|v|b|next|v|b|b|v| | |r]; cbn [step edit] in H;
    try (left; apply IH; revert H; unfold on_answer, handleToggle, handleExpirationChange, switch_host;
         by repeat case_match).
  - destruct (isOpen d); [|left; by apply IH]. cbn in H. subst y. right. left.
  - left. apply IH. revert H. destruct (isOpen d); [destruct (submitting _ || _)|]; by rewrite ?submit_device.
  - left. apply IH. revert H. destruct (isOpen d); by rewrite ?submit_device.
Qed.

(** C29: whatever is done in the drawer and in whatever order the answers come, each
    request made is the form as it stood at a moment before ([es1] what was done till
    then): the device picked; the host, a dotted quad or what the page's pattern takes
    for an IPv6 address (three to eight groups of up to four hexadecimal digits, any
    of them empty); a port between 1 and 65535; a lifetime of -1 (none) or of 1 to
    9223372036 seconds; and the TLS settings exactly when TLS is on or a hostname is
    given, with a hostname that is a dotted name. *)
Theorem endpoint_requests_valid (es : list event) :
  Forall (λ b, ∃ es1 es2, es = es1 ++ es2 ∧ body_ok (fields (run es1 closed)) b ∧ ∃ x, Pick (Some x) ∈ es1 ∧ b_uid b = uid x)
    (sent (run es closed)).
Proof.
  assert (∀ l, ttl_inv (run l closed)) as Hinv.
  { intros l. induction l as [|e l IH] using rev_ind; [left; by vm_compute|]. unfold run. rewrite fold_left_app. by apply endpoint_step_ok. }
  induction es as [|e es IH] using rev_ind; [constructor|].
  assert (∀ P : list Body → Prop, P (sent (step (run es closed) e)) → P (sent (run (es ++ [e]) closed))) as Hs
    by (intros P; unfold run; by rewrite fold_left_app).
  apply Hs. assert (Forall (λ b, ∃ es1 es2, es ++ [e] = es1 ++ es2 ∧ body_ok (fields (run es1 closed)) b ∧
    ∃ x, Pick (Some x) ∈ es1 ∧ b_uid b = uid x) (sent (run es closed))) as Hold.
  { eapply Forall_impl; [exact IH|]. intros b (es1 & es2 & -> & H). exists es1, (es2 ++ [e]). by rewrite app_assoc. }
  destruct (endpoint_step_ok _ e (Hinv es)) as [_ [->|(b & -> & Hb)]]; [exact Hold|].
  apply Forall_app. split; [exact Hold|]. apply Forall_singleton. exists es, [e]. split; [done|]. split; [done|].
  pose proof Hb as ((x & Hx & Hu) & _). exists x. split; [by apply device_picked|done].
Qed.

(** A request is made: the drawer opened, a device, a port, an expiration of a
    custom length, TLS with a hostname. *)
Definition dev1 : Device := mkDevice (js "uid-1") (js "edge") true.
Definition session1 : list event :=
  [Open; Pick (Some dev1); TypePort (js "8080"); Toggle true; Radio (js "custom"); TypeTtl (js "9223372037"); Submit;
   TypeTtl (js "90"); TlsEnabled true; TypeDomain (js "app.example.com"); Submit; Submit].
Example session1_sent : sent (run session1 closed) =
  [mkBody (js "uid-1") LOCALHOST (Some 8080) (Some 90) (Some (mkTls true false (js "app.example.com")))].
Proof. vm_compute. reflexivity. Qed.

(** The answer to a request made before the drawer was closed and opened again
    closes it, and the draft in it is lost. *)
Example late_answer_closes : let d := run ([Open; Pick (Some dev1); TypePort (js "80"); Submit; Close; Open; TypePort (js "443")]) closed in
  isOpen d = true ∧ isOpen (step d (Answer None)) = false ∧ port (fields (step (step d (Answer None)) Open)) = [].
Proof. vm_compute. done. Qed.

(** Three colons are no address, and the pattern takes them. *)
Example ipv6_lax : isValidIPv6 (js ":::") = true ∧ isValidIPv6 (js "1:2:3") = true.
Proof. vm_compute. done. Qed.
