(* ===== verification/ListPages.v ===== *)
(** * What the list pages share

    components/common/Pagination.tsx, components/common/DataTable.tsx (which rows it
    shows, and what it announces), components/common/ConfirmDialog.tsx,
    hooks/useResetOnOpen.ts and api/pagination.ts; deleting a row on the pages that
    step back when a page empties.

    A request is split at its answer, which finds the page as it is by then; what
    the handler had captured goes with the request. *)

From S2P Require Import Prelude JsString.
From S2P Require Import DeviceChooser.

(** ** api/pagination.ts, components/common/Pagination.tsx *)

(** The header's count; [None] is [NaN]. *)
Definition totalCount (header : option jsstring) : option Z := parseInt (nullish header (js "0")).

(** The component's count is a number or not given at all ([None]). *)
Definition hidden (totalPages : Z) (total : option Z) : bool :=
  (totalPages <=? 1) && match total with Some n => n =? 0 | None => true end.
Definition countLabel (total : option Z) (itemLabel : jsstring) : option jsstring :=
  (λ n, Z_to_string n ++ js " " ++ itemLabel ++ (if n =? 1 then [] else js "s")) <$> total.
Definition leftLabel (page totalPages : Z) (total : option Z) (itemLabel : jsstring) : option jsstring :=
  match countLabel total itemLabel with
  | Some l => Some l
  | None => if 1 <? totalPages then Some (js "Page " ++ Z_to_string page ++ js " of " ++ Z_to_string totalPages) else None
  end.
Inductive nav := Prev | Next.
(** The page a click asks for, unless its button is disabled. *)
Definition navigate (totalPages page : Z) (b : nav) : option Z :=
  if totalPages <=? 1 then None
  else match b with
       | Prev => if page <=? 1 then None else Some (page - 1)
       | Next => if totalPages <=? page then None else Some (page + 1)
       end.

(** The buttons never leave the pages, and come back from beyond them. *)
Lemma navigate_in_range n page b q : 1 <= page → navigate n page b = Some q →
  1 <= q ∧ (page <= n → q <= n) ∧ Z.abs (q - page) = 1.
Proof. unfold navigate. intros. destruct (Z.leb_spec n 1); [done|].
  destruct b; [destruct (Z.leb_spec page 1)|destruct (Z.leb_spec n page)]; naive_solver lia. Qed.

(** ** components/common/DataTable.tsx *)

Inductive AriaSort := ascending | descending | none.
Definition getAriaSort (colKey : jsstring) (sortField : option jsstring) (sortOrder : option SortOrder) : AriaSort :=
  if negb (bool_decide (Some colKey = sortField)) then none
  else match sortOrder with Some asc => ascending | Some desc => descending | None => none end.

Inductive Rows (T : Type) := Loading | Empty | Table (rows : list (option jsstring * T)).
Arguments Loading {T}.
Arguments Empty {T}.
Arguments Table {T} _.
Section DataTable.
Context {T : Type} (sectionOf : option (T → jsstring)) (sectionLabel : option (jsstring → jsstring)).
(** The rows, each with the heading inserted before it. *)
Definition heading (prev : option T) (row : T) : option jsstring :=
  match sectionOf with
  | None => None
  | Some f =>
      if bool_decide (Some (f row) = f <$> prev) then None
      else Some (match sectionLabel with Some g => g (f row) | None => f row end)
  end.
Fixpoint rows_from (prev : option T) (data : list T) : list (option jsstring * T) :=
  match data with [] => [] | r :: rest => (heading prev r, r) :: rows_from (Some r) rest end.
Definition table_body (isLoading : bool) (data : list T) : Rows T :=
  if isLoading && (length data =? 0)%nat then Loading
  else if (length data =? 0)%nat then Empty
  else Table (rows_from None data).

(** Every row is shown, in order. *)
Lemma rows_from_rows prev data : map snd (rows_from prev data) = data.
Proof. revert prev. induction data as [|r data IH]; intros prev; cbn; [done|by rewrite IH]. Qed.
(** A run of rows of one section has one heading, before its first row. *)
Lemma one_heading_per_run f prev data s : sectionOf = Some f → Forall (λ r, f r = s) data → f <$> prev ≠ Some s →
  omap fst (rows_from prev data) = match data with [] => [] | _ => [match sectionLabel with Some g => g s | None => s end] end.
Proof.
  intros Hf Hs Hp. destruct data as [|r data]; [done|]. apply Forall_cons in Hs as [Hr Hs]. cbn [rows_from].
  assert (heading prev r = Some (match sectionLabel with Some g => g s | None => s end)) as ->.
  { unfold heading. rewrite Hf, Hr, bool_decide_eq_false_2; [done|]. intros E. by destruct Hp. }
  assert (∀ q, f q = s → omap fst (rows_from (Some q) data) = []) as HN; [|cbn; by rewrite HN].
  induction Hs as [|x data Hx Hs IH]; intros q Hq; [done|]. cbn [rows_from].
  assert (heading (Some q) x = None) as -> by (unfold heading; rewrite Hf; cbn; by rewrite Hx, Hq, bool_decide_eq_true_2).
  cbn. by apply IH.
Qed.
End DataTable.

(** ** hooks/useResetOnOpen.ts *)

(** A render: the new [wasOpen], and whether [onOpen] is called. *)
Definition useResetOnOpen (open wasOpen : bool) : bool * bool :=
  if open && negb wasOpen then (true, true) else if negb open && wasOpen then (false, false) else (wasOpen, false).
Fixpoint renders (wasOpen : bool) (opens : list bool) : list bool :=
  match opens with [] => [] | o :: r => let '(w, fired) := useResetOnOpen o wasOpen in fired :: renders w r end.
(** The callback runs at the renders that open the component, and at no others. *)
Lemma reset_on_open_edges w opens i : renders w opens !! i = Some true ↔
  opens !! i = Some true ∧ (match i with O => Some w | S j => opens !! j end) = Some false.
Proof.
  revert w i. induction opens as [|o r IH]; intros w i; [cbn; naive_solver|].
  cbn [renders]. assert (useResetOnOpen o w = (o, o && negb w)) as -> by (by destruct o, w).
  destruct i as [|i]; cbn; [destruct o, w; naive_solver|]. rewrite IH. destruct i; naive_solver.
Qed.

(** ** Deleting a row *)

Module Deleting.
(** What differs: when the page steps back, and what an error reads. *)
Record Rule := mkRule { steps_back : nat → Z → jsstring → bool; message : exn → jsstring }.
Definition last_row (len : nat) (page : Z) : bool := (len =? 1)%nat && (1 <? page).
Definition web_endpoints : Rule := mkRule (λ len page _, last_row len page) (error_message (js "Failed to delete web endpoint.")).
Definition public_keys : Rule := mkRule (λ len page _, last_row len page) (error_message (js "Failed to delete public key.")).
Definition api_keys : Rule := mkRule (λ len page _, last_row len page) (error_message (js "Failed to delete API key.")).
Definition firewall_rules : Rule :=
  mkRule (λ len page search, last_row len page && negb (truthy search)) (error_message (js "Failed to delete firewall rule.")).
Definition announcements : Rule :=
  mkRule (λ len page _, (len <=? 1)%nat && (1 <? page)) (λ _, js "Failed to delete announcement. Please try again.").

(** A deletion on its way: the row, and what the handler had captured. *)
Record Flight := mkFlight { f_id : jsstring; f_rows : nat; f_page : Z; f_search : jsstring }.
Record State := mkState {
  page : Z;
  search : jsstring;
  rows : list jsstring;
  total : Z;
  deleteTarget : option jsstring;
  deleteError : option jsstring;
  confirming : bool;                (* the confirm dialog's own state *)
  flights : list Flight;
  sent : list jsstring;
}.
Definition opened : State := mkState 1 [] [] 0 None None false [] [].

Definition put_dialog (t e : option jsstring) (c : bool) (s : State) : State :=
  mkState (page s) (search s) (rows s) (total s) t e c (flights s) (sent s).
Definition put_page (p : Z) (s : State) : State :=
  mkState p (search s) (rows s) (total s) (deleteTarget s) (deleteError s) (confirming s) (flights s) (sent s).

Definition closeDelete (s : State) : State := put_dialog None None (confirming s) s.
(** The dialog opens: [useResetOnOpen] clears [confirming]. *)
Definition ask (id : jsstring) (s : State) : State :=
  put_dialog (Some id) (deleteError s) (match deleteTarget s with None => false | Some _ => confirming s end) s.
Definition confirmDelete (s : State) : State :=
  match deleteTarget s with
  | None => s
  | Some id =>
      mkState (page s) (search s) (rows s) (total s) (Some id) None true
        (flights s ++ [mkFlight id (length (rows s)) (page s) (search s)]) (sent s ++ [id])
  end.

Section Page.
Context (R : Rule).
Definition after_delete (len : nat) (p : Z) (q : jsstring) (current : Z) : Z := if steps_back R len p q then p - 1 else current.
Definition on_answer (i : nat) (r : option exn) (s : State) : State :=
  match flights s !! i with
  | None => s
  | Some f =>
      let s := mkState (page s) (search s) (rows s) (total s) (deleteTarget s) (deleteError s) (confirming s)
                 (delete i (flights s)) (sent s) in
      match r with
      | None => put_dialog None None false (put_page (after_delete (f_rows f) (f_page f) (f_search f) (page s)) s)
      | Some err => put_dialog (deleteTarget s) (Some (message R err)) false s
      end
  end.

Inductive event :=
  | Data (rows : list jsstring) (total : Z) | Nav (b : nav) | Search (q : jsstring)
  | Ask (id : jsstring) | Cancel | Confirm | Answer (i : nat) (r : option exn).
Definition step (s : State) (e : event) : State :=
  match e with
  | Data r t => mkState (page s) (search s) r t (deleteTarget s) (deleteError s) (confirming s) (flights s) (sent s)
  | Nav b => match navigate (pageCount (total s) PER_PAGE) (page s) b with Some p => put_page p s | None => s end
  | Search q => mkState 1 q (rows s) (total s) (deleteTarget s) (deleteError s) (confirming s) (flights s) (sent s)
  | Ask id => if bool_decide (id ∈ rows s) then ask id s else s
  | Cancel => closeDelete s
  | Confirm => if confirming s then s else confirmDelete s
  | Answer i r => on_answer i r s
  end.
Definition run (es : list event) (s : State) : State := fold_left step es s.
End Page.

(** The rows of page [p] of [n]. *)
Definition rows_on (n p : Z) : nat := Z.to_nat (Z.min PER_PAGE (n - PER_PAGE * (p - 1))).

(** When the server's page [p] of [n] rows is shown and one of its rows is
    deleted, the page shown next exists among the pages of the rows left, or is the
    first; and the page moves only if it would not.  For every list that steps back,
    the firewall rules as long as no search is typed. *)
Theorem delete_keeps_page (R : Rule) (n p : Z) (q : jsstring) :
  R ∈ [web_endpoints; public_keys; api_keys; announcements] ∨ (R = firewall_rules ∧ q = []) →
  1 <= n → 1 <= p <= pageCount n PER_PAGE →
  let p' := after_delete R (rows_on n p) p q p in
  1 <= p' <= Z.max 1 (pageCount (n - 1) PER_PAGE) ∧ (p' ≠ p → pageCount (n - 1) PER_PAGE < p).
Proof.
  intros HR Hn Hp. cbn zeta. pose proof (pageCount_exact n PER_PAGE) as H1. pose proof (pageCount_exact (n - 1) PER_PAGE) as H2.
  unfold PER_PAGE in *. assert (1 <= rows_on n p <= 10)%nat as Hr by (unfold rows_on, PER_PAGE; lia).
  assert (steps_back R (rows_on n p) p q = last_row (rows_on n p) p) as E.
  { destruct HR as [HR|[-> ->]]; [|cbn; by rewrite andb_true_r].
    rewrite !elem_of_cons, elem_of_nil in HR. destruct HR as [->|[->|[->|[->|[]]]]]; try done. cbn. unfold last_row.
    f_equal. apply eq_iff_eq_true. rewrite Nat.leb_le, Nat.eqb_eq. lia. }
  unfold after_delete. rewrite E. unfold last_row. assert (rows_on n p = 1%nat ↔ n = 10 * (p - 1) + 1) as Hone.
  { unfold rows_on, PER_PAGE. lia. }
  destruct (Nat.eqb_spec (rows_on n p) 1) as [Eq|Ne]; cbn [andb]; [|lia].
  destruct (Z.ltb_spec 1 p); [|lia]. apply Hone in Eq. lia.
Qed.
Lemma delete_keeps_page_witness : let p' := after_delete web_endpoints (rows_on 21 3) 3 [] 3 in
  1 <= p' <= Z.max 1 (pageCount (21 - 1) PER_PAGE) ∧ (p' ≠ 3 → pageCount (21 - 1) PER_PAGE < 3).
Proof. apply (delete_keeps_page web_endpoints 21 3 []); [left; left|lia|vm_compute; split; discriminate]. Defined.

(** With a search typed, the firewall rules stay on a page that is gone. *)
Example firewall_search_stays : after_delete firewall_rules (rows_on 21 3) 3 (js "allow") 3 = 3 ∧ pageCount (21 - 1) PER_PAGE = 2.
Proof. vm_compute. done. Qed.

(** Only rows that were shown are deleted. *)
Definition seen_ok (seen : list jsstring) (s : State) : Prop :=
  (∀ x, x ∈ rows s → x ∈ seen) ∧ (∀ x, deleteTarget s = Some x → x ∈ seen) ∧ (∀ x, x ∈ sent s → x ∈ seen).
Definition shown (e : event) : list jsstring := match e with Data r _ => r | _ => [] end.
Lemma deleting_step_ok R seen s e : seen_ok seen s → seen_ok (seen ++ shown e) (step R s e).
Proof.
  intros H. pose proof H as (H1 & H2 & H3).
  destruct e as [r t|b|q|id| | |i r]; cbn [step shown]; rewrite ?app_nil_r.
  - split; [intros x Hx; apply elem_of_app; by right|]. split; intros x Hx; apply elem_of_app; left; auto.
  - by destruct (navigate _ _ _).
  - done.
  - case_bool_decide as Hid; [|done]. split; [done|]. split; [|done]. cbn. intros x [= <-]. auto.
  - done.
  - destruct (confirming s); [done|]. unfold confirmDelete. destruct (deleteTarget s) as [id|] eqn:E; [|done].
    split; [done|]. split; [done|]. cbn. intros x [Hx| ->%list_elem_of_singleton]%elem_of_app; [auto|by apply H2].
  - unfold on_answer. destruct (flights s !! i); [|done]. by destruct r.
Qed.
Lemma deletes_only_shown R es x : x ∈ sent (run R es opened) → x ∈ concat (map shown es).
Proof.
  assert (∀ es s seen, seen_ok seen s → seen_ok (seen ++ concat (map shown es)) (run R es s)) as H.
  { intros l. induction l as [|e l IH]; intros s seen Hs; cbn; [by rewrite app_nil_r|]. rewrite app_assoc.
    by apply IH, deleting_step_ok. }
  specialize (H es opened []). destruct H as (_ & _ & H); [|by apply H].
  split; [|split]; cbn; by intros y; rewrite ?elem_of_nil.
Qed.

(** The answer to a deletion whose dialog was cancelled closes the dialog of
    another row. *)
Example late_delete_closes : deleteTarget (run web_endpoints
  [Data [js "a"; js "b"] 2; Ask (js "a"); Confirm; Cancel; Ask (js "b"); Answer 0 None] opened) = None.
Proof. vm_compute. done. Qed.
End Deleting.
