(* ===== verification/ActionDialog.v ===== *)
(** * Accepting, rejecting and removing devices and containers

    hooks/useActionDialogState.ts, hooks/useDeviceActions.ts,
    hooks/useContainerActions.ts, pages/devices/DeviceActionDialog.tsx and
    pages/containers/ContainerActionDialog.tsx, with the portals that mount the
    dialogs.

    The portal keys the dialog by the operation, so another operation mounts another
    dialog: what an answer sets in a dialog that is gone is lost, but what it calls
    on the page is not. *)

From S2P Require Import Prelude JsString.
From S2P Require AcceptDevice.

Inductive EntityAction := accept | reject | remove.
#[export] Instance EntityAction_eq_dec : EqDecision EntityAction.
Proof. solve_decision. Defined.
Record EntityBase := mkEntity { uid : jsstring; name : jsstring }.
Record Operation := mkOperation { entity : EntityBase; action : EntityAction }.
Definition action_word (a : EntityAction) : jsstring := js (match a with accept => "accept" | reject => "reject" | remove => "remove" end).

(** What the dialog of devices or of containers says of a failure, given the
    status of an SDK error; [None] opens the billing warning. *)
Definition container_failure (billing : bool) (a : EntityAction) (status : option Z) : option jsstring :=
  let accepting := bool_decide (a = accept) in
  if accepting && bool_decide (status = Some 402) && billing then None
  else if accepting && bool_decide (status = Some 402)
       then Some (js "Couldn't accept the container. Check your billing status and try again.")
  else if accepting && bool_decide (status = Some 403)
       then Some (js "You reached the maximum amount of accepted containers in this namespace.")
  else if accepting && bool_decide (status = Some 409)
       then Some (js "A container with that name already exists. Rename it and try again.")
  else Some (js "Failed to " ++ action_word a ++ js " container.").
Definition device_failure (ed : AcceptDevice.Edition) (billing : bool) (a : EntityAction) (status : option Z) : option jsstring :=
  if negb (bool_decide (a = accept)) then Some (js "Failed to " ++ action_word a ++ js " device.")
  else if bool_decide (status = Some 402) && billing then None
  else Some (AcceptDevice.getAcceptDeviceErrorMessage ed status).

(** The request of an operation: the device endpoints, and the containers' one. *)
Inductive request := AcceptReq (u : jsstring) | StatusReq (u : jsstring) (status : jsstring) | RemoveReq (u : jsstring).
Definition device_request (o : Operation) : request :=
  match action o with
  | accept => AcceptReq (uid (entity o)) | reject => StatusReq (uid (entity o)) (js "reject") | remove => RemoveReq (uid (entity o))
  end.
Definition container_request (o : Operation) : request :=
  match action o with
  | accept => StatusReq (uid (entity o)) (js "accept") | reject => StatusReq (uid (entity o)) (js "reject")
  | remove => RemoveReq (uid (entity o))
  end.

(** The portal keys the dialog by the operation: another key mounts another one. *)
Definition key (o : option Operation) : option (EntityAction * jsstring) := (λ o, (action o, uid (entity o))) <$> o.

Record Flight := mkFlight { f_op : Operation; f_mount : nat }.
Record State := mkState {
  operation : option Operation;
  billingWarningOpen : bool;
  mount : nat;                      (* the dialog mounted now *)
  error : option jsstring;          (* its state *)
  confirming : bool;
  flights : list Flight;
  sent : list request;
  reported : list EntityAction;     (* what [onSuccess] was called with *)
}.
Definition closed : State := mkState None false 0 None false [] [] [].

Definition set_operation (o : option Operation) (s : State) : State :=
  if bool_decide (key o = key (operation s))
  then mkState o (billingWarningOpen s) (mount s) (error s) (confirming s) (flights s) (sent s) (reported s)
  else mkState o (billingWarningOpen s) (S (mount s)) None false (flights s) (sent s) (reported s).
Definition set_billing (b : bool) (s : State) : State :=
  mkState (operation s) b (mount s) (error s) (confirming s) (flights s) (sent s) (reported s).
(** State of a dialog that is gone is not set. *)
Definition set_local (m : nat) (e : option jsstring) (c : bool) (s : State) : State :=
  if bool_decide (m = mount s) then mkState (operation s) (billingWarningOpen s) (mount s) e c (flights s) (sent s) (reported s) else s.
Definition set_idle (m : nat) (s : State) : State := set_local m (error s) false s.
Definition runSuccess (a : EntityAction) (s : State) : State :=
  mkState (operation s) (billingWarningOpen s) (mount s) (error s) (confirming s) (flights s) (sent s) (reported s ++ [a]).
Definition openBillingWarning (s : State) : State := set_billing true (set_operation None s).

Section Dialog.
Context (request_of : Operation → request) (failure : EntityAction → option Z → option jsstring).

Definition handleConfirm (s : State) : State :=
  match operation s with
  | None => s
  | Some o =>
      mkState (Some o) (billingWarningOpen s) (mount s) None true (flights s ++ [mkFlight o (mount s)]) (sent s ++ [request_of o])
        (reported s)
  end.
Definition land (i : nat) (s : State) : State :=
  mkState (operation s) (billingWarningOpen s) (mount s) (error s) (confirming s) (delete i (flights s)) (sent s) (reported s).
(** [None]: done; otherwise the status of an SDK error, if it is one. *)
Definition on_answer (i : nat) (r : option (option Z)) (s : State) : State :=
  match flights s !! i with
  | None => s
  | Some f =>
      let a := action (f_op f) in
      match r with
      | None => set_idle (f_mount f) (set_operation None (runSuccess a (land i s)))
      | Some status =>
          match failure a status with
          | Some m => set_local (f_mount f) (Some m) false (land i s)
          | None => set_idle (f_mount f) (openBillingWarning (land i s))
          end
      end
  end.
Inductive event :=
  | Request (o : Operation) | Close | CloseBilling | Confirm | Answer (i : nat) (r : option (option Z)).
Definition step (s : State) (e : event) : State :=
  match e with
  | Request o => set_operation (Some o) s
  | Close => set_operation None s
  | CloseBilling => set_billing false s
  | Confirm => if confirming s then s else handleConfirm s
  | Answer i r => on_answer i r s
  end.
Definition run (es : list event) (s : State) : State := fold_left step es s.

(** The requests on their way: one to a dialog, and the mounted dialog's is for
    the operation it shows and keeps its button busy. *)
Record single (s : State) : Prop := mkSingle {
  s_nodup : NoDup (map f_mount (flights s));
  s_old : Forall (λ f, (f_mount f <= mount s)%nat) (flights s);
  s_mine : ∀ f, f ∈ flights s → f_mount f = mount s → key (Some (f_op f)) = key (operation s) ∧ confirming s = true;
}.

Lemma single_closed : single closed.
Proof. split; cbn; [constructor|constructor|by intros f ?%elem_of_nil]. Qed.

Lemma single_set_operation o s : single s → single (set_operation o s).
Proof.
  intros [H1 H2 H3]. unfold set_operation. case_bool_decide as E.
  - split; cbn; [done|done|]. intros f Hf Hm. destruct (H3 f Hf Hm) as [Hk Hc]. by rewrite <-E in Hk.
  - split; cbn; [done| |].
    + eapply Forall_impl; [exact H2|]. cbn. lia.
    + intros f Hf Hm. rewrite Forall_forall in H2. specialize (H2 f Hf). lia.
Qed.

Lemma delete_mount_gone (fs : list Flight) i f g : NoDup (map f_mount fs) → fs !! i = Some f → g ∈ delete i fs → f_mount g ≠ f_mount f.
Proof.
  intros Hn Hi Hg E. apply list_elem_of_lookup in Hg as [j Hj].
  assert (∃ k, k ≠ i ∧ fs !! k = Some g) as (k & Hk & Hg).
  { destruct (decide (j < i)%nat).
    - exists j. split; [lia|]. by rewrite list_lookup_delete_lt in Hj by lia.
    - exists (S j). split; [lia|]. by rewrite list_lookup_delete_ge in Hj by lia. }
  apply Hk. eapply (NoDup_lookup (map f_mount fs)); [done| |]; rewrite list_lookup_fmap, ?Hg, ?Hi; cbn; [done|by rewrite E].
Qed.

Lemma single_land i f s : single s → flights s !! i = Some f →
  single (land i s) ∧ ∀ g, g ∈ flights (land i s) → f_mount g ≠ f_mount f.
Proof.
  intros [H1 H2 H3] Hf. split; [split; cbn|].
  - eapply sublist_NoDup; [exact H1|]. apply (fmap_sublist f_mount), sublist_delete.
  - by apply Forall_delete.
  - intros g Hg. apply H3. eapply elem_of_sublist; [exact Hg|]. apply sublist_delete.
  - intros g Hg. by eapply delete_mount_gone.
Qed.

Lemma single_local m e c s : single s → (∀ g, g ∈ flights s → f_mount g ≠ m) → single (set_local m e c s).
Proof.
  intros [H1 H2 H3] Hm. unfold set_local. case_bool_decide as E; [|done]. split; cbn; [done|done|].
  intros g Hg Hgm. destruct (Hm g Hg). congruence.
Qed.

Lemma set_operation_flights o s : flights (set_operation o s) = flights s.
Proof. unfold set_operation. by case_bool_decide. Qed.

Lemma single_step s e : single s → single (step s e).
Proof.
  intros H. destruct e as [o| | | |i r]; cbn [step].
  - by apply single_set_operation.
  - by apply single_set_operation.
  - by destruct H.
  - destruct (confirming s) eqn:Ec; [done|]. unfold handleConfirm. destruct (operation s) as [o|] eqn:Eo; [|done].
    destruct H as [H1 H2 H3]. split; cbn.
    + rewrite map_app. cbn. apply NoDup_app. split; [done|]. split; [|apply NoDup_singleton].
      intros m (f & -> & Hf)%list_elem_of_fmap Hm%list_elem_of_singleton. destruct (H3 f Hf Hm). congruence.
    + apply Forall_app. split; [done|]. by apply Forall_singleton.
    + intros f [Hf| ->%list_elem_of_singleton]%elem_of_app Hm; [|done]. destruct (H3 f Hf Hm). congruence.
  - unfold on_answer. destruct (flights s !! i) as [f|] eqn:Ef; [|done].
    destruct (single_land i f s H Ef) as [HL HN].
    destruct r as [status|]; [destruct (failure _ status)|].
    + by apply single_local.
    + apply single_local; cbn; [|by rewrite set_operation_flights].
      destruct (single_set_operation None (land i s) HL) as [A B C]. by split.
    + apply single_local; cbn; [|by rewrite set_operation_flights].
      apply single_set_operation. by destruct HL.
Qed.

(** In whatever order the operations are asked for, confirmed, cancelled and
    answered, each dialog has at most one request on its way; and the one of the
    dialog on the screen is for the entity and the action it shows. *)
Theorem action_dialog_single (es : list event) :
  let s := run es closed in
  NoDup (map f_mount (flights s)) ∧
  (∀ f, f ∈ flights s → f_mount f = mount s → key (Some (f_op f)) = key (operation s) ∧ confirming s = true).
Proof.
  assert (single (run es closed)) as [H1 _ H3]; [|done]. unfold run. generalize single_closed. generalize closed.
  induction es as [|e es IH]; intros s Hs; [done|]. cbn. by apply IH, single_step.
Qed.

(** What is reported is what was confirmed, whatever the dialog shows when the
    answer comes; and the billing warning never covers a dialog. *)
Lemma reports_what_was_confirmed s i f r : flights s !! i = Some f →
  reported (on_answer i r s) = reported s ++ (if r then [] else [action (f_op f)]) ∧
  (billingWarningOpen s = false → billingWarningOpen (on_answer i r s) = true → operation (on_answer i r s) = None).
Proof.
  intros Hf. unfold on_answer. rewrite Hf. unfold set_idle, set_local, openBillingWarning, set_operation, set_billing.
  destruct r as [status|]; [destruct (failure _ _)|]; repeat case_bool_decide; cbn; rewrite ?app_nil_r; split; congruence.
Qed.
End Dialog.

Definition op1 : Operation := mkOperation (mkEntity (js "u1") (js "one")) accept.
Definition op2 : Operation := mkOperation (mkEntity (js "u2") (js "two")) remove.
(** The answer to a cancelled dialog's request closes the dialog opened since. *)
Example late_success_closes : operation (run container_request (container_failure true)
  [Request op1; Confirm; Close; Request op2; Answer 0 None] closed) = None.
Proof. vm_compute. done. Qed.

(** Only an acceptance refused for billing, with the warning available, opens it. *)
Lemma billing_warning_exact ed billing a status :
  (container_failure billing a status = None ↔ a = accept ∧ status = Some 402 ∧ billing = true) ∧
  (device_failure ed billing a status = None ↔ a = accept ∧ status = Some 402 ∧ billing = true).
Proof.
  unfold container_failure, device_failure. destruct a; rewrite ?bool_decide_eq_false_2 by done; cbn; [|naive_solver..].
  destruct billing; repeat case_bool_decide; cbn; split; naive_solver.
Qed.
