(* ===== verification/Queries.v ===== *)
(** * Queries and mutations (hooks/use*.ts, utils/encoding.ts, utils/deviceTags.ts)

    What the list hooks ask the server for, the filters they encode, and which
    cached queries each mutation makes stale.  A cached query is its key and whether
    it is fresh; the key of a generated query starts with an object whose [_id]
    names the operation.  A mutation is the answer of its request and what runs on
    success. *)

From S2P Require Import Prelude JsString JsJson JsEncoding.

#[local] Open Scope N_scope.

(** ** Reading a filter back *)

(** What [toBase64Json] undoes on the other side: base64url without padding, UTF-8,
    JSON. *)
Definition un_url_char (c : N) : N := if c =? 45 then 43 else if c =? 95 then 47 else c.
Definition fromBase64Json (s : jsstring) : option json :=
  match b64_decode (map un_url_char s) with Some bytes => parse (utf8_decode bytes) | None => None end.

(** The characters no URL escapes. *)
Definition url_safe (c : N) : bool := is_lower c || is_upper c || is_digit c || (c =? 45) || (c =? 95).

Lemma drop_while_stops p s : stops p s → drop_while p s = s.
Proof. destruct s as [|c r]; [done|]. cbn. by intros ->. Qed.
Lemma drop_while_all p a b : Forall (λ c, p c = true) a → drop_while p (a ++ b) = drop_while p b.
Proof. induction 1 as [|c a Hc Ha IH]; cbn; [done|by rewrite Hc]. Qed.

Lemma url_sextet v : v < 64 → un_url_char (url_char (b64_char v)) = b64_char v ∧ url_safe (url_char (b64_char v)) = true ∧
  (url_char (b64_char v) =? 61) = false.
Proof.
  intros H. rewrite <-(N2Nat.id v). assert (N.to_nat v ∈ seq 0 64) as Hin by (apply elem_of_seq; lia).
  revert Hin. generalize (N.to_nat v). apply Forall_forall. apply (bool_decide_unpack _). vm_compute. exact I.
Qed.

Lemma padding_equals bs : Forall (λ c, c = 61) (b64_padding bs).
Proof. unfold b64_padding. repeat case_match; repeat apply Forall_cons_2; try done; apply Forall_nil_2. Qed.

(** Without the padding, and with the two characters a URL would escape replaced. *)
Lemma toBase64Json_digits v : json_units v = true →
  toBase64Json v = map url_char (map b64_char (sextets (utf8_encode (stringify v)))).
Proof.
  intros Hv. unfold toBase64Json. set (bs := utf8_encode (stringify v)). unfold b64_encode. rewrite map_app, b64_digits_sextets.
  unfold drop_trailing. rewrite reverse_app, drop_while_all.
  2:{ apply Forall_reverse, Forall_map. eapply Forall_impl; [apply padding_equals|]. by intros c ->. }
  rewrite drop_while_stops; [by rewrite reverse_involutive|]. apply Forall_stops, Forall_reverse, Forall_map, Forall_map.
  eapply Forall_impl; [apply (sextets_lt bs), utf8_stringify_bytes, Hv|]. intros c Hc. by apply url_sextet.
Qed.

Lemma un_url_digits vs : Forall (λ v, v < 64) vs → map un_url_char (map url_char (map b64_char vs)) = map b64_char vs.
Proof. induction 1 as [|v vs Hv Hs IH]; cbn; [done|]. rewrite IH. f_equal. by apply url_sextet. Qed.

Lemma strip_padding_digits vs : Forall (λ v, v < 64) vs → strip_padding (map b64_char vs) = map b64_char vs.
Proof.
  intros H. unfold strip_padding. case_match; [done|].
  assert (Forall (λ c, (c =? 61) = false) (reverse (map b64_char vs))) as HF.
  { apply Forall_reverse, Forall_map. eapply Forall_impl; [exact H|]. intros c Hc%b64_char_alphabet. apply N.eqb_neq. naive_solver. }
  destruct (reverse (map b64_char vs)) as [|p [|q r]]; [done..|]. apply Forall_cons in HF as [-> _]. done.
Qed.

Lemma b64_decode_digits bs : Forall is_byte bs → b64_decode (map b64_char (sextets bs)) = Some bs.
Proof.
  intros H. pose proof (sextets_lt bs H) as Hs. unfold b64_decode. rewrite List_filter_id.
  2:{ apply Forall_map. eapply Forall_impl; [exact Hs|]. intros v Hv%b64_char_alphabet. apply negb_true_iff. naive_solver. }
  rewrite strip_padding_digits, mapM_b64_value by done. by apply sextets_groups.
Qed.

Lemma fromBase64Json_toBase64Json v : json_wf v = true → json_units v = true →
  fromBase64Json (toBase64Json v) = Some v ∧ Forall (λ c, url_safe c = true) (toBase64Json v).
Proof.
  intros Hw Hu. pose proof (utf8_stringify_bytes v Hu) as Hb. pose proof (sextets_lt _ Hb) as Hs. unfold fromBase64Json.
  rewrite toBase64Json_digits by done. split.
  - by rewrite un_url_digits, b64_decode_digits, utf8_stringify, parse_stringify.
  - apply Forall_map, Forall_map. eapply Forall_impl; [exact Hs|]. intros c Hc. by apply url_sextet.
Qed.

(** ** The filters *)

Definition str (s : string) : json := JStr (js s).
Definition operator_or : json := JObj [(js "type", str "operator"); (js "params", JObj [(js "name", str "or")])].
Definition property (name operator : string) (value : json) : json :=
  JObj [(js "type", str "property"); (js "params", JObj [(js "name", str name); (js "operator", str operator); (js "value", value)])].
Definition contains (name : string) (search : jsstring) : json := property name "contains" (JStr search).

Definition tag_clauses (tags : list jsstring) : list json :=
  if (0 <? length tags)%nat then [property "tags.name" "contains" (JArr (map JStr tags))] else [].
(** useDevices.ts *)
Definition device_clauses (search : jsstring) (tags : list jsstring) : list json :=
  (if truthy search then [operator_or; contains "name" search; operator_or; contains "custom_fields" search] else []) ++ tag_clauses tags.
Definition buildFilter (search : jsstring) (tags : list jsstring) : jsstring := toBase64Json (JArr (device_clauses search tags)).
(** useContainers.ts *)
Definition container_clauses (search : jsstring) (tags : list jsstring) : list json :=
  (if truthy search then [contains "name" search] else []) ++ tag_clauses tags.
Definition buildContainerFilter (search : jsstring) (tags : list jsstring) : jsstring :=
  toBase64Json (JArr (container_clauses search tags)).
(** useAdminDevices.ts; useAdminNamespaces.ts has the same *)
Definition buildNameFilter (search : jsstring) : jsstring := toBase64Json (JArr [contains "name" search]).
Definition buildNamespaceNameFilter (search : jsstring) : jsstring := toBase64Json (JArr [contains "name" search]).
(** useAdminUsers.ts *)
Definition buildUsernameFilter (search : jsstring) : jsstring := toBase64Json (JArr [contains "username" search]).
(** usePublicKeys.ts *)
Definition public_key_clauses (search : jsstring) : list json :=
  [operator_or; contains "name" search; operator_or; contains "fingerprint" search].
Definition buildPublicKeyFilter (search : jsstring) : jsstring := toBase64Json (JArr (public_key_clauses search)).
(** useWebEndpoints.ts *)
Definition encodeAddressFilter (value : jsstring) : jsstring := toBase64Json (JArr [contains "address" value]).
(** utils/invitations.ts *)
Inductive InvitationStatus := pending | accepted | rejected | cancelled.
Definition status_word (s : InvitationStatus) : string :=
  match s with pending => "pending" | accepted => "accepted" | rejected => "rejected" | cancelled => "cancelled" end.
Definition invitationStatusFilter (status : InvitationStatus) : jsstring :=
  toBase64Json (JArr [property "status" "eq" (str (status_word status))]).
(** useAdminAccountRequests.ts *)
Definition AWAITING_APPROVAL_FILTER : jsstring := toBase64Json (JArr [property "awaiting_approval" "bool" (JBool true)]).

Lemma contains_wf n s : units_ok s = true → json_wf (contains n s) = true ∧ (units_ok (js n) = true → json_units (contains n s) = true).
Proof.
  intros Hs. unfold contains, property, str. split.
  - cbn [json_wf forallb map fst snd]. rewrite !bool_decide_eq_true_2; [done| |]; apply (bool_decide_unpack _); vm_compute; exact I.
  - intros Hn. cbn [json_units forallb map fst snd]. rewrite Hs, Hn. by vm_compute.
Qed.
Lemma tag_clauses_wf tags : forallb units_ok tags = true →
  forallb json_wf (tag_clauses tags) = true ∧ forallb json_units (tag_clauses tags) = true.
Proof.
  intros Ht. unfold tag_clauses. destruct (0 <? length tags)%nat; [|done]. unfold property, str.
  assert (forallb json_wf (map JStr tags) = true) as H1 by (clear; by induction tags).
  assert (forallb json_units (map JStr tags) = true) as H2.
  { revert Ht. clear. induction tags as [|t tags IH]; cbn; [done|]. intros [-> H]%andb_true_iff. by apply IH. }
  cbn [json_wf json_units forallb map fst snd]. rewrite H1, H2. split; by vm_compute.
Qed.

Lemma device_clauses_wf search tags : units_ok search = true → forallb units_ok tags = true →
  json_wf (JArr (device_clauses search tags)) = true ∧ json_units (JArr (device_clauses search tags)) = true.
Proof.
  intros Hs Ht. destruct (tag_clauses_wf tags Ht) as [H1 H2]. cbn [json_wf json_units]. unfold device_clauses. rewrite !forallb_app, H1, H2.
  destruct (truthy search); [|done]. cbn [forallb]. destruct (contains_wf "name" search Hs) as [-> ->]; [|done].
  destruct (contains_wf "custom_fields" search Hs) as [-> ->]; [|done]. by vm_compute.
Qed.
Lemma container_clauses_wf search tags : units_ok search = true → forallb units_ok tags = true →
  json_wf (JArr (container_clauses search tags)) = true ∧ json_units (JArr (container_clauses search tags)) = true.
Proof.
  intros Hs Ht. destruct (tag_clauses_wf tags Ht) as [H1 H2]. cbn [json_wf json_units]. unfold container_clauses. rewrite !forallb_app, H1, H2.
  destruct (truthy search); [|done]. cbn [forallb]. by destruct (contains_wf "name" search Hs) as [-> ->].
Qed.
Lemma single_clause_wf n search : units_ok (js n) = true → units_ok search = true →
  json_wf (JArr [contains n search]) = true ∧ json_units (JArr [contains n search]) = true.
Proof. intros Hn Hs. cbn [json_wf json_units forallb]. by destruct (contains_wf n search Hs) as [-> ->]. Qed.
Lemma public_key_clauses_wf search : units_ok search = true →
  json_wf (JArr (public_key_clauses search)) = true ∧ json_units (JArr (public_key_clauses search)) = true.
Proof.
  intros Hs. cbn [json_wf json_units public_key_clauses forallb]. destruct (contains_wf "name" search Hs) as [-> ->]; [|done].
  destruct (contains_wf "fingerprint" search Hs) as [-> ->]; [|done]. by vm_compute.
Qed.

(** A filter is made of characters no URL escapes and decodes to the clauses. *)
Definition reads_back (filter : jsstring) (clauses : list json) : Prop :=
  fromBase64Json filter = Some (JArr clauses) ∧ Forall (λ c, url_safe c = true) filter.
Lemma encoded_reads_back cl : json_wf (JArr cl) = true ∧ json_units (JArr cl) = true → reads_back (toBase64Json (JArr cl)) cl.
Proof. intros [H1 H2]. by apply fromBase64Json_toBase64Json. Qed.

(** What a filter asks for, read from the decoded JSON by the names of the members
    alone: a list of operators and of conditions on a property. *)
Inductive clause :=
  | Operator (name : jsstring)
  | Property (name operator : jsstring) (value : json).
Definition member (k : string) (j : json) : option json :=
  match j with JObj ms => assoc (js k) ms | _ => None end.
Definition text (j : option json) : option jsstring :=
  match j with Some (JStr s) => Some s | _ => None end.
Definition read_clause (j : json) : option clause :=
  match text (member "type" j), member "params" j with
  | Some t, Some params =>
      if bool_decide (t = js "operator") then Operator <$> text (member "name" params)
      else if bool_decide (t = js "property") then
        match text (member "name" params), text (member "operator" params), member "value" params with
        | Some n, Some o, Some v => Some (Property n o v)
        | _, _, _ => None
        end
      else None
  | _, _ => None
  end.
Definition read_clauses (j : json) : option (list clause) :=
  match j with JArr l => mapM read_clause l | _ => None end.
Definition asks_for (filter : jsstring) (clauses : list clause) : Prop :=
  fromBase64Json filter ≫= read_clauses = Some clauses ∧ Forall (λ c, url_safe c = true) filter.

Lemma asks cl l : json_wf (JArr cl) = true ∧ json_units (JArr cl) = true → mapM read_clause cl = Some l →
  asks_for (toBase64Json (JArr cl)) l.
Proof. intros [H1 H2]%encoded_reads_back Hl. split; [by rewrite H1|done]. Qed.
Lemma read_tag_clauses tags : mapM read_clause (tag_clauses tags) =
  Some (match tags with [] => [] | _ => [Property (js "tags.name") (js "contains") (JArr (map JStr tags))] end).
Proof. by destruct tags. Qed.
Lemma read_app a b l k : mapM read_clause a = Some l → mapM read_clause b = Some k → mapM read_clause (a ++ b) = Some (l ++ k).
Proof. intros Ha Hb. apply mapM_Some_2, Forall2_app; by apply mapM_Some_1. Qed.
Lemma read_device_clauses search tags : mapM read_clause (device_clauses search tags) = Some (
  (match search with [] => [] | _ =>
     [Operator (js "or"); Property (js "name") (js "contains") (JStr search);
      Operator (js "or"); Property (js "custom_fields") (js "contains") (JStr search)] end) ++
  match tags with [] => [] | _ => [Property (js "tags.name") (js "contains") (JArr (map JStr tags))] end).
Proof. unfold device_clauses. apply read_app; [by destruct search|apply read_tag_clauses]. Qed.
Lemma read_container_clauses search tags : mapM read_clause (container_clauses search tags) = Some (
  (match search with [] => [] | _ => [Property (js "name") (js "contains") (JStr search)] end) ++
  match tags with [] => [] | _ => [Property (js "tags.name") (js "contains") (JArr (map JStr tags))] end).
Proof. unfold container_clauses. apply read_app; [by destruct search|apply read_tag_clauses]. Qed.

(** C38: whatever is typed in a search field and whichever tags are picked, the
    filter each list sends is made of characters no URL escapes, and decodes
    (base64url, UTF-8, JSON) to these clauses.  Devices: the text in the name or
    in the custom fields, and all the picked tags; containers: the text in the
    name, and the tags; devices and namespaces of the administration: the text in
    the name; users: in the user name; public keys: in the name or the
    fingerprint; web endpoints: in the address; invitations: their status;
    account requests: awaiting approval.  No text, or no tag, asks for nothing. *)
Theorem filters_round_trip (search : jsstring) (tags : list jsstring) (st : InvitationStatus) :
  units_ok search = true → forallb units_ok tags = true →
  let has name := Property (js name) (js "contains") (JStr search) in
  let tagged := match tags with [] => [] | _ => [Property (js "tags.name") (js "contains") (JArr (map JStr tags))] end in
  let or := Operator (js "or") in
  asks_for (buildFilter search tags)
    ((match search with [] => [] | _ => [or; has "name"; or; has "custom_fields"] end) ++ tagged) ∧
  asks_for (buildContainerFilter search tags) ((match search with [] => [] | _ => [has "name"] end) ++ tagged) ∧
  asks_for (buildNameFilter search) [has "name"] ∧
  asks_for (buildNamespaceNameFilter search) [has "name"] ∧
  asks_for (buildUsernameFilter search) [has "username"] ∧
  asks_for (buildPublicKeyFilter search) [or; has "name"; or; has "fingerprint"] ∧
  asks_for (encodeAddressFilter search) [has "address"] ∧
  asks_for (invitationStatusFilter st) [Property (js "status") (js "eq") (JStr (match st with
    | pending => js "pending" | accepted => js "accepted" | rejected => js "rejected" | cancelled => js "cancelled" end))] ∧
  asks_for AWAITING_APPROVAL_FILTER [Property (js "awaiting_approval") (js "bool") (JBool true)].
Proof.
  intros Hs Ht has tagged or.
  split; [apply asks; [by apply device_clauses_wf|apply read_device_clauses]|].
  split; [apply asks; [by apply container_clauses_wf|apply read_container_clauses]|].
  do 3 (split; [apply asks; [by apply single_clause_wf|done]|]).
  split; [apply asks; [by apply public_key_clauses_wf|done]|].
  split; [apply asks; [by apply single_clause_wf|done]|].
  split; [destruct st|]; (apply asks; [split; vm_compute; reflexivity|done]).
Qed.
Lemma filters_round_trip_witness :
  asks_for (buildFilter (js "größe") [js "prod"; js "eu"])
    [Operator (js "or"); Property (js "name") (js "contains") (JStr (js "größe"));
     Operator (js "or"); Property (js "custom_fields") (js "contains") (JStr (js "größe"));
     Property (js "tags.name") (js "contains") (JArr [JStr (js "prod"); JStr (js "eu")])] ∧
  asks_for (buildNamespaceNameFilter (js "größe")) [Property (js "name") (js "contains") (JStr (js "größe"))].
Proof.
  destruct (filters_round_trip (js "größe") [js "prod"; js "eu"] pending) as (H1 & _ & _ & H4 & _);
    [vm_compute; reflexivity..|]. split; [exact H1|exact H4].
Defined.

(** ** What the list hooks ask for *)

Definition num (n : Z) : json := JNum (Dec n 0).
Definition paging (page perPage : Z) : list (jsstring * json) := [(js "page", num page); (js "per_page", num perPage)].
Definition opt (b : bool) (k : string) (v : jsstring) : list (jsstring * json) := if b then [(js k, JStr v)] else [].
Definition sorting (sortBy orderBy : jsstring) : list (jsstring * json) := [(js "sort_by", JStr sortBy); (js "order_by", JStr orderBy)].
Definition some_filter (search : jsstring) (tags : list jsstring) : bool := truthy search || (0 <? length tags)%nat.

Definition useDevices_query (page perPage : Z) (status search : jsstring) (filterTags : list jsstring) (sortBy orderBy : jsstring) :=
  paging page perPage ++ opt (truthy status) "status" status
  ++ opt (some_filter search filterTags) "filter" (buildFilter search filterTags) ++ sorting sortBy orderBy.
Definition useContainers_query (page perPage : Z) (status search : jsstring) (filterTags : list jsstring) (sortBy orderBy : jsstring) :=
  paging page perPage ++ opt (truthy status) "status" status
  ++ opt (some_filter search filterTags) "filter" (buildContainerFilter search filterTags) ++ sorting sortBy orderBy.
Definition useAdminDevices_query (page perPage : Z) (search status sortBy orderBy : jsstring) :=
  paging page perPage ++ sorting sortBy orderBy ++ opt (truthy search) "filter" (buildNameFilter search)
  ++ opt (truthy status) "status" status.
Definition useAdminNamespaces_query (page perPage : Z) (search : jsstring) :=
  paging page perPage ++ opt (truthy search) "filter" (buildNamespaceNameFilter search).
Definition useAdminUsers_query (page perPage : Z) (search : jsstring) :=
  paging page perPage ++ opt (truthy search) "filter" (buildUsernameFilter search).
Definition useAdminAccountRequests_query (page perPage : Z) := paging page perPage ++ opt true "filter" AWAITING_APPROVAL_FILTER.
Definition usePublicKeys_query (page perPage : Z) (search : jsstring) :=
  paging page perPage ++ opt (truthy search) "filter" (buildPublicKeyFilter search).
Definition useWebEndpoints_query (page perPage : Z) (addressFilter : option jsstring) :=
  let trimmedFilter := trim <$> addressFilter in
  let filter := if is_truthy trimmedFilter then Some (encodeAddressFilter (default [] trimmedFilter)) else None in
  paging page perPage ++ opt (is_truthy filter) "filter" (default [] filter).
Definition useSessions_query (page perPage : Z) := paging page perPage.
Definition useFirewallRules_query (page perPage : Z) := paging page perPage.
Definition useTags_query (page perPage : Z) := paging page perPage.
Definition useApiKeys_query (page perPage : Z) (sortBy orderBy : jsstring) := paging page perPage ++ sorting sortBy orderBy.
Definition useInstallKeys_query (page perPage : Z) (sortBy orderBy : jsstring) := paging page perPage ++ sorting sortBy orderBy.
Definition useInstallKeyEvents_query (page perPage : Z) := paging page perPage ++ sorting (js "created_at") (js "desc").
Definition useNamespaceInvitations_query (page perPage : Z) (status : InvitationStatus) :=
  opt true "filter" (invitationStatusFilter status) ++ paging page perPage.

(** Two searches share a page of the cache only if they are the same search: the
    query, hence the key made of it, tells searches and tags apart. *)
Lemma device_clauses_inj s t s' t' : device_clauses s t = device_clauses s' t' → s = s' ∧ t = t'.
Proof.
  assert (∀ t t', tag_clauses t = tag_clauses t' → t = t') as HT.
  { intros a b. unfold tag_clauses. destruct a as [|x a], b as [|y b]; cbn [length Nat.ltb Nat.leb]; try done. intros E.
    injection E as -> E. f_equal. assert (Inj (=) (=) JStr) by (by intros ?? [=]). by apply (inj (fmap JStr)) in E. }
  unfold device_clauses. destruct s as [|c s], s' as [|c' s']; cbn [truthy app].
  - intros E. split; [done|by apply HT].
  - intros E. apply (f_equal length) in E. unfold tag_clauses in E. destruct t; cbn in E; lia.
  - intros E. apply (f_equal length) in E. unfold tag_clauses in E. destruct t'; cbn in E; lia.
  - intros E. injection E as H1 H2 _ _ H3. split; [by subst|by apply HT].
Qed.
Lemma device_query_inj p n st s t so o s' t' :
  units_ok s = true → units_ok s' = true → forallb units_ok t = true → forallb units_ok t' = true →
  useDevices_query p n st s t so o = useDevices_query p n st s' t' so o → s = s' ∧ t = t'.
Proof.
  intros Hs Hs' Ht Ht'. unfold useDevices_query. intros E. apply app_inv_head, app_inv_head, app_inv_tail in E.
  assert (∀ x y, some_filter x y = false → x = [] ∧ y = []) as HN by (by intros [|] [|]).
  unfold opt in E. destruct (some_filter s t) eqn:F1, (some_filter s' t') eqn:F2; try done.
  - injection E as E. apply device_clauses_inj.
    pose proof (encoded_reads_back _ (device_clauses_wf s t Hs Ht)) as [R1 _].
    pose proof (encoded_reads_back _ (device_clauses_wf s' t' Hs' Ht')) as [R2 _].
    unfold buildFilter in E. rewrite E in R1. rewrite R1 in R2. by injection R2.
  - apply HN in F1 as [-> ->], F2 as [-> ->]. done.
Qed.

(** The retry of the administration queries: once, and never after a 401. *)
Definition admin_retry (count : Z) (status : option Z) : bool := if bool_decide (status = Some 401%Z) then false else (count <? 1)%Z.

(** ** utils/deviceTags.ts *)

(** [String(t)] of a JSON value. *)
Fixpoint js_String (j : json) : jsstring :=
  match j with
  | JNull => js "null"
  | JBool b => js (if b then "true" else "false")
  | JNum n => num_to_string n
  | JStr s => s
  | JArr l => join [44] (map (λ x, match x with JNull => [] | _ => js_String x end) l)
  | JObj _ => js "[object Object]"
  end.
Definition tag_name (t : json) : json :=
  match t with
  | JObj ms => match assoc (js "name") ms with Some n => n | None => JStr (js_String t) end
  | _ => JStr (js_String t)
  end.
Definition normalizeDeviceTags (tags : option json) : list json :=
  match tags with Some (JArr l) => map tag_name l | _ => [] end.
(** Names already flattened stay; objects become their names. *)
Lemma normalize_tags_names names : normalizeDeviceTags (Some (JArr (map JStr names))) = map JStr names ∧
  normalizeDeviceTags (Some (JArr (map (λ n, JObj [(js "name", JStr n)]) names))) = map JStr names.
Proof. unfold normalizeDeviceTags. rewrite !map_map. split; by apply map_ext. Qed.

(** ** The cache *)

Record Entry := mkEntry { queryKey : list json; fresh : bool }.
Definition predicate (ids : list jsstring) (e : Entry) : bool :=
  match queryKey e with
  | JObj ms :: _ => match assoc (js "_id") ms with Some (JStr id) => bool_decide (id ∈ ids) | _ => false end
  | _ => false
  end.
Definition invalidateByIds (ids : list jsstring) (cache : list Entry) : list Entry :=
  map (λ e, if predicate ids e then mkEntry (queryKey e) false else e) cache.
(** A mutation whose [onSuccess] invalidates: nothing happens on failure. *)
Definition settle (ids : list jsstring) (ok : bool) (cache : list Entry) : list Entry :=
  if ok then invalidateByIds ids cache else cache.

(** The key of a generated query. *)
Definition query_of (id : jsstring) (rest : list (jsstring * json)) : list json := [JObj ((js "_id", JStr id) :: rest)].

(** Every page, search and order of a list named is stale after a success, queries of
    other names and hand-made keys are as they were, and no entry is dropped. *)
Lemma settle_exact ids ok cache : let c := settle ids ok cache in
  map queryKey c = map queryKey cache ∧
  (∀ id rest, id ∈ ids → ok = true → mkEntry (query_of id rest) true ∉ c) ∧
  (∀ e, e ∈ cache → ok = false ∨ predicate ids e = false → e ∈ c).
Proof.
  cbn zeta. unfold settle, invalidateByIds. split; [|split].
  - destruct ok; [|done]. rewrite map_map. apply map_ext. intros e. by destruct (predicate ids e).
  - intros id rest Hid -> (e & E & He)%list_elem_of_fmap. destruct (predicate ids e) eqn:Ep; [done|]. subst e.
    unfold predicate, query_of in Ep. cbn [queryKey assoc] in Ep. rewrite bool_decide_eq_true_2 in Ep by done.
    by rewrite bool_decide_eq_true_2 in Ep.
  - intros e He [-> | Hp]; [done|]. destruct ok; [|done]. apply list_elem_of_fmap. exists e. by rewrite Hp.
Qed.

(** ** The mutation hooks: what each makes stale *)

Definition ids (l : list string) : list jsstring := map js l.

Definition useCreateAccessPolicy := ids ["listAccessPolicies"].
Definition useUpdateAccessPolicy := ids ["listAccessPolicies"].
Definition useDeleteAccessPolicy := ids ["listAccessPolicies"].
Definition useApproveAccountRequest := ids ["getUsers"; "getUser"].
Definition useRejectAccountRequest := ids ["getUsers"; "getUser"].
Definition useAdminCreateAnnouncement := ids ["listAnnouncementsAdmin"].
Definition useAdminUpdateAnnouncement := ids ["listAnnouncementsAdmin"; "getAnnouncementAdmin"].
Definition useAdminDeleteAnnouncement := ids ["listAnnouncementsAdmin"; "getAnnouncementAdmin"].
Definition useAdminEditNamespace := ids ["getNamespacesAdmin"; "getNamespaceAdmin"].
Definition useAdminDeleteNamespace := ids ["getNamespacesAdmin"; "getNamespaceAdmin"].
Definition useCreateUser := ids ["getUsers"].
Definition useUpdateUser := ids ["getUsers"; "getUser"].
Definition useDeleteUser := ids ["getUsers"; "getUser"].
Definition useResetUserPassword := ids ["getUsers"; "getUser"].
Definition useCreateApiKey := ids ["apiKeyList"].
Definition useUpdateApiKey := ids ["apiKeyList"].
Definition useDeleteApiKey := ids ["apiKeyList"].
Definition useUpdateContainerStatus := ids ["getContainers"; "getContainer"].
Definition useRemoveContainer := ids ["getContainers"; "getContainer"].
Definition useRenameContainer := ids ["getContainers"; "getContainer"].
Definition useAddContainerTag := ids ["getContainers"; "getContainer"; "getTags"].
Definition useRemoveContainerTag := ids ["getContainers"; "getContainer"].
Definition useAcceptDevice := ids ["getDevices"; "getDevice"; "getStatusDevices"; "getStats"].
Definition useRejectDevice := ids ["getDevices"; "getDevice"; "getStatusDevices"].
Definition useRemoveDevice := ids ["getDevices"; "getDevice"; "getStatusDevices"; "getStats"].
Definition useRenameDevice := ids ["getDevices"; "getDevice"; "getStatusDevices"].
Definition useSetDeviceCustomField := ids ["getDevices"; "getDevice"].
Definition useDeleteDeviceCustomField := ids ["getDevices"; "getDevice"].
Definition useAddDeviceTag := ids ["getDevices"; "getDevice"; "getStatusDevices"; "getTags"].
Definition useRemoveDeviceTag := ids ["getDevices"; "getDevice"; "getStatusDevices"].
Definition useCreateFirewallRule := ids ["getFirewallRules"].
Definition useUpdateFirewallRule := ids ["getFirewallRules"].
Definition useDeleteFirewallRule := ids ["getFirewallRules"].
Definition useCreateInstallKey := ids ["installKeyList"].
Definition useUpdateInstallKey := ids ["installKeyList"].
Definition useAcceptInvite := ids ["getMembershipInvitationList"; "getNamespace"; "getNamespaces"].
Definition useGenerateInvitationLink :=
  ids ["getNamespaceMembershipInvitationList"; "listNamespaceMembers"; "getNamespace"; "getNamespaces"].
Definition useCancelMembershipInvitation := ids ["getNamespaceMembershipInvitationList"].
Definition useAddMember := ids ["getNamespaces"; "getNamespace"; "listNamespaceMembers"].
Definition useUpdateMemberRole := ids ["getNamespaces"; "getNamespace"; "listNamespaceMembers"].
Definition useRemoveMember := ids ["getNamespaces"; "getNamespace"; "listNamespaceMembers"].
Definition useApproveMember := ids ["getNamespaces"; "getNamespace"; "listNamespaceMembers"].
Definition useEditNamespace := ids ["getNamespaces"; "getNamespace"].
Definition useSetSshAccessMode := ids ["getNamespaces"; "getNamespace"].
Definition useCreatePublicKey := ids ["getPublicKeys"].
Definition useUpdatePublicKey := ids ["getPublicKeys"].
Definition useDeletePublicKey := ids ["getPublicKeys"].
Definition useConfirmSSHApproval := ids ["listSshIdentities"].
Definition useRejectSSHApproval := ids [].
Definition useCreateSSHIdentity := ids ["listSshIdentities"].
Definition useRenameSSHIdentity := ids ["listSshIdentities"].
Definition useDeleteSSHIdentity := ids ["listSshIdentities"].
Definition useCreateServiceAccount := ids ["listServiceAccounts"; "listSshIdentities"].
Definition useDeleteServiceAccount := ids ["listServiceAccounts"; "listSshIdentities"].
Definition useCloseSession := ids ["getSessions"; "getSession"; "getStatusDevices"].
Definition useDeleteSessionRecording := ids ["getSessions"; "getSession"].
Definition useCreateTag := ids ["getTags"; "getDevices"; "getDevice"].
Definition useUpdateTag := ids ["getTags"; "getDevices"; "getDevice"].
Definition useDeleteTag := ids ["getTags"; "getDevices"; "getDevice"].
Definition useCreateWebEndpoint := ids ["listWebEndpoints"].
Definition useDeleteWebEndpoint := ids ["listWebEndpoints"].
Definition useUploadLicense := ids ["getLicense"].

(** The queries that show what a mutation changes. *)
Definition shows : list (list jsstring * list string) :=
  [(useCreateAccessPolicy, ["listAccessPolicies"]); (useUpdateAccessPolicy, ["listAccessPolicies"]);
   (useDeleteAccessPolicy, ["listAccessPolicies"]); (useApproveAccountRequest, ["getUsers"; "getUser"]);
   (useRejectAccountRequest, ["getUsers"; "getUser"]); (useAdminCreateAnnouncement, ["listAnnouncementsAdmin"]);
   (useAdminUpdateAnnouncement, ["listAnnouncementsAdmin"; "getAnnouncementAdmin"]);
   (useAdminDeleteAnnouncement, ["listAnnouncementsAdmin"]); (useAdminEditNamespace, ["getNamespacesAdmin"; "getNamespaceAdmin"]);
   (useAdminDeleteNamespace, ["getNamespacesAdmin"]); (useCreateUser, ["getUsers"]); (useUpdateUser, ["getUsers"; "getUser"]);
   (useDeleteUser, ["getUsers"]); (useCreateApiKey, ["apiKeyList"]); (useUpdateApiKey, ["apiKeyList"]); (useDeleteApiKey, ["apiKeyList"]);
   (useUpdateContainerStatus, ["getContainers"; "getContainer"]); (useRemoveContainer, ["getContainers"]);
   (useRenameContainer, ["getContainers"; "getContainer"]); (useAddContainerTag, ["getContainers"; "getContainer"; "getTags"]);
   (useRemoveContainerTag, ["getContainers"; "getContainer"]); (useAcceptDevice, ["getDevices"; "getDevice"; "getStats"]);
   (useRejectDevice, ["getDevices"; "getDevice"]); (useRemoveDevice, ["getDevices"; "getStats"]);
   (useRenameDevice, ["getDevices"; "getDevice"]); (useSetDeviceCustomField, ["getDevices"; "getDevice"]);
   (useDeleteDeviceCustomField, ["getDevices"; "getDevice"]); (useAddDeviceTag, ["getDevices"; "getDevice"; "getTags"]);
   (useRemoveDeviceTag, ["getDevices"; "getDevice"]); (useCreateFirewallRule, ["getFirewallRules"]);
   (useUpdateFirewallRule, ["getFirewallRules"]); (useDeleteFirewallRule, ["getFirewallRules"]);
   (useCreateInstallKey, ["installKeyList"]); (useUpdateInstallKey, ["installKeyList"]);
   (useGenerateInvitationLink, ["getNamespaceMembershipInvitationList"; "listNamespaceMembers"]);
   (useCancelMembershipInvitation, ["getNamespaceMembershipInvitationList"]); (useAddMember, ["listNamespaceMembers"]);
   (useUpdateMemberRole, ["listNamespaceMembers"]); (useRemoveMember, ["listNamespaceMembers"]);
   (useApproveMember, ["listNamespaceMembers"]); (useEditNamespace, ["getNamespace"; "getNamespaces"]);
   (useSetSshAccessMode, ["getNamespace"]); (useCreatePublicKey, ["getPublicKeys"]); (useUpdatePublicKey, ["getPublicKeys"]);
   (useDeletePublicKey, ["getPublicKeys"]); (useConfirmSSHApproval, ["listSshIdentities"]);
   (useCreateSSHIdentity, ["listSshIdentities"]); (useRenameSSHIdentity, ["listSshIdentities"]);
   (useDeleteSSHIdentity, ["listSshIdentities"]); (useCreateServiceAccount, ["listServiceAccounts"; "listSshIdentities"]);
   (useDeleteServiceAccount, ["listServiceAccounts"; "listSshIdentities"]); (useCloseSession, ["getSessions"; "getSession"]);
   (useDeleteSessionRecording, ["getSessions"; "getSession"]); (useCreateTag, ["getTags"]); (useUpdateTag, ["getTags"; "getDevices"; "getDevice"]);
   (useDeleteTag, ["getTags"; "getDevices"; "getDevice"]); (useCreateWebEndpoint, ["listWebEndpoints"]);
   (useDeleteWebEndpoint, ["listWebEndpoints"]); (useUploadLicense, ["getLicense"])].

Lemma shows_covered : Forall (λ p : list jsstring * list string, Forall (λ q, js q ∈ p.1) p.2) shows.
Proof. apply (bool_decide_unpack _). vm_compute. exact I. Qed.

(** After any of these mutations has succeeded, no cached answer of a query
    that shows what it changed is still fresh, whatever its page, search or order;
    after it has failed the cache is as it was. *)
Theorem mutation_refreshes (h : list jsstring) (qs : list string) (cache : list Entry) :
  (h, qs) ∈ shows →
  (∀ q rest, q ∈ qs → mkEntry (query_of (js q) rest) true ∉ settle h true cache) ∧ settle h false cache = cache.
Proof.
  intros Hin. split; [|done]. intros q rest Hq. apply (settle_exact h true cache); [|done].
  pose proof shows_covered as H. rewrite Forall_forall in H. specialize (H _ Hin). rewrite Forall_forall in H. by apply H.
Qed.
Lemma mutation_refreshes_witness :
  (∀ q rest, q ∈ ["listWebEndpoints"] → mkEntry (query_of (js q) rest) true ∉
     settle useCreateWebEndpoint true [mkEntry (query_of (js "listWebEndpoints") (paging 2 10)) true]) ∧
  settle useCreateWebEndpoint false [mkEntry (query_of (js "listWebEndpoints") (paging 2 10)) true]
    = [mkEntry (query_of (js "listWebEndpoints") (paging 2 10)) true].
Proof.
  apply (mutation_refreshes useCreateWebEndpoint ["listWebEndpoints"]).
  apply list_elem_of_lookup. exists 56%nat. reflexivity.
Defined.

(** The containers, which carry tags too, keep a renamed or deleted tag. *)
Example tag_mutations_skip_containers : let e := mkEntry (query_of (js "getContainers") []) true in
  e ∈ settle useUpdateTag true [e] ∧ e ∈ settle useDeleteTag true [e].
Proof. vm_compute. split; constructor. Qed.

(** ** Attaching a tag (useAddDeviceTag, useAddContainerTag) *)

Inductive tag_request := CreateTag (name : jsstring) | PushTag (uid name : jsstring).
(** An answer: nothing thrown, or the error and the status of an SDK error. *)
Definition reply : Type := option (option Z * exn).
Definition add_tag (create push : reply) (uid name : jsstring) : list tag_request * res unit :=
  let go := match push with
            | None => ([CreateTag name; PushTag uid name], Ok tt)
            | Some (_, e) => ([CreateTag name; PushTag uid name], Throw e)
            end in
  match create with
  | None => go
  | Some (status, e) => if bool_decide (status = Some 409%Z) then go else ([CreateTag name], Throw e)
  end.
(** The tag is attached exactly when it exists by then, made or there before. *)
Lemma add_tag_exact create push uid name :
  (PushTag uid name ∈ (add_tag create push uid name).1 ↔ create = None ∨ ∃ e, create = Some (Some 409%Z, e)) ∧
  ((add_tag create push uid name).2 = Ok tt ↔ push = None ∧ (create = None ∨ ∃ e, create = Some (Some 409%Z, e))).
Proof.
  unfold add_tag. destruct create as [[st e]|]; [case_bool_decide as H; subst|]; destruct push as [[st' e']|]; cbn [fst snd];
    rewrite ?elem_of_cons, ?elem_of_nil; split; naive_solver.
Qed.

(** ** useResolveInvitation *)

Record ResolveAnswer := mkResolveAnswer {
  r_tenant_id : option jsstring; r_user_id : option jsstring; r_email : option jsstring; r_status : option jsstring;
}.
Record Resolved := mkResolved { tenantId : jsstring; userId : jsstring; email : jsstring; status : jsstring }.
Definition resolved (data : option ResolveAnswer) : option Resolved :=
  match data with
  | Some d =>
      if is_truthy (r_tenant_id d) && is_truthy (r_user_id d) && is_truthy (r_status d)
      then Some (mkResolved (default [] (r_tenant_id d)) (default [] (r_user_id d)) (nullish (r_email d) []) (default [] (r_status d)))
      else None
  | None => None
  end.
Lemma resolved_named data r : resolved data = Some r → tenantId r ≠ [] ∧ userId r ≠ [] ∧ status r ≠ [].
Proof.
  unfold resolved. destruct data as [[[[|]|] [[|]|] em [[|]|]]|]; cbn; try done. by intros [= <-].
Qed.

(** ** useLoginAsUser *)

Module LoginAs.
Record State := mkState { loadingId : option jsstring; errorId : option jsstring; inFlight : option jsstring; opened : list jsstring }.
Definition idle : State := mkState None None None [].
Inductive event := LoginAs (userId : jsstring) | Answer (token : option (option jsstring)).
(** [Answer None]: the request failed.  The URL opened carries the token. *)
Definition step (s : State) (e : event) : State :=
  match e with
  | LoginAs u => match inFlight s with Some _ => s | None => mkState (Some u) None (Some u) (opened s) end
  | Answer r =>
      match inFlight s with
      | None => s
      | Some u =>
          match r with
          | Some t => mkState None (errorId s) None (if is_truthy t then opened s ++ [default [] t] else opened s)
          | None => mkState None (Some u) None (opened s)
          end
      end
  end.
(** The row that spins is the one whose request is on its way, and it is the only
    one; an error names the last row asked for and not one that is loading. *)
Lemma login_as_one es : let s := fold_left step es idle in
  loadingId s = inFlight s ∧ (∀ u, errorId s = Some u → inFlight s = None).
Proof.
  cbn zeta. assert (loadingId idle = inFlight idle ∧ (∀ u, errorId idle = Some u → inFlight idle = None)) as H by done. revert H.
  generalize idle. induction es as [|e es IH]; intros s H; [done|]. cbn. apply IH. destruct H as [H1 H2].
  destruct e as [u|r]; cbn.
  - destruct (inFlight s) eqn:E; [by rewrite E|]. done.
  - destruct (inFlight s) eqn:E; [|by rewrite E]. by destruct r.
Qed.
End LoginAs.
