(* ===== verification/AcceptInvite.v ===== *)
(** * Accepting an invitation (pages/AcceptInvite.tsx)

    An invitation link: resolved, then accepted by the account it was sent to, or
    followed by the creation of that account; and the namespace opened.  The page is
    a machine over what is clicked and what the server answers; a navigation away
    ends it. *)

From S2P Require Import Prelude JsString AccountForms.
From S2P Require ListParams Queries Login.
Import AccountForms.Setup.

Inductive PostAction := pending_approval | joined (token : option jsstring).
Inductive Branch :=
  | loading | missing_params | error_branch | wrong_user | sign_up | pending_approval_branch | joined_branch | accept.
#[export] Instance Branch_eq_dec : EqDecision Branch.
Proof. solve_decision. Defined.


(** Where the page navigates: to sign in, with the way back, or to the dashboard. *)
Inductive destination := ToLogin (redirect : Login.target) | ToDashboard.

Inductive request :=
  | SignUpReq (v : InviteValues) (email sig : jsstring)
  | AcceptReq (tenant : jsstring)
  | LoginReq (token : jsstring)
  | SwitchReq (tenant : jsstring).

Record State := mkState {
  searchParams : ListParams.URLSearchParams;
  auth : option (jsstring * jsstring);          (* the token and the user signed in *)
  query : option (option Queries.Resolved);     (* the answer of the resolve query; [Some None]: none or unusable *)
  postAction : option PostAction;
  showConfirm : bool;
  confirming : bool;                            (* the confirm dialog's own state *)
  err : jsstring;
  signUpLoading : bool;
  accepting : nat;                              (* requests on their way *)
  logging : nat;
  switching : nat;
  gone : option destination;                   (* where the page navigated to *)
  requests : list request;
}.
Definition set_auth (a : option (jsstring * jsstring)) (s : State) : State :=
  mkState (searchParams s) a (query s) (postAction s) (showConfirm s) (confirming s) (err s) (signUpLoading s) (accepting s) (logging s)
    (switching s) (gone s) (requests s).
Definition set_query (q : option (option Queries.Resolved)) (s : State) : State :=
  mkState (searchParams s) (auth s) q (postAction s) (showConfirm s) (confirming s) (err s) (signUpLoading s) (accepting s) (logging s)
    (switching s) (gone s) (requests s).
Definition setPostAction (p : PostAction) (s : State) : State :=
  mkState (searchParams s) (auth s) (query s) (Some p) (showConfirm s) (confirming s) (err s) (signUpLoading s) (accepting s) (logging s)
    (switching s) (gone s) (requests s).
Definition set_dialog (sc cf : bool) (s : State) : State :=
  mkState (searchParams s) (auth s) (query s) (postAction s) sc cf (err s) (signUpLoading s) (accepting s) (logging s) (switching s) (gone s)
    (requests s).
Definition setError (e : jsstring) (s : State) : State :=
  mkState (searchParams s) (auth s) (query s) (postAction s) (showConfirm s) (confirming s) e (signUpLoading s) (accepting s) (logging s)
    (switching s) (gone s) (requests s).
Definition set_flights (su : bool) (a l w : nat) (s : State) : State :=
  mkState (searchParams s) (auth s) (query s) (postAction s) (showConfirm s) (confirming s) (err s) su a l w (gone s) (requests s).
Definition ask (r : request) (s : State) : State :=
  mkState (searchParams s) (auth s) (query s) (postAction s) (showConfirm s) (confirming s) (err s) (signUpLoading s) (accepting s) (logging s)
    (switching s) (gone s) (requests s ++ [r]).
Definition leave (t : destination) (s : State) : State :=
  mkState (searchParams s) (auth s) (query s) (postAction s) (showConfirm s) (confirming s) (err s) (signUpLoading s) (accepting s) (logging s)
    (switching s) (Some t) (requests s).

Definition invite (s : State) : jsstring := nullish (ListParams.sp_get (searchParams s) (js "invite")) [].
Definition resolved (s : State) : option Queries.Resolved := mjoin (query s).
Definition isLoading (s : State) : bool := truthy (invite s) && match query s with None => true | Some _ => false end.
Definition tenant (s : State) : jsstring := nullish (Queries.tenantId <$> resolved s) [].
Definition inviteEmail (s : State) : jsstring := nullish (Queries.email <$> resolved s) [].

Definition needsLogin (s : State) : bool :=
  match auth s, postAction s, resolved s with
  | None, None, Some r => bool_decide (Queries.status r = js "not-confirmed") || bool_decide (Queries.status r = js "confirmed")
  | _, _, _ => false
  end.
Definition branch (s : State) : Branch :=
  match postAction s with
  | Some pending_approval => pending_approval_branch
  | Some (joined _) => joined_branch
  | None =>
      if negb (truthy (invite s)) then missing_params
      else if isLoading s || needsLogin s then loading
      else match resolved s with
           | None => error_branch
           | Some r =>
               match auth s with
               | Some (_, u) => if bool_decide (u = Queries.userId r) then accept else wrong_user
               | None => if bool_decide (Queries.status r = js "invited") then sign_up else error_branch
               end
           end
  end.

(** The effect that sends a known account to sign in first. *)
Definition login_effect (s : State) : State := if needsLogin s then leave (ToLogin (Login.Path (js "/accept-invite") [(js "invite", invite s)])) s else s.

Definition IN_USE : jsstring := js "That username or email is already in use. Try a different username.".
Definition CANNOT_OPEN : jsstring := js "Couldn't open the namespace. Please try again.".
(** How [signUp] ended: with a token or none, fields the server named, a message. *)
Inductive signup_answer := Registered (token : option jsstring) | FieldsTaken | SignUpFailed.

Definition handleSignUp (v : InviteValues) (s : State) : State :=
  ask (SignUpReq v (inviteEmail s) (invite s)) (set_flights true (accepting s) (logging s) (switching s) (setError [] s)).
Definition signUp_done (a : signup_answer) (s : State) : State :=
  let s := set_flights false (accepting s) (logging s) (switching s) s in
  match a with
  | SignUpFailed => s
  | FieldsTaken => setError IN_USE s
  | Registered t => setPostAction (if is_truthy t then joined t else pending_approval) s
  end.
Definition handleAccept (s : State) : State :=
  match truthy (tenant s), auth s with
  | true, Some _ =>
      ask (AcceptReq (tenant s)) (set_flights (signUpLoading s) (S (accepting s)) (logging s) (switching s)
        (set_dialog (showConfirm s) true (setError [] s)))
  | _, _ => s
  end.
Definition accept_done (ok : bool) (s : State) : State :=
  let s := set_flights (signUpLoading s) (pred (accepting s)) (logging s) (switching s) s in
  if ok then setPostAction (joined None) (set_dialog false false s)
  else setError (js "Failed to accept the invitation. Please try again.") (set_dialog (showConfirm s) false s).
(** Entering: sign in with the token of the sign-up, if there is one, then switch. *)
Definition switch (s : State) : State :=
  ask (SwitchReq (tenant s)) (set_flights (signUpLoading s) (accepting s) (logging s) (S (switching s)) s).
Definition handleEnterNamespace (s : State) : State :=
  let s := setError [] s in
  match postAction s with
  | Some (joined (Some (c :: t))) =>
      ask (LoginReq (c :: t)) (set_flights (signUpLoading s) (accepting s) (S (logging s)) (switching s) s)
  | _ => switch s
  end.
Definition login_done (u : option (jsstring * jsstring)) (s : State) : State :=
  let s := set_flights (signUpLoading s) (accepting s) (pred (logging s)) (switching s) s in
  match u with Some a => switch (set_auth (Some a) s) | None => setError CANNOT_OPEN s end.
Definition switch_done (ok : bool) (s : State) : State :=
  let s := set_flights (signUpLoading s) (accepting s) (logging s) (pred (switching s)) s in
  if ok then leave ToDashboard s else setError CANNOT_OPEN s.

Definition handleSignOut (s : State) : State :=
  leave (ToLogin (Login.Path (js "/accept-invite") (searchParams s))) (set_auth None s).

Inductive event :=
  | Resolve (r : option Queries.ResolveAnswer)   (* [None]: it failed *)
  | SubmitSignUp (v : InviteValues) | SignUpAnswer (a : signup_answer)
  | OpenConfirm | CloseConfirm | Confirm | AcceptAnswer (ok : bool)
  | Enter | LoginAnswer (u : option (jsstring * jsstring)) | SwitchAnswer (ok : bool)
  | SignOut.

Definition react (s : State) (e : event) : State :=
  match e with
  | Resolve r => if isLoading s then set_query (Some (Queries.resolved r)) s else s
  | SubmitSignUp v =>
      if bool_decide (branch s = sign_up) && negb (signUpLoading s)
      then match inviteResolver v with Accepted v => handleSignUp v s | Rejected _ => s end else s
  | SignUpAnswer a => if signUpLoading s then signUp_done a s else s
  | OpenConfirm => if bool_decide (branch s = accept) then set_dialog true (showConfirm s && confirming s) s else s
  | CloseConfirm => setError [] (set_dialog false (confirming s) s)
  | Confirm => if showConfirm s && negb (confirming s) then handleAccept s else s
  | AcceptAnswer ok => if (0 <? accepting s)%nat then accept_done ok s else s
  | Enter => if bool_decide (branch s = joined_branch) && (switching s =? 0)%nat then handleEnterNamespace s else s
  | LoginAnswer u => if (0 <? logging s)%nat then login_done u s else s
  | SwitchAnswer ok => if (0 <? switching s)%nat then switch_done ok s else s
  | SignOut => if bool_decide (branch s = wrong_user) then handleSignOut s else s
  end.
Definition step (s : State) (e : event) : State := match gone s with Some _ => s | None => login_effect (react s e) end.
Definition mount (params : ListParams.URLSearchParams) (a : option (jsstring * jsstring)) : State :=
  mkState params a None None false false [] false 0 0 0 None [].
Definition run (es : list event) (s : State) : State := fold_left step es s.

(** What may be asked of the server, given the invitation and the user that was
    signed in when the page opened. *)
Definition allowed (a0 : option (jsstring * jsstring)) (i0 : jsstring) (r : option Queries.Resolved) (q : request) : Prop :=
  match r with
  | None => False
  | Some r =>
      match q with
      | SignUpReq v email sig =>
          a0 = None ∧ sig = i0 ∧ email = Queries.email r ∧ Queries.status r = js "invited" ∧ account_ok (invite_fields v)
      | AcceptReq t => t = Queries.tenantId r ∧ ∃ tok, a0 = Some (tok, Queries.userId r)
      | LoginReq t => a0 = None ∧ t ≠ [] ∧ Queries.status r = js "invited"
      | SwitchReq t => t = Queries.tenantId r
      end
  end.

Definition signed_up (s : State) : Prop :=
  ∃ t r, postAction s = Some (joined (Some t)) ∧ t ≠ [] ∧ resolved s = Some r ∧ Queries.status r = js "invited".
Definition inviting (s : State) : Prop := ∃ r, resolved s = Some r ∧ Queries.status r = js "invited".

Record inv (a0 : option (jsstring * jsstring)) (i0 : jsstring) (s : State) : Prop := mkInv {
  i_invite : invite s = i0;
  i_reqs : Forall (allowed a0 i0 (resolved s)) (requests s);
  i_auth : gone s = None → auth s = a0 ∨ (a0 = None ∧ signed_up s);
  i_confirm : showConfirm s = true ∨ (0 < accepting s)%nat → ∃ tok r, a0 = Some (tok, Queries.userId r) ∧ resolved s = Some r;
  i_signing : signUpLoading s = true → a0 = None ∧ postAction s = None ∧ inviting s;
  i_post : postAction s ≠ None → resolved s ≠ None;
  i_token : ∀ t, postAction s = Some (joined (Some t)) → a0 = None ∧ t ≠ [] ∧ inviting s;
  i_login : (0 < logging s)%nat → a0 = None ∧ signed_up s;
}.

Ltac fields := unfold set_auth, set_query, setPostAction, set_dialog, setError, set_flights, ask, leave, signed_up, inviting, resolved, invite in *;
  cbn [searchParams auth query postAction showConfirm confirming err signUpLoading accepting logging switching gone requests] in *.

Lemma inv_mount params a0 : inv a0 (invite (mount params a0)) (mount params a0).
Proof. split; cbn; try done; [auto|by intros [?|?%Nat.lt_irrefl]|intros ?%Nat.lt_irrefl; done]. Qed.

(** What only touches the error, the dialog's busy flag or the destination. *)
Lemma inv_cosmetic a0 i0 s e sc cf : inv a0 i0 s → (sc = true → showConfirm s = true ∨ ∃ tok r, a0 = Some (tok, Queries.userId r) ∧ resolved s = Some r) →
  inv a0 i0 (setError e (set_dialog sc cf s)).
Proof.
  intros [H1 H2 H3 H4 H5 H6 H7 H8] Hsc. split; fields; try done. intros [Hx|Hx]; [|by auto].
  destruct (Hsc Hx) as [?|?]; auto.
Qed.
Lemma inv_leave a0 i0 s t a : inv a0 i0 s → inv a0 i0 (leave t (set_auth a s)).
Proof. intros [H1 H2 H3 H4 H5 H6 H7 H8]. by split; fields. Qed.

Lemma inv_gone a0 i0 s t : inv a0 i0 s → inv a0 i0 (leave t s).
Proof. intros [H1 H2 H3 H4 H5 H6 H7 H8]. by split; fields. Qed.

Lemma branch_sign_up s : branch s = sign_up → postAction s = None ∧ auth s = None ∧ inviting s.
Proof.
  unfold branch, inviting. destruct (postAction s) as [[]|]; [done..|]. destruct (negb _); [done|]. destruct (_ || _); [done|].
  destruct (resolved s) as [r|]; [|done]. destruct (auth s) as [[? u]|]; [by case_bool_decide|]. case_bool_decide; [|done]. eauto.
Qed.
Lemma branch_accept s : branch s = accept → postAction s = None ∧ ∃ tok r, auth s = Some (tok, Queries.userId r) ∧ resolved s = Some r.
Proof.
  unfold branch. destruct (postAction s) as [[]|]; [done..|]. destruct (negb _); [done|]. destruct (_ || _); [done|].
  destruct (resolved s) as [r|]; [|done]. destruct (auth s) as [[? u]|]; [|by case_bool_decide]. case_bool_decide; [|done]. subst. eauto.
Qed.
Lemma branch_joined s : branch s = joined_branch → ∃ t, postAction s = Some (joined t).
Proof.
  unfold branch. destruct (postAction s) as [[|t]|]; [done|by exists t|]. destruct (negb _); [done|]. destruct (_ || _); [done|].
  destruct (resolved s) as [r|]; [|done]. destruct (auth s) as [[? u]|]; by case_bool_decide.
Qed.

Lemma inv_switch a0 i0 s : inv a0 i0 s → postAction s ≠ None → inv a0 i0 (switch s).
Proof.
  intros [H1 H2 H3 H4 H5 H6 H7 H8] Hp. specialize (H6 Hp). unfold switch, tenant. split; fields; try done.
  apply Forall_app. split; [done|]. apply Forall_singleton. unfold allowed. by destruct (mjoin (query s)).
Qed.
Lemma inv_resolve a0 i0 s q : inv a0 i0 s → query s = None → inv a0 i0 (set_query (Some q) s).
Proof.
  intros [H1 H2 H3 H4 H5 H6 H7 H8] Hq. assert (resolved s = None) as Hr by (unfold resolved; by rewrite Hq).
  assert (postAction s = None) as Hp by (destruct (postAction s); [by destruct H6|done]).
  unfold signed_up, inviting in *. split; fields; rewrite Hq in *; cbn in *.
  - done.
  - destruct H2; [constructor|]. by cbn in *.
  - intros Hg. destruct (H3 Hg) as [?|(_ & t & r & E & _)]; [by left|]. by rewrite Hp in E.
  - intros Hx. destruct (H4 Hx) as (? & ? & _ & ?). done.
  - intros Hx. destruct (H5 Hx) as (_ & _ & ? & ? & _). done.
  - by rewrite Hp.
  - intros t. by rewrite Hp.
  - intros Hx. destruct (H8 Hx) as (_ & ? & ? & E & _). by rewrite Hp in E.
Qed.
Lemma inv_handleSignUp a0 i0 s v : inv a0 i0 s → gone s = None → branch s = sign_up → inviteResolver v = Accepted v → inv a0 i0 (handleSignUp v s).
Proof.
  intros [H1 H2 H3 H4 H5 H6 H7 H8] Hg (Hp & Ha & r & Hr & Hst)%branch_sign_up [_ Hv]%invite_accepts.
  assert (a0 = None) as -> by (destruct (H3 Hg) as [?|[? _]]; congruence).
  unfold handleSignUp, inviteEmail. split; fields; try done.
  - apply Forall_app. split; [done|]. apply Forall_singleton. unfold allowed. rewrite Hr. done.
  - intros _. eauto.
Qed.
Lemma inv_signUp_done a0 i0 s a : inv a0 i0 s → gone s = None → signUpLoading s = true → inv a0 i0 (signUp_done a s).
Proof.
  intros [H1 H2 H3 H4 H5 H6 H7 H8] Hg Hsu. destruct (H5 Hsu) as (-> & Hp & r & Hr & Hst).
  assert (auth s = None) as Ha by (destruct (H3 Hg) as [?|[_ (? & ? & E & _)]]; [done|by rewrite Hp in E]).
  assert (signed_up s → False) as Hno by (intros (? & ? & E & _); by rewrite Hp in E).
  unfold signUp_done. destruct a as [t| |]; [|by split; fields|by split; fields].
  destruct t as [[|c t]|]; cbn [is_truthy truthy]; split; fields; try done; eauto 10;
    try (intros _; by rewrite Hr); try (intros Hx; by destruct (Hno (proj2 (H8 Hx)))).
  intros t' [= <-]. split; [done|]. split; [done|]. by eauto.
Qed.
Lemma inv_handleAccept a0 i0 s : inv a0 i0 s → showConfirm s = true → inv a0 i0 (handleAccept s).
Proof.
  intros H Hs. pose proof H as [H1 H2 H3 H4 H5 H6 H7 H8]. destruct (H4 (or_introl Hs)) as (tok & r & -> & Hr).
  unfold handleAccept, tenant. destruct (truthy _); [|done]. destruct (auth s) eqn:Ea; [|done]. split; fields; try done;
    [|by rewrite Ea|by eauto].
  apply Forall_app. split; [done|]. apply Forall_singleton. unfold allowed. rewrite Hr. split; [done|by exists tok].
Qed.
Lemma inv_accept_done a0 i0 s ok : inv a0 i0 s → (0 < accepting s)%nat → inv a0 i0 (accept_done ok s).
Proof.
  intros [H1 H2 H3 H4 H5 H6 H7 H8] Hs. destruct (H4 (or_intror Hs)) as (tok & r & -> & Hr).
  unfold accept_done. destruct ok; split; fields; try done; try (by intros; eauto).
  - intros Hg. destruct (H3 Hg) as [?|[? _]]; [by left|done].
  - intros Hx. by destruct (H5 Hx).
  - intros _. by rewrite Hr.
  - intros Hx. by destruct (H8 Hx).
Qed.
Lemma inv_enter a0 i0 s : inv a0 i0 s → branch s = joined_branch → inv a0 i0 (handleEnterNamespace s).
Proof.
  intros H [t Ht]%branch_joined. assert (inv a0 i0 (setError [] s)) as HI by (destruct H; by split).
  unfold handleEnterNamespace. cbn [setError postAction]. rewrite Ht.
  destruct t as [[|c t]|]; try (apply inv_switch; [done|fields; by rewrite Ht]).
  destruct HI as [H1 H2 H3 H4 H5 H6 H7 H8]. destruct (H7 (c :: t)) as (-> & _ & r & Hr & Hst); [done|]. split; fields; try done.
  - apply Forall_app. split; [done|]. apply Forall_singleton. unfold allowed. rewrite Hr. done.
  - intros _. split; [done|]. exists (c :: t), r. done.
Qed.
Lemma inv_login_done a0 i0 s u : inv a0 i0 s → (0 < logging s)%nat → inv a0 i0 (login_done u s).
Proof.
  intros [H1 H2 H3 H4 H5 H6 H7 H8] Hl. destruct (H8 Hl) as [-> Hs].
  unfold login_done. destruct u as [a|]; [|split; fields; try done; auto].
  apply inv_switch; [|fields; destruct Hs as (? & ? & -> & _); done]. split; fields; try done; auto.
Qed.

Lemma invite_inv_step a0 i0 s e : inv a0 i0 s → inv a0 i0 (step s e).
Proof.
  intros H. unfold step. destruct (gone s) eqn:Hg; [done|].
  assert (inv a0 i0 (react s e)) as HR.
  2:{ unfold login_effect. destruct (needsLogin _); [|done]. by apply inv_gone. }
  destruct e as [r|v|a| | | |ok| |u|ok|]; cbn [react].
  - unfold isLoading. destruct (truthy _); [|done]. destruct (query s) eqn:Eq; [done|]. by apply inv_resolve.
  - case_bool_decide; [|done]. destruct (signUpLoading s); [done|]. cbn. destruct (inviteResolver v) as [w|] eqn:E; [|done].
    pose proof E as [-> _]%invite_accepts. by apply inv_handleSignUp.
  - destruct (signUpLoading s) eqn:E; [|done]. by apply inv_signUp_done.
  - case_bool_decide as Hb; [|done]. apply (inv_cosmetic _ _ s (err s)); [done|]. intros _. right.
    apply branch_accept in Hb as (Hp & tok & r & Ha & Hr). exists tok, r. split; [|done].
    destruct H as [_ _ H3 _ _ _ _ _]. destruct (H3 Hg) as [<-|[_ (? & ? & E & _)]]; [done|by rewrite Hp in E].
  - by apply inv_cosmetic.
  - destruct (showConfirm s) eqn:E; [|done]. destruct (negb _); [|done]. by apply inv_handleAccept.
  - destruct (Nat.ltb_spec 0 (accepting s)); [|done]. by apply inv_accept_done.
  - case_bool_decide; [|done]. destruct (_ =? _)%nat; [|done]. by apply inv_enter.
  - destruct (Nat.ltb_spec 0 (logging s)); [|done]. by apply inv_login_done.
  - destruct (0 <? switching s)%nat; [|done]. unfold switch_done.
    destruct ok; [apply inv_gone|]; destruct H; by split.
  - case_bool_decide; [|done]. by apply inv_leave.
Qed.

(** C26: whatever is clicked and however the answers come, an invitation is accepted
    only for its own namespace and by the very user it was sent to; an account is
    created only when nobody is signed in and the invitation is for a new account,
    with the invitation's e-mail and code and values the form accepts; a token of
    another sign-up is never used, and the namespace opened is the invitation's. *)
Theorem invitation_requests (params : ListParams.URLSearchParams) (a0 : option (jsstring * jsstring)) (es : list event) :
  let s := run es (mount params a0) in
  Forall (allowed a0 (invite (mount params a0)) (resolved s)) (requests s).
Proof.
  cbn zeta. assert (inv a0 (invite (mount params a0)) (run es (mount params a0))) as [_ H _ _ _ _ _ _]; [|done].
  generalize (inv_mount params a0). generalize (invite (mount params a0)) as i0. generalize (mount params a0).
  induction es as [|e es IH]; intros s i0 H; [done|]. cbn. by apply IH, invite_inv_step.
Qed.

(** Sign-up, sign-in with its token, the switch. *)
Definition answer1 : Queries.ResolveAnswer :=
  Queries.mkResolveAnswer (Some (js "t1")) (Some (js "u1")) (Some (js "a@b.c")) (Some (js "invited")).
Definition values1 : InviteValues := mkInvite (js "Ann") (js "ann") (js "secret") (js "secret").
Example invited_joins : let s := run [Resolve (Some answer1); SubmitSignUp values1; SignUpAnswer (Registered (Some (js "tok"))); Enter;
    LoginAnswer (Some (js "tok", js "u1")); SwitchAnswer true] (mount [(js "invite", js "code")] None) in
  requests s = [SignUpReq values1 (js "a@b.c") (js "code"); LoginReq (js "tok"); SwitchReq (js "t1")] ∧ gone s = Some ToDashboard.
Proof. vm_compute. done. Qed.
