(* ===== verification/SignUpPage.v ===== *)
(** * Creating an account (pages/SignUp.tsx)

    The page over the sign-up store ([SignUp]): what it submits, where a sign-up
    ends, and which of the errors of the server it can show. *)

From S2P Require Import Prelude JsString AccountForms.
From S2P Require SignUp.
Import AccountForms.Setup.

Definition SERVER_FIELDS : list (string * string) :=
  [("username", "This username already exists"); ("email", "This email is invalid or already in use");
   ("name", "This name is invalid"); ("password", "This password is invalid")].
(** The field errors the effect sets: [SERVER_FIELD_MAP] maps each name to itself. *)
Definition synced (fields : list jsstring) : list (jsstring * jsstring) :=
  omap (λ f, (λ p : string * string, (f, js p.2)) <$> find (λ p, bool_decide (js p.1 = f)) SERVER_FIELDS) fields.

Record State := mkState {
  store : SignUp.SignUpState;
  acceptMarketing : bool;
  flight : option SignUpValues;                 (* the values submitted, until the answer *)
  accountCreated : bool;
  confirmFor : option jsstring;                 (* navigated to /confirm-account?username= *)
  requests : list (SignUpValues * bool);
}.
Definition opened (st : SignUp.SignUpState) : State := mkState (SignUp.resetSignUpErrors st) false None false None [].
Definition submit_disabled (v : SignUpValues) (s : State) : bool :=
  SignUp.signUpLoading (store s) || match signUpResolver v with Accepted _ => false | Rejected _ => true end
  || (0 <? length (SignUp.signUpServerFields (store s)))%nat.
Definition onSubmit (v : SignUpValues) (s : State) : State :=
  if (0 <? length (SignUp.signUpServerFields (store s)))%nat then s
  else mkState (SignUp.signUp_begin (SignUp.resetSignUpErrors (store s))) (acceptMarketing s) (Some v) (accountCreated s) (confirmFor s)
         (requests s ++ [(v, acceptMarketing s)]).
(** The answer: a token and a tenant, or what was thrown. *)
Definition on_answer (a : option jsstring * option jsstring + SignUp.caught) (s : State) : State :=
  match flight s with
  | None => s
  | Some v =>
      let '(st, token) := match a with
                          | inl (token, tenant) => SignUp.signUp_ok token tenant (store s)
                          | inr e => SignUp.signUp_catch e (store s)
                          end in
      let failed := bool_decide (SignUp.signUpError st ≠ None) || (0 <? length (SignUp.signUpServerFields st))%nat in
      mkState st (acceptMarketing s) None (accountCreated s || negb failed && is_truthy token)
        (if negb failed && negb (is_truthy token) then Some (username (account v)) else confirmFor s) (requests s)
  end.
Inductive event :=
  | Type_ (field : string)                       (* a key in one of the fields *)
  | Marketing (b : bool) | Submit (v : SignUpValues) | Answer (a : option jsstring * option jsstring + SignUp.caught).
Definition TYPED : list string := ["name"; "username"; "email"; "password"].
Definition step (s : State) (e : event) : State :=
  if accountCreated s || bool_decide (confirmFor s ≠ None) then s
  else match e with
       | Type_ f =>
           if bool_decide (f ∈ TYPED)
           then mkState (SignUp.clearSignUpServerField (js f) (store s)) (acceptMarketing s) (flight s) (accountCreated s) (confirmFor s) (requests s)
           else s
       | Marketing b => mkState (store s) b (flight s) (accountCreated s) (confirmFor s) (requests s)
       | Submit v => if submit_disabled v s then s else onSubmit v s
       | Answer a => on_answer a s
       end.
Definition run (es : list event) (s : State) : State := fold_left step es s.

(** The end of a sign-up: an error or fields to correct keep the form; without a
    token the user is asked to confirm the address, with one the account is shown
    as created. *)
Lemma sign_up_ends s v a : flight s = Some v → accountCreated s = false → confirmFor s = None →
  SignUp.signUpError (store s) = None → SignUp.signUpServerFields (store s) = [] →
  let s' := on_answer a s in
  match a with
  | inl (t, _) => accountCreated s' = is_truthy t ∧ confirmFor s' = (if is_truthy t then None else Some (username (account v)))
  | inr _ => accountCreated s' = false ∧ confirmFor s' = None ∧
      (SignUp.signUpError (store s') ≠ None ∨ SignUp.signUpServerFields (store s') ≠ [])
  end.
Proof.
  intros Hf Hc Hn He Hsf. unfold on_answer. rewrite Hf. destruct a as [[t tn]|e]; cbn.
  - rewrite He, Hsf, Hc, Hn. by destruct (is_truthy t).
  - unfold SignUp.signUp_catch. destruct (map fst (SignUp.apiErrorFields e)) as [|f l]; cbn.
    + rewrite Hsf, Hc, Hn. cbn. split; [done|]. split; [done|]. by left.
    + rewrite He, Hc, Hn. cbn. split; [done|]. split; [done|]. by right.
Qed.

Lemma unknown_field_step f e s : f ∈ SignUp.signUpServerFields (store s) → Forall (λ g, js g ≠ f) TYPED → flight s = None →
  let s' := step s e in f ∈ SignUp.signUpServerFields (store s') ∧ requests s' = requests s ∧ flight s' = None.
Proof.
  intros H1 Hn H3. cbn zeta. unfold step. destruct (_ || _); [done|]. destruct e as [g|b|v|a].
  - case_bool_decide as Hg; [|done]. cbn. split; [|done]. apply list_elem_of_In, filter_In. split; [by apply list_elem_of_In|].
    apply negb_true_iff, bool_decide_eq_false. rewrite Forall_forall in Hn. specialize (Hn g Hg). congruence.
  - done.
  - assert (0 <? length (SignUp.signUpServerFields (store s)) = true)%nat as E.
    { apply Nat.ltb_lt. destruct (SignUp.signUpServerFields (store s)); [by apply elem_of_nil in H1|cbn; lia]. }
    unfold submit_disabled. by rewrite E, orb_true_r.
  - unfold on_answer. by rewrite H3.
Qed.
(** A field the server names and the form does not have shows no message, nothing
    typed clears it, and the form never submits again. *)
Lemma unknown_field_blocks f es s : f ∈ SignUp.signUpServerFields (store s) → Forall (λ g, js g ≠ f) TYPED → flight s = None →
  requests (run es s) = requests s.
Proof.
  intros Hf Hn. revert s Hf. induction es as [|e es IH]; intros s Hf Hfl; [done|]. cbn.
  destruct (unknown_field_step f e s Hf Hn Hfl) as (H1 & H2 & H3). by rewrite IH.
Qed.
Example unknown_field_is_silent : synced [js "recovery_email"] = [] ∧ Forall (λ g, js g ≠ js "recovery_email") TYPED.
Proof. split; [by vm_compute|]. apply (bool_decide_unpack _). vm_compute. exact I. Qed.
