(* ===== verification/AccountPages.v ===== *)
(** * The other pages of an account

    pages/ForgotPassword.tsx, pages/UpdatePassword.tsx, pages/ConfirmAccount.tsx with
    hooks/useResendEmail.ts, pages/ValidationAccount.tsx, pages/MfaResetComplete.tsx,
    pages/SsoReauthComplete.tsx, and components/mfa/MfaRecoveryTimeoutModal.tsx with
    hooks/useCountdown.ts.  Each is a small machine over what is clicked, what the
    server answers and what the clock does. *)

From S2P Require Import Prelude JsString.
From S2P Require Validation Schemas SignUp AccountForms ListParams Otp AuthTypes.

(** ** pages/ForgotPassword.tsx, pages/UpdatePassword.tsx *)

Module Password.
Import AccountForms Setup.
Record Forgot := mkForgot { f_loading : bool; f_sent : bool; f_requests : list jsstring }.
Definition forgot_opened : Forgot := mkForgot false false [].
Definition forgot_submit (account : jsstring) (s : Forgot) : Forgot :=
  if f_loading s || f_sent s then s
  else match forgotPasswordResolver account with
       | Accepted v => mkForgot true false (f_requests s ++ [v])
       | Rejected _ => s
       end.
Definition forgot_answer (ok : bool) (s : Forgot) : Forgot := if f_loading s then mkForgot false true (f_requests s) else s.
(** What the page shows does not tell whether the account exists. *)
Lemma forgot_no_oracle account s : forgot_answer true (forgot_submit account s) = forgot_answer false (forgot_submit account s) ∧
  (f_loading (forgot_submit account s) = true → f_sent (forgot_answer false (forgot_submit account s)) = true).
Proof. split; [done|]. unfold forgot_answer. by intros ->. Qed.

Record Update := mkUpdate {
  uid : jsstring; token : jsstring; u_error : jsstring; u_loading : bool; signedOut : bool; u_requests : list (jsstring * jsstring * jsstring);
}.
Definition valid_link (s : Update) : bool := truthy (uid s) && truthy (token s).
Definition update_submit (password confirm : jsstring) (s : Update) : Update :=
  if negb (valid_link s) || u_loading s then s
  else match updatePasswordResolver password confirm with
       | Accepted (p, _) => mkUpdate (uid s) (token s) [] true (signedOut s) (u_requests s ++ [(uid s, token s, p)])
       | Rejected _ => s
       end.
Definition update_answer (ok : bool) (s : Update) : Update :=
  if negb (u_loading s) then s
  else if ok then mkUpdate (uid s) (token s) (u_error s) false true (u_requests s)
  else mkUpdate (uid s) (token s) (js "Failed to update password. The link may have expired. Please request a new one.") false (signedOut s)
         (u_requests s).
(** A link without its user or its token changes nothing; a password sent is one
    the form accepted, with the link's user and token. *)
Lemma update_password_exact p c s : let s' := update_submit p c s in
  u_requests s' = u_requests s ∨
  (valid_link s = true ∧ p = c ∧ u_requests s' = u_requests s ++ [(uid s, token s, p)] ∧ (5 <= length p <= 32)%nat).
Proof.
  cbn zeta. unfold update_submit. destruct (valid_link s); [|by left]. destruct (u_loading s); [by left|]. cbn.
  destruct (updatePasswordResolver p c) as [[q d]|] eqn:E; [|by left]. right.
  unfold updatePasswordResolver in E. apply resolve_accepted in E as [E [= -> ->]].
  apply app_nil in E as [Hp%Schemas.report_nil Hc%Schemas.report_nil]. apply Schemas.unless_none, bool_decide_eq_true in Hc as ->.
  split; [done|]. split; [done|]. split; [done|]. by apply Validation.password_exact.
Qed.
End Password.

(** ** hooks/useResendEmail.ts, pages/ConfirmAccount.tsx *)

Module Resend.
Definition RESEND_COOLDOWN_S : Z := 60.
(** [due]: when the pending timeout takes a second off the cool-down. *)
Record State := mkState {
  username : jsstring; resendLoading : bool; resendSuccess : bool; resendCooldown : Z; due : option Z; now : Z;
  asked : list Z;                  (* when each request was made *)
  sentAt : option Z;               (* ghost: when the last e-mail was confirmed sent *)
}.
Definition mount (u : jsstring) (t : Z) : State := mkState u false false 0 None t [] None.
Definition disabled (s : State) : bool := resendLoading s || (0 <? resendCooldown s).
Definition handleResend (s : State) : State :=
  if negb (truthy (username s)) then s
  else mkState (username s) true false (resendCooldown s) (due s) (now s) (asked s ++ [now s]) (sentAt s).
Definition on_answer (ok : bool) (s : State) : State :=
  if negb (resendLoading s) then s
  else if ok then mkState (username s) false true RESEND_COOLDOWN_S (Some (now s + 1000)) (now s) (asked s) (Some (now s))
  else mkState (username s) false (resendSuccess s) (resendCooldown s) (due s) (now s) (asked s) (sentAt s).
(** The clock moves; a timeout whose time has come runs, and while the cool-down
    lasts the effect sets the next. *)
Definition tick (dt : Z) (s : State) : State :=
  let t := now s + dt in
  match due s with
  | Some d =>
      if d <=? t
      then let c := resendCooldown s - 1 in
           mkState (username s) (resendLoading s) (resendSuccess s) c (if c <=? 0 then None else Some (t + 1000)) t (asked s) (sentAt s)
      else mkState (username s) (resendLoading s) (resendSuccess s) (resendCooldown s) (due s) t (asked s) (sentAt s)
  | None => mkState (username s) (resendLoading s) (resendSuccess s) (resendCooldown s) None t (asked s) (sentAt s)
  end.
Inductive event := Click | Answer (ok : bool) | Tick (dt : Z).
Definition step (s : State) (e : event) : State :=
  match e with
  | Click => if disabled s then s else handleResend s
  | Answer ok => on_answer ok s
  | Tick dt => if 0 <=? dt then tick dt s else s
  end.
(** The seconds left never run ahead of the clock. *)
Definition ok (s : State) : Prop :=
  match due s with
  | Some d => 0 < resendCooldown s ∧ ∃ t0, sentAt s = Some t0 ∧ t0 + (RESEND_COOLDOWN_S - resendCooldown s + 1) * 1000 <= d
  | None => resendCooldown s <= 0 ∧ ∀ t0, sentAt s = Some t0 → t0 + RESEND_COOLDOWN_S * 1000 <= now s
  end.
Lemma resend_step_ok s e : ok s → ok (step s e).
Proof.
  intros H. destruct e as [|r|dt]; cbn [step].
  - destruct (disabled s); [done|]. unfold handleResend. by destruct (negb _).
  - unfold on_answer. destruct (negb (resendLoading s)); [done|]. destruct r; [|done]. unfold ok, RESEND_COOLDOWN_S. cbn.
    split; [lia|]. eexists. split; [done|lia].
  - destruct (Z.leb_spec 0 dt); [|done]. unfold ok, tick, RESEND_COOLDOWN_S in *. destruct (due s) as [d|]; cbn.
    + destruct H as (Hc & t0 & Ht & Hd). destruct (Z.leb_spec d (now s + dt)); cbn; [|eauto].
      destruct (Z.leb_spec (resendCooldown s - 1) 0); cbn.
      * split; [done|]. rewrite Ht. intros ? [= <-]. lia.
      * split; [lia|]. exists t0. split; [done|lia].
    + split; [by destruct H|]. destruct H as [_ H]. intros t0 Ht. specialize (H t0 Ht). lia.
Qed.
(** An e-mail is not asked for again within a minute of the one that was sent. *)
Lemma resend_cooldown es u t : let s := fold_left step es (mount u t) in
  disabled s = false → ∀ t0, sentAt s = Some t0 → t0 + 60000 <= now s.
Proof.
  cbn zeta. assert (ok (fold_left step es (mount u t))) as H.
  { assert (ok (mount u t)) as H by (split; cbn; [lia|done]). revert H. generalize (mount u t).
    induction es as [|e es IH]; intros s H; [done|]. cbn. by apply IH, resend_step_ok. }
  revert H. generalize (fold_left step es (mount u t)). intros s H [_ Hc%Z.ltb_ge]%orb_false_iff t0 Ht.
  unfold ok in H. destruct (due s); [by destruct H; lia|]. destruct H as [_ H]. by apply H.
Qed.
End Resend.

(** ** pages/ValidationAccount.tsx *)

(** The effect, and its clean-up: the store, and the signal of a request made. *)
Definition validation_effect (email token : jsstring) (s : SignUp.SignUpState) : SignUp.SignUpState * bool :=
  let s := SignUp.resetValidation s in
  if negb (truthy email) || negb (truthy token) then (SignUp.setValidationFailed s, false)
  else (SignUp.validateAccount_begin s, true).
Definition redirects (s : SignUp.SignUpState) (waited : Z) : bool :=
  match SignUp.validationStatus s with SignUp.success => 4000 <=? waited | _ => false end.
(** Mounted twice (the first mount's request aborted before it fails), the page
    ends as the second request says. *)
Lemma validation_twice email token s e answer : truthy email = true → truthy token = true →
  let s1 := (validation_effect email token s).1 in
  let s2 := (validation_effect email token s1).1 in
  SignUp.validateAccount_end answer false (SignUp.validateAccount_end (Some e) true s2) = SignUp.validateAccount_end answer false s2 ∧
  SignUp.validationStatus s2 = SignUp.processing.
Proof. intros He Ht. cbn zeta. unfold validation_effect. by rewrite He, Ht. Qed.

(** ** pages/MfaResetComplete.tsx *)

Module ResetComplete.
Import AuthTypes.
Record Reset := mkReset {
  r_userId : option jsstring; otpMain : Otp.Otp; otpRecovery : Otp.Otp; r_loading : bool; r_error : option jsstring;
  left_ : bool; sent : list (jsstring * jsstring * jsstring);
}.
Definition can_submit (s : Reset) : bool := is_truthy (r_userId s) && Otp.isComplete (otpMain s) && Otp.isComplete (otpRecovery s).
Definition reset_submit (s : Reset) : Reset :=
  if can_submit s
  then mkReset (r_userId s) (otpMain s) (otpRecovery s) true None (left_ s)
         (sent s ++ [(default [] (r_userId s), Otp.getValue (otpMain s), Otp.getValue (otpRecovery s))])
  else s.
(** The fields the page writes to the session. *)
Definition set_reset (d : UserData) (a : AuthState) : AuthState :=
  mkAuth (Some (ud_token d)) (Some (ud_user d)) (Some (ud_id d)) (Some (ud_email d)) (username a) (origin a) (recoveryEmail a)
    (Some (ud_tenant d)) (role a) (isAdmin a) (Some (ud_name d)) (loading a) (error a) (default false (ud_mfa d)) (mfaToken a)
    (mfaRecoveryExpiry a).
Definition reset_answer (r : option UserData) (s : Reset) (a : AuthState) : Reset * AuthState :=
  if negb (r_loading s) then (s, a)
  else match r with
       | Some d => (mkReset (r_userId s) (otpMain s) (otpRecovery s) false (r_error s) true (sent s), set_reset d a)
       | None =>
           (mkReset (r_userId s) (Otp.reset 5 (otpMain s)) (Otp.reset 5 (otpRecovery s)) false
              (Some (js "Invalid verification codes. Please check and try again.")) (left_ s) (sent s), a)
       end.
(** It is the store's [completeMfaReset] but for [isAdmin], which keeps the value of
    whoever was signed in before. *)
Lemma reset_complete_vs_store d a : set_reset d a =
  let b := set_mfaEnabled (default false (ud_mfa d)) (set_identity d a) in
  mkAuth (token b) (user b) (userId b) (email b) (username b) (origin b) (recoveryEmail b) (tenant b) (role b) (isAdmin a) (name b)
    (loading b) (error b) (mfaEnabled b) (mfaToken b) (mfaRecoveryExpiry b).
Proof. done. Qed.
Example reset_complete_keeps_admin : ∃ d a, ud_admin d = Some true ∧ isAdmin (set_reset d a) = false.
Proof.
  exists (mkUserData (js "t") (js "u") (js "i") (js "e") (js "n") (js "N") (Some true) None None None), initialState. done.
Qed.
End ResetComplete.

(** ** pages/SsoReauthComplete.tsx *)

Definition reauth_message (params : ListParams.URLSearchParams) : jsstring :=
  if bool_decide (ListParams.sp_get params (js "status") = Some (js "ok")) then js "sso-reauth-ok" else js "sso-reauth-error".

(** ** hooks/useCountdown.ts, components/mfa/MfaRecoveryTimeoutModal.tsx *)

Module Recovery.
Definition plural (n : Z) (w : string) : jsstring := Z_to_string n ++ js " " ++ js w ++ (if n =? 1 then [] else js "s").
(** One update: the text, and whether the window is over. *)
Definition updateCountdown (target now : Z) : jsstring * bool :=
  let diff := target * 1000 - now in
  if diff <=? 0 then (js "0 seconds", true)
  else (plural (diff / 60000) "minute" ++ js " " ++ plural ((diff mod 60000) / 1000) "second", false).
Record Countdown := mkCountdown { timeLeft : jsstring; isExpired : bool; interval : bool }.
Definition start (target : option Z) (now : Z) : Countdown :=
  match target with
  | Some t => if t =? 0 then mkCountdown [] false false
              else let '(l, e) := updateCountdown t now in mkCountdown l e true
  | None => mkCountdown [] false false
  end.
(** A second later; once it is over the interval is cleared. *)
Definition beat (t now : Z) (c : Countdown) : Countdown :=
  if interval c then let '(l, e) := updateCountdown t now in mkCountdown l (isExpired c || e) (negb e) else c.
Definition disable_disabled (hasAccess : bool) (c : Countdown) : bool := hasAccess || isExpired c.

(** A window that is over stays over, and the text before is what is left, rounded
    down to the second. *)
Lemma countdown_expires t now c : (isExpired c = true → isExpired (beat t now c) = true) ∧
  (interval c = true → t * 1000 <= now → isExpired (beat t now c) = true ∧ interval (beat t now c) = false).
Proof.
  unfold beat, updateCountdown. destruct (interval c); [|done]. destruct (Z.leb_spec (t * 1000 - now) 0); cbn.
  - by rewrite orb_true_r.
  - split; [by intros ->|]. lia.
Qed.
Lemma countdown_rounds t now : 0 < t * 1000 - now → ∃ m s, 0 <= s < 60 ∧ 0 <= m ∧
  updateCountdown t now = (plural m "minute" ++ js " " ++ plural s "second", false) ∧
  (m * 60 + s) * 1000 <= t * 1000 - now < (m * 60 + s + 1) * 1000.
Proof.
  intros H. unfold updateCountdown. rewrite (proj2 (Z.leb_gt _ _)) by lia. set (d := t * 1000 - now) in *.
  exists (d / 60000), ((d mod 60000) / 1000). split; [zlia|]. split; [zlia|]. split; [done|zlia].
Qed.
End Recovery.
