(* ===== verification/Tags.v ===== *)
(** * Tags (components/ManageTagsDrawer.tsx, components/common/TagsPopover.tsx,
    components/common/TagsSection.tsx, components/common/TagFilterDropdown.tsx)

    The drawer that creates, renames and deletes tags; the two fields that attach
    tags to a device or a container; the tags a list is filtered by.  The machines
    are driven by what is typed and clicked and by the answers; [requests] is what
    was asked for.  Parameter: [unicode_lower] ([toLowerCase] beyond ASCII). *)

From S2P Require Import Prelude JsString JsRegex.
From S2P Require Recordings.

Definition tag_char (c : N) : bool := is_lower c || is_upper c || is_digit c.
Definition TAG_PATTERN : re := RPlus (RChr tag_char).

(** What every tag asked for must be. *)
Definition tag_ok (t : jsstring) : Prop := (3 <= length t <= 255)%nat ∧ Forall (λ c, tag_char c = true) t.
Definition named (t : jsstring) : bool := (3 <=? length t)%nat && (length t <=? 255)%nat && rmatch TAG_PATTERN t.
Lemma named_exact t : named t = true ↔ tag_ok t.
Proof.
  unfold named, tag_ok, TAG_PATTERN. rewrite !andb_true_iff, !Nat.leb_le, rmatch_spec, lang_PlusChr. split; [tauto|].
  intros [H ?]. repeat split; try tauto. intros ->. cbn in H. lia.
Qed.

(** ** components/ManageTagsDrawer.tsx *)

Module Manage.
Inductive request := Create (name : jsstring) | Rename (old new : jsstring) | Delete (name : jsstring).
Record State := mkState {
  isOpen : bool;
  newName : jsstring;
  editingTag : option jsstring;
  editName : jsstring;
  submitting : bool;
  deletingTag : option jsstring;
  error : option jsstring;
  skipBlur : bool;
  flights : list request;           (* without an answer *)
  requests : list request;
  renamed : list (jsstring * jsstring);   (* what [onTagRenamed] was called with *)
  deleted : list jsstring;
}.
Definition closed : State := mkState false [] None [] false None None false [] [] [] [].
Definition put_new (n : jsstring) (s : State) : State :=
  mkState (isOpen s) n (editingTag s) (editName s) (submitting s) (deletingTag s) (error s) (skipBlur s) (flights s) (requests s)
    (renamed s) (deleted s).
Definition put_edit (t : option jsstring) (n : jsstring) (k : bool) (s : State) : State :=
  mkState (isOpen s) (newName s) t n (submitting s) (deletingTag s) (error s) k (flights s) (requests s) (renamed s) (deleted s).
Definition put_deleting (t : option jsstring) (s : State) : State :=
  mkState (isOpen s) (newName s) (editingTag s) (editName s) (submitting s) t (error s) (skipBlur s) (flights s) (requests s)
    (renamed s) (deleted s).
Definition put_error (e : option jsstring) (s : State) : State :=
  mkState (isOpen s) (newName s) (editingTag s) (editName s) (submitting s) (deletingTag s) e (skipBlur s) (flights s) (requests s)
    (renamed s) (deleted s).
Definition send (r : request) (s : State) : State :=
  mkState (isOpen s) (newName s) (editingTag s) (editName s) true (deletingTag s) None (skipBlur s) (flights s ++ [r]) (requests s ++ [r])
    (renamed s) (deleted s).
Definition settle (i : nat) (s : State) : State :=
  mkState (isOpen s) (newName s) (editingTag s) (editName s) false (deletingTag s) (error s) (skipBlur s) (delete i (flights s)) (requests s)
    (renamed s) (deleted s).
Definition report (rn : list (jsstring * jsstring)) (dl : list jsstring) (s : State) : State :=
  mkState (isOpen s) (newName s) (editingTag s) (editName s) (submitting s) (deletingTag s) (error s) (skipBlur s) (flights s) (requests s)
    (renamed s ++ rn) (deleted s ++ dl).

Definition newNameValid (s : State) : bool := named (trim (newName s)).
Definition hint (s : State) : option string :=
  let t := trim (newName s) in
  if negb (truthy t) || newNameValid s then None
  else if (length t <? 3)%nat then Some "At least 3 characters"%string
  else if (255 <? length t)%nat then Some "At most 255 characters"%string
  else Some "Only letters and numbers"%string.
(** The add button is disabled without a word only while the field is blank. *)
Lemma hint_or_valid s : truthy (trim (newName s)) = true → newNameValid s = bool_decide (hint s = None).
Proof.
  intros H. unfold hint. rewrite H. cbn [negb orb]. destruct (newNameValid s); [by rewrite bool_decide_eq_true_2|].
  rewrite bool_decide_eq_false_2; [done|]. by destruct (length (trim (newName s)) <? 3)%nat, (255 <? length (trim (newName s)))%nat.
Qed.

Definition reset (s : State) : State :=
  mkState true [] None (editName s) (submitting s) (deletingTag s) None (skipBlur s) (flights s) (requests s) (renamed s) (deleted s).
Definition handleCreate (s : State) : State := if newNameValid s then send (Create (trim (newName s))) s else s.
Definition handleRename (currentName : jsstring) (fromBlur : bool) (s : State) : State :=
  let trimmed := trim (editName s) in
  if negb (truthy trimmed) || bool_decide (trimmed = currentName) then put_edit None (editName s) (skipBlur s) s
  else if negb (named trimmed) then if fromBlur then put_edit None (editName s) (skipBlur s) s else s
  else send (Rename currentName trimmed) s.
Definition handleDelete (name : jsstring) (s : State) : State := send (Delete name) s.

Definition quoted (pre : string) (n : jsstring) : jsstring := js pre ++ [34%N] ++ n ++ [34%N; 46%N].
(** An answer: nothing thrown, or the status of an SDK error. *)
Definition on_answer (i : nat) (r : option (option Z)) (s : State) : State :=
  match flights s !! i with
  | None => s
  | Some q =>
      let s := settle i s in
      match q, r with
      | Create _, None => put_new [] s
      | Create _, Some st =>
          put_error (Some (if bool_decide (st = Some 409) then js "A tag with this name already exists." else js "Failed to create tag.")) s
      | Rename old new, None => report [(old, new)] [] (put_edit None [] true s)
      | Rename old _, Some _ => put_error (Some (quoted "Failed to rename " old)) s
      | Delete n, None => report [] [n] (put_deleting None s)
      | Delete n, Some _ => put_error (Some (quoted "Failed to delete " n)) s
      end
  end.

Inductive event :=
  | Open | Close | TypeNew (v : jsstring) | SubmitNew
  | Edit (tag : jsstring) | TypeEdit (v : jsstring) | Enter | Escape | Blur
  | AskDelete (tag : jsstring) | CancelDelete | ConfirmDelete | Dismiss
  | Answer (i : nat) (r : option (option Z)).
Definition step (s : State) (e : event) : State :=
  match e with
  | Open => if isOpen s then s else reset s
  | Close => mkState false (newName s) (editingTag s) (editName s) (submitting s) (deletingTag s) (error s) (skipBlur s) (flights s)
               (requests s) (renamed s) (deleted s)
  | TypeNew v => put_new v s
  | SubmitNew => if submitting s then s else handleCreate s
  | Edit t => put_edit (Some t) t (skipBlur s) s
  | TypeEdit v => match editingTag s with Some t => put_edit (Some t) v (skipBlur s) s | None => s end
  | Enter => match editingTag s with Some t => handleRename t false (put_edit (Some t) (editName s) true s) | None => s end
  | Escape => match editingTag s with Some _ => put_edit None [] true s | None => s end
  | Blur =>
      match editingTag s with
      | Some t => if skipBlur s then put_edit (Some t) (editName s) false s else handleRename t true s
      | None => s
      end
  | AskDelete t => put_deleting (Some t) s
  | CancelDelete => put_deleting None s
  | ConfirmDelete => match deletingTag s with Some t => handleDelete t s | None => s end
  | Dismiss => put_error None s
  | Answer i r => on_answer i r s
  end.
Definition run (es : list event) (s : State) : State := fold_left step es s.

Definition request_ok (r : request) : Prop :=
  match r with Create n => tag_ok n | Rename old new => tag_ok new ∧ new ≠ old | Delete _ => True end.
Definition inv (s : State) : Prop :=
  Forall request_ok (requests s) ∧ (∀ q, q ∈ flights s → q ∈ requests s) ∧
  (∀ o n, (o, n) ∈ renamed s → Rename o n ∈ requests s) ∧ (∀ n, n ∈ deleted s → Delete n ∈ requests s).

Lemma inv_send r s : inv s → request_ok r → inv (send r s).
Proof.
  intros (H1 & H2 & H3 & H4) Hr. split; [|split; [|split]]; cbn.
  - apply Forall_app. split; [done|]. by apply Forall_singleton.
  - intros q. rewrite !elem_of_app. intros [Hq|Hq]; auto.
  - intros o n Hq. rewrite elem_of_app. auto.
  - intros n Hq. rewrite elem_of_app. auto.
Qed.
Lemma inv_rename t b s : inv s → inv (handleRename t b s).
Proof.
  intros H. unfold handleRename. destruct (_ || _) eqn:E; [done|]. apply orb_false_iff in E as [_ E%bool_decide_eq_false].
  destruct (named (trim (editName s))) eqn:En; cbn [negb]; [|by destruct b]. apply inv_send; [done|]. by rewrite named_exact in En.
Qed.
Lemma inv_answer i r s : inv s → inv (on_answer i r s).
Proof.
  intros (H1 & H2 & H3 & H4). unfold on_answer. destruct (flights s !! i) as [q|] eqn:E; [|done].
  assert (q ∈ requests s) as Hq by (apply H2; by eapply list_elem_of_lookup_2).
  assert (inv (settle i s)) as HS.
  { split; [done|]. split; [|done]. cbn. intros x Hx. apply H2. eapply elem_of_sublist; [exact Hx|apply sublist_delete]. }
  destruct q as [n|o n|n], r as [st|]; try (by destruct HS).
  - destruct HS as (K1 & K2 & K3 & K4). split; [done|]. split; [done|]. split; cbn.
    + intros x y [Hx|[= -> ->]%list_elem_of_singleton]%elem_of_app; [auto|done].
    + intros x. rewrite app_nil_r. auto.
  - destruct HS as (K1 & K2 & K3 & K4). split; [done|]. split; [done|]. split; cbn.
    + intros x y. rewrite app_nil_r. auto.
    + intros x [Hx| ->%list_elem_of_singleton]%elem_of_app; [auto|done].
Qed.
Lemma manage_inv_step s e : inv s → inv (step s e).
Proof.
  intros H. destruct e as [| |v| |t|v| | | |t| | | |i r]; cbn [step].
  - destruct (isOpen s); [done|]. by destruct H.
  - done.
  - done.
  - destruct (submitting s); [done|]. unfold handleCreate, newNameValid. destruct (named _) eqn:E; [|done].
    apply inv_send; [done|]. by apply named_exact.
  - done.
  - by destruct (editingTag s).
  - destruct (editingTag s) as [t|]; [|done]. by apply inv_rename.
  - by destruct (editingTag s).
  - destruct (editingTag s) as [t|]; [|done]. destruct (skipBlur s); [done|]. by apply inv_rename.
  - done.
  - done.
  - destruct (deletingTag s); [|done]. by apply inv_send.
  - done.
  - by apply inv_answer.
Qed.

(** Whatever is typed and whenever the answers come, the tags created, and the new
    names of renamed ones, have three to 255 letters and digits; no tag is renamed
    to itself; and the page is told of a renaming or a deletion only if it was
    asked for. *)
Lemma manage_tags_requests es : let s := run es closed in
  Forall request_ok (requests s) ∧ (∀ o n, (o, n) ∈ renamed s → Rename o n ∈ requests s) ∧
  (∀ n, n ∈ deleted s → Delete n ∈ requests s).
Proof.
  cbn zeta. assert (inv (run es closed)) as (H1 & _ & H3 & H4); [|done].
  assert (inv closed) as H by (split; [constructor|split; [by intros q ?%elem_of_nil|split; [by intros o n ?%elem_of_nil|by intros n ?%elem_of_nil]]]).
  unfold run. revert H. generalize closed. induction es as [|e es IH]; intros s H; [done|]. cbn. by apply IH, manage_inv_step.
Qed.

(** A renaming that is too short, entered with the keyboard: the field stays, and
    the next time it loses the focus that is ignored too. *)
Example short_rename_blur : let s := run [Open; Edit (js "prod"); TypeEdit (js "pr"); Enter; Blur] closed in
  editingTag s = Some (js "prod") ∧ requests s = [] ∧ editingTag (step s Blur) = None.
Proof. vm_compute. done. Qed.
(** The answer to a renaming closes the field of another tag. *)
Example late_rename_closes : editingTag (run [Open; Edit (js "prod"); TypeEdit (js "prod2"); Enter; Blur; Edit (js "stage"); Answer 0 None] closed) = None.
Proof. vm_compute. done. Qed.
End Manage.

(** ** Attaching tags *)

Section Suggest.
Context (unicode_lower : N → jsstring).
Definition lower : jsstring → jsstring := Recordings.toLowerCase unicode_lower.
(** The tags offered: not attached yet, and containing what is typed. *)
Definition suggestions (allTags tags : list jsstring) (input : jsstring) : list jsstring :=
  List.filter (λ t, negb (bool_decide (t ∈ tags)) && includes (lower t) (lower input)) allTags.
(** TagFilterDropdown's list. *)
Definition filter_options (allTags : list jsstring) (search : jsstring) : list jsstring :=
  List.filter (λ t, includes (lower t) (lower search)) allTags.
End Suggest.

(** components/common/TagsPopover.tsx *)
Module Popover.
Record Popover_ := mkPopover { tags : list jsstring; input : jsstring; loading : bool; error : option jsstring; adds : list jsstring }.
Definition is_new (allTags : list jsstring) (s : Popover_) : bool :=
  let t := trim (input s) in
  (3 <=? length t)%nat && (length t <=? 255)%nat && negb (bool_decide (t ∈ allTags)) && negb (bool_decide (t ∈ tags s)).
Definition inputValid (s : Popover_) : bool :=
  let t := trim (input s) in negb (truthy t) || (rmatch TAG_PATTERN t && (length t <=? 255)%nat).
Definition refused (tag : jsstring) (s : Popover_) : bool :=
  bool_decide (tag ∈ tags s) || (3 <=? length (tags s))%nat || (length tag <? 3)%nat || (255 <? length tag)%nat || negb (rmatch TAG_PATTERN tag).
Definition handleAdd (tag : jsstring) (s : Popover_) : Popover_ :=
  if refused tag s then s else mkPopover (tags s) (input s) true None (adds s ++ [tag]).
(** Enter, which no pending request disables; the buttons, which one does. *)
Definition enter (s : Popover_) : Popover_ :=
  if (3 <=? length (trim (input s)))%nat && inputValid s then handleAdd (trim (input s)) s else s.
Definition click (tag : jsstring) (s : Popover_) : Popover_ := if loading s then s else handleAdd tag s.
Definition add_failed (tag : jsstring) (status : option Z) : jsstring :=
  if bool_decide (status = Some 403) then js "You don't have permission to add tags."
  else if bool_decide (status = Some 400) then [34%N] ++ tag ++ [34%N] ++ js " is not a valid tag name."
  else js "Failed to add " ++ [34%N] ++ tag ++ [34%N; 46%N].
Definition add_answer (tag : jsstring) (r : option (option Z)) (s : Popover_) : Popover_ :=
  match r with
  | None => mkPopover (tags s) [] false (error s) (adds s)
  | Some st => mkPopover (tags s) (input s) false (Some (add_failed tag st)) (adds s)
  end.
Definition handleRemove (s : Popover_) : Popover_ := mkPopover (tags s) (input s) true None (adds s).
Definition remove_answer (tag : jsstring) (r : option (option Z)) (s : Popover_) : Popover_ :=
  mkPopover (tags s) (input s) false
    (match r with
     | None => error s
     | Some st => Some (if bool_decide (st = Some 403) then js "You don't have permission to remove tags."
                        else js "Failed to remove " ++ [34%N] ++ tag ++ [34%N; 46%N])
     end) (adds s).
(** What is asked for is a tag the entity does not show yet, while it shows fewer
    than three. *)
Lemma popover_adds tag s : adds (handleAdd tag s) ≠ adds s ↔ tag_ok tag ∧ tag ∉ tags s ∧ (length (tags s) < 3)%nat.
Proof.
  unfold handleAdd. assert (refused tag s = false ↔ tag_ok tag ∧ tag ∉ tags s ∧ (length (tags s) < 3)%nat) as <-.
  { unfold refused. rewrite !orb_false_iff, negb_false_iff, bool_decide_eq_false, <-named_exact. unfold named.
    rewrite !andb_true_iff, !Nat.leb_le, Nat.leb_gt, !Nat.ltb_ge. split; intros; repeat split; tauto || lia. }
  destruct (refused tag s); cbn; [|]; split; try done. intros _ E. apply (f_equal length) in E. rewrite length_app in E. cbn in E. lia.
Qed.
(** With two tags shown, Enter twice asks for two more. *)
Definition type_ (v : jsstring) (s : Popover_) : Popover_ := mkPopover (tags s) v (loading s) (error s) (adds s).
Example popover_enter_twice :
  adds (enter (type_ (js "dddd") (enter (type_ (js "cccc") (mkPopover [js "aaaa"; js "bbbb"] [] false None []))))) = [js "cccc"; js "dddd"].
Proof. vm_compute. done. Qed.
End Popover.

(** components/common/TagsSection.tsx *)
Module TagsSection.
Definition validate (tags : list jsstring) (tag : jsstring) : option jsstring :=
  if bool_decide (tag ∈ tags) then Some (js "This tag is already added.")
  else if (length tag <? 3)%nat then Some (js "Tag must be at least 3 characters.")
  else if (255 <? length tag)%nat then Some (js "Tag must be at most 255 characters.")
  else if negb (rmatch TAG_PATTERN tag) then Some (js "Tag must contain only letters and numbers.")
  else None.
(** [attached]: the entity's tags, as the page shows them; the invalidated queries
    are awaited before the field is free again, so an attached tag is shown by then. *)
Record Section_ := mkSection {
  attached : list jsstring; s_input : jsstring; adding : option jsstring; shown : bool; s_error : option jsstring;
}.
Definition add (value : jsstring) (s : Section_) : Section_ :=
  let tag := trim value in
  if negb (truthy tag) || bool_decide (adding s ≠ None) then s
  else if (3 <=? length (attached s))%nat then s
  else match validate (attached s) tag with
       | Some e => mkSection (attached s) (s_input s) (adding s) (shown s) (Some e)
       | None => mkSection (attached s) (s_input s) (Some tag) (shown s) None
       end.
Definition add_error (tag : jsstring) (status : option Z) : jsstring :=
  if bool_decide (status = Some 403) then js "You don't have permission to add tags."
  else if bool_decide (status = Some 400) then [34%N] ++ tag ++ [34%N] ++ js " is not a valid tag name."
  else js "Failed to add tag.".
Definition section_added (r : option (option Z)) (s : Section_) : Section_ :=
  match adding s with
  | None => s
  | Some tag =>
      match r with
      | None => mkSection (attached s ++ [tag]) [] None false (s_error s)
      | Some st => mkSection (attached s) (s_input s) None (shown s) (Some (add_error tag st))
      end
  end.
Definition section_remove (tag : jsstring) (r : option (option Z)) (s : Section_) : Section_ :=
  match r with
  | None => mkSection (List.filter (λ t, negb (bool_decide (t = tag))) (attached s)) (s_input s) (adding s) (shown s) None
  | Some st => mkSection (attached s) (s_input s) (adding s) (shown s)
      (Some (if bool_decide (st = Some 403) then js "You don't have permission to remove tags."
             else js "Failed to remove " ++ [34%N] ++ tag ++ [34%N; 46%N]))
  end.
Definition options (unicode_lower : N → jsstring) (allTags : list jsstring) (s : Section_) : list (jsstring * bool) :=
  let t := trim (s_input s) in
  map (λ n, (n, false)) (suggestions unicode_lower allTags (attached s) t)
  ++ (if bool_decide (validate (attached s) t = None) && negb (bool_decide (t ∈ allTags)) then [(t, true)] else []).
Inductive section_event := Type_ (v : jsstring) | Add (v : jsstring) | AddAnswer (r : option (option Z)) | RemoveAnswer (tag : jsstring) (r : option (option Z)).
Definition section_step (s : Section_) (e : section_event) : Section_ :=
  match e with
  | Type_ v => mkSection (attached s) v (adding s) true None
  | Add v => add v s
  | AddAnswer r => section_added r s
  | RemoveAnswer t r => section_remove t r s
  end.
Definition mounted (tags : list jsstring) : Section_ := mkSection tags [] None false None.

Lemma section_validate_exact tags t : validate tags t = None ↔ tag_ok t ∧ t ∉ tags.
Proof.
  rewrite <-named_exact. unfold validate, named. case_bool_decide; [naive_solver|].
  rewrite !Nat.leb_antisym. destruct (length t <? 3)%nat; cbn [negb andb]; [naive_solver|].
  destruct (255 <? length t)%nat; cbn [negb andb]; [naive_solver|]. destruct (rmatch TAG_PATTERN t); cbn; naive_solver.
Qed.
Definition tags_ok (l : list jsstring) : Prop := NoDup l ∧ (length l <= 3)%nat ∧ Forall tag_ok l.
Definition section_ok (s : Section_) : Prop :=
  tags_ok (attached s) ∧ match adding s with Some t => tag_ok t ∧ t ∉ attached s ∧ (length (attached s) < 3)%nat | None => True end.
Lemma section_step_ok s e : section_ok s → section_ok (section_step s e).
Proof.
  intros [Ht Ha]. destruct e as [v|v|r|t r]; cbn [section_step].
  - done.
  - unfold add. destruct (negb _ || _) eqn:E; [done|]. apply orb_false_iff in E as [_ E%bool_decide_eq_false].
    destruct (Nat.leb_spec 3 (length (attached s))); [done|]. destruct (validate (attached s) (trim v)) eqn:Ev; [done|].
    apply section_validate_exact in Ev as [? ?]. by split.
  - unfold section_added. destruct (adding s) as [t|] eqn:Ea; [|by split; [|rewrite Ea]]. destruct Ha as (Ho & Hn & Hl).
    destruct r; [done|]. split; [|done]. destruct Ht as (H1 & H2 & H3). split; [|split].
    + apply NoDup_app. split; [done|]. split; [|apply NoDup_singleton]. intros x Hx ->%list_elem_of_singleton. done.
    + cbn. rewrite length_app. cbn. lia.
    + apply Forall_app. split; [done|]. by apply Forall_singleton.
  - unfold section_remove. destruct r; [done|]. destruct Ht as (H1 & H2 & H3).
    pose proof (List.filter_length_le (λ x, negb (bool_decide (x = t))) (attached s)) as Hle.
    split; [split; [|split]|]; cbn.
    + apply NoDup_ListNoDup, List.NoDup_filter. by apply NoDup_ListNoDup.
    + lia.
    + apply Forall_forall. intros x [Hx _]%list_elem_of_In%filter_In. apply list_elem_of_In in Hx. rewrite Forall_forall in H3. auto.
    + destruct (adding s) as [a|]; [|done]. destruct Ha as (Ho & Hn & Hl). split; [done|]. split; [|lia].
      intros [Hx _]%list_elem_of_In%filter_In. apply Hn. by apply list_elem_of_In.
Qed.
(** Whatever is typed, picked and removed, in whatever order the answers come, a
    device or a container that had at most three distinct well-formed tags still
    does: no more than three, no tag twice, each of three to 255 letters and
    digits. *)
Theorem section_keeps_tags (tags : list jsstring) (es : list section_event) :
  tags_ok tags → tags_ok (attached (fold_left section_step es (mounted tags))).
Proof.
  intros H. assert (section_ok (fold_left section_step es (mounted tags))) as [? _]; [|done].
  assert (section_ok (mounted tags)) as H' by done. revert H'. generalize (mounted tags).
  induction es as [|e es IH]; intros s Hs; [done|]. cbn. by apply IH, section_step_ok.
Qed.
Lemma section_keeps_tags_witness : tags_ok (attached (fold_left section_step [Type_ (js "stage"); Add (js "stage"); Add (js "stage"); AddAnswer None;
  Add (js "stage"); Add (js "east"); AddAnswer None; Add (js "west")] (mounted [js "prod"]))).
Proof.
  apply (section_keeps_tags [js "prod"]). split; [apply NoDup_singleton|]. split; [cbn; lia|]. apply Forall_singleton, named_exact.
  vm_compute. reflexivity.
Defined.
End TagsSection.

(** ** The tags a list is filtered by (pages/devices/index.tsx) *)

Definition addFilterTag (tag : jsstring) (tags : list jsstring) : list jsstring := if bool_decide (tag ∈ tags) then tags else tags ++ [tag].
Definition removeFilterTag (tag : jsstring) (tags : list jsstring) : list jsstring := List.filter (λ t, negb (bool_decide (t = tag))) tags.
Definition onTagRenamed (old new : jsstring) (tags : list jsstring) : list jsstring :=
  map (λ t, if bool_decide (t = old) then new else t) tags.
Definition onTagDeleted (name : jsstring) (tags : list jsstring) : list jsstring := removeFilterTag name tags.

(** The filter follows the tags: a renamed one is still filtered by, under its new
    name, a deleted one is not, and none comes twice. *)
Lemma filter_follows old new tags : NoDup tags → new ∉ tags →
  NoDup (onTagRenamed old new tags) ∧ (∀ t, t ∈ onTagRenamed old new tags ↔ (t = new ∧ old ∈ tags) ∨ (t ∈ tags ∧ t ≠ old)) ∧
  old ∉ onTagDeleted old tags ∧ NoDup (addFilterTag new tags).
Proof.
  intros Hd Hn. split; [|split; [|split]].
  - unfold onTagRenamed. apply (NoDup_fmap_2_strong _ tags); [|done].
    intros x y Hx Hy. repeat case_bool_decide; subst; try done; intros ->; done.
  - intros t. unfold onTagRenamed. rewrite list_elem_of_fmap. split.
    + intros (x & -> & Hx). destruct (decide (x = old)) as [->|]; [rewrite bool_decide_eq_true_2 by done; auto|].
      rewrite bool_decide_eq_false_2 by done. auto.
    + intros [[-> Ho]|[Ht Ho]]; [exists old|exists t]; [by rewrite bool_decide_eq_true_2|by rewrite bool_decide_eq_false_2].
  - unfold onTagDeleted, removeFilterTag. intros [_ H]%list_elem_of_In%filter_In. by rewrite bool_decide_eq_true_2 in H.
  - unfold addFilterTag. rewrite bool_decide_eq_false_2 by done. apply NoDup_app. split; [done|]. split; [|apply NoDup_singleton].
    intros x Hx ->%list_elem_of_singleton. done.
Qed.
