(* ===== verification/VaultDialogs.v ===== *)
(** * The vault's dialogs (components/vault, pages/secure-vault/index.tsx)

    The forms that set the vault up, unlock it and change its password, run over the
    store of VaultStore.v; the dialog that moves it between the browser and the
    server; the confirmation of a reset; the auto-lock notice; the page that opens
    them. *)

From S2P Require Import Prelude JsString JsJson JsEncoding JsDate VaultTypes VaultTracker VaultWorld VaultCrypto VaultBackend.
From S2P Require Import VaultStore VaultLaws VaultStoreFacts VaultRefine VaultToy VaultMigrate VaultExamples.
From S2P Require Recordings.

(** [!error], of a string or null. *)
Definition no_error (e : option jsstring) : bool := match e with Some m => negb (truthy m) | None => true end.

(** ** The forms *)

Definition unlock_canSubmit (password : jsstring) (loading : bool) : bool := (0 <? length password)%nat && negb loading.
Definition setup_canSubmit (password confirm : jsstring) (loading : bool) : bool :=
  (8 <=? length password)%nat && bool_decide (password = confirm) && negb loading.
Definition passwordTooShort (password : jsstring) : bool := (0 <? length password)%nat && (length password <? 8)%nat.
Definition passwordsMismatch (password confirm : jsstring) : bool := (0 <? length confirm)%nat && negb (bool_decide (password = confirm)).
Definition change_canSubmit (currentPassword newPassword confirmPassword : jsstring) (loading : bool) : bool :=
  (0 <? length currentPassword)%nat && (8 <=? length newPassword)%nat && bool_decide (newPassword = confirmPassword) && negb loading.

Section Forms.
Context `{WC : WebCrypto} `{VA : VaultApi} `{PF : Platform}.

(** Each answers whether the dialog is closed. *)
Definition unlock_submit (password : jsstring) : V bool :=
  l ← peek loading;
  if negb (unlock_canSubmit password l) then mret false
  else
    unlock password;;
    e ← peek error;
    l ← peek loading;
    mret (no_error e && negb l).

Definition setup_mode (mode : VaultStorageMode) : VaultStorageMode := if isVaultServerEnabled then mode else local_mode.
Definition setup_submit (password confirm : jsstring) (mode : VaultStorageMode) : V bool :=
  l ← peek loading;
  if negb (setup_canSubmit password confirm l) then mret false
  else
    initialize password (Some (setup_mode mode));;
    e ← peek error;
    l ← peek loading;
    mret (no_error e && negb l).

Definition change_submit (currentPassword newPassword confirmPassword : jsstring) : V bool :=
  l ← peek loading;
  if negb (change_canSubmit currentPassword newPassword confirmPassword l) then mret false
  else
    changeMasterPassword currentPassword newPassword;;
    e ← peek error;
    mret (no_error e).

(** [run] of the sync dialog: [None] closes it, a message keeps it open. *)
Definition sync_run (action : V unit) : V (option jsstring) :=
  try_catch
    (action;; lock;; refreshStatus;; mret None)
    (λ err, mret (Some (error_message (js "Failed to move the vault") err))).
End Forms.

(** ** Correctness of the forms *)

Section FormFacts.
Context `{WC : WebCrypto} `{VA : VaultApi} `{PF : Platform}.
Context `{WCL : !WebCryptoLaws} `{IC : !IdealCrypto} `{PFL : !PlatformLaws}.
Context (scope : option VaultScope) (md : VaultStorageMode).
Context (view : Place → View) (up : Place → Prop).
Context `{LB : !LawfulBackend scope md view up} `{RB : !ReliableBackend scope md view up}.

Notation R := (R view).
Notation ready := (ready scope md view).

(** C21: submitting the unlock dialog of a shut vault whose storage answers (as the
    browser's does; on the server a load that fails leaves the dialog open), with no
    other task in between and a password the idealised cryptography tells apart from
    the others, closes it exactly when the password is the master password of the
    stored vault; the store then shows the stored keys and holds the session key.
    Otherwise the dialog stays, with a message, and nothing is opened.  What is
    stored stays. *)
Theorem unlock_dialog (a : AVault) (pw : jsstring) (w : World)
    (Hr : ready w) (HR : R a w) (Ho : a_open a = false) (Hc : considered (utf8_encode pw)) (Hp : pw ≠ []) (Hl : loading (store w) = false) :
  ∃ b w', unlock_submit pw w = (Ok b, w') ∧ ready w' ∧ R (mkA (a_stored a) b) w'
  ∧ (b = true ↔ ∃ pw0 ks, a_stored a = Some (pw0, ks) ∧ same_password pw pw0)
  ∧ (b = false → no_error (error (store w')) = false).
Proof.
  destruct (unlock_outcome scope md view up a pw w Hr HR Ho Hc) as (w' & b & E & Hr' & HR' & Hl' & He & Hb).
  exists b, w'. split; [|split_and!; [done..|]].
  - unfold unlock_submit. steps. rewrite Hl. unfold unlock_canSubmit.
    assert ((0 <? length pw)%nat = true) as -> by (destruct pw; done). cbn [andb negb]. known E. steps. rewrite Hl'.
    destruct b; [by rewrite He|]. destruct He as (m & -> & Hm). cbn. by rewrite Hm.
  - intros ->. destruct He as (m & -> & Hm). cbn. by rewrite Hm.
Qed.

(** Recording the storage mode comes first; the rest is a setup without one. *)
Definition mode_recorded (m : VaultStorageMode) (w : World) : World :=
  set_store (set_mode m (store w)) (set_place (put_storage (modeKey scope) (mode_string m) (place w)) w).
Lemma initialize_mode pw m w : scope_of (auth_user w) (auth_tenant w) = scope →
  fits (localStorage w) (modeKey scope) (mode_string m) = true →
  initialize pw (Some m) w = initialize pw None (mode_recorded m w).
Proof.
  intros Hs Hf. unfold initialize. steps.
  rewrite (bind_ok _ _ _ tt (mode_recorded m (started w))); [done|].
  rewrite (bind_ok _ _ _ _ _ (getScope_eq _)). cbv beta.
  change (scope_of (auth_user (set_store _ w)) _) with (scope_of (auth_user w) (auth_tenant w)). rewrite Hs.
  rewrite (bind_ok _ _ _ tt (set_place (put_storage (modeKey scope) (mode_string m) (place w)) (started w))); [done|].
  unfold setVaultStorageMode, setItem, try_setItem, mbind, M_bind. change (localStorage (set_store _ w)) with (localStorage w).
  by rewrite Hf.
Qed.

(** Setting the vault up with two equal passwords of eight units or more, where the
    chosen mode can be recorded: either the vault exists, open, with the legacy keys
    in it, and the dialog is closed; or no vault is left, and the dialog stays unless
    the error has an empty message. *)
Lemma setup_dialog pw mode w (w1 := mode_recorded (setup_mode mode) w) :
  ready w1 → shut w → loading (store w) = false → (8 <= length pw)%nat → considered (utf8_encode pw) →
  fits (localStorage w) (modeKey scope) (mode_string (setup_mode mode)) = true →
  ∃ b w', setup_submit pw pw mode w = (Ok b, w') ∧
  ((∃ ks, Forall2 migrated (v_legacy (view (place w1))) ks ∧ R (mkA (Some (pw, ks)) true) w' ∧ b = true)
   ∨ (R (mkA None false) w' ∧ ∃ msg, error (store w') = Some msg ∧ b = negb (truthy msg))).
Proof.
  intros [Hq Hs Hl] Hsh Hld Hlen Hcp Hf.
  assert (scope_of (auth_user w) (auth_tenant w) = scope) as Hsc by apply Hs.
  assert (∀ w', initialize pw None w1 = (Ok tt, w') → loading (store w') = false →
    setup_submit pw pw mode w = (Ok (no_error (error (store w'))), w')) as Hrun.
  { intros w' E Hlw. unfold setup_submit. steps. rewrite Hld. unfold setup_canSubmit.
    rewrite (proj2 (Nat.leb_le _ _) Hlen), bool_decide_eq_true_2 by done. cbn [andb negb].
    rewrite (bind_ok _ _ _ tt w') by by rewrite (initialize_mode pw (setup_mode mode) w Hsc Hf). steps. by rewrite Hlw, andb_true_r. }
  destruct (initialize_spec scope md view up pw w1 Hq Hs (always_up scope md view up _) Hl) as (p & n & Hp & Hlp & H).
  destruct H as [(ks & s & i & j & x & t & Hbs & Hbi & Hbj & Hj & Hmig & Hku & Hm & Hd & E)|(msg & Hm & E)].
  - eexists _, _. split; [by apply Hrun|]. left. exists ks. split; [done|]. split; [|done].
    apply (R_some _ _ pw ks true s); [|done]. split; [done|done|done|by exists i|by exists j].
  - eexists _, _. split; [by apply Hrun|]. right. split; [|by exists msg].
    constructor; [exact Hm|]. destruct Hsh as (_ & ? & ?). done.
Qed.
End FormFacts.

(** ** The sync dialog's buttons *)

Module Sync.
Inductive direction := to_server | to_local.
#[export] Instance direction_eq : EqDecision direction. Proof. solve_decision. Defined.
Inductive action := Adopt | LocalToServer | ServerToLocal.
(** [told]: what the check of the current scope has answered; [started]: the moves
    begun, each with what was known of the server's vault and whether the user was
    asked which to keep. *)
Record Form := mkForm {
  dir : direction; awaiting : bool; checking : bool; conflict : bool; working : bool; error : option jsstring; is_open : bool;
  told : option bool; started : list (action * option bool * bool);
}.
Definition mount (d : direction) : Form :=
  let c := bool_decide (d = to_server) in mkForm d c c false false None true None [].
Definition toServer (s : Form) : bool := bool_decide (dir s = to_server).

(** The check's [then], [catch] and [finally]. *)
Definition checked (r : option bool) (s : Form) : Form :=
  if negb (awaiting s) then s
  else match r with
       | Some exists_ => mkForm (dir s) false false exists_ (working s) (error s) (is_open s) (Some exists_) (started s)
       | None => mkForm (dir s) false false (conflict s) (working s) (Some (js "Could not reach the server. Try again.")) (is_open s) (told s) (started s)
       end.
(** Another user or namespace: the answer awaited is dropped, a new check begins. *)
Definition rescope (s : Form) : Form :=
  mkForm (dir s) (toServer s) (checking s) (conflict s) (working s) (error s) (is_open s) None (started s).
Definition run (a : action) (asked : bool) (s : Form) : Form :=
  mkForm (dir s) (awaiting s) (checking s) (conflict s) true None (is_open s) (told s) (started s ++ [(a, told s, asked)]).
Definition ran (r : option jsstring) (s : Form) : Form :=
  if negb (working s) then s
  else match r with
       | None => mkForm (dir s) (awaiting s) (checking s) (conflict s) false (error s) false (told s) (started s)
       | Some m => mkForm (dir s) (awaiting s) (checking s) (conflict s) false (Some m) (is_open s) (told s) (started s)
       end.
Definition choices_shown (s : Form) : bool := negb (checking s) && toServer s && conflict s.
Definition confirm_enabled (s : Form) : bool :=
  negb (checking s) && negb (toServer s && conflict s) && negb (toServer s && bool_decide (error s ≠ None)) && negb (working s).

Definition closed (s : Form) : Form :=
  mkForm (dir s) (awaiting s) (checking s) (conflict s) (working s) (error s) false (told s) (started s).
(** [Cancel] is the button, which is disabled during a move; [Escape] is the key or a
    click on the backdrop, which BaseDialog.tsx takes at any time: the move goes on. *)
Inductive event := Checked (r : option bool) | KeepSynced | KeepLocal | Confirm | Ran (r : option jsstring) | Cancel | Escape | Rescope.
Definition step (s : Form) (e : event) : Form :=
  if negb (is_open s) then s else
  match e with
  | Checked r => checked r s
  | KeepSynced => if choices_shown s && negb (working s) then run Adopt true s else s
  | KeepLocal => if choices_shown s && negb (working s) then run LocalToServer true s else s
  | Confirm => if confirm_enabled s then run (if toServer s then LocalToServer else ServerToLocal) false s else s
  | Ran r => ran r s
  | Cancel => if working s then s else closed s
  | Escape => closed s
  | Rescope => rescope s
  end.

(** The server's vault is replaced, or the browser's dropped, only on the user's
    word; with no vault on the server there is nothing to ask. *)
Definition move_ok (d : direction) (m : action * option bool * bool) : Prop :=
  match m with
  | (LocalToServer, known, asked) => d = to_server ∧ known = Some asked
  | (Adopt, known, asked) => d = to_server ∧ known = Some true ∧ asked = true
  | (ServerToLocal, _, _) => d = to_local
  end.
(** What the form knows of the server: nothing while it waits, the answer, or that
    there was none, in which case the button is disabled by the error. *)
Definition knows (s : Form) : Prop :=
  if checking s then told s = None ∧ conflict s = false ∧ working s = false
  else told s = Some (conflict s) ∨ (told s = None ∧ conflict s = false ∧ error s ≠ None ∧ working s = false).
Definition inv (d : direction) (s : Form) : Prop :=
  dir s = d ∧ Forall (move_ok d) (started s) ∧ awaiting s = checking s ∧ (d = to_server → knows s).
Lemma inv_run d a asked s : inv d s → move_ok d (a, told s, asked) → checking s = false → (d = to_server → told s = Some (conflict s)) → inv d (run a asked s).
Proof.
  intros (H1 & H2 & H3 & H4) Hm Hc Ht. split; [done|]. split; [apply Forall_app; split; [done|]; by apply Forall_singleton|].
  split; [done|]. intros Hd. unfold knows. cbn. rewrite Hc. left. auto.
Qed.
(** Where the buttons are shown the check has answered. *)
Lemma shown_told d s : inv d s → d = to_server → checking s = false → conflict s = true ∨ error s = None → told s = Some (conflict s).
Proof.
  intros (_ & _ & _ & H) Hd Hc Hs. specialize (H Hd). unfold knows in H. rewrite Hc in H. destruct H as [?|(? & Hf & He & _)]; [done|].
  destruct Hs; [congruence|done].
Qed.
Lemma inv_choose d a s : inv d s → a = Adopt ∨ a = LocalToServer → choices_shown s = true → inv d (run a true s).
Proof.
  intros H Ha [[Hc%negb_true_iff Hd%bool_decide_eq_true]%andb_prop Hf]%andb_prop. pose proof H as (H1 & _).
  assert (d = to_server) as Hd' by congruence. pose proof (shown_told d s H Hd' Hc (or_introl Hf)) as Ht.
  apply inv_run; [done| |done|done]. rewrite Ht, Hf. by destruct Ha as [-> | ->].
Qed.
Lemma inv_confirm d s : inv d s → confirm_enabled s = true → inv d (run (if toServer s then LocalToServer else ServerToLocal) false s).
Proof.
  intros H [[[Hc%negb_true_iff Hf]%andb_prop He]%andb_prop _]%andb_prop. pose proof H as (H1 & _). revert Hf He.
  unfold toServer. rewrite H1. destruct (decide (d = to_server)) as [Hd|Hd].
  - rewrite bool_decide_eq_true_2 by done. cbn [andb]. intros Hf%negb_true_iff He%negb_true_iff%bool_decide_eq_false%dec_stable.
    pose proof (shown_told d s H Hd Hc (or_intror He)) as Ht. apply inv_run; [done| |done|done]. by rewrite Ht, Hf.
  - rewrite bool_decide_eq_false_2 by done. intros _ _. apply inv_run; [done| |done|done]. by destruct d.
Qed.
Lemma inv_ran d r s : inv d s → inv d (ran r s).
Proof.
  intros H. pose proof H as (H1 & H2 & H3 & H4). unfold ran. destruct (working s) eqn:Ew; cbn [negb]; [|done].
  assert (d = to_server → checking s = false ∧ told s = Some (conflict s)) as Hk.
  { intros Hd. specialize (H4 Hd). unfold knows in H4. rewrite Ew in H4. destruct (checking s); naive_solver. }
  destruct r; (split; [done|]; split; [done|]; split; [done|]); intros Hd; destruct (Hk Hd) as [E1 E2]; unfold knows; cbn; rewrite E1; by left.
Qed.
Lemma inv_checked d r s : inv d s → inv d (checked r s).
Proof.
  intros H. pose proof H as (H1 & H2 & H3 & H4). unfold checked. destruct (awaiting s) eqn:Ea; cbn [negb]; [|done].
  destruct r as [b|]; (split; [done|]; split; [done|]; split; [done|]); intros Hd; specialize (H4 Hd); unfold knows in *; cbn; [by left|].
  rewrite <-H3 in H4. right. naive_solver.
Qed.
Lemma sync_inv_step d s e : inv d s → e ≠ Rescope → inv d (step s e).
Proof.
  intros H He. unfold step. destruct (is_open s); cbn [negb]; [|done]. destruct e as [r| | | |r| | |]; [| | | | | | |done].
  - by apply inv_checked.
  - destruct (choices_shown s) eqn:E; cbn [andb]; [|done]. destruct (negb _); [|done]. apply inv_choose; auto.
  - destruct (choices_shown s) eqn:E; cbn [andb]; [|done]. destruct (negb _); [|done]. apply inv_choose; auto.
  - destruct (confirm_enabled s) eqn:E; [|done]. by apply inv_confirm.
  - by apply inv_ran.
  - destruct (working s); [done|]. exact H.
  - exact H.
Qed.

(** C13: while the user and the namespace stay, whatever is clicked and whenever the
    answers come, the sync dialog replaces the vault on the server only when the
    server has said it has none, or when it has said it has one and the user chose
    the browser's; the browser's vault is dropped unread only when the user chose
    the synced one; and only the dialog that moves to the browser moves there. *)
Theorem sync_asks_first (d : direction) (es : list event) (Hs : Rescope ∉ es) :
  Forall (move_ok d) (started (fold_left step es (mount d))).
Proof.
  assert (inv d (fold_left step es (mount d))) as (_ & ? & _); [|done].
  assert (inv d (mount d)) as H.
  { split; [done|]. split; [constructor|]. split; [done|]. intros ->. by vm_compute. }
  revert H. generalize (mount d). induction es as [|e es IH]; intros s H; [done|]. apply not_elem_of_cons in Hs as [He Hs].
  cbn. apply (IH Hs), sync_inv_step; auto.
Qed.
Lemma sync_asks_first_witness : let s := fold_left step [Confirm; Checked (Some true); Confirm; KeepLocal; Ran (Some (js "offline")); KeepSynced; Ran None] (mount to_server) in
  started s = [(LocalToServer, Some true, true); (Adopt, Some true, true)] ∧ is_open s = false ∧ Forall (move_ok to_server) (started s).
Proof.
  split; [vm_compute; reflexivity|]. split; [vm_compute; reflexivity|]. apply (sync_asks_first to_server).
  rewrite !elem_of_cons, elem_of_nil. intros H. destruct_or? H; done.
Defined.

(** When the namespace changes under the open dialog, the answer for the last one
    still enables the button until the new check is back. *)
Example stale_check : started (fold_left step [Checked (Some false); Rescope; Confirm] (mount to_server)) = [(LocalToServer, None, false)].
Proof. vm_compute. reflexivity. Qed.
End Sync.

(** ** Moving the vault: what the sync dialog leaves *)

Section SyncFacts.
Context `{WC : WebCrypto} `{VA : VaultApi} `{PF : Platform} `{VAL : !VaultApiLaws}.
Context (scope : option VaultScope).
Notation lview := (local_view scope).
Notation sview := server_view.

(** Looking at the vault changes nothing stored, and a shut one stays locked. *)
Lemma refresh_locked md view up `{LB : !LawfulBackend scope md view up} w : quiet w → selected scope md w → sessionKey w = None →
  status (store w) = locked → keys (store w) = [] → is_Some (v_meta (view (place w))) →
  ∃ w', refreshStatus w = (Ok tt, w') ∧ view (place w') = view (place w) ∧ sessionKey w' = None ∧ status (store w') = locked ∧ keys (store w') = [].
Proof.
  intros Hq Hs Hk Hst Hks [m Hm]. unfold refreshStatus. rewrite (bind_ok _ _ _ _ _ (getScope_eq w)). cbv beta.
  known (getVaultStorageMode_eq (scope_of (auth_user w) (auth_tenant w)) w). steps. set (w0 := set_store _ w).
  assert (selected scope md w0) as Hs0 by exact Hs.
  destruct (loadMeta_law scope md view up w0 Hq) as (p & Hp & Hv & [E|[_ [e E]]]); change (place w0) with (place w) in *.
  - erewrite or_return_inr. 2: { apply try_ok. known (getBackend_selected scope md w0 Hs0). by apply fmap_ok. }
    rewrite Hv, Hm.
    destruct (loadSettingsIntoState_spec scope md view up (set_place p w0) Hq (selected_place scope md up p w0 Hs0 Hp)) as (p2 & x & _ & Hv2 & E2 & _).
    eexists. split; [known E2; steps; change (sessionKey _) with (sessionKey w); rewrite Hk; steps; reflexivity|].
    split; [exact (eq_trans Hv2 Hv)|]. done.
  - erewrite or_return_inl.
    2: { erewrite try_throw; [steps; reflexivity|]. known (getBackend_selected scope md w0 Hs0). by apply fmap_throw. }
    eexists. split; [reflexivity|]. split; [exact Hv|]. done.
Qed.

(** Looking at the vault writes nothing to the browser's storage. *)
Lemma keeps_backend {A} P (f : IVaultBackend → V A) : (∀ sc md, keeps P (f (backend_of sc md))) → keeps P (getBackend ≫= f).
Proof.
  intros H. split. intros w Hw. unfold mbind, M_bind.
  rewrite (getBackend_selected (scope_of (auth_user w) (auth_tenant w))
    (mode_of (scope_of (auth_user w) (auth_tenant w)) (localStorage w)) w) by done.
  by apply H.
Qed.
Lemma keeps_fmap {A B} P (f : A → B) (m : V A) : keeps P m → keeps P (f <$> m).
Proof. intros H. split. intros w Hw. pose proof (keeps_run _ _ H w Hw) as H'. unfold fmap, M_fmap. by destruct (m w) as [[] ?]. Qed.
Lemma keeps_load_meta st sc md : keeps (storage_at st) (loadMeta (backend_of sc md)).
Proof. destruct md; [by split|apply keeps_loadMeta]. Qed.
Lemma keeps_load_settings st sc md : keeps (storage_at st) (loadSettings (backend_of sc md)).
Proof.
  destruct md; [by split|]. unfold backend_of, ServerVaultBackend. cbn [loadSettings]. keeping; apply keeps_fetch.
Qed.
Lemma keeps_put st f : keeps (storage_at st) (put f).
Proof. by apply keeps_modify. Qed.
Lemma keeps_on_tracker st f : keeps (storage_at st) (on_tracker f).
Proof. by apply keeps_modify. Qed.
#[local] Hint Resolve keeps_load_meta keeps_load_settings keeps_put keeps_on_tracker : keeps.

Lemma keeps_refreshed st : keeps (storage_at st) refreshStatus.
Proof.
  assert (keeps (storage_at st) loadSettingsIntoState) as Hl.
  { unfold loadSettingsIntoState, swallow. apply keeps_try; [|keeping]. apply keeps_backend. intros sc md. keeping. }
  assert (keeps (storage_at st) getScope) as Hs by (by split).
  unfold refreshStatus, or_return. apply keeps_bind; [done|]. intros sc. apply keeps_bind; [split; intros w; by rewrite getVaultStorageMode_eq|].
  intros md. apply keeps_bind; [keeping|]. intros _. apply keeps_bind.
  - apply keeps_try; [|keeping]. apply keeps_backend. intros sc' md'. apply keeps_fmap, keeps_load_meta.
  - intros [|[m|]]; keeping; done.
Qed.

Lemma refresh_storage w w' : quiet w → refreshStatus w = (Ok tt, w') → localStorage w' = localStorage w.
Proof.
  intros Hq E. destruct (keeps_run _ _ (keeps_refreshed (localStorage w)) w (conj Hq eq_refl)) as [_ H]. by rewrite E in H.
Qed.

(** In local mode it touches neither place. *)
Lemma refresh_local w m : selected scope local_mode w → sessionKey w = None → keys (store w) = [] → v_meta (lview (place w)) = Some m →
  ∃ w', refreshStatus w = (Ok tt, w') ∧ place w' = place w ∧ sessionKey w' = None ∧ status (store w') = locked ∧ keys (store w') = [].
Proof.
  intros Hs Hk Hks Hm. unfold refreshStatus. rewrite (bind_ok _ _ _ _ _ (getScope_eq w)). cbv beta.
  known (getVaultStorageMode_eq (scope_of (auth_user w) (auth_tenant w)) w). steps. set (w0 := set_store _ w).
  assert (selected scope local_mode w0) as Hs0 by exact Hs.
  erewrite or_return_inr.
  2: { apply try_ok. known (getBackend_selected scope local_mode w0 Hs0). apply fmap_ok.
       instantiate (1 := w0). instantiate (1 := v_meta (lview (place w))). reflexivity. }
  rewrite Hm. unfold loadSettingsIntoState, swallow.
  rewrite (bind_ok _ _ _ tt (set_store (set_settings (v_settings (lview (place w))) (store w0)) w0)).
  2: { apply try_ok. known (getBackend_selected scope local_mode w0 Hs0). reflexivity. }
  eexists. split; [steps; change (sessionKey _) with (sessionKey w); rewrite Hk; steps; reflexivity|]. done.
Qed.

(** What a button of the dialog runs. *)
Definition perform (a : Sync.action) : V unit :=
  match a with
  | Sync.Adopt => adoptServerVault scope
  | Sync.LocalToServer => migrateLocalToServer scope
  | Sync.ServerToLocal => migrateServerToLocal scope
  end.

(** The session after a move: locked, with nothing of the vault in memory. *)
Definition session_shut (w : World) : Prop := sessionKey w = None ∧ status (store w) = locked ∧ keys (store w) = [].

(** A move that succeeded: the dialog locks, looks at the new home, and closes. *)
Lemma sync_run_closes a p w w' : perform a w = (Ok tt, set_place p w) → refreshStatus (lock (set_place p w)).2 = (Ok tt, w') →
  sync_run (perform a) w = (Ok None, w').
Proof. intros E E'. apply try_ok. known E. rewrite (bind_ok _ _ _ tt (lock (set_place p w)).2) by done. known E'. done. Qed.
Lemma sync_run_stays a p w e : perform a w = (Throw e, set_place p w) → ∃ m, sync_run (perform a) w = (Ok (Some m), set_place p w).
Proof. intros E. eexists. unfold sync_run. by rewrite (try_throw _ _ _ _ _ (bind_throw _ _ _ _ _ E)). Qed.

Lemma now_synced p w (He : isVaultServerEnabled = true) (Hq : quiet w) (Hs : scope_of (auth_user w) (auth_tenant w) = scope) :
  p_storage p !! modeKey scope = Some (js "server") → is_Some (v_meta (sview p)) →
  ∃ w', refreshStatus (lock (set_place p w)).2 = (Ok tt, w') ∧ sview (place w') = sview p ∧ lview (place w') = lview p ∧ session_shut w'.
Proof.
  intros Hm Hv. set (w1 := (lock (set_place p w)).2).
  assert (selected scope server_mode w1) as Hs1.
  { split; [exact Hs|]. unfold mode_of, mode_at. rewrite He. cbn [negb]. change (localStorage w1) with (p_storage p). by rewrite Hm. }
  destruct (refresh_locked server_mode sview server_up w1 Hq Hs1 eq_refl eq_refl eq_refl Hv) as (w' & E & H1 & Hk & Hst & Hks).
  exists w'. split; [exact E|]. split; [exact H1|]. split; [|done].
  apply lview_storage. exact (refresh_storage w1 w' Hq E).
Qed.

Lemma now_local p w m (He : isVaultServerEnabled = true) (Hs : scope_of (auth_user w) (auth_tenant w) = scope) :
  p_storage p !! modeKey scope = Some (js "local") → v_meta (lview p) = Some m →
  ∃ w', refreshStatus (lock (set_place p w)).2 = (Ok tt, w') ∧ place w' = p ∧ session_shut w'.
Proof.
  intros Hm Hv. set (w1 := (lock (set_place p w)).2).
  assert (selected scope local_mode w1) as Hs1.
  { split; [exact Hs|]. unfold mode_of, mode_at. rewrite He. cbn [negb]. change (localStorage w1) with (p_storage p). by rewrite Hm. }
  destruct (refresh_local w1 m Hs1 eq_refl eq_refl Hv) as (w' & E & H1 & H2). by exists w'.
Qed.

(** What each move leaves where, when the dialog closes and when it stays; [l], [v]
    are the two places before and [l'], [v'] after. *)
Definition moved (a : Sync.action) (l v l' v' : View) : Prop :=
  match a with
  | Sync.LocalToServer => vault_of v' = vault_of l ∧ v_meta l' = None ∧ v_data l' = None
  | Sync.Adopt => vault_of v' = vault_of v ∧ v_meta l' = None ∧ v_data l' = None
  | Sync.ServerToLocal => ∃ m, v_meta v = Some m ∧ holds_copy l' m (v_data v) ∧ v_meta v' = None
  end.
Definition not_lost (a : Sync.action) (l v l' v' : View) : Prop :=
  match a with
  | Sync.LocalToServer => l' = l ∨ vault_of v' = vault_of l
  | Sync.Adopt => vault_of v' = vault_of v
  | Sync.ServerToLocal => vault_of v' = vault_of v ∨ ∃ m, v_meta v = Some m ∧ holds_copy l' m (v_data v)
  end.

(** C12: whichever move the sync dialog of a signed-in user runs, on a server that
    offers syncing, with no other task in between, from a place that has a vault:
    the dialog closes only with the vault moved and the session locked and empty, so
    that the next unlock reads the new home.  Moved to the server: the whole vault
    (meta record, data and settings) is there and none is left in the browser.
    The synced one kept: it is as it was and none is left in the browser.  Moved to
    the browser: its meta record and data are there and none is left on the server.
    With any failure the dialog stays, with a message, and the vault being moved, or
    the synced one that was chosen, is whole in one of the two places. *)
Theorem sync_dialog_moves (a : Sync.action) (w : World) (He : isVaultServerEnabled = true) (Hq : quiet w)
    (Hs : scope_of (auth_user w) (auth_tenant w) = scope)
    (Hv : is_Some (v_meta (match a with Sync.LocalToServer => lview (place w) | _ => sview (place w) end))) :
  ∃ r w', sync_run (perform a) w = (Ok r, w') ∧
  match r with
  | None => session_shut w' ∧ moved a (lview (place w)) (sview (place w)) (lview (place w')) (sview (place w'))
  | Some _ => not_lost a (lview (place w)) (sview (place w)) (lview (place w')) (sview (place w'))
  end.
Proof.
  destruct a.
  - destruct (adopt_outcome scope w) as ([[]|e] & p & E & H1 & H2 & H3 & H4).
    + destruct (now_synced p w He Hq Hs H4) as (w' & E' & S1 & S2 & S3); [exact (eq_rect_r is_Some Hv (f_equal (λ x, x.1.1) H1))|].
      exists None, w'. split; [by apply (sync_run_closes Sync.Adopt p)|]. split; [done|]. cbn [moved]. by rewrite S1, S2.
    + destruct (sync_run_stays Sync.Adopt p w e E) as [m Em]. exists (Some m), (set_place p w). by split.
  - destruct Hv as [m Hm]. destruct (migrate_to_server_outcome scope m w Hq Hm) as ([[]|e] & p & E & H).
    + destruct H as (H1 & H2 & H3 & H4).
      destruct (now_synced p w He Hq Hs H4) as (w' & E' & S1 & S2 & S3).
      { exists m. rewrite <-Hm. exact (f_equal (λ x, x.1.1) H1). }
      exists None, w'. split; [by apply (sync_run_closes Sync.LocalToServer p)|]. split; [done|]. cbn [moved]. by rewrite S1, S2.
    + destruct (sync_run_stays Sync.LocalToServer p w e E) as [msg Em]. exists (Some msg), (set_place p w). by split.
  - destruct (migrate_to_local_outcome scope w Hq) as ([[]|e] & p & E & H).
    + destruct H as (m & H1 & H2 & H3 & H4).
      destruct (now_local p w m He Hs H4) as (w' & E' & S1 & S2); [by destruct H2|].
      exists None, w'. split; [by apply (sync_run_closes Sync.ServerToLocal p)|]. split; [done|]. cbn [moved]. rewrite S1. by exists m.
    + destruct (sync_run_stays Sync.ServerToLocal p w e E) as [msg Em]. exists (Some msg), (set_place p w). by split.
Qed.
End SyncFacts.

(** ** components/vault/VaultAutoLockBanner.tsx *)

Module Toast.
Definition AUTO_DISMISS_MS : Z := 6000.
Record Toast_ := mkToast { seen : Z; visible : bool; timer : option Z }.
Definition mount_toast (nonce : Z) : Toast_ := mkToast nonce false None.
(** The effect, on a render at time [now]. *)
Definition rendered (nonce now : Z) (s : Toast_) : Toast_ :=
  if nonce =? seen s then s else mkToast nonce true (Some (now + AUTO_DISMISS_MS)).
Definition due (now : Z) (s : Toast_) : Toast_ :=
  match timer s with Some t => if t <=? now then mkToast (seen s) false None else s | None => s end.
Definition onDismiss (s : Toast_) : Toast_ := mkToast (seen s) false None.
Inductive toast_event := Render (nonce now : Z) | Tick (now : Z) | Dismissed.
Definition toast_step (s : Toast_) (e : toast_event) : Toast_ :=
  match e with Render n t => rendered n t s | Tick t => due t s | Dismissed => onDismiss s end.
Definition shown_iff_armed (s : Toast_) : Prop := visible s = true ↔ is_Some (timer s).
Lemma toast_armed es n : shown_iff_armed (fold_left toast_step es (mount_toast n)).
Proof.
  assert (shown_iff_armed (mount_toast n)) as H by (split; [done|by intros [? ?]]). revert H. generalize (mount_toast n).
  induction es as [|e es IH]; intros s H; [done|]. cbn. apply IH. unfold shown_iff_armed in *. destruct e as [m t|t|]; cbn.
  - unfold rendered. destruct (m =? seen s); [done|]. cbn. split; [by eexists|done].
  - unfold due. destruct (timer s) as [x|] eqn:E; [|by rewrite E]. destruct (x <=? t); [|by rewrite E]. cbn. split; [done|by intros [? ?]].
  - split; [done|by intros [? ?]].
Qed.
(** The notice of an auto-lock goes away by itself: six seconds after the last lock
    it showed for, or sooner. *)
Lemma toast_passes nonce now t s : nonce ≠ seen s → now + AUTO_DISMISS_MS <= t → visible (due t (rendered nonce now s)) = false.
Proof.
  intros Hn Ht. unfold rendered, due. destruct (Z.eqb_spec nonce (seen s)); [done|]. cbn [timer].
  destruct (Z.leb_spec (now + AUTO_DISMISS_MS) t); [done|lia].
Qed.
End Toast.

(** ** components/vault/VaultSettingsSection.tsx *)

Definition TIMEOUT_LABELS (m : Z) : option string :=
  if m =? 0 then Some "Never" else if m =? 5 then Some "5 minutes" else if m =? 15 then Some "15 minutes"
  else if m =? 30 then Some "30 minutes" else if m =? 60 then Some "60 minutes" else None.
Definition storageDescription (m : VaultStorageMode) : string :=
  match m with
  | server_mode => "Synced with the ShellHub server. Click to move it to this device."
  | local_mode => "Stored in this browser only. Click to sync it to the ShellHub server."
  end.
Definition settings_direction (m : VaultStorageMode) : Sync.direction := match m with server_mode => Sync.to_local | local_mode => Sync.to_server end.
(** Every setting that can be stored has a label of its own. *)
Lemma timeout_labels a b : a ∈ ALLOWED_TIMEOUT_MINUTES → b ∈ ALLOWED_TIMEOUT_MINUTES → is_Some (TIMEOUT_LABELS a) ∧ (TIMEOUT_LABELS a = TIMEOUT_LABELS b → a = b).
Proof.
  unfold ALLOWED_TIMEOUT_MINUTES. rewrite !elem_of_cons, !elem_of_nil. intros Ha Hb.
  destruct_or? Ha; destruct_or? Hb; subst; cbn; split; done.
Qed.

Record Reset_ := mkReset { resetOpen : bool; resetConfirmText : jsstring; resets : nat }.
Inductive reset_event := AskReset | TypeReset (v : jsstring) | CloseReset | ConfirmReset.
Definition reset_step (s : Reset_) (e : reset_event) : Reset_ :=
  match e with
  | AskReset => mkReset true [] (resets s)
  | TypeReset v => if resetOpen s then mkReset true v (resets s) else s
  | CloseReset => mkReset false [] (resets s)
  | ConfirmReset =>
      if resetOpen s && bool_decide (resetConfirmText s = js "RESET") then mkReset false (resetConfirmText s) (S (resets s)) else s
  end.
(** Each reset was asked for and confirmed by typing the word, anew for each one. *)
Fixpoint words (es : list reset_event) : nat :=
  match es with [] => 0 | TypeReset v :: es => (if bool_decide (v = js "RESET") then 1 else 0) + words es | _ :: es => words es end.
Lemma resets_typed es : (resets (fold_left reset_step es (mkReset false [] 0)) <= words es)%nat.
Proof.
  set (armed s := if resetOpen s && bool_decide (resetConfirmText s = js "RESET") then 1%nat else 0%nat).
  assert (∀ s, (resets (fold_left reset_step es s) + armed (fold_left reset_step es s) <= resets s + armed s + words es)%nat) as H.
  { induction es as [|e es IH]; intros s; [cbn; lia|]. cbn [fold_left]. etransitivity; [apply IH|]. destruct e as [|v| |]; cbn [reset_step words].
    - unfold armed. cbn [resetOpen resetConfirmText resets andb]. rewrite bool_decide_eq_false_2 by done. lia.
    - destruct (resetOpen s) eqn:E; [|lia]. unfold armed. cbn [resetOpen resetConfirmText resets andb]. lia.
    - unfold armed. cbn [resetOpen andb resets]. lia.
    - unfold armed. destruct (resetOpen s && _) eqn:E; cbn [resetOpen andb resets]; [lia|]. rewrite E. lia. }
  specialize (H (mkReset false [] 0)). unfold armed in H at 2. cbn [resetOpen andb resets] in H. lia.
Qed.

(** ** pages/secure-vault/index.tsx *)

Section Page.
Context `{WC : WebCrypto} `{VA : VaultApi} `{PF : Platform}.

Record Page := mkPage {
  setupOpen : bool; unlockOpen : bool; syncOpen : bool; promoOpen : bool; drawerOpen : bool;
  editTarget : option VaultKeyEntry; deleteTarget : option VaultKeyEntry; search : jsstring;
  seenNonce : Z; prevStatus : VaultStatus;
}.
Definition mount_page (s : VaultState) : Page := mkPage false false false false false None None [] (autoLockNonce s) (status s).
Definition page_dialogs (u p : bool) (n : Z) (st : VaultStatus) (s : Page) : Page :=
  mkPage (setupOpen s) u (syncOpen s) p (drawerOpen s) (editTarget s) (deleteTarget s) (search s) n st.
(** The two effects, after a render with the store's state; [dismissed] is
    [isVaultSyncPromoDismissed] for the signed-in user. *)
Definition page_effects (st : VaultState) (dismissed : bool) (s : Page) : Page :=
  let bumped := negb (autoLockNonce st =? seenNonce s) in
  let cameFromLocked := bool_decide (prevStatus s = locked) in
  let promo := cameFromLocked && bool_decide (status st = unlocked) && isVaultServerEnabled
               && bool_decide (storageMode st = local_mode) && negb dismissed in
  page_dialogs (unlockOpen s || bumped) (promoOpen s || promo) (autoLockNonce st) (status st) s.
Definition set_drawer (b : bool) (t : option VaultKeyEntry) (s : Page) : Page :=
  mkPage (setupOpen s) (unlockOpen s) (syncOpen s) (promoOpen s) b t (deleteTarget s) (search s) (seenNonce s) (prevStatus s).
Definition openNew (s : Page) : Page := set_drawer true None s.
Definition openEdit (e : VaultKeyEntry) (s : Page) : Page := set_drawer true (Some e) s.
Definition closeDrawer (s : Page) : Page := set_drawer false None s.
Definition filtered (unicode_lower : N → jsstring) (search : jsstring) (ks : list VaultKeyEntry) : list VaultKeyEntry :=
  let lower := Recordings.toLowerCase unicode_lower in
  if truthy search then List.filter (λ k, includes (lower (name k)) (lower search) || includes (lower (fingerprint k)) (lower search)) ks
  else ks.
(** The promo dialog's [close]. *)
Definition promo_close (dontShowAgain : bool) (scope : option VaultScope) : V unit :=
  if dontShowAgain then dismissVaultSyncPromo scope else mret tt.

(** The promo opens only on a real unlock, of a vault kept in the browser, where
    syncing is offered and was not declined. *)
Lemma promo_after_unlock st dismissed s : promoOpen s = false → promoOpen (page_effects st dismissed s) = true →
  prevStatus s = locked ∧ status st = unlocked ∧ storageMode st = local_mode ∧ isVaultServerEnabled = true ∧ dismissed = false.
Proof.
  intros H. cbn. rewrite H. cbn. intros [[[[?%bool_decide_eq_true ?%bool_decide_eq_true]%andb_prop ?]%andb_prop ?%bool_decide_eq_true]%andb_prop
    ?%negb_true_iff]%andb_prop. done.
Qed.
(** "Don't show this again" is kept: from then on the promo does not open. *)
Lemma promo_declined scope st s w : fits (localStorage w) (promoKey scope) (js "true") = true → promoOpen s = false →
  let w' := (promo_close true scope w).2 in
  ∃ b, isVaultSyncPromoDismissed scope w' = (Ok b, w') ∧ promoOpen (page_effects st b s) = false.
Proof.
  intros Hf Hp. cbn [promo_close]. unfold dismissVaultSyncPromo, setItem, try_setItem, isVaultSyncPromoDismissed, getItem, gets, mbind, M_bind, mret, M_ret.
  rewrite Hf. cbn. rewrite lookup_insert_eq. exists true.
  split; [by rewrite bool_decide_eq_true_2|]. unfold page_effects, page_dialogs. cbn [promoOpen]. by rewrite Hp, andb_false_r.
Qed.
(** When the auto-lock fires on an open vault the page asks for the password; when
    the user locks it, the page does not. *)
Lemma autolock_prompts w dismissed s : status (store w) = unlocked → seenNonce s = autoLockNonce (store w) →
  unlockOpen (page_effects (store (onIdle w).2) dismissed s) = true ∧
  unlockOpen (page_effects (store (lock w).2) dismissed s) = unlockOpen s.
Proof.
  intros Hu Hn. assert (autoLockNonce (store (onIdle w).2) = autoLockNonce (store w) + 1) as E by (unfold onIdle; steps; by rewrite Hu).
  unfold page_effects, page_dialogs. cbn [unlockOpen]. rewrite E, Hn. split.
  - rewrite (proj2 (Z.eqb_neq _ _)) by lia. apply orb_true_r.
  - change (autoLockNonce (store (lock w).2)) with (autoLockNonce (store w)). rewrite Z.eqb_refl. apply orb_false_r.
Qed.
(** The key being edited stays in the page's state when the vault locks, its
    decrypted text with it, and the drawer shows it again after the next unlock. *)
Lemma lock_keeps_edited e w dismissed s : let s' := page_effects (store (lock w).2) dismissed (openEdit e s) in
  keys (store (lock w).2) = [] ∧ editTarget s' = Some e ∧ drawerOpen s' = true.
Proof. done. Qed.
End Page.

(** ** Runs *)

#[local] Existing Instance toy_crypto.
#[local] Existing Instance toy_api.
#[local] Existing Instance toy_crypto_laws.
#[local] Existing Instance toy_api_laws.
#[local] Existing Instance toy_ideal.

Section LocalRun.
#[local] Existing Instance local_platform.
#[local] Existing Instance local_platform_laws.
#[local] Existing Instance local_reliable.

(** The open vault of VaultExamples.v, locked, then unlocked through the dialog. *)
Lemma unlock_dialog_witness : ∃ pw ks w', unlock_submit (js "hunter2") (lock opened_world).2 = (Ok true, w') ∧
  R (local_view toy_scope) (mkA (Some (pw, ks)) true) w' ∧ same_password (js "hunter2") pw.
Proof.
  destruct opened_related as (pw & ks & Hr & HR).
  destruct (refine_lock toy_scope local_mode (local_view toy_scope) (mkA (Some (pw, ks)) true) opened_world Hr HR) as (r & w1 & a & E & Hr1 & S1 & HR1).
  assert (a = mkA (Some (pw, ks)) false) as -> by by inversion S1.
  assert ((lock opened_world).2 = w1) as <- by exact (f_equal snd E).
  destruct (unlock_dialog toy_scope local_mode (local_view toy_scope) local_up (mkA (Some (pw, ks)) false) (js "hunter2") _
    Hr1 HR1 eq_refl ltac:(apply toy_password; vm_compute; reflexivity) ltac:(discriminate) ltac:(vm_compute; reflexivity))
    as (b & w' & E' & _ & HR' & Hb & _).
  assert (b = true) as ->.
  { pose proof (f_equal fst E') as E1. vm_compute in E1. injection E1 as <-. reflexivity. }
  exists pw, ks, w'. split; [exact E'|]. split; [exact HR'|]. destruct Hb as [Hb _].
  destruct (Hb eq_refl) as (pw0 & ks0 & Hx & Hp). cbn in Hx. injection Hx as -> ->. exact Hp.
Defined.
End LocalRun.

Section CloudRun.
#[local] Existing Instance cloud_platform.

(** The vault moved to the browser and back through the dialog. *)
Lemma sync_dialog_moves_witness :
  (∃ w', sync_run (perform toy_scope Sync.LocalToServer) moved_world = (Ok None, w') ∧ session_shut w' ∧
    moved Sync.LocalToServer (local_view toy_scope (place moved_world)) (server_view (place moved_world))
      (local_view toy_scope (place w')) (server_view (place w'))) ∧
  (∃ w', sync_run (perform toy_scope Sync.ServerToLocal) cloud_world = (Ok None, w') ∧ session_shut w' ∧
    v_meta (server_view (place w')) = None).
Proof.
  split.
  - destruct (sync_dialog_moves (PF := cloud_platform) toy_scope Sync.LocalToServer moved_world ltac:(vm_compute; reflexivity)
      ltac:(vm_compute; reflexivity) ltac:(vm_compute; reflexivity) ltac:(vm_compute; eexists; reflexivity)) as (r & w' & E & H).
    assert (r = None) as ->.
    { pose proof (f_equal fst E) as E1. vm_compute in E1. injection E1 as <-. reflexivity. }
    exists w'. split; [exact E|exact H].
  - destruct (sync_dialog_moves (PF := cloud_platform) toy_scope Sync.ServerToLocal cloud_world ltac:(vm_compute; reflexivity)
      ltac:(vm_compute; reflexivity) ltac:(vm_compute; reflexivity) ltac:(vm_compute; eexists; reflexivity)) as (r & w' & E & H).
    assert (r = None) as ->.
    { pose proof (f_equal fst E) as E1. vm_compute in E1. injection E1 as <-. reflexivity. }
    destruct H as [Hs (m & _ & _ & Hm)]. exists w'. split; [exact E|]. split; [exact Hs|exact Hm].
Defined.
End CloudRun.
