(* ===== verification/Billing.v ===== *)
(** * Billing (components/billing, hooks/useBilling.ts, utils/stripeErrors.ts)

    What the billing section offers for each state of a subscription, the payment
    step (the customer's bootstrap, the card form, the list of cards) and the wizard
    that subscribes.  Stripe and the billing service answer; their answers are the
    arguments and the events of the model. *)

From S2P Require Import Prelude JsString.

(** ** components/billing/BillingSection.tsx *)

Inductive BillingStatus :=
  | active | trialing | to_cancel_at_end_of_period | past_due | unpaid | canceled | incomplete | incomplete_expired | paused | inactive.
#[export] Instance BillingStatus_eq : EqDecision BillingStatus. Proof. solve_decision. Defined.

Definition STATUS_LABEL (s : BillingStatus) : string :=
  match s with
  | active => "Active" | trialing => "Trialing" | to_cancel_at_end_of_period => "Ending soon" | past_due => "Past due" | unpaid => "Unpaid"
  | canceled => "Canceled" | incomplete => "Incomplete" | incomplete_expired => "Expired" | paused => "Paused" | inactive => "Inactive"
  end.
Inductive tone := t_error | t_warning | t_info.
(** [endAt] is the date in the text of the one banner that names it. *)
Record BannerConfig := mkBanner { b_tone : tone; b_title : string; b_endAt : option Z }.
Definition bannerFor (s : BillingStatus) (endAt : Z) : option BannerConfig :=
  match s with
  | past_due => Some (mkBanner t_error "Payment overdue" None)
  | unpaid => Some (mkBanner t_error "Unpaid invoices" None)
  | canceled => Some (mkBanner t_error "Subscription canceled" None)
  | to_cancel_at_end_of_period => Some (mkBanner t_warning "Subscription ending" (if endAt =? 0 then None else Some endAt))
  | incomplete => Some (mkBanner t_warning "Subscription incomplete" None)
  | incomplete_expired => Some (mkBanner t_error "Subscription expired" None)
  | paused => Some (mkBanner t_warning "Subscription paused" None)
  | inactive => Some (mkBanner t_info "No active subscription" None)
  | active | trialing => None
  end.
(** [!!billing?.customer_id && !!billing?.subscription_id] *)
Definition hasSubscription (billing : option (option jsstring * option jsstring)) : bool :=
  let set (x : option jsstring) := match x with Some s => truthy s | None => false end in
  match billing with Some (customer_id, subscription_id) => set customer_id && set subscription_id | None => false end.
Definition isActiveLike (s : BillingStatus) : bool :=
  bool_decide (s ∈ [active; trialing; past_due; to_cancel_at_end_of_period]).
Definition canShowSubscribeButton (s : BillingStatus) : bool := bool_decide (s ∈ [inactive; canceled; incomplete_expired]).
Definition canReopenPortal (s : BillingStatus) : bool :=
  isActiveLike s || bool_decide (s ∈ [unpaid; paused; incomplete; canceled; incomplete_expired]).
Inductive cycle := no_date | ends_on (t : Z) | renews_on (t : Z) | plain (t : Z).
Definition dateDescription (s : BillingStatus) (endAt : Z) : cycle :=
  if endAt =? 0 then no_date
  else if bool_decide (s ∈ [to_cancel_at_end_of_period; canceled]) then ends_on endAt
  else if isActiveLike s then renews_on endAt
  else plain endAt.
(** The plan row: its description and its badge. *)
Definition plan_description (s : BillingStatus) : string :=
  if bool_decide (s = inactive) then "Free plan — up to 3 devices." else "ShellHub Cloud Premium — unlimited devices.".
Definition plan_badge (s : BillingStatus) : string := if isActiveLike s then "Premium" else "Free".

(** Whatever the subscription's state, the owner can act on it: subscribe, or open
    the portal; a subscription that is running is never offered again; and every
    state but the two healthy ones says what is wrong. *)
Lemma billing_actions s endAt :
  (canShowSubscribeButton s || canReopenPortal s = true) ∧ (isActiveLike s = true → canShowSubscribeButton s = false ∧ canReopenPortal s = true)
  ∧ (bannerFor s endAt = None ↔ s = active ∨ s = trialing).
Proof. destruct s; vm_compute; naive_solver. Qed.
(** A date shown as a renewal belongs to a subscription that renews. *)
Lemma renewal_date s endAt t : dateDescription s endAt = renews_on t → t = endAt ∧ s ∈ [active; trialing; past_due].
Proof.
  unfold dateDescription. destruct (endAt =? 0); [done|]. destruct (bool_decide (s ∈ [to_cancel_at_end_of_period; _])) eqn:E1; [done|].
  destruct (isActiveLike s) eqn:E; [|done]. intros [= <-]. split; [done|]. apply bool_decide_eq_true in E. apply bool_decide_eq_false in E1. set_solver.
Qed.
(** A canceled subscription is described as Premium beside a badge that says Free. *)
Example canceled_plan : plan_description canceled = plan_description active ∧ plan_badge canceled = plan_badge inactive.
Proof. vm_compute. done. Qed.

(** ** utils/stripeErrors.ts *)

Definition STRIPE_ERROR_MESSAGES : list (string * string) :=
  [("card_declined", "Your card was declined. Please try a different payment method.");
   ("expired_card", "Your card has expired. Please use a different card.");
   ("incorrect_cvc", "Your card's security code (CVC) is incorrect.");
   ("incorrect_number", "Your card number is incorrect.");
   ("invalid_cvc", "Your card's security code (CVC) is invalid.");
   ("invalid_expiry_month", "Your card's expiration month is invalid.");
   ("invalid_expiry_year", "Your card's expiration year is invalid.");
   ("invalid_number", "Your card number is invalid.");
   ("processing_error", "An error occurred while processing your card. Please try again.");
   ("insufficient_funds", "Your card has insufficient funds.");
   ("lost_card", "Your card has been reported as lost. Please use a different payment method.");
   ("stolen_card", "Your card has been reported as stolen. Please use a different payment method.");
   ("authentication_required", "Your card requires authentication. Please complete the verification and try again.")]%string.
Definition stripeErrorMessage (code fallback : option jsstring) : jsstring :=
  match code ≫= λ c, snd <$> find (λ e, bool_decide (js (fst e) = c)) STRIPE_ERROR_MESSAGES with
  | Some m => js m
  | None => default (js "Unable to process your card. Please try again.") fallback
  end.

(** ** components/billing/BillingPayment.tsx *)

Module Payment.
(** [bootstrap] as the calls it makes and what it leaves.  [fresh] and [again] are the
    [customer_id] of the namespace as [refetchNamespace] resolves (it does not
    reject); [created] whether [createCustomer] succeeded. *)
Inductive call := RefetchNamespace | CreateCustomer.
Definition has_id (i : option jsstring) : bool := match i with Some s => truthy s | None => false end.
Definition bootstrap (fresh : option jsstring) (created : bool) : list call * option string :=
  if has_id fresh then ([RefetchNamespace], None)
  else if created then ([RefetchNamespace; CreateCustomer; RefetchNamespace], None)
  else ([RefetchNamespace; CreateCustomer], Some "Unable to initialize billing. Please try again."%string).
(** A customer is created exactly when the namespace has none, once, and the
    namespace is read again when that worked. *)
Lemma bootstrap_creates fresh created :
  (CreateCustomer ∈ (bootstrap fresh created).1 ↔ has_id fresh = false) ∧ (length (List.filter (λ c, match c with CreateCustomer => true | _ => false end) (bootstrap fresh created).1) <= 1)%nat
  ∧ ((bootstrap fresh created).2 = None ↔ has_id fresh = true ∨ created = true).
Proof.
  unfold bootstrap. destruct (has_id fresh), created; cbn; (split; [|split; [lia|naive_solver]]); rewrite !elem_of_cons, elem_of_nil; naive_solver.
Qed.

(** A saved card. *)
Record PaymentMethod := mkPm { pm_id : jsstring; pm_default : bool }.
Definition hasDefault (pms : list PaymentMethod) : bool := existsb pm_default pms.

(** What [createPaymentMethod] and [attach] may answer. *)
Inductive stripe_answer := StripeError (code message : option jsstring) | NoMethod | Method (id : jsstring) | StripeThrows (message : jsstring).
Inductive attach_answer := Attached | SdkError (body_error : option jsstring) | OtherError (message : jsstring) | NotAnError.
(** The outcome of [handleAddCard]: the card attached, the message, and whether the
    form is closed.  [ready]: Stripe is loaded and its card field is there. *)
Definition handleAddCard (ready : bool) (sa : stripe_answer) (aa : attach_answer) : option jsstring * option jsstring * bool :=
  if negb ready then (None, None, false)
  else match sa with
       | StripeError code message => (None, Some (stripeErrorMessage code message), false)
       | NoMethod => (None, Some (js "Unable to create payment method. Please try again."), false)
       | StripeThrows m => (None, Some m, false)
       | Method id =>
           match aa with
           | Attached => (Some id, None, true)
           | SdkError e => (Some id, Some (default (js "Failed to attach payment method.") e), false)
           | OtherError m => (Some id, Some m, false)
           | NotAnError => (Some id, Some (js "Failed to attach payment method."), false)
           end
       end.
(** The form closes only when the card was created by Stripe and attached; else it
    stays, with a message unless Stripe is not there yet. *)
Lemma add_card_closes ready sa aa : (handleAddCard ready sa aa).2 = true ↔ ready = true ∧ aa = Attached ∧ ∃ id, sa = Method id.
Proof. destruct ready, sa, aa; cbn; naive_solver. Qed.
Lemma add_card_reports ready sa aa : (handleAddCard ready sa aa).2 = false → ready = true → is_Some (handleAddCard ready sa aa).1.2.
Proof. destruct ready, sa, aa; cbn; naive_solver. Qed.

(** The list: a click reaches a request only through an enabled button. *)
Record Cards := mkCards { cards : list PaymentMethod; settingDefault : bool; detaching : bool; defaults_asked : list jsstring; detach_asked : list jsstring }.
Inductive cards_event := ClickDefault (i : nat) | ClickRemove (i : nat) | SetAnswered | DetachAnswered | Refetched (pms : list PaymentMethod).
Definition cards_step (s : Cards) (e : cards_event) : Cards :=
  match e with
  | ClickDefault i =>
      match cards s !! i with
      | Some pm => if pm_default pm || settingDefault s then s
                   else mkCards (cards s) true (detaching s) (defaults_asked s ++ [pm_id pm]) (detach_asked s)
      | None => s
      end
  | ClickRemove i =>
      match cards s !! i with
      | Some pm => if detaching s || pm_default pm then s
                   else mkCards (cards s) (settingDefault s) true (defaults_asked s) (detach_asked s ++ [pm_id pm])
      | None => s
      end
  | SetAnswered => mkCards (cards s) false (detaching s) (defaults_asked s) (detach_asked s)
  | DetachAnswered => mkCards (cards s) (settingDefault s) false (defaults_asked s) (detach_asked s)
  | Refetched pms => mkCards pms (settingDefault s) (detaching s) (defaults_asked s) (detach_asked s)
  end.
(** The card shown as default is not removed. *)
Lemma default_card_kept s e i : detach_asked (cards_step s e) = detach_asked s ++ [i] →
  ∃ n pm, e = ClickRemove n ∧ cards s !! n = Some pm ∧ pm_id pm = i ∧ pm_default pm = false.
Proof.
  assert (∀ l : list jsstring, l ≠ l ++ [i]) as Hl by (intros l E; apply (f_equal length) in E; rewrite length_app in E; cbn in E; lia).
  destruct e as [n|n| | |pms]; cbn; try (by intros E%Hl).
  - destruct (cards s !! n) as [pm|]; [|by intros E%Hl]. destruct (_ || _); by intros E%Hl.
  - destruct (cards s !! n) as [pm|] eqn:En; [|by intros E%Hl]. destruct (detaching s || pm_default pm) eqn:E; [by intros E'%Hl|].
    cbn. intros [= E']%app_inv_head. apply orb_false_iff in E as [_ E]. by exists n, pm.
Qed.
(** ... but with a request to make a card the default under way, that card can be: *)
Example remove_next_default :
  let s := fold_left cards_step [ClickDefault 1; ClickRemove 1] (mkCards [mkPm (js "a") true; mkPm (js "b") false] false false [] []) in
  defaults_asked s = [js "b"] ∧ detach_asked s = [js "b"].
Proof. vm_compute. done. Qed.
End Payment.

(** ** components/billing/BillingDialog.tsx *)

Module Wizard.
Definition TOTAL_STEPS : nat := 4.
(** [queued] is the step the transitions ask for, [shown] the one on the screen,
    whose buttons can be clicked.  [phases]: the [subscribe] calls under way, each
    creating the subscription or reading it back; [confirmed]: some answer said it
    is active or trialing. *)
Inductive phase := Creating | Reading.
#[export] Instance phase_eq : EqDecision phase. Proof. solve_decision. Defined.
Record Wizard_ := mkWizard {
  queued : nat; shown : nat; hasDefault : bool; error : option string; phases : list phase; created : nat; confirmed : bool; closed : bool; succeeded : bool;
}.
Definition start : Wizard_ := mkWizard 1 1 false None [] 0 false false false.
Definition isPending (s : Wizard_) : bool := bool_decide (Creating ∈ phases s).
Definition set_step (f : nat → nat) (e : option string) (s : Wizard_) : Wizard_ :=
  mkWizard (f (queued s)) (shown s) (hasDefault s) e (phases s) (created s) (confirmed s) (closed s) (succeeded s).
Definition goNext (s : Wizard_) : Wizard_ := set_step S (error s) s.
Definition goBack (s : Wizard_) : Wizard_ := set_step (λ n, Nat.max 1 (n - 1)) None s.
Definition subscribe (s : Wizard_) : Wizard_ :=
  mkWizard (queued s) (shown s) (hasDefault s) None (phases s ++ [Creating]) (S (created s)) (confirmed s) (closed s) (succeeded s).
Definition set_phases (ps : list phase) (e : option string) (s : Wizard_) : Wizard_ :=
  mkWizard (queued s) (shown s) (hasDefault s) e ps (created s) (confirmed s) (closed s) (succeeded s).
Definition not_activated (st : option BillingStatus) : string :=
  if bool_decide (st ∈ [Some incomplete; Some incomplete_expired])
  then "Your payment requires additional confirmation. Please check your email or contact support."
  else "Your subscription wasn't fully activated. Please try again.".
Definition subscribe_failed (status : option Z) : string :=
  if bool_decide (status = Some 402)
  then "You have unpaid invoices from a previous subscription. Open the billing portal to settle them before subscribing again."
  else "We couldn't complete your subscription. Please try again in a few moments.".
Definition on_created (i : nat) (r : option (option Z)) (s : Wizard_) : Wizard_ :=
  match phases s !! i with
  | Some Creating =>
      match r with
      | None => set_phases (<[i := Reading]> (phases s)) (error s) s
      | Some status => set_phases (delete i (phases s)) (Some (subscribe_failed status)) s
      end
  | _ => s
  end.
Definition on_read (i : nat) (st : option BillingStatus) (s : Wizard_) : Wizard_ :=
  match phases s !! i with
  | Some Reading =>
      if bool_decide (st ∈ [Some active; Some trialing])
      then mkWizard TOTAL_STEPS (shown s) (hasDefault s) (error s) (delete i (phases s)) (created s) true (closed s) (succeeded s)
      else set_phases (delete i (phases s)) (Some (not_activated st)) s
  | _ => s
  end.
(** [handleClose]: the parent is told of a success when it closes on the last step. *)
Definition handleClose (s : Wizard_) : Wizard_ :=
  mkWizard (queued s) (shown s) (hasDefault s) (error s) (phases s) (created s) (confirmed s) true (succeeded s || (shown s =? TOTAL_STEPS)%nat).
Definition canClose (s : Wizard_) : bool := negb (isPending s) && (shown s <? TOTAL_STEPS)%nat.
Definition reported (b : bool) (s : Wizard_) : Wizard_ :=
  mkWizard (queued s) (shown s) b (error s) (phases s) (created s) (confirmed s) (closed s) (succeeded s).
Definition commit (s : Wizard_) : Wizard_ :=
  mkWizard (queued s) (queued s) (hasDefault s) (error s) (phases s) (created s) (confirmed s) (closed s) (succeeded s).

Inductive event :=
  | Next | Back | Close | Escape | Done | Subscribe | Report (hasDefault : bool)
  | Created (i : nat) (r : option (option Z)) | Read (i : nat) (st : option BillingStatus).
(** A click acts through the buttons of the step shown. *)
Definition act (s : Wizard_) (e : event) : Wizard_ :=
  match e with
  | Next => if (shown s =? 1)%nat || ((shown s =? 2)%nat && hasDefault s) then goNext s else s
  | Back => if (1 <? shown s)%nat && (shown s <? TOTAL_STEPS)%nat && negb (isPending s) then goBack s else s
  | Close => if (shown s <? TOTAL_STEPS)%nat && negb (isPending s) then handleClose s else s
  | Escape => if canClose s then handleClose s else s
  | Done => if (shown s =? TOTAL_STEPS)%nat then handleClose s else s
  | Subscribe => if (shown s =? 3)%nat && negb (isPending s) then subscribe s else s
  | Report b => if (shown s =? 2)%nat then reported b s else s
  | Created i r => on_created i r s
  | Read i st => on_read i st s
  end.
(** A closed wizard is unmounted. *)
Definition step (s : Wizard_) (e : event) : Wizard_ := if closed s then s else act s e.
(** Each transition rendered before the next event. *)
Definition prompt_step (s : Wizard_) (e : event) : Wizard_ := commit (step s e).

Definition inv (s : Wizard_) : Prop :=
  queued s = shown s ∧ (1 <= shown s <= 4)%nat ∧ (shown s = 4%nat → confirmed s = true) ∧ (shown s = 3%nat → hasDefault s = true)
  ∧ (succeeded s = true → confirmed s = true) ∧ (confirmed s = true ∨ phases s ≠ [] → (1 <= created s)%nat).
#[local] Ltac fields :=
  unfold inv; cbn [queued shown hasDefault error phases created confirmed closed succeeded handleClose commit set_phases goNext goBack set_step subscribe reported].
Lemma inv_commit s : inv s → inv (commit s).
Proof. intros (H1 & H2 & H3 & H4 & H5 & H6). fields. rewrite H1. done. Qed.
Lemma inv_close s : inv s → inv (handleClose s).
Proof.
  intros (H1 & H2 & H3 & H4 & H5 & H6). fields. split_and!; try (done || lia).
  intros [?|?%Nat.eqb_eq]%orb_prop; auto.
Qed.
Lemma inv_phases ps e s : inv s → (ps ≠ [] → phases s ≠ []) → inv (set_phases ps e s).
Proof. intros (H1 & H2 & H3 & H4 & H5 & H6) Hp. fields. split_and!; try (done || lia). intros [?|?]; apply H6; auto. Qed.
Lemma delete_nonempty {A} i (l : list A) : delete i l ≠ [] → l ≠ [].
Proof. by destruct l. Qed.
Lemma inv_created i r s : inv s → inv (on_created i r s).
Proof.
  intros H. unfold on_created. destruct (phases s !! i) as [[|]|] eqn:E; [|done..]. destruct r; apply inv_phases; try done.
  - apply delete_nonempty.
  - intros _ Hn. by rewrite Hn in E.
Qed.
Lemma inv_read i st s : inv s → inv (commit (on_read i st s)).
Proof.
  intros H. unfold on_read. destruct (phases s !! i) as [[|]|] eqn:E; [by apply inv_commit| |by apply inv_commit].
  destruct (bool_decide _).
  - destruct H as (H1 & H2 & H3 & H4 & H5 & H6). assert (phases s ≠ []) by (intros Hn; by rewrite Hn in E).
    fields. unfold TOTAL_STEPS. split_and!; try (done || lia). intros _. auto.
  - apply inv_commit, inv_phases; [done|]. apply delete_nonempty.
Qed.
Lemma inv_next s : inv s → (shown s =? 1)%nat || ((shown s =? 2)%nat && hasDefault s) = true → inv (commit (goNext s)).
Proof.
  intros (H1 & H2 & H3 & H4 & H5 & H6) Hc. fields. rewrite H1. rewrite orb_true_iff, andb_true_iff, !Nat.eqb_eq in Hc.
  split_and!; try (done || lia). intros ?. destruct Hc as [?|[_ ?]]; [lia|done].
Qed.
Lemma inv_back s : inv s → (1 <? shown s)%nat && (shown s <? TOTAL_STEPS)%nat && negb (isPending s) = true → inv (commit (goBack s)).
Proof.
  intros (H1 & H2 & H3 & H4 & H5 & H6) [[Ha%Nat.ltb_lt Hb%Nat.ltb_lt]%andb_prop _]%andb_prop. unfold TOTAL_STEPS in Hb.
  fields. rewrite H1. split_and!; (done || lia).
Qed.
Lemma inv_prompt s e : inv s → inv (prompt_step s e).
Proof.
  intros H. unfold prompt_step, step. destruct (closed s); [by apply inv_commit|]. destruct e as [| | | | | |b|i r|i st]; cbn [act].
  - destruct (_ || _) eqn:E; [by apply inv_next|by apply inv_commit].
  - destruct (_ && _) eqn:E; [by apply inv_back|by apply inv_commit].
  - destruct (_ && _); by apply inv_commit; try apply inv_close.
  - destruct (canClose s); by apply inv_commit; try apply inv_close.
  - destruct (_ =? _)%nat; by apply inv_commit; try apply inv_close.
  - apply inv_commit. destruct (_ && _); [|done]. destruct H as (H1 & H2 & H3 & H4 & H5 & H6). fields. split_and!; (done || lia).
  - apply inv_commit. destruct (shown s =? 2)%nat eqn:E; [|done]. apply Nat.eqb_eq in E. destruct H as (H1 & H2 & H3 & H4 & H5 & H6).
    fields. split_and!; (done || lia).
  - by apply inv_commit, inv_created.
  - by apply inv_read.
Qed.

(** Whatever is clicked and whenever the answers come, as long as the screen keeps
    up with the clicks: the wizard shows one of its four steps; the step that
    confirms is reached only with a default payment method; the success step is
    shown, and the section told of a success, only when a subscription was asked for
    and the server has since said it is active or trialing. *)
Theorem billing_success_confirmed (es : list event) :
  let s := fold_left prompt_step es start in
  (1 <= shown s <= 4)%nat ∧ (shown s = 3%nat → hasDefault s = true)
  ∧ (shown s = 4%nat ∨ succeeded s = true → confirmed s = true ∧ (1 <= created s)%nat).
Proof.
  intros s. assert (inv s) as (_ & H2 & H3 & H4 & H5 & H6).
  { unfold s. assert (inv start) as H by (fields; naive_solver lia). revert H. generalize start.
    induction es as [|e es IH]; intros w H; [done|]. cbn. by apply IH, inv_prompt. }
  split; [done|]. split; [done|]. intros Hs. assert (confirmed s = true) as Hc by (destruct Hs; auto). auto.
Qed.
(** Two clicks on "Next" before the transition is rendered skip the confirmation:
    the success step is shown and reported without any request. *)
Example double_next :
  let s := fold_left step [Next; Next; Done] (reported true (commit (goNext start))) in
  queued s = 4%nat ∧ created s = 0%nat ∧ succeeded (step (commit s) Done) = true.
Proof. vm_compute. done. Qed.
(** While the new subscription is read back the button is enabled again: a second
    one can be asked for. *)
Example second_subscription :
  created (fold_left prompt_step [Next; Report true; Next; Subscribe; Created 0 None; Subscribe] start) = 2%nat.
Proof. vm_compute. done. Qed.
End Wizard.
