(* ===== verification/InstallKeyForms.v ===== *)
(** * The install key forms (pages/install-keys)

    CreateInstallKeyDrawer.tsx and EditInstallKeyDrawer.tsx, with the fields they are
    made of: ModeField.tsx, UsageLimitField.tsx, EphemeralField.tsx,
    ExpirationField.tsx and components/common/fields/StepperField.tsx.  One machine
    for both drawers, [target] being the key edited or nothing; InstallKeys.v has the
    checks.  Parameters: those of InstallKeys.v. *)

From S2P Require Import Prelude JsString JsRegex InstallKeys.
From S2P Require Recordings.

(** ** components/common/fields/StepperField.tsx *)

Module Stepper.
Record Stepper_ := mkStepper { value : Z; displayValue : jsstring }.
Definition atMin (min : Z) (s : Stepper_) : bool := value s <=? min.
Definition atMax (max : option Z) (s : Stepper_) : bool := match max with Some m => m <=? value s | None => false end.
Definition bump (delta : Z) (s : Stepper_) : Stepper_ := let next := value s + delta in mkStepper next (Z_to_string next).
Definition decrease (min : Z) (s : Stepper_) : Stepper_ := if atMin min s then s else bump (-1) s.
Definition increase (max : option Z) (s : Stepper_) : Stepper_ := if atMax max s then s else bump 1 s.
Definition in_range (min : Z) (max : option Z) (n : Z) : bool := (min <=? n) && match max with Some m => n <=? m | None => true end.
(** A value passed on comes back as the prop, and is shown. *)
Definition handleInput (min : Z) (max : option Z) (raw : jsstring) (s : Stepper_) : Stepper_ :=
  match parseInt raw with
  | Some n => if in_range min max n
              then mkStepper n (if n =? value s then raw else Z_to_string n)
              else mkStepper (value s) raw
  | None => mkStepper (value s) raw
  end.
Definition handleBlur (min : Z) (s : Stepper_) : Stepper_ :=
  if negb (truthy (displayValue s)) then mkStepper min (Z_to_string min) else mkStepper (value s) (Z_to_string (value s)).

Inductive stepper_event := Decrease | Increase | Input (raw : jsstring) | Blur.
Definition stepper_step (min : Z) (max : option Z) (s : Stepper_) (e : stepper_event) : Stepper_ :=
  match e with
  | Decrease => decrease min s | Increase => increase max s
  | Input raw => if forallb is_digit raw then handleInput min max raw s else s
  | Blur => handleBlur min s
  end.
Lemma stepper_range min max s e : (∀ m, max = Some m → min <= m) → in_range min max (value s) = true →
  in_range min max (value (stepper_step min max s e)) = true.
Proof.
  intros Hm H. destruct e as [| |raw|]; cbn.
  - unfold decrease, atMin. destruct (Z.leb_spec (value s) min); [done|]. cbn. unfold in_range in *. destruct max; lia.
  - unfold increase, atMax. destruct max as [m|]; unfold in_range in *; cbn; [|lia].
    destruct (Z.leb_spec m (value s)); [done|]. cbn. lia.
  - destruct (forallb _ _); [|done]. unfold handleInput. destruct (parseInt raw) as [n|]; [|done].
    destruct (in_range min max n) eqn:E; [exact E|exact H].
  - unfold handleBlur. destruct (negb _); cbn; [|done]. unfold in_range. destruct max as [m|]; [specialize (Hm m eq_refl)|]; lia.
Qed.
(** After a blur what is shown is the value. *)
Lemma stepper_shows min max es s : let s' := handleBlur min (fold_left (stepper_step min max) es s) in displayValue s' = Z_to_string (value s').
Proof. cbn zeta. unfold handleBlur. by destruct (negb _). Qed.
End Stepper.

(** ** UsageLimitField.tsx: 1 is single use, 0 unlimited *)

Record Usage := mkUsage { limit : Z; lastCount : Z }.
(** The field on a value from outside. *)
Definition usage_field (v : Z) : Usage := mkUsage v (if 2 <=? v then v else 5).
Definition set_usage (v : Z) (u : Usage) : Usage := mkUsage v (if 2 <=? v then v else lastCount u).
Definition goLimited (u : Usage) : Usage := set_usage (Z.max 2 (lastCount u)) u.
Inductive usage_event := SingleUse | Unlimited | Custom | Count (e : Stepper.stepper_event).
Definition usage_step (u : Usage) (e : usage_event) : Usage :=
  match e with
  | SingleUse => set_usage 1 u
  | Unlimited => set_usage 0 u
  | Custom => goLimited u
  | Count e => if (limit u =? 0) || (limit u =? 1) then u
               else set_usage (Stepper.value (Stepper.stepper_step 2 None (Stepper.mkStepper (limit u) (Z_to_string (limit u))) e)) u
  end.
Lemma usage_nonneg u e : 0 <= limit u → 0 <= limit (usage_step u e).
Proof.
  intros H. destruct e as [| | |e]; unfold usage_step, goLimited, set_usage; cbn [limit]; [lia..|].
  destruct (_ || _) eqn:E; [done|]. apply orb_false_iff in E as [E1%Z.eqb_neq E2%Z.eqb_neq].
  pose proof (Stepper.stepper_range 2 None (Stepper.mkStepper (limit u) (Z_to_string (limit u))) e ltac:(done)) as Hs.
  unfold Stepper.in_range in Hs. cbn [Stepper.value] in Hs. specialize (Hs ltac:(lia)). cbn [limit]. lia.
Qed.
(** Trying another kind of limit and coming back keeps the number. *)
Lemma custom_remembers u : 2 <= limit u → limit (goLimited (set_usage 0 (set_usage (limit u) u))) = limit u.
Proof.
  intros H. unfold goLimited, set_usage. cbn [limit lastCount]. rewrite (proj2 (Z.leb_le 2 (limit u))) by lia.
  change (2 <=? 0) with false. cbn iota. lia.
Qed.

(** ** ModeField.tsx *)

Inductive InstallKeyMode := automatic | manual | webhook | allowlist.
#[export] Instance InstallKeyMode_eq : EqDecision InstallKeyMode. Proof. solve_decision. Defined.
Definition mode_text (m : InstallKeyMode) : jsstring :=
  js (match m with automatic => "automatic" | manual => "manual" | webhook => "webhook" | allowlist => "allowlist" end).
Definition OPTIONS : list InstallKeyMode := [automatic; manual; webhook; allowlist].
(** The arrow keys of the radio group; [index] is the option that has the focus. *)
Definition onRadioKeyDown (forward : bool) (index : nat) : option InstallKeyMode :=
  OPTIONS !! ((index + (if forward then 1 else 3)) mod 4)%nat.
Lemma radio_keys index : (index < 4)%nat → is_Some (onRadioKeyDown true index) ∧
  (∀ m j, onRadioKeyDown true index = Some m → OPTIONS !! j = Some m → onRadioKeyDown false j = OPTIONS !! index).
Proof.
  intros H. do 4 (destruct index as [|index]; [split; [by eexists|]; intros m j [= <-] Hj;
    do 4 (destruct j as [|j]; [try discriminate Hj; reflexivity|]); discriminate Hj|]). lia.
Qed.

Record Panel := mkPanel { urlError : bool; timeoutStr : jsstring; windowStr : jsstring }.
Definition or_zero (n d : Z) : Z := if n =? 0 then d else n.
Definition mount_panel (timeout ttl : Z) : Panel :=
  mkPanel false (Z_to_string (or_zero timeout 5)) (Z_to_string (round_div (or_zero ttl 3600) 3600)).
Definition clamp (n lo hi : Z) : Z := Z.min hi (Z.max lo n).
(** [parseInt(raw, 10) || min] *)
Definition int_or (raw : jsstring) (d : Z) : Z := match parseInt raw with Some n => or_zero n d | None => d end.
(** [!raw || Number.isNaN(n) ? 0 : n] *)
Definition int_or_zero (raw : jsstring) : Z := if truthy raw then default 0 (parseInt raw) else 0.
Definition rangeError (raw : jsstring) (lo hi : Z) : bool :=
  negb (truthy raw) || match parseInt raw with Some n => outside lo hi n | None => true end.

(** ** The form *)

(** The rest of the API's key, beside what InstallKeys.v reads. *)
Record EditedKey := mkEdited {
  ek : InstallKey; ek_mode : InstallKeyMode; ek_webhook_url : option jsstring; ek_allowed_macs : option (list jsstring);
  ek_webhook_timeout : option Z; ek_webhook_callback_ttl : option Z; ek_ephemeral : option bool; ek_ephemeral_timeout : option Z;
  ek_tags : option (list jsstring);
}.
Record Form := mkForm {
  name : jsstring; mode : InstallKeyMode; webhookUrl : jsstring; webhookSecret : jsstring; allowedMacs : jsstring;
  timeout : Z; callbackTtl : Z; panel : Panel; usage : Usage; ephemeral : bool; ephemeralTimeout : Z;
  expiresIn : jsstring; expiryTouched : bool; isExpired : bool; tags : list jsstring;
  submitting : bool; nameError : jsstring; error : jsstring; generatedKey : jsstring;
}.
(** What the two mutations are sent. *)
Record WebhookPart := mkWebhook { wb_url : jsstring; wb_secret : option jsstring; wb_timeout : Z; wb_ttl : Z }.
Record KeyPart := mkKeyPart {
  kp_name : jsstring; kp_usage_limit : Z; kp_expiry : option (option jsnum); kp_tags : list jsstring; kp_ephemeral : bool; kp_ephemeral_timeout : option Z;
}.
Record Body := mkBody { b_mode : InstallKeyMode; b_webhook : option WebhookPart; b_macs : option (list jsstring); b_key : option KeyPart }.

Section Drawer.
Context (unicode_lower : N → jsstring) (URL_protocol : jsstring → option jsstring).
Context (Date_time : jsstring → option Z) (calendar_days : Z → Z → Z) (now : Z).
(** The key edited; nothing when one is created. *)
Context (target : option EditedKey).

Definition isSystem : bool := match target with Some k => isSystemKey (ek k) | None => false end.
Definition alreadyWebhook : bool := match target with Some k => bool_decide (ek_mode k = webhook) | None => false end.
Definition usedTimes : Z := match target with Some k => ik_used_times (ek k) | None => 0 end.

(** [useResetOnOpen]. *)
Definition opened : Form :=
  match target with
  | None => mkForm [] automatic [] [] [] 5 3600 (mount_panel 5 3600) (usage_field 1) false 10 (js "30") false false [] false [] [] []
  | Some k =>
      let t := or_zero (default 0 (ek_webhook_timeout k)) 5 in
      let w := or_zero (default 0 (ek_webhook_callback_ttl k)) 3600 in
      let '(days, expired) := getRemainingDays Date_time calendar_days now (ik_expires_at (ek k)) in
      mkForm (ik_name (ek k)) (ek_mode k) (default [] (ek_webhook_url k)) [] (join [10%N] (default [] (ek_allowed_macs k)))
        t w (mount_panel t w) (usage_field (ik_usage_limit (ek k))) (default false (ek_ephemeral k))
        (or_zero (default 0 (ek_ephemeral_timeout k)) 10) days false expired (default [] (ek_tags k)) false [] [] []
  end.

Definition macList (f : Form) : list jsstring := parseAllowedMacs unicode_lower (allowedMacs f).
Definition modeError (f : Form) : jsstring :=
  validateModeConfig URL_protocol (mode_text (mode f)) (webhookUrl f) (webhookSecret f) (macList f)
    (mkModeOptions alreadyWebhook (Some (timeout f)) (Some (callbackTtl f))).
(** Only the edit drawer has it; a new key has no uses. *)
Definition usageLimitError (f : Form) : bool := negb (limit (usage f) =? 0) && (limit (usage f) <? usedTimes).

Definition webhook_part (f : Form) : option WebhookPart :=
  if bool_decide (mode f = webhook) then
    Some (mkWebhook (trim (webhookUrl f))
            (match target with None => Some (webhookSecret f) | Some _ => if truthy (webhookSecret f) then Some (webhookSecret f) else None end)
            (timeout f) (callbackTtl f))
  else None.
Definition key_part (f : Form) : KeyPart :=
  mkKeyPart (trim (name f)) (limit (usage f))
    (match target with
     | None => Some <$> keyExpiryPayload (expiresIn f)
     | Some _ => if expiryTouched f then Some (keyExpiryUpdatePayload (expiresIn f)) else None
     end)
    (tags f) (ephemeral f) (if ephemeral f then Some (ephemeralTimeout f) else None).
Definition body (f : Form) : Body :=
  mkBody (mode f) (webhook_part f) (if bool_decide (mode f = allowlist) then Some (macList f) else None)
    (if isSystem then None else Some (key_part f)).

Definition put_state (b : bool) (ne e g : jsstring) (f : Form) : Form :=
  mkForm (name f) (mode f) (webhookUrl f) (webhookSecret f) (allowedMacs f) (timeout f) (callbackTtl f) (panel f) (usage f) (ephemeral f)
    (ephemeralTimeout f) (expiresIn f) (expiryTouched f) (isExpired f) (tags f) b ne e g.
(** [handleSubmit] up to the request. *)
Definition handleSubmit (f : Form) : Form * option Body :=
  let nameBad := validateKeyName (trim (name f)) in
  if negb isSystem && truthy nameBad then (put_state (submitting f) nameBad (error f) (generatedKey f) f, None)
  else if negb isSystem && usageLimitError f then (f, None)
  else if truthy (modeError f) then (put_state (submitting f) (nameError f) (modeError f) (generatedKey f) f, None)
  else (put_state true [] [] (generatedKey f) f, Some (body f)).
Definition save_disabled (f : Form) : bool :=
  submitting f || truthy (modeError f) || (negb isSystem && (truthy (nameError f) || usageLimitError f || negb (truthy (trim (name f))))).
(** The answer: the new key's text, or the status of an SDK error.  The edit drawer
    closes on success; what is typed after that is of no use to it. *)
Definition on_answer (r : jsstring + option Z) (f : Form) : Form :=
  match r with
  | inl key => put_state false (nameError f) (error f) (match target with None => key | Some _ => generatedKey f end) f
  | inr st =>
      if bool_decide (st = Some 409) then put_state false (js "A key with that name already exists.") (error f) (generatedKey f) f
      else match target with
           | None => if bool_decide (st = Some 400)
                     then put_state false (js "Name must be 3–20 characters: letters, numbers, - and _ only.") (error f) (generatedKey f) f
                     else put_state false (nameError f) (js "Couldn't create the Install Key. Please review the values and try again.") (generatedKey f) f
           | Some _ => put_state false (nameError f) (js "Couldn't save the changes. Please review the values and try again.") (generatedKey f) f
           end
  end.

(** *** What is typed and clicked *)

Definition put_name (v : jsstring) (f : Form) : Form :=
  mkForm v (mode f) (webhookUrl f) (webhookSecret f) (allowedMacs f) (timeout f) (callbackTtl f) (panel f) (usage f) (ephemeral f)
    (ephemeralTimeout f) (expiresIn f) (expiryTouched f) (isExpired f) (tags f) (submitting f)
    (if truthy (nameError f) then validateKeyName (trim v) else nameError f) (error f) (generatedKey f).
Definition handleNameBlur (f : Form) : Form :=
  if truthy (name f) then put_state (submitting f) (validateKeyName (trim (name f))) (error f) (generatedKey f) f else f.
(** Picking the webhook mode mounts its panel afresh. *)
Definition put_mode (m : InstallKeyMode) (f : Form) : Form :=
  mkForm (name f) m (webhookUrl f) (webhookSecret f) (allowedMacs f) (timeout f) (callbackTtl f)
    (if bool_decide (m = webhook) && negb (bool_decide (mode f = webhook)) then mount_panel (timeout f) (callbackTtl f) else panel f)
    (usage f) (ephemeral f) (ephemeralTimeout f) (expiresIn f) (expiryTouched f) (isExpired f) (tags f) (submitting f) (nameError f) (error f)
    (generatedKey f).
Definition put_webhook (url secret : jsstring) (t w : Z) (p : Panel) (f : Form) : Form :=
  mkForm (name f) (mode f) url secret (allowedMacs f) t w p (usage f) (ephemeral f) (ephemeralTimeout f) (expiresIn f) (expiryTouched f)
    (isExpired f) (tags f) (submitting f) (nameError f) (error f) (generatedKey f).
Definition put_rest (macs : jsstring) (u : Usage) (e : bool) (et : Z) (ts : list jsstring) (f : Form) : Form :=
  mkForm (name f) (mode f) (webhookUrl f) (webhookSecret f) macs (timeout f) (callbackTtl f) (panel f) u e et (expiresIn f) (expiryTouched f)
    (isExpired f) ts (submitting f) (nameError f) (error f) (generatedKey f).
Definition handleExpiresInChange (v : jsstring) (f : Form) : Form :=
  mkForm (name f) (mode f) (webhookUrl f) (webhookSecret f) (allowedMacs f) (timeout f) (callbackTtl f) (panel f) (usage f) (ephemeral f)
    (ephemeralTimeout f) v true false (tags f) (submitting f) (nameError f) (error f) (generatedKey f).

Definition handleUrlChange (v : jsstring) (f : Form) : Form :=
  let p := panel f in
  put_webhook v (webhookSecret f) (timeout f) (callbackTtl f)
    (mkPanel (urlError p && negb (isWebhookUrl URL_protocol v)) (timeoutStr p) (windowStr p)) f.
Definition handleUrlBlur (f : Form) : Form :=
  let p := panel f in
  put_webhook (webhookUrl f) (webhookSecret f) (timeout f) (callbackTtl f)
    (mkPanel (urlError p || (truthy (trim (webhookUrl f)) && negb (isWebhookUrl URL_protocol (webhookUrl f)))) (timeoutStr p) (windowStr p)) f.
Definition handleTimeoutChange (raw : jsstring) (f : Form) : Form :=
  put_webhook (webhookUrl f) (webhookSecret f) (int_or_zero raw) (callbackTtl f) (mkPanel (urlError (panel f)) raw (windowStr (panel f))) f.
Definition handleTimeoutBlur (f : Form) : Form :=
  let n := clamp (int_or (timeoutStr (panel f)) TIMEOUT_MIN) TIMEOUT_MIN TIMEOUT_MAX in
  put_webhook (webhookUrl f) (webhookSecret f) n (callbackTtl f) (mkPanel (urlError (panel f)) (Z_to_string n) (windowStr (panel f))) f.
Definition handleWindowChange (raw : jsstring) (f : Form) : Form :=
  put_webhook (webhookUrl f) (webhookSecret f) (timeout f) (int_or_zero raw * 3600) (mkPanel (urlError (panel f)) (timeoutStr (panel f)) raw) f.
Definition handleWindowBlur (f : Form) : Form :=
  let n := clamp (int_or (windowStr (panel f)) WINDOW_MIN_H) WINDOW_MIN_H WINDOW_MAX_H in
  put_webhook (webhookUrl f) (webhookSecret f) (timeout f) (n * 3600) (mkPanel (urlError (panel f)) (timeoutStr (panel f)) (Z_to_string n)) f.

(** ExpirationField's [pick], from a preset or a day of the calendar, and the button
    that turns "never" on and off ([days < 1], of a whole number). *)
Definition pick (d : option Z) (f : Form) : Form := handleExpiresInChange (match d with Some n => Z_to_string n | None => js "-1" end) f.
Definition never (f : Form) : bool := num_leb (Number (expiresIn f)) 0.

Inductive event :=
  | TypeName (v : jsstring) | BlurName | PickMode (m : InstallKeyMode) | TypeUrl (v : jsstring) | BlurUrl | TypeSecret (v : jsstring)
  | TypeTimeout (raw : jsstring) | BlurTimeout | TypeWindow (raw : jsstring) | BlurWindow | TypeMacs (v : jsstring)
  | UseLimit (e : usage_event) | TickEphemeral (b : bool) | EphemeralStep (up : bool) | PickDay (d : Z) | ToggleNever
  | PickTags (ts : list jsstring) | Save | Enter | Answer (r : jsstring + option Z).
Definition edit_step (f : Form) (e : event) : Form :=
  let hook f' := if bool_decide (mode f = webhook) then f' else f in
  match e with
  | TypeName v => if isSystem then f else put_name v f
  | BlurName => if isSystem then f else handleNameBlur f
  | PickMode m => put_mode m f
  | TypeUrl v => hook (handleUrlChange v f)
  | BlurUrl => hook (handleUrlBlur f)
  | TypeSecret v => hook (put_webhook (webhookUrl f) v (timeout f) (callbackTtl f) (panel f) f)
  | TypeTimeout raw => hook (if forallb is_digit raw then handleTimeoutChange raw f else f)
  | BlurTimeout => hook (handleTimeoutBlur f)
  | TypeWindow raw => hook (if forallb is_digit raw then handleWindowChange raw f else f)
  | BlurWindow => hook (handleWindowBlur f)
  | TypeMacs v => put_rest v (usage f) (ephemeral f) (ephemeralTimeout f) (tags f) f
  | UseLimit u => put_rest (allowedMacs f) (usage_step (usage f) u) (ephemeral f) (ephemeralTimeout f) (tags f) f
  | TickEphemeral b => put_rest (allowedMacs f) (usage f) b (ephemeralTimeout f) (tags f) f
  | EphemeralStep up =>
      if ephemeral f
      then put_rest (allowedMacs f) (usage f) (ephemeral f)
             (Stepper.value (Stepper.stepper_step 1 (Some 10) (Stepper.mkStepper (ephemeralTimeout f) []) (if up then Stepper.Increase else Stepper.Decrease)))
             (tags f) f
      else f
  | PickDay d => if 0 <? d then pick (Some d) f else f
  | ToggleNever => pick (if never f then Some 30 else None) f
  | PickTags ts => put_rest (allowedMacs f) (usage f) (ephemeral f) (ephemeralTimeout f) ts f
  | Save | Enter => f
  | Answer r => on_answer r f
  end.
(** The drawer with what it has sent. *)
Definition step (s : Form * list Body) (e : event) : Form * list Body :=
  let submit s := let '(f, b) := handleSubmit s.1 in (f, s.2 ++ option_list b) in
  match e with
  | Save => if truthy (generatedKey s.1) || save_disabled s.1 then s else submit s
  | Enter => if truthy (generatedKey s.1) then s else submit s
  | _ => (edit_step s.1 e, s.2)
  end.

(** *** What a request must be *)

(** The address parses as an http or https URL (a comment in helpers.ts asks for
    https; the check, and its message, take both); the window is within the
    24 hours of the API. *)
Definition webhook_ok (w : WebhookPart) : Prop :=
  URL_protocol (wb_url w) ∈ [Some (js "http:"); Some (js "https:")] ∧ (alreadyWebhook = true ∨ ∃ c r, wb_secret w = Some (c :: r)) ∧ 1 <= wb_timeout w <= 15
  ∧ 1800 <= wb_ttl w <= 86400.
Definition key_ok (k : KeyPart) : Prop :=
  (3 <= length (kp_name k) <= 20)%nat ∧ Forall (λ c, key_name_char c = true) (kp_name k)
  ∧ 0 <= kp_usage_limit k ∧ (kp_usage_limit k = 0 ∨ usedTimes <= kp_usage_limit k)
  ∧ (if kp_ephemeral k then ∃ t, kp_ephemeral_timeout k = Some t ∧ 1 <= t <= 10 else kp_ephemeral_timeout k = None).
Definition body_ok (b : Body) : Prop :=
  match b_webhook b with Some w => b_mode b = webhook ∧ webhook_ok w | None => b_mode b ≠ webhook end
  ∧ match b_macs b with Some l => b_mode b = allowlist ∧ l ≠ [] ∧ NoDup l | None => b_mode b ≠ allowlist end
  ∧ match b_key b with Some k => isSystem = false ∧ key_ok k | None => isSystem = true end.
(** The window is the key's own or a whole number of hours. *)
Definition form_ok (f : Form) : Prop :=
  0 <= limit (usage f) ∧ 1 <= ephemeralTimeout f <= 10 ∧ (callbackTtl f <= 86400 ∨ ∃ n, callbackTtl f = n * 3600).

Lemma falsy_nil s : truthy s = false → s = [].
Proof. by destruct s. Qed.
Lemma mode_error_webhook f : form_ok f → mode f = webhook → modeError f = [] → ∃ w, webhook_part f = Some w ∧ webhook_ok w.
Proof.
  intros (_ & _ & Hw) Hm He. unfold modeError in He. rewrite Hm in He. apply webhook_mode_exact in He as (H1 & H2 & H3 & H4).
  unfold webhook_part. rewrite bool_decide_eq_true_2 by done. eexists. split; [reflexivity|]. split; [|split; [|split; cbn; [auto|]]].
  - cbn. unfold isWebhookUrl in H1. destruct (URL_protocol (trim (webhookUrl f))) as [pr|]; [|done].
    rewrite orb_true_iff, !bool_decide_eq_true in H1. rewrite !elem_of_cons. naive_solver.
  - cbn in *. apply orb_prop in H2 as [Hs|Ha]; [|by left]. right. destruct (webhookSecret f) as [|c r]; [done|]. exists c, r. by destruct target.
  - specialize (H4 _ eq_refl). destruct Hw as [Hw|[n Hn]]; lia.
Qed.
Lemma mode_error_macs f : mode f = allowlist → modeError f = [] → macList f ≠ [] ∧ NoDup (macList f).
Proof.
  intros Hm He. split; [|apply parseAllowedMacs_spec]. intros Hn. unfold modeError in He. rewrite Hm, Hn in He. vm_compute in He. discriminate He.
Qed.
Lemma key_submit_ok f b : form_ok f → (handleSubmit f).2 = Some b → body_ok b.
Proof.
  intros Hf. pose proof Hf as (Hl & He & _). unfold handleSubmit. destruct (negb isSystem && truthy _) eqn:En; [done|].
  destruct (negb isSystem && usageLimitError f) eqn:Eu; [done|]. destruct (truthy (modeError f)) eqn:Em; [done|]. apply falsy_nil in Em.
  cbn. intros [= <-]. split; [|split]; cbn [body b_webhook b_macs b_key b_mode].
  - destruct (decide (mode f = webhook)) as [Hm|Hm].
    + destruct (mode_error_webhook f Hf Hm Em) as (w & -> & Hw). done.
    + unfold webhook_part. by rewrite bool_decide_eq_false_2.
  - destruct (decide (mode f = allowlist)) as [Hm|Hm].
    + rewrite bool_decide_eq_true_2 by done. split; [done|]. by apply mode_error_macs.
    + by rewrite bool_decide_eq_false_2.
  - destruct isSystem eqn:Es; [done|]. cbn [negb andb] in En, Eu. split; [done|]. apply falsy_nil, key_name_exact in En as [H1 H2].
    unfold key_ok. cbn. split; [done|]. split; [done|]. split; [done|]. split.
    + unfold usageLimitError in Eu. apply andb_false_iff in Eu as [Eu%negb_false_iff%Z.eqb_eq|Eu%Z.ltb_ge]; auto.
    + destruct (ephemeral f); [by eexists|done].
Qed.
Lemma submit_keeps f : form_ok f → form_ok (handleSubmit f).1.
Proof. intros H. unfold handleSubmit. repeat (case_match; [exact H|]). exact H. Qed.
Lemma edit_keeps f e : form_ok f → form_ok (edit_step f e).
Proof.
  intros Hf. pose proof Hf as (Hl & He & Hw). destruct e; cbn [edit_step]; unfold handleNameBlur, on_answer; try exact Hf;
    try (repeat case_match; exact Hf).
  - case_bool_decide; [|exact Hf]. destruct (forallb _ _); [|exact Hf]. split; [exact Hl|]. split; [exact He|]. right. by eexists.
  - case_bool_decide; [|exact Hf]. split; [exact Hl|]. split; [exact He|]. right. by eexists.
  - split; [|exact (conj He Hw)]. by apply usage_nonneg.
  - destruct (ephemeral f); [|exact Hf]. split; [exact Hl|]. split; [|exact Hw]. cbn [put_rest ephemeralTimeout].
    pose proof (Stepper.stepper_range 1 (Some 10) (Stepper.mkStepper (ephemeralTimeout f) []) (if up then Stepper.Increase else Stepper.Decrease)) as Hs.
    unfold Stepper.in_range in Hs. cbn [Stepper.value] in Hs. specialize (Hs ltac:(intros m [= <-]; lia) ltac:(lia)). lia.
Qed.
(** A key the API serves: a usage limit that is not negative, a removal timeout of
    one to ten minutes, where it has one, and a callback window of at most 24 hours
    (openapi/spec/components/schemas/installKeyCreate.yaml). *)
Definition target_ok : Prop :=
  match target with
  | Some k => 0 <= ik_usage_limit (ek k) ∧ (∀ t, ek_ephemeral_timeout k = Some t → t ≠ 0 → 1 <= t <= 10)
              ∧ ∀ t, ek_webhook_callback_ttl k = Some t → t <= 86400
  | None => True
  end.
Lemma opened_ok : target_ok → form_ok opened.
Proof.
  unfold target_ok, opened. destruct target as [k|]; [|intros _; vm_compute; intuition discriminate]. intros (Hl & Ht & Hw).
  destruct (getRemainingDays _ _ _ _) as [days expired]. split; [exact Hl|]. cbn [ephemeralTimeout callbackTtl]. split.
  2: { left. unfold or_zero. destruct (ek_webhook_callback_ttl k) as [t|]; cbn; [|done]. specialize (Hw t eq_refl). unfold id. case_match; lia. }
  unfold or_zero. destruct (ek_ephemeral_timeout k) as [t|]; cbn [from_option]; [|split; discriminate]. unfold id. destruct (Z.eqb_spec t 0); [lia|auto].
Qed.
Lemma drawer_sends es s : form_ok s.1 → Forall body_ok s.2 → Forall body_ok (fold_left step es s).2.
Proof.
  revert s. induction es as [|e es IH]; intros s Hf Hs; [done|]. cbn [fold_left].
  assert (form_ok (handleSubmit s.1).1 ∧ Forall body_ok (s.2 ++ option_list (handleSubmit s.1).2)) as [H1 H2].
  { split; [by apply submit_keeps|]. apply Forall_app. split; [done|]. destruct (handleSubmit s.1).2 as [b|] eqn:E; [|constructor].
    apply Forall_singleton. by eapply key_submit_ok. }
  assert (∀ e', form_ok (edit_step s.1 e', s.2).1) as He by (intros e'; by apply edit_keeps).
  destruct e; cbn [step]; try (by apply IH); destruct (handleSubmit s.1) as [f b]; cbn [fst snd] in H1, H2; case_match; by apply IH.
Qed.

(** C28: whatever is typed, picked and clicked in the drawer that creates or edits an
    install key (one the API serves), and whenever the answers come, each request it
    sends has a name of 3 to 20 letters, digits, "-" and "_"; the webhook's parts with
    the webhook mode only, its address an http or https URL, a secret unless one is
    stored, a reply timeout of 1 to 15 seconds and a callback window of half an hour
    to 24 hours; addresses with the allow list only, at least one and none twice; a
    usage limit no lower than the devices already enrolled; a removal timeout of 1 to
    10 minutes exactly for ephemeral devices; and for a system key nothing but its
    mode with the parts of that mode. *)
Theorem install_key_requests (es : list event) (Ht : target_ok) : Forall body_ok (fold_left step es (opened, [])).2.
Proof. apply drawer_sends; [by apply opened_ok|constructor]. Qed.
End Drawer.

(** A new key in webhook mode, its form refused twice, then sent. *)
Definition https_only (s : jsstring) : option jsstring := if startsWith s (js "https:") then Some (js "https:") else None.
Definition create_session : list event :=
  [TypeName (js "fleet"); PickMode webhook; TypeUrl (js "https://hook"); Enter; TypeSecret (js "s"); TypeTimeout (js "99"); Enter; BlurTimeout;
   UseLimit Custom; UseLimit (Count Stepper.Increase); TickEphemeral true; EphemeralStep false; Save; Save; Answer (inl (js "key"))].
Lemma install_key_requests_witness :
  let s := fold_left (step (λ c, [c]) https_only None) create_session (opened (λ _, None) (λ _ _, 0) 0 None, []) in
  s.2 = [mkBody webhook (Some (mkWebhook (js "https://hook") (Some (js "s")) 15 3600)) None
           (Some (mkKeyPart (js "fleet") 6 (Some (Some (Number (js "30")))) [] true (Some 9)))] ∧
  generatedKey s.1 = js "key" ∧ Forall (body_ok https_only None) s.2.
Proof.
  split; [vm_compute; reflexivity|]. split; [vm_compute; reflexivity|].
  apply (install_key_requests (λ c, [c]) https_only (λ _, None) (λ _ _, 0) 0 None create_session). exact I.
Defined.

(** ** InstallKeyEventReview.tsx *)

Module Review.
Inductive verdict := accepted | rejected.
#[export] Instance verdict_eq : EqDecision verdict. Proof. solve_decision. Defined.
(** The members of an event the cell reads; a status as the API writes it. *)
Record Event := mkEvent { decided_status : option jsstring; device_status : option jsstring; is_current : bool; device_uid : jsstring }.
Definition as_verdict (s : option jsstring) : option verdict :=
  if bool_decide (s = Some (js "accepted")) then Some accepted
  else if bool_decide (s = Some (js "rejected")) then Some rejected else None.
Definition resolveVerdict (e : Event) : option verdict :=
  match as_verdict (decided_status e) with
  | Some v => Some v
  | None => if is_current e then as_verdict (device_status e) else None
  end.
Inductive cell := PendingCell | SecondChance | Frozen (v : verdict) | Dash.
Definition cell_of (e : Event) : cell :=
  if is_current e && bool_decide (device_status e = Some (js "pending")) then PendingCell
  else if is_current e && bool_decide (device_status e = Some (js "rejected")) then SecondChance
  else match resolveVerdict e with Some v => Frozen v | None => Dash end.
Definition offers_accept (c : cell) : bool := match c with PendingCell | SecondChance => true | _ => false end.
Definition offers_reject (c : cell) : bool := match c with PendingCell => true | _ => false end.
(** Only the current enrolment of a device can be decided here: accepted while it is
    pending or rejected, rejected while it is pending; and a row that was decided
    never shows a dash. *)
Lemma review_controls e :
  (offers_accept (cell_of e) = true ↔ is_current e = true ∧ device_status e ∈ [Some (js "pending"); Some (js "rejected")])
  ∧ (offers_reject (cell_of e) = true ↔ is_current e = true ∧ device_status e = Some (js "pending"))
  ∧ (cell_of e = Dash → as_verdict (decided_status e) = None).
Proof.
  unfold cell_of, resolveVerdict. rewrite !elem_of_cons, elem_of_nil.
  destruct (is_current e); cbn [andb]; [|destruct (as_verdict (decided_status e)); cbn; naive_solver].
  case_bool_decide as Hp; [cbn; naive_solver|]. case_bool_decide as Hr; [cbn; naive_solver|].
  destruct (as_verdict (decided_status e)) as [v|]; cbn; [naive_solver|]. destruct (as_verdict (device_status e)); cbn; naive_solver.
Qed.
(** A row that is not the current one shows what was decided then. *)
Lemma old_row_frozen e v : is_current e = false → as_verdict (decided_status e) = Some v → cell_of e = Frozen v.
Proof. intros H E. unfold cell_of, resolveVerdict. by rewrite H, E. Qed.
End Review.

(** useToggleInstallKey.ts: what is asked for, and the message if that fails. *)
Definition toggle (k : InstallKey) : bool * jsstring :=
  let d := default false (ik_disabled k) in
  (negb d, js "Failed to " ++ js (if d then "enable" else "disable") ++ js " Install Key.").
