(* ===== verification/TeamPage.v ===== *)
(** * The team page (pages/team/MembersTab.tsx, AddMemberDrawer.tsx, EditMemberDrawer.tsx,
    utils/invitations.ts, components/common/RestrictedAction.tsx)

    Members and pending invitations in one table, what each row offers the signed-in
    user, and the requests of the dialogs.  Parameters: [Date_time] ([new
    Date(s).getTime()]) and [localeCompare]. *)

From S2P Require Import Prelude JsString JsJson JsRegex Validation Permission Schemas AccountForms.

(** The members of the API's types the page reads. *)
Record MemberView := mkMemberView {
  mv_id : option jsstring; mv_email : option jsstring; mv_role : option jsstring; mv_status : option jsstring; mv_added_at : option jsstring;
}.
Record Invitation := mkInvitation {
  inv_user_id : jsstring; inv_email : jsstring; inv_role : jsstring; inv_expires_at : option jsstring; inv_url : option jsstring;
}.
Record NamespaceMember := mkNsMember { nm_id : jsstring; nm_role : jsstring; nm_email : jsstring; nm_added_at : option jsstring }.
Definition memberToNamespaceMember (m : MemberView) : NamespaceMember :=
  mkNsMember (default [] (mv_id m)) (default (js "observer") (mv_role m)) (default [] (mv_email m)) (mv_added_at m).
Definition cancelErrorMessage (status : option Z) : string :=
  if bool_decide (status = Some 403) then "You don't have permission to cancel invitations."
  else if bool_decide (status = Some 404) then "This invitation no longer exists."
  else "Failed to cancel the invitation. Please try again.".

(** ** The rows *)

Inductive Row := InviteRow (i : Invitation) | MemberRow (m : MemberView).
Definition set_string (s : option jsstring) : bool := match s with Some x => truthy x | None => false end.
Section Rows.
Context (localeCompare : jsstring → jsstring → Z).
Definition email_le (a b : MemberView) : bool := localeCompare (default [] (mv_email a)) (default [] (mv_email b)) <=? 0.
(** A stable sort. *)
Fixpoint insert_member (m : MemberView) (l : list MemberView) : list MemberView :=
  match l with [] => [m] | x :: r => if email_le x m then x :: insert_member m r else m :: l end.
Definition sort_members (l : list MemberView) : list MemberView := fold_left (λ acc m, insert_member m acc) l [].
Definition members_of (views : list MemberView) : list MemberView :=
  sort_members (List.filter (λ m, set_string (mv_id m) && set_string (mv_email m)) views).
Definition rows (invitations : list Invitation) (views : list MemberView) : list Row :=
  map InviteRow invitations ++ map MemberRow (members_of views).
Definition row_key (r : Row) : jsstring :=
  match r with InviteRow i => js "invite-" ++ inv_user_id i | MemberRow m => js "member-" ++ default (js "undefined") (mv_id m) end.
Definition plural (n : nat) : jsstring := if (n =? 1)%nat then [] else js "s".
Definition summary (invitations : list Invitation) (views : list MemberView) : jsstring :=
  let n := length (members_of views) in
  join (js " · ") (List.filter truthy
    [Z_to_string (Z.of_nat n) ++ js " member" ++ plural n;
     if (0 <? length invitations)%nat then Z_to_string (Z.of_nat (length invitations)) ++ js " pending" else []]).

Lemma insert_perm m l : insert_member m l ≡ₚ m :: l.
Proof. induction l as [|x r IH]; cbn; [done|]. destruct (email_le x m); [|done]. rewrite IH. by constructor. Qed.
Lemma sort_perm l : sort_members l ≡ₚ l.
Proof.
  unfold sort_members. assert (∀ acc, fold_left (λ acc m, insert_member m acc) l acc ≡ₚ acc ++ l) as H; [|apply (H [])].
  induction l as [|m l IH]; intros acc; cbn; [by rewrite app_nil_r|]. rewrite IH, insert_perm. by rewrite <-Permutation_middle.
Qed.
Lemma members_complete views m : m ∈ members_of views ↔ m ∈ views ∧ set_string (mv_id m) = true ∧ set_string (mv_email m) = true.
Proof. unfold members_of. rewrite sort_perm, list_elem_of_In, filter_In, <-list_elem_of_In, andb_true_iff. done. Qed.
(** Every pending invitation and every member with an identity and an address is a
    row; and where the ids are distinct the rows' keys are. *)
Lemma rows_complete invitations views r : r ∈ rows invitations views ↔
  match r with
  | InviteRow i => i ∈ invitations
  | MemberRow m => m ∈ views ∧ set_string (mv_id m) = true ∧ set_string (mv_email m) = true
  end.
Proof.
  unfold rows. rewrite elem_of_app, !list_elem_of_fmap. destruct r as [i|m].
  - split; [intros [(x & [= <-] & ?)|(x & ? & _)]; done|]. intros. left. by exists i.
  - rewrite <-members_complete. split; [intros [(x & ? & _)|(x & [= <-] & ?)]; done|]. intros. right. by exists m.
Qed.
Lemma nodup_map_eq {A B} (f : A → B) (l : list A) x y : NoDup (map f l) → x ∈ l → y ∈ l → f x = f y → x = y.
Proof.
  induction l as [|a l IH]; [by intros _ ?%elem_of_nil|]. intros [Ha Hl]%NoDup_cons Hx Hy E.
  rewrite elem_of_cons in Hx, Hy. destruct Hx as [->|Hx], Hy as [->|Hy]; try done; [| |by apply IH].
  - destruct Ha. rewrite E. by apply (list_elem_of_fmap_2 f).
  - destruct Ha. rewrite <-E. by apply (list_elem_of_fmap_2 f).
Qed.
Lemma row_keys_nodup invitations views : NoDup (map inv_user_id invitations) → NoDup (map mv_id views) → NoDup (map row_key (rows invitations views)).
Proof.
  intros Hi Hv. unfold rows. rewrite map_app. apply NoDup_app. split; [|split].
  - rewrite map_map. change (NoDup ((λ i, row_key (InviteRow i)) <$> invitations)).
    rewrite (list_fmap_ext _ ((app (js "invite-")) ∘ inv_user_id)) by done. rewrite list_fmap_compose. apply NoDup_fmap_2; [|exact Hi].
    intros a b E. by apply app_inv_head in E.
  - intros k [r [-> [i [-> _]]%list_elem_of_fmap]]%list_elem_of_fmap [r' [E [m [-> _]]%list_elem_of_fmap]]%list_elem_of_fmap.
    cbn in E. vm_compute js in E. discriminate E.
  - rewrite map_map. apply (NoDup_fmap_2_strong (λ m, row_key (MemberRow m))).
    + intros x y (Hx & Hi1 & _)%members_complete (Hy & Hi2 & _)%members_complete E. apply (nodup_map_eq mv_id views); [done..|].
      cbn in E. apply app_inv_head in E. destruct (mv_id x), (mv_id y); cbn in *; congruence.
    + unfold members_of. rewrite sort_perm. apply NoDup_ListNoDup, List.NoDup_filter, NoDup_ListNoDup. by apply (NoDup_fmap_1 mv_id).
Qed.
End Rows.

(** ** utils/invitations.ts *)

Section Tab.
Context (Date_time : jsstring → option Z).
Definition isInvitationExpired (expiresAt : option jsstring) (now : Z) : bool :=
  match expiresAt with
  | Some s => if truthy s then match Date_time s with Some t => t <? now | None => false end else false
  | None => false
  end.

(** ** The tab: what the signed-in user may ask for *)

(** The role, address and rights of who is signed in. *)
Context (role : option jsstring) (currentUserEmail : option jsstring) (isSuperAdmin : bool).
Definition may (action : string) : bool := hasPermission role (js action).
(** [m.email === currentUserEmail || m.role === "owner"] gives no actions. *)
Definition manageable (m : MemberView) : bool := negb (bool_decide (mv_email m = currentUserEmail) || bool_decide (mv_role m = Some (js "owner"))).
Definition awaiting (m : MemberView) : bool := bool_decide (mv_status m = Some (js "awaiting_approval")).

(** A request, with the row it is about; a regenerated link with the time its
    button was clicked. *)
Inductive request :=
  | Approve (m : MemberView) | SetRole (m : MemberView) (r : jsstring) | Remove (m : MemberView)
  | CancelInvite (i : Invitation) | Regenerate (i : Invitation) (at_ : Z) | Invite (v : Team.Member).
Record Tab_ := mkTab {
  addOpen : bool; editTarget : option MemberView; removeTarget : option MemberView; cancelTarget : option Invitation;
  regenTarget : option (Invitation * Z); removeError : option jsstring; cancelError : option string; regenError : option string;
  generatedLink : jsstring; addedDirectly : bool; requests : list request;
}.
Definition tab : Tab_ := mkTab false None None None None None None None [] false [].
Definition put_targets (e r : option MemberView) (c : option Invitation) (g : option (Invitation * Z)) (s : Tab_) : Tab_ :=
  mkTab (addOpen s) e r c g (removeError s) (cancelError s) (regenError s) (generatedLink s) (addedDirectly s) (requests s).
Definition put_errors (re : option jsstring) (ce ge : option string) (s : Tab_) : Tab_ :=
  mkTab (addOpen s) (editTarget s) (removeTarget s) (cancelTarget s) (regenTarget s) re ce ge (generatedLink s) (addedDirectly s) (requests s).
Definition put_add (o : bool) (l : jsstring) (d : bool) (s : Tab_) : Tab_ :=
  mkTab o (editTarget s) (removeTarget s) (cancelTarget s) (regenTarget s) (removeError s) (cancelError s) (regenError s) l d (requests s).
Definition ask (r : request) (s : Tab_) : Tab_ :=
  mkTab (addOpen s) (editTarget s) (removeTarget s) (cancelTarget s) (regenTarget s) (removeError s) (cancelError s) (regenError s)
    (generatedLink s) (addedDirectly s) (requests s ++ [r]).

Inductive event :=
  | ClickApprove (m : MemberView) | ClickEdit (m : MemberView) | ClickRemove (m : MemberView)
  | ClickCancel (i : Invitation) | ClickRegenerate (i : Invitation) (now : Z) | ClickAdd
  | SaveRole (r : jsstring) | RoleSaved | CloseEdit
  | ConfirmRemove | RemoveAnswer (r : option (option jsstring)) | CloseRemove
  | ConfirmCancel | CancelAnswer (r : option (option Z)) | CloseCancel
  | ConfirmRegenerate | RegenerateAnswer (ok : bool) | CloseRegenerate
  | SubmitInvite (v : Team.Member) | InviteAnswer (link : option jsstring) | CloseAdd.
Definition step (s : Tab_) (e : event) : Tab_ :=
  match e with
  | ClickApprove m => if manageable m && awaiting m && isSuperAdmin && set_string (mv_id m) then ask (Approve m) s else s
  | ClickEdit m => if manageable m && may "namespace:editMember" then put_targets (Some m) (removeTarget s) (cancelTarget s) (regenTarget s) s else s
  | ClickRemove m => if manageable m && may "namespace:removeMember" then put_targets (editTarget s) (Some m) (cancelTarget s) (regenTarget s) s else s
  | ClickCancel i => if may "namespace:cancelInvitation" then put_targets (editTarget s) (removeTarget s) (Some i) (regenTarget s) s else s
  | ClickRegenerate i now =>
      if may "namespace:addMember" && isInvitationExpired (inv_expires_at i) now
      then put_targets (editTarget s) (removeTarget s) (cancelTarget s) (Some (i, now)) s else s
  | ClickAdd => if may "namespace:addMember" then put_add true (if addOpen s then generatedLink s else []) (addOpen s && addedDirectly s) s else s
  | SaveRole r => match editTarget s with Some m => if bool_decide (r ∈ Team.ROLES) then ask (SetRole m r) s else s | None => s end
  | RoleSaved | CloseEdit => put_targets None (removeTarget s) (cancelTarget s) (regenTarget s) s
  | ConfirmRemove =>
      match removeTarget s with
      | Some m => if set_string (mv_id m) then ask (Remove m) (put_errors None (cancelError s) (regenError s) s) else s
      | None => s
      end
  | RemoveAnswer None | CloseRemove => put_errors None (cancelError s) (regenError s) (put_targets (editTarget s) None (cancelTarget s) (regenTarget s) s)
  | RemoveAnswer (Some m) => put_errors (Some (default (js "Failed to remove member.") m)) (cancelError s) (regenError s) s
  | ConfirmCancel =>
      match cancelTarget s with Some i => ask (CancelInvite i) (put_errors (removeError s) None (regenError s) s) | None => s end
  | CancelAnswer None => put_targets (editTarget s) (removeTarget s) None (regenTarget s) s
  | CancelAnswer (Some st) => put_errors (removeError s) (Some (cancelErrorMessage st)) (regenError s) s
  | CloseCancel => put_errors (removeError s) None (regenError s) (put_targets (editTarget s) (removeTarget s) None (regenTarget s) s)
  | ConfirmRegenerate =>
      match regenTarget s with Some (i, t) => ask (Regenerate i t) (put_errors (removeError s) (cancelError s) None s) | None => s end
  | RegenerateAnswer true => put_targets (editTarget s) (removeTarget s) (cancelTarget s) None s
  | RegenerateAnswer false => put_errors (removeError s) (cancelError s) (Some "Failed to regenerate the link. Please try again."%string) s
  | CloseRegenerate => put_errors (removeError s) (cancelError s) None (put_targets (editTarget s) (removeTarget s) (cancelTarget s) None s)
  | SubmitInvite v =>
      if addOpen s && negb (truthy (generatedLink s) || addedDirectly s) && bool_decide (Team.addMemberSchema v = [])
      then ask (Invite (Team.buildAddMemberBody v)) s else s
  | InviteAnswer link =>
      let l := default [] link in
      if truthy l then put_add (addOpen s) l (addedDirectly s) s else put_add (addOpen s) (generatedLink s) true s
  | CloseAdd => put_add false (generatedLink s) (addedDirectly s) s
  end.

(** The invitation's errors. *)
Definition invite_error (status : option Z) : string * string :=
  if bool_decide (status = Some 400) then ("email", "Invalid email or role.")
  else if bool_decide (status = Some 403) then ("root", "You don't have permission to invite members.")
  else if bool_decide (status = Some 404) then ("email", "No account exists for this email.")
  else if bool_decide (status = Some 409) then ("email", "This user is already a member or has a pending invitation.")
  else ("root", "Failed to send invitation. Please try again.").

Definition allowed (action : string) : Prop :=
  ∃ r need, role = Some (role_name r) ∧ assoc (js action) permissions = Some need ∧ level need <= role_level r.
Definition other_member (m : MemberView) : Prop := mv_email m ≠ currentUserEmail ∧ mv_role m ≠ Some (js "owner").
Definition request_ok (r : request) : Prop :=
  match r with
  | Approve m => isSuperAdmin = true ∧ awaiting m = true ∧ other_member m
  | SetRole m r => allowed "namespace:editMember" ∧ other_member m ∧ r ∈ Team.ROLES
  | Remove m => allowed "namespace:removeMember" ∧ other_member m ∧ set_string (mv_id m) = true
  | CancelInvite _ => allowed "namespace:cancelInvitation"
  | Regenerate i t => allowed "namespace:addMember" ∧ isInvitationExpired (inv_expires_at i) t = true
  | Invite v => allowed "namespace:addMember" ∧ Team.m_role v ∈ Team.ROLES ∧ rmatch EMAIL_REGEX (Team.m_email v) = true
  end.
Definition inv (s : Tab_) : Prop :=
  Forall request_ok (requests s)
  ∧ (∀ m, editTarget s = Some m → other_member m ∧ allowed "namespace:editMember")
  ∧ (∀ m, removeTarget s = Some m → other_member m ∧ allowed "namespace:removeMember")
  ∧ (∀ i, cancelTarget s = Some i → allowed "namespace:cancelInvitation")
  ∧ (∀ i t, regenTarget s = Some (i, t) → allowed "namespace:addMember" ∧ isInvitationExpired (inv_expires_at i) t = true)
  ∧ (addOpen s = true → allowed "namespace:addMember").
Lemma manageable_other m : manageable m = true → other_member m.
Proof. unfold manageable. rewrite negb_true_iff, orb_false_iff, !bool_decide_eq_false. done. Qed.
Lemma may_allowed a : may a = true → allowed a.
Proof. apply hasPermission_true. Qed.
Lemma inv_ask r s : inv s → request_ok r → inv (ask r s).
Proof. intros (H1 & H) Hr. split; [|exact H]. apply Forall_app. split; [done|]. by apply Forall_singleton. Qed.
Lemma inv_errors a b c s : inv s → inv (put_errors a b c s).
Proof. done. Qed.
Lemma inv_targets (e r : option MemberView) c g s : inv s →
  (∀ m, e = Some m → other_member m ∧ allowed "namespace:editMember") → (∀ m, r = Some m → other_member m ∧ allowed "namespace:removeMember") →
  (∀ i, c = Some i → allowed "namespace:cancelInvitation") →
  (∀ i t, g = Some (i, t) → allowed "namespace:addMember" ∧ isInvitationExpired (inv_expires_at i) t = true) → inv (put_targets e r c g s).
Proof. intros (H1 & _ & _ & _ & _ & H6) ? ? ? ?. unfold inv. cbn. split_and!; auto. Qed.
Lemma invite_body_ok v : Team.addMemberSchema v = [] →
  Team.m_role (Team.buildAddMemberBody v) ∈ Team.ROLES ∧ rmatch EMAIL_REGEX (Team.m_email (Team.buildAddMemberBody v)) = true.
Proof.
  unfold Team.addMemberSchema, Team.role_issue. intros [H1%report_nil%unless_none H2%report_nil%unless_none%bool_decide_eq_true]%app_nil. done.
Qed.
Lemma inv_add o l d s : inv s → (o = true → allowed "namespace:addMember") → inv (put_add o l d s).
Proof. intros (H1 & H2 & H3 & H4 & H5 & _) Ho. unfold inv. cbn. split_and!; auto. Qed.
#[local] Ltac guarded := match goal with |- inv (if ?b then _ else _) => destruct b eqn:?; [|done] end.
Lemma tab_inv_step s e : inv s → inv (step s e).
Proof.
  intros H. pose proof H as (H1 & H2 & H3 & H4 & H5 & H6).
  destruct e as [m|m|m|i|i now| |r| | | |[r|]| | |[st|]| | |[|]| |v|link|]; cbn [step];
    try (apply inv_errors, inv_targets; done); try (apply inv_targets; done); try (by apply inv_errors).
  - guarded. apply andb_prop in Heqb as [[[Hm Ha]%andb_prop Hs]%andb_prop _]. apply inv_ask; [done|]. split; [done|]. split; [done|]. by apply manageable_other.
  - guarded. apply andb_prop in Heqb as [Hm Ha]. apply inv_targets; [done| |done..]. intros ? [= <-]. split; [by apply manageable_other|by apply may_allowed].
  - guarded. apply andb_prop in Heqb as [Hm Ha]. apply inv_targets; [done|done| |done..]. intros ? [= <-]. split; [by apply manageable_other|by apply may_allowed].
  - guarded. apply inv_targets; [done..| |done]. intros _ _. by apply may_allowed.
  - guarded. apply andb_prop in Heqb as [Hm Ha]. apply inv_targets; [done..|]. intros ? ? [= <- <-]. split; [by apply may_allowed|done].
  - guarded. apply inv_add; [done|]. intros _. by apply may_allowed.
  - destruct (editTarget s) as [m|] eqn:Et; [|done]. guarded. apply bool_decide_eq_true in Heqb. apply inv_ask; [done|]. destruct (H2 m eq_refl). done.
  - destruct (removeTarget s) as [m|] eqn:Et; [|done]. guarded. apply inv_ask; [by apply inv_errors|]. destruct (H3 m eq_refl). done.
  - destruct (cancelTarget s) as [i|] eqn:Et; [|done]. apply inv_ask; [by apply inv_errors|]. exact (H4 i eq_refl).
  - destruct (regenTarget s) as [[i t]|] eqn:Et; [|done]. apply inv_ask; [by apply inv_errors|]. exact (H5 i t eq_refl).
  - guarded. apply andb_prop in Heqb as [[Ho _]%andb_prop Hv%bool_decide_eq_true]. apply inv_ask; [done|]. split; [auto|]. by apply invite_body_ok.
  - destruct (truthy _); by apply inv_add.
  - by apply inv_add.
Qed.

(** C27: whatever is clicked and however the lists and answers change, each request of
    the team page is within the signed-in user's role: changing a role, removing a
    member, inviting and cancelling need the permission of that name; nobody changes
    or removes themselves or the owner, or makes anyone owner; only an instance
    administrator approves, and only an account that awaits it; an invitation goes to
    a well-formed address; a link is regenerated only once its invitation had
    expired. *)
Theorem team_requests (es : list event) : Forall request_ok (requests (fold_left step es tab)).
Proof.
  assert (inv (fold_left step es tab)) as [? _]; [|done].
  assert (inv tab) as H by (split; [constructor|]; cbn; split_and!; try done; discriminate). revert H. generalize tab.
  induction es as [|e es IH]; intros s H; [done|]. cbn. by apply IH, tab_inv_step.
Qed.
End Tab.

(** An administrator removes an operator, cannot remove the owner, and invites; the
    answer to an invitation comes after the drawer was closed and opened again, and
    its link is shown there. *)
Example team_run :
  let me := Some (js "me@x.io") in
  let m e r := mkMemberView (Some e) (Some e) (Some (js r)) None None in
  let s := fold_left (step (λ _, None) (Some (js "administrator")) me false)
    [ClickRemove (m (js "o@x.io") "owner"); ConfirmRemove; ClickRemove (m (js "a@x.io") "operator"); ConfirmRemove; RemoveAnswer None;
     ClickApprove (m (js "a@x.io") "operator"); ClickAdd; SubmitInvite (Team.mkMember (js " b@x.io ") (js "operator")); CloseAdd; ClickAdd;
     InviteAnswer (Some (js "link"))] tab in
  requests s = [Remove (m (js "a@x.io") "operator"); Invite (Team.mkMember (js "b@x.io") (js "operator"))]
  ∧ addOpen s = true ∧ generatedLink s = js "link".
Proof. vm_compute. done. Qed.
