(* ===== verification/ConsoleForms.v ===== *)
(** * Smaller forms and widgets of the console

    The command of pages/AddDevice.tsx; components/common/RenameSection.tsx;
    pages/devices/CustomFieldsSection.tsx; the upload of pages/admin/License.tsx and
    components/common/LicenseBanner.tsx; components/common/CreateNamespace.tsx;
    hooks/useSidebarLayout.ts.  Parameter: [unicode_lower]. *)

From S2P Require Import Prelude JsString JsRegex Validation.
From S2P Require InstallKeys TerminalErrors Routes.

(** ** pages/AddDevice.tsx *)

Module AddDevice.
Inductive Method := auto | docker | podman | snap | standalone | wsl | yocto | buildroot | freebsd.
#[export] Instance Method_eq : EqDecision Method. Proof. solve_decision. Defined.
Definition method_name (m : Method) : string :=
  match m with
  | auto => "auto" | docker => "docker" | podman => "podman" | snap => "snap" | standalone => "standalone" | wsl => "wsl" | yocto => "yocto"
  | buildroot => "buildroot" | freebsd => "freebsd"
  end.
Definition CODELESS_METHODS : list Method := [auto; docker; podman].
Inductive Audience := machine | fleet.
#[export] Instance Audience_eq : EqDecision Audience. Proof. solve_decision. Defined.
Definition METHODS : list Method := [auto; docker; standalone; podman; snap; wsl; yocto; buildroot; freebsd].
Definition INITIAL_VISIBLE : nat := 3.
Definition visibleMethods (showAll : bool) (m : Method) : list Method :=
  let base := take INITIAL_VISIBLE METHODS in
  if showAll then METHODS else if bool_decide (m ∈ base) then base else base ++ [m].
Definition usableKeys (ks : list InstallKeys.InstallKey) : list InstallKeys.InstallKey :=
  List.filter (λ k, negb (InstallKeys.isSystemKey k) && negb (default false (InstallKeys.ik_revoked k)) && negb (default false (InstallKeys.ik_disabled k))) ks.
Definition selectedKey (name : option jsstring) (ks : list InstallKeys.InstallKey) : option InstallKeys.InstallKey :=
  match List.find (λ k, bool_decide (Some (InstallKeys.ik_name k) = name)) (usableKeys ks) with
  | Some k => Some k
  | None => head (usableKeys ks)
  end.

Record Options := mkOptions { aud : Audience; method : Method; hostname : jsstring; identity : jsstring; keepaliveInterval : jsstring }.
Definition keepaliveIntervalError (o : Options) : bool :=
  truthy (keepaliveInterval o) && match parseInt (keepaliveInterval o) with Some n => n <? 1 | None => false end.
Definition codeless (o : Options) : bool := bool_decide (aud o = machine) && bool_decide (method o ∈ CODELESS_METHODS).
Definition set_var (name : string) (v : jsstring) : jsstring := js name ++ [61%N] ++ v.
(** [`${parseInt(...)}`], of what [trim] does not empty. *)
Definition int_text (s : jsstring) : jsstring := match parseInt s with Some n => Z_to_string n | None => js "NaN" end.
Definition or_dots (k : option jsstring) : jsstring := match k with Some s => if truthy s then s else js "…" | None => js "…" end.
Definition variables (tenant : jsstring) (revealedKey : option jsstring) (o : Options) : list jsstring :=
  (if bool_decide (method o = auto) then [] else [set_var "INSTALL_METHOD" (js (method_name (method o)))])
  ++ (if bool_decide (aud o = fleet) then [set_var "INSTALL_KEY" (or_dots revealedKey)]
      else if codeless o then [] else [set_var "TENANT_ID" tenant])
  ++ (if truthy (trim (hostname o)) then [set_var "PREFERRED_HOSTNAME" (trim (hostname o))] else [])
  ++ (if truthy (trim (identity o)) then [set_var "PREFERRED_IDENTITY" (trim (identity o))] else [])
  ++ (if truthy (trim (keepaliveInterval o)) && negb (keepaliveIntervalError o) then [set_var "KEEPALIVE_INTERVAL" (int_text (keepaliveInterval o))] else []).
Definition buildCommand (origin tenant : jsstring) (revealedKey : option jsstring) (o : Options) : jsstring :=
  join [32%N] ([js "curl -sSf"; origin ++ js "/install.sh"; js "|"] ++ variables tenant revealedKey o ++ [js "sh"]).

(** The method chosen is always on the screen. *)
Lemma method_visible showAll m : m ∈ visibleMethods showAll m.
Proof.
  unfold visibleMethods. destruct showAll; [|case_bool_decide; [done|]; apply elem_of_app; right; by apply list_elem_of_singleton].
  destruct m; vm_compute; repeat ((left; reflexivity) || right).
Qed.
(** The key baked in is one that is shown, neither a system key nor revoked or disabled. *)
Lemma selected_usable name ks k : selectedKey name ks = Some k →
  k ∈ ks ∧ InstallKeys.isSystemKey k = false ∧ default false (InstallKeys.ik_revoked k) = false ∧ default false (InstallKeys.ik_disabled k) = false.
Proof.
  assert (∀ x, x ∈ usableKeys ks → x ∈ ks ∧ InstallKeys.isSystemKey x = false ∧ default false (InstallKeys.ik_revoked x) = false ∧ default false (InstallKeys.ik_disabled x) = false) as H.
  { intros x [Hx Hf]%list_elem_of_In%filter_In. apply list_elem_of_In in Hx. rewrite !andb_true_iff, !negb_true_iff in Hf. tauto. }
  unfold selectedKey. destruct (List.find _ _) as [x|] eqn:E; intros Hk.
  - injection Hk as <-. apply find_some in E as [E _]. apply H. by apply list_elem_of_In.
  - apply H. destruct (usableKeys ks); [done|]. injection Hk as <-. left.
Qed.

(** The command as the shell reads it, a word at a time. *)
Definition spaceless (s : jsstring) : bool := forallb (λ c, negb (c =? 32)%N) s.
Lemma spaceless_in s : spaceless s = true → 32%N ∉ s.
Proof. unfold spaceless. rewrite forallb_forall. intros H Hi%list_elem_of_In. by apply H in Hi. Qed.
Lemma split_spaces l : l ≠ [] → Forall (λ s, spaceless s = true) l → JsString.split (join [32%N] l) 32%N = l.
Proof. intros Hne Hl. apply split_join; [done|]. eapply Forall_impl; [exact Hl|]. apply spaceless_in. Qed.
Lemma set_var_space name v : spaceless (js name) = true → spaceless v = true → spaceless (set_var name v) = true.
Proof. intros H1 H2. unfold spaceless, set_var in *. by rewrite !forallb_app, H1, H2. Qed.
Lemma int_text_space s : spaceless (int_text s) = true.
Proof.
  unfold int_text. destruct (parseInt s) as [n|]; [|vm_compute; reflexivity]. unfold spaceless. apply forallb_forall. intros c Hc%list_elem_of_In.
  pose proof (Z_to_string_no_ws n) as H. rewrite Forall_forall in H. specialize (H c Hc). apply negb_true_iff, N.eqb_neq. by intros ->.
Qed.
Definition clean (tenant : jsstring) (key : option jsstring) (o : Options) : bool :=
  spaceless tenant && spaceless (or_dots key) && spaceless (trim (hostname o)) && spaceless (trim (identity o)).
Lemma variables_space tenant key o : clean tenant key o = true → Forall (λ s, spaceless s = true) (variables tenant key o).
Proof.
  unfold clean. rewrite !andb_true_iff. intros [[[H1 H2] H3] H4]. unfold variables.
  assert (∀ (b : bool) x, spaceless x = true → Forall (λ s, spaceless s = true) (if b then [x] else [])) as Hb by (by intros [] x Hx; repeat constructor).
  apply Forall_app. split. { destruct (bool_decide _); [constructor|]. apply Forall_singleton, set_var_space; [vm_compute; reflexivity|]. by destruct (method o). }
  apply Forall_app. split.
  { destruct (bool_decide _); [apply Forall_singleton, set_var_space; [vm_compute; reflexivity|done]|].
    destruct (codeless o); [constructor|]. apply Forall_singleton, set_var_space; [vm_compute; reflexivity|done]. }
  apply Forall_app. split; [apply Hb, set_var_space; [vm_compute; reflexivity|done]|].
  apply Forall_app. split; [apply Hb, set_var_space; [vm_compute; reflexivity|done]|].
  apply Hb, set_var_space; [vm_compute; reflexivity|apply int_text_space].
Qed.
(** Where no value has a space in it, the shell reads the command as it was meant:
    fetch the script, set each variable, run it. *)
Lemma command_words origin tenant key o : spaceless origin = true → clean tenant key o = true →
  JsString.split (buildCommand origin tenant key o) 32%N =
  [js "curl"; js "-sSf"; origin ++ js "/install.sh"; js "|"] ++ variables tenant key o ++ [js "sh"].
Proof.
  intros Ho Hc. change (buildCommand origin tenant key o) with (js "curl" ++ 32%N :: join [32%N] ([js "-sSf"; origin ++ js "/install.sh"; js "|"] ++ variables tenant key o ++ [js "sh"])).
  rewrite split_sep by (apply spaceless_in; vm_compute; reflexivity). rewrite split_spaces; [done|done|].
  apply Forall_app. split; [|apply Forall_app; split; [by apply variables_space|]]; repeat constructor.
  unfold spaceless in *. by rewrite forallb_app, Ho.
Qed.
(** A command carries the install key of a fleet, or the tenant of a machine that
    cannot pair by code, and never both. *)
Lemma command_credential tenant key o :
  let creds := List.filter (λ v, startsWith v (js "INSTALL_KEY=") || startsWith v (js "TENANT_ID=")) (variables tenant key o) in
  creds = match aud o with
          | fleet => [set_var "INSTALL_KEY" (or_dots key)]
          | machine => if bool_decide (method o ∈ CODELESS_METHODS) then [] else [set_var "TENANT_ID" tenant]
          end.
Proof.
  cbn zeta. unfold variables, codeless. rewrite !List.filter_app. set (p := λ v, _ || _).
  assert (∀ (b : bool) n v, p (set_var n v) = false → List.filter p (if b then [set_var n v] else []) = []) as Hb by (intros [] n v E; cbn [List.filter]; by rewrite ?E).
  rewrite (Hb _ "PREFERRED_HOSTNAME"%string), (Hb _ "PREFERRED_IDENTITY"%string), (Hb _ "KEEPALIVE_INTERVAL"%string) by (unfold p, set_var; vm_compute; reflexivity).
  rewrite !app_nil_r.
  assert (List.filter p (if bool_decide (method o = auto) then [] else [set_var "INSTALL_METHOD" (js (method_name (method o)))]) = []) as ->.
  { destruct (bool_decide _); [done|]. by destruct (method o). }
  destruct (aud o).
  - rewrite (bool_decide_eq_false_2 (machine = fleet)), (bool_decide_eq_true_2 (machine = machine)) by done. cbn [andb app]. by destruct (bool_decide _).
  - by rewrite (bool_decide_eq_true_2 (fleet = fleet)).
Qed.
(** A preferred name with a space in it is not quoted: the shell takes its second
    word for the command to run. *)
Example unquoted_hostname : JsString.split (buildCommand (js "http://h") (js "t") None (mkOptions machine auto (js "my host") [] [])) 32%N =
  map js ["curl"; "-sSf"; "http://h/install.sh"; "|"; "PREFERRED_HOSTNAME=my"; "host"; "sh"].
Proof. vm_compute. reflexivity. Qed.
(** Keys that have expired or are used up are offered too. *)
Example expired_key_offered : let k := InstallKeys.mkInstallKey (js "i") (js "k") (js "user") (Some (js "2020")) None None 1 1 in
  selectedKey None [k] = Some k ∧ InstallKeys.inert (InstallKeys.getKeyBlockers (λ _, Some 0) 1 k) = true.
Proof. vm_compute. done. Qed.
End AddDevice.

(** ** components/common/RenameSection.tsx *)

Module Rename.
Record Rename_ := mkRename { editing : bool; text : jsstring; saving : bool; error : option jsstring; asked : list jsstring }.
Definition idle (currentName : jsstring) : Rename_ := mkRename false currentName false None [].
Section Entity.
Context (entityLabel : jsstring) (canRename : bool).
Definition rename_error (status : option Z) : jsstring :=
  if bool_decide (status = Some 400) then js "Invalid " ++ entityLabel ++ js " name."
  else if bool_decide (status = Some 409) then js "A " ++ entityLabel ++ js " with that name already exists."
  else js "Failed to rename " ++ entityLabel ++ js ".".
(** [currentName] is the entity's name as the page shows it at the time. *)
Inductive rename_event := Edit (currentName : jsstring) | Type_ (v : jsstring) | Save (currentName : jsstring) | Cancel | Answer (r : option (option Z)).
Definition handleSave (currentName : jsstring) (s : Rename_) : Rename_ :=
  if saving s then s
  else if negb (truthy (trim (text s))) || bool_decide (trim (text s) = currentName) then mkRename false (text s) (saving s) (error s) (asked s)
  else mkRename (editing s) (text s) true None (asked s ++ [trim (text s)]).
Definition rename_step (s : Rename_) (e : rename_event) : Rename_ :=
  match e with
  | Edit n => if canRename && negb (editing s) then mkRename true n (saving s) (error s) (asked s) else s
  | Type_ v => if editing s then mkRename true v (saving s) (error s) (asked s) else s
  | Save n => if editing s then handleSave n s else s
  | Cancel => mkRename false (text s) (saving s) (error s) (asked s)
  | Answer r =>
      if saving s then
        match r with
        | None => mkRename false (text s) false (error s) (asked s)
        | Some st => mkRename (editing s) (text s) false (Some (rename_error st)) (asked s)
        end
      else s
  end.
(** Only trimmed, non-empty names are asked for, and none while another is. *)
Lemma rename_asks s e : let s' := rename_step s e in asked s' = asked s ∨
  ∃ n, e = Save n ∧ saving s = false ∧ saving s' = true ∧ asked s' = asked s ++ [trim (text s)] ∧ trim (text s) ≠ [] ∧ trim (text s) ≠ n.
Proof.
  destruct e as [n|v|n| |r]; cbn [rename_step]; try (by left); try (case_match; by left).
  - destruct (editing s); [|by left]. unfold handleSave. destruct (saving s) eqn:Es; [by left|].
    destruct (negb _ || _) eqn:E; [by left|]. right. apply orb_false_iff in E as [E1%negb_false_iff E2%bool_decide_eq_false]. exists n. split; [done|].
    split; [done|]. split; [done|]. split; [done|]. split; [|done]. intros Hn. by rewrite Hn in E1.
  - left. destruct (saving s); [|done]. by destruct r.
Qed.
End Entity.
(** A refused name's message is still there when the field is opened again. *)
Example stale_rename_error :
  let s := fold_left (rename_step (js "device") true) [Edit (js "a"); Type_ (js "b"); Save (js "a"); Answer (Some (Some 409)); Cancel; Edit (js "a")] (idle (js "a")) in
  editing s = true ∧ error s = Some (js "A device with that name already exists.").
Proof. vm_compute. done. Qed.
End Rename.

(** ** pages/devices/CustomFieldsSection.tsx *)

Module CustomFields.
Definition own (fields : list (jsstring * jsstring)) : list jsstring := map fst fields.
(** [key in customFields] finds what every object inherits too. *)
Definition js_in (key : jsstring) (fields : list (jsstring * jsstring)) : bool := bool_decide (key ∈ own fields ++ TerminalErrors.inherited).
Record Fields := mkFields { keyInput : jsstring; valueInput : jsstring; adding : bool; error : option string; sets : list (jsstring * jsstring) }.
Definition handleAdd (fields : list (jsstring * jsstring)) (s : Fields) : Fields :=
  let key := trim (keyInput s) in let value := trim (valueInput s) in
  if negb (truthy key) || negb (truthy value) then s
  else if js_in key fields then mkFields (keyInput s) (valueInput s) (adding s) (Some "This key already exists."%string) (sets s)
  else mkFields (keyInput s) (valueInput s) true None (sets s ++ [(key, value)]).
Definition add_answer (ok : bool) (s : Fields) : Fields :=
  if ok then mkFields [] [] false (error s) (sets s)
  else mkFields (keyInput s) (valueInput s) false (Some "Failed to add custom field."%string) (sets s).
(** A field is set only with a key and a value, and never over one that is shown. *)
Lemma custom_field_new fields s : sets (handleAdd fields s) ≠ sets s →
  sets (handleAdd fields s) = sets s ++ [(trim (keyInput s), trim (valueInput s))] ∧ trim (keyInput s) ≠ [] ∧ trim (valueInput s) ≠ [] ∧ trim (keyInput s) ∉ own fields.
Proof.
  unfold handleAdd. destruct (negb _ || negb _) eqn:E; [done|]. apply orb_false_iff in E as [E1%negb_false_iff E2%negb_false_iff].
  destruct (js_in _ _) eqn:Ej; [done|]. intros _. split; [done|]. apply bool_decide_eq_false in Ej.
  split; [by intros Hn; rewrite Hn in E1|]. split; [by intros Hn; rewrite Hn in E2|]. intros Hi. apply Ej, elem_of_app. by left.
Qed.
(** The name of an inherited property cannot be used, though no field has it. *)
Example inherited_field : let s := handleAdd [] (mkFields (js "constructor") (js "x") false None []) in
  error s = Some "This key already exists."%string ∧ sets s = [].
Proof. vm_compute. done. Qed.
End CustomFields.

(** ** License: pages/admin/License.tsx and components/common/LicenseBanner.tsx *)

Module Upload.
Section Files.
Context (unicode_lower : N → jsstring).
Record Upload_ := mkUpload {
  file : option (jsstring * Z); validationError : option jsstring; feedback : option bool; isDragging : bool; dragCounter : Z;
  pending : bool; uploads : list (jsstring * Z);
}.
Definition empty : Upload_ := mkUpload None None None false 0 false [].
Definition selectFile (f : jsstring * Z) (s : Upload_) : Upload_ :=
  mkUpload (Some f) (Routes.License.validateLicenseFile unicode_lower f.1 f.2) None (isDragging s) (dragCounter s) (pending s) (uploads s).
Definition handleDrop (f : option (jsstring * Z)) (s : Upload_) : Upload_ :=
  let s := mkUpload (file s) (validationError s) (feedback s) false 0 (pending s) (uploads s) in
  match f with Some f => selectFile f s | None => s end.
Definition clearFile (s : Upload_) : Upload_ := mkUpload None None (feedback s) (isDragging s) (dragCounter s) (pending s) (uploads s).
Definition canUpload (s : Upload_) : bool := bool_decide (is_Some (file s)) && bool_decide (validationError s = None) && negb (pending s).
Definition handleUpload (s : Upload_) : Upload_ :=
  match file s, validationError s with
  | Some f, None => mkUpload (file s) (validationError s) None (isDragging s) (dragCounter s) true (uploads s ++ [f])
  | _, _ => s
  end.
Definition set_drag (d : bool) (n : Z) (s : Upload_) : Upload_ := mkUpload (file s) (validationError s) (feedback s) d n (pending s) (uploads s).
Definition answered (ok : bool) (s : Upload_) : Upload_ :=
  if pending s then
    let s := mkUpload (file s) (validationError s) (Some ok) (isDragging s) (dragCounter s) false (uploads s) in if ok then clearFile s else s
  else s.
Inductive upload_event := Choose (f : jsstring * Z) | Drop (f : option (jsstring * Z)) | DragEnter | DragLeave | Clear | Send | Answer (ok : bool).
Definition upload_step (s : Upload_) (e : upload_event) : Upload_ :=
  match e with
  | Choose f => selectFile f s
  | Drop f => handleDrop f s
  | DragEnter => set_drag true (dragCounter s + 1) s
  | DragLeave => set_drag (isDragging s && negb (dragCounter s - 1 =? 0)) (dragCounter s - 1) s
  | Clear => clearFile s
  | Send => if canUpload s then handleUpload s else s
  | Answer ok => answered ok s
  end.
Definition license_ok (f : jsstring * Z) : Prop := Routes.License.validateLicenseFile unicode_lower f.1 f.2 = None.
Definition inv (s : Upload_) : Prop :=
  Forall license_ok (uploads s) ∧ match file s with Some f => validationError s = Routes.License.validateLicenseFile unicode_lower f.1 f.2 | None => validationError s = None end.
(** Only files of the right kind and size are uploaded. *)
Lemma uploads_valid es : Forall license_ok (uploads (fold_left upload_step es empty)).
Proof.
  assert (inv (fold_left upload_step es empty)) as [? _]; [|done]. assert (inv empty) as H by (split; [constructor|done]). revert H. generalize empty.
  induction es as [|e es IH]; intros s H; [done|]. cbn. apply IH. pose proof H as [H1 H2]. destruct e as [f|[f|]| | | | |ok]; cbn; try done.
  - destruct (canUpload s); [|done]. unfold handleUpload. destruct (file s) as [f|] eqn:Ef; [|exact H].
    destruct (validationError s) eqn:Ev; [exact H|]. split; cbn; [|exact H2]. apply Forall_app. split; [done|].
    by apply Forall_singleton.
  - unfold answered. destruct (pending s); [|done]. by destruct ok.
Qed.
(** A file chosen while another is uploaded is dropped when the answer comes. *)
Example chosen_file_lost f g : file (answered true (selectFile g (handleUpload (selectFile f empty)))) = None ∨
  Routes.License.validateLicenseFile unicode_lower f.1 f.2 ≠ None.
Proof.
  destruct (Routes.License.validateLicenseFile unicode_lower f.1 f.2) as [m|] eqn:E; [by right|left].
  unfold handleUpload. cbn [selectFile file validationError]. rewrite E. done.
Qed.
End Files.
End Upload.

Module Banner.
Record License_ := mkLicense_ { expired : bool; about_to_expire : bool; grace_period : bool; expires_at : Z }.
(** The query's data: undefined, null, or a license. *)
Inductive Data := Undefined | NoLicense | Loaded (l : License_).
Definition noLicense (d : Data) : bool := match d with NoLicense => true | _ => false end.
Definition is_expired (d : Data) : bool := match d with Loaded l => expired l && negb (grace_period l) | _ => false end.
Definition gracePeriod (d : Data) : bool := match d with Loaded l => expired l && grace_period l | _ => false end.
Definition aboutToExpire (d : Data) : bool := match d with Loaded l => negb (expired l) && about_to_expire l | _ => false end.
(** [Math.ceil((expires_at - dataUpdatedAt / 1000) / 86400)], in milliseconds. *)
Definition DAY_MS : Z := 86400000.
Definition daysUntilExpiration (d : Data) (dataUpdatedAt : Z) : option Z :=
  match d with
  | Loaded l => if expires_at l <=? 0 then None
                else let days := - ((- (expires_at l * 1000 - dataUpdatedAt)) / DAY_MS) in if 0 <? days then Some days else None
  | _ => None
  end.
Definition visible (isLoading isError : bool) (d : Data) : bool :=
  negb isLoading && negb isError && (noLicense d || is_expired d || gracePeriod d || aboutToExpire d).
Definition severe (d : Data) : bool := noLicense d || is_expired d.
(** The days shown are the remaining time, rounded up to whole days. *)
Lemma days_exact l t n : daysUntilExpiration (Loaded l) t = Some n → 0 < n ∧ (n - 1) * DAY_MS < expires_at l * 1000 - t <= n * DAY_MS.
Proof.
  unfold daysUntilExpiration. destruct (expires_at l <=? 0); [done|]. set (r := expires_at l * 1000 - t).
  destruct (Z.ltb_spec 0 (- (- r / DAY_MS))); [|done]. intros [= <-]. split; [done|].
  pose proof (Z.div_mod (- r) DAY_MS ltac:(done)). pose proof (Z.mod_pos_bound (- r) DAY_MS ltac:(done)). unfold DAY_MS in *. lia.
Qed.
(** A banner is shown for exactly one reason, and in red when the instance does not
    run properly: no license, or one that lapsed. *)
Lemma banner_reason isLoading isError d : visible isLoading isError d = true →
  ((if noLicense d then 1 else 0) + (if is_expired d then 1 else 0) + (if gracePeriod d then 1 else 0) + (if aboutToExpire d then 1 else 0) = 1)%nat.
Proof. unfold visible. destruct isLoading, isError, d as [| |[[] [] [] ?]]; cbn; done. Qed.
End Banner.

(** ** components/common/CreateNamespace.tsx *)

Module Namespace.
Definition namespace_error (status : option Z) : string :=
  if bool_decide (status = Some 409) then "A namespace with this name already exists."
  else if bool_decide (status = Some 403) then "You have reached the namespace limit or do not have permission."
  else if bool_decide (status = Some 400) then "The namespace name is invalid."
  else "An unexpected error occurred. Please try again.".
(** [inl] the message under the field, [inr] the name asked for. *)
Definition handleSubmit (name : jsstring) : jsstring + jsstring := match validateNamespaceName name with Some e => inl e | None => inr name end.
Lemma namespace_asked name n : handleSubmit name = inr n → n = name ∧ (3 <= length n <= 30)%nat ∧ is_namespace_name n.
Proof. unfold handleSubmit. destruct (validateNamespaceName name) eqn:E; [done|]. intros [= <-]. by apply namespace_name_exact in E. Qed.
(** The community edition polls until the user has a namespace: [check] on the
    tenants of the first page, nothing when it failed. *)
Definition check (answer : option (list jsstring)) (s : option jsstring) : option jsstring :=
  match answer with Some (t :: _) => Some t | _ => s end.
(** Once there is one, polling never takes it away. *)
Lemma poll_ready answers s : is_Some s ∨ Exists (λ a, ∃ t l, a = Some (t :: l)) answers → is_Some (fold_left (λ s a, check a s) answers s).
Proof.
  revert s. induction answers as [|a l IH]; intros s H; cbn; [destruct H as [?|H]; [done|inversion H]|].
  apply IH. rewrite Exists_cons in H. destruct H as [[t ->]|[(t & r & ->)|H]]; [|by left|by right].
  left. destruct a as [[|x r]|]; done.
Qed.
End Namespace.

(** ** hooks/useSidebarLayout.ts *)

Module Sidebar.
(** The hover timer: when it fires, and what it sets [expanded] to. *)
Record Sidebar_ := mkSidebar { expanded : bool; pinned : bool; drawerOpen : bool; hoverTimer : option (Z * bool) }.
Definition initial : Sidebar_ := mkSidebar false true false None.
Definition isOpen (s : Sidebar_) : bool := expanded s || pinned s.
Definition handleExpand (now : Z) (s : Sidebar_) : Sidebar_ := mkSidebar (expanded s) (pinned s) (drawerOpen s) (Some (now + 75, true)).
Definition handleCollapse (now : Z) (s : Sidebar_) : Sidebar_ := mkSidebar (expanded s) (pinned s) (drawerOpen s) (Some (now + 150, false)).
Definition handleToggle (s : Sidebar_) : Sidebar_ :=
  if pinned s then mkSidebar true false (drawerOpen s) None else mkSidebar (expanded s) true (drawerOpen s) (hoverTimer s).
Definition due (now : Z) (s : Sidebar_) : Sidebar_ :=
  match hoverTimer s with Some (t, b) => if t <=? now then mkSidebar b (pinned s) (drawerOpen s) None else s | None => s end.
Definition set_drawer (b : bool) (s : Sidebar_) : Sidebar_ := mkSidebar (expanded s) (pinned s) b (hoverTimer s).
(** Pinning and unpinning never hide the bar under the pointer. *)
Lemma toggle_open s : isOpen (handleToggle s) = true.
Proof. unfold handleToggle, isOpen. destruct (pinned s); [done|]. cbn. apply orb_true_r. Qed.
(** When the pointer leaves and nothing else happens the bar is back to pinned or
    closed after 150 ms; when it stays, open after 75. *)
Lemma hover_settles now t s : (now + 150 <= t → isOpen (due t (handleCollapse now s)) = pinned s) ∧ (now + 75 <= t → isOpen (due t (handleExpand now s)) = true).
Proof.
  split; intros H; unfold due; cbn [handleCollapse handleExpand hoverTimer]; rewrite (proj2 (Z.leb_le _ _)) by lia; done.
Qed.
(** A pointer that only passes over, leaving within the delay, opens nothing. *)
Lemma hover_passes a b t s : expanded s = false → b < a + 75 → expanded (due t (handleCollapse b (due b (handleExpand a s)))) = false.
Proof.
  intros He Hb. unfold due. cbn [handleExpand hoverTimer]. destruct (Z.leb_spec (a + 75) b); [lia|]. cbn. destruct (b + 150 <=? t); [done|exact He].
Qed.
End Sidebar.
