(* ===== verification/Player.v ===== *)
(** * The session player (components/sessions/SessionPlayer.tsx)

    The controls around asciinema-player: the refs and the state they keep, the
    commands they give the player, and the player's events, which are events of the
    model.  Times, floating-point in the source, are rationals. *)

From S2P Require Import Prelude JsString.
From Stdlib Require Import QArith Qround Qminmax Lqa.
#[local] Open Scope Z_scope.

(** ** [formatTime] *)

(** [Math.floor(secs % 60)] of a time that is not negative is the remainder of the floor. *)
Definition pad2 (n : Z) : jsstring := let s := Z_to_string n in if (length s <? 2)%nat then repeat 48%N (2 - length s) ++ s else s.
Definition minutes (secs : Q) : Z := Qfloor (secs / 60).
Definition seconds (secs : Q) : Z := Qfloor (secs - inject_Z (60 * minutes secs)).
Definition formatTime (secs : Q) : jsstring := pad2 (minutes secs) ++ [58%N] ++ pad2 (seconds secs).

Lemma time_split secs : (0 <= secs)%Q → 60 * minutes secs + seconds secs = Qfloor secs ∧ 0 <= seconds secs < 60.
Proof.
  intros H. unfold seconds. set (m := minutes secs).
  pose proof (Qfloor_le (secs / 60)) as H1. pose proof (Qlt_floor (secs / 60)) as H2. fold (minutes secs) in H1, H2. fold m in H1, H2.
  assert (secs == 60 * (secs / 60))%Q as E by field.
  assert (inject_Z (60 * m) <= secs)%Q as L by (rewrite inject_Z_mult; change (inject_Z 60) with 60%Q; lra).
  assert (secs < inject_Z (60 * m) + 60)%Q as U by (rewrite inject_Z_mult; rewrite inject_Z_plus in H2; change (inject_Z 60) with 60%Q; change (inject_Z 1) with 1%Q in H2; lra).
  set (r := (secs - inject_Z (60 * m))%Q). pose proof (Qfloor_le r) as F1. pose proof (Qlt_floor r) as F2.
  rewrite inject_Z_plus in F2. change (inject_Z 1) with 1%Q in F2.
  assert (0 <= Qfloor r < 60) as B.
  { split.
    - change 0 with (Qfloor 0). apply Qfloor_resp_le. unfold r. lra.
    - apply Z.lt_nge. intros Hc. rewrite Zle_Qle in Hc. change (inject_Z 60) with 60%Q in Hc. unfold r in *. lra. }
  split; [|done]. symmetry. apply Z.le_antisymm.
  - apply Z.lt_succ_r. rewrite Zlt_Qlt. unfold Z.succ. rewrite !inject_Z_plus. change (inject_Z 1) with 1%Q.
    pose proof (Qfloor_le secs). unfold r in *. lra.
  - rewrite <-(Qfloor_Z (60 * m + Qfloor r)). apply Qfloor_resp_le. rewrite inject_Z_plus. unfold r in *. lra.
Qed.

(** ** The controls *)

Inductive command := Play | Pause | Seek (t : Q) | Create (startAt : Q) | Dispose | Fullscreen (on : bool).
Record Player_ := mkPlayer {
  isPlaying : bool; ended : bool; currentTime : Q; duration : Q; timer : bool; fullscreen : bool; closed : bool;
  seeks : list bool;               (* the seeks under way: whether to play after each *)
  commands : list command;
}.
Definition put_play (p e t : bool) (s : Player_) : Player_ :=
  mkPlayer p e (currentTime s) (duration s) t (fullscreen s) (closed s) (seeks s) (commands s).
Definition put_time (t d : Q) (s : Player_) : Player_ :=
  mkPlayer (isPlaying s) (ended s) t d (timer s) (fullscreen s) (closed s) (seeks s) (commands s).
Definition tell (cs : list command) (s : Player_) : Player_ :=
  mkPlayer (isPlaying s) (ended s) (currentTime s) (duration s) (timer s) (fullscreen s) (closed s) (seeks s) (commands s ++ cs).
Definition put_seeks (l : list bool) (s : Player_) : Player_ :=
  mkPlayer (isPlaying s) (ended s) (currentTime s) (duration s) (timer s) (fullscreen s) (closed s) l (commands s).
Definition mounted : Player_ := mkPlayer false false 0%Q 0%Q false false false [] [Create 0%Q; Play].

(** The player's "playing" and "ended". *)
Definition on_playing (d : option Q) (s : Player_) : Player_ := put_time (currentTime s) (default (duration s) d) (put_play true false true s).
Definition on_ended (s : Player_) : Player_ := put_play false true false s.
Definition tick (t : option Q) (s : Player_) : Player_ := match t with Some t => if timer s then put_time t (duration s) s else s | None => s end.
Definition jump (t : Q) (s : Player_) : Player_ := put_time t (duration s) (put_seeks (seeks s ++ [isPlaying s]) (tell [Pause; Seek t] s)).
Definition clamped (t : Q) (s : Player_) : Q := Qmax 0%Q (Qmin (duration s) t).
Definition seekTo (t : Q) (s : Player_) : Player_ := jump (clamped t s) s.
(** The slider, from 0 to [duration || 1]. *)
Definition handleSeek (t : Q) (s : Player_) : Player_ := jump t s.
Definition seek_done (i : nat) (s : Player_) : Player_ :=
  match seeks s !! i with
  | Some b => let s := put_seeks (delete i (seeks s)) s in if (b : bool) then tell [Play] s else s
  | None => s
  end.
Definition handlePlayPause (s : Player_) : Player_ :=
  if isPlaying s then put_play false (ended s) false (tell [Pause] s) else put_play true (ended s) (timer s) (tell [Play] s).
Definition handleSpeedChange (s : Player_) : Player_ :=
  put_play (isPlaying s) (ended s) false (tell [Dispose; Create (if ended s then 0%Q else currentTime s); Play] s).
Definition toggle_fullscreen (s : Player_) : Player_ :=
  let on := negb (fullscreen s) in
  mkPlayer (isPlaying s) (ended s) (currentTime s) (duration s) (timer s) on (closed s) (seeks s) (commands s ++ [Fullscreen on]).

Inductive key := Space | ArrowLeft (shift : bool) | ArrowRight (shift : bool) | Comma | Dot | F | Escape | Digit (n : Z) (modified : bool).
Definition leap (shift : bool) (s : Player_) : Q := if shift then (duration s * (1 # 10))%Q else 5%Q.
Definition handleKeyDown (k : key) (s : Player_) : Player_ :=
  match k with
  | Space => handlePlayPause s
  | ArrowLeft shift => seekTo (currentTime s - leap shift s) s
  | ArrowRight shift => seekTo (currentTime s + leap shift s) s
  | Comma => if isPlaying s then s else seekTo (currentTime s - (1 # 10)) s
  | Dot => if isPlaying s then s else seekTo (currentTime s + (1 # 10)) s
  | F => toggle_fullscreen s
  | Escape => if fullscreen s then toggle_fullscreen s
              else mkPlayer (isPlaying s) (ended s) (currentTime s) (duration s) (timer s) (fullscreen s) true (seeks s) (commands s)
  | Digit n modified => if modified then s else seekTo (duration s * inject_Z n / 10) s
  end.
Inductive event := Key (k : key) | Click | Slide (t : Q) | Speed | Playing (d : option Q) | Ended | Tick (t : option Q) | Seeked (i : nat).
Definition step (s : Player_) (e : event) : Player_ :=
  if closed s then s else
  match e with
  | Key k => handleKeyDown k s
  | Click => handlePlayPause s
  | Slide t => handleSeek t s
  | Speed => handleSpeedChange s
  | Playing d => on_playing d s
  | Ended => on_ended s
  | Tick t => tick t s
  | Seeked i => seek_done i s
  end.

(** A seek stays within the recording. *)
Lemma clamped_range t s : (0 <= duration s)%Q → (0 <= clamped t s <= duration s)%Q.
Proof.
  intros H. unfold clamped. split; [apply Q.le_max_l|]. apply Q.max_lub; [done|apply Q.le_min_l].
Qed.
Definition in_recording (d : Q) (c : command) : Prop := match c with Seek t => (0 <= t <= d)%Q | _ => True end.
(** The keyboard never moves outside of the recording. *)
Lemma key_seeks k s : (0 <= duration s)%Q → ∃ cs, commands (handleKeyDown k s) = commands s ++ cs ∧ Forall (in_recording (duration s)) cs.
Proof.
  intros H. assert (∀ t, ∃ cs, commands (seekTo t s) = commands s ++ cs ∧ Forall (in_recording (duration s)) cs) as Hs.
  { intros t. eexists [_; _]. split; [reflexivity|]. repeat constructor; by apply clamped_range. }
  assert (∃ cs, commands s = commands s ++ cs ∧ Forall (in_recording (duration s)) cs) as Hn by (exists []; by rewrite app_nil_r).
  destruct k as [|sh|sh| | | | |n []]; cbn [handleKeyDown]; auto.
  - unfold handlePlayPause. destruct (isPlaying s); eexists [_]; (split; [reflexivity|repeat constructor]).
  - by destruct (isPlaying s).
  - by destruct (isPlaying s).
  - eexists [_]. split; [reflexivity|repeat constructor].
  - destruct (fullscreen s); [|done]. eexists [_]. split; [reflexivity|repeat constructor].
Qed.
(** The clock is read only while the recording is shown as playing. *)
Lemma timer_playing es s : (timer s = true → isPlaying s = true) → let s' := fold_left step es s in timer s' = true → isPlaying s' = true.
Proof.
  revert s. induction es as [|e es IH]; intros s H; [done|]. cbn [fold_left]. apply IH. unfold step. destruct (closed s); [done|].
  assert (∀ t, timer (jump t s) = true → isPlaying (jump t s) = true) as Hj by done.
  assert (timer (handlePlayPause s) = true → isPlaying (handlePlayPause s) = true) as Hp by (unfold handlePlayPause; by destruct (isPlaying s)).
  destruct e as [k| |t| |d| |t|i]; try done.
  - destruct k as [|sh|sh| | | | |n []]; cbn [handleKeyDown]; try done; try (by destruct (isPlaying s) eqn:E; cbn in *; rewrite ?E in *).
    by destruct (fullscreen s).
  - unfold tick. destruct t; [|done]. assert (∀ b : bool, timer (if b then put_time q (duration s) s else s) = true → isPlaying (if b then put_time q (duration s) s else s) = true) as Hb by (by intros []). apply Hb.
  - unfold seek_done. destruct (seeks s !! i) as [[]|]; done.
Qed.
(** Pausing while a seek is under way does not hold: when the seek is done the
    player is told to play. *)
Example pause_undone : commands (fold_left step [Playing (Some 60%Q); Key (ArrowRight false); Key Space; Seeked 0] mounted)
  = [Create 0; Play; Pause; Seek (Qmax 0 (Qmin 60 (0 + 5))); Pause; Play].
Proof. reflexivity. Qed.
(** Choosing another speed plays a paused recording. *)
Example speed_resumes : commands (fold_left step [Playing (Some 60%Q); Key Space; Speed] mounted) = [Create 0; Play; Pause; Dispose; Create 0; Play].
Proof. reflexivity. Qed.
