(* ===== verification/SettingsPages.v ===== *)
(** * Settings of the namespace and of the account

    pages/Settings.tsx (renaming, recording, access mode, deleting and leaving a
    namespace), the drawers of pages/Profile.tsx, pages/MigrationPage.tsx and
    hooks/useChatwoot.ts.  Each is a machine over what is clicked, what the server
    answers and what the clock does.  Parameter: [unicode_lower]. *)

From S2P Require Import Prelude JsString JsJson Validation Permission Schemas.
From S2P Require Recordings AccountForms.

(** ** pages/Settings.tsx *)

Module NamespaceSettings.
Inductive AccessMode := legacy | identity.
#[export] Instance AccessMode_eq : EqDecision AccessMode. Proof. solve_decision. Defined.
(** What the page reads of a namespace; every setting may be missing. *)
Record NsSettings := mkSettings {
  session_record : option bool; connection_announcement : option jsstring; ssh_access_mode : option AccessMode; ssh_legacy_allowed : option bool;
}.
Record Ns := mkNs { n_name : jsstring; n_tenant : jsstring; n_settings : option NsSettings }.
Definition sessionRecord (n : Ns) : bool := default false (n_settings n ≫= session_record).
Definition sshAccessMode (n : Ns) : AccessMode := default legacy (n_settings n ≫= ssh_access_mode).
Definition sshLegacyAllowed (n : Ns) : bool := default false (n_settings n ≫= ssh_legacy_allowed).
Definition banner (n : Ns) : jsstring := default [] (n_settings n ≫= connection_announcement).

(** What is asked of the server, each with the namespace as shown at the click;
    [by_key]: a button reached with the keyboard. *)
Inductive request :=
  | SetRecord (shown : Ns) (record : bool) (announcement : jsstring) (mode : AccessMode) (by_key : bool)
  | SetMode (shown : Ns) (mode : AccessMode) (by_key : bool)
  | Rename (tenant name : jsstring)
  | Delete (shown : Ns) (typed : jsstring)
  | Leave (shown : Ns).

(** A dialog is mounted when it opens: [d_mount] tells one from the next. *)
Record Dialog := mkDialog { d_mount : nat; d_text : jsstring; d_error : string; d_confirming : bool }.
Record Page := mkPage {
  tenantId : option jsstring; ns : option Ns; togglingRecord : bool; switchingAccessMode : bool;
  renaming : option (jsstring * jsstring);          (* the value the drawer opened with, and the one in the field *)
  submitting : bool; renameError : option string;
  deleting : option Dialog; leaving : option Dialog; mounts : nat;
  deletes : list nat; leaves : list nat;            (* requests on their way, by the dialog that made them *)
  gone : bool;                                      (* signed out and sent to the login page *)
  requests : list request;
}.
Definition opened (t : option jsstring) : Page := mkPage t None false false None false None None None 0 [] [] false [].
Definition put_ns (n : option Ns) (s : Page) : Page :=
  mkPage (tenantId s) n (togglingRecord s) (switchingAccessMode s) (renaming s) (submitting s) (renameError s) (deleting s) (leaving s)
    (mounts s) (deletes s) (leaves s) (gone s) (requests s).
Definition put_flags (a b : bool) (s : Page) : Page :=
  mkPage (tenantId s) (ns s) a b (renaming s) (submitting s) (renameError s) (deleting s) (leaving s) (mounts s) (deletes s) (leaves s)
    (gone s) (requests s).
Definition put_rename (r : option (jsstring * jsstring)) (b : bool) (e : option string) (s : Page) : Page :=
  mkPage (tenantId s) (ns s) (togglingRecord s) (switchingAccessMode s) r b e (deleting s) (leaving s) (mounts s) (deletes s) (leaves s)
    (gone s) (requests s).
Definition put_delete (d : option Dialog) (m : nat) (fs : list nat) (s : Page) : Page :=
  mkPage (tenantId s) (ns s) (togglingRecord s) (switchingAccessMode s) (renaming s) (submitting s) (renameError s) d (leaving s) m fs
    (leaves s) (gone s) (requests s).
Definition put_leave (d : option Dialog) (m : nat) (fs : list nat) (s : Page) : Page :=
  mkPage (tenantId s) (ns s) (togglingRecord s) (switchingAccessMode s) (renaming s) (submitting s) (renameError s) (deleting s) d m
    (deletes s) fs (gone s) (requests s).
Definition sign_out (s : Page) : Page :=
  mkPage (tenantId s) (ns s) (togglingRecord s) (switchingAccessMode s) (renaming s) (submitting s) (renameError s) (deleting s) (leaving s)
    (mounts s) (deletes s) (leaves s) true (requests s).
Definition ask (r : request) (s : Page) : Page :=
  mkPage (tenantId s) (ns s) (togglingRecord s) (switchingAccessMode s) (renaming s) (submitting s) (renameError s) (deleting s) (leaving s)
    (mounts s) (deletes s) (leaves s) (gone s) (requests s ++ [r]).

Section Page.
Context (unicode_lower : N → jsstring) (role : option jsstring) (isEnterpriseOrCloud : bool).
#[local] Abbreviation toLowerCase := (Recordings.toLowerCase unicode_lower).
Definition may (action : string) : bool := hasPermission role (js action).
Definition has_tenant (s : Page) : bool := match tenantId s with Some t => truthy t | None => false end.

Definition handleToggleRecord (n : Ns) (k : bool) (s : Page) : Page :=
  if negb (has_tenant s) || togglingRecord s then s
  else ask (SetRecord n (negb (sessionRecord n)) (banner n) (sshAccessMode n) k) (put_flags true (switchingAccessMode s) s).
Definition handleSetAccessMode (n : Ns) (mode : AccessMode) (k : bool) (s : Page) : Page :=
  if negb (has_tenant s) || switchingAccessMode s || bool_decide (mode = sshAccessMode n) then s
  else ask (SetMode n mode k) (put_flags (togglingRecord s) true s).
(** Both pairs of buttons stand in a box that a right or a request under way takes
    from the mouse ([pointer-events-none]), not from the keyboard. *)
Definition reached (k : bool) (action : string) (busy : bool) : bool := k || (may action && negb busy).

(** EditNameDrawer: the button asks for a valid and changed name, [Enter] in the one
    field for a valid one. *)
Definition rename_valid (v : jsstring) : bool := bool_decide (AccountForms.Namespaces.namespaceRenameSchema v = []).
Definition onValid (n : Ns) (r : jsstring * jsstring) (s : Page) : Page := ask (Rename (n_tenant n) r.2) (put_rename (Some r) true None s).
Definition delete_error (status : option Z) : string :=
  if bool_decide (status = Some 409) then "This namespace is bound to the instance and can't be deleted." else "Failed to delete namespace.".

Inductive event :=
  | Loaded (n : Ns)
  | ClickRecord (on k : bool) | RecordAnswer | ClickMode (m : AccessMode) (k : bool) | ModeAnswer
  | OpenRename | TypeRename (v : jsstring) | SaveRename | EnterRename | RenameAnswer (ok : bool) | CloseRename
  | AskDelete | TypeDelete (v : jsstring) | ConfirmDelete | DeleteAnswer (i : nat) (r : option (option Z)) | CloseDelete
  | AskLeave | ConfirmLeave | LeaveAnswer (i : nat) (ok : bool) | CloseLeave.

(** The end of a dialog's request: a failure shows in the dialog that made it. *)
Definition failed (m : nat) (e : string) (d : option Dialog) : option Dialog :=
  match d with
  | Some d => Some (if bool_decide (d_mount d = m) then mkDialog (d_mount d) (d_text d) e false else d)
  | None => None
  end.
Definition act (n : Ns) (s : Page) (e : event) : Page :=
  match e with
  | Loaded n => put_ns (Some n) s
  | ClickRecord on k =>
      if isEnterpriseOrCloud && reached k "namespace:updateSessionRecording" (togglingRecord s) && negb (eqb on (sessionRecord n))
      then handleToggleRecord n k s else s
  | RecordAnswer => put_flags false (switchingAccessMode s) s
  | ClickMode m k =>
      if sshLegacyAllowed n && reached k "namespace:updateSshAccessMode" (switchingAccessMode s) then handleSetAccessMode n m k s else s
  | ModeAnswer => put_flags (togglingRecord s) false s
  | OpenRename => if may "namespace:rename" && negb (bool_decide (is_Some (renaming s))) then put_rename (Some (n_name n, n_name n)) false None s else s
  | TypeRename v => match renaming s with Some (v0, _) => put_rename (Some (v0, toLowerCase v)) (submitting s) None s | None => s end
  | SaveRename =>
      match renaming s with
      | Some r => if rename_valid r.2 && negb (submitting s) && negb (bool_decide (r.2 = r.1)) then onValid n r s else s
      | None => s
      end
  | EnterRename => match renaming s with Some r => if rename_valid r.2 then onValid n r s else s | None => s end
  | RenameAnswer true => put_rename None false (renameError s) s
  | RenameAnswer false => put_rename (renaming s) false (Some "Failed to rename namespace. The name may already be taken."%string) s
  | CloseRename => put_rename None (submitting s) (renameError s) s
  | AskDelete =>
      if may "namespace:delete" && negb (bool_decide (is_Some (deleting s))) then put_delete (Some (mkDialog (mounts s) [] "" false)) (S (mounts s)) (deletes s) s else s
  | TypeDelete v =>
      match deleting s with Some d => put_delete (Some (mkDialog (d_mount d) v (d_error d) (d_confirming d))) (mounts s) (deletes s) s | None => s end
  | ConfirmDelete =>
      match deleting s with
      | Some d =>
          if bool_decide (d_text d = n_name n) && negb (d_confirming d)
          then ask (Delete n (d_text d)) (put_delete (Some (mkDialog (d_mount d) (d_text d) "" true)) (mounts s) (deletes s ++ [d_mount d]) s)
          else s
      | None => s
      end
  | DeleteAnswer i r =>
      match deletes s !! i, r with
      | Some m, Some st => put_delete (failed m (delete_error st) (deleting s)) (mounts s) (delete i (deletes s)) s
      | Some _, None => sign_out s
      | None, _ => s
      end
  | CloseDelete => put_delete None (mounts s) (deletes s) s
  | AskLeave =>
      if negb (may "namespace:delete") && negb (bool_decide (is_Some (leaving s))) then put_leave (Some (mkDialog (mounts s) [] "" false)) (S (mounts s)) (leaves s) s else s
  | ConfirmLeave =>
      match leaving s with
      | Some d =>
          if d_confirming d then s
          else ask (Leave n) (put_leave (Some (mkDialog (d_mount d) (d_text d) "" true)) (mounts s) (leaves s ++ [d_mount d]) s)
      | None => s
      end
  | LeaveAnswer i ok =>
      match leaves s !! i with
      | Some m => if ok then sign_out s else put_leave (failed m "Failed to leave namespace." (leaving s)) (mounts s) (delete i (leaves s)) s
      | None => s
      end
  | CloseLeave => put_leave None (mounts s) (leaves s) s
  end.
(** Until the namespace is there the page shows a spinner. *)
Definition step (s : Page) (e : event) : Page :=
  if gone s then s
  else match ns s, e with Some n, _ => act n s e | None, Loaded n => put_ns (Some n) s | None, _ => s end.

(** *** What a request must be *)

Definition allowed (action : string) : Prop :=
  ∃ r need, role = Some (role_name r) ∧ assoc (js action) permissions = Some need ∧ level need <= role_level r.
Definition request_ok (r : request) : Prop :=
  match r with
  | SetRecord n rec ann mode k =>
      isEnterpriseOrCloud = true ∧ rec = negb (sessionRecord n) ∧ ann = banner n ∧ mode = sshAccessMode n
      ∧ (k = true ∨ allowed "namespace:updateSessionRecording")
  | SetMode n mode k => sshLegacyAllowed n = true ∧ mode ≠ sshAccessMode n ∧ (k = true ∨ allowed "namespace:updateSshAccessMode")
  | Rename _ name => allowed "namespace:rename" ∧ (3 <= length name <= 30)%nat ∧ is_namespace_name name
  | Delete n typed => allowed "namespace:delete" ∧ typed = n_name n
  | Leave _ => may "namespace:delete" = false
  end.
Definition inv (s : Page) : Prop :=
  Forall request_ok (requests s) ∧ (is_Some (renaming s) → allowed "namespace:rename")
  ∧ (is_Some (deleting s) → allowed "namespace:delete") ∧ (is_Some (leaving s) → may "namespace:delete" = false).

Lemma ns_may_allowed a : may a = true → allowed a.
Proof. apply hasPermission_true. Qed.
Lemma reached_ok k a b : reached k a b = true → k = true ∨ allowed a.
Proof. unfold reached. intros [?|[? _]%andb_prop]%orb_prop; [by left|right; by apply ns_may_allowed]. Qed.
Lemma rename_valid_ok v : rename_valid v = true → (3 <= length v <= 30)%nat ∧ is_namespace_name v.
Proof. intros H%bool_decide_eq_true%report_nil. by apply namespace_name_exact. Qed.
Lemma ns_inv_ask r s : inv s → request_ok r → inv (ask r s).
Proof. intros (H1 & H) Hr. split; [|exact H]. apply Forall_app. split; [done|]. by apply Forall_singleton. Qed.
Lemma ns_inv_rename r b e s : inv s → (is_Some r → allowed "namespace:rename") → inv (put_rename r b e s).
Proof. intros (H1 & _ & H3 & H4) H. split_and!; done. Qed.
Lemma ns_inv_delete d m fs s : inv s → (is_Some d → allowed "namespace:delete") → inv (put_delete d m fs s).
Proof. intros (H1 & H2 & _ & H4) H. split_and!; done. Qed.
Lemma ns_inv_leave d m fs s : inv s → (is_Some d → may "namespace:delete" = false) → inv (put_leave d m fs s).
Proof. intros (H1 & H2 & H3 & _) H. split_and!; done. Qed.
Lemma failed_some m e d : is_Some (failed m e d) → is_Some d.
Proof. by destruct d. Qed.
Lemma onValid_inv n r s : inv s → renaming s = Some r → rename_valid r.2 = true → inv (onValid n r s).
Proof.
  intros H E Hv%rename_valid_ok. pose proof H as (_ & Hr & _). rewrite E in Hr.
  apply ns_inv_ask; [by apply ns_inv_rename|]. split; [by apply Hr|done].
Qed.
Lemma ns_inv_act n s e : inv s → inv (act n s e).
Proof.
  intros H. pose proof H as (_ & Hr & Hd & Hl).
  destruct e as [n'|on k| |m k| | |v| | |[|]| | |v| |i r| | | |i ok|]; cbn [act]; try done.
  - destruct (_ && _) eqn:E; [|done]. apply andb_prop in E as [[He Hk%reached_ok]%andb_prop _]. unfold handleToggleRecord.
    destruct (negb (has_tenant s) || _); [done|]. by apply ns_inv_ask.
  - destruct (_ && _) eqn:E; [|done]. apply andb_prop in E as [He Hk%reached_ok]. unfold handleSetAccessMode.
    destruct (_ || bool_decide (m = sshAccessMode n)) eqn:E; [done|]. apply orb_false_iff in E as [_ E%bool_decide_eq_false]. by apply ns_inv_ask.
  - destruct (_ && _) eqn:E; [|done]. apply andb_prop in E as [E _]. apply ns_inv_rename; [done|]. intros _. by apply ns_may_allowed.
  - destruct (renaming s) as [[v0 v1]|] eqn:E; [|done]. apply ns_inv_rename; [done|]. intros _. by apply Hr.
  - destruct (renaming s) as [r|] eqn:E; [|done]. destruct (_ && _) eqn:Ev; [|done]. apply andb_prop in Ev as [[Ev _]%andb_prop _]. by apply onValid_inv.
  - destruct (renaming s) as [r|] eqn:E; [|done]. destruct (rename_valid r.2) eqn:Ev; [|done]. by apply onValid_inv.
  - apply ns_inv_rename; [done|]. by intros [? ?].
  - apply ns_inv_rename; [done|]. by intros [? ?].
  - destruct (_ && _) eqn:E; [|done]. apply andb_prop in E as [E _]. apply ns_inv_delete; [done|]. intros _. by apply ns_may_allowed.
  - destruct (deleting s) as [d|]; [|done]. apply ns_inv_delete; [done|]. intros _. by apply Hd.
  - destruct (deleting s) as [d|]; [|done]. destruct (_ && _) eqn:E; [|done]. apply andb_prop in E as [E%bool_decide_eq_true _].
    apply ns_inv_ask; [|split; [by apply Hd|done]]. apply ns_inv_delete; [done|]. intros _. by apply Hd.
  - destruct (deletes s !! i); [|done]. destruct r; [|done]. apply ns_inv_delete; [done|]. intros ?%failed_some. by apply Hd.
  - apply ns_inv_delete; [done|]. by intros [? ?].
  - destruct (_ && _) eqn:E; [|done]. apply andb_prop in E as [E%negb_true_iff _]. by apply ns_inv_leave.
  - destruct (leaving s) as [d|]; [|done]. destruct (d_confirming d); [done|]. specialize (Hl ltac:(by eexists)).
    apply ns_inv_ask; [|done]. by apply ns_inv_leave.
  - destruct (leaves s !! i); [|done]. destruct ok; [done|]. apply ns_inv_leave; [done|]. intros ?%failed_some. by apply Hl.
  - apply ns_inv_leave; [done|]. by intros [? ?].
Qed.

(** Whatever is clicked, by mouse or keyboard, and however answers come: a namespace
    is deleted only by who may and only with its name typed, and left only by who may
    not delete it; it is renamed only by who may, to a valid name; turning recording
    on or off sends the banner and the access mode as shown; the mode is switched only
    where the old one is allowed, and only to the other; and by mouse both ask for the
    right to. *)
Theorem settings_requests (t : option jsstring) (es : list event) : Forall request_ok (requests (fold_left step es (opened t))).
Proof.
  assert (inv (fold_left step es (opened t))) as [? _]; [|done].
  assert (inv (opened t)) as H by (split_and!; [constructor|by intros [? ?]..]). revert H. generalize (opened t).
  induction es as [|e es IH]; intros s H; [done|]. cbn. apply IH. unfold step. destruct (gone s); [done|].
  destruct (ns s) as [n|]; [by apply ns_inv_act|]. by destruct e.
Qed.
End Page.

(** Where the mouse is kept away, the keyboard is not: an observer turns recording off. *)
Example keyboard_record : let n := mkNs (js "dev") (js "t") (Some (mkSettings (Some true) None (Some identity) (Some false))) in
  requests (fold_left (step (λ _, []) (Some (js "observer")) true) [Loaded n; ClickRecord false false; ClickRecord false true] (opened (Some (js "t"))))
  = [SetRecord n false [] identity true].
Proof. reflexivity. Qed.
(** Without settings the mode reads as the legacy one, under a label that says [Identity]. *)
Definition mode_label (n : Ns) : AccessMode := if sshLegacyAllowed n then sshAccessMode n else identity.
Example label_contradicts : let n := mkNs (js "dev") (js "t") None in mode_label n = identity ∧ sshAccessMode n = legacy.
Proof. done. Qed.
End NamespaceSettings.

(** ** pages/Profile.tsx *)

Module Account.
Import AccountForms.Profile.
Inductive Offer := ManagedBySso | ChangePassword | EnableMfa | DisableMfa | Upgrade.
#[export] Instance Offer_eq : EqDecision Offer. Proof. solve_decision. Defined.
Definition isSsoUser (origin : option jsstring) : bool := bool_decide (origin = Some (js "saml")).
Definition security_offers (origin : option jsstring) (enterpriseOrCloud mfaEnabled : bool) : list Offer :=
  if isSsoUser origin then [ManagedBySso]
  else [ChangePassword; if enterpriseOrCloud then (if mfaEnabled then DisableMfa else EnableMfa) else Upgrade].
(** Who signs in elsewhere is offered neither a password nor a second factor here;
    nobody is offered to turn on what is on, or off what is off. *)
Lemma security_offered origin ee mfa o : o ∈ security_offers origin ee mfa →
  (o = ManagedBySso ↔ origin = Some (js "saml")) ∧ (o = DisableMfa → ee = true ∧ mfa = true) ∧ (o = EnableMfa → ee = true ∧ mfa = false).
Proof.
  unfold security_offers, isSsoUser. destruct (bool_decide (origin = Some (js "saml"))) eqn:E.
  - apply bool_decide_eq_true in E. intros ->%list_elem_of_singleton. done.
  - apply bool_decide_eq_false in E. rewrite !elem_of_cons, elem_of_nil. destruct ee, mfa; naive_solver.
Qed.

Definition isNamespaceOwner (userId : option jsstring) (owners : list jsstring) : bool := existsb (λ o, bool_decide (Some o = userId)) owners.
(** The dialog of the Cloud edition; in the others the account is deleted elsewhere. *)
Definition delete_enabled (isCloud : bool) (userId : option jsstring) (owners : list jsstring) : bool := isCloud && negb (isNamespaceOwner userId owners).
Definition delete_account_error (status : option Z) : string :=
  if bool_decide (status = Some 403) then "You cannot delete your account while you have active namespaces." else "Failed to delete account.".
Lemma delete_needs_no_namespace c u owners : delete_enabled c (Some u) owners = true ↔ c = true ∧ u ∉ owners.
Proof.
  unfold delete_enabled, isNamespaceOwner. rewrite andb_true_iff, negb_true_iff, <-not_true_iff_false, existsb_exists.
  split; intros [H1 H2]; (split; [done|]).
  - intros H. apply H2. exists u. split; [by apply list_elem_of_In|]. by apply bool_decide_eq_true.
  - intros (x & Hx%list_elem_of_In & E%bool_decide_eq_true). injection E as ->. done.
Qed.
Definition edit_error (status : option Z) : string :=
  if bool_decide (status = Some 400) then "Some fields have invalid values. Review and try again."
  else if bool_decide (status = Some 409) then "That username or email is already in use."
  else "Failed to update profile.".

(** ChangePasswordDrawer: its timers close it a while after a success. *)
Definition CLOSE_MS : Z := 1200.
Record Drawer := mkDrawer {
  is_open : bool; submitting : bool; success : bool; root : option string; timers : list Z; now : Z; flights : nat; sent : list PasswordValues;
}.
Definition closed (t : Z) : Drawer := mkDrawer false false false None [] t 0 [].
Definition password_error (status : option Z) : string :=
  if bool_decide (status = Some 403) then "Current password is incorrect." else "Failed to change password.".
Definition open_ (s : Drawer) : Drawer := if is_open s then s else mkDrawer true false false None (timers s) (now s) (flights s) (sent s).
Definition change_onValid (v : PasswordValues) (s : Drawer) : Drawer :=
  mkDrawer (is_open s) true (success s) None (timers s) (now s) (S (flights s)) (sent s ++ [v]).
Definition on_answer (r : option (option Z)) (s : Drawer) : Drawer :=
  match flights s with
  | O => s
  | S k =>
      match r with
      | None => mkDrawer (is_open s) false true (root s) (timers s ++ [now s + CLOSE_MS]) (now s) k (sent s)
      | Some st => mkDrawer (is_open s) false (success s) (Some (password_error st)) (timers s) (now s) k (sent s)
      end
  end.
Definition tick (dt : Z) (s : Drawer) : Drawer :=
  let t := now s + dt in
  mkDrawer (is_open s && forallb (λ d, t <? d) (timers s)) (submitting s) (success s) (root s) (List.filter (λ d, t <? d) (timers s)) t
    (flights s) (sent s).
Inductive pw_event := Open | Close | Submit (v : PasswordValues) | Answer (r : option (option Z)) | Tick (dt : Z).
Definition pw_step (s : Drawer) (e : pw_event) : Drawer :=
  match e with
  | Open => open_ s
  | Close => mkDrawer false (submitting s) (success s) (root s) (timers s) (now s) (flights s) (sent s)
  | Submit v => if is_open s && negb (submitting s) && can_submit v then change_onValid v s else s
  | Answer r => on_answer r s
  | Tick dt => tick dt s
  end.
(** Every password sent comes with the current one and was typed twice alike. *)
Lemma passwords_sent es t :
  Forall (λ v, current v ≠ [] ∧ (5 <= length (newPw v) <= 32)%nat ∧ confirmPw v = newPw v) (sent (fold_left pw_step es (closed t))).
Proof.
  assert (Forall (λ v, can_submit v = true) (sent (fold_left pw_step es (closed t)))) as H; [|eapply Forall_impl; [exact H|]; intros v; apply change_password_exact].
  assert (Forall (λ v, can_submit v = true) (sent (closed t))) as H by constructor. revert H. generalize (closed t).
  induction es as [|e es IH]; intros s H; [done|]. cbn. apply IH. destruct e as [| |v|r|dt]; cbn.
  - unfold open_. by destruct (is_open s).
  - done.
  - destruct (_ && can_submit v) eqn:E; [|done]. apply andb_prop in E as [_ E]. cbn. apply Forall_app. split; [done|]. by apply Forall_singleton.
  - unfold on_answer. destruct (flights s); [done|]. by destruct r.
  - done.
Qed.
(** Closed by hand and opened again, the drawer is shut by the timer of the change before. *)
Example late_close : let v := mkPasswords (js "old12") (js "new12") (js "new12") in
  is_open (fold_left pw_step [Open; Submit v; Answer None; Close; Open; Tick 1200] (closed 0)) = false.
Proof. reflexivity. Qed.
End Account.

(** ** pages/MigrationPage.tsx *)

Module Migration.
Inductive MigrationStatus := running | completed | failed | unknown.
Definition over (st : MigrationStatus) : bool := match st with completed | failed => true | _ => false end.
Record Poll := mkPoll { status : MigrationStatus; active : bool; fetching : nat; timer : bool }.
Definition mount : Poll := mkPoll unknown true 1 false.
Definition answer (r : option MigrationStatus) (s : Poll) : Poll :=
  match fetching s with
  | O => s
  | S k =>
      if active s
      then match r with
           | Some st => mkPoll st true k (if over st then timer s else true)
           | None => mkPoll unknown true k true
           end
      else mkPoll (status s) false k (timer s)
  end.
Definition fire (s : Poll) : Poll := if timer s then mkPoll (status s) (active s) (S (fetching s)) false else s.
Definition unmount (s : Poll) : Poll := mkPoll (status s) false (fetching s) false.
Inductive poll_event := Answer (r : option MigrationStatus) | Fire | Unmount.
Definition poll_step (s : Poll) (e : poll_event) : Poll := match e with Answer r => answer r s | Fire => fire s | Unmount => unmount s end.
Definition ok (s : Poll) : Prop :=
  if active s
  then if over (status s) then fetching s = 0%nat ∧ timer s = false else (fetching s + (if timer s then 1 else 0) = 1)%nat
  else timer s = false ∧ (fetching s <= 1)%nat.
(** As long as the page is there and the migration has not ended, exactly one request
    is under way or about to be made; once it ended, or the page is left, none is
    made any more. *)
Theorem migration_polls (es : list poll_event) : ok (fold_left poll_step es mount).
Proof.
  assert (ok mount) as H by done. revert H. generalize mount. induction es as [|e es IH]; intros [st a f t] H; [done|].
  cbn [fold_left]. apply IH. unfold ok, poll_step, answer, fire, unmount in *. cbn in *.
  destruct e as [r| |]; cbn.
  - destruct f as [|k]; cbn; [done|]. destruct a; cbn.
    + destruct (over st); [by destruct H|]. assert (k = 0%nat ∧ t = false) as [-> ->] by (destruct t; lia).
      destruct r as [st'|]; [|done]. by destruct (over st') eqn:E; cbn; rewrite E.
    + destruct H. split; [done|lia].
  - destruct t; cbn; [|done]. destruct a; [|by destruct H]. destruct (over st); [by destruct H|lia].
  - split; [done|]. destruct a; [|tauto]. destruct (over st); [destruct H; lia|destruct t; lia].
Qed.
End Migration.

(** ** hooks/useChatwoot.ts *)

Module Support.
Inductive ChatwootStatus := non_cloud | unavailable | no_subscription | loading | ready.
(** What the hook reads at a render: configuration, session, queries and the state of
    the widget's runtime. *)
Record Inputs := mkInputs {
  isCloudEdition : bool; hasCloudConfig : bool; userId : option jsstring; userEmail : option jsstring; userName : option jsstring;
  tenant : option jsstring; namespace : option (jsstring * bool);     (* its name, and whether its billing is active *)
  identifier : option jsstring; identifierError : bool; widgetReady : bool; widgetFailed : bool;
}.
Definition some (s : option jsstring) : bool := match s with Some x => truthy x | None => false end.
Definition hasActiveBilling (i : Inputs) : bool := match namespace i with Some (_, b) => b | None => false end.
Definition namespaceName (i : Inputs) : jsstring := match namespace i with Some (n, _) => n | None => [] end.
(** [enabled] of useSupportIdentifier. *)
Definition asks_identifier (i : Inputs) : bool := isCloudEdition i && hasCloudConfig i && hasActiveBilling i && some (tenant i).
Definition status (i : Inputs) : ChatwootStatus :=
  if negb (isCloudEdition i) then non_cloud
  else if negb (hasCloudConfig i) then unavailable
  else if widgetFailed i || identifierError i then unavailable
  else match namespace i with
       | None => loading
       | Some _ => if negb (hasActiveBilling i) then no_subscription else if negb (widgetReady i) || negb (some (identifier i)) then loading else ready
       end.
Definition injects (i : Inputs) : bool :=
  isCloudEdition i && hasCloudConfig i && hasActiveBilling i && some (identifier i) && some (userId i).

(** What the widget is told of the user; [last] is [lastIdentityRef]. *)
Record Told := mkTold { t_user : jsstring; t_email : option jsstring; t_name : option jsstring; t_hash : jsstring }.
Record Hook := mkHook { last : option jsstring; calls : list Told }.
Definition BAR : N := 124.
Definition parts (i : Inputs) : list jsstring :=
  [default [] (userId i); default [] (userEmail i); default [] (userName i); default [] (tenant i); default [] (identifier i)].
Definition identity_key (i : Inputs) : jsstring := join [BAR] (parts i).
Definition user_of (i : Inputs) : Told := mkTold (default [] (userId i)) (userEmail i) (userName i) (default [] (identifier i)).
Definition can_identify (i : Inputs) : bool := widgetReady i && some (userId i) && some (identifier i).
(** The effect, with what becomes of the call: taken, skipped by [?.] because there is
    no widget, or thrown. *)
Inductive outcome := took | absent | threw.
Definition identify (i : Inputs) (o : outcome) (h : Hook) : Hook :=
  if negb (can_identify i) || bool_decide (last h = Some (identity_key i)) then h
  else match o with
       | took => mkHook (Some (identity_key i)) (calls h ++ [user_of i])
       | absent => mkHook (Some (identity_key i)) (calls h)
       | threw => h
       end.
(** The listener of the conversation's attributes, and a message. *)
Record Listener := mkListener { l_namespace : jsstring; l_tenant : jsstring; fired : bool }.
Definition listen (i : Inputs) : option Listener :=
  if widgetReady i && some (tenant i) && truthy (namespaceName i) then Some (mkListener (namespaceName i) (default [] (tenant i)) false) else None.
Definition onMessage (l : Listener) : Listener * option (jsstring * jsstring) :=
  if fired l then (l, None) else (mkListener (l_namespace l) (l_tenant l) true, Some (l_namespace l, l_tenant l)).
Definition openWidget (i : Inputs) : bool := widgetReady i.

(** The button offers the widget exactly when there is one, for a Cloud namespace that
    pays and a user the server vouches for; until then no identifier is asked for
    where billing is inactive. *)
Lemma status_ready i : status i = ready ↔
  isCloudEdition i = true ∧ hasCloudConfig i = true ∧ widgetFailed i = false ∧ identifierError i = false ∧ hasActiveBilling i = true
  ∧ widgetReady i = true ∧ some (identifier i) = true.
Proof.
  destruct i as [c g u e n t [[m b]|] [x|] ie wr wf]; unfold status; cbn; destruct c, g, wf, ie; cbn; try naive_solver.
  - destruct b, wr; cbn; try naive_solver. destruct (truthy x); naive_solver.
  - destruct b, wr; cbn; naive_solver.
Qed.

Definition plain (i : Inputs) : Prop := Forall (λ s, BAR ∉ s) (parts i).
Lemma key_inj i j : plain i → plain j → identity_key i = identity_key j → parts i = parts j.
Proof. intros Hi Hj E. rewrite <-(split_join BAR (parts i)), <-(split_join BAR (parts j)) by done. unfold identity_key in E. by rewrite E. Qed.
(** The texts of what was told, as the key sees them. *)
Definition texts (u : Told) : list jsstring := [t_user u; default [] (t_email u); default [] (t_name u); t_hash u].
Definition hook_ok (h : Hook) : Prop := ∀ k, last h = Some k → ∃ l u j, calls h = l ++ [u] ∧ u = user_of j ∧ k = identity_key j ∧ plain j.
Lemma identify_ok i o h : hook_ok h → plain i → o ≠ absent → hook_ok (identify i o h).
Proof.
  intros H Hp Ho. unfold identify. destruct (_ || _); [done|]. destruct o; [|done..]. intros k [= <-]. by exists (calls h), (user_of i), i.
Qed.
(** Whoever was signed in before: once the widget takes the call and the session has a
    user and an identifier, what it was told last is that user, whose fields hold no
    bar; and it is told again only when something has changed.  A call is never
    skipped: the runtime reports ready only once the widget is there. *)
Theorem widget_knows_user (before : list (Inputs * outcome)) (i : Inputs) :
  Forall (λ x, plain x.1 ∧ x.2 ≠ absent) before → plain i → can_identify i = true →
  let h := identify i took (fold_left (λ h x, identify x.1 x.2 h) before (mkHook None [])) in
  (∃ l u, calls h = l ++ [u] ∧ texts u = texts (user_of i)) ∧ identify i took h = h.
Proof.
  intros Hb Hi Hc. set (h0 := fold_left _ _ _). assert (hook_ok h0) as H.
  { unfold h0. assert (hook_ok (mkHook None [])) as H by done. revert H. generalize (mkHook None []).
    induction Hb as [|[x o] l [Hx Ho] _ IH]; intros h1 H; [done|]. cbn. by apply IH, identify_ok. }
  cbn zeta. assert (last (identify i took h0) = Some (identity_key i)) as E.
  { unfold identify. rewrite Hc. cbn [negb orb]. by case_bool_decide. }
  split; [|unfold identify at 1; by rewrite Hc, bool_decide_eq_true_2].
  destruct (identify_ok i took h0 H Hi ltac:(done) _ E) as (l & u & j & -> & -> & Hk & Hj). exists l, (user_of j). split; [done|].
  apply key_inj in Hk; [|done..]. unfold parts in Hk. injection Hk as H1 H2 H3 _ H5. unfold texts, user_of. cbn. by rewrite H1, H2, H3, H5.
Qed.
(** A bar in an address: a change the widget is not told of. *)
Example bar_in_name : let user e n := mkInputs true true (Some (js "u")) (Some (js e)) (Some (js n)) (Some (js "t")) None (Some (js "h")) false true false in
  calls (identify (user "a" "b|c") took (identify (user "a|b" "c") took (mkHook None []))) = [user_of (user "a|b" "c")].
Proof. reflexivity. Qed.
(** A conversation is marked once per namespace, and never without one. *)
Lemma listener_marks i l : listen i = Some l → onMessage l = (mkListener (namespaceName i) (default [] (tenant i)) true, Some (namespaceName i, default [] (tenant i)))
  ∧ (onMessage (onMessage l).1).2 = None ∧ namespaceName i ≠ [] ∧ default [] (tenant i) ≠ [].
Proof.
  unfold listen. destruct (_ && truthy _) eqn:E; [|done]. intros [= <-]. apply andb_prop in E as [[_ Ht]%andb_prop Hn]. cbn. split_and!; try done.
  - by intros E; rewrite E in Hn.
  - destruct (tenant i) as [[|]|]; done.
Qed.
End Support.
