(* ===== verification/RecoveryPages.v ===== *)
(** * Getting back in without the second factor

    pages/MfaRecover.tsx, pages/MfaResetRequest.tsx and pages/MfaResetVerify.tsx: the
    handlers of the pages as programs over the session ([Session]), its second-factor
    store and the code fields ([Otp]).  The outcomes are stated for a page whose
    user is not signed in and that nothing else acts on while it waits. *)

From S2P Require Import Prelude JsString Terminal Chatwoot Connectivity VaultWorld VaultCrypto AuthTypes Session SessionFacts.
From S2P Require Otp.

Section Pages.
Context `{WC : WebCrypto} `{VA : VaultApi} `{PF : Platform} `{AS : AuthServer} `{PS : Persist}.
Context `{HC : !HttpClient}.
#[local] Abbreviation A := (M App).

(** [user || username] *)
Definition identifier (a : AuthState) : option jsstring := or_opt (user a) (username a).
(** The effect of the first two pages: without a name and a ticket there is nothing
    to recover. *)
Definition leave_unknown : A unit :=
  a ← gets auth;
  if negb (is_truthy (identifier a)) && negb (is_truthy (mfaToken a)) then navigate (js "/login") else mret tt.

(** ** pages/MfaRecover.tsx *)

Definition mfaRecoverResolver (recoveryCode : jsstring) : option jsstring := if truthy (trim recoveryCode) then Some (trim recoveryCode) else None.
(** [true]: the code was taken, [showTimeoutModal] is set and the field emptied. *)
Definition recover_submit (typed : jsstring) : A bool :=
  a ← gets auth;
  match mfaRecoverResolver typed with
  | None => mret false
  | Some code => try_catch (recoverWithCode code (identifier a);; mret true) (λ _, mret false)
  end.
Definition modal_shown (showTimeoutModal : bool) (a : AuthState) : bool :=
  showTimeoutModal && match mfaRecoveryExpiry a with Some n => negb (n =? 0) | None => false end.
Definition handleCloseModal : A unit := setAuth (set_recovery_expiry None);; navigate (js "/dashboard").
(** Once the server has turned the second factor off. *)
Definition disabled_mfa : A unit := updateMfaStatus false;; navigate (js "/dashboard").

(** ** pages/MfaResetRequest.tsx, pages/MfaResetVerify.tsx *)

Definition request_submit : A unit :=
  a ← gets auth;
  match identifier a with
  | Some i => if truthy i then try_catch (requestMfaReset i;; navigate (js "/mfa-reset-verify")) (λ _, mret tt) else mret tt
  | None => mret tt
  end.
Definition verify_guard : A unit :=
  t ← gets (λ w, mfaResetToken (mfaReset w));
  if is_truthy t then mret tt else navigate (js "/mfa-recover").
(** The code fields after the submission. *)
Definition verify_submit (otpMain otpRecovery : Otp.Otp) : A (Otp.Otp * Otp.Otp) :=
  if negb (Otp.isComplete otpMain) || negb (Otp.isComplete otpRecovery) then mret (otpMain, otpRecovery)
  else try_catch
         (completeMfaReset (Otp.getValue otpMain) (Otp.getValue otpRecovery);; navigate (js "/dashboard");; mret (otpMain, otpRecovery))
         (λ _, mret (Otp.reset 5 otpMain, Otp.reset 5 otpRecovery)).
End Pages.

Section Facts.
Context `{WC : WebCrypto} `{VA : VaultApi} `{PF : Platform} `{AS : AuthServer} `{PS : Persist}.
Context `{PSL : !PersistLaws} `{HC : !HttpClient} `{HCL : !HttpClientLaws}.

(** What the store is after [recoverWithCode] with a name and a reply. *)
Lemma recoverWithCode_reply code i w r s : truthy i = true → asched w = [] → token (auth w) = None →
  Session.fetch (RMfaRecover i code) None (server w) = (Some r, s) →
  let '(b, w') := recoverWithCode code (Some i) w in
  (∀ d, ok_status (http_status r) = true → http_data r = Some d →
     b = Ok tt ∧ navigations w' = navigations w ∧ token (auth w') = Some (ud_token d) ∧
     mfaRecoveryExpiry (auth w') = let e := default [] (x_expires_at r) in if truthy e then parseInt e else None) ∧
  (ok_status (http_status r) = false → http_status r ≠ 401 →
     (∃ e, b = Throw e) ∧ navigations w' = navigations w ∧ token (auth w') = None ∧
     error (auth w') = Some (js "Invalid recovery code or username")).
Proof.
  intros Hi Ha Ht Hf. unfold recoverWithCode, getAuth. rewrite (bind_ok _ _ w (user (auth w)) w), (bind_ok _ _ w (username (auth w)) w) by done.
  unfold or_opt, is_truthy. cbn [default from_option]. rewrite Hi. cbn zeta. rewrite Hi. cbn [negb default from_option]. rewrite bind_setAuth.
  set (f0 := set_error None ∘ set_loading true). set (w1 := put_auth f0 w).
  destruct (put_auth_spec f0 w) as (A1 & _). destruct (put_auth_page f0 w) as (Q1 & _ & _ & _ & Q5 & Q6). fold w1 in A1, Q1, Q5, Q6.
  rewrite Ha in Q1. assert (token (auth w1) = None) as T1 by (by rewrite A1). rewrite <-Q5 in Hf. unfold try_catch.
  destruct (ok_status (http_status r)) eqn:Hok.
  - destruct (http_data r) as [d|] eqn:Hd.
    + rewrite (bind_ok _ _ _ r (replied r s w1)) by (by apply call_success). rewrite (bind_data_of r d) by done. unfold setAuth, modify.
      split; [|done]. intros ? _ [= <-]. split; [done|].
      match goal with |- context [put_auth ?f ?x] => destruct (put_auth_spec f x) as (B1 & _); destruct (put_auth_page f x) as (_ & _ & _ & _ & _ & B6) end.
      rewrite B1, B6. by rewrite <-Q6.
    + match goal with |- let '(_, _) := ?x in _ => by destruct x end.
  - destruct (decide (http_status r = 401)) as [E|Hne].
    + match goal with |- let '(_, _) := ?x in _ => by destruct x end.
    + rewrite (bind_throw _ _ _ _ _ (call_refused _ _ _ _ Q1 T1 Hf Hok Hne)), bind_setAuth. unfold throw. split; [done|]. intros _ _.
      match goal with |- context [put_auth ?f ?x] => destruct (put_auth_spec f x) as (B1 & _); destruct (put_auth_page f x) as (_ & _ & _ & _ & _ & B6) end.
      rewrite B1, B6. split; [by eexists|]. split; [exact Q6|]. by change (auth (replied r s w1)) with (auth w1).
Qed.

(** Submitting a recovery code: a blank one is not sent; one the server takes signs
    in, and the window to turn the second factor off is shown exactly when the reply
    says when it ends; on any refusal but the session's (401), nobody is signed in
    and the page says so.  The page does not navigate by itself. *)
Theorem recover_outcomes (typed : jsstring) (w : App) :
  (trim typed = [] → recover_submit typed w = (Ok false, w)) ∧
  (∀ i r s, trim typed ≠ [] → identifier (auth w) = Some i → truthy i = true → asched w = [] → token (auth w) = None →
     Session.fetch (RMfaRecover i (trim typed)) None (server w) = (Some r, s) →
     let '(b, w') := recover_submit typed w in
     (∀ d, ok_status (http_status r) = true → http_data r = Some d →
        b = Ok true ∧ navigations w' = navigations w ∧ token (auth w') = Some (ud_token d) ∧
        (modal_shown true (auth w') = true ↔ ∃ e n, x_expires_at r = Some e ∧ truthy e = true ∧ parseInt e = Some n ∧ n ≠ 0)) ∧
     (ok_status (http_status r) = false → http_status r ≠ 401 →
        b = Ok false ∧ navigations w' = navigations w ∧ token (auth w') = None ∧ error (auth w') = Some (js "Invalid recovery code or username"))).
Proof.
  unfold recover_submit, mfaRecoverResolver. split.
  { intros E. unfold mbind, M_bind, gets. by rewrite E. }
  intros i r s Hn Hid Hi Ha Ht Hf. rewrite (bind_ok _ _ w (auth w) w) by done. destruct (trim typed) as [|c l] eqn:Et; [done|]. cbn [truthy].
  rewrite Hid. pose proof (recoverWithCode_reply (c :: l) i w r s Hi Ha Ht Hf) as H. unfold try_catch, mbind, M_bind.
  destruct (recoverWithCode (c :: l) (Some i) w) as [[[]|e] w'] eqn:E; cbn; destruct H as [H1 H2]; split.
  - intros d Hok Hd. destruct (H1 d Hok Hd) as (_ & Hv & Htok & He). split; [done|]. split; [done|]. split; [done|]. unfold modal_shown. rewrite He. cbn.
    destruct (x_expires_at r) as [e|]; cbn; [|naive_solver]. destruct (truthy e) eqn:Ee; [|naive_solver]. destruct (parseInt e) as [n|] eqn:En; [|naive_solver].
    rewrite negb_true_iff, Z.eqb_neq. naive_solver.
  - intros Hok Hne. by destruct (H2 Hok Hne) as ([? ?] & _).
  - intros d Hok Hd. by destruct (H1 d Hok Hd) as (? & _).
  - intros Hok Hne. by destruct (H2 Hok Hne) as (_ & ?).
Qed.

(** ** The reset by e-mail *)

Lemma request_sends i w r s : identifier (auth w) = Some i → truthy i = true → asched w = [] → token (auth w) = None →
  Session.fetch (RRequestResetMfa i) None (server w) = (Some r, s) → ok_status (http_status r) = true →
  request_submit w = (Ok tt,
    set_navigations (navigations w ++ [js "/mfa-reset-verify"])
      (set_mfaReset (mkMfaReset (Some (http_reset_token r)) (Some i) false None)
         (replied r s (set_mfaReset (mkMfaReset (mfaResetToken (mfaReset w)) (mfaResetIdentifier (mfaReset w)) true None) w)))).
Proof.
  intros Hid Hi Ha Ht Hf Hok. unfold request_submit. rewrite (bind_ok _ _ w (auth w) w) by done. rewrite Hid, Hi. unfold requestMfaReset, put_mfaReset.
  unfold try_catch, mbind at 1 2, M_bind at 1 2, modify at 1.
  match goal with |- context [(send _ ≫= _) ?x] => rewrite (bind_ok _ _ x r (replied r s x)) by (by apply call_success) end. reflexivity.
Qed.

Lemma completeMfaReset_reply m c t w r s : mfaResetToken (mfaReset w) = Some t → truthy t = true → asched w = [] → token (auth w) = None →
  Session.fetch (RResetMfa t m c) None (server w) = (Some r, s) →
  let '(b, w') := completeMfaReset m c w in
  (∀ d, ok_status (http_status r) = true → http_data r = Some d →
     b = Ok tt ∧ token (auth w') = Some (ud_token d) ∧ mfaResetToken (mfaReset w') = None ∧ navigations w' = navigations w) ∧
  (ok_status (http_status r) = false → http_status r ≠ 401 →
     (∃ e, b = Throw e) ∧ token (auth w') = None ∧ mfaResetToken (mfaReset w') = Some t ∧ navigations w' = navigations w).
Proof.
  intros Hr Ht Ha Htok Hf. unfold completeMfaReset, put_mfaReset. rewrite (bind_ok _ _ w (Some t) w) by (unfold gets; by rewrite Hr).
  unfold is_truthy. cbn [default from_option]. rewrite Ht. cbn [negb]. set (w1 := set_mfaReset ((mr_set_error None ∘ mr_set_loading true) (mfaReset w)) w).
  rewrite (bind_ok _ _ w tt w1) by done. unfold try_catch. destruct (ok_status (http_status r)) eqn:Hok.
  - destruct (http_data r) as [d|] eqn:Hd; [|match goal with |- let '(_, _) := ?x in _ => by destruct x end].
    rewrite (bind_ok _ _ w1 r (replied r s w1)) by (by apply call_success). rewrite (bind_data_of r d) by done. rewrite bind_setAuth.
    unfold modify. split; [|done]. intros ? _ [= <-]. split; [done|].
    match goal with |- context [put_auth ?f ?x] => destruct (put_auth_spec f x) as (B1 & _); destruct (put_auth_page f x) as (_ & _ & _ & _ & _ & B6) end.
    cbn [auth set_mfaReset mfaReset navigations]. by rewrite B1, B6.
  - destruct (decide (http_status r = 401)) as [E|Hne]; [match goal with |- let '(_, _) := ?x in _ => by destruct x end|].
    rewrite (bind_throw _ _ w1 (http_error r) (replied r s w1)) by (by apply call_refused). split; [done|]. intros _ _. split; [by eexists|done].
Qed.

(** The codes of both e-mails end the reset that was asked for: sent with its token,
    they sign in, use it up and lead to the dashboard; refused, the fields are empty
    again, the token stays for another try and nobody is signed in. *)
Theorem reset_flow (i : jsstring) (w : App) (r r' : HttpResponse) (s s' : ASrv) (otpMain otpRecovery : Otp.Otp)
    (Hid : identifier (auth w) = Some i) (Hi : truthy i = true) (Ha : asched w = []) (Ht : token (auth w) = None)
    (Hf : Session.fetch (RRequestResetMfa i) None (server w) = (Some r, s)) (Hok : ok_status (http_status r) = true)
    (Htok : truthy (http_reset_token r) = true) (Hm : Otp.isComplete otpMain = true) (Hr : Otp.isComplete otpRecovery = true)
    (Hf' : Session.fetch (RResetMfa (http_reset_token r) (Otp.getValue otpMain) (Otp.getValue otpRecovery)) None s = (Some r', s')) :
  ∃ w1, request_submit w = (Ok tt, w1) ∧ token (auth w1) = None ∧
  let '(b, w2) := verify_submit otpMain otpRecovery w1 in
  (∀ d, ok_status (http_status r') = true → http_data r' = Some d →
     b = Ok (otpMain, otpRecovery) ∧ token (auth w2) = Some (ud_token d) ∧ mfaResetToken (mfaReset w2) = None ∧
     navigations w2 = navigations w ++ [js "/mfa-reset-verify"; js "/dashboard"]) ∧
  (ok_status (http_status r') = false → http_status r' ≠ 401 →
     b = Ok (Otp.reset 5 otpMain, Otp.reset 5 otpRecovery) ∧ token (auth w2) = None ∧
     mfaResetToken (mfaReset w2) = Some (http_reset_token r) ∧ navigations w2 = navigations w ++ [js "/mfa-reset-verify"]).
Proof.
  eexists. split; [by apply request_sends|]. set (w1 := set_navigations _ _). split; [exact Ht|].
  pose proof (completeMfaReset_reply (Otp.getValue otpMain) (Otp.getValue otpRecovery) (http_reset_token r) w1 r' s' eq_refl Htok Ha Ht Hf') as H.
  unfold verify_submit. rewrite Hm, Hr. cbn [negb orb]. unfold try_catch, mbind at 1, M_bind at 1.
  destruct (completeMfaReset _ _ w1) as [[[]|e] w2] eqn:E; destruct H as [H1 H2]; cbn; split.
  - intros d Hk Hd. destruct (H1 d Hk Hd) as (_ & ? & ? & ->). split_and!; try done. cbn. by rewrite <-app_assoc.
  - intros Hk Hne. by destruct (H2 Hk Hne) as ([? ?] & _).
  - intros d Hk Hd. by destruct (H1 d Hk Hd) as (? & _).
  - intros Hk Hne. by destruct (H2 Hk Hne) as (_ & ? & ? & ?).
Qed.
End Facts.
