(* ===== verification/KeyDrawers.v ===== *)
(** * Drawers that add keys, dialogs that show secrets, two settings editors

    pages/ssh-identities/IdentityDrawer.tsx and pages/team/ServiceAccountDrawer.tsx;
    pages/install-keys/RevealInstallKeyDialog.tsx with hooks/useRevealInstallKey.ts;
    pages/team/GenerateKeyDrawer.tsx; pages/BannerEdit.tsx;
    pages/admin/settings/Authentication.tsx.  State machines over what is typed and
    clicked and over answers in any order. *)

From S2P Require Import Prelude JsString JsJson JsRegex Permission Schemas SshKeys SshIdentity.
From S2P Require AccountForms SettingsPages.

(** What a right needs of the role. *)
Definition allowed (role : option jsstring) (action : string) : Prop :=
  ∃ r need, role = Some (role_name r) ∧ assoc (js action) permissions = Some need ∧ level need <= role_level r.
Definition may (role : option jsstring) (action : string) : bool := hasPermission role (js action).
Lemma role_may_allowed role a : may role a = true → allowed role a.
Proof. apply hasPermission_true. Qed.

(** ** IdentityDrawer, ServiceAccountDrawer *)

Module Identity.
Inductive Target := self | service_account.
#[export] Instance Target_eq : EqDecision Target. Proof. solve_decision. Defined.
(** Which of the two drawers. *)
Inductive Which := identity_drawer | service_drawer.
Inductive request :=
  | RenameIdentity (id name : jsstring)
  | AddIdentity (name data : jsstring) (expiry : option jsnum)
  | AddServiceAccount (name data : jsstring) (lifecycle : bool * option jsnum).
Record Form := mkForm {
  is_open : bool; editIdentity : option jsstring; target : Target; name : jsstring; keyData : jsstring; keyError : option string;
  expiresIn : jsstring; singleUse : bool; submitting : bool; error : option jsstring;
  flights : list bool;             (* requests on their way: does it rename? *)
  requests : list request;
}.
Definition closed : Form := mkForm false None self [] [] None (js "-1") false false None [] [].
Definition put (t : Target) (n k : jsstring) (ke : option string) (x : jsstring) (su : bool) (f : Form) : Form :=
  mkForm (is_open f) (editIdentity f) t n k ke x su (submitting f) (error f) (flights f) (requests f).

Section Drawer.
Context (which : Which) (role : option jsstring).
#[local] Abbreviation canCreateServiceAccount := (may role "serviceAccount:create").
Definition isEdit (f : Form) : bool := bool_decide (is_Some (editIdentity f)).
Definition isServiceAccount (f : Form) : bool :=
  match which with identity_drawer => negb (isEdit f) && bool_decide (target f = service_account) | service_drawer => true end.
(** Opening asks for the right of the button, and resets. *)
Definition open_ (e : option (jsstring * jsstring)) (f : Form) : Form :=
  if is_open f then f
  else mkForm true (fst <$> e) self (match e with Some (_, n) => n | None => [] end) [] None (js "-1") false false None (flights f) (requests f).
Definition handleKeyDataChange (v : jsstring) (f : Form) : Form :=
  put (target f) (name f) v (if truthy v && negb (isPublicKeyValid v) then Some "This is not a valid public key."%string else None) (expiresIn f) (singleUse f) f.
Definition handleFileName (filename : jsstring) (f : Form) : Form :=
  if truthy (name f) then f
  else put (target f) (if truthy filename then filename else js "Imported key") (keyData f) (keyError f) (expiresIn f) (singleUse f) f.
Definition confirmDisabled (f : Form) : bool :=
  if isEdit f then negb (truthy (trim (name f)))
  else negb (truthy (trim (name f))) || negb (truthy (trim (keyData f))) || bool_decide (is_Some (keyError f)).
Definition request_of (f : Form) : request :=
  match editIdentity f with
  | Some id => RenameIdentity id (trim (name f))
  | None =>
      if isServiceAccount f
      then AddServiceAccount (trim (name f)) (trim (keyData f)) (serviceAccountLifecyclePayload (expiresIn f) (singleUse f))
      else AddIdentity (trim (name f)) (trim (keyData f)) (keyExpiryPayload (expiresIn f))
  end.
Definition handleSubmit (f : Form) : Form :=
  if confirmDisabled f then f
  else mkForm (is_open f) (editIdentity f) (target f) (name f) (keyData f) (keyError f) (expiresIn f) (singleUse f) true None (flights f ++ [isEdit f])
         (requests f ++ [request_of f]).
(** The [i]-th request is answered: a failure is a [409] or not, and has a message; a
    success closes the drawer, and its page forgets which key it edits. *)
Definition on_answer (i : nat) (r : option (bool * jsstring)) (f : Form) : Form :=
  match flights f !! i with
  | None => f
  | Some ed =>
      let settle (o : bool) (ei : option jsstring) (ke : option string) (e : option jsstring) :=
        mkForm o ei (target f) (name f) (keyData f) ke (expiresIn f) (singleUse f) false e (delete i (flights f)) (requests f) in
      match r with
      | None => settle false None (keyError f) (error f)
      | Some (enrolled, m) =>
          if negb ed && enrolled then settle (is_open f) (editIdentity f) (Some "This key is already an identity in this namespace."%string) (error f)
          else settle (is_open f) (editIdentity f) (keyError f) (Some m)
      end
  end.
Inductive event :=
  | Open (e : option (jsstring * jsstring)) | Close | Pick (t : Target) | TypeName (v : jsstring) | TypeKey (v : jsstring) | FileName (v : jsstring)
  | PickExpiry (v : jsstring) | TickSingleUse (b : bool) | Save | Enter | Answer (i : nat) (r : option (bool * jsstring)).
Definition can_open (e : option (jsstring * jsstring)) : bool :=
  match which with
  | identity_drawer => may role "sshIdentity:add"
  | service_drawer => canCreateServiceAccount && match e with None => true | Some _ => false end
  end.
Definition step (f : Form) (e : event) : Form :=
  match e with
  | Open i => if can_open i then open_ i f else f
  | Answer i r => on_answer i r f
  | _ =>
      if negb (is_open f) then f
      else match e with
           | Close => mkForm false None (target f) (name f) (keyData f) (keyError f) (expiresIn f) (singleUse f) (submitting f) (error f)
                        (flights f) (requests f)
           | Pick t =>
               if match which with identity_drawer => negb (isEdit f) && canCreateServiceAccount | service_drawer => false end
               then put t (name f) (keyData f) (keyError f) (expiresIn f) (singleUse f) f else f
           | TypeName v => put (target f) v (keyData f) (keyError f) (expiresIn f) (singleUse f) f
           | TypeKey v => if isEdit f then f else handleKeyDataChange v f
           | FileName v => if isEdit f then f else match which with identity_drawer => handleFileName v f | service_drawer => f end
           | PickExpiry v => if isEdit f then f else put (target f) (name f) (keyData f) (keyError f) v (singleUse f) f
           | TickSingleUse b => if isServiceAccount f then put (target f) (name f) (keyData f) (keyError f) (expiresIn f) b f else f
           | Save => if submitting f then f else handleSubmit f
           | _ => handleSubmit f
           end
  end.

Definition name_ok (n : jsstring) : Prop := n ≠ [] ∧ trim n = n.
Definition key_ok (k : jsstring) : Prop := isPublicKeyValid k = true ∧ trim k = k.
Definition request_ok (r : request) : Prop :=
  match r with
  | RenameIdentity _ n => name_ok n ∧ allowed role "sshIdentity:add"
  | AddIdentity n k _ => name_ok n ∧ key_ok k ∧ allowed role "sshIdentity:add"
  | AddServiceAccount n k _ => name_ok n ∧ key_ok k ∧ allowed role "serviceAccount:create"
  end.
Definition key_checked (f : Form) : Prop := keyError f = None → keyData f = [] ∨ isPublicKeyValid (keyData f) = true.
Definition rights (f : Form) : Prop :=
  (is_open f = true → match which with
                      | identity_drawer => may role "sshIdentity:add" = true
                      | service_drawer => canCreateServiceAccount = true ∧ editIdentity f = None
                      end)
  ∧ (target f = service_account → canCreateServiceAccount = true).
Definition inv (f : Form) : Prop := Forall request_ok (requests f) ∧ key_checked f ∧ rights f.

Lemma valid_trimmed k : isPublicKeyValid k = true → key_ok (trim k).
Proof. intros H. split; [|apply trim_idemp]. unfold isPublicKeyValid in *. by rewrite trim_idemp. Qed.
Lemma trimmed_name n : truthy (trim n) = true → name_ok (trim n).
Proof. intros H. split; [by destruct (trim n)|apply trim_idemp]. Qed.
Lemma request_of_ok f : inv f → is_open f = true → confirmDisabled f = false → request_ok (request_of f).
Proof.
  intros (_ & Hk & Ho & Ht) Hopen. specialize (Ho Hopen). unfold confirmDisabled, request_of, isServiceAccount, isEdit. destruct (editIdentity f) as [id|].
  - cbn. intros Hn%negb_false_iff%trimmed_name. split; [done|]. destruct which; [by apply role_may_allowed|by destruct Ho].
  - cbn. intros [[Hn%negb_false_iff%trimmed_name Hd%negb_false_iff]%orb_false_iff He%bool_decide_eq_false]%orb_false_iff.
    assert (key_ok (trim (keyData f))) as Hok.
    { destruct Hk as [E|E]; [by destruct (keyError f); [destruct He; eexists|]|by rewrite E in Hd|by apply valid_trimmed]. }
    destruct which; cbn; [|destruct Ho; split_and!; [done..|by apply role_may_allowed]].
    case_bool_decide as E; cbn; (split_and!; [done..|]); apply role_may_allowed; auto.
Qed.
Lemma inv_submit f : inv f → is_open f = true → inv (handleSubmit f).
Proof.
  intros H Ho. unfold handleSubmit. destruct (confirmDisabled f) eqn:E; [done|]. pose proof H as (H1 & H2 & H3). split; [|done].
  cbn. apply Forall_app. split; [done|]. apply Forall_singleton. by apply request_of_ok.
Qed.
Lemma inv_put t n k ke x su f : inv f → (t = service_account → canCreateServiceAccount = true) → key_checked (put t n k ke x su f) → inv (put t n k ke x su f).
Proof. intros (H1 & _ & Ho & _) Ht Hk. split; [done|]. split; [done|]. by split. Qed.
Lemma inv_key_step f e : inv f → inv (step f e).
Proof.
  intros H. pose proof H as (H1 & H2 & H3). pose proof (proj2 H3) as H4.
  assert (∀ v, key_checked (handleKeyDataChange v f)) as Hkey.
  { intros v. unfold key_checked, handleKeyDataChange. cbn. destruct v as [|c v]; [by left|]. cbn. destruct (isPublicKeyValid (c :: v)) eqn:E; [by right|done]. }
  destruct e as [e| |t|v|v|v|v|b| | |i r]; cbn [step].
  1: { destruct (can_open e) eqn:E; [|done]. unfold open_. destruct (is_open f); [done|]. split; [done|]. split; [by left|]. split; [|done]. cbn.
       intros _. unfold can_open in E. destruct which; [done|]. apply andb_prop in E as [E1 E2]. by destruct e. }
  10: { unfold on_answer. destruct (flights f !! i) as [ed|]; [|done]. destruct r as [[en m]|]; [destruct (negb ed && en)|];
          (split; [done|]); (split; [done|]); split; try exact H4; [apply H3..|done]. }
  all: destruct (is_open f) eqn:Eo; cbn [negb]; [|done].
  - split; [done|]. split; [done|]. split; [done|exact H4].
  - match goal with |- inv (if ?b then _ else _) => destruct b eqn:E end; [|done]. apply inv_put; [done| |done]. intros _.
    destruct which; [|done]. by apply andb_prop in E as [_ E].
  - by apply inv_put.
  - destruct (isEdit f); [done|]. apply inv_put; [done..|apply Hkey].
  - destruct (isEdit f); [done|]. assert (inv (handleFileName v f)) by (unfold handleFileName; destruct (truthy (name f)); [done|by apply inv_put]). by case which.
  - destruct (isEdit f); [done|]. by apply inv_put.
  - destruct (isServiceAccount f); [|done]. by apply inv_put.
  - destruct (submitting f); [done|]. by apply inv_submit.
  - by apply inv_submit.
Qed.
(** Whatever is typed, picked, dropped and clicked in either drawer, in whatever order
    the answers come: each key sent has a name and is one the check takes, both without
    surrounding blanks; a service account is created only by who may; a key of a person
    is never sent as single-use (its request has no such part). *)
Theorem identity_requests (es : list event) : Forall request_ok (requests (fold_left step es closed)).
Proof.
  assert (inv (fold_left step es closed)) as [? _]; [|done].
  assert (inv closed) as H by (split; [constructor|split; [by left|by split]]). revert H. generalize closed.
  induction es as [|e es IH]; intros f H; [done|]. cbn. by apply IH, inv_key_step.
Qed.
End Drawer.
(** The answer to an abandoned request closes the drawer opened for the next key. *)
Example late_identity_closes : let k := js "ssh-ed25519 AAAAC3NzaC1lZDI1" in
  is_open (fold_left (step identity_drawer (Some (js "owner"))) [Open None; TypeName (js "laptop"); TypeKey k; Save; Close; Open None; TypeName (js "ci"); Answer 0 None] closed)
  = false.
Proof. reflexivity. Qed.
End Identity.

(** ** RevealInstallKeyDialog, useRevealInstallKey *)

Module Reveal.
(** [held]: the secret in the cache of the query the dialog observes; [gcTime] 0 drops
    it with the observer.  [asked]: the requests made. *)
Record Dialog := mkDialog { installKey : option (jsstring * bool); revealed : bool; held : option (jsstring * jsstring); asked : list jsstring }.
Definition shut : Dialog := mkDialog None false None [].
Definition key_name (k : option (jsstring * bool)) : option jsstring := fst <$> k.
(** The query: of the name of a key that has a secret. *)
Definition observed (k : option (jsstring * bool)) : option jsstring :=
  match k with Some (n, true) => if truthy n then Some n else None | _ => None end.

Section Role.
Context (role : option jsstring).
(** The page targets another key, none, or the same one as a newer row. *)
Definition retarget (k : option (jsstring * bool)) (s : Dialog) : Dialog :=
  mkDialog k (if bool_decide (key_name k = key_name (installKey s)) then revealed s else false)
    (if bool_decide (observed k = observed (installKey s)) then held s else None) (asked s).
(** [stale]: a secret still in the cache has outlived the client's stale time. *)
Definition reveal (stale : bool) (s : Dialog) : Dialog :=
  match observed (installKey s) with
  | Some n =>
      if revealed s || negb (may role "installKey:reveal") then s
      else mkDialog (installKey s) true (held s) (match held s with Some _ => if stale then asked s ++ [n] else asked s | None => asked s ++ [n] end)
  | None => s
  end.
(** The answer to a request for the key [n]; nobody observing it, it is dropped. *)
Definition on_secret (n k : jsstring) (s : Dialog) : Dialog :=
  if bool_decide (n ∈ asked s) && bool_decide (observed (installKey s) = Some n) then mkDialog (installKey s) (revealed s) (Some (n, k)) (asked s) else s.
Inductive reveal_event := Retarget (k : option (jsstring * bool)) | Reveal (stale : bool) | Secret (n k : jsstring).
Definition reveal_step (s : Dialog) (e : reveal_event) : Dialog :=
  match e with Retarget k => retarget k s | Reveal b => reveal b s | Secret n k => on_secret n k s end.
Definition shown (s : Dialog) : option jsstring := if revealed s then snd <$> held s else None.

Definition ok (es : list reveal_event) (s : Dialog) : Prop :=
  (revealed s = true → allowed role "installKey:reveal") ∧ (asked s ≠ [] → allowed role "installKey:reveal")
  ∧ ∀ n k, held s = Some (n, k) → observed (installKey s) = Some n ∧ Secret n k ∈ es ∧ n ∈ asked s.
Lemma reveal_step_ok es s e : ok es s → ok (es ++ [e]) (reveal_step s e).
Proof.
  intros (H1 & H2 & H3). assert (∀ n k, Secret n k ∈ es → Secret n k ∈ es ++ [e]) as Hin by (intros; apply elem_of_app; by left).
  destruct e as [t|stale|n k]; cbn [reveal_step].
  - split_and!; cbn; [by case_bool_decide|done|]. intros n k. case_bool_decide as E; [|done]. rewrite E. naive_solver.
  - unfold reveal. assert (ok (es ++ [Reveal stale]) s) as Hs by (split_and!; [done..|naive_solver]).
    destruct (observed (installKey s)) as [n|] eqn:E; [|done]. destruct (_ || _) eqn:Em; [done|].
    apply orb_false_iff in Em as [_ Em%negb_false_iff%role_may_allowed]. split_and!; cbn; [done|done|]. intros m k Hh. destruct (H3 _ _ Hh) as (? & ? & ?).
    rewrite Hh. split; [congruence|]. split; [auto|]. destruct stale; [|done]. apply elem_of_app. by left.
  - unfold on_secret. destruct (_ && _) eqn:E; [|split_and!; [done..|naive_solver]]. apply andb_prop in E as [Ea%bool_decide_eq_true Eo%bool_decide_eq_true].
    split_and!; cbn; [done|done|]. intros ? ? [= <- <-]. split; [done|]. split; [|done]. apply elem_of_app. right. by apply list_elem_of_singleton.
Qed.
(** A secret is shown only to who may reveal it, for the key the dialog is open for,
    as the server gave it to a request made for that key; closing the dialog forgets
    it, and the next opening shows nothing before another click. *)
Theorem reveal_on_demand (es : list reveal_event) :
  let s := fold_left reveal_step es shut in
  (∀ k, shown s = Some k → allowed role "installKey:reveal" ∧ ∃ n, observed (installKey s) = Some n ∧ Secret n k ∈ es ∧ n ∈ asked s)
  ∧ held (retarget None s) = None ∧ (∀ k, k ≠ None → shown (retarget k (retarget None s)) = None).
Proof.
  cbn zeta. assert (ok es (fold_left reveal_step es shut)) as (H1 & _ & H3).
  { assert (∀ es' pre s, ok pre s → ok (pre ++ es') (fold_left reveal_step es' s)) as H.
    { induction es' as [|e l IH]; intros pre s H; cbn; [by rewrite app_nil_r|]. change (e :: l) with ([e] ++ l). rewrite app_assoc. by apply IH, reveal_step_ok. }
    apply (H es [] shut). split_and!; done. }
  revert H1 H3. generalize (fold_left reveal_step es shut). intros s H1 H3. split_and!.
  - intros k. unfold shown. destruct (revealed s); [|done]. destruct (held s) as [[n k']|] eqn:E; [|done]. intros [= <-]. split; [auto|]. exists n. by apply H3.
  - cbn. case_bool_decide as E; [|done]. destruct (held s) as [[n k]|] eqn:Eh; [|done]. destruct (H3 n k) as (Ho & _); [done|]. by rewrite Ho in E.
  - intros k Hk. unfold shown. cbn. rewrite bool_decide_eq_false_2; [done|]. by destruct k.
Qed.
End Role.
(** The dialog closed while the secret was fetched and opened again: the answer is kept
    behind the lock, and the next click shows it without a request. *)
Example revealed_from_before : let s := fold_left (reveal_step (Some (js "owner")))
    [Retarget (Some (js "fleet", true)); Reveal true; Retarget None; Retarget (Some (js "fleet", true)); Secret (js "fleet") (js "k"); Reveal false] shut in
  shown s = Some (js "k") ∧ asked s = [js "fleet"].
Proof. by vm_compute. Qed.
End Reveal.

(** ** GenerateKeyDrawer *)

Module Generate.
Import AccountForms.Team.
Record Drawer := mkDrawer {
  g_open : bool; generatedKey : jsstring; g_submitting : bool; g_error : option (string * string); g_flights : nat; g_sent : list (jsstring * jsstring * jsnum);
}.
Definition generate_closed : Drawer := mkDrawer false [] false None 0 [].
Definition generate_error (status : option Z) : string * string :=
  if bool_decide (status = Some 400) then ("name", "Name must be 3–20 characters: letters, numbers, - and _ only.")
  else ("root", "Failed to generate API key. The name may already exist.").
Inductive generate_event := OpenG | CloseG | SubmitG (v : NewKey) | AnswerG (r : jsstring + option Z).
Definition generate_step (role : option jsstring) (s : Drawer) (e : generate_event) : Drawer :=
  match e with
  | OpenG => if g_open s || negb (may role "apiKey:create") then s else mkDrawer true [] false None (g_flights s) (g_sent s)
  | CloseG => mkDrawer false (generatedKey s) (g_submitting s) (g_error s) (g_flights s) (g_sent s)
  | SubmitG v =>
      if g_open s && negb (truthy (generatedKey s)) && bool_decide (generateKeySchema v = []) && negb (g_submitting s)
      then mkDrawer true (generatedKey s) true None (S (g_flights s)) (g_sent s ++ [buildGenerateKeyBody v]) else s
  | AnswerG r =>
      match g_flights s, r with
      | O, _ => s
      | S k, inl key => mkDrawer (g_open s) key false (g_error s) k (g_sent s)
      | S k, inr st => mkDrawer (g_open s) (generatedKey s) false (Some (generate_error st)) k (g_sent s)
      end
  end.
(** Every key asked for has a valid name and a role that can be given away. *)
Lemma generated_keys role es :
  Forall (λ b, ((3 <= length b.1.1 <= 20)%nat ∧ Forall (λ c, key_char c = true) b.1.1) ∧ b.1.2 ∈ ROLES ∧ allowed role "apiKey:create")
    (g_sent (fold_left (generate_step role) es generate_closed)).
Proof.
  set (P b := (_ ∧ _ ∧ _)). assert (∀ s, Forall P (g_sent s) ∧ (g_open s = true → allowed role "apiKey:create") →
    ∀ e, Forall P (g_sent (generate_step role s e)) ∧ (g_open (generate_step role s e) = true → allowed role "apiKey:create")) as Hstep.
  { intros s [H Ho] e. destruct e as [| |v|r]; cbn.
    - destruct (_ || _) eqn:E; [done|]. apply orb_false_iff in E as [_ E%negb_false_iff%role_may_allowed]. done.
    - done.
    - destruct (_ && _) eqn:E; [|done]. apply andb_prop in E as [[[Eo _]%andb_prop Ev%bool_decide_eq_true]%andb_prop _]. cbn. split; [|auto].
      apply Forall_app. split; [done|]. apply Forall_singleton. unfold generateKeySchema in Ev. apply app_nil in Ev as [E1%report_nil E2%report_nil%unless_none%bool_decide_eq_true].
      apply api_key_name_exact in E1 as [El Ec]. unfold P, buildGenerateKeyBody. cbn. rewrite trim_no_ws; [auto|]. eapply Forall_impl; [exact Ec|].
      intros c. unfold key_char, is_ws, is_lower, is_upper, is_digit, in_range. rewrite !orb_true_iff, !andb_true_iff, !N.eqb_eq, !N.leb_le. intros Hc.
      apply not_true_iff_false. rewrite !orb_true_iff, ?andb_true_iff, ?N.eqb_eq, ?N.leb_le. lia.
    - by destruct (g_flights s), r. }
  assert (Forall P (g_sent generate_closed) ∧ (g_open generate_closed = true → allowed role "apiKey:create")) as H by done. revert H.
  generalize generate_closed. induction es as [|e es IH]; intros s H; [by destruct H|]. cbn. by apply IH, Hstep.
Qed.
(** The key of an abandoned request is shown in the drawer opened for the next. *)
Example late_key_shown : let v := mkNewKey (js "ci-bot") (js "operator") (js "30") in
  let s := fold_left (generate_step (Some (js "owner"))) [OpenG; SubmitG v; CloseG; OpenG; AnswerG (inl (js "k1"))] generate_closed in
  (generatedKey s, length (g_sent s)) = (js "k1", 1%nat).
Proof. by vm_compute. Qed.
End Generate.

(** ** BannerEdit *)

Module Banner.
Import SettingsPages.NamespaceSettings.
Definition MAX_LENGTH : nat := 4096.
Record Editor := mkEditor { text : jsstring; saving : bool; failed_ : string; left_ : bool; saves : list (jsstring * bool * AccessMode) }.
Definition editor (n : Ns) : Editor := mkEditor (banner n) false "" false [].
Definition changed (n : Ns) (s : Editor) : bool := negb (bool_decide (text s = banner n)).
Definition overLimit (s : Editor) : bool := (MAX_LENGTH <? length (text s))%nat.
Definition handleSave (n : Ns) (s : Editor) : Editor :=
  if negb (changed n s) || overLimit s || saving s then s
  else mkEditor (text s) true "" (left_ s) (saves s ++ [(text s, sessionRecord n, sshAccessMode n)]).
Definition saved (ok : bool) (s : Editor) : Editor :=
  if negb (saving s) then s
  else if ok then mkEditor (text s) true (failed_ s) true (saves s) else mkEditor (text s) false "Failed to save. Please try again." (left_ s) (saves s).
Inductive banner_event := TypeBanner (v : jsstring) | SaveBanner | SavedBanner (ok : bool).
Definition banner_step (n : Ns) (canEdit : bool) (s : Editor) (e : banner_event) : Editor :=
  if left_ s then s
  else match e with
       | TypeBanner v => if canEdit then mkEditor v (saving s) "" (left_ s) (saves s) else s
       | SaveBanner => if canEdit then handleSave n s else s
       | SavedBanner ok => saved ok s
       end.
(** A banner is sent only by who may edit it, only when changed and within its limit,
    with the other settings as they are shown. *)
Lemma banner_saves n canEdit es :
  Forall (λ b, canEdit = true ∧ b.1.1 ≠ banner n ∧ (length b.1.1 <= 4096)%nat ∧ b.1.2 = sessionRecord n ∧ b.2 = sshAccessMode n)
    (saves (fold_left (banner_step n canEdit) es (editor n))).
Proof.
  set (P b := (_ ∧ _)). assert (Forall P (saves (editor n))) as H by constructor. revert H. generalize (editor n).
  induction es as [|e es IH]; intros s H; [done|]. cbn [fold_left]. apply IH. unfold banner_step. destruct (left_ s); [done|]. destruct e as [v| |ok]; cbn.
  - by destruct canEdit.
  - destruct canEdit eqn:Ec; [|done]. unfold handleSave. destruct (_ || _) eqn:E; [done|].
    apply orb_false_iff in E as [[E1%negb_false_iff%negb_true_iff%bool_decide_eq_false E2%Nat.ltb_ge]%orb_false_iff _]. cbn. apply Forall_app.
    split; [done|]. apply Forall_singleton. by split_and!.
  - unfold saved. destruct (negb _); [done|]. by destruct ok.
Qed.
End Banner.

(** ** admin/settings/Authentication.tsx *)

Module Authentication.
Record AuthSettings := mkAuthSettings { local_enabled : bool; saml_enabled : bool }.
Inductive auth_request := SetLocal (enable : bool) | DisableSaml.
(** [reads]: the requests for the settings on their way, by [refreshKey]; [seen]: whose
    answer is shown. *)
Record AuthPage := mkAuthPage {
  settings : option AuthSettings; page_loading : bool; togglingLocal : bool; togglingSaml : bool; page_error : option string; drawerOpen : bool;
  refreshKey : nat; reads : list nat; seen : option nat; auth_requests : list auth_request;
}.
Definition opened : AuthPage := mkAuthPage None true false false None false 0 [0%nat] None [].
Definition refresh (s : AuthPage) : AuthPage :=
  mkAuthPage (settings s) (page_loading s) (togglingLocal s) (togglingSaml s) (page_error s) (drawerOpen s) (S (refreshKey s))
    (reads s ++ [S (refreshKey s)]) (seen s) (auth_requests s).
Definition put_toggles (a b : bool) (e : option string) (s : AuthPage) : AuthPage :=
  mkAuthPage (settings s) (page_loading s) a b e (drawerOpen s) (refreshKey s) (reads s) (seen s) (auth_requests s).
Definition put_drawer (b : bool) (s : AuthPage) : AuthPage :=
  mkAuthPage (settings s) (page_loading s) (togglingLocal s) (togglingSaml s) (page_error s) b (refreshKey s) (reads s) (seen s) (auth_requests s).
Definition ask (r : auth_request) (s : AuthPage) : AuthPage :=
  mkAuthPage (settings s) (page_loading s) (togglingLocal s) (togglingSaml s) (page_error s) (drawerOpen s) (refreshKey s) (reads s) (seen s)
    (auth_requests s ++ [r]).
Definition localEnabled (s : AuthPage) : bool := match settings s with Some v => local_enabled v | None => false end.
Definition samlEnabled (s : AuthPage) : bool := match settings s with Some v => saml_enabled v | None => false end.
Definition on_read (i : nat) (r : option AuthSettings) (s : AuthPage) : AuthPage :=
  match reads s !! i with
  | Some k =>
      let current := bool_decide (k = refreshKey s) in
      mkAuthPage (if current then match r with Some v => Some v | None => settings s end else settings s)
        (if current then false else page_loading s) (togglingLocal s) (togglingSaml s)
        (if current then match r with Some _ => page_error s | None => Some "Failed to load authentication settings."%string end else page_error s)
        (drawerOpen s) (refreshKey s) (delete i (reads s)) (if current then match r with Some _ => Some k | None => seen s end else seen s) (auth_requests s)
  | None => s
  end.
Definition handleLocalToggle (s : AuthPage) : AuthPage := ask (SetLocal (negb (localEnabled s))) (put_toggles true (togglingSaml s) None s).
Definition handleSamlToggle (s : AuthPage) : AuthPage :=
  if negb (samlEnabled s) then put_drawer true s else ask DisableSaml (put_toggles (togglingLocal s) true None s).
Definition toggle_error (what : string) (status : option Z) : string :=
  if bool_decide (status = Some 400) then "You cannot disable all authentication methods." else "Failed to update " +:+ what +:+ " authentication.".
Inductive auth_event :=
  | Read (i : nat) (r : option AuthSettings) | ToggleLocal | LocalAnswer (r : option (option Z)) | ToggleSaml | SamlAnswer (r : option (option Z))
  | Saved | CloseDrawer.
Definition auth_step (s : AuthPage) (e : auth_event) : AuthPage :=
  match e with
  | Read i r => on_read i r s
  | ToggleLocal => if page_loading s || togglingLocal s then s else handleLocalToggle s
  | LocalAnswer None => if togglingLocal s then put_toggles false (togglingSaml s) (page_error s) (refresh s) else s
  | LocalAnswer (Some st) => if togglingLocal s then put_toggles false (togglingSaml s) (Some (toggle_error "local" st)) s else s
  | ToggleSaml => if page_loading s || togglingSaml s then s else handleSamlToggle s
  | SamlAnswer None => if togglingSaml s then put_toggles (togglingLocal s) false (page_error s) (refresh s) else s
  | SamlAnswer (Some st) => if togglingSaml s then put_toggles (togglingLocal s) false (Some (toggle_error "SAML" st)) s else s
  | Saved => if drawerOpen s then refresh s else s
  | CloseDrawer => put_drawer false s
  end.
(** The settings shown never go back to an older reading, whatever the order of the
    answers; and the answer to the last one is taken. *)
Definition le_opt (a b : option nat) : Prop := match a, b with Some x, Some y => (x <= y)%nat | Some _, None => False | None, _ => True end.
Definition fresh_ok (s : AuthPage) : Prop := le_opt (seen s) (Some (refreshKey s)).
Lemma auth_step_fresh s e : fresh_ok s → fresh_ok (auth_step s e) ∧ le_opt (seen s) (seen (auth_step s e)).
Proof.
  assert (∀ a, le_opt a a) as Hr by (intros [x|]; cbn; lia). unfold fresh_ok. intros H.
  destruct e as [i r| |[st|]| |[st|]| |]; cbn [auth_step].
  1: { unfold on_read. destruct (reads s !! i) as [k|]; [|done]. cbn. case_bool_decide as E; [|done]. destruct r; [|done]. subst k. cbn. split; [lia|].
       destruct (seen s); cbn in *; lia. }
  2, 5: match goal with |- context [if ?b then _ else _] => destruct b end; done.
  all: unfold handleSamlToggle; repeat match goal with |- context [if ?b then _ else _] => destruct b end; try done; cbn; (split; [|done]); destruct (seen s); cbn in *; lia.
Qed.
Lemma settings_never_older es s : fresh_ok s → le_opt (seen s) (seen (fold_left auth_step es s)).
Proof.
  revert s. induction es as [|e es IH]; intros s H; cbn; [destruct (seen s); cbn; lia|]. destruct (auth_step_fresh s e H) as [H1 H2].
  specialize (IH _ H1). destruct (seen s), (seen (auth_step s e)), (seen (fold_left auth_step es (auth_step s e))); cbn in *; lia || done.
Qed.
Lemma last_reading_shown i v s : reads s !! i = Some (refreshKey s) → settings (auth_step s (Read i (Some v))) = Some v ∧ page_loading (auth_step s (Read i (Some v))) = false.
Proof. intros E. cbn. unfold on_read. rewrite E. cbn. by rewrite bool_decide_eq_true_2. Qed.
End Authentication.
